(* ===== verification/_CoqProject ===== *)
-Q . S2P
Prelude.v
KList.v
KListSort.v
HashTable.v
Arithmetic.v
Bitmap.v
Palloc.v
Malloc.v
PageDir.v
FixedPoint.v
Thread.v
Machine.v
Preempt.v
Exclusion.v
Sched.v
Priority.v
Sleep.v
StringC.v
StdlibC.v
Stdio.v
Path.v
Inode.v
InodeFile.v
Directory.v
DirEntries.v
Vm.v
VmSwap.v
Fault.v
ArgStack.v
UserMem.v
Process.v
Syscall.v
SysIO.v
ExitWait.v
FdTable.v
Segment.v
Paging.v
Random.v
Gdt.v
Intq.v
Ports.v
Serial.v
Kbd.v
Vga.v
Clock.v
Ustar.v
Block.v
Fsutil.v
KernelMap.v
Boot.v
Ide.v
Shell.v
Interrupt.v
DiskStack.v
