(* ===== verification/Prelude.v ===== *)
(** * A verification of the Pintos kernel

    The program is the Pintos teaching kernel of this repository, src/pintos/src: a
    C kernel for the 80x86 with threads and synchronization, a C library of its own,
    user programs, virtual memory with swap, and a file system with directories and
    growing files, with its device drivers.  File names below are relative to that
    directory.  The repository has also a small shell, project0.  The
    development translates its routines to functions on explicit states and proves
    what they promise.

    ** How the code is represented

    A routine of the C code is a Rocq function of the same name in the state and
    error monad [st S A] of this file: it takes the state of its component and
    returns a value and a new state, or one of the errors [err], which are an
    [ASSERT] that fails, a [PANIC], an access to memory that is not there, a call
    that is undefined in C, or fuel that is used up.  A loop that is not structural
    is [loop fuel body], where the body says whether to go on.  Integers are [Z] at
    their width: [u32], [s32] and the like wrap around where the C does.  A pointer
    to a structure is its address, 0 for null, in a finite map of such structures.
    A function in a [Module] or [Section] that needs something the kernel gets from
    the hardware or from the boot code, such as the initial page directory, has it as
    an argument.

    ** Parts, files and theorems

    Library of the kernel, lib/ and lib/kernel/
    - KList, KListSort (list.c): doubly linked lists on their [prev] and [next]
      pointers.  Every operation acts on the sequence of the elements as its comment
      says, and the pointers stay consistent; the merge sort is stable and sorts,
      [list_unique] removes adjacent duplicates.
    - HashTable (hash.c): chained hash tables.  They implement a finite map under
      any sequence of insertions and deletions, also when the table is rehashed or
      memory for that is missing; the iterator visits each element once.
    - Bitmap (bitmap.c): bitmaps on 32-bit words as arrays of bits; scanning finds
      the first group, and files hold what was written to them.
    - Arithmetic (arithmetic.c): 64-bit division from the 32-bit instruction is
      division.
    - StringC (string.c), StdlibC (stdlib.c), Stdio (stdio.c, console.c): strings,
      sorting and searching, and formatted output on bytes in memory; [qsort] sorts
      and [bsearch] finds, [vsnprintf] never writes outside its buffer and returns
      the length of the whole output, and [atoi] reads what [%d] prints.

    Threads, threads/ and devices/timer.c
    - FixedPoint (fixedpoint.h and the formulas of thread.c): 20.12 fixed-point
      numbers in 32 bits; the load average and the decay of [recent_cpu] stay in
      their bounds.
    - Thread (thread.c, synch.c, timer.c, interrupt.c): the state of the scheduler,
      of semaphores, locks, condition variables and of the sleep queue, and the
      routines on it.  A routine that blocks returns the commands its thread still has
      to run.
    - Machine: the transition system in which any thread calls any of these routines
      and timer interrupts come when they may; a waiter that is woken can wait for ever.
    - Preempt (synch.c, and what thread.c and timer.c call of it): the same routines
      access by access, with a timer interrupt between any two accesses that are made
      with interrupts on.  Exclusion: a program logic for them; a lock is held by at
      most one thread in every reachable state.
    - Sched, Priority, Sleep: the ready list is consistent in every reachable state
      and kept by priority; donation reaches the end of a chain of locks; a
      semaphore wakes the first of its waiters of highest priority; sleeping threads
      are woken when they are due.

    Memory, threads/palloc.c, threads/malloc.c, threads/init.c, userprog/pagedir.c, vm/
    - Palloc (palloc.c, vaddr.h): the page allocator never hands out a page twice.
    - Malloc (malloc.c): the block allocator never hands out a byte twice.
    - PageDir (pagedir.c, pte.h): a page directory is a map from pages to kernel
      pages with accessed and dirty bits; destroying one frees its pages once.
    - KernelMap (init.c): [paging_init] maps all of physical memory and protects the
      text of the kernel.
    - Vm (frame.c, page.c, swap.c): the frame table with the clock algorithm, the
      supplemental page tables, and swap.
    - VmSwap: swap is a map from pages to contents.
    - Fault (exception.c): accesses through the page directory, page faults, and the
      growth of the stack.
    - Paging: what [load_page_entry] does for a page without a frame.

    Processes, userprog/
    - Segment, ArgStack (process.c): the pages of an executable in the page table, and
      the arguments on the stack; ArgStack is proved against the interface
      [ByteMemory], of which UserMem has the instance for the page directory.
    - Process (process.c), Syscall (syscall.c): starting, waiting and exiting, and the
      handlers of the system calls.
    - SysIO, ExitWait, FdTable: reading and writing through system calls, with bad
      arguments; exit statuses and wait; descriptors as a map.
    - Gdt (gdt.c, tss.c): descriptors have the fields they are made from.

    File system, filesys/ and devices/block.c, devices/partition.c
    - Path (path.c): path names as strings; [path_normpath] yields the canonical name
      of an absolute path.
    - Inode (inode.c, free-map.c, file.c, block.c): inodes on a device of sectors.
    - InodeFile: reading and writing an open inode is reading and writing a sequence
      of bytes; inodes survive the way to the disk and back.
    - Directory (directory.c, filesys.c, path.c): directories and the front end.
    - DirEntries: the entries of a directory are a map from names; listing a
      directory returns each entry once and ends.
    - Block (block.c, partition.c): devices and partitions; an access goes to one sector
      of a disk, and partition tables are found.
    - Ustar (ustar.c), Fsutil (fsutil.c): tar archives, and copying files from and to
      the scratch device.

    Interrupts and devices, threads/interrupt.c and devices/
    - Interrupt (interrupt.c, exception.c): the gates of the descriptor table, the
      handlers that the kernel registers, and the dispatch, which for the timer is the
      step of Machine.
    - Ports (io.h): accesses to ports.  The hardware is a parameter, a function from the
      history of the accesses; a type class states what a driver relies on, and the
      witnesses have an instance with a device.
    - Intq (intq.c), Serial (serial.c, input.c), Kbd (kbd.c), Vga (vga.c), Clock (pit.c,
      speaker.c, rtc.c, timer.c): queues between interrupts and threads, the serial port,
      the keyboard, the display, and the clocks.
    - Ide (ide.c): the disk driver over the registers of an ATA channel, which ignores
      them while it is busy, implements a map of sectors.  DiskStack: the block layer over this driver does what it does over a
      map of sectors.
    - Boot (init.c): the command line, its options and actions, and the choice of the
      block devices.
    - Random (random.c): the state of the pseudo-random numbers, which a seed resets.

    The shell of project0 (file names relative to src/project0/)
    - Shell (jobs.c, util.c, msh.c, psh.c, fib.c): the job list, the parser, the
      evaluation of lines with signals that arrive between statements and interrupt
      each other's handlers, and the Fibonacci program.

    ** Fuel

    Each bound is shown, or is by construction, large enough for the results above:
    a walk over a list takes at most the number of cells in memory; the scan of a
    bitmap one step per bit; a chain of donations at most the number of threads; the
    chain of inodes at most the number of open inodes; sifting in the heap sort at
    most the number of elements; a number at most 65 digits; the format of a print
    its length; a directory one step per entry of the file; the clock of the frame
    table three revolutions; an access to memory three tries, of which the first two
    can fault; a segment one step per page and one; a string in user memory as many
    bytes as the caller says; an archive one step per sector of the device; an access
    to a device one step per registered device; the actions one step per word; a
    partition table one step when it has no extended partition (one with an extended
    partition uses up any fuel, which is a theorem); the parser of the shell one step
    per character and one.  The waits for hardware, and those of the shell for a job,
    have the number of polls or seconds as a parameter or as the code has it; that
    they end is shown for a device, or for a job, that answers.

    ** Granularity

    In Preempt a step is one access to memory, and the timer may interrupt between any
    two as long as interrupts are on: the theorem about locks is about these.  In Thread
    and Machine a routine runs through until it blocks, yields or changes the interrupt
    level; this is how the routines that turn interrupts off first behave, and it leaves
    out what can happen inside the others ([lock_acquire], [lock_release],
    [lock_try_acquire], the search of [timer_sleep]).  The theorems of Sched, Priority and
    Sleep are about these.  In the other parts a routine is one step: the C code
    serializes them by semaphores, and what happens inside one is not seen by another.
    The lock of a disk channel is such a one.  In the shell a step is one statement or
    one store through a pointer; the routines of jobs.c are one step.

    ** Assumptions

    [malloc] and [calloc] succeed for the frames, the page table entries and the slots of
    swap in Vm and for the bounce buffers of inode.c.  The theorems about files are about
    files of one inode, which has room for 124928 bytes; a longer file makes the kernel
    panic, which is one of the findings.  A disk is busy for less than the 1000 polls that
    ide.c waits for at least.

    ** Not modelled

    The order of the calls in [main] of threads/init.c apart from the registration of
    interrupts, powering off and rebooting, and the assembly files; what is printed by
    stack dumps; the user library, the example programs, the tests and the host tools,
    which run on top of the kernel or outside it.  The USB and PCI drivers are in the
    repository but no makefile builds them, and they use functions and constants that
    no file has.  Of project0, the processes and signals are those of the host, and
    the practice programs, which consist of them, are left out. *)
From Stdlib Require Import ZArith Lia.
From stdpp Require Import base numbers sorting gmap list.

(** * Outcomes of kernel code *)

(** Why a kernel routine does not return a value: an [ASSERT] that fails, a
    [PANIC], an access to memory that is not mapped, a call a header declares
    undefined, or a loop of the model that has used up its fuel. *)
Inductive err : Set :=
| EAssert
| EPanic
| EFault
| EUndef
| EFuel.

Inductive res (A : Type) : Type :=
| Ok (a : A)
| Err (e : err).
Arguments Ok {A} a.
Arguments Err {A} e.

#[export] Instance err_eq_dec : EqDecision err.
Proof. solve_decision. Defined.

#[export] Instance res_ret : MRet res := fun A a => Ok a.
#[export] Instance res_bind : MBind res := fun A B f m =>
  match m with
  | Ok a => f a
  | Err e => Err e
  end.
#[export] Instance res_fmap : FMap res := fun A B f m =>
  match m with
  | Ok a => Ok (f a)
  | Err e => Err e
  end.

(** * State passing with errors *)

(** [st S A] is a routine over the memory [S]: it returns a value and the new
    memory, or stops the kernel.  The monad instances are stdpp's, so that a
    routine reads [x ← c; k] the way the C reads line by line. *)
Definition st (S A : Type) : Type := S -> res (A * S).

#[export] Instance st_ret {S} : MRet (st S) := fun A a s => Ok (a, s).
#[export] Instance st_bind {S} : MBind (st S) := fun A B f m s =>
  match m s with
  | Ok (a, s') => f a s'
  | Err e => Err e
  end.

Definition st_get {S} : st S S := fun s => Ok (s, s).
Definition st_put {S} (s' : S) : st S unit := fun _ => Ok (tt, s').
Definition st_fail {S A} (e : err) : st S A := fun _ => Err e.

(** [ASSERT (c)] of lib/debug.h for a condition without memory accesses. *)
Definition assert {S} (c : bool) : st S unit :=
  if c then mret tt else st_fail EAssert.

(** [while] and [for] loops: the body returns [inl a] to go round again with
    the loop variables [a], and [inr r] to leave the loop with [r]. *)
Fixpoint loop {S A R} (fuel : nat) (body : A -> st S (A + R)) (a : A) : st S R :=
  match fuel with
  | O => st_fail EFuel
  | S fuel =>
      x ← body a;
      match x with
      | inl a' => loop fuel body a'
      | inr r => mret r
      end
  end.

(** ** Running a routine *)

Lemma run_bind {S A B} (m : st S A) (k : A -> st S B) s a s' :
  m s = Ok (a, s') -> (m ≫= k) s = k a s'.
Proof. intros H. unfold mbind, st_bind. by rewrite H. Qed.

Lemma run_bind_err {S A B} (m : st S A) (k : A -> st S B) s e :
  m s = Err e -> (m ≫= k) s = Err e.
Proof. intros H. unfold mbind, st_bind. by rewrite H. Qed.

Lemma run_bind_inv {S A B} (m : st S A) (k : A -> st S B) s b s'' :
  (m ≫= k) s = Ok (b, s'') ->
  exists a s', m s = Ok (a, s') /\ k a s' = Ok (b, s'').
Proof.
  unfold mbind, st_bind. destruct (m s) as [[a s']|e] eqn:E; [|done].
  intros H. by exists a, s'.
Qed.

Lemma run_ret {S A} (a : A) (s : S) : (mret a : st S A) s = Ok (a, s).
Proof. reflexivity. Qed.

Lemma run_get {S} (s : S) : st_get s = Ok (s, s).
Proof. reflexivity. Qed.

Lemma run_assert {S} (c : bool) (s : S) : c = true -> assert c s = Ok (tt, s).
Proof. by intros ->. Qed.

Lemma loop_continue {S A R} fuel (body : A -> st S (A + R)) a a' s s' :
  body a s = Ok (inl a', s') -> loop (Datatypes.S fuel) body a s = loop fuel body a' s'.
Proof. intros H. cbn [loop]. by rewrite (run_bind _ _ _ _ _ H). Qed.

Lemma loop_break {S A R} fuel (body : A -> st S (A + R)) a r s s' :
  body a s = Ok (inr r, s') -> loop (Datatypes.S fuel) body a s = Ok (r, s').
Proof. intros H. cbn [loop]. by rewrite (run_bind _ _ _ _ _ H). Qed.

(** The rule for loops over a sequence: the body consumes one element of [l]
    per round, keeping [Inv] true of what is left, and leaves the loop when
    nothing is left.  Fuel for one round per element and one to leave is
    enough. *)
Lemma loop_list {S A R E} (body : A -> st S (A + R))
    (Inv : list E -> A -> S -> Prop) (Post : R -> S -> Prop) :
  (forall e l a s, Inv (e :: l) a s ->
     (exists a' s', body a s = Ok (inl a', s') /\ Inv l a' s') \/
     (exists r s', body a s = Ok (inr r, s') /\ Post r s')) ->
  (forall a s, Inv [] a s -> exists r s', body a s = Ok (inr r, s') /\ Post r s') ->
  forall l fuel a s, length l < fuel -> Inv l a s ->
    exists r s', loop fuel body a s = Ok (r, s') /\ Post r s'.
Proof.
  intros Hstep Hend l; induction l as [|e l IH]; intros [|fuel] a s Hf HI; simpl in Hf; try lia.
  - destruct (Hend a s HI) as (r & s' & Hb & HP).
    exists r, s'. split; [by apply loop_break|done].
  - destruct (Hstep _ _ _ _ HI) as [(a' & s' & Hb & HI')|(r & s' & Hb & HP)].
    + rewrite (loop_continue _ _ _ _ _ _ Hb). apply IH; [lia|done].
    + exists r, s'. split; [by apply loop_break|done].
Qed.

(** Routines that only read. *)
Definition readonly {S A} (m : st S A) : Prop := forall s a s', m s = Ok (a, s') -> s' = s.

Lemma readonly_bind {S A B} (m : st S A) (k : A -> st S B) :
  readonly m -> (forall a, readonly (k a)) -> readonly (m ≫= k).
Proof.
  intros Hm Hk s b s'' (a & s' & H1 & H2)%run_bind_inv.
  apply Hm in H1 as ->. by apply Hk in H2.
Qed.

Lemma readonly_ret {S A} (a : A) : readonly (mret a : st S A).
Proof. intros s b s' H. by injection H. Qed.

Lemma readonly_fail {S A} e : readonly (st_fail e : st S A).
Proof. done. Qed.

(** Routines that leave one part of the state as it is. *)
Definition keeps {S A B} (proj : S -> B) (m : st S A) : Prop :=
  forall s a s', m s = Ok (a, s') -> proj s' = proj s.

Lemma keeps_bind {S A B C} (proj : S -> C) (m : st S A) (f : A -> st S B) :
  keeps proj m -> (forall a, keeps proj (f a)) -> keeps proj (m ≫= f).
Proof.
  intros Hm Hf s b s'' (a & s' & H1 & H2)%run_bind_inv.
  etrans; [by eapply Hf|by eapply Hm].
Qed.

Lemma readonly_keeps {S A B} (proj : S -> B) (m : st S A) : readonly m -> keeps proj m.
Proof. intros H s a s' Hr. by rewrite (H _ _ _ Hr). Qed.

Lemma keeps_ret {S A B} (proj : S -> B) (a : A) : keeps proj (mret a : st S A).
Proof. apply readonly_keeps, readonly_ret. Qed.

Lemma keeps_fail {S A B} (proj : S -> B) e : keeps proj (st_fail e : st S A).
Proof. done. Qed.

Lemma keeps_get {S B} (proj : S -> B) : keeps proj (st_get : st S S).
Proof. intros s a s' H. by injection H as -> ->. Qed.

Lemma keeps_assert {S B} (proj : S -> B) c : keeps proj (assert c : st S unit).
Proof. destruct c; [apply keeps_ret|apply keeps_fail]. Qed.

Create HintDb keeps.
#[export] Hint Resolve keeps_ret keeps_fail keeps_get keeps_assert : keeps.

Create HintDb readonly.
#[export] Hint Resolve readonly_bind readonly_ret readonly_fail : readonly.
#[export] Hint Extern 2 (readonly (match ?x with _ => _ end)) => destruct x : readonly.

Create HintDb krun.
#[export] Hint Resolve run_ret run_get run_assert : krun.

(** [krun] runs the first call of a sequence, with the lemmas of the hint
    database [krun] saying what it returns. *)
Ltac krun_side := solve [eauto with krun].
Ltac krun :=
  match goal with
  | |- context [(?m ≫= ?k) ?s] => erewrite (run_bind m k s) by krun_side; cbn beta
  end.
Ltac kruns := repeat krun.

(** * Lists *)

(** The length of a sequence, as the C code counts it. *)
Abbreviation Zlen xs := (Z.of_nat (length xs)).

Lemma NoDup_insert_middle {A} (xs ys : list A) e :
  NoDup (xs ++ ys) -> e ∉ xs ++ ys -> NoDup (xs ++ e :: ys).
Proof.
  intros H He. rewrite <- Permutation_middle. by apply NoDup_cons.
Qed.

Lemma NoDup_remove_middle {A} (xs ys : list A) e :
  NoDup (xs ++ e :: ys) -> NoDup (xs ++ ys) /\ e ∉ xs ++ ys.
Proof.
  rewrite <- Permutation_middle. intros H%NoDup_cons. tauto.
Qed.

(** * Machine integers *)

(** Unsigned and two's-complement signed integers of [w] bits: values of the
    model are the mathematical integers the C objects denote, and [uwrap] and
    [swrap] are the conversions C (and gcc's code for signed overflow) makes. *)
Definition uwrap (w z : Z) : Z := (z mod 2 ^ w)%Z.
Definition swrap (w z : Z) : Z := ((z + 2 ^ (w - 1)) mod 2 ^ w - 2 ^ (w - 1))%Z.

Abbreviation u8 := (uwrap 8).
Abbreviation u16 := (uwrap 16).
Abbreviation u32 := (uwrap 32).
Abbreviation u64 := (uwrap 64).
Abbreviation s32 := (swrap 32).
Abbreviation s64 := (swrap 64).

Definition in_u (w z : Z) : Prop := (0 <= z < 2 ^ w)%Z.
Definition in_s (w z : Z) : Prop := (- 2 ^ (w - 1) <= z < 2 ^ (w - 1))%Z.

Section Wrap.
Local Open Scope Z_scope.
Context (w : Z) (Hw : 0 < w).

Lemma uwrap_range z : in_u w (uwrap w z).
Proof using Hw. apply Z.mod_pos_bound. apply Z.pow_pos_nonneg; lia. Qed.

Lemma uwrap_id z : in_u w z -> uwrap w z = z.
Proof using Hw. intros H. by apply Z.mod_small. Qed.

Lemma pow2_half : 2 ^ w = 2 * 2 ^ (w - 1).
Proof using Hw. rewrite <- Z.pow_succ_r by lia. f_equal; lia. Qed.

Lemma swrap_range z : in_s w (swrap w z).
Proof using Hw.
  unfold in_s, swrap. pose proof pow2_half.
  pose proof (Z.mod_pos_bound (z + 2 ^ (w - 1)) (2 ^ w)) as Hm.
  assert (0 < 2 ^ w) by (apply Z.pow_pos_nonneg; lia). lia.
Qed.

Lemma swrap_id z : in_s w z -> swrap w z = z.
Proof using Hw.
  unfold in_s, swrap. intros H. pose proof pow2_half.
  rewrite Z.mod_small; lia.
Qed.
End Wrap.

Section Wrap32.
Local Open Scope Z_scope.

Lemma u32_id x : 0 <= x < 2 ^ 32 -> u32 x = x.
Proof. by apply uwrap_id. Qed.

Lemma s32_id x : - 2 ^ 31 <= x < 2 ^ 31 -> s32 x = x.
Proof. intros H. apply swrap_id; [lia|]. unfold in_s. lia. Qed.

(** A signed integer survives the conversion to unsigned and back. *)
Lemma s32_u32 z : in_s 32 z -> s32 (u32 z) = z.
Proof.
  intros Hz. unfold swrap, uwrap, in_s in *. rewrite Zplus_mod_idemp_l. change (2 ^ (32 - 1)) with 2147483648 in *.
  change (2 ^ 32) with 4294967296. rewrite Z.mod_small; lia.
Qed.
End Wrap32.
