(* ===== verification/KList.v ===== *)
(** The doubly linked lists of lib/kernel/list.c, modelled at the level of the
    [prev] and [next] pointers.

    Memory is a finite map from addresses to [list_elem] cells.  A
    [struct list] at address [l] is its two header cells, [head] at [l] and
    [tail] at [l + 8]. *)
From S2P Require Import Prelude.
From Stdlib Require Import ZArith Lia.
From stdpp Require Import base numbers sorting gmap list.

Local Open Scope Z_scope.

(** * Data *)

Record list_elem := { prev : Z; next : Z }.

(** Memory: the cells that can be read and written. *)
Abbreviation heap := (gmap Z list_elem).

Definition NULL : Z := 0.

(** [&list->head] and [&list->tail]; a [struct list_elem] has two 4-byte
    pointers. *)
Definition head_of (l : Z) : Z := l.
Definition tail_of (l : Z) : Z := l + 8.

(** * Memory accesses *)

Definition load (e : Z) : st heap list_elem := fun h =>
  match h !! e with
  | Some n => Ok (n, h)
  | None => Err EFault
  end.

Definition store (e : Z) (n : list_elem) : st heap unit := fun h =>
  match h !! e with
  | Some _ => Ok (tt, <[e := n]> h)
  | None => Err EFault
  end.

Definition get_prev (e : Z) : st heap Z := n ← load e; mret (prev n).
Definition get_next (e : Z) : st heap Z := n ← load e; mret (next n).
Definition set_prev (e v : Z) : st heap unit :=
  n ← load e; store e {| prev := v; next := next n |}.
Definition set_next (e v : Z) : st heap unit :=
  n ← load e; store e {| prev := prev n; next := v |}.

(** * Operations *)

Definition is_head (elem : Z) : st heap bool :=
  if elem =? NULL then mret false else
  p ← get_prev elem;
  if negb (p =? NULL) then mret false else
  n ← get_next elem; mret (negb (n =? NULL)).

Definition is_interior (elem : Z) : st heap bool :=
  if elem =? NULL then mret false else
  p ← get_prev elem;
  if p =? NULL then mret false else
  n ← get_next elem; mret (negb (n =? NULL)).

Definition is_tail (elem : Z) : st heap bool :=
  if elem =? NULL then mret false else
  p ← get_prev elem;
  if p =? NULL then mret false else
  n ← get_next elem; mret (n =? NULL).

(** [a || b] with C's evaluation order. *)
Definition orM {S} (a b : st S bool) : st S bool :=
  x ← a; if x : bool then mret true else b.

(** [ASSERT (c)] where evaluating [c] reads memory. *)
Definition assertM {S} (c : st S bool) : st S unit := b ← c; assert b.

Definition list_init (l : Z) : st heap unit :=
  assert (negb (l =? NULL));;
  set_prev (head_of l) NULL;;
  set_next (head_of l) (tail_of l);;
  set_prev (tail_of l) (head_of l);;
  set_next (tail_of l) NULL.

Definition list_begin (l : Z) : st heap Z :=
  assert (negb (l =? NULL));; get_next (head_of l).

Definition list_next (elem : Z) : st heap Z :=
  assertM (orM (is_head elem) (is_interior elem));; get_next elem.

Definition list_end (l : Z) : st heap Z :=
  assert (negb (l =? NULL));; mret (tail_of l).

Definition list_rbegin (l : Z) : st heap Z :=
  assert (negb (l =? NULL));; get_prev (tail_of l).

Definition list_prev (elem : Z) : st heap Z :=
  assertM (orM (is_interior elem) (is_tail elem));; get_prev elem.

Definition list_rend (l : Z) : st heap Z :=
  assert (negb (l =? NULL));; mret (head_of l).

Definition list_head (l : Z) : st heap Z :=
  assert (negb (l =? NULL));; mret (head_of l).

Definition list_tail (l : Z) : st heap Z :=
  assert (negb (l =? NULL));; mret (tail_of l).

Definition list_insert (before elem : Z) : st heap unit :=
  assertM (orM (is_interior before) (is_tail before));;
  assert (negb (elem =? NULL));;
  p ← get_prev before;
  set_prev elem p;;
  set_next elem before;;
  p' ← get_prev before;
  set_next p' elem;;
  set_prev before elem.

Definition list_splice (before first last : Z) : st heap unit :=
  assertM (orM (is_interior before) (is_tail before));;
  if first =? last then mret tt else
  last ← list_prev last;
  assertM (is_interior first);;
  assertM (is_interior last);;
  (* Cleanly remove FIRST...LAST from its current list. *)
  fp ← get_prev first; ln ← get_next last; set_next fp ln;;
  ln' ← get_next last; fp' ← get_prev first; set_prev ln' fp';;
  (* Splice FIRST...LAST into new list. *)
  bp ← get_prev before; set_prev first bp;;
  set_next last before;;
  bp' ← get_prev before; set_next bp' first;;
  set_prev before last.

Definition list_push_front (l elem : Z) : st heap unit :=
  b ← list_begin l; list_insert b elem.

Definition list_push_back (l elem : Z) : st heap unit :=
  e ← list_end l; list_insert e elem.

Definition list_remove (elem : Z) : st heap Z :=
  assertM (is_interior elem);;
  p ← get_prev elem; n ← get_next elem; set_next p n;;
  n' ← get_next elem; p' ← get_prev elem; set_prev n' p';;
  get_next elem.

Definition list_empty (l : Z) : st heap bool :=
  b ← list_begin l; e ← list_end l; mret (b =? e).

Definition list_front (l : Z) : st heap Z :=
  assertM (b ← list_empty l; mret (negb b));; get_next (head_of l).

Definition list_back (l : Z) : st heap Z :=
  assertM (b ← list_empty l; mret (negb b));; get_prev (tail_of l).

Definition list_pop_front (l : Z) : st heap Z :=
  front ← list_front l; list_remove front;; mret front.

Definition list_pop_back (l : Z) : st heap Z :=
  back ← list_back l; list_remove back;; mret back.

(** A loop over a list visits each cell of memory at most once. *)
Definition list_fuel : st heap nat := h ← st_get; mret (S (size h)).

Definition list_size (l : Z) : st heap Z :=
  fuel ← list_fuel;
  b ← list_begin l;
  loop fuel (fun '(e, cnt) =>
    en ← list_end l;
    if e =? en then mret (inr cnt) else
    e' ← list_next e; mret (inl (e', u32 (cnt + 1)))) (b, 0).

(** An lvalue of type [struct list_elem *]: the field of a cell. *)
Inductive field :=
| FPrev (e : Z)
| FNext (e : Z).

Definition fread (f : field) : st heap Z :=
  match f with
  | FPrev e => get_prev e
  | FNext e => get_next e
  end.

Definition fwrite (f : field) (v : Z) : st heap unit :=
  match f with
  | FPrev e => set_prev e v
  | FNext e => set_next e v
  end.

Definition swap (a b : field) : st heap unit :=
  t ← fread a; v ← fread b; fwrite a v;; fwrite b t.

Definition list_reverse (l : Z) : st heap unit :=
  empty ← list_empty l;
  if empty : bool then mret tt else
  fuel ← list_fuel;
  b ← list_begin l;
  loop fuel (fun e =>
    en ← list_end l;
    if e =? en then mret (inr tt) else
    swap (FPrev e) (FNext e);;
    e' ← get_prev e; mret (inl e')) b;;
  swap (FNext (head_of l)) (FPrev (tail_of l));;
  hn ← get_next (head_of l); tp ← get_prev (tail_of l);
  swap (FPrev hn) (FNext tp).

(** ** Operations on lists with ordered elements *)

Section Ordered.
(** The callback [list_less_func], with its [aux] argument applied.  It
    compares the structures the elements are embedded in, which the list
    routines do not touch. *)
Context (less : Z -> Z -> bool).

Definition is_sorted (a b : Z) : st heap bool :=
  if a =? b then mret true else
  fuel ← list_fuel;
  loop fuel (fun a =>
    a' ← list_next a;
    if a' =? b then mret (inr true) else
    p ← list_prev a';
    if less a' p then mret (inr false) else mret (inl a')) a.

Definition find_end_of_run (a b : Z) : st heap Z :=
  assert (negb (a =? NULL));; assert (negb (b =? NULL));;
  assert (negb (a =? b));;
  fuel ← list_fuel;
  loop fuel (fun a =>
    a' ← list_next a;
    if a' =? b then mret (inr a') else
    p ← list_prev a';
    if negb (less a' p) then mret (inl a') else mret (inr a')) a.

Definition inplace_merge (a0 a1b0 b1 : Z) : st heap unit :=
  assert (negb (a0 =? NULL));; assert (negb (a1b0 =? NULL));;
  assert (negb (b1 =? NULL));;
  assertM (is_sorted a0 a1b0);;
  assertM (is_sorted a1b0 b1);;
  fuel ← list_fuel;
  loop fuel (fun '(a0, a1b0) =>
    if (a0 =? a1b0) || (a1b0 =? b1) then mret (inr tt) else
    if negb (less a1b0 a0) then
      a0' ← list_next a0; mret (inl (a0', a1b0))
    else
      a1b0' ← list_next a1b0;
      p ← list_prev a1b0';
      list_splice a0 p a1b0';;
      mret (inl (a0, a1b0'))) (a0, a1b0).

(** One pass of the [do] loop of [list_sort]: the number of runs output. *)
Definition list_sort_pass (l : Z) : st heap Z :=
  fuel ← list_fuel;
  b ← list_begin l;
  loop fuel (fun '(a0, cnt) =>
    en ← list_end l;
    if a0 =? en then mret (inr cnt) else
    let cnt' := u32 (cnt + 1) in
    a1b0 ← find_end_of_run a0 en;
    if a1b0 =? en then mret (inr cnt') else
    b1 ← find_end_of_run a1b0 en;
    inplace_merge a0 a1b0 b1;;
    mret (inl (b1, cnt'))) (b, 0).

Definition list_sort (l : Z) : st heap unit :=
  assert (negb (l =? NULL));;
  fuel ← list_fuel;
  loop fuel (fun _ =>
    cnt ← list_sort_pass l;
    if 1 <? cnt then mret (inl tt) else mret (inr tt)) tt;;
  b ← list_begin l; e ← list_end l;
  assertM (is_sorted b e).

Definition list_insert_ordered (l elem : Z) : st heap unit :=
  assert (negb (l =? NULL));; assert (negb (elem =? NULL));;
  fuel ← list_fuel;
  b ← list_begin l;
  e ← loop fuel (fun e =>
    en ← list_end l;
    if e =? en then mret (inr e) else
    if less elem e then mret (inr e) else
    e' ← list_next e; mret (inl e')) b;
  list_insert e elem.

(** [duplicates] is [None] for a null pointer. *)
Definition list_unique (l : Z) (duplicates : option Z) : st heap unit :=
  assert (negb (l =? NULL));;
  empty ← list_empty l;
  if empty : bool then mret tt else
  fuel ← list_fuel;
  b ← list_begin l;
  loop fuel (fun elem =>
    nxt ← list_next elem;
    en ← list_end l;
    if nxt =? en then mret (inr tt) else
    if negb (less elem nxt) && negb (less nxt elem) then
      list_remove nxt;;
      match duplicates with
      | Some d => list_push_back d nxt
      | None => mret tt
      end;;
      mret (inl elem)
    else mret (inl nxt)) b.

Definition list_max (l : Z) : st heap Z :=
  max ← list_begin l;
  en ← list_end l;
  if max =? en then mret max else
  fuel ← list_fuel;
  e ← list_next max;
  loop fuel (fun '(e, max) =>
    en ← list_end l;
    if e =? en then mret (inr max) else
    let max' := if less max e then e else max in
    e' ← list_next e; mret (inl (e', max'))) (e, max).

Definition list_min (l : Z) : st heap Z :=
  min ← list_begin l;
  en ← list_end l;
  if min =? en then mret min else
  fuel ← list_fuel;
  e ← list_next min;
  loop fuel (fun '(e, min) =>
    en ← list_end l;
    if e =? en then mret (inr min) else
    let min' := if less e min then e else min in
    e' ← list_next e; mret (inl (e', min'))) (e, min).
End Ordered.

(** * The sequence a list represents *)

(** [linked h p es q]: the cells [es] of [h] are linked in this order, the
    first one back to [p] and the last one on to [q]. *)
Fixpoint linked (h : heap) (p : Z) (es : list Z) (q : Z) : Prop :=
  match es with
  | [] => True
  | e :: es' =>
      h !! e = Some {| prev := p; next := List.hd q es' |} /\ linked h e es' q
  end.

(** The cells of the list at [l] with interior elements [xs]. *)
Definition cells (l : Z) (xs : list Z) : list Z := head_of l :: xs ++ [tail_of l].

(** [dll h l xs]: the [struct list] at [l] holds exactly the elements [xs]. *)
Record dll (h : heap) (l : Z) (xs : list Z) : Prop := {
  dll_linked : linked h NULL (cells l xs) NULL;
  dll_nodup : NoDup (cells l xs);
  dll_nonnull : NULL ∉ cells l xs
}.

(** [same_except es h h']: only the cells [es] may differ. *)
Definition same_except (es : list Z) (h h' : heap) : Prop :=
  forall a, a ∉ es -> h' !! a = h !! a.

(** * Lemmas on linked cells *)

Abbreviation lst := (List.last).

Lemma last_snoc_d (es : list Z) e d : lst (es ++ [e]) d = e.
Proof. apply List.last_last. Qed.

Lemma last_cons_d (e : Z) es d : lst (e :: es) d = lst es e.
Proof.
  revert e d; induction es as [|e' es IH]; intros e d; [done|].
  change (lst (e :: e' :: es) d) with (lst (e' :: es) d).
  by rewrite !IH.
Qed.

Lemma last_elem_of (es : list Z) d : lst es d ∈ d :: es.
Proof.
  revert d; induction es as [|e es IH]; intros d; [by apply list_elem_of_singleton|].
  rewrite last_cons_d. pose proof (IH e) as IHe. clear IH. set_solver.
Qed.

Lemma hd_elem_of (es : list Z) d : List.hd d es ∈ es ++ [d].
Proof. destruct es; set_solver. Qed.

Lemma hd_app (es fs : list Z) d : List.hd d (es ++ fs) = List.hd (List.hd d fs) es.
Proof. by destruct es. Qed.

(** A non-empty sequence splits before its last element. *)
Lemma snoc_inv (e : Z) es : exists pre, e :: es = pre ++ [lst es e].
Proof.
  destruct (List.exists_last (l := e :: es)) as (pre & x & Hx); [done|].
  exists pre. rewrite Hx. f_equal. f_equal.
  rewrite <- (last_cons_d e es 0), Hx. by rewrite last_snoc_d.
Qed.

Lemma linked_app h p es1 es2 q :
  linked h p (es1 ++ es2) q <->
  linked h p es1 (List.hd q es2) /\ linked h (lst es1 p) es2 q.
Proof.
  revert p; induction es1 as [|e es1 IH]; intros p; [simpl; tauto|].
  rewrite last_cons_d. cbn [app linked]. rewrite IH, hd_app. tauto.
Qed.

Lemma linked_frame h h' p es q :
  linked h p es q -> (forall e, e ∈ es -> h' !! e = h !! e) -> linked h' p es q.
Proof.
  revert p; induction es as [|e es IH]; intros p; [done|].
  intros [He Hl] Hf. split; [rewrite Hf; set_solver|].
  apply IH; set_solver.
Qed.

Lemma linked_insert_other h p es q a n :
  a ∉ es -> linked h p es q -> linked (<[a := n]> h) p es q.
Proof.
  intros Ha H. apply (linked_frame _ _ _ _ _ H). intros e He.
  apply lookup_insert_ne. set_solver.
Qed.

Lemma linked_lookup h p es1 e es2 q :
  linked h p (es1 ++ e :: es2) q ->
  h !! e = Some {| prev := lst es1 p; next := List.hd q es2 |}.
Proof. rewrite linked_app. by intros [_ [H _]]. Qed.

(** Redirecting the link out of the last cell, and the link into the first. *)
Lemma linked_set_next h p es e q q' :
  e ∉ es -> linked h p (es ++ [e]) q ->
  linked (<[e := {| prev := lst es p; next := q' |}]> h) p (es ++ [e]) q'.
Proof.
  intros He. rewrite !linked_app. intros [H1 _]. cbn. rewrite lookup_insert_eq.
  split; [by apply linked_insert_other|done].
Qed.

Lemma linked_set_prev h p e es q p' :
  e ∉ es -> linked h p (e :: es) q ->
  linked (<[e := {| prev := p'; next := List.hd q es |}]> h) p' (e :: es) q.
Proof.
  intros He [_ H]. split; [by rewrite lookup_insert_eq|].
  by apply linked_insert_other.
Qed.

(** ** Running the accesses *)

Section Access.
Context (h : heap) (e : Z) (n : list_elem) (He : h !! e = Some n).

Lemma load_ok : load e h = Ok (n, h).
Proof using He. unfold load. by rewrite He. Qed.

Lemma store_ok m : store e m h = Ok (tt, <[e := m]> h).
Proof using He. unfold store. by rewrite He. Qed.

Lemma get_prev_ok : get_prev e h = Ok (prev n, h).
Proof using He. unfold get_prev. by rewrite (run_bind _ _ _ _ _ load_ok). Qed.

Lemma get_next_ok : get_next e h = Ok (next n, h).
Proof using He. unfold get_next. by rewrite (run_bind _ _ _ _ _ load_ok). Qed.

Lemma set_prev_ok v :
  set_prev e v h = Ok (tt, <[e := {| prev := v; next := next n |}]> h).
Proof using He. unfold set_prev. by rewrite (run_bind _ _ _ _ _ load_ok), store_ok. Qed.

Lemma set_next_ok v :
  set_next e v h = Ok (tt, <[e := {| prev := prev n; next := v |}]> h).
Proof using He. unfold set_next. by rewrite (run_bind _ _ _ _ _ load_ok), store_ok. Qed.

Lemma is_interior_ok :
  e <> NULL -> is_interior e h = Ok (negb (prev n =? NULL) && negb (next n =? NULL), h).
Proof using He.
  intros Hn. unfold is_interior. rewrite (proj2 (Z.eqb_neq _ _) Hn).
  rewrite (run_bind _ _ _ _ _ get_prev_ok). destruct (prev n =? NULL); [done|].
  by rewrite (run_bind _ _ _ _ _ get_next_ok).
Qed.

Lemma is_tail_ok :
  e <> NULL -> is_tail e h = Ok (negb (prev n =? NULL) && (next n =? NULL), h).
Proof using He.
  intros Hn. unfold is_tail. rewrite (proj2 (Z.eqb_neq _ _) Hn).
  rewrite (run_bind _ _ _ _ _ get_prev_ok). destruct (prev n =? NULL); [done|].
  by rewrite (run_bind _ _ _ _ _ get_next_ok).
Qed.

Lemma is_head_ok :
  e <> NULL -> is_head e h = Ok ((prev n =? NULL) && negb (next n =? NULL), h).
Proof using He.
  intros Hn. unfold is_head. rewrite (proj2 (Z.eqb_neq _ _) Hn).
  rewrite (run_bind _ _ _ _ _ get_prev_ok). destruct (prev n =? NULL); [|done].
  cbn [negb]. by rewrite (run_bind _ _ _ _ _ get_next_ok).
Qed.

Lemma assert_interior_ok :
  e <> NULL -> prev n <> NULL -> next n <> NULL ->
  assertM (is_interior e) h = Ok (tt, h).
Proof using He.
  intros H1 H2%Z.eqb_neq H3%Z.eqb_neq. unfold assertM.
  rewrite (run_bind _ _ _ _ _ (is_interior_ok H1)). by rewrite H2, H3.
Qed.

Lemma assert_interior_or_tail_ok :
  e <> NULL -> prev n <> NULL ->
  assertM (orM (is_interior e) (is_tail e)) h = Ok (tt, h).
Proof using He.
  intros H1 H2%Z.eqb_neq. unfold assertM, orM, mbind, st_bind.
  rewrite (is_interior_ok H1), H2. destruct (next n =? NULL) eqn:E; [|done].
  cbn. by rewrite (is_tail_ok H1), H2, E.
Qed.

Lemma list_next_ok : e <> NULL -> next n <> NULL -> list_next e h = Ok (next n, h).
Proof using He.
  intros H1 H2%Z.eqb_neq. unfold list_next, assertM, orM, mbind, st_bind.
  rewrite (is_head_ok H1), H2. destruct (prev n =? NULL) eqn:E; cbn.
  - apply get_next_ok.
  - rewrite (is_interior_ok H1), H2, E. apply get_next_ok.
Qed.

Lemma list_prev_ok : e <> NULL -> prev n <> NULL -> list_prev e h = Ok (prev n, h).
Proof using He.
  intros H1 H2. unfold list_prev.
  rewrite (run_bind _ _ _ _ _ (assert_interior_or_tail_ok H1 H2)). apply get_prev_ok.
Qed.
End Access.
#[export] Hint Resolve load_ok store_ok get_prev_ok get_next_ok set_prev_ok set_next_ok
  assert_interior_ok assert_interior_or_tail_ok list_next_ok list_prev_ok : krun.

Lemma load_readonly e : readonly (load e).
Proof. intros h n h' H. unfold load in H. by destruct (h !! e); simplify_eq. Qed.
#[export] Hint Resolve load_readonly : readonly.

Lemma get_next_readonly e : readonly (get_next e).
Proof. unfold get_next. eauto with readonly. Qed.

Lemma get_prev_readonly e : readonly (get_prev e).
Proof. unfold get_prev. eauto with readonly. Qed.
#[export] Hint Resolve get_next_readonly get_prev_readonly : readonly.

Lemma assert_position_readonly e : readonly (assertM (orM (is_interior e) (is_tail e))).
Proof. unfold assertM, orM, is_interior, is_tail, assert. eauto 20 with readonly. Qed.

Lemma list_begin_ok h l n :
  l <> NULL -> h !! head_of l = Some n -> list_begin l h = Ok (next n, h).
Proof.
  intros Hl%Z.eqb_neq Hn. unfold list_begin. rewrite Hl. cbn. by apply get_next_ok.
Qed.

Lemma list_end_ok h l : l <> NULL -> list_end l h = Ok (tail_of l, h).
Proof. intros Hl%Z.eqb_neq. unfold list_end. by rewrite Hl. Qed.
#[export] Hint Resolve list_begin_ok list_end_ok : krun.

(** ** Looking into a well-formed list *)

Section Dll.
Context (h : heap) (l : Z).

Lemma dll_head_lookup xs :
  dll h l xs -> h !! head_of l = Some {| prev := NULL; next := List.hd (tail_of l) xs |}.
Proof.
  intros [H _ _]. destruct H as [H _]. rewrite H. f_equal. f_equal. by destruct xs.
Qed.

Lemma dll_tail_lookup xs :
  dll h l xs -> h !! tail_of l = Some {| prev := lst xs (head_of l); next := NULL |}.
Proof.
  intros [H _ _]. unfold cells in H. rewrite app_comm_cons in H.
  apply linked_lookup in H. rewrite H. by rewrite last_cons_d.
Qed.

Lemma dll_elem_lookup xs1 e xs2 :
  dll h l (xs1 ++ e :: xs2) ->
  h !! e = Some {| prev := lst xs1 (head_of l); next := List.hd (tail_of l) xs2 |}.
Proof.
  intros [H _ _]. unfold cells in H.
  replace (head_of l :: (xs1 ++ e :: xs2) ++ [tail_of l])
    with ((head_of l :: xs1) ++ e :: xs2 ++ [tail_of l]) in H
    by (by rewrite <- app_assoc).
  apply linked_lookup in H. rewrite H, last_cons_d. f_equal. f_equal. by destruct xs2.
Qed.

Lemma dll_nonnull_elem xs e : dll h l xs -> e ∈ cells l xs -> e <> NULL.
Proof. intros [_ _ H] He ->. done. Qed.

Lemma dll_base_nonnull xs : dll h l xs -> l <> NULL.
Proof. intros H. apply (dll_nonnull_elem _ _ H). unfold cells, head_of. set_solver. Qed.

Lemma dll_tail_nonnull xs : dll h l xs -> tail_of l <> NULL.
Proof. intros H. apply (dll_nonnull_elem _ _ H). unfold cells. set_solver. Qed.

Lemma dll_in_nonnull xs e : dll h l xs -> e ∈ xs -> e <> NULL.
Proof. intros H He. apply (dll_nonnull_elem _ _ H). unfold cells. set_solver. Qed.

Lemma dll_last_nonnull xs1 xs2 : dll h l (xs1 ++ xs2) -> lst xs1 (head_of l) <> NULL.
Proof.
  intros H. apply (dll_nonnull_elem _ _ H). pose proof (last_elem_of xs1 (head_of l)).
  unfold cells. set_solver.
Qed.

Lemma dll_hd_nonnull xs1 xs2 : dll h l (xs1 ++ xs2) -> List.hd (tail_of l) xs2 <> NULL.
Proof.
  intros H. apply (dll_nonnull_elem _ _ H). pose proof (hd_elem_of xs2 (tail_of l)).
  unfold cells. set_solver.
Qed.

Lemma dll_tail_notin xs : dll h l xs -> tail_of l ∉ xs.
Proof.
  intros [_ H _]. unfold cells in H. apply NoDup_cons in H as [_ H].
  apply NoDup_app in H as (_ & H & _). intros Hin. apply (H _ Hin). set_solver.
Qed.

Lemma dll_elems_nodup xs : dll h l xs -> NoDup xs.
Proof.
  intros [_ H _]. unfold cells in H. apply NoDup_cons in H as [_ H].
  by apply NoDup_app in H as (H & _ & _).
Qed.

(** Every cell of the list is mapped, so the list is no longer than memory:
    the fuel [list_fuel] is enough for one round per element and one more. *)
Lemma dll_mapped xs e : dll h l xs -> e ∈ cells l xs -> is_Some (h !! e).
Proof.
  intros [H _ _] (es1 & es2 & Heq)%list_elem_of_split. rewrite Heq in H.
  apply linked_lookup in H. by eexists.
Qed.

Lemma dll_size xs : dll h l xs -> (length xs + 2 <= size h)%nat.
Proof.
  intros H. rewrite <- (size_dom h).
  transitivity (size (list_to_set (cells l xs) : gset Z)).
  - rewrite size_list_to_set by apply H. unfold cells. cbn. rewrite length_app. cbn. lia.
  - apply subseteq_size. intros e He%elem_of_list_to_set.
    apply elem_of_dom. by apply (dll_mapped xs).
Qed.
End Dll.

(** A list is unaffected by writes elsewhere. *)
Lemma dll_frame es h h' l xs :
  dll h l xs -> same_except es h h' -> (forall e, e ∈ cells l xs -> e ∉ es) -> dll h' l xs.
Proof.
  intros [H1 H2 H3] Hs He. split; [|done|done].
  apply (linked_frame _ _ _ _ _ H1). intros e Hin. apply Hs, He, Hin.
Qed.

Lemma same_except_insert es h h' a n :
  a ∈ es -> same_except es h h' -> same_except es h (<[a := n]> h').
Proof. intros Ha H b Hb. rewrite lookup_insert_ne by set_solver. by apply H. Qed.

Lemma same_except_refl es h : same_except es h h.
Proof. done. Qed.
#[export] Hint Resolve same_except_refl : krun.

Lemma same_except_trans es h1 h2 h3 :
  same_except es h1 h2 -> same_except es h2 h3 -> same_except es h1 h3.
Proof. intros H1 H2 a Ha. rewrite H2, H1; auto. Qed.

Lemma same_except_weaken es es' h h' :
  (forall a, a ∈ es -> a ∈ es') -> same_except es h h' -> same_except es' h h'.
Proof. intros Hs H a Ha. apply H. intros Hin. by apply Ha, Hs. Qed.

(** Writes to mapped cells do not change what is mapped. *)
Lemma mapped_insert (h : heap) a b n : is_Some (h !! a) -> is_Some ((<[b := n]> h) !! a).
Proof. intros H. apply lookup_insert_is_Some. destruct (decide (b = a)); auto. Qed.

Ltac solve_dom :=
  rewrite ?dom_insert_lookup_L; [reflexivity|..];
  repeat apply mapped_insert; eexists; eassumption.

(** * Functional behaviour of the operations *)

(** ** Insertion *)

Lemma list_insert_run h b bp bn pp e n :
  h !! b = Some {| prev := bp; next := bn |} ->
  h !! bp = Some {| prev := pp; next := b |} ->
  h !! e = Some n ->
  b <> NULL -> bp <> NULL -> e <> NULL -> e <> b -> e <> bp -> bp <> b ->
  list_insert b e h =
  Ok (tt, <[b := {| prev := e; next := bn |}]>
          (<[bp := {| prev := pp; next := e |}]> (<[e := {| prev := bp; next := b |}]> h))).
Proof.
  intros Hb Hbp He Nb Nbp Ne D1 D2 D3. unfold list_insert.
  krun. erewrite run_bind by (apply run_assert; apply negb_true_iff, Z.eqb_neq; done).
  krun. krun. cbn [prev].
  erewrite run_bind by (apply set_next_ok; apply lookup_insert_eq). cbn [prev].
  rewrite insert_insert_eq.
  erewrite run_bind by (apply get_prev_ok; rewrite lookup_insert_ne by done; exact Hb).
  cbn [prev].
  erewrite run_bind by (apply set_next_ok; rewrite lookup_insert_ne by done; exact Hbp).
  cbn [prev].
  erewrite set_prev_ok by (rewrite lookup_insert_ne, lookup_insert_ne by done; exact Hb). done.
Qed.

Lemma linked_insert h P pre p b post Q e :
  linked h P ((pre ++ [p]) ++ b :: post) Q ->
  NoDup ((pre ++ [p]) ++ b :: post) -> e ∉ (pre ++ [p]) ++ b :: post ->
  linked (<[b := {| prev := e; next := List.hd Q post |}]>
          (<[p := {| prev := lst pre P; next := e |}]> (<[e := {| prev := p; next := b |}]> h)))
    P ((pre ++ [p]) ++ e :: b :: post) Q.
Proof.
  intros Hl (Hn1 & Hn2 & Hn3)%NoDup_app He. apply NoDup_app in Hn1 as (_ & Hpp & _).
  apply NoDup_cons in Hn3 as [Hbp _].
  rewrite linked_app in Hl. destruct Hl as [Hl1 Hl2]. rewrite last_snoc_d in Hl2.
  rewrite linked_app, last_snoc_d. cbn [List.hd]. split; [|split].
  - apply linked_insert_other; [set_solver|].
    apply (linked_set_next _ _ _ _ b); [set_solver|].
    apply linked_insert_other; [set_solver|done].
  - rewrite (lookup_insert_ne _ b), (lookup_insert_ne _ p) by set_solver.
    by rewrite lookup_insert_eq.
  - apply (linked_set_prev _ p); [done|].
    apply linked_insert_other; [set_solver|]. by apply linked_insert_other; [set_solver|].
Qed.

(** The element before and the element after a position, among the cells. *)
Lemma cells_split l xs ys :
  exists pre post, cells l (xs ++ ys) = (pre ++ [lst xs (head_of l)]) ++ List.hd (tail_of l) ys :: post
    /\ head_of l :: xs = pre ++ [lst xs (head_of l)] /\ ys ++ [tail_of l] = List.hd (tail_of l) ys :: post.
Proof.
  destruct (snoc_inv (head_of l) xs) as [pre Hpre].
  exists pre, (List.tl (ys ++ [tail_of l])). unfold cells.
  rewrite <- Hpre, <- app_assoc. cbn. by destruct ys.
Qed.

Lemma dll_insert h l xs ys e :
  dll h l (xs ++ ys) -> e ∉ cells l (xs ++ ys) -> e <> NULL -> is_Some (h !! e) ->
  exists h', list_insert (List.hd (tail_of l) ys) e h = Ok (tt, h') /\
    dll h' l (xs ++ e :: ys) /\ same_except (e :: cells l (xs ++ ys)) h h' /\ dom h' = dom h.
Proof.
  intros [Hl Hn H0] He Ne [n Hhe].
  destruct (cells_split l xs ys) as (pre & post & Hc & Hpre & Hpost).
  rewrite Hc in Hl, Hn, H0, He. set (p := lst xs (head_of l)) in *.
  set (b := List.hd (tail_of l) ys) in *.
  pose proof (linked_lookup _ _ _ _ _ _ Hl) as Hb. rewrite last_snoc_d in Hb.
  assert (h !! p = Some {| prev := lst pre NULL; next := b |}) as Hp.
  { rewrite <- app_assoc in Hl. by apply linked_lookup in Hl. }
  assert (p <> b) as Hpb.
  { apply NoDup_app in Hn as (_ & Hn & _). intros E. apply (Hn p); [set_solver|].
    rewrite E. set_solver. }
  eexists. split; [|split; [|split]].
  - eapply list_insert_run; [done|done|done|..]; try set_solver.
  - assert (cells l (xs ++ e :: ys) = (pre ++ [p]) ++ e :: b :: post) as Hc'.
    { unfold cells. rewrite <- app_assoc, app_comm_cons, Hpre. cbn. by rewrite Hpost. }
    split; rewrite Hc'.
    + by apply linked_insert.
    + by apply NoDup_insert_middle.
    + set_solver.
  - rewrite Hc. repeat (apply same_except_insert; [set_solver|]). apply same_except_refl.
  - solve_dom.
Qed.

Lemma dll_begin h l xs : dll h l xs -> list_begin l h = Ok (List.hd (tail_of l) xs, h).
Proof.
  intros H. erewrite list_begin_ok by eauto using dll_base_nonnull, dll_head_lookup. done.
Qed.

Lemma dll_end h l xs : dll h l xs -> list_end l h = Ok (tail_of l, h).
Proof. intros H. apply list_end_ok. by eapply dll_base_nonnull. Qed.

Lemma dll_next h l xs e ys :
  dll h l (xs ++ e :: ys) -> list_next e h = Ok (List.hd (tail_of l) ys, h).
Proof.
  intros H. pose proof (dll_elem_lookup _ _ _ _ _ H) as He.
  rewrite (list_next_ok _ _ _ He); [done| |].
  - eapply dll_in_nonnull; [done|set_solver].
  - cbn. eapply (dll_hd_nonnull _ _ (xs ++ [e])). by rewrite <- app_assoc.
Qed.

Lemma dll_prev h l xs e ys :
  dll h l (xs ++ e :: ys) -> list_prev e h = Ok (lst xs (head_of l), h).
Proof.
  intros H. pose proof (dll_elem_lookup _ _ _ _ _ H) as He.
  rewrite (list_prev_ok _ _ _ He); [done| |].
  - eapply dll_in_nonnull; [done|set_solver].
  - cbn. by eapply dll_last_nonnull.
Qed.

Lemma dll_prev_tail h l xs :
  dll h l xs -> list_prev (tail_of l) h = Ok (lst xs (head_of l), h).
Proof.
  intros H. pose proof (dll_tail_lookup _ _ _ H) as He.
  rewrite (list_prev_ok _ _ _ He); [done| |].
  - by eapply dll_tail_nonnull.
  - cbn. eapply (dll_last_nonnull _ _ _ []). by rewrite app_nil_r.
Qed.

Lemma dll_fuel h l xs :
  dll h l xs -> exists fuel, list_fuel h = Ok (fuel, h) /\ (length xs + 2 < fuel)%nat.
Proof. intros H. exists (S (size h)). split; [done|]. apply dll_size in H. lia. Qed.
#[export] Hint Resolve dll_begin dll_end dll_next dll_prev dll_prev_tail : krun.

Lemma hd_eqb_tail h l xs :
  dll h l xs -> (List.hd (tail_of l) xs =? tail_of l) = match xs with [] => true | _ => false end.
Proof.
  intros H. destruct xs as [|x xs]; [apply Z.eqb_refl|].
  apply Z.eqb_neq. intros E. apply (dll_tail_notin _ _ _ H). set_solver.
Qed.

Lemma dll_empty h l xs :
  dll h l xs -> list_empty l h = Ok (match xs with [] => true | _ => false end, h).
Proof.
  intros H. unfold list_empty. do 2 krun. rewrite (hd_eqb_tail _ _ _ H). done.
Qed.

Lemma dll_front h l x xs : dll h l (x :: xs) -> list_front l h = Ok (x, h).
Proof.
  intros H. unfold list_front, assertM.
  erewrite run_bind by (erewrite run_bind by (erewrite run_bind by (by apply dll_empty); reflexivity); reflexivity).
  erewrite get_next_ok; [|by apply dll_head_lookup]. done.
Qed.

Lemma dll_back h l xs x : dll h l (xs ++ [x]) -> list_back l h = Ok (x, h).
Proof.
  intros H. unfold list_back, assertM.
  erewrite run_bind by (erewrite run_bind by (erewrite run_bind by (by apply dll_empty); reflexivity);
                        destruct xs; reflexivity).
  erewrite get_prev_ok; [|by apply dll_tail_lookup]. cbn. by rewrite last_snoc_d.
Qed.

Lemma dll_push_front h l xs e :
  dll h l xs -> e ∉ cells l xs -> e <> NULL -> is_Some (h !! e) ->
  exists h', list_push_front l e h = Ok (tt, h') /\
    dll h' l (e :: xs) /\ same_except (e :: cells l xs) h h' /\ dom h' = dom h.
Proof. intros H He Ne Hm. unfold list_push_front. krun. by apply (dll_insert h l [] xs e). Qed.

Lemma dll_push_back h l xs e :
  dll h l xs -> e ∉ cells l xs -> e <> NULL -> is_Some (h !! e) ->
  exists h', list_push_back l e h = Ok (tt, h') /\
    dll h' l (xs ++ [e]) /\ same_except (e :: cells l xs) h h' /\ dom h' = dom h.
Proof.
  intros H He Ne Hm. unfold list_push_back. krun.
  rewrite <- (app_nil_r xs) in H, He.
  destruct (dll_insert h l xs [] e H He Ne Hm) as (h' & Hr & Hd & Hs & Hdom).
  exists h'. by rewrite app_nil_r in Hs.
Qed.

(** ** Removal *)

Lemma list_remove_run h e p n pp nn :
  h !! e = Some {| prev := p; next := n |} ->
  h !! p = Some {| prev := pp; next := e |} ->
  h !! n = Some {| prev := e; next := nn |} ->
  e <> NULL -> p <> NULL -> n <> NULL -> e <> p -> e <> n -> p <> n ->
  list_remove e h =
  Ok (n, <[n := {| prev := p; next := nn |}]> (<[p := {| prev := pp; next := n |}]> h)).
Proof.
  intros He Hp Hn Ne Np Nn D1 D2 D3. unfold list_remove.
  erewrite run_bind by (eapply assert_interior_ok; eauto). do 2 krun. cbn [prev next].
  erewrite run_bind by (apply set_next_ok; exact Hp). cbn [prev].
  assert (<[p := {| prev := pp; next := n |}]> h !! e = Some {| prev := p; next := n |}) as He'
    by (by rewrite lookup_insert_ne).
  do 2 krun. cbn [prev next].
  erewrite run_bind by (apply set_prev_ok; rewrite lookup_insert_ne by done; exact Hn).
  cbn [next]. erewrite get_next_ok by (rewrite lookup_insert_ne by done; exact He'). done.
Qed.

Lemma linked_remove h P pre p e n post Q :
  linked h P ((pre ++ [p]) ++ e :: n :: post) Q ->
  NoDup ((pre ++ [p]) ++ e :: n :: post) ->
  linked (<[n := {| prev := p; next := List.hd Q post |}]>
          (<[p := {| prev := lst pre P; next := n |}]> h)) P ((pre ++ [p]) ++ n :: post) Q.
Proof.
  intros Hl (Hn1 & Hn2 & Hn3)%NoDup_app. apply NoDup_app in Hn1 as (_ & Hpp & _).
  apply NoDup_cons in Hn3 as [_ Hn3]. apply NoDup_cons in Hn3 as [Hnp _].
  rewrite linked_app, last_snoc_d in Hl. destruct Hl as [Hl1 [_ Hl2]].
  rewrite linked_app, last_snoc_d. cbn [List.hd]. split.
  - apply linked_insert_other; [set_solver|]. by apply (linked_set_next _ _ _ _ e); [set_solver|].
  - apply (linked_set_prev _ e); [done|]. by apply linked_insert_other; [set_solver|].
Qed.

Lemma dll_remove h l xs e ys :
  dll h l (xs ++ e :: ys) ->
  exists h', list_remove e h = Ok (List.hd (tail_of l) ys, h') /\
    dll h' l (xs ++ ys) /\ same_except (cells l (xs ++ ys)) h h' /\ dom h' = dom h.
Proof.
  intros Hd. pose proof (dll_elem_lookup _ _ _ _ _ Hd) as He.
  assert (e <> NULL) as Ne by (eapply dll_in_nonnull; [done|set_solver]).
  destruct (cells_split l xs ys) as (pre & post & Hc & Hpre & Hpost).
  set (p := lst xs (head_of l)) in *. set (n := List.hd (tail_of l) ys) in *.
  assert (cells l (xs ++ e :: ys) = (pre ++ [p]) ++ e :: n :: post) as Hc'.
  { unfold cells. rewrite <- app_assoc, app_comm_cons, Hpre. cbn. by rewrite Hpost. }
  destruct Hd as [Hl Hn H0]. rewrite Hc' in Hl, Hn, H0.
  assert (h !! p = Some {| prev := lst pre NULL; next := e |}) as Hp.
  { rewrite <- app_assoc in Hl. by apply linked_lookup in Hl. }
  assert (h !! n = Some {| prev := e; next := List.hd NULL post |}) as Hnl.
  { rewrite linked_app in Hl. destruct Hl as [_ [_ [Hl _]]]. done. }
  destruct (NoDup_remove_middle _ _ _ Hn) as [Hn' Hin].
  assert (p <> n) as Hpn.
  { apply NoDup_app in Hn' as (_ & Hx & _). intros E. apply (Hx p); [set_solver|].
    rewrite E. set_solver. }
  eexists. split; [|split; [|split]].
  - eapply list_remove_run; [done|done|done|..]; try set_solver.
  - split; rewrite Hc; [by apply linked_remove with (e := e)|done|set_solver].
  - rewrite Hc. repeat (apply same_except_insert; [set_solver|]). apply same_except_refl.
  - solve_dom.
Qed.

Lemma dll_pop_front h l x xs :
  dll h l (x :: xs) ->
  exists h', list_pop_front l h = Ok (x, h') /\ dll h' l xs /\
    same_except (cells l xs) h h' /\ dom h' = dom h.
Proof.
  intros H. unfold list_pop_front. erewrite run_bind by (by eapply dll_front).
  destruct (dll_remove h l [] x xs H) as (h' & Hr & Hd). exists h'.
  by rewrite (run_bind _ _ _ _ _ Hr).
Qed.

Lemma dll_pop_back h l xs x :
  dll h l (xs ++ [x]) ->
  exists h', list_pop_back l h = Ok (x, h') /\ dll h' l xs /\
    same_except (cells l xs) h h' /\ dom h' = dom h.
Proof.
  intros H. unfold list_pop_back. erewrite run_bind by (by eapply dll_back).
  destruct (dll_remove h l xs x [] H) as (h' & Hr & Hd). rewrite app_nil_r in Hd.
  exists h'. by rewrite (run_bind _ _ _ _ _ Hr).
Qed.

(** ** Traversal *)

Lemma u32_succ c : u32 (u32 c + 1) = u32 (c + 1).
Proof. unfold uwrap. by rewrite Z.add_mod_idemp_l. Qed.

Lemma snoc_shift {A} (xs : list A) y ys : xs ++ y :: ys = (xs ++ [y]) ++ ys.
Proof. by rewrite <- app_assoc. Qed.

Lemma dll_size_loop h l ys : forall fuel xs c,
  dll h l (xs ++ ys) -> (length ys < fuel)%nat ->
  loop fuel (fun '(e, cnt) =>
    en ← list_end l;
    if e =? en then mret (inr cnt) else
    e' ← list_next e; mret (inl (e', u32 (cnt + 1)))) (List.hd (tail_of l) ys, u32 c) h
  = Ok (u32 (c + Zlen ys), h).
Proof.
  induction ys as [|y ys IH]; intros [|fuel] xs c H Hf; cbn in Hf; try lia.
  - apply loop_break. krun. cbn [List.hd]. rewrite Z.eqb_refl. by rewrite Z.add_0_r.
  - erewrite loop_continue.
    2:{ krun. cbn [List.hd]. rewrite (proj2 (Z.eqb_neq _ _)).
        2:{ intros ->. apply (dll_tail_notin _ _ _ H). set_solver. }
        krun. rewrite u32_succ. reflexivity. }
    rewrite (IH fuel (xs ++ [y])); [|by rewrite <- app_assoc|lia].
    do 3 f_equal. cbn [length]. lia.
Qed.

Lemma dll_list_size h l xs : dll h l xs -> list_size l h = Ok (u32 (Zlen xs), h).
Proof.
  intros H. unfold list_size. destruct (dll_fuel _ _ _ H) as (fuel & Hf & Hlen).
  rewrite (run_bind _ _ _ _ _ Hf). krun.
  change 0 with (u32 0) at 1. rewrite (dll_size_loop _ _ _ _ []); [done|done|lia].
Qed.

(** ** Reversal *)

Lemma swap_fields_ok h e n :
  h !! e = Some n ->
  swap (FPrev e) (FNext e) h = Ok (tt, <[e := {| prev := next n; next := prev n |}]> h).
Proof.
  intros H. unfold swap, fread, fwrite. do 3 krun.
  erewrite set_next_ok by apply lookup_insert_eq. by rewrite insert_insert_eq.
Qed.

(** In a segment of [es] whose cells have been swapped, the order is reversed. *)
Lemma linked_rev_snoc h p e es q :
  linked h p (rev es ++ [e]) q <-> linked h p (rev (e :: es)) q.
Proof. done. Qed.

Lemma hd_rev (es : list Z) d : List.hd d (rev es) = lst es d.
Proof.
  induction es as [|e es IH] using rev_ind; [done|].
  by rewrite rev_app_distr, last_snoc_d.
Qed.

Lemma dll_reverse_loop h l ys : forall fuel xs h',
  dll h l (xs ++ ys) -> (length ys < fuel)%nat ->
  linked h' (List.hd (tail_of l) ys) (rev xs) (head_of l) ->
  linked h' (lst xs (head_of l)) ys (tail_of l) ->
  same_except xs h h' ->
  exists h'', loop fuel (fun e =>
      en ← list_end l;
      if e =? en then mret (inr tt) else
      swap (FPrev e) (FNext e);;
      e' ← get_prev e; mret (inl e')) (List.hd (tail_of l) ys) h' = Ok (tt, h'') /\
    linked h'' (tail_of l) (rev (xs ++ ys)) (head_of l) /\ same_except (xs ++ ys) h h'' /\
    dom h'' = dom h'.
Proof.
  induction ys as [|y ys IH]; intros [|fuel] xs h' H Hf Hr Hl Hs; cbn in Hf; try lia.
  - exists h'. rewrite app_nil_r in *. split; [|done]. apply loop_break.
    erewrite run_bind by (eapply list_end_ok, dll_base_nonnull, H). cbn. by rewrite Z.eqb_refl.
  - pose proof (dll_elems_nodup _ _ _ H) as Hnd. cbn in Hl. destruct Hl as [Hy Hl].
    apply NoDup_remove_middle in Hnd as [_ Hyn].
    set (h2 := <[y := {| prev := List.hd (tail_of l) ys; next := lst xs (head_of l) |}]> h').
    erewrite loop_continue.
    2:{ erewrite run_bind by (eapply list_end_ok, dll_base_nonnull, H). cbn [List.hd].
        rewrite (proj2 (Z.eqb_neq _ _)).
        2:{ intros ->. apply (dll_tail_notin _ _ _ H). set_solver. }
        erewrite run_bind by (by apply swap_fields_ok).
        erewrite run_bind by (apply get_prev_ok, lookup_insert_eq). reflexivity. }
    rewrite (snoc_shift xs y ys) in *. fold h2.
    destruct (IH fuel (xs ++ [y]) h2) as (h'' & Hrun & Hl'' & Hs'' & Hd'');
      [done|lia| | | |].
    + rewrite rev_app_distr. cbn. rewrite hd_rev. split; [apply lookup_insert_eq|].
      apply linked_insert_other; [|done].
      rewrite list_elem_of_In, <- in_rev, <- list_elem_of_In. set_solver.
    + rewrite last_snoc_d. by apply linked_insert_other; [set_solver|].
    + apply same_except_insert; [set_solver|]. eapply same_except_weaken; [|done]. set_solver.
    + exists h''. split_and!; try done. rewrite Hd''. unfold h2. solve_dom.
Qed.

(** Turning the two outer links of a segment around. *)
Lemma swap_ends_ok h p q es a b :
  linked h p es q -> NoDup es -> a = List.hd 0 es -> b = lst es 0 -> es <> [] ->
  exists h', swap (FPrev a) (FNext b) h = Ok (tt, h') /\ linked h' q es p /\
    same_except es h h' /\ dom h' = dom h.
Proof.
  intros Hl Hnd -> -> Hne. destruct es as [|a es]; [done|]. cbn [List.hd].
  destruct (snoc_inv a es) as [pre Hpre]. rewrite last_cons_d. set (b := lst es a) in *.
  assert (h !! a = Some {| prev := p; next := List.hd q es |}) as Ha by apply Hl.
  assert (h !! b = Some {| prev := lst pre p; next := q |}) as Hb.
  { rewrite Hpre in Hl. by apply linked_lookup in Hl. }
  pose proof (proj1 (proj1 (NoDup_cons _ _) Hnd)) as Hna.
  pose proof (linked_set_prev _ _ _ _ _ q Hna Hl) as Hl1. rewrite Hpre in Hl1, Hnd.
  assert (b ∉ pre) as Hnb.
  { apply NoDup_app in Hnd as (_ & Hx & _). intros Hin. apply (Hx _ Hin). set_solver. }
  pose proof (linked_lookup _ _ _ _ _ _ Hl1) as Hb1.
  pose proof (linked_set_next _ _ _ _ _ p Hnb Hl1) as Hl2.
  eexists. split; [|split; [|split]].
  - unfold swap, fread, fwrite. do 3 krun. cbn [prev next].
    erewrite set_next_ok by exact Hb1. reflexivity.
  - rewrite Hpre. exact Hl2.
  - rewrite Hpre. apply same_except_insert; [set_solver|].
    apply same_except_insert; [|apply same_except_refl]. rewrite <- Hpre. set_solver.
  - cbn. solve_dom.
Qed.

Lemma same_except_dll_headers h h' l xs :
  dll h l xs -> same_except xs h h' ->
  h' !! head_of l = h !! head_of l /\ h' !! tail_of l = h !! tail_of l.
Proof.
  intros [_ Hn _] Hs. unfold cells in Hn.
  apply NoDup_cons in Hn as [Hh Hn]. apply NoDup_app in Hn as (_ & Hn & _).
  split; apply Hs; [set_solver|]. intros Hin. apply (Hn _ Hin). set_solver.
Qed.

Lemma cells_rev l xs : cells l (rev xs) ≡ₚ cells l xs.
Proof. unfold cells. by rewrite <- (Permutation_rev xs). Qed.

(** The cells of a list, from their links. *)
Lemma dll_intro h l xs :
  h !! head_of l = Some {| prev := NULL; next := List.hd (tail_of l) xs |} ->
  linked h (head_of l) xs (tail_of l) ->
  h !! tail_of l = Some {| prev := lst xs (head_of l); next := NULL |} ->
  NoDup (cells l xs) -> NULL ∉ cells l xs -> dll h l xs.
Proof.
  intros H1 H2 H3 H4 H5. split; [|done|done]. split.
  - rewrite H1. f_equal. f_equal. by destruct xs.
  - rewrite linked_app. split; [done|]. by split.
Qed.

Lemma dll_elim h l xs : dll h l xs -> linked h (head_of l) xs (tail_of l).
Proof. intros [[_ H] _ _]. by apply linked_app in H as [H _]. Qed.

Lemma last_rev (es : list Z) d : lst (rev es) d = List.hd d es.
Proof. by rewrite <- hd_rev, rev_involutive. Qed.

Definition reverse_headers (l : Z) : st heap unit :=
  swap (FNext (head_of l)) (FPrev (tail_of l));;
  hn ← get_next (head_of l); tp ← get_prev (tail_of l); swap (FPrev hn) (FNext tp).

(** The three statements after the loop of [list_reverse], on a memory where
    the interior cells have been swapped and the headers have not. *)
Lemma reverse_headers_ok h l x xs (ys := x :: xs) :
  h !! head_of l = Some {| prev := NULL; next := x |} ->
  h !! tail_of l = Some {| prev := lst xs x; next := NULL |} ->
  linked h (tail_of l) (rev ys) (head_of l) ->
  NoDup (cells l ys) -> NULL ∉ cells l ys ->
  exists h', reverse_headers l h = Ok (tt, h') /\
    dll h' l (rev ys) /\ same_except (cells l ys) h h' /\ dom h' = dom h.
Proof.
  intros Hh Ht Hl Hnd H0. pose proof (cells_rev l ys) as Hc.
  assert (head_of l <> tail_of l) as Hht by (unfold head_of, tail_of; lia).
  assert ((head_of l ∉ rev ys) /\ (tail_of l ∉ rev ys) /\ NoDup (rev ys)) as (Hn1 & Hn2 & Hn3).
  { rewrite <- Hc in Hnd. unfold cells in Hnd. apply NoDup_cons in Hnd as [Hn1 Hnd].
    apply NoDup_app in Hnd as (Hn3 & Hn2 & _). split_and!; [set_solver| |done].
    intros Hin. apply (Hn2 _ Hin). set_solver. }
  set (h2 := <[tail_of l := {| prev := x; next := NULL |}]>
             (<[head_of l := {| prev := NULL; next := lst xs x |}]> h)).
  assert (swap (FNext (head_of l)) (FPrev (tail_of l)) h = Ok (tt, h2)) as Hsw.
  { unfold swap, fread, fwrite. do 3 krun. cbn [prev next].
    erewrite set_prev_ok by (rewrite lookup_insert_ne by done; exact Ht). done. }
  assert (h2 !! head_of l = Some {| prev := NULL; next := lst xs x |}) as Hh2.
  { unfold h2. rewrite lookup_insert_ne by done. apply lookup_insert_eq. }
  assert (h2 !! tail_of l = Some {| prev := x; next := NULL |}) as Ht2 by apply lookup_insert_eq.
  assert (linked h2 (tail_of l) (rev ys) (head_of l)) as Hl2.
  { by repeat (apply linked_insert_other; [done|]). }
  destruct (swap_ends_ok h2 _ _ _ (lst xs x) x Hl2 Hn3) as (h3 & Hr3 & Hl3 & Hs3 & Hd3).
  1-3: unfold ys; rewrite ?hd_rev, ?last_rev, ?last_cons_d; try done.
  { intros E%(f_equal length). rewrite length_rev in E. done. }
  exists h3. split; [by unfold reverse_headers; rewrite (run_bind _ _ _ _ _ Hsw); do 2 krun|split; [|split]].
  - apply dll_intro; [|done| |by rewrite Hc|by rewrite Hc]; rewrite Hs3 by done.
    + rewrite Hh2, hd_rev. unfold ys. by rewrite last_cons_d.
    + by rewrite last_rev.
  - apply (same_except_trans _ _ h2).
    + repeat (apply same_except_insert; [unfold cells; set_solver|]). apply same_except_refl.
    + eapply same_except_weaken; [|exact Hs3]. intros a Ha. rewrite <- Hc. unfold cells. set_solver.
  - rewrite Hd3. unfold h2. solve_dom.
Qed.

Lemma dll_reverse h l xs :
  dll h l xs ->
  exists h', list_reverse l h = Ok (tt, h') /\ dll h' l (rev xs) /\
    same_except (cells l xs) h h' /\ dom h' = dom h.
Proof.
  intros H. unfold list_reverse. erewrite run_bind by (by apply dll_empty).
  destruct xs as [|x xs]; [by exists h|].
  destruct (dll_fuel _ _ _ H) as (fuel & Hf & Hlen). rewrite (run_bind _ _ _ _ _ Hf). krun.
  destruct (dll_reverse_loop h l (x :: xs) fuel [] h) as (h1 & Hr1 & Hl1 & Hs1 & Hd1);
    [done|lia|done|by apply dll_elim|done|].
  destruct (same_except_dll_headers _ _ _ _ H Hs1) as [Hh Ht].
  rewrite (dll_head_lookup _ _ _ H) in Hh. rewrite (dll_tail_lookup _ _ _ H), last_cons_d in Ht.
  destruct (reverse_headers_ok h1 l x xs) as (h2 & Hr2 & Hl2 & Hs2 & Hd2); [done|done|done|apply H|apply H|].
  exists h2. rewrite (run_bind _ _ _ _ _ Hr1). split_and!; [exact Hr2|done| |congruence].
  apply (same_except_trans _ _ h1); [|done].
  eapply same_except_weaken; [|exact Hs1]. unfold cells. set_solver.
Qed.

(** ** list_init *)

Lemma dll_init h l :
  l <> NULL -> tail_of l <> NULL -> is_Some (h !! head_of l) -> is_Some (h !! tail_of l) ->
  exists h', list_init l h = Ok (tt, h') /\ dll h' l [] /\
    same_except [head_of l; tail_of l] h h' /\ dom h' = dom h.
Proof.
  intros Nl Nt [n1 H1] [n2 H2].
  assert (head_of l <> tail_of l) as Hht by (unfold head_of, tail_of; lia).
  exists (<[tail_of l := {| prev := head_of l; next := NULL |}]>
     (<[head_of l := {| prev := NULL; next := tail_of l |}]> h)).
  split_and!.
  - unfold list_init.
    erewrite run_bind by (by apply run_assert, negb_true_iff, Z.eqb_neq). krun.
    erewrite run_bind by (apply set_next_ok, lookup_insert_eq). rewrite insert_insert_eq.
    erewrite run_bind by (apply set_prev_ok; rewrite lookup_insert_ne by done; exact H2).
    erewrite set_next_ok by apply lookup_insert_eq. rewrite insert_insert_eq. done.
  - apply dll_intro; cbn; [by rewrite lookup_insert_ne, lookup_insert_eq by done|done|
      by rewrite lookup_insert_eq| |].
    + unfold cells. cbn. apply NoDup_cons. split; [set_solver|]. apply NoDup_singleton.
    + unfold cells. cbn. set_solver.
  - repeat (apply same_except_insert; [set_solver|]). apply same_except_refl.
  - solve_dom.
Qed.

(** * Main theorems *)

(** A memory with the list 200, 300 at address 100 and a free cell at 400. *)
Definition demo_heap : heap :=
  <[100 := {| prev := 0; next := 200 |}]> (<[200 := {| prev := 100; next := 300 |}]>
  (<[300 := {| prev := 200; next := 108 |}]> (<[108 := {| prev := 300; next := 0 |}]>
  (<[400 := {| prev := 7; next := 7 |}]> ∅)))).

Lemma demo_dll : dll demo_heap 100 [200; 300].
Proof.
  split; [repeat split; reflexivity|apply (bool_decide_unpack _); reflexivity|].
  apply (bool_decide_unpack _); reflexivity.
Qed.

(** [list_insert (before, elem)], with [before] an interior element or the
    tail, puts a fresh [elem] just before it: the call returns, the list holds the
    old sequence with [elem] at that place, no other memory cell is written and
    none is created. *)
Theorem list_insert_spec h l xs ys e :
  dll h l (xs ++ ys) -> e ∉ cells l (xs ++ ys) -> e <> NULL -> is_Some (h !! e) ->
  exists h', list_insert (List.hd (tail_of l) ys) e h = Ok (tt, h') /\
    dll h' l (xs ++ e :: ys) /\ same_except (e :: cells l (xs ++ ys)) h h' /\ dom h' = dom h.
Proof. apply dll_insert. Qed.

Lemma list_insert_spec_witness :
  exists h', list_insert 300 400 demo_heap = Ok (tt, h') /\ dll h' 100 [200; 400; 300].
Proof.
  destruct (list_insert_spec demo_heap 100 [200] [300] 400) as (h' & H1 & H2 & _).
  - exact demo_dll.
  - apply (bool_decide_unpack _). reflexivity.
  - discriminate.
  - eexists. reflexivity.
  - exists h'. split; [exact H1|exact H2].
Defined.

(** [list_remove (elem)] takes an interior element out of its list and
    returns the element that followed it; the other elements keep their order and
    the cell of [elem] itself is left as it was. *)
Theorem list_remove_spec h l xs e ys :
  dll h l (xs ++ e :: ys) ->
  exists h', list_remove e h = Ok (List.hd (tail_of l) ys, h') /\
    dll h' l (xs ++ ys) /\ same_except (cells l (xs ++ ys)) h h' /\ dom h' = dom h.
Proof. apply dll_remove. Qed.

Lemma list_remove_spec_witness :
  exists h', list_remove 200 demo_heap = Ok (300, h') /\ dll h' 100 [300].
Proof.
  destruct (list_remove_spec demo_heap 100 [] 200 [300] demo_dll) as (h' & H1 & H2 & _).
  exists h'. split; [exact H1|exact H2].
Defined.

(** [list_reverse] returns and leaves the same cells linked in the opposite
    order, whatever the length of the list. *)
Theorem list_reverse_spec h l xs :
  dll h l xs ->
  exists h', list_reverse l h = Ok (tt, h') /\ dll h' l (rev xs) /\
    same_except (cells l xs) h h' /\ dom h' = dom h.
Proof. apply dll_reverse. Qed.

Lemma list_reverse_spec_witness :
  exists h', list_reverse 100 demo_heap = Ok (tt, h') /\ dll h' 100 [300; 200].
Proof.
  destruct (list_reverse_spec demo_heap 100 _ demo_dll) as (h' & H1 & H2 & _).
  exists h'. split; [exact H1|exact H2].
Defined.
