(* ===== verification/KListSort.v ===== *)
(** The operations of lib/kernel/list.c on lists with ordered elements:
    [list_sort], [list_insert_ordered], [list_unique], [list_max], [list_min].
    Their behaviour is described by functions on the sequence of elements, and
    the pointer code of KList is shown to compute exactly these. *)
From Stdlib Require Import ZArith Lia.
From stdpp Require Import base numbers sorting gmap list.
From S2P Require Import Prelude.
From S2P Require Import KList.

Local Open Scope Z_scope.

(** What the comments of list.h ask of a [list_less_func]: [less] orders the
    elements up to a notion of equality.  [less b a = false] reads "[a] may stand
    before [b]". *)
Class WeakOrder (less : Z -> Z -> bool) : Prop := {
  less_asym a b : less a b = true -> less b a = false;
  less_trans a b c : less b a = false -> less c b = false -> less c a = false
}.

(** * Sequence-level descriptions *)

Section Spec.
Context (less : Z -> Z -> bool).

Definition le (a b : Z) : Prop := less b a = false.

Fixpoint sortedb (ys : list Z) : bool :=
  match ys with
  | a :: (b :: _) as t => negb (less b a) && sortedb t
  | _ => true
  end.

(** The longest nondecreasing run at the front of [y :: ys], and the rest. *)
Fixpoint take_run (y : Z) (ys : list Z) : list Z * list Z :=
  match ys with
  | [] => ([y], [])
  | y' :: ys' =>
      if less y' y then ([y], ys)
      else let '(r, rest) := take_run y' ys' in (y :: r, rest)
  end.

Fixpoint merge (xs : list Z) : list Z -> list Z :=
  fix merge_xs ys :=
    match xs, ys with
    | [], _ => ys
    | _, [] => xs
    | x :: xs', y :: ys' =>
        if negb (less y x) then x :: merge xs' ys else y :: merge_xs ys'
    end.

(** One pass over [ys]: the merged runs, and how many there are. *)
Fixpoint pass (fuel : nat) (ys : list Z) : list Z * nat :=
  match fuel, ys with
  | S fuel, y :: ys' =>
      let '(r1, rest) := take_run y ys' in
      match rest with
      | [] => (r1, 1%nat)
      | z :: rest' =>
          let '(r2, rest2) := take_run z rest' in
          let '(out, n) := pass fuel rest2 in
          (merge r1 r2 ++ out, S n)
      end
  | _, _ => ([], 0%nat)
  end.

Fixpoint insert_ordered (e : Z) (ys : list Z) : list Z :=
  match ys with
  | [] => [e]
  | y :: ys' => if less e y then e :: ys else y :: insert_ordered e ys'
  end.

Definition equiv (a b : Z) : bool := negb (less a b) && negb (less b a).

(** The elements kept and the elements removed by [list_unique]. *)
Fixpoint unique (y : Z) (ys : list Z) : list Z * list Z :=
  match ys with
  | [] => ([y], [])
  | y' :: ys' =>
      if equiv y y' then let '(k, d) := unique y ys' in (k, y' :: d)
      else let '(k, d) := unique y' ys' in (y :: k, d)
  end.

Fixpoint max_of (m : Z) (ys : list Z) : Z :=
  match ys with
  | [] => m
  | y :: ys' => max_of (if less m y then y else m) ys'
  end.

Fixpoint min_of (m : Z) (ys : list Z) : Z :=
  match ys with
  | [] => m
  | y :: ys' => min_of (if less y m then y else m) ys'
  end.
End Spec.

(** * The pointer code computes the descriptions *)

(** The address at which the suffix [ys] of the list at [l] begins. *)
Abbreviation pos l ys := (List.hd (tail_of l) ys).

Lemma pos_neq h l xs y ys zs :
  dll h l (xs ++ y :: ys ++ zs) -> (y =? pos l zs) = false.
Proof.
  intros H. apply Z.eqb_neq. intros E. pose proof (dll_tail_notin _ _ _ H) as Ht.
  apply dll_elems_nodup in H. apply NoDup_app in H as (_ & _ & H).
  apply NoDup_cons in H as [H _]. destruct zs as [|z zs]; cbn in E; subst; [set_solver|].
  set_solver.
Qed.

Lemma pos_neq_end h l xs y ys : dll h l (xs ++ y :: ys) -> (y =? tail_of l) = false.
Proof. intros H. rewrite <- (app_nil_r ys) in H. by apply (pos_neq _ _ _ _ _ []) in H. Qed.

Lemma pos_nonnull h l xs ys : dll h l (xs ++ ys) -> negb (pos l ys =? NULL) = true.
Proof. intros H. apply negb_true_iff, Z.eqb_neq. by eapply dll_hd_nonnull. Qed.

(** [krun] in the sections below also needs the fuel of the loops. *)
Ltac list_fuel_at H fuel Hlen :=
  let Hf := fresh in
  destruct (dll_fuel _ _ _ H) as (fuel & Hf & Hlen); rewrite (run_bind _ _ _ _ _ Hf); clear Hf.

Section Refine.
Context (less : Z -> Z -> bool).

(** ** is_sorted *)

Lemma is_sorted_loop h l zs ys : forall fuel xs y,
  dll h l (xs ++ y :: ys ++ zs) -> (length ys < fuel)%nat ->
  loop fuel (fun a =>
    a' ← list_next a;
    if a' =? pos l zs then mret (inr true) else
    p ← list_prev a';
    if less a' p then mret (inr false) else mret (inl a')) y h
  = Ok (sortedb less (y :: ys), h).
Proof.
  induction ys as [|y' ys IH]; intros [|fuel] xs y H Hf; cbn in Hf; try lia.
  - apply loop_break. krun. by rewrite Z.eqb_refl.
  - assert (dll h l ((xs ++ [y]) ++ y' :: ys ++ zs)) as H' by (by rewrite <- app_assoc).
    cbn [sortedb]. destruct (less y' y) eqn:E.
    + apply loop_break. krun. cbn [List.hd app]. rewrite (pos_neq _ _ _ _ _ _ H').
      krun. rewrite last_snoc_d. by rewrite E.
    + erewrite loop_continue.
      2:{ krun. cbn [List.hd app]. rewrite (pos_neq _ _ _ _ _ _ H'). krun.
          rewrite last_snoc_d, E. reflexivity. }
      apply (IH fuel (xs ++ [y])); [done|lia].
Qed.

Lemma is_sorted_ok h l xs ys zs :
  dll h l (xs ++ ys ++ zs) ->
  is_sorted less (pos l (ys ++ zs)) (pos l zs) h = Ok (sortedb less ys, h).
Proof.
  intros H. unfold is_sorted. destruct ys as [|y ys]; [by cbn; rewrite Z.eqb_refl|].
  cbn [List.hd app] in *. rewrite (pos_neq _ _ _ _ _ _ H).
  list_fuel_at H fuel Hlen. rewrite length_app in Hlen. cbn in Hlen. rewrite length_app in Hlen.
  eapply is_sorted_loop; [done|lia].
Qed.

Lemma assert_sorted_ok h l xs ys zs :
  dll h l (xs ++ ys ++ zs) -> sortedb less ys = true ->
  assertM (is_sorted less (pos l (ys ++ zs)) (pos l zs)) h = Ok (tt, h).
Proof.
  intros H Hs. unfold assertM. rewrite (run_bind _ _ _ _ _ (is_sorted_ok _ _ _ _ _ H)).
  by rewrite Hs.
Qed.

(** ** find_end_of_run *)

Lemma take_run_app y ys r rest : take_run less y ys = (r, rest) -> r ++ rest = y :: ys.
Proof.
  revert y r rest; induction ys as [|y' ys IH]; intros y r rest H; cbn in H.
  - by simplify_eq.
  - destruct (less y' y); [by simplify_eq|].
    destruct (take_run less y' ys) as [r' rest'] eqn:E. simplify_eq. cbn. f_equal. by apply IH.
Qed.

Lemma find_end_loop h l ys : forall fuel xs y r rest,
  dll h l (xs ++ y :: ys) -> (length ys < fuel)%nat -> take_run less y ys = (r, rest) ->
  loop fuel (fun a =>
    a' ← list_next a;
    if a' =? tail_of l then mret (inr a') else
    p ← list_prev a';
    if negb (less a' p) then mret (inl a') else mret (inr a')) y h
  = Ok (pos l rest, h).
Proof.
  induction ys as [|y' ys IH]; intros [|fuel] xs y r rest H Hf Hr; cbn in Hf; try lia; cbn in Hr.
  - simplify_eq. apply loop_break. krun. by rewrite Z.eqb_refl.
  - assert (dll h l ((xs ++ [y]) ++ y' :: ys)) as H' by (by rewrite <- app_assoc).
    destruct (less y' y) eqn:E.
    + simplify_eq. apply loop_break. krun. cbn [List.hd]. rewrite (pos_neq_end _ _ _ _ _ H').
      krun. by rewrite last_snoc_d, E.
    + destruct (take_run less y' ys) as [r' rest'] eqn:Er. simplify_eq.
      erewrite loop_continue.
      2:{ krun. cbn [List.hd]. rewrite (pos_neq_end _ _ _ _ _ H'). krun.
          rewrite last_snoc_d, E. reflexivity. }
      apply (IH fuel (xs ++ [y]) y' r' rest); [done|lia|done].
Qed.

Lemma find_end_of_run_ok h l xs y ys r rest :
  dll h l (xs ++ y :: ys) -> take_run less y ys = (r, rest) ->
  find_end_of_run less y (tail_of l) h = Ok (pos l rest, h).
Proof.
  intros H Hr. unfold find_end_of_run.
  erewrite run_bind by (apply run_assert, (pos_nonnull h l xs (y :: ys) H)).
  erewrite run_bind by (apply run_assert, negb_true_iff, Z.eqb_neq, (dll_tail_nonnull h l _ H)).
  erewrite run_bind by (apply run_assert; by rewrite (pos_neq_end _ _ _ _ _ H)).
  list_fuel_at H fuel Hlen. rewrite length_app in Hlen. cbn in Hlen.
  eapply find_end_loop; [done|lia|done].
Qed.
End Refine.

(** ** Splicing *)

(** Splicing a single element is removing it and inserting it again. *)
Lemma list_splice_one h h1 h2 a b n m :
  list_remove b h = Ok (n, h1) -> list_insert a b h1 = Ok (tt, h2) ->
  h !! b = Some m -> b <> NULL -> prev m <> NULL -> next m <> NULL ->
  (b =? n) = false -> list_prev n h = Ok (b, h) ->
  assertM (orM (is_interior a) (is_tail a)) h = Ok (tt, h) ->
  list_splice a b n h = Ok (tt, h2).
Proof.
  intros Hrem Hins Hb N1 N2 N3 Hbn Hprev Ha. unfold list_splice.
  rewrite (run_bind _ _ _ _ _ Ha), Hbn, (run_bind _ _ _ _ _ Hprev).
  assert (assertM (is_interior b) h = Ok (tt, h)) as Hib by eauto with krun.
  rewrite (run_bind _ _ _ _ _ Hib), (run_bind _ _ _ _ _ Hib).
  unfold list_remove in Hrem. rewrite (run_bind _ _ _ _ _ Hib) in Hrem.
  do 6 (let x := fresh "x" in let s := fresh "s" in let E := fresh "E" in
        apply run_bind_inv in Hrem as (x & s & E & Hrem); rewrite (run_bind _ _ _ _ _ E)).
  apply get_next_readonly in Hrem as ->.
  unfold list_insert in Hins.
  apply run_bind_inv in Hins as ([] & t & F & Hins). apply assert_position_readonly in F as ->.
  by rewrite (run_bind _ _ _ _ _ (run_assert _ _ (proj2 (negb_true_iff _) (proj2 (Z.eqb_neq _ _) N1)))) in Hins.
Qed.

Lemma dll_prev_pos h l xs b ys : dll h l (xs ++ b :: ys) -> list_prev (pos l ys) h = Ok (b, h).
Proof.
  intros H. destruct ys as [|y ys]; cbn [List.hd].
  - rewrite (dll_prev_tail _ _ _ H). by rewrite last_snoc_d.
  - rewrite snoc_shift in H. rewrite (dll_prev _ _ _ _ _ H). by rewrite last_snoc_d.
Qed.

(** What one routine may do to memory while it rearranges the list at [l] from
    [xs] to [ys]: the cells of the list are the only ones it writes. *)
Record rearranged (l : Z) (h : heap) (xs : list Z) (h' : heap) (ys : list Z) : Prop := {
  re_dll : dll h' l ys;
  re_same : same_except (cells l xs) h h';
  re_dom : dom h' = dom h;
  re_perm : xs ≡ₚ ys
}.

Lemma rearranged_refl l h xs : dll h l xs -> rearranged l h xs h xs.
Proof. done. Qed.

Lemma cells_perm l xs ys : xs ≡ₚ ys -> cells l xs ≡ₚ cells l ys.
Proof. unfold cells. by intros ->. Qed.

Lemma rearranged_trans l h1 xs1 h2 xs2 h3 xs3 :
  rearranged l h1 xs1 h2 xs2 -> rearranged l h2 xs2 h3 xs3 -> rearranged l h1 xs1 h3 xs3.
Proof.
  intros [D1 S1 E1 P1] [D2 S2 E2 P2]. split; [done| |congruence|by etrans].
  eapply same_except_trans; [done|]. eapply same_except_weaken; [|exact S2].
  intros a Ha. by rewrite (cells_perm _ _ _ P1).
Qed.

Lemma dll_splice_one h l xs a as' b ys :
  dll h l (xs ++ (a :: as') ++ b :: ys) ->
  exists h', list_splice a b (pos l ys) h = Ok (tt, h') /\
    rearranged l h (xs ++ (a :: as') ++ b :: ys) h' (xs ++ b :: (a :: as') ++ ys).
Proof.
  intros H. pose proof H as Hr. rewrite app_assoc in Hr.
  pose proof (dll_elem_lookup _ _ _ _ _ Hr) as Hb.
  pose proof (dll_nodup _ _ _ Hr) as Hnd. rewrite <- app_assoc in Hnd.
  assert (cells l (xs ++ (a :: as') ++ b :: ys) ≡ₚ b :: cells l (xs ++ (a :: as') ++ ys)) as Hc.
  { unfold cells. rewrite perm_swap. f_equiv. rewrite !app_assoc.
    by rewrite <- (Permutation_middle (xs ++ a :: as') ys b). }
  rewrite Hc in Hnd. apply NoDup_cons in Hnd as [Hnb _].
  assert (b <> NULL) as Nb by (eapply dll_in_nonnull; [exact H|set_solver]).
  destruct (dll_remove _ _ _ _ _ Hr) as (h1 & Hr1 & Hd1 & Hs1 & E1).
  rewrite <- app_assoc in Hd1, Hs1.
  destruct (dll_insert h1 l xs ((a :: as') ++ ys) b) as (h2 & Hr2 & Hd2 & Hs2 & E2); [done..| |].
  { apply elem_of_dom. rewrite E1. apply elem_of_dom. by eexists. }
  exists h2. split.
  - eapply list_splice_one; [exact Hr1|exact Hr2|exact Hb|done| | | | |].
    + by eapply dll_last_nonnull.
    + cbn. rewrite snoc_shift in Hr. by eapply dll_hd_nonnull.
    + eapply (pos_neq h l (xs ++ a :: as') b [] ys). done.
    + by eapply dll_prev_pos.
    + cbn in H. eapply assert_interior_or_tail_ok; [by eapply dll_elem_lookup| |].
      * eapply dll_in_nonnull; [exact H|set_solver].
      * by eapply dll_last_nonnull.
  - split; [done| |congruence|by rewrite <- (Permutation_middle (a :: as') ys b)].
    eapply same_except_trans; (eapply same_except_weaken; [|eassumption]).
    + intros x Hx. rewrite Hc. by constructor.
    + intros x Hx. by rewrite Hc.
Qed.

Section Merge.
Context (less : Z -> Z -> bool).

Lemma merge_nil_r xs : merge less xs [] = xs.
Proof. by destruct xs. Qed.

Lemma merge_perm xs ys : merge less xs ys ≡ₚ xs ++ ys.
Proof.
  revert ys; induction xs as [|x xs IH]; [by destruct ys|].
  induction ys as [|y ys IHy]; [by rewrite app_nil_r|].
  cbn. destruct (negb (less y x)).
  - by rewrite IH.
  - cbn in IHy. rewrite IHy. by rewrite <- (Permutation_middle (x :: xs) ys y).
Qed.

Lemma merge_loop h l zs n : forall fuel xs as' bs,
  (length as' + length bs <= n < fuel)%nat -> dll h l (xs ++ as' ++ bs ++ zs) ->
  exists h', loop fuel (fun '(a0, a1b0) =>
    if (a0 =? a1b0) || (a1b0 =? pos l zs) then mret (inr tt) else
    if negb (less a1b0 a0) then
      a0' ← list_next a0; mret (inl (a0', a1b0))
    else
      a1b0' ← list_next a1b0;
      p ← list_prev a1b0';
      list_splice a0 p a1b0';;
      mret (inl (a0, a1b0'))) (pos l (as' ++ bs ++ zs), pos l (bs ++ zs)) h = Ok (tt, h') /\
    rearranged l h (xs ++ as' ++ bs ++ zs) h' (xs ++ merge less as' bs ++ zs).
Proof.
  revert h; induction n as [|n IH]; intros h [|fuel] xs as' bs Hn H; try lia.
  { destruct as', bs; cbn in Hn; try lia. exists h. split; [|by apply rearranged_refl].
    apply loop_break. cbn. by rewrite Z.eqb_refl. }
  destruct as' as [|a as'].
  { exists h. split; [|destruct bs; by apply rearranged_refl].
    apply loop_break. cbn. by rewrite Z.eqb_refl. }
  destruct bs as [|b bs].
  { exists h. rewrite merge_nil_r. split; [|by apply rearranged_refl].
    apply loop_break. cbn. by rewrite Z.eqb_refl, orb_true_r. }
  assert ((a =? b) = false) as Hab by (eapply (pos_neq h l xs a as' ((b :: bs) ++ zs)); exact H).
  assert ((b =? pos l zs) = false) as Hbz.
  { rewrite app_assoc in H. by eapply (pos_neq h l (xs ++ a :: as') b bs zs). }
  cbn [app List.hd]. cbn [length] in Hn. destruct (less b a) eqn:E.
  - (* the front of the second run is spliced before the first *)
    assert (dll h l ((xs ++ a :: as') ++ b :: bs ++ zs)) as H' by (by rewrite <- app_assoc).
    destruct (dll_splice_one h l xs a as' b (bs ++ zs) H) as (h1 & Hr1 & Hm1).
    destruct (IH h1 fuel (xs ++ [b]) (a :: as') bs) as (h2 & Hr2 & Hm2).
    { cbn. lia. } { rewrite <- app_assoc. apply Hm1. }
    exists h2. rewrite <- !app_assoc in Hm2. split.
    + erewrite loop_continue; [exact Hr2|]. rewrite Hab, Hbz. cbn [orb]. rewrite E. cbn [negb].
      krun. rewrite (run_bind _ _ _ _ _ (dll_prev_pos _ _ _ _ _ H')).
      by rewrite (run_bind _ _ _ _ _ Hr1).
    + cbn [merge]. rewrite E. cbn [negb]. eapply rearranged_trans; [exact Hm1|]. exact Hm2.
  - destruct (IH h fuel (xs ++ [a]) as' (b :: bs)) as (h2 & Hr2 & Hm2).
    { cbn. lia. } { by rewrite <- app_assoc. }
    exists h2. rewrite <- !app_assoc in Hm2. split.
    + erewrite loop_continue; [exact Hr2|]. rewrite Hab, Hbz. cbn [orb]. rewrite E. cbn [negb].
      by krun.
    + cbn [merge]. rewrite E. exact Hm2.
Qed.

Lemma inplace_merge_ok h l xs as' bs zs :
  dll h l (xs ++ as' ++ bs ++ zs) -> sortedb less as' = true -> sortedb less bs = true ->
  exists h', inplace_merge less (pos l (as' ++ bs ++ zs)) (pos l (bs ++ zs)) (pos l zs) h
      = Ok (tt, h') /\
    rearranged l h (xs ++ as' ++ bs ++ zs) h' (xs ++ merge less as' bs ++ zs).
Proof.
  intros H Ha Hb. unfold inplace_merge.
  assert (dll h l ((xs ++ as') ++ bs ++ zs)) as H1 by (by rewrite <- app_assoc).
  assert (dll h l (((xs ++ as') ++ bs) ++ zs)) as H2 by (by rewrite <- app_assoc).
  rewrite (run_bind _ _ _ _ _ (run_assert _ _ (pos_nonnull _ _ _ _ H))).
  rewrite (run_bind _ _ _ _ _ (run_assert _ _ (pos_nonnull _ _ _ _ H1))).
  rewrite (run_bind _ _ _ _ _ (run_assert _ _ (pos_nonnull _ _ _ _ H2))).
  rewrite (run_bind _ _ _ _ _ (assert_sorted_ok _ _ _ _ _ _ H Ha)).
  rewrite (run_bind _ _ _ _ _ (assert_sorted_ok _ _ _ _ _ _ H1 Hb)).
  list_fuel_at H fuel Hlen. rewrite !length_app in Hlen.
  apply (merge_loop h l zs (length as' + length bs) fuel); [lia|done].
Qed.
End Merge.

(** ** Runs *)

Section Runs.
Context (less : Z -> Z -> bool).

(** The number of maximal nondecreasing runs in a sequence. *)
Fixpoint runs (ys : list Z) : nat :=
  match ys with
  | [] => 0
  | a :: t => match t with
              | [] => 1
              | b :: _ => (if less b a then 1 else 0) + runs t
              end
  end%nat.

Lemma take_run_sorted y ys r rest : take_run less y ys = (r, rest) -> sortedb less r = true.
Proof.
  revert y r rest; induction ys as [|y' ys IH]; intros y r rest H; cbn in H; [by simplify_eq|].
  destruct (less y' y) eqn:E; [by simplify_eq|].
  destruct (take_run less y' ys) as [r' rest'] eqn:Er. simplify_eq.
  specialize (IH _ _ _ Er). destruct r' as [|z r']; [done|].
  assert (z = y') as ->.
  { apply take_run_app in Er. cbn in Er. by simplify_eq. }
  cbn. rewrite E. exact IH.
Qed.

Lemma take_run_runs y ys r rest :
  take_run less y ys = (r, rest) -> runs (y :: ys) = S (runs rest).
Proof.
  revert y r rest; induction ys as [|y' ys IH]; intros y r rest H; cbn in H; [by simplify_eq|].
  change (runs (y :: y' :: ys)) with ((if less y' y then 1 else 0) + runs (y' :: ys))%nat.
  destruct (less y' y) eqn:E; [by simplify_eq|].
  destruct (take_run less y' ys) as [r' rest'] eqn:Er. simplify_eq. by rewrite (IH _ _ _ Er).
Qed.

Lemma take_run_length y ys r rest :
  take_run less y ys = (r, rest) -> (length r + length rest = S (length ys))%nat.
Proof. intros H%take_run_app%(f_equal length). rewrite length_app in H. done. Qed.

Lemma take_run_nonempty y ys r rest : take_run less y ys = (r, rest) -> (0 < length r)%nat.
Proof.
  intros H. destruct r; [|cbn; lia]. destruct ys; cbn in H; [done|].
  repeat case_match; simplify_eq.
Qed.

Lemma runs_sorted_app p q : sortedb less p = true -> (runs (p ++ q) <= S (runs q))%nat.
Proof.
  induction p as [|a p IH]; [cbn; lia|]. intros H.
  destruct p as [|b p].
  - cbn [app]. destruct q as [|c q]; [cbn; lia|].
    change (runs (a :: c :: q)) with ((if less c a then 1 else 0) + runs (c :: q))%nat.
    destruct (less c a); lia.
  - change (negb (less b a) && sortedb less (b :: p) = true) in H.
    apply andb_true_iff in H as [H1 H2]. specialize (IH H2).
    change (runs ((a :: b :: p) ++ q))
      with ((if less b a then 1 else 0) + runs ((b :: p) ++ q))%nat.
    destruct (less b a); [done|]. lia.
Qed.

Lemma runs_le_length ys : (runs ys <= length ys)%nat.
Proof.
  induction ys as [|a [|b ys] IH]; [done|done|].
  change (runs (a :: b :: ys)) with ((if less b a then 1 else 0) + runs (b :: ys))%nat.
  destruct (less b a); cbn [length] in *; lia.
Qed.

Lemma runs_one_sorted ys : (runs ys <= 1)%nat -> sortedb less ys = true.
Proof.
  induction ys as [|a [|b ys] IH]; intros H; [done|done|].
  change (runs (a :: b :: ys)) with ((if less b a then 1 else 0) + runs (b :: ys))%nat in H.
  change (negb (less b a) && sortedb less (b :: ys) = true).
  assert (0 < runs (b :: ys))%nat.
  { clear. revert b; induction ys as [|c ys IH]; intros b; [cbn; lia|].
    change (runs (b :: c :: ys)) with ((if less c b then 1 else 0) + runs (c :: ys))%nat.
    specialize (IH c). lia. }
  destruct (less b a); [lia|]. apply IH. lia.
Qed.

Context `{!WeakOrder less}.

#[local] Instance le_transitive : Transitive (le less).
Proof. intros a b c H1 H2. by apply (less_trans a b c). Qed.

Lemma sortedb_strong ys : sortedb less ys = true <-> StronglySorted (le less) ys.
Proof.
  split.
  - intros H. apply Sorted_StronglySorted; [apply _|].
    induction ys as [|a [|b ys] IH]; [by constructor|by repeat constructor|].
    change (negb (less b a) && sortedb less (b :: ys) = true) in H.
    apply andb_true_iff in H as [H1%negb_true_iff H2]. constructor; [by apply IH|by constructor].
  - induction 1 as [|a ys Hs IH Hf]; [done|]. destruct ys as [|b ys]; [done|].
    change (negb (less b a) && sortedb less (b :: ys) = true).
    apply Forall_cons in Hf as [Hab _]. unfold le in Hab. by rewrite Hab, IH.
Qed.

Lemma merge_strong xs ys :
  StronglySorted (le less) xs -> StronglySorted (le less) ys ->
  StronglySorted (le less) (merge less xs ys).
Proof.
  revert ys; induction xs as [|x xs IH]; [by destruct ys|].
  intros ys Hx. induction ys as [|y ys IHy]; intros Hy; [done|].
  pose proof Hx as Hx'. apply StronglySorted_inv in Hx as [Hx Hxf].
  pose proof Hy as Hy'. apply StronglySorted_inv in Hy as [Hy Hyf].
  cbn [merge]. destruct (less y x) eqn:E; cbn [negb].
  - constructor; [by apply IHy|].
    change (Forall (le less y) (merge less (x :: xs) ys)).
    rewrite merge_perm. apply Forall_app. split; [|done].
    assert (le less y x) by (by apply less_asym).
    constructor; [done|]. eapply Forall_impl; [exact Hxf|]. intros z Hz. by etrans.
  - constructor; [by apply IH|]. rewrite merge_perm. apply Forall_app. split; [done|].
    constructor; [exact E|]. eapply Forall_impl; [exact Hyf|]. intros z Hz.
    etrans; [exact E|done].
Qed.

Lemma merge_sortedb xs ys :
  sortedb less xs = true -> sortedb less ys = true -> sortedb less (merge less xs ys) = true.
Proof. rewrite !sortedb_strong. apply merge_strong. Qed.

(** A pass at least halves the number of runs, rounding up. *)
Lemma pass_runs fuel ys out n :
  (length ys <= fuel)%nat -> pass less fuel ys = (out, n) ->
  ys ≡ₚ out /\ (runs out <= n)%nat /\ (2 * n <= S (runs ys))%nat /\ (n <= length ys)%nat.
Proof.
  revert ys out n; induction fuel as [|fuel IH]; intros [|y ys] out n Hf H; cbn in Hf, H;
    try lia; simplify_eq; [split_and!; cbn; done || lia..|].
  destruct (take_run less y ys) as [r1 rest] eqn:E1.
  pose proof (take_run_app _ _ _ _ _ E1) as Ha1. pose proof (take_run_length _ _ _ _ E1) as Hl1.
  pose proof (take_run_nonempty _ _ _ _ E1) as Hn1. rewrite (take_run_runs _ _ _ _ E1).
  destruct rest as [|z rest].
  { simplify_eq. rewrite app_nil_r in *. subst. split_and!; [done| |cbn; lia|cbn; lia].
    pose proof (runs_sorted_app (y :: ys) [] (take_run_sorted _ _ _ _ E1)) as Hr.
    rewrite app_nil_r in Hr. exact Hr. }
  destruct (take_run less z rest) as [r2 rest2] eqn:E2.
  pose proof (take_run_app _ _ _ _ _ E2) as Ha2. pose proof (take_run_length _ _ _ _ E2) as Hl2.
  pose proof (take_run_nonempty _ _ _ _ E2) as Hn2. rewrite (take_run_runs _ _ _ _ E2).
  destruct (pass less fuel rest2) as [out' n'] eqn:Ep. simplify_eq.
  cbn [length] in Hl1. destruct (IH rest2 out' n') as (P1 & P2 & P3 & P4); [lia|done|].
  split_and!.
  - rewrite merge_perm, <- Ha1, <- Ha2, <- P1. by rewrite app_assoc.
  - etrans; [apply runs_sorted_app|lia].
    apply merge_sortedb; by eapply take_run_sorted.
  - lia.
  - cbn [length]. lia.
Qed.
End Runs.

(** ** list_sort *)

Lemma u32_add c d : u32 (u32 c + d) = u32 (c + d).
Proof. unfold uwrap. by rewrite Z.add_mod_idemp_l. Qed.

Lemma rearranged_app l h h' xs ys zs :
  rearranged l h (xs ++ ys) h' (xs ++ zs) -> ys ≡ₚ zs.
Proof. intros [_ _ _ P]. by apply Permutation_app_inv_l in P. Qed.

Section Sort.
Context (less : Z -> Z -> bool) `{!WeakOrder less}.

Lemma sort_pass_loop l n : forall fuel h xs ys out c k,
  (length ys <= n < fuel)%nat -> dll h l (xs ++ ys) -> pass less n ys = (out, k) ->
  exists h', loop fuel (fun '(a0, cnt) =>
    en ← list_end l;
    if a0 =? en then mret (inr cnt) else
    let cnt' := u32 (cnt + 1) in
    a1b0 ← find_end_of_run less a0 en;
    if a1b0 =? en then mret (inr cnt') else
    b1 ← find_end_of_run less a1b0 en;
    inplace_merge less a0 a1b0 b1;;
    mret (inl (b1, cnt'))) (pos l ys, u32 c) h = Ok (u32 (c + Z.of_nat k), h') /\
    rearranged l h (xs ++ ys) h' (xs ++ out).
Proof.
  induction n as [|n IH]; intros [|fuel] h xs ys out c k Hf H Hp; try lia.
  { destruct ys; cbn in Hf; [|lia]. cbn in Hp. simplify_eq. exists h.
    split; [|by apply rearranged_refl]. apply loop_break. krun. cbn.
    by rewrite Z.eqb_refl, Z.add_0_r. }
  destruct ys as [|y ys].
  { cbn in Hp. simplify_eq. exists h. split; [|by apply rearranged_refl].
    apply loop_break. krun. cbn. by rewrite Z.eqb_refl, Z.add_0_r. }
  cbn [pass] in Hp. destruct (take_run less y ys) as [r1 rest] eqn:E1.
  pose proof (take_run_app _ _ _ _ _ E1) as Ha1. pose proof (take_run_length _ _ _ _ _ E1) as Hl1.
  pose proof (take_run_nonempty _ _ _ _ _ E1) as Hn1. cbn [length] in Hf.
  pose proof (pos_neq_end _ _ _ _ _ H) as Hy.
  pose proof (find_end_of_run_ok _ _ _ _ _ _ _ _ H E1) as Hr1.
  destruct rest as [|z rest].
  { simplify_eq. rewrite app_nil_r in Ha1. rewrite Ha1. exists h.
    split; [|by apply rearranged_refl]. apply loop_break. krun. cbn [List.hd].
    rewrite Hy, (run_bind _ _ _ _ _ Hr1). cbn [List.hd]. rewrite Z.eqb_refl.
    by rewrite u32_succ. }
  destruct (take_run less z rest) as [r2 rest2] eqn:E2.
  pose proof (take_run_app _ _ _ _ _ E2) as Ha2. pose proof (take_run_length _ _ _ _ _ E2) as Hl2.
  pose proof (take_run_nonempty _ _ _ _ _ E2) as Hn2. cbn [length] in Hl1.
  destruct (pass less n rest2) as [out' k'] eqn:Ep. simplify_eq.
  assert (dll h l ((xs ++ r1) ++ z :: rest)) as Hz by (by rewrite <- app_assoc, Ha1).
  pose proof (pos_neq_end _ _ _ _ _ Hz) as Hze.
  pose proof (find_end_of_run_ok _ _ _ _ _ _ _ _ Hz E2) as Hr2.
  assert (y :: ys = r1 ++ r2 ++ rest2) as Hys by (by rewrite <- Ha1, <- Ha2).
  destruct (inplace_merge_ok less h l xs r1 r2 rest2) as (h1 & Hm1 & Hre1);
    [by rewrite <- Hys|by eapply take_run_sorted..|].
  rewrite <- Hys in Hm1, Hre1. rewrite Ha2 in Hm1. cbn [List.hd] in Hm1.
  destruct (IH fuel h1 (xs ++ merge less r1 r2) rest2 out' (c + 1) k') as (h2 & Hm2 & Hre2);
    [lia|rewrite <- app_assoc; apply Hre1|done|].
  exists h2. rewrite <- !app_assoc in Hre2. split; [|by eapply rearranged_trans].
  erewrite loop_continue; [erewrite Hm2; do 3 f_equal; lia|].
  krun. cbn [List.hd]. rewrite Hy, (run_bind _ _ _ _ _ Hr1). cbn [List.hd].
  rewrite Hze, (run_bind _ _ _ _ _ Hr2), (run_bind _ _ _ _ _ Hm1). by rewrite u32_succ.
Qed.

Lemma list_sort_pass_ok h l ys :
  dll h l ys ->
  exists h' out n, list_sort_pass less l h = Ok (u32 (Z.of_nat n), h') /\
    rearranged l h ys h' out /\
    (runs less out <= n)%nat /\ (2 * n <= S (runs less ys))%nat /\ (n <= length ys)%nat.
Proof.
  intros H. destruct (pass less (length ys) ys) as [out n] eqn:Ep.
  destruct (pass_runs less _ _ _ _ (le_n _) Ep) as (_ & P2 & P3 & P4).
  unfold list_sort_pass. list_fuel_at H fuel Hlen. krun.
  destruct (sort_pass_loop l (length ys) fuel h [] ys out 0 n) as (h' & Hr & Hre);
    [lia|done|done|].
  exists h', out, n. by split; [exact Hr|].
Qed.

Lemma sort_loop l m : forall fuel h ys,
  (runs less ys <= S m)%nat -> (m < fuel)%nat -> Zlen ys < 2 ^ 32 -> dll h l ys ->
  exists h' zs, loop fuel (fun _ : unit =>
    cnt ← list_sort_pass less l;
    if 1 <? cnt then mret (inl tt) else mret (inr tt)) tt h = Ok (tt, h') /\
    rearranged l h ys h' zs /\ sortedb less zs = true.
Proof.
  induction m as [|m IH]; intros [|fuel] h ys Hr Hf Hlen H; try lia;
    destruct (list_sort_pass_ok h l ys H) as (h1 & out & n & Hrun & Hre & Q1 & Q2 & Q3);
    assert (u32 (Z.of_nat n) = Z.of_nat n) as Hu by (apply uwrap_id; unfold in_u; lia);
    rewrite Hu in Hrun.
  - exists h1, out. split_and!; [|done|apply runs_one_sorted; lia].
    apply loop_break. rewrite (run_bind _ _ _ _ _ Hrun).
    by rewrite (proj2 (Z.ltb_ge 1 (Z.of_nat n))) by lia.
  - destruct (decide (n <= 1)%nat) as [Hn|Hn].
    + exists h1, out. split_and!; [|done|apply runs_one_sorted; lia].
      apply loop_break. rewrite (run_bind _ _ _ _ _ Hrun).
      by rewrite (proj2 (Z.ltb_ge 1 (Z.of_nat n))) by lia.
    + destruct (IH fuel h1 out) as (h2 & zs & Hr2 & Hre2 & Hs); [lia|lia| |apply Hre|].
      { by rewrite <- (Permutation_length (re_perm _ _ _ _ _ Hre)). }
      exists h2, zs. split_and!; [|by eapply rearranged_trans|done].
      erewrite loop_continue; [exact Hr2|]. rewrite (run_bind _ _ _ _ _ Hrun).
      by rewrite (proj2 (Z.ltb_lt 1 (Z.of_nat n))) by lia.
Qed.

(** [list_sort] returns: it leaves the same elements in the list, sorted, and
    writes to no other cell. *)
Lemma dll_sort h l xs :
  dll h l xs -> Zlen xs < 2 ^ 32 ->
  exists h' ys, list_sort less l h = Ok (tt, h') /\ rearranged l h xs h' ys /\
    StronglySorted (le less) ys.
Proof.
  intros H Hlen. unfold list_sort.
  erewrite run_bind by (apply run_assert, negb_true_iff, Z.eqb_neq, (dll_base_nonnull h l _ H)).
  list_fuel_at H fuel Hfuel. pose proof (runs_le_length less xs).
  destruct (sort_loop l (length xs) fuel h xs) as (h' & ys & Hr & Hre & Hs); [lia|lia|done|done|].
  exists h', ys. rewrite (run_bind _ _ _ _ _ Hr). split_and!; [|done|by apply sortedb_strong].
  rewrite (run_bind _ _ _ _ _ (dll_begin _ _ _ (re_dll _ _ _ _ _ Hre))).
  rewrite (run_bind _ _ _ _ _ (dll_end _ _ _ (re_dll _ _ _ _ _ Hre))).
  pose proof (assert_sorted_ok less h' l [] ys []) as Ha. rewrite app_nil_r in Ha.
  by apply Ha; [apply Hre|].
Qed.
End Sort.

(** ** Insertion, duplicates, extrema *)

Section Rest.
Context (less : Z -> Z -> bool).

(** Where [list_insert_ordered] stops: the longest prefix [elem] is not less
    than any element of, and the rest. *)
Lemma insert_ordered_loop h l e ys : forall fuel xs,
  dll h l (xs ++ ys) -> (length ys < fuel)%nat ->
  exists ys1 ys2, ys = ys1 ++ ys2 /\ insert_ordered less e ys = ys1 ++ e :: ys2 /\
    loop fuel (fun x =>
      en ← list_end l;
      if x =? en then mret (inr x) else
      if less e x then mret (inr x) else
      x' ← list_next x; mret (inl x')) (pos l ys) h = Ok (pos l ys2, h).
Proof.
  induction ys as [|y ys IH]; intros [|fuel] xs H Hf; cbn in Hf; try lia.
  - exists [], []. split_and!; [done|done|]. apply loop_break. krun. cbn. by rewrite Z.eqb_refl.
  - pose proof (pos_neq_end _ _ _ _ _ H) as Hy. cbn [insert_ordered].
    destruct (less e y) eqn:E.
    + exists [], (y :: ys). split_and!; [done|done|]. apply loop_break. krun. cbn [List.hd].
      by rewrite Hy, E.
    + destruct (IH fuel (xs ++ [y])) as (ys1 & ys2 & -> & Hi & Hr);
        [by rewrite <- app_assoc|lia|].
      exists (y :: ys1), ys2. split_and!; [done|by rewrite Hi|].
      erewrite loop_continue; [exact Hr|]. krun. cbn [List.hd]. rewrite Hy, E. by krun.
Qed.

Lemma dll_insert_ordered h l xs e :
  dll h l xs -> e ∉ cells l xs -> e <> NULL -> is_Some (h !! e) ->
  exists h', list_insert_ordered less l e h = Ok (tt, h') /\
    dll h' l (insert_ordered less e xs) /\ same_except (e :: cells l xs) h h' /\ dom h' = dom h.
Proof.
  intros H He Ne Hm. unfold list_insert_ordered.
  erewrite run_bind by (apply run_assert, negb_true_iff, Z.eqb_neq, (dll_base_nonnull h l _ H)).
  erewrite run_bind by (by apply run_assert, negb_true_iff, Z.eqb_neq).
  list_fuel_at H fuel Hlen. krun.
  destruct (insert_ordered_loop h l e xs fuel []) as (ys1 & ys2 & -> & -> & Hr); [done|lia|].
  rewrite (run_bind _ _ _ _ _ Hr). by apply dll_insert.
Qed.

Lemma insert_ordered_perm e ys : insert_ordered less e ys ≡ₚ e :: ys.
Proof.
  induction ys as [|y ys IH]; [done|]. cbn. destruct (less e y); [done|].
  by rewrite IH, perm_swap.
Qed.

Lemma insert_ordered_strong `{!WeakOrder less} e ys :
  StronglySorted (le less) ys -> StronglySorted (le less) (insert_ordered less e ys).
Proof.
  induction 1 as [|y ys Hs IH Hf]; [by repeat constructor|]. cbn.
  destruct (less e y) eqn:E.
  - assert (le less e y) as Hey by (by apply less_asym).
    constructor; [by constructor|]. constructor; [done|].
    eapply Forall_impl; [exact Hf|]. intros z Hz. by apply (less_trans e y z).
  - constructor; [done|]. rewrite insert_ordered_perm. by constructor.
Qed.

(** The extrema: the element returned is in the list and bounds it. *)
Lemma max_loop h l ys : forall fuel xs m,
  dll h l (xs ++ ys) -> (length ys < fuel)%nat ->
  loop fuel (fun '(e, max) =>
    en ← list_end l;
    if e =? en then mret (inr max) else
    let max' := if less max e then e else max in
    e' ← list_next e; mret (inl (e', max'))) (pos l ys, m) h = Ok (max_of less m ys, h).
Proof.
  induction ys as [|y ys IH]; intros [|fuel] xs m H Hf; cbn in Hf; try lia.
  - apply loop_break. krun. cbn. by rewrite Z.eqb_refl.
  - erewrite loop_continue; [apply (IH fuel (xs ++ [y])); [by rewrite <- app_assoc|lia]|].
    krun. cbn [List.hd]. rewrite (pos_neq_end _ _ _ _ _ H). by krun.
Qed.

Lemma min_loop h l ys : forall fuel xs m,
  dll h l (xs ++ ys) -> (length ys < fuel)%nat ->
  loop fuel (fun '(e, min) =>
    en ← list_end l;
    if e =? en then mret (inr min) else
    let min' := if less e min then e else min in
    e' ← list_next e; mret (inl (e', min'))) (pos l ys, m) h = Ok (min_of less m ys, h).
Proof.
  induction ys as [|y ys IH]; intros [|fuel] xs m H Hf; cbn in Hf; try lia.
  - apply loop_break. krun. cbn. by rewrite Z.eqb_refl.
  - erewrite loop_continue; [apply (IH fuel (xs ++ [y])); [by rewrite <- app_assoc|lia]|].
    krun. cbn [List.hd]. rewrite (pos_neq_end _ _ _ _ _ H). by krun.
Qed.

Lemma dll_max h l xs :
  dll h l xs ->
  list_max less l h = Ok (match xs with [] => tail_of l | x :: xs' => max_of less x xs' end, h).
Proof.
  intros H. unfold list_max. do 2 krun. destruct xs as [|x xs]; [by cbn; rewrite Z.eqb_refl|].
  cbn [List.hd]. rewrite (pos_neq_end _ _ [] _ _ H). list_fuel_at H fuel Hlen.
  rewrite (run_bind _ _ _ _ _ (dll_next _ _ [] _ _ H)). cbn in Hlen.
  by rewrite (max_loop h l xs fuel [x]); [|done|lia].
Qed.

Lemma dll_min h l xs :
  dll h l xs ->
  list_min less l h = Ok (match xs with [] => tail_of l | x :: xs' => min_of less x xs' end, h).
Proof.
  intros H. unfold list_min. do 2 krun. destruct xs as [|x xs]; [by cbn; rewrite Z.eqb_refl|].
  cbn [List.hd]. rewrite (pos_neq_end _ _ [] _ _ H). list_fuel_at H fuel Hlen.
  rewrite (run_bind _ _ _ _ _ (dll_next _ _ [] _ _ H)). cbn in Hlen.
  by rewrite (min_loop h l xs fuel [x]); [|done|lia].
Qed.
End Rest.

Section Extrema.
Context (less : Z -> Z -> bool) `{!WeakOrder less}.

Lemma less_irrefl a : less a a = false.
Proof. destruct (less a a) eqn:E; [by rewrite (less_asym _ _ E) in E|done]. Qed.

Lemma less_le_trans a b c :
  less a b = true -> less c b = false -> less a c = true.
Proof.
  intros H1 H2. destruct (less a c) eqn:E; [done|].
  by rewrite (less_trans b c a H2 E) in H1.
Qed.

(** The maximum is the first among its equals. *)
Lemma max_of_split m ys :
  exists pre post, m :: ys = pre ++ max_of less m ys :: post /\
    Forall (fun y => less y (max_of less m ys) = true) pre /\
    Forall (fun y => less (max_of less m ys) y = false) post.
Proof.
  revert m; induction ys as [|y ys IH]; intros m; cbn [max_of]; [by exists [], []|].
  destruct (less m y) eqn:E.
  - destruct (IH y) as (pre & post & Heq & H1 & H2). exists (m :: pre), post.
    split; [by rewrite Heq|]. split; [|done]. constructor; [|done].
    apply (less_le_trans _ y); [done|].
    assert (y ∈ pre ++ max_of less y ys :: post) as Hin by (rewrite <- Heq; set_solver).
    apply elem_of_app in Hin as [Hin|[Ey|Hin]%elem_of_cons]; [|rewrite <- Ey; apply less_irrefl|].
    + rewrite Forall_forall in H1. by apply less_asym, H1.
    + rewrite Forall_forall in H2. by apply H2.
  - destruct (IH m) as (pre & post & Heq & H1 & H2). destruct pre as [|z pre]; cbn in Heq.
    + injection Heq as Hm Hp. exists [], (y :: post). cbn. rewrite <- Hm. subst post.
      split_and!; [done|done|]. constructor; [done|]. by rewrite <- Hm in H2.
    + injection Heq as -> Hp. exists (z :: y :: pre), post.
      split_and!; [cbn; by do 2 f_equal| |done].
      apply Forall_cons in H1 as [H1 H1']. constructor; [done|]. constructor; [|done].
      destruct (less y (max_of less z ys)) eqn:E2; [done|].
      assert (less z (max_of less z ys) = false) as Hz by (by apply (less_trans _ y z)).
      by rewrite Hz in H1.
Qed.
End Extrema.

#[local] Instance flip_weak_order less : WeakOrder less -> WeakOrder (fun a b => less b a).
Proof.
  intros W. split; [intros a b; apply less_asym|]. intros a b c H1 H2. by apply (less_trans c b a).
Qed.

Lemma min_of_flip less m ys : min_of less m ys = max_of (fun a b => less b a) m ys.
Proof. revert m; induction ys as [|y ys IH]; intros m; [done|]. apply IH. Qed.

(** The minimum is the first among its equals: it is the maximum of the
    reversed order. *)
Lemma min_of_split less `{!WeakOrder less} m ys :
  exists pre post, m :: ys = pre ++ min_of less m ys :: post /\
    Forall (fun y => less (min_of less m ys) y = true) pre /\
    Forall (fun y => less y (min_of less m ys) = false) post.
Proof.
  rewrite min_of_flip. apply (max_of_split (fun a b => less b a)).
Qed.


Section Unique.
Context (less : Z -> Z -> bool).

(** ** list_unique *)

Lemma unique_perm y ys k d : unique less y ys = (k, d) -> k ++ d ≡ₚ y :: ys.
Proof.
  revert y k d; induction ys as [|y' ys IH]; intros y k d H; cbn in H; [by simplify_eq|].
  destruct (equiv less y y').
  - destruct (unique less y ys) as [k' d'] eqn:E. simplify_eq.
    rewrite <- Permutation_middle, (IH _ _ _ E). by rewrite perm_swap.
  - destruct (unique less y' ys) as [k' d'] eqn:E. simplify_eq. cbn. by rewrite (IH _ _ _ E).
Qed.

(** The second list, if there is one, is well formed and shares no cell. *)
Definition dups_ok (h : heap) (l : Z) (xs : list Z) (dup : option (Z * list Z)) : Prop :=
  match dup with
  | Some (d, ds) => dll h d ds /\ (forall a, a ∈ cells d ds -> a ∉ cells l xs)
  | None => True
  end.

Definition dups_add (dup : option (Z * list Z)) (r : list Z) : option (Z * list Z) :=
  match dup with
  | Some (d, ds) => Some (d, ds ++ r)
  | None => None
  end.

Lemma cells_middle l xs e ys : cells l (xs ++ e :: ys) ≡ₚ e :: cells l (xs ++ ys).
Proof.
  unfold cells. rewrite perm_swap. f_equiv. by rewrite <- (Permutation_middle xs ys e).
Qed.

(** One duplicate moves from the list to the second list. *)
Lemma unique_move h l xs e ys dup :
  dll h l (xs ++ e :: ys) -> dups_ok h l (xs ++ e :: ys) dup ->
  exists h', (list_remove e;;
      match dup with
      | Some (d, _) => list_push_back d e
      | None => mret tt
      end) h = Ok (tt, h') /\
    dll h' l (xs ++ ys) /\ dups_ok h' l (xs ++ ys) (dups_add dup [e]) /\ dom h' = dom h.
Proof.
  intros H Hd. pose proof (cells_middle l xs e ys) as Hc.
  pose proof (dll_nodup _ _ _ H) as Hnd. rewrite Hc in Hnd. apply NoDup_cons in Hnd as [He _].
  destruct (dll_remove _ _ _ _ _ H) as (h1 & Hr1 & Hd1 & Hs1 & E1).
  destruct dup as [[d ds]|]; cbn in Hd.
  2:{ exists h1. rewrite (run_bind _ _ _ _ _ Hr1). done. }
  destruct Hd as [Hdd Hdis].
  assert (forall a, a ∈ cells d ds -> a ∉ cells l (xs ++ ys)) as Hdis'.
  { intros a Ha Hin. apply (Hdis a Ha). rewrite Hc. by constructor. }
  assert (dll h1 d ds) as Hdd1 by (by eapply dll_frame).
  assert (e ∉ cells d ds) as Hed. { intros Hin. apply (Hdis e Hin). rewrite Hc. by constructor. }
  destruct (dll_push_back h1 d ds e) as (h2 & Hr2 & Hd2 & Hs2 & E2); [done|done| | |].
  { eapply dll_in_nonnull; [exact H|set_solver]. }
  { apply elem_of_dom. rewrite E1. apply elem_of_dom. eapply dll_mapped; [exact H|].
    rewrite Hc. by constructor. }
  exists h2. rewrite (run_bind _ _ _ _ _ Hr1), Hr2. split_and!; [done| | |congruence].
  - eapply dll_frame; [exact Hd1|exact Hs2|]. intros a Ha [->|Hin]%elem_of_cons; [done|].
    by apply (Hdis' a).
  - split; [done|]. intros a. rewrite (cells_middle d ds e []), app_nil_r.
    intros [->|Hin]%elem_of_cons; [done|by apply Hdis'].
Qed.

Lemma unique_loop l ys : forall fuel h xs y k r dup,
  dll h l (xs ++ y :: ys) -> (length ys < fuel)%nat -> dups_ok h l (xs ++ y :: ys) dup ->
  unique less y ys = (k, r) ->
  exists h', loop fuel (fun elem =>
    nxt ← list_next elem;
    en ← list_end l;
    if nxt =? en then mret (inr tt) else
    if negb (less elem nxt) && negb (less nxt elem) then
      list_remove nxt;;
      match fst <$> dup with
      | Some d => list_push_back d nxt
      | None => mret tt
      end;;
      mret (inl elem)
    else mret (inl nxt)) y h = Ok (tt, h') /\
    dll h' l (xs ++ k) /\ dups_ok h' l (xs ++ k) (dups_add dup r) /\ dom h' = dom h.
Proof.
  induction ys as [|y' ys IH]; intros [|fuel] h xs y k r dup H Hf Hd Hu; cbn in Hf; try lia;
    cbn in Hu.
  - simplify_eq. exists h. split_and!; [|done| |done].
    + apply loop_break. do 2 krun. by rewrite Z.eqb_refl.
    + destruct dup as [[d ds]|]; [|done]. cbn. by rewrite app_nil_r.
  - assert (dll h l ((xs ++ [y]) ++ y' :: ys)) as H' by (by rewrite <- app_assoc).
    pose proof (pos_neq_end _ _ _ _ _ H') as Hne. unfold equiv in Hu.
    destruct (negb (less y y') && negb (less y' y)) eqn:E.
    + destruct (unique less y ys) as [k' r'] eqn:Eu. simplify_eq.
      destruct (unique_move h l (xs ++ [y]) y' ys dup H') as (h1 & Hr1 & Hd1 & Hq1 & E1);
        [by rewrite <- app_assoc|].
      rewrite <- app_assoc in Hd1, Hq1.
      destruct (IH fuel h1 xs y k r' (dups_add dup [y'])) as (h2 & Hr2 & Hd2 & Hq2 & E2);
        [done|lia|done|done|].
      replace (dups_add (dups_add dup [y']) r') with (dups_add dup (y' :: r')) in Hq2
        by (destruct dup as [[d ds]|]; cbn; by rewrite <- ?app_assoc).
      exists h2. split_and!; [|done|done|congruence].
      replace (fst <$> dups_add dup [y']) with (fst <$> dup) in Hr2
        by (by destruct dup as [[d ds]|]).
      erewrite loop_continue; [exact Hr2|]. do 2 krun. cbn [List.hd]. rewrite Hne, E.
      unfold mbind, st_bind in Hr1 |- *. destruct (list_remove y' h) as [[a s]|]; [|done].
      destruct dup as [[d ds]|]; cbn in Hr1 |- *; [by rewrite Hr1|].
      unfold mret, st_ret in *. by simplify_eq.
    + destruct (unique less y' ys) as [k' r'] eqn:Eu. simplify_eq.
      destruct (IH fuel h (xs ++ [y]) y' k' r dup) as (h2 & Hr2 & Hd2 & Hq2 & E2);
        [done|lia|by rewrite <- app_assoc|done|].
      rewrite <- app_assoc in Hd2, Hq2. exists h2. split_and!; [|done|done|done].
      erewrite loop_continue; [exact Hr2|]. do 2 krun. cbn [List.hd]. by rewrite Hne, E.
Qed.

Lemma dll_unique h l y ys dup k r :
  dll h l (y :: ys) -> dups_ok h l (y :: ys) dup -> unique less y ys = (k, r) ->
  exists h', list_unique less l (fst <$> dup) h = Ok (tt, h') /\
    dll h' l k /\ dups_ok h' l k (dups_add dup r) /\ dom h' = dom h.
Proof.
  intros H Hd Hu. unfold list_unique.
  erewrite run_bind by (apply run_assert, negb_true_iff, Z.eqb_neq, (dll_base_nonnull h l _ H)).
  erewrite run_bind by (by apply dll_empty). list_fuel_at H fuel Hlen. krun. cbn [List.hd].
  cbn in Hlen. apply (unique_loop l ys fuel h [] y k r dup); [done|lia|done|done].
Qed.

(** No two neighbours that are left are equal; every removed element is equal
    to the one kept before it. *)
Lemma unique_adjacent y ys k r :
  unique less y ys = (k, r) ->
  (exists k', k = y :: k') /\
  forall k1 a b k2, k = k1 ++ a :: b :: k2 -> equiv less a b = false.
Proof.
  revert y k r; induction ys as [|y' ys IH]; intros y k r H; cbn in H.
  { simplify_eq. split; [by eexists|]. intros [|? [|? ?]] a b k2 Hk; done. }
  destruct (equiv less y y') eqn:E.
  - destruct (unique less y ys) as [k' r'] eqn:Eu. simplify_eq. by apply (IH y k r').
  - destruct (unique less y' ys) as [k' r'] eqn:Eu. simplify_eq.
    destruct (IH _ _ _ Eu) as [[k'' ->] Hadj]. split; [by eexists|].
    intros [|c k1] a b k2 Hk; cbn in Hk; simplify_eq; [done|]. by eapply Hadj.
Qed.
End Unique.

(** * Main theorems *)

(** Elements ordered by address, for the examples. *)
#[export] Instance ltb_weak_order : WeakOrder Z.ltb.
Proof. split; intros; lia. Qed.

(** C4: for a [less] that is a strict weak order, [list_sort] terminates, passes
    its own assertions, and leaves the list sorted: a permutation of the elements
    it had in which no element is less than one before it, with no write outside
    the cells of the list. *)
Theorem list_sort_spec less h l xs :
  WeakOrder less -> dll h l xs -> Zlen xs < 2 ^ 32 ->
  exists h' ys, list_sort less l h = Ok (tt, h') /\ dll h' l ys /\ xs ≡ₚ ys /\
    StronglySorted (fun a b => less b a = false) ys /\ same_except (cells l xs) h h'.
Proof.
  intros W H Hl. destruct (dll_sort less h l xs H Hl) as (h' & ys & Hr & [D S E P] & Hs).
  by exists h', ys.
Qed.

Lemma list_sort_spec_witness :
  exists h' ys, list_sort (fun a b => b <? a) 100 demo_heap = Ok (tt, h') /\ dll h' 100 ys /\
    [200; 300] ≡ₚ ys /\ StronglySorted (fun a b => (a <? b) = false) ys.
Proof.
  destruct (list_sort_spec (fun a b => b <? a) demo_heap 100 [200; 300])
    as (h' & ys & H1 & H2 & H3 & H4 & _).
  - split; intros; lia.
  - exact demo_dll.
  - reflexivity.
  - exists h', ys. split; [exact H1|]. split; [exact H2|]. split; [exact H3|exact H4].
Defined.

(** [list_unique] keeps the first of every group of adjacent equal elements
    and appends the others, in order, to [duplicates] when it is not null; no two
    neighbours that are left are equal. *)
Theorem list_unique_spec less h l y ys dup :
  dll h l (y :: ys) -> dups_ok h l (y :: ys) dup ->
  exists h' k r, list_unique less l (fst <$> dup) h = Ok (tt, h') /\
    unique less y ys = (k, r) /\ dll h' l k /\ dups_ok h' l k (dups_add dup r) /\
    k ++ r ≡ₚ y :: ys /\
    (forall k1 a b k2, k = k1 ++ a :: b :: k2 -> equiv less a b = false).
Proof.
  intros H Hd. destruct (unique less y ys) as [k r] eqn:E.
  destruct (dll_unique less h l y ys dup k r H Hd E) as (h' & Hr & H1 & H2 & _).
  exists h', k, r. split_and!; try done; [by apply (unique_perm less)|].
  by apply (unique_adjacent less _ _ _ _ E).
Qed.

Lemma list_unique_spec_witness :
  exists h' k r, list_unique (fun _ _ => false) 100 None demo_heap = Ok (tt, h') /\
    dll h' 100 k /\ k ++ r ≡ₚ [200; 300].
Proof.
  destruct (list_unique_spec (fun _ _ => false) demo_heap 100 200 [300] None demo_dll I)
    as (h' & k & r & H1 & _ & H2 & _ & H3 & _).
  exists h', k, r. split; [exact H1|]. split; [exact H2|exact H3].
Defined.

(** [list_max] of a non-empty list returns the first element that no other is
    greater than: all elements before it are less, none after it is greater.
    [list_min] is its mirror image. *)
Theorem list_max_min_spec less h l x xs :
  WeakOrder less -> dll h l (x :: xs) ->
  (exists pre m post, list_max less l h = Ok (m, h) /\ x :: xs = pre ++ m :: post /\
     Forall (fun y => less y m = true) pre /\ Forall (fun y => less m y = false) post) /\
  (exists pre m post, list_min less l h = Ok (m, h) /\ x :: xs = pre ++ m :: post /\
     Forall (fun y => less m y = true) pre /\ Forall (fun y => less y m = false) post).
Proof.
  intros W H. rewrite (dll_max less _ _ _ H), (dll_min less _ _ _ H). split.
  - destruct (max_of_split less x xs) as (pre & post & H1 & H2 & H3). by eexists pre, _, post.
  - destruct (min_of_split less x xs) as (pre & post & H1 & H2 & H3). by eexists pre, _, post.
Qed.

Lemma list_max_min_spec_witness :
  exists pre m post, list_max Z.ltb 100 demo_heap = Ok (m, demo_heap) /\
    [200; 300] = pre ++ m :: post.
Proof.
  destruct (list_max_min_spec Z.ltb demo_heap 100 200 [300] _ demo_dll)
    as [(pre & m & post & H1 & H2 & _) _].
  exists pre, m, post. split; [exact H1|exact H2].
Defined.
