(* ===== verification/HashTable.v ===== *)
(** The hash tables of lib/kernel/hash.c, over the lists of lib/kernel/list.c: a
    bucket is the sequence of its elements, on which KList.v shows the list
    routines to act.  The hash and the comparison function of the table are
    parameters, and so is whether [malloc] finds the memory a call asks for. *)
From Stdlib Require Import ZArith Lia.
From stdpp Require Import base numbers sorting gmap list.
From S2P Require Import Prelude.

Local Open Scope Z_scope.

(** * Data *)

(** An element is its address. *)
Definition NULL : Z := 0.

Record hash := mkHash { elem_cnt : Z; bucket_cnt : Z; buckets : list (list Z) }.

(** Where an iterator stands: before the first element of its bucket, at an
    element, or past the end. *)
Inductive position :=
| AtHead
| AtElem (e : Z)
| AtEnd.

Record hash_iterator := { it_bucket : nat; it_elem : position }.

(** * Hash functions *)

Definition FNV_32_PRIME : Z := 16777619.
Definition FNV_32_BASIS : Z := 2166136261.

Definition hash_bytes (buf : list Z) : Z :=
  foldl (fun h b => Z.lxor (u32 (h * FNV_32_PRIME)) b) FNV_32_BASIS buf.

(** The bytes of a string up to its null byte. *)
Fixpoint hash_string_from (h : Z) (s : list Z) : Z :=
  match s with
  | [] => h
  | c :: s' => if c =? 0 then h else hash_string_from (Z.lxor (u32 (h * FNV_32_PRIME)) c) s'
  end.

Definition hash_string (s : list Z) : Z := hash_string_from FNV_32_BASIS s.

(** The four bytes of an [int], lowest first. *)
Definition int_bytes (i : Z) : list Z :=
  let u := u32 i in [u mod 256; u / 256 mod 256; u / 65536 mod 256; u / 16777216].

Definition hash_int (i : Z) : Z := hash_bytes (int_bytes i).

(** * Sizes *)

Definition MIN_ELEMS_PER_BUCKET : Z := 1.
Definition BEST_ELEMS_PER_BUCKET : Z := 2.
Definition MAX_ELEMS_PER_BUCKET : Z := 4.

Definition turn_off_least_1bit (x : Z) : Z := Z.land x (u32 (x - 1)).

Definition is_power_of_2 (x : Z) : bool := negb (x =? 0) && (turn_off_least_1bit x =? 0).

(** The [while] loop of [rehash].  Every round makes [x] smaller, so [x] rounds
    are enough. *)
Fixpoint round_down_loop (fuel : nat) (x : Z) : res Z :=
  match fuel with
  | O => Err EFuel
  | S fuel => if is_power_of_2 x then Ok x else round_down_loop fuel (turn_off_least_1bit x)
  end.

Definition ideal_bucket_cnt (n : Z) : res Z :=
  let c := n / BEST_ELEMS_PER_BUCKET in
  let c := if c <? 4 then 4 else c in
  round_down_loop (S (Z.to_nat c)) c.

Definition hash_size (h : hash) : Z := elem_cnt h.
Definition hash_empty (h : hash) : bool := elem_cnt h =? 0.

(** * Operations *)

Definition bucket (h : hash) (i : nat) : res (list Z) :=
  match buckets h !! i with
  | Some b => Ok b
  | None => Err EFault
  end.

(** Emptying every bucket, each element going to the destructor first if there is
    one: the elements it is called with, in order. *)
Fixpoint clear_buckets (destructor : bool) (bs : list (list Z)) : list Z * list (list Z) :=
  match bs with
  | [] => ([], [])
  | b :: bs' =>
      let '(destroyed, r) := clear_buckets destructor bs' in
      ((if destructor then b else []) ++ destroyed, [] :: r)
  end.

Definition hash_clear (destructor : bool) (h : hash) : list Z * hash :=
  let '(destroyed, bs) := clear_buckets destructor (buckets h) in
  (destroyed, mkHash 0 (bucket_cnt h) bs).

Definition hash_destroy (destructor : bool) (h : hash) : list Z :=
  if destructor then fst (hash_clear true h) else [].

(** [mem] says whether [malloc] succeeds.  The four buckets it returns have any
    contents until [hash_clear] initializes them. *)
Definition hash_init (mem : bool) (garbage : list Z) : bool * hash :=
  if mem then (true, snd (hash_clear false (mkHash 0 4 (replicate 4 garbage))))
  else (false, mkHash 0 4 []).

(** The elements [hash_apply] calls its action with, in order. *)
Fixpoint apply_buckets (bs : list (list Z)) : list Z :=
  match bs with
  | [] => []
  | b :: bs' => b ++ apply_buckets bs'
  end.

Definition hash_apply (h : hash) : list Z := apply_buckets (buckets h).

Definition hash_first : hash_iterator := {| it_bucket := 0; it_elem := AtHead |}.

(** What follows a position in a bucket: an element, or nothing before the tail. *)
Fixpoint after (e : Z) (b : list Z) : option (option Z) :=
  match b with
  | [] => None
  | x :: b' => if x =? e then Some (head b') else after e b'
  end.

(** The loop of [hash_next] over the buckets from [j] on. *)
Fixpoint next_bucket (fuel : nat) (h : hash) (j : nat) : res hash_iterator :=
  if bucket_cnt h <=? Z.of_nat j then Ok {| it_bucket := j; it_elem := AtEnd |}
  else
    b ← bucket h j;
    match b with
    | e :: _ => Ok {| it_bucket := j; it_elem := AtElem e |}
    | [] => match fuel with O => Err EFuel | S fuel => next_bucket fuel h (S j) end
    end.

Definition hash_next (h : hash) (i : hash_iterator) : res hash_iterator :=
  b ← bucket h (it_bucket i);
  nxt ← match it_elem i with
        | AtHead => Ok (head b)
        | AtElem e => match after e b with Some n => Ok n | None => Err EUndef end
        | AtEnd => Err EFault
        end;
  match nxt with
  | Some e => Ok {| it_bucket := it_bucket i; it_elem := AtElem e |}
  | None => next_bucket (length (buckets h)) h (S (it_bucket i))
  end.

Definition hash_cur (i : hash_iterator) : Z := match it_elem i with AtElem e => e | _ => NULL end.

Section ops.
Context (hash_of : Z -> Z) (less : Z -> Z -> bool).

(** Two elements are equal when neither is less. *)
Definition same (a b : Z) : bool := negb (less a b) && negb (less b a).

Definition find_bucket (cnt e : Z) : nat := Z.to_nat (Z.land (hash_of e) (u32 (cnt - 1))).

Definition find_elem (b : list Z) (e : Z) : Z :=
  match List.find (fun hi => negb (less hi e) && negb (less e hi)) b with
  | Some hi => hi
  | None => NULL
  end.

Definition insert_elem (h : hash) (i : nat) (e : Z) : res hash :=
  b ← bucket h i;
  Ok (mkHash (u32 (elem_cnt h + 1)) (bucket_cnt h) (<[i := e :: b]> (buckets h))).

(** The element is unlinked from the bucket it is in. *)
Definition remove_elem (h : hash) (e : Z) : res hash :=
  if existsb (fun b => bool_decide (e ∈ b)) (buckets h) then
    Ok (mkHash (u32 (elem_cnt h - 1)) (bucket_cnt h) (base.filter (fun x => x <> e) <$> buckets h))
  else Err EUndef.

(** Moving elements to the new buckets, one after the other. *)
Fixpoint move_elems (cnt : Z) (bs : list (list Z)) (es : list Z) : res (list (list Z)) :=
  match es with
  | [] => Ok bs
  | e :: es' =>
      let i := find_bucket cnt e in
      match bs !! i with
      | Some b => move_elems cnt (<[i := e :: b]> bs) es'
      | None => Err EFault
      end
  end.

Fixpoint move_buckets (cnt : Z) (bs : list (list Z)) (old : list (list Z)) : res (list (list Z)) :=
  match old with
  | [] => Ok bs
  | b :: old' => bs' ← move_elems cnt bs b; move_buckets cnt bs' old'
  end.

Definition rehash (mem : bool) (h : hash) : res hash :=
  new_cnt ← ideal_bucket_cnt (elem_cnt h);
  if new_cnt =? bucket_cnt h then Ok h
  else if negb mem then Ok h
  else
    bs ← move_buckets new_cnt (replicate (Z.to_nat new_cnt) []) (buckets h);
    Ok (mkHash (elem_cnt h) new_cnt bs).

Definition hash_find (h : hash) (e : Z) : res Z :=
  b ← bucket h (find_bucket (bucket_cnt h) e); Ok (find_elem b e).

Definition hash_insert (mem : bool) (h : hash) (new : Z) : res (Z * hash) :=
  let i := find_bucket (bucket_cnt h) new in
  b ← bucket h i;
  let old := find_elem b new in
  h1 ← (if old =? NULL then insert_elem h i new else Ok h);
  h2 ← rehash mem h1;
  Ok (old, h2).

Definition hash_replace (mem : bool) (h : hash) (new : Z) : res (Z * hash) :=
  let i := find_bucket (bucket_cnt h) new in
  b ← bucket h i;
  let old := find_elem b new in
  h1 ← (if negb (old =? NULL) then remove_elem h old else Ok h);
  h2 ← insert_elem h1 i new;
  h3 ← rehash mem h2;
  Ok (old, h3).

Definition hash_delete (mem : bool) (h : hash) (e : Z) : res (Z * hash) :=
  b ← bucket h (find_bucket (bucket_cnt h) e);
  let found := find_elem b e in
  if negb (found =? NULL) then
    h1 ← remove_elem h found;
    h2 ← rehash mem h1;
    Ok (found, h2)
  else Ok (found, h).

End ops.

(** * The number of buckets *)

Lemma turn_off_smaller x : 0 < x < 2 ^ 32 -> 0 <= turn_off_least_1bit x < x.
Proof.
  intros H. unfold turn_off_least_1bit. rewrite uwrap_id by (unfold in_u; lia).
  assert (0 <= Z.land x (x - 1)) by (apply Z.land_nonneg; lia).
  assert (Z.land x (x - 1) <= x - 1); [|lia].
  apply Z.ldiff_le; [lia|]. apply Z.bits_inj'. intros n Hn.
  rewrite Z.ldiff_spec, Z.land_spec, Z.bits_0. by destruct (Z.testbit x n), (Z.testbit (x - 1) n).
Qed.

Lemma turn_off_pow2 k : 0 <= k < 32 -> turn_off_least_1bit (2 ^ k) = 0.
Proof.
  intros H. unfold turn_off_least_1bit.
  assert (2 ^ k < 2 ^ 32) by (apply Z.pow_lt_mono_r; lia).
  assert (0 < 2 ^ k) by (apply Z.pow_pos_nonneg; lia).
  rewrite uwrap_id by (unfold in_u; lia). replace (2 ^ k - 1) with (Z.ones k) by (rewrite Z.ones_equiv; lia).
  rewrite Z.land_ones by lia. by apply Z.mod_same, Z.neq_sym, Z.lt_neq.
Qed.

(** Turning off the lowest bit of a number that is not a power of 2 leaves the
    highest one. *)
Lemma turn_off_log2 x :
  0 < x < 2 ^ 32 -> x <> 2 ^ Z.log2 x ->
  turn_off_least_1bit x <> 0 /\ Z.log2 (turn_off_least_1bit x) = Z.log2 x.
Proof.
  intros H Hx. pose proof (turn_off_smaller x H) as Hs.
  pose proof (Z.log2_spec x ltac:(lia)) as [H1 H2].
  assert (x <> 1) by (by intros ->).
  assert (Z.testbit (turn_off_least_1bit x) (Z.log2 x) = true) as Hb.
  { unfold turn_off_least_1bit. rewrite uwrap_id by (unfold in_u; lia).
    rewrite Z.land_spec, Z.bit_log2 by lia. cbn.
    assert (Z.log2 (x - 1) = Z.log2 x) as <-.
    { apply Z.log2_unique; [apply Z.log2_nonneg|lia]. }
    apply Z.bit_log2. lia. }
  assert (turn_off_least_1bit x <> 0) by (intros E; by rewrite E, Z.bits_0 in Hb).
  split; [done|]. apply Z.le_antisymm; [apply Z.log2_le_mono; lia|].
  destruct (Z.le_gt_cases (Z.log2 x) (Z.log2 (turn_off_least_1bit x))) as [|Hlt]; [done|].
  rewrite Z.bits_above_log2 in Hb by lia. done.
Qed.

Lemma is_power_of_2_spec x : 0 < x < 2 ^ 32 -> is_power_of_2 x = bool_decide (x = 2 ^ Z.log2 x).
Proof.
  intros H. unfold is_power_of_2. destruct (Z.eqb_spec x 0); [lia|]. cbn.
  case_bool_decide as E.
  - apply Z.eqb_eq. rewrite E. apply turn_off_pow2.
    split; [apply Z.log2_nonneg|]. apply Z.log2_lt_pow2; lia.
  - apply Z.eqb_neq. by apply turn_off_log2.
Qed.

Lemma round_down_spec fuel x :
  0 < x < 2 ^ 32 -> (Z.to_nat x < fuel)%nat -> round_down_loop fuel x = Ok (2 ^ Z.log2 x).
Proof.
  revert x. induction fuel as [|fuel IH]; intros x Hx Hf; [lia|]. cbn [round_down_loop].
  rewrite is_power_of_2_spec by done. case_bool_decide as E; [by rewrite <- E|].
  destruct (turn_off_log2 x Hx E) as [Hn Hl]. pose proof (turn_off_smaller x Hx).
  rewrite IH by lia. by rewrite Hl.
Qed.

(** The exponent of the number of buckets for [n] elements. *)
Definition ideal_log2 (n : Z) : Z := Z.max 2 (Z.log2 (n / 2)).

Lemma ideal_bucket_cnt_spec n : 0 <= n < 2 ^ 32 -> ideal_bucket_cnt n = Ok (2 ^ ideal_log2 n).
Proof.
  intros H. unfold ideal_bucket_cnt, ideal_log2, BEST_ELEMS_PER_BUCKET.
  assert (0 <= n / 2 < 2 ^ 31) by (split; [apply Z.div_pos; lia|apply Z.div_lt_upper_bound; lia]).
  destruct (Z.ltb_spec (n / 2) 4) as [Hl|Hl].
  - rewrite round_down_spec by lia. f_equal. f_equal. cbn.
    assert (Z.log2 (n / 2) <= 1); [|lia]. change 1 with (Z.log2 3). apply Z.log2_le_mono. lia.
  - rewrite round_down_spec by lia. f_equal. f_equal.
    assert (Z.log2 4 <= Z.log2 (n / 2)) as Hx by (apply Z.log2_le_mono; lia). cbn in Hx. lia.
Qed.

Lemma ideal_log2_range n : 0 <= n < 2 ^ 32 -> 2 <= ideal_log2 n < 32.
Proof.
  intros H. unfold ideal_log2.
  destruct (Z.eq_dec (n / 2) 0) as [->|Hne]; [cbn; lia|].
  assert (0 <= n / 2 < 2 ^ 31) by (split; [apply Z.div_pos; lia|apply Z.div_lt_upper_bound; lia]).
  assert (Z.log2 (n / 2) < 31); [apply Z.log2_lt_pow2; lia|lia].
Qed.

(** * The table as a set of elements *)

Definition elems (h : hash) : list Z := concat (buckets h).

(** What hash.h asks of the functions a table is made with: the comparison orders
    the elements up to equality, and equal elements have the same hash. *)
Class HashFuncs (hash_of : Z -> Z) (less : Z -> Z -> bool) : Prop := {
  hf_range : forall e, 0 <= hash_of e < 2 ^ 32;
  hf_refl : forall a, same less a a = true;
  hf_trans : forall a b c, same less a b = true -> same less b c = true -> same less a c = true;
  hf_same : forall a b, same less a b = true -> hash_of a = hash_of b
}.

Section table.
Context (hash_of : Z -> Z) (less : Z -> Z -> bool) `{HF : HashFuncs hash_of less}.

Local Abbreviation place := (find_bucket hash_of).

(** Every element is in the bucket its hash says. *)
Definition placed (cnt : Z) (bs : list (list Z)) : Prop :=
  forall i b e, bs !! i = Some b -> e ∈ b -> i = place cnt e.

(** A power of 2 of buckets, each element once in its bucket, no two equal. *)
Record hash_ok (h : hash) : Prop := {
  ok_cnt : exists k, 2 <= k < 32 /\ bucket_cnt h = 2 ^ k;
  ok_len : length (buckets h) = Z.to_nat (bucket_cnt h);
  ok_placed : placed (bucket_cnt h) (buckets h);
  ok_nodup : NoDup (elems h);
  ok_uniq : forall x y, x ∈ elems h -> y ∈ elems h -> same less x y = true -> x = y;
  ok_null : NULL ∉ elems h;
  ok_size : elem_cnt h = Zlen (elems h) /\ Zlen (elems h) < 2 ^ 32
}.

(** What a search for an element equal to [e] among [es] returns. *)
Definition found_in (es : list Z) (e r : Z) : Prop :=
  (r <> NULL /\ r ∈ es /\ same less r e = true) \/
  (r = NULL /\ forall x, x ∈ es -> same less x e = false).

Lemma same_sym a b : same less a b = same less b a.
Proof. unfold same. apply andb_comm. Qed.

Lemma place_lt k e : 2 <= k < 32 -> (place (2 ^ k) e < Z.to_nat (2 ^ k))%nat.
Proof.
  intros Hk. unfold find_bucket.
  assert (0 < 2 ^ k < 2 ^ 32).
  { split; [apply Z.pow_pos_nonneg; lia|apply Z.pow_lt_mono_r; lia]. }
  rewrite uwrap_id by (unfold in_u; lia).
  replace (2 ^ k - 1) with (Z.ones k) by (rewrite Z.ones_equiv; lia).
  rewrite Z.land_ones by lia. pose proof (Z.mod_pos_bound (hash_of e) (2 ^ k)). lia.
Qed.

Lemma elem_of_buckets (bs : list (list Z)) e :
  e ∈ concat bs <-> exists i b, bs !! i = Some b /\ e ∈ b.
Proof.
  rewrite list_elem_of_In, in_concat. split.
  - intros (b & Hb%list_elem_of_In & He%list_elem_of_In). apply list_elem_of_lookup in Hb as [i Hi]. eauto.
  - intros (i & b & Hi & He). exists b. split; apply list_elem_of_In; [|done].
    by eapply list_elem_of_lookup_2.
Qed.

Lemma bucket_ok h e : hash_ok h -> exists b, bucket h (place (bucket_cnt h) e) = Ok b /\
  buckets h !! place (bucket_cnt h) e = Some b.
Proof.
  intros Hok. destruct (ok_cnt h Hok) as (k & Hk & Ek).
  destruct (lookup_lt_is_Some_2 (buckets h) (place (bucket_cnt h) e)) as [b Hb].
  { rewrite (ok_len h Hok), Ek. by apply place_lt. }
  exists b. unfold bucket. by rewrite Hb.
Qed.

(** A bucket holds everything that could be equal to an element placed in it. *)
Lemma find_elem_ok h e b :
  hash_ok h -> buckets h !! place (bucket_cnt h) e = Some b -> found_in (elems h) e (find_elem less b e).
Proof.
  intros Hok Hb. unfold find_elem. destruct (List.find _ b) as [hi|] eqn:E.
  - apply List.find_some in E as [Hin Hs]. rewrite <- list_elem_of_In in Hin.
    assert (hi ∈ elems h) by (apply elem_of_buckets; eauto).
    left. split_and!; [|done..]. intros ->. by apply (ok_null h Hok).
  - right. split; [done|]. intros x Hx. destruct (same less x e) eqn:Es; [|done].
    apply elem_of_buckets in Hx as (i & b' & Hi & Hx).
    pose proof (ok_placed h Hok i b' x Hi Hx) as ->.
    assert (place (bucket_cnt h) x = place (bucket_cnt h) e) as Ep.
    { unfold find_bucket. by rewrite (hf_same x e Es). }
    rewrite Ep, Hb in Hi. injection Hi as <-.
    apply list_elem_of_In, (List.find_none _ _ E) in Hx. unfold same in Es. congruence.
Qed.

(** ** Changing a bucket *)

Lemma concat_insert (bs : list (list Z)) i b e :
  bs !! i = Some b -> concat (<[i := e :: b]> bs) ≡ₚ e :: concat bs.
Proof.
  revert i. induction bs as [|b0 bs IH]; intros [|i] H; [done..| |]; cbn in *.
  - by injection H as ->.
  - rewrite (IH i H). by rewrite Permutation_middle.
Qed.

Lemma placed_insert cnt bs b e :
  placed cnt bs -> bs !! place cnt e = Some b -> placed cnt (<[place cnt e := e :: b]> bs).
Proof.
  intros Hp Hb i b' x Hi Hx. destruct (decide (i = place cnt e)) as [->|Hne].
  - rewrite list_lookup_insert_eq in Hi by (by eapply lookup_lt_Some). injection Hi as <-.
    apply elem_of_cons in Hx as [->|Hx]; [done|]. by eapply Hp.
  - rewrite list_lookup_insert_ne in Hi by done. by eapply Hp.
Qed.

Lemma concat_filter (P : Z -> Prop) `{forall x, Decision (P x)} (bs : list (list Z)) :
  concat (base.filter P <$> bs) = base.filter P (concat bs).
Proof. induction bs as [|b bs IH]; cbn; [done|]. by rewrite IH, filter_app. Qed.

Lemma filter_one (l : list Z) e : NoDup l -> e ∈ l -> l ≡ₚ e :: base.filter (fun x => x <> e) l.
Proof.
  intros Hn He. apply NoDup_Permutation; [done| |].
  - apply NoDup_cons. split; [|by apply NoDup_filter]. rewrite list_elem_of_filter. naive_solver.
  - intros x. rewrite elem_of_cons, list_elem_of_filter. destruct (decide (x = e)); naive_solver.
Qed.

(** The parts of the invariant that only depend on the set of elements. *)
Definition elems_ok (es : list Z) : Prop :=
  NoDup es /\ (forall x y, x ∈ es -> y ∈ es -> same less x y = true -> x = y) /\ NULL ∉ es.

Lemma elems_ok_perm es es' : es' ≡ₚ es -> elems_ok es -> elems_ok es'.
Proof.
  intros Hp (H1 & H2 & H3). split_and!; [by rewrite Hp| |by rewrite Hp].
  intros x y. rewrite Hp. apply H2.
Qed.

Lemma elems_ok_cons es e :
  elems_ok es -> e <> NULL -> (forall x, x ∈ es -> same less x e = false) -> elems_ok (e :: es).
Proof.
  intros (H1 & H2 & H3) He Hne. split_and!.
  - apply NoDup_cons. split; [|done]. intros Hin. pose proof (hf_refl e). pose proof (Hne e Hin). congruence.
  - intros x y [->|Hx]%elem_of_cons [->|Hy]%elem_of_cons Hs; [done| | |by apply H2].
    + rewrite same_sym, Hne in Hs by done. done.
    + rewrite Hne in Hs by done. done.
  - rewrite elem_of_cons. naive_solver.
Qed.

Lemma elems_ok_filter es e : elems_ok es -> elems_ok (base.filter (fun x => x <> e) es).
Proof.
  intros (H1 & H2 & H3). split_and!; [by apply NoDup_filter| |].
  - intros x y [_ Hx]%list_elem_of_filter [_ Hy]%list_elem_of_filter. by apply H2.
  - rewrite list_elem_of_filter. naive_solver.
Qed.

Lemma hash_ok_elems h : hash_ok h -> elems_ok (elems h).
Proof. intros []. done. Qed.

Lemma hash_ok_intro n cnt bs k :
  2 <= k < 32 -> cnt = 2 ^ k -> length bs = Z.to_nat cnt -> placed cnt bs -> elems_ok (concat bs) ->
  n = Zlen (concat bs) -> Zlen (concat bs) < 2 ^ 32 -> hash_ok (mkHash n cnt bs).
Proof. intros Hk -> Hl Hp (H1 & H2 & H3) Hn Hs. split; cbn; eauto. Qed.

Lemma insert_elem_ok h e :
  hash_ok h -> e <> NULL -> (forall x, x ∈ elems h -> same less x e = false) -> Zlen (elems h) + 1 < 2 ^ 32 ->
  exists h', insert_elem h (place (bucket_cnt h) e) e = Ok h' /\ hash_ok h' /\ elems h' ≡ₚ e :: elems h.
Proof.
  intros Hok He Hne Hs. destruct (bucket_ok h e Hok) as (b & Eb & Hb).
  destruct (ok_cnt h Hok) as (k & Hk & Ek). destruct (ok_size h Hok) as [En _].
  pose proof (concat_insert _ _ _ e Hb) as Hp. fold (elems h) in Hp.
  eexists. unfold insert_elem. rewrite Eb. cbn. split; [done|]. split; [|done].
  eapply hash_ok_intro; [done|done|..].
  - rewrite length_insert. apply (ok_len h Hok).
  - apply placed_insert; [apply (ok_placed h Hok)|done].
  - eapply elems_ok_perm; [done|]. apply elems_ok_cons; [by apply hash_ok_elems|done..].
  - rewrite (Permutation_length Hp), En, uwrap_id; cbn [length]; unfold in_u; lia.
  - rewrite (Permutation_length Hp). cbn [length]. lia.
Qed.

Lemma remove_elem_ok h e :
  hash_ok h -> e ∈ elems h ->
  exists h', remove_elem h e = Ok h' /\ hash_ok h' /\ bucket_cnt h' = bucket_cnt h /\
    elems h' = base.filter (fun x => x <> e) (elems h).
Proof.
  intros Hok He. destruct (ok_cnt h Hok) as (k & Hk & Ek). destruct (ok_size h Hok) as [En Hs].
  pose proof (filter_one (elems h) e (ok_nodup h Hok) He) as Hp. apply Permutation_length in Hp. cbn [length] in Hp.
  unfold remove_elem.
  assert (existsb (fun b => bool_decide (e ∈ b)) (buckets h) = true) as ->.
  { apply existsb_exists. apply elem_of_buckets in He as (i & b & Hi & He). exists b.
    split; [|by apply bool_decide_eq_true]. apply list_elem_of_In. by eapply list_elem_of_lookup_2. }
  eexists. split; [done|]. pose proof (concat_filter (fun x => x <> e) (buckets h)) as Hf. fold (elems h) in Hf.
  split_and!; [|done|done]. eapply hash_ok_intro; [done|done|..].
  - rewrite length_fmap. apply (ok_len h Hok).
  - intros i b x Hi Hx. rewrite list_lookup_fmap in Hi. destruct (buckets h !! i) as [b0|] eqn:Eb; [|done].
    injection Hi as <-. apply list_elem_of_filter in Hx as [_ Hx]. by eapply (ok_placed h Hok).
  - rewrite Hf. apply elems_ok_filter. by apply hash_ok_elems.
  - rewrite Hf, En, uwrap_id; unfold in_u; lia.
  - rewrite Hf. lia.
Qed.

(** ** Rehashing *)

Lemma move_elems_ok k es : 2 <= k < 32 -> forall bs,
  length bs = Z.to_nat (2 ^ k) -> placed (2 ^ k) bs ->
  exists bs', move_elems hash_of (2 ^ k) bs es = Ok bs' /\ length bs' = Z.to_nat (2 ^ k) /\
    placed (2 ^ k) bs' /\ concat bs' ≡ₚ es ++ concat bs.
Proof.
  intros Hk. induction es as [|e es IH]; intros bs Hl Hp; cbn [move_elems]; [by exists bs|].
  destruct (lookup_lt_is_Some_2 bs (place (2 ^ k) e)) as [b Hb].
  { rewrite Hl. by apply place_lt. }
  rewrite Hb. destruct (IH (<[place (2 ^ k) e := e :: b]> bs)) as (bs' & -> & H1 & H2 & H3).
  - by rewrite length_insert.
  - by apply placed_insert.
  - exists bs'. split_and!; try done. rewrite H3, (concat_insert _ _ _ _ Hb). cbn.
    by rewrite Permutation_middle.
Qed.

Lemma move_buckets_ok k old : 2 <= k < 32 -> forall bs,
  length bs = Z.to_nat (2 ^ k) -> placed (2 ^ k) bs ->
  exists bs', move_buckets hash_of (2 ^ k) bs old = Ok bs' /\ length bs' = Z.to_nat (2 ^ k) /\
    placed (2 ^ k) bs' /\ concat bs' ≡ₚ concat old ++ concat bs.
Proof.
  intros Hk. induction old as [|b old IH]; intros bs Hl Hp; cbn [move_buckets]; [by exists bs|].
  destruct (move_elems_ok k b Hk bs Hl Hp) as (bs1 & -> & H1 & H2 & H3). cbn.
  destruct (IH bs1 H1 H2) as (bs' & -> & H4 & H5 & H6). exists bs'. split_and!; try done.
  rewrite H6, H3. rewrite <- app_assoc. apply Permutation_app_swap_app.
Qed.

Lemma concat_empty n : concat (replicate n ([] : list Z)) = [].
Proof. by induction n. Qed.

Lemma placed_empty cnt n : placed cnt (replicate n []).
Proof. intros i b e [-> _]%lookup_replicate He. by apply elem_of_nil in He. Qed.

Lemma rehash_ok mem h :
  hash_ok h ->
  exists h', rehash hash_of mem h = Ok h' /\ hash_ok h' /\ elems h' ≡ₚ elems h /\
    (mem = true -> bucket_cnt h' = 2 ^ ideal_log2 (Zlen (elems h))).
Proof.
  intros Hok. destruct (ok_size h Hok) as [En Hs].
  assert (0 <= elem_cnt h < 2 ^ 32) as Hr by lia. unfold rehash.
  rewrite ideal_bucket_cnt_spec by done. cbn. rewrite <- En.
  destruct (Z.eqb_spec (2 ^ ideal_log2 (elem_cnt h)) (bucket_cnt h)) as [E|E]; [by exists h|].
  destruct mem; cbn; [|by exists h].
  pose proof (ideal_log2_range _ Hr) as Hk.
  destruct (move_buckets_ok (ideal_log2 (elem_cnt h)) (buckets h) Hk
    (replicate (Z.to_nat (2 ^ ideal_log2 (elem_cnt h))) [])) as (bs & -> & H1 & H2 & H3).
  { by rewrite length_replicate. }
  { apply placed_empty. }
  assert (concat bs ≡ₚ elems h) as Hp.
  { by rewrite H3, concat_empty, app_nil_r. }
  cbn. eexists. split_and!; try done.
  apply Permutation_length in Hp as Hl.
  eapply hash_ok_intro; [apply Hk|done|done|done|..]; [|lia..].
  eapply elems_ok_perm; [done|]. by apply hash_ok_elems.
Qed.

(** ** Iteration *)

(** The iteration idiom of the comment of [hash_first]. *)
Fixpoint iterate (fuel : nat) (h : hash) (i : hash_iterator) : res (list Z) :=
  match fuel with
  | O => Err EFuel
  | S fuel =>
      i' ← hash_next h i;
      if hash_cur i' =? NULL then Ok [] else r ← iterate fuel h i'; Ok (hash_cur i' :: r)
  end.

(** The iterator stands before the elements [rest]. *)
Definition before (h : hash) (i : hash_iterator) (rest : list Z) : Prop :=
  exists pre b1 b2 post,
    buckets h = pre ++ (b1 ++ b2) :: post /\ it_bucket i = length pre /\ rest = b2 ++ concat post /\
    ((it_elem i = AtHead /\ b1 = []) \/ exists b0 e, it_elem i = AtElem e /\ b1 = b0 ++ [e]).

Lemma after_split b0 e b2 : e ∉ b0 -> after e (b0 ++ e :: b2) = Some (head b2).
Proof.
  induction b0 as [|x b0 IH]; cbn; intros H; [by rewrite Z.eqb_refl|].
  apply not_elem_of_cons in H as [Hx H]. destruct (Z.eqb_spec x e); [by subst|]. by apply IH.
Qed.

Lemma next_bucket_ok h post : forall fuel pre,
  buckets h = pre ++ post -> bucket_cnt h = Zlen (buckets h) -> (length post <= fuel)%nat ->
  exists i, next_bucket fuel h (length pre) = Ok i /\
    match concat post with
    | [] => it_elem i = AtEnd
    | e :: rest => it_elem i = AtElem e /\ before h i rest
    end.
Proof.
  induction post as [|b post IH]; intros fuel pre Hb Hc Hf.
  - exists {| it_bucket := length pre; it_elem := AtEnd |}. split; [|done]. rewrite app_nil_r in Hb.
    unfold next_bucket. destruct fuel; (destruct (Z.leb_spec (bucket_cnt h) (Z.of_nat (length pre))) as [|Hl];
      [done|]; rewrite Hc, Hb in Hl; lia).
  - destruct fuel as [|fuel]; [cbn in Hf; lia|]. cbn [next_bucket].
    destruct (Z.leb_spec (bucket_cnt h) (Z.of_nat (length pre))) as [Hl|_].
    { rewrite Hc, Hb, length_app in Hl. cbn in Hl. lia. }
    unfold bucket. rewrite Hb, list_lookup_middle by done. cbn. destruct b as [|e b].
    + destruct (IH fuel (pre ++ [[]])) as (i & Hi & Hm); [by rewrite <- app_assoc|done|cbn in Hf; lia|].
      rewrite length_app, Nat.add_1_r in Hi. cbn. eauto.
    + eexists. split; [done|]. cbn. split; [done|]. exists pre, [e], b, post. split_and!; try done.
      right. by exists [], e.
Qed.

Lemma hash_next_ok h i rest :
  NoDup (elems h) -> bucket_cnt h = Zlen (buckets h) -> before h i rest ->
  exists i', hash_next h i = Ok i' /\
    match rest with
    | [] => it_elem i' = AtEnd
    | e :: rest' => it_elem i' = AtElem e /\ before h i' rest'
    end.
Proof.
  intros Hn Hc (pre & b1 & b2 & post & Hb & Hi & -> & Hp). unfold hash_next, bucket.
  rewrite Hi, Hb, list_lookup_middle by done. cbn.
  assert ((match it_elem i with
    | AtHead => Ok (head (b1 ++ b2))
    | AtElem e => match after e (b1 ++ b2) with Some n => Ok n | None => Err EUndef end
    | AtEnd => Err EFault end) = Ok (head b2)) as ->.
  { destruct Hp as [[-> ->]|(b0 & e & -> & ->)]; [done|]. rewrite <- app_assoc. cbn.
    rewrite after_split; [done|]. unfold elems in Hn. rewrite Hb, concat_app in Hn. cbn in Hn.
    apply NoDup_app in Hn as (_ & _ & Hn). rewrite <- !app_assoc in Hn.
    apply NoDup_app in Hn as (_ & Hn & _). intros He. apply (Hn e He). cbn. left. }
  destruct b2 as [|e b2]; cbn.
  - rewrite <- Hb. destruct (next_bucket_ok h post (length (buckets h)) (pre ++ [b1])) as (i' & Hn' & Hm).
    + rewrite <- app_assoc. cbn. by rewrite Hb, app_nil_r.
    + done.
    + rewrite Hb, length_app. cbn. lia.
    + rewrite length_app, Nat.add_1_r in Hn'. eauto.
  - eexists. split; [done|]. cbn. split; [done|]. exists pre, (b1 ++ [e]), b2, post.
    rewrite <- app_assoc. split_and!; try done. right. by exists b1, e.
Qed.

Lemma iterate_step fuel h i i' :
  hash_next h i = Ok i' ->
  iterate (S fuel) h i = if hash_cur i' =? NULL then Ok [] else r ← iterate fuel h i'; Ok (hash_cur i' :: r).
Proof. intros H. cbn [iterate]. by rewrite H. Qed.

Lemma iterate_ok h rest : forall i,
  NoDup (elems h) -> bucket_cnt h = Zlen (buckets h) -> NULL ∉ rest -> before h i rest ->
  iterate (S (length rest)) h i = Ok rest.
Proof.
  induction rest as [|e rest IH]; intros i Hn Hc H0 Hb;
    destruct (hash_next_ok h i _ Hn Hc Hb) as (i' & Hi & Hm); rewrite (iterate_step _ _ _ _ Hi); unfold hash_cur.
  - by rewrite Hm.
  - destruct Hm as [-> Hb']. apply not_elem_of_cons in H0 as [He H0].
    destruct (Z.eqb_spec e NULL); [done|]. change (length (e :: rest)) with (S (length rest)). by rewrite (IH i').
Qed.

Arguments rehash : simpl never.
Arguments insert_elem : simpl never.
Arguments remove_elem : simpl never.

(** * Theorems *)

(** C10: Hash tables are sets up to equality.  In a well-formed table (a power of 2
    of buckets, every element in the bucket its hash selects, no two equal
    elements), whether or not [malloc] fails, [hash_find] returns the element
    equal to [e], or null if there is none; [hash_insert] returns the same and adds
    [e] only if there was none; [hash_replace] takes the equal element out and puts
    [e] in; [hash_delete] takes it out.  Each leaves a well-formed table, and when
    [malloc] succeeds the table that has changed, after [hash_delete] too, has the
    largest power of 2 of buckets that is at most half the number of elements, but at
    least 4. *)
Theorem hash_table_spec mem h e :
  hash_ok h -> e <> NULL -> Zlen (elems h) + 1 < 2 ^ 32 ->
  exists r, hash_find hash_of less h e = Ok r /\ found_in (elems h) e r /\
    (exists h', hash_insert hash_of less mem h e = Ok (r, h') /\ hash_ok h' /\
       elems h' ≡ₚ (if r =? NULL then e :: elems h else elems h) /\
       (mem = true -> bucket_cnt h' = 2 ^ ideal_log2 (Zlen (elems h')))) /\
    (exists h', hash_replace hash_of less mem h e = Ok (r, h') /\ hash_ok h' /\
       elems h' ≡ₚ e :: base.filter (fun x => x <> r) (elems h) /\
       (mem = true -> bucket_cnt h' = 2 ^ ideal_log2 (Zlen (elems h')))) /\
    (exists h', hash_delete hash_of less mem h e = Ok (r, h') /\ hash_ok h' /\
       elems h' ≡ₚ base.filter (fun x => x <> r) (elems h) /\
       (if r =? NULL then h' = h else mem = true -> bucket_cnt h' = 2 ^ ideal_log2 (Zlen (elems h')))).
Proof.
  intros Hok He Hs. destruct (bucket_ok h e Hok) as (b & Eb & Hb).
  pose proof (find_elem_ok h e b Hok Hb) as Hf. exists (find_elem less b e).
  unfold hash_find, hash_insert, hash_replace, hash_delete. rewrite Eb. cbn. split; [done|]. split; [done|].
  destruct Hf as [(Hr & Hin & Hsame)|[-> Hno]].
  - apply Z.eqb_neq in Hr as Er. rewrite Er. cbn.
    destruct (remove_elem_ok h _ Hok Hin) as (h1 & -> & Hok1 & Hc1 & He1). cbn. split_and!.
    + destruct (rehash_ok mem h Hok) as (h' & -> & ? & Hp & Hc). exists h'. by rewrite Hp.
    + rewrite <- Hc1. destruct (insert_elem_ok h1 e Hok1 He) as (h2 & -> & Hok2 & He2).
      * rewrite He1. intros x [Hx Hxin]%list_elem_of_filter. destruct (same less x e) eqn:E; [|done].
        destruct Hx. apply (ok_uniq h Hok); [done..|]. apply (hf_trans x e); [done|]. by rewrite same_sym.
      * rewrite He1. pose proof (length_filter (fun x => x <> find_elem less b e) (elems h)). lia.
      * cbn. destruct (rehash_ok mem h2 Hok2) as (h' & -> & ? & Hp & Hc). exists h'. rewrite Hp at 2.
        split_and!; try done. by rewrite Hp, He2, He1.
    + destruct (rehash_ok mem h1 Hok1) as (h' & -> & ? & Hp & Hc). exists h'. rewrite Hp at 2.
      split_and!; try done. by rewrite Hp, He1.
  - destruct (insert_elem_ok h e Hok He Hno Hs) as (h1 & E1 & Hok1 & He1). cbn.
    destruct (rehash_ok mem h1 Hok1) as (h' & E2 & ? & Hp & Hc).
    assert (base.filter (fun x => x <> NULL) (elems h) = elems h) as Hfl.
    { pose proof (ok_null h Hok) as Hn. clear -Hn. induction (elems h) as [|x l IH]; [done|].
      apply not_elem_of_cons in Hn as [Hx Hn]. by rewrite filter_cons_True, IH. }
    rewrite E1. cbn. rewrite E2. cbn. rewrite Hfl. split_and!; [| |by exists h].
    all: exists h'; rewrite Hp at 2; split_and!; try done; by rewrite Hp.
Qed.

(** Iterating with [hash_first], [hash_next] and [hash_cur] over a well-formed
    table visits every element exactly once, in the order in which [hash_apply]
    calls its action, and then returns a null pointer. *)
Theorem hash_iteration_complete h :
  hash_ok h -> iterate (S (length (elems h))) h hash_first = Ok (hash_apply h) /\
    NoDup (hash_apply h) /\ forall e, e ∈ hash_apply h <-> e ∈ elems h.
Proof.
  intros Hok. assert (hash_apply h = elems h) as ->.
  { unfold hash_apply, elems. induction (buckets h) as [|b bs IH]; cbn; congruence. }
  split; [|by split; [apply (ok_nodup h Hok)|]].
  destruct (ok_cnt h Hok) as (k & Hk & Ek). assert (0 < 2 ^ k) by (apply Z.pow_pos_nonneg; lia).
  pose proof (ok_len h Hok) as Hl. apply iterate_ok; [by apply (ok_nodup h Hok)|lia|by apply (ok_null h Hok)|].
  destruct (buckets h) as [|b bs] eqn:Eb; [cbn in Hl; lia|].
  exists [], [], b, bs. unfold elems. rewrite Eb. split_and!; try done. by left.
Qed.

End table.

(** * Concrete tables *)

Lemma fnv_step_range h b : 0 <= b < 256 -> 0 <= Z.lxor (u32 (h * FNV_32_PRIME)) b < 2 ^ 32.
Proof.
  intros Hb. destruct (uwrap_range 32 ltac:(lia) (h * FNV_32_PRIME)) as [H1 H2].
  generalize dependent (u32 (h * FNV_32_PRIME)). intros u H1 H2.
  assert (0 <= Z.lxor u b) by (apply Z.lxor_nonneg; lia). split; [done|].
  destruct (Z.eq_dec (Z.lxor u b) 0) as [->|Hne]; [lia|]. apply Z.log2_lt_pow2; [lia|].
  eapply Z.le_lt_trans; [apply Z.log2_lxor; lia|]. apply Z.max_lub_lt.
  - destruct (Z.eq_dec u 0) as [->|]; [done|]. apply Z.log2_lt_pow2; lia.
  - destruct (Z.eq_dec b 0) as [->|]; [done|]. apply Z.log2_lt_pow2; lia.
Qed.

Lemma hash_bytes_range buf : Forall (fun b => 0 <= b < 256) buf -> 0 <= hash_bytes buf < 2 ^ 32.
Proof.
  intros H. unfold hash_bytes. assert (0 <= FNV_32_BASIS < 2 ^ 32) as Hb by done. revert Hb.
  generalize FNV_32_BASIS. induction H as [|b buf Hb H IH]; intros h Hh; cbn [foldl]; [done|].
  apply IH. by apply fnv_step_range.
Qed.

Lemma hash_int_range i : 0 <= hash_int i < 2 ^ 32.
Proof.
  apply hash_bytes_range. destruct (uwrap_range 32 ltac:(lia) i) as [H1 H2].
  unfold int_bytes. generalize dependent (u32 i). intros u H1 H2.
  assert (forall v, 0 <= v mod 256 < 256) by (intros v; apply Z.mod_pos_bound; lia).
  do 4 (apply Forall_cons_2; [try done|]); [|apply Forall_nil_2].
  split; [apply Z.div_pos; lia|apply Z.div_lt_upper_bound; lia].
Qed.

Lemma same_ltb a b : same Z.ltb a b = true -> a = b.
Proof. unfold same. destruct (Z.ltb_spec a b), (Z.ltb_spec b a); cbn; intros; try done; lia. Qed.

(** Elements hashed and compared by their addresses. *)
#[export] Instance address_funcs : HashFuncs hash_int Z.ltb.
Proof.
  split.
  - apply hash_int_range.
  - intros a. unfold same. by rewrite Z.ltb_irrefl.
  - intros a b c ->%same_ltb ->%same_ltb. unfold same. by rewrite Z.ltb_irrefl.
  - by intros a b ->%same_ltb.
Qed.

(** Three elements in a table that once had more. *)
Definition demo_hash : hash := mkHash 3 8 [[300]; [100]; []; []; []; [200]; []; []].

Lemma demo_hash_ok : hash_ok hash_int Z.ltb demo_hash.
Proof.
  apply (hash_ok_intro hash_int Z.ltb 3 8 _ 3); try done.
  - intros i b e Hi He.
    do 8 (destruct i as [|i]; [injection Hi as <-; first
      [ by apply elem_of_nil in He
      | apply list_elem_of_singleton in He as ->; by vm_compute ]|]). done.
  - split_and!.
    + by apply (bool_decide_unpack _).
    + by intros x y _ _ ?%same_ltb.
    + by apply (bool_decide_unpack _).
Qed.

Lemma hash_table_spec_witness :
  exists r, hash_find hash_int Z.ltb demo_hash 400 = Ok r /\ found_in Z.ltb (elems demo_hash) 400 r /\
    exists h', hash_insert hash_int Z.ltb true demo_hash 400 = Ok (r, h') /\ hash_ok hash_int Z.ltb h' /\
      bucket_cnt h' = 2 ^ ideal_log2 (Zlen (elems h')).
Proof.
  destruct (hash_table_spec hash_int Z.ltb true demo_hash 400 demo_hash_ok) as (r & H1 & H2 & (h' & H3 & H4 & _ & H5) & _);
    [done|by vm_compute|].
  exists r. split; [done|]. split; [done|]. exists h'. split_and!; auto.
Defined.

Lemma hash_iteration_complete_witness :
  iterate 4 demo_hash hash_first = Ok [300; 100; 200] /\ NoDup (hash_apply demo_hash).
Proof.
  destruct (hash_iteration_complete hash_int Z.ltb demo_hash demo_hash_ok) as (H1 & H2 & _).
  split; [exact H1|exact H2].
Defined.
