(* ===== verification/Arithmetic.v ===== *)
(** lib/arithmetic.c: 64-bit division on a machine that divides 64 by 32 bits. *)
From Stdlib Require Import ZArith Lia Psatz.
From stdpp Require Import base numbers.
From S2P Require Import Prelude.

Local Open Scope Z_scope.

(** * Definitions *)

(** The DIVL instruction; it traps when the divisor is 0 or the quotient does not
    fit in 32 bits. *)
Definition divl (n d : Z) : res Z :=
  if (d =? 0) || (2 ^ 32 <=? n / d) then Err EPanic else Ok (n / d).

(** One test of [nlz]. *)
Definition nlz_step (limit k : Z) (a : Z * Z) : Z * Z :=
  let '(n, x) := a in
  if x <=? limit then (n + k, u32 (Z.shiftl x k)) else (n, x).

Definition nlz (x : Z) : Z :=
  let a := nlz_step 0x0000FFFF 16 (0, x) in
  let a := nlz_step 0x00FFFFFF 8 a in
  let a := nlz_step 0x0FFFFFFF 4 a in
  let '(n, x) := nlz_step 0x3FFFFFFF 2 a in
  if x <=? 0x7FFFFFFF then n + 1 else n.

Definition udiv64 (n d : Z) : res Z :=
  if Z.shiftr d 32 =? 0 then
    let b := u64 (Z.shiftl 1 32) in
    let n1 := u32 (Z.shiftr n 32) in
    let n0 := u32 n in
    let d0 := u32 d in
    if d0 =? 0 then Err EPanic else
    q ← divl (u64 (u64 (b * (n1 mod d0)) + n0)) d0;
    Ok (u64 (q + u64 (b * (n1 / d0))))
  else if n <? d then Ok 0
  else
    let d1 := u32 (Z.shiftr d 32) in
    let s := nlz d1 in
    q0 ← divl (Z.shiftr n 1) (u32 (Z.shiftr (u64 (Z.shiftl d s)) 32));
    let q := Z.shiftr q0 (31 - s) in
    Ok (if u64 (n - u64 (u64 (q - 1) * d)) <? d then u64 (q - 1) else q).

(** The remainders are returned as 32-bit integers. *)
Definition umod64 (n d : Z) : res Z :=
  q ← udiv64 n d; Ok (u32 (u64 (n - u64 (d * q)))).

Definition sdiv64 (n d : Z) : res Z :=
  let n_abs := if 0 <=? n then u64 n else u64 (- u64 n) in
  let d_abs := if 0 <=? d then u64 d else u64 (- u64 d) in
  q_abs ← udiv64 n_abs d_abs;
  Ok (if Bool.eqb (n <? 0) (d <? 0) then s64 q_abs else s64 (- s64 q_abs)).

Definition smod64 (n d : Z) : res Z :=
  q ← sdiv64 n d; Ok (s32 (s64 (n - s64 (d * q)))).

Lemma u64_id x : 0 <= x < 2 ^ 64 -> u64 x = x.
Proof. by apply uwrap_id. Qed.

(** * Leading zeros *)

(** The state of [nlz]: [x] is the argument shifted left by [n], with its highest
    bit at or above bit [a]. *)
Definition shifted (x0 a : Z) (p : Z * Z) : Prop :=
  0 <= fst p <= 31 - Z.log2 x0 /\ snd p = x0 * 2 ^ fst p /\ 2 ^ a <= snd p < 2 ^ 32.

Lemma nlz_step_ok x0 limit k p :
  0 < x0 -> 0 < k <= 16 -> limit = 2 ^ (32 - k) - 1 ->
  shifted x0 (32 - 2 * k) p -> shifted x0 (32 - k) (nlz_step limit k p).
Proof.
  destruct p as [n x]. unfold shifted, nlz_step; cbn [fst snd]. intros H0 Hk -> (Hn & Hx & Hl).
  destruct (Z.leb_spec x (2 ^ (32 - k) - 1)) as [Hle|Hgt]; cbn [fst snd]; [|split_and!; lia].
  rewrite Z.shiftl_mul_pow2 by lia.
  assert (2 ^ 32 = 2 ^ (32 - k) * 2 ^ k) as E1 by (rewrite <- Z.pow_add_r by lia; f_equal; lia).
  assert (2 ^ (32 - k) = 2 ^ (32 - 2 * k) * 2 ^ k) as E2 by (rewrite <- Z.pow_add_r by lia; f_equal; lia).
  assert (0 < 2 ^ k) by (apply Z.pow_pos_nonneg; lia).
  assert (0 < 2 ^ (32 - 2 * k)) by (apply Z.pow_pos_nonneg; lia).
  assert (2 ^ (32 - k) <= x * 2 ^ k < 2 ^ 32) as Hr by nia.
  rewrite u32_id by lia.
  assert (x * 2 ^ k = x0 * 2 ^ (n + k)) as Es by (rewrite Hx, Z.pow_add_r by lia; lia).
  split_and!; [lia| |done|lia|lia].
  assert (Z.log2 (x0 * 2 ^ (n + k)) < 32) as Hlog by (apply Z.log2_lt_pow2; lia).
  rewrite Z.log2_mul_pow2 in Hlog by lia. lia.
Qed.

Lemma nlz_spec x : 0 < x < 2 ^ 32 -> 0 <= nlz x <= 31 /\ 2 ^ 31 <= x * 2 ^ nlz x < 2 ^ 32.
Proof.
  intros Hx. unfold nlz.
  assert (shifted x (32 - 2 * 16) (0, x)) as H0.
  { assert (Z.log2 x < 32) by (apply Z.log2_lt_pow2; lia). unfold shifted; cbn. lia. }
  apply (nlz_step_ok x 0x0000FFFF 16) in H0; [|lia..].
  apply (nlz_step_ok x 0x00FFFFFF 8) in H0; [|lia..].
  apply (nlz_step_ok x 0x0FFFFFFF 4) in H0; [|lia..].
  apply (nlz_step_ok x 0x3FFFFFFF 2) in H0; [|lia..]. revert H0.
  generalize (nlz_step 0x3FFFFFFF 2 (nlz_step 0x0FFFFFFF 4 (nlz_step 0x00FFFFFF 8 (nlz_step 0x0000FFFF 16 (0, x))))).
  intros p H0. apply (nlz_step_ok x 0x7FFFFFFF 1) in H0; [|lia..].
  destruct p as [n y]. unfold nlz_step in H0. pose proof (Z.log2_nonneg x).
  destruct (y <=? 0x7FFFFFFF); unfold shifted in H0; cbn [fst snd] in H0; destruct H0 as (H1 & H2 & H3); lia.
Qed.

(** * Division *)

(** The low case: the divisor fits in 32 bits. *)
Lemma udiv64_small n d : 0 <= n < 2 ^ 64 -> 0 < d < 2 ^ 32 -> udiv64 n d = Ok (n / d).
Proof.
  intros Hn Hd. unfold udiv64. rewrite !Z.shiftr_div_pow2 by lia.
  rewrite (Z.div_small d) by lia. cbn [Z.eqb]. change (u64 (Z.shiftl 1 32)) with (2 ^ 32).
  assert (0 <= n / 2 ^ 32 < 2 ^ 32) as Hn1 by (split; [apply Z.div_pos; lia|apply Z.div_lt_upper_bound; lia]).
  rewrite (u32_id (n / 2 ^ 32)), (u32_id d) by lia.
  destruct (Z.eqb_spec d 0) as [|_]; [lia|].
  assert (u32 n = n mod 2 ^ 32) as -> by done.
  pose proof (Z.mod_pos_bound n (2 ^ 32) ltac:(lia)) as Hn0.
  pose proof (Z.mod_pos_bound (n / 2 ^ 32) d ltac:(lia)) as Hr.
  pose proof (Z.div_mod n (2 ^ 32) ltac:(lia)) as En. pose proof (Z.div_mod (n / 2 ^ 32) d ltac:(lia)) as E1.
  set (n1 := n / 2 ^ 32) in *. set (n0 := n mod 2 ^ 32) in *. set (r := n1 mod d) in *. set (t := n1 / d) in *.
  assert (0 <= t) by (apply Z.div_pos; lia). assert (t <= n1) by nia.
  rewrite (u64_id (2 ^ 32 * r)), (u64_id (_ + n0)), (u64_id (2 ^ 32 * t)) by lia.
  assert (n / d = (2 ^ 32 * r + n0) / d + 2 ^ 32 * t) as Eq.
  { rewrite <- Z.div_add by lia. f_equal. rewrite En, E1. ring. }
  assert (0 <= (2 ^ 32 * r + n0) / d < 2 ^ 32) as Hq.
  { split; [apply Z.div_pos; lia|apply Z.div_lt_upper_bound; nia]. }
  unfold divl. destruct (Z.eqb_spec d 0) as [|_]; [lia|]. destruct (Z.leb_spec (2 ^ 32) ((2 ^ 32 * r + n0) / d)); [lia|].
  cbn. rewrite Eq, u64_id; [done|]. nia.
Qed.

(** The estimate of the high case: dividing by the top 32 bits of the normalized
    divisor gives the quotient or one more. *)
Lemma estimate_close n d V w :
  0 <= n -> 0 < V <= d -> d - V <= w -> n * w <= d * V -> n / d <= n / V <= n / d + 1.
Proof.
  intros Hn HV Hw Hnw. split; [apply Z.div_le_compat_l; lia|].
  assert (n / V < n / d + 2); [|lia]. apply Z.div_lt_upper_bound; [lia|].
  pose proof (Z.mul_succ_div_gt n d ltac:(lia)) as Hq. set (q := n / d) in *.
  assert (n * d < (V * (q + 2)) * d) by nia. nia.
Qed.

(** The normalized divisor: [s] places to the left, its top 32 bits [v]. *)
Lemma normalized d s :
  2 ^ 32 <= d < 2 ^ 64 -> 0 <= s <= 31 -> 2 ^ 31 <= d / 2 ^ 32 * 2 ^ s < 2 ^ 32 ->
  d * 2 ^ s < 2 ^ 64 /\ 2 ^ 31 <= d * 2 ^ s / 2 ^ 32 < 2 ^ 32.
Proof.
  intros Hd Hs H1. assert (2 ^ 32 = 2 ^ (32 - s) * 2 ^ s) as E by (rewrite <- Z.pow_add_r by lia; f_equal; lia).
  assert (0 < 2 ^ s) by (apply Z.pow_pos_nonneg; lia).
  pose proof (Z.mul_succ_div_gt d (2 ^ 32) ltac:(lia)) as Hgt. pose proof (Z.mul_div_le d (2 ^ 32) ltac:(lia)) as Hle.
  set (d1 := d / 2 ^ 32) in *. assert (d1 < 2 ^ (32 - s)) by nia.
  assert ((d1 + 1) * 2 ^ s <= 2 ^ 32) by nia. change (2 ^ 64) with (2 ^ 32 * 2 ^ 32).
  assert (d * 2 ^ s < 2 ^ 32 * 2 ^ 32) by nia. split; [done|]. split.
  - apply Z.div_le_lower_bound; nia.
  - apply Z.div_lt_upper_bound; lia.
Qed.

(** The bounds [estimate_close] asks for. *)
Lemma estimate_bounds n d s v :
  0 <= n < 2 ^ 64 -> 0 <= s <= 31 -> v = d * 2 ^ s / 2 ^ 32 -> 2 ^ 31 <= v ->
  let V := 2 * v * 2 ^ (31 - s) in let w := 2 ^ (32 - s) - 1 in
  0 < V <= d /\ d - V <= w /\ n * w <= d * V.
Proof.
  intros Hn Hs Ev Hv V w. assert (0 < 2 ^ s) by (apply Z.pow_pos_nonneg; lia).
  assert (0 < 2 ^ (31 - s)) by (apply Z.pow_pos_nonneg; lia).
  assert (2 ^ (32 - s) = 2 * 2 ^ (31 - s)) as E2 by (rewrite <- Z.pow_succ_r by lia; f_equal; lia).
  assert (2 ^ 32 = 2 ^ (32 - s) * 2 ^ s) as E by (rewrite <- Z.pow_add_r by lia; f_equal; lia).
  pose proof (Z.mul_succ_div_gt (d * 2 ^ s) (2 ^ 32) ltac:(lia)) as Hgt.
  pose proof (Z.mul_div_le (d * 2 ^ s) (2 ^ 32) ltac:(lia)) as Hle. rewrite <- Ev in Hgt, Hle.
  unfold V, w in *. clear V w. set (P := 2 ^ (32 - s)) in *.
  assert (2 * v * 2 ^ (31 - s) = v * P) as -> by lia. clear E2.
  rewrite E in Hgt, Hle. assert (0 < P) by lia.
  assert (v * P <= d) by nia. assert (d < (v + 1) * P) by nia.
  split; [nia|]. split; [lia|].
  assert (2 ^ 31 * P <= v * P) by nia. assert (2 ^ 31 * P <= d) by lia.
  assert ((2 ^ 31 * P) * (2 ^ 31 * P) <= d * (v * P)) by (apply Z.mul_le_mono_nonneg; lia).
  apply (Z.le_trans _ (2 ^ 64 * (P - 1))); [apply Z.mul_le_mono_nonneg_r; lia|].
  apply (Z.le_trans _ ((2 ^ 31 * P) * (2 ^ 31 * P))); [|done].
  replace (2 ^ 31 * P * (2 ^ 31 * P)) with (2 ^ 62 * (P * P)) by ring.
  change (2 ^ 64) with (2 ^ 62 * 4). rewrite <- Z.mul_assoc. apply Z.mul_le_mono_nonneg_l; [lia|].
  pose proof (Z.square_nonneg (P - 2)). lia.
Qed.

(** The high case. *)
Lemma udiv64_large n d : 0 <= n < 2 ^ 64 -> 2 ^ 32 <= d < 2 ^ 64 -> udiv64 n d = Ok (n / d).
Proof.
  intros Hn Hd. unfold udiv64.
  assert (0 < d / 2 ^ 32 < 2 ^ 32) as Hd1.
  { split; [apply Z.div_str_pos; lia|apply Z.div_lt_upper_bound; lia]. }
  rewrite !(Z.shiftr_div_pow2 d) by lia. destruct (Z.eqb_spec (d / 2 ^ 32) 0) as [|_]; [lia|].
  destruct (Z.ltb_spec n d) as [Hlt|Hge]; [by rewrite Z.div_small by lia|].
  rewrite u32_id by lia. destruct (nlz_spec _ Hd1) as [Hs H1]. set (s := nlz (d / 2 ^ 32)) in *.
  destruct (normalized d s Hd Hs H1) as [Hsh Hv].
  rewrite Z.shiftl_mul_pow2, u64_id, !Z.shiftr_div_pow2, u32_id by (split_and?; nia || lia).
  set (v := d * 2 ^ s / 2 ^ 32) in *.
  destruct (estimate_bounds n d s v Hn Hs eq_refl ltac:(lia)) as (HV & Hw & Hnw).
  destruct (estimate_close n d _ _ (proj1 Hn) HV Hw Hnw) as [Hlo Hhi]. unfold divl.
  destruct (Z.eqb_spec v 0) as [|_]; [lia|]. change (2 ^ 1) with 2.
  assert (n / 2 / v < 2 ^ 32) as Hq.
  { apply Z.div_lt_upper_bound; [lia|]. apply Z.div_lt_upper_bound; nia. }
  destruct (Z.leb_spec (2 ^ 32) (n / 2 / v)); [lia|]. cbn [orb mbind res_bind]. cbv zeta. rewrite Z.shiftr_div_pow2 by lia.
  assert (0 < 2 ^ (31 - s)) by (apply Z.pow_pos_nonneg; lia).
  rewrite !Z.div_div, Z.mul_assoc by lia. set (q1 := n / (2 * v * 2 ^ (31 - s))) in *.
  assert (1 <= n / d) by (apply Z.div_le_lower_bound; lia).
  pose proof (Z.mul_succ_div_gt n d ltac:(lia)). pose proof (Z.mul_div_le n d ltac:(lia)).
  assert (q1 - 1 <= n / d < 2 ^ 64) by nia.
  rewrite (u64_id (q1 - 1)) by lia. assert (0 <= (q1 - 1) * d <= n) by nia.
  rewrite (u64_id ((q1 - 1) * d)), (u64_id (n - _)) by lia. f_equal.
  destruct (Z.ltb_spec (n - (q1 - 1) * d) d); nia.
Qed.

Lemma udiv64_ok n d : 0 <= n < 2 ^ 64 -> 0 < d < 2 ^ 64 -> udiv64 n d = Ok (n / d).
Proof.
  intros Hn Hd. destruct (Z.lt_ge_cases d (2 ^ 32)); [apply udiv64_small|apply udiv64_large]; lia.
Qed.

(** ** Signed operands *)

Lemma abs_u64 n : - 2 ^ 63 <= n < 2 ^ 63 -> (if 0 <=? n then u64 n else u64 (- u64 n)) = Z.abs n.
Proof.
  intros H. destruct (Z.leb_spec 0 n).
  - rewrite u64_id by lia. lia.
  - assert (u64 n = n + 2 ^ 64) as -> by (unfold uwrap; rewrite <- (Z.mod_add n 1), Z.mod_small; lia).
    unfold uwrap. rewrite <- (Z.mod_add _ 1), Z.mod_small; lia.
Qed.

(** [swrap] sees its argument modulo the width. *)
Lemma s64_mod a k : s64 (a + k * 2 ^ 64) = s64 a.
Proof.
  unfold swrap. f_equal. replace (a + k * 2 ^ 64 + 2 ^ (64 - 1)) with (a + 2 ^ (64 - 1) + k * 2 ^ 64) by lia.
  by apply Z.mod_add.
Qed.

Lemma s64_mod_iff z : exists k, s64 z = z + k * 2 ^ 64.
Proof.
  exists (- ((z + 2 ^ (64 - 1)) / 2 ^ 64)). unfold swrap.
  pose proof (Z.div_mod (z + 2 ^ (64 - 1)) (2 ^ 64) ltac:(lia)). lia.
Qed.

Lemma s64_opp z : s64 (- s64 z) = s64 (- z).
Proof. destruct (s64_mod_iff z) as [k ->]. rewrite <- (s64_mod (- z) (- k)). f_equal. lia. Qed.

Lemma quot_sign n d :
  d <> 0 -> if Bool.eqb (n <? 0) (d <? 0) then 0 <= Z.quot n d else Z.quot n d <= 0.
Proof.
  intros H0. destruct (Z.ltb_spec n 0), (Z.ltb_spec d 0); cbn [Bool.eqb].
  - rewrite <- Z.quot_opp_opp by done. apply Z.quot_pos; lia.
  - rewrite <- (Z.opp_involutive n), Z.quot_opp_l by done. pose proof (Z.quot_pos (- n) d). lia.
  - rewrite <- (Z.opp_involutive d), Z.quot_opp_r by lia. pose proof (Z.quot_pos n (- d)). lia.
  - apply Z.quot_pos; lia.
Qed.

Lemma sdiv64_ok n d :
  - 2 ^ 63 <= n < 2 ^ 63 -> - 2 ^ 63 <= d < 2 ^ 63 -> d <> 0 -> sdiv64 n d = Ok (s64 (Z.quot n d)).
Proof.
  intros Hn Hd H0. unfold sdiv64. rewrite !abs_u64 by done. rewrite udiv64_ok by lia. cbn [mbind res_bind].
  rewrite <- (Z.quot_div_nonneg (Z.abs n)), Z.quot_abs by lia. rewrite s64_opp. f_equal.
  pose proof (quot_sign n d H0) as Hs.
  destruct (Z.ltb_spec n 0), (Z.ltb_spec d 0); cbn [Bool.eqb] in *; f_equal; lia.
Qed.

Lemma s32_s64 z : s32 (s64 z) = s32 z.
Proof.
  destruct (s64_mod_iff z) as [k ->]. unfold swrap. f_equal.
  replace (z + k * 2 ^ 64 + 2 ^ (32 - 1)) with (z + 2 ^ (32 - 1) + (k * 2 ^ 32) * 2 ^ 32) by lia.
  by apply Z.mod_add.
Qed.

Lemma s64_mul_sub n d q : s64 (n - s64 (d * s64 q)) = s64 (n - d * q).
Proof.
  destruct (s64_mod_iff q) as [k ->]. destruct (s64_mod_iff (d * (q + k * 2 ^ 64))) as [j ->].
  rewrite <- (s64_mod (n - d * q) (- d * k - j)). f_equal. lia.
Qed.

(** * Theorem *)

(** C11: 64-bit division out of 32-bit division.  For all operands of 64 bits with
    a divisor other than 0, the division instruction does not trap and [udiv64]
    returns the quotient; [sdiv64] returns the quotient rounded towards zero,
    wrapped to 64 bits, which only the quotient of the least number by -1 needs;
    and the remainder functions return the low 32 bits of the remainder, hence
    the remainder itself when it fits in their 32-bit result. *)
Theorem div64_spec n d :
  (0 <= n < 2 ^ 64 -> 0 < d < 2 ^ 64 ->
   udiv64 n d = Ok (n / d) /\ umod64 n d = Ok (u32 (n mod d)) /\
   (d <= 2 ^ 32 -> umod64 n d = Ok (n mod d))) /\
  (- 2 ^ 63 <= n < 2 ^ 63 -> - 2 ^ 63 <= d < 2 ^ 63 -> d <> 0 ->
   sdiv64 n d = Ok (s64 (Z.quot n d)) /\ smod64 n d = Ok (s32 (Z.rem n d)) /\
   (~ (n = - 2 ^ 63 /\ d = -1) -> sdiv64 n d = Ok (Z.quot n d)) /\
   (Z.abs d <= 2 ^ 31 -> smod64 n d = Ok (Z.rem n d))).
Proof.
  split.
  - intros Hn Hd. rewrite udiv64_ok by done. unfold umod64. rewrite udiv64_ok by done. cbn [mbind res_bind].
    pose proof (Z.mod_pos_bound n d ltac:(lia)) as Hr. pose proof (Z.div_mod n d ltac:(lia)) as En.
    assert (0 <= n / d) by (apply Z.div_pos; lia).
    rewrite (u64_id (d * (n / d))) by lia. replace (n - d * (n / d)) with (n mod d) by lia.
    rewrite u64_id by lia. split_and!; try done. intros Hs. by rewrite u32_id by lia.
  - intros Hn Hd H0. unfold smod64. rewrite sdiv64_ok by done. cbn [mbind res_bind].
    rewrite s64_mul_sub, s32_s64. pose proof (Z.quot_rem' n d) as En.
    replace (n - d * Z.quot n d) with (Z.rem n d) by lia. split_and!; try done.
    + intros Hno. f_equal. apply swrap_id; [lia|]. unfold in_s.
      assert (Z.abs (Z.quot n d) <= Z.abs n) by (rewrite <- Z.quot_abs by done; apply Z.quot_le_upper_bound; nia).
      destruct (Z.eq_dec (Z.quot n d) (2 ^ 63)) as [E|E]; [|lia].
      exfalso. apply Hno. pose proof (Z.rem_bound_abs n d H0). rewrite E in En. lia.
    + intros Hs. f_equal. apply swrap_id; [lia|]. unfold in_s. pose proof (Z.rem_bound_abs n d H0). lia.
Qed.

Lemma div64_spec_witness :
  udiv64 (2 ^ 64 - 1) (2 ^ 32 + 1) = Ok (2 ^ 32 - 1) /\ smod64 (-7) 3 = Ok (-1).
Proof.
  destruct (div64_spec (2 ^ 64 - 1) (2 ^ 32 + 1)) as [H1 _].
  destruct (div64_spec (-7) 3) as [_ H2].
  split; [apply H1; lia|]. apply H2; lia.
Defined.
