(* ===== verification/Bitmap.v ===== *)
(** The bitmaps of lib/kernel/bitmap.c: an array of 32-bit words that stands for
    an array of bits.  [abs] is the array of bits, and every operation is shown to
    act on it as its comment says. *)
From Stdlib Require Import ZArith Lia.
From stdpp Require Import base numbers sorting gmap list.
From S2P Require Import Prelude.

Local Open Scope Z_scope.

(** * Data *)

(** [elem_type] is [unsigned long], 32 bits on the i386 Pintos runs on. *)
Definition ELEM_BITS : Z := 32.
Definition SIZEOF_ELEM : Z := 4.

Record bitmap := { bit_cnt : Z; bits : list Z }.

(** [BITMAP_ERROR] is [SIZE_MAX]. *)
Definition BITMAP_ERROR : Z := 2 ^ 32 - 1.

(** DIV_ROUND_UP of lib/round.h, on [size_t]. *)
Definition DIV_ROUND_UP (x step : Z) : Z := u32 (u32 (x + step) - 1) / step.

Definition elem_idx (bit_idx : Z) : Z := bit_idx / ELEM_BITS.
Definition bit_mask (bit_idx : Z) : Z := u32 (Z.shiftl 1 (bit_idx mod ELEM_BITS)).
Definition elem_cnt (bit_cnt : Z) : Z := DIV_ROUND_UP bit_cnt ELEM_BITS.
Definition byte_cnt (bit_cnt : Z) : Z := u32 (SIZEOF_ELEM * elem_cnt bit_cnt).

Definition last_mask (b : bitmap) : Z :=
  let last_bits := bit_cnt b mod ELEM_BITS in
  if last_bits =? 0 then u32 (-1) else u32 (u32 (Z.shiftl 1 last_bits) - 1).

(** * Operations *)

Definition bitmap_size (b : bitmap) : Z := bit_cnt b.

(** [b->bits[idx] = f (b->bits[idx])]; an index past the array is a fault. *)
Definition update_elem (b : bitmap) (idx : Z) (f : Z -> Z) : res bitmap :=
  match bits b !! Z.to_nat idx with
  | Some e => Ok {| bit_cnt := bit_cnt b; bits := <[Z.to_nat idx := f e]> (bits b) |}
  | None => Err EFault
  end.

Definition bitmap_mark (b : bitmap) (bit_idx : Z) : res bitmap :=
  let idx := elem_idx bit_idx in
  let mask := bit_mask bit_idx in
  update_elem b idx (fun e => Z.lor e mask).

(** [~mask] on 32 bits. *)
Definition bitmap_reset (b : bitmap) (bit_idx : Z) : res bitmap :=
  let idx := elem_idx bit_idx in
  let mask := bit_mask bit_idx in
  update_elem b idx (fun e => Z.land e (u32 (Z.lnot mask))).

Definition bitmap_flip (b : bitmap) (bit_idx : Z) : res bitmap :=
  let idx := elem_idx bit_idx in
  let mask := bit_mask bit_idx in
  update_elem b idx (fun e => Z.lxor e mask).

Definition rassert (c : bool) : res unit := if c then Ok tt else Err EAssert.

Definition bitmap_set (b : bitmap) (idx : Z) (value : bool) : res bitmap :=
  rassert (idx <? bit_cnt b);;
  if value then bitmap_mark b idx else bitmap_reset b idx.

Definition bitmap_test (b : bitmap) (idx : Z) : res bool :=
  rassert (idx <? bit_cnt b);;
  match bits b !! Z.to_nat (elem_idx idx) with
  | Some e => Ok (negb (Z.land e (bit_mask idx) =? 0))
  | None => Err EFault
  end.

(** [for (i = 0; i < cnt; i++) bitmap_set (b, start + i, value)], from [i] on
    with [n] rounds to go. *)
Fixpoint set_loop (n : nat) (i start : Z) (value : bool) (b : bitmap) : res bitmap :=
  match n with
  | O => Ok b
  | S n => b' ← bitmap_set b (u32 (start + i)) value; set_loop n (i + 1) start value b'
  end.

Definition bitmap_set_multiple (b : bitmap) (start cnt : Z) (value : bool) : res bitmap :=
  rassert (start <=? bit_cnt b);;
  rassert (u32 (start + cnt) <=? bit_cnt b);;
  set_loop (Z.to_nat cnt) 0 start value b.

Definition bitmap_set_all (b : bitmap) (value : bool) : res bitmap :=
  bitmap_set_multiple b 0 (bitmap_size b) value.

Fixpoint count_loop (b : bitmap) (n : nat) (i start : Z) (value : bool) (value_cnt : Z) : res Z :=
  match n with
  | O => Ok value_cnt
  | S n =>
      t ← bitmap_test b (u32 (start + i));
      count_loop b n (i + 1) start value (if Bool.eqb t value then value_cnt + 1 else value_cnt)
  end.

Definition bitmap_count (b : bitmap) (start cnt : Z) (value : bool) : res Z :=
  rassert (start <=? bit_cnt b);;
  rassert (u32 (start + cnt) <=? bit_cnt b);;
  count_loop b (Z.to_nat cnt) 0 start value 0.

Fixpoint contains_loop (b : bitmap) (n : nat) (i start : Z) (value : bool) : res bool :=
  match n with
  | O => Ok false
  | S n =>
      t ← bitmap_test b (u32 (start + i));
      if Bool.eqb t value then Ok true else contains_loop b n (i + 1) start value
  end.

Definition bitmap_contains (b : bitmap) (start cnt : Z) (value : bool) : res bool :=
  rassert (start <=? bit_cnt b);;
  rassert (u32 (start + cnt) <=? bit_cnt b);;
  contains_loop b (Z.to_nat cnt) 0 start value.

Definition bitmap_any (b : bitmap) (start cnt : Z) : res bool :=
  bitmap_contains b start cnt true.

Definition bitmap_none (b : bitmap) (start cnt : Z) : res bool :=
  negb <$> bitmap_contains b start cnt true.

Definition bitmap_all (b : bitmap) (start cnt : Z) : res bool :=
  negb <$> bitmap_contains b start cnt false.

(** [for (i = start; i <= last; i++)], [n] rounds from [i]. *)
Fixpoint scan_loop (b : bitmap) (n : nat) (i cnt : Z) (value : bool) : res Z :=
  match n with
  | O => Ok BITMAP_ERROR
  | S n =>
      c ← bitmap_contains b i cnt (negb value);
      if negb c then Ok i else scan_loop b n (i + 1) cnt value
  end.

Definition bitmap_scan (b : bitmap) (start cnt : Z) (value : bool) : res Z :=
  rassert (start <=? bit_cnt b);;
  if cnt <=? bit_cnt b then
    let last := bit_cnt b - cnt in
    scan_loop b (Z.to_nat (last + 1 - start)) start cnt value
  else Ok BITMAP_ERROR.

Definition bitmap_scan_and_flip (b : bitmap) (start cnt : Z) (value : bool) : res (Z * bitmap) :=
  idx ← bitmap_scan b start cnt value;
  if negb (idx =? BITMAP_ERROR) then
    b' ← bitmap_set_multiple b idx cnt (negb value); Ok (idx, b')
  else Ok (idx, b).

(** [bitmap_create]: the two calls of [malloc] may fail; the memory of the second
    has arbitrary contents, [mem]. *)
Definition bitmap_create (malloc_struct : bool) (malloc_bits : option (list Z)) (bit_cnt : Z)
    : res (option bitmap) :=
  if malloc_struct then
    match malloc_bits with
    | Some mem => Some <$> bitmap_set_all {| bit_cnt := bit_cnt; bits := mem |} false
    | None =>
        if bit_cnt =? 0 then Some <$> bitmap_set_all {| bit_cnt := bit_cnt; bits := [] |} false
        else Ok None
    end
  else Ok None.

(** [sizeof (struct bitmap)] is 8. *)
Definition bitmap_buf_size (bit_cnt : Z) : Z := u32 (8 + byte_cnt bit_cnt).

Definition bitmap_create_in_buf (bit_cnt : Z) (block : list Z) (block_size : Z) : res bitmap :=
  rassert (bitmap_buf_size bit_cnt <=? block_size);;
  bitmap_set_all {| bit_cnt := bit_cnt; bits := block |} false.

Definition bitmap_file_size (b : bitmap) : Z := byte_cnt (bit_cnt b).

(** ** File input and output *)

(** The bytes of a word in memory, least significant first. *)
Definition word_bytes (w : Z) : list Z :=
  [w mod 256; (w / 2 ^ 8) mod 256; (w / 2 ^ 16) mod 256; (w / 2 ^ 24) mod 256].

Definition bytes_of_words (ws : list Z) : list Z := ws ≫= word_bytes.

Fixpoint words_of_bytes (bs : list Z) : list Z :=
  match bs with
  | b0 :: b1 :: b2 :: b3 :: bs' =>
      (b0 + b1 * 2 ^ 8 + b2 * 2 ^ 16 + b3 * 2 ^ 24) :: words_of_bytes bs'
  | _ => []
  end.

(** What bitmap.c uses of a file of filesys/file.c: [file_read_at] and
    [file_write_at] at offset 0, as the bytes read, and as the number of bytes
    written with the file after it. *)
Class FileStore (file : Type) := {
  file_read_at0 : file -> Z -> list Z;
  file_write_at0 : file -> list Z -> Z * file
}.

(** What it relies on: data written in full is what is read back. *)
Class FileStoreLaws (file : Type) `{!FileStore file} : Prop := {
  read_back (f f' : file) (data : list Z) (n : Z) :
    file_write_at0 f data = (n, f') -> n = Zlen data -> file_read_at0 f' n = data
}.

Section FileIO.
Context {file : Type} `{!FileStore file}.

(** The bytes read overwrite the front of the array. *)
Definition bitmap_read (b : bitmap) (f : file) : res (bool * bitmap) :=
  if 0 <? bit_cnt b then
    let size := byte_cnt (bit_cnt b) in
    let data := file_read_at0 f size in
    let success := Zlen data =? size in
    let mem := data ++ drop (length data) (bytes_of_words (bits b)) in
    let b1 := {| bit_cnt := bit_cnt b; bits := words_of_bytes mem |} in
    b2 ← update_elem b1 (elem_cnt (bit_cnt b) - 1) (fun e => Z.land e (last_mask b));
    Ok (success, b2)
  else Ok (true, b).

Definition bitmap_write (b : bitmap) (f : file) : bool * file :=
  let size := byte_cnt (bit_cnt b) in
  let '(n, f') := file_write_at0 f (take (Z.to_nat size) (bytes_of_words (bits b))) in
  (n =? size, f').
End FileIO.

(** * The array of bits *)

Definition bget (b : bitmap) (i : Z) : bool :=
  match bits b !! Z.to_nat (elem_idx i) with
  | Some e => Z.testbit e (i mod ELEM_BITS)
  | None => false
  end.

Definition abs (b : bitmap) : list bool :=
  (fun i => bget b (Z.of_nat i)) <$> seq 0 (Z.to_nat (bit_cnt b)).

Record wf (b : bitmap) : Prop := {
  wf_cnt : 0 <= bit_cnt b;
  wf_fits : bit_cnt b + 31 < 2 ^ 32;
  wf_len : Zlen (bits b) = elem_cnt (bit_cnt b);
  wf_words : Forall (in_u 32) (bits b)
}.

Lemma elem_cnt_eq n : 0 <= n -> n + 31 < 2 ^ 32 -> elem_cnt n = (n + 31) / 32.
Proof.
  intros H1 H2. unfold elem_cnt, DIV_ROUND_UP, ELEM_BITS.
  destruct (decide (n + 32 < 2 ^ 32)).
  - rewrite (uwrap_id 32 ltac:(lia) (n + 32)) by (unfold in_u; lia).
    rewrite uwrap_id by (unfold in_u; lia). f_equal. lia.
  - assert (n + 32 = 2 ^ 32) as E by lia. rewrite E.
    replace (n + 31) with (2 ^ 32 - 1) by lia. reflexivity.
Qed.

Lemma abs_lookup b i :
  0 <= i < bit_cnt b -> abs b !! Z.to_nat i = Some (bget b i).
Proof.
  intros H. unfold abs. rewrite list_lookup_fmap, lookup_seq_lt by lia. cbn.
  by rewrite Z2Nat.id by lia.
Qed.

Lemma abs_length b : length (abs b) = Z.to_nat (bit_cnt b).
Proof. unfold abs. by rewrite length_fmap, length_seq. Qed.

Lemma elem_in_range b i : wf b -> 0 <= i < bit_cnt b -> is_Some (bits b !! Z.to_nat (elem_idx i)).
Proof.
  intros [H1 H2 H3 _] Hi. apply lookup_lt_is_Some.
  rewrite elem_cnt_eq in H3 by done. unfold elem_idx, ELEM_BITS.
  pose proof (Z.div_mod i 32). pose proof (Z.div_mod (bit_cnt b + 31) 32).
  pose proof (Z.mod_pos_bound i 32). pose proof (Z.mod_pos_bound (bit_cnt b + 31) 32).
  lia.
Qed.

Lemma bit_mask_eq i : bit_mask i = 2 ^ (i mod 32).
Proof.
  unfold bit_mask, ELEM_BITS. pose proof (Z.mod_pos_bound i 32).
  rewrite Z.shiftl_1_l, uwrap_id; [done|lia|]. split; [apply Z.pow_nonneg; lia|].
  apply Z.pow_lt_mono_r; lia.
Qed.

Lemma land_bit_test e k : 0 <= k -> negb (Z.land e (2 ^ k) =? 0) = Z.testbit e k.
Proof.
  intros Hk. destruct (Z.testbit e k) eqn:E.
  - apply negb_true_iff, Z.eqb_neq. intros H0. apply (f_equal (fun z => Z.testbit z k)) in H0.
    rewrite Z.land_spec, E, Z.pow2_bits_true, Z.bits_0 in H0 by lia. done.
  - apply negb_false_iff, Z.eqb_eq, Z.bits_inj. intros j. rewrite Z.land_spec, Z.bits_0.
    destruct (decide (j = k)) as [->|Hne]; [by rewrite E|].
    rewrite Z.pow2_bits_false by done. apply andb_false_r.
Qed.

(** ** Single bits *)

Lemma bitmap_test_ok b i : wf b -> 0 <= i < bit_cnt b -> bitmap_test b i = Ok (bget b i).
Proof.
  intros Hw Hi. unfold bitmap_test, bget, rassert.
  rewrite (proj2 (Z.ltb_lt _ _)) by lia. cbn.
  destruct (elem_in_range _ _ Hw Hi) as [e He]. rewrite He.
  rewrite bit_mask_eq, land_bit_test; [done|]. apply Z.mod_pos_bound. lia.
Qed.

Definition word_set (e k : Z) (v : bool) : Z :=
  if v then Z.lor e (2 ^ k) else Z.land e (u32 (Z.lnot (2 ^ k))).

Lemma in_u_testbit w e : 0 < w -> 0 <= e ->
  (forall k, w <= k -> Z.testbit e k = false) -> in_u w e.
Proof.
  intros Hw He H. split; [done|]. apply Z.nle_gt. intros Hle.
  assert (w <= Z.log2 e). { apply Z.log2_le_pow2; [|done]. assert (0 < 2 ^ w) by (apply Z.pow_pos_nonneg; lia). lia. }
  assert (0 < 2 ^ w) by (apply Z.pow_pos_nonneg; lia).
  pose proof (Z.bit_log2 e ltac:(lia)) as Hb. rewrite H in Hb; done.
Qed.

Lemma in_u_bits w e k : 0 < w -> in_u w e -> w <= k -> Z.testbit e k = false.
Proof.
  intros Hw [H1 H2] Hk. destruct (decide (e = 0)) as [->|]; [apply Z.bits_0|].
  apply Z.bits_above_log2; [done|]. apply Z.log2_lt_pow2; [lia|].
  apply (Z.lt_le_trans _ (2 ^ w)); [done|]. apply Z.pow_le_mono_r; lia.
Qed.

Lemma testbit_u32 z k : 0 <= k < 32 -> Z.testbit (u32 z) k = Z.testbit z k.
Proof. intros H. unfold uwrap. apply Z.mod_pow2_bits_low. lia. Qed.

Lemma word_set_spec e k v j :
  0 <= k < 32 -> 0 <= j < 32 ->
  Z.testbit (word_set e k v) j = if decide (j = k) then v else Z.testbit e j.
Proof.
  intros Hk Hj. unfold word_set. destruct v.
  - rewrite Z.lor_spec. case_decide as E.
    + subst. rewrite Z.pow2_bits_true by lia. apply orb_true_r.
    + rewrite Z.pow2_bits_false by done. apply orb_false_r.
  - rewrite Z.land_spec, testbit_u32, Z.lnot_spec by lia. case_decide as E.
    + subst. rewrite Z.pow2_bits_true by lia. apply andb_false_r.
    + rewrite Z.pow2_bits_false by done. apply andb_true_r.
Qed.

Lemma word_set_range e k v : 0 <= k < 32 -> in_u 32 e -> in_u 32 (word_set e k v).
Proof.
  intros Hk He. unfold word_set. destruct v.
  - apply in_u_testbit; [lia|apply Z.lor_nonneg; split; [apply He|apply Z.pow_nonneg; lia]|].
    intros j Hj. rewrite Z.lor_spec, (in_u_bits 32 e), Z.pow2_bits_false by (done || lia). done.
  - apply in_u_testbit; [lia|apply Z.land_nonneg; left; apply He|].
    intros j Hj. by rewrite Z.land_spec, (in_u_bits 32 e) by (done || lia).
Qed.

Lemma bitmap_set_eq b i v :
  wf b -> 0 <= i < bit_cnt b ->
  exists e, bits b !! Z.to_nat (elem_idx i) = Some e /\ in_u 32 e /\
  bitmap_set b i v = Ok {| bit_cnt := bit_cnt b;
    bits := <[Z.to_nat (elem_idx i) := word_set e (i mod 32) v]> (bits b) |}.
Proof.
  intros Hw Hi. destruct (elem_in_range _ _ Hw Hi) as [e He]. exists e. split; [done|].
  split; [eapply Forall_lookup_1; [apply Hw|exact He]|].
  unfold bitmap_set, rassert. rewrite (proj2 (Z.ltb_lt _ _)) by lia. cbn.
  unfold bitmap_mark, bitmap_reset, update_elem. rewrite He, bit_mask_eq. by destruct v.
Qed.

Lemma bitmap_set_ok b i v :
  wf b -> 0 <= i < bit_cnt b ->
  exists b', bitmap_set b i v = Ok b' /\ wf b' /\ bit_cnt b' = bit_cnt b /\
    abs b' = <[Z.to_nat i := v]> (abs b).
Proof.
  intros Hw Hi. destruct (bitmap_set_eq b i v Hw Hi) as (e & He & Hr & ->).
  eexists. split; [done|]. pose proof (Z.mod_pos_bound i 32 ltac:(lia)) as Hm.
  split; [|split; [done|]].
  - destruct Hw as [W1 W2 W3 W4]. split; cbn; [done|done|by rewrite length_insert|].
    apply Forall_insert; [done|]. by apply word_set_range.
  - apply list_eq. intros j. destruct (decide (j < Z.to_nat (bit_cnt b))%nat) as [Hj|Hj].
    2:{ rewrite !lookup_ge_None_2; [done|rewrite length_insert, abs_length; lia|rewrite abs_length; cbn; lia]. }
    set (b' := {| bit_cnt := _; bits := _ |}).
    assert (0 <= Z.of_nat j < bit_cnt b) as Hj' by lia.
    rewrite <- (Nat2Z.id j) at 1. rewrite (abs_lookup b') by done.
    destruct (decide (Z.of_nat j = i)) as [Ej|Ej].
    + subst i. rewrite Nat2Z.id, list_lookup_insert_eq by (rewrite abs_length; lia).
      unfold bget, b'. cbn [bits]. rewrite list_lookup_insert_eq by (by eapply lookup_lt_Some).
      rewrite word_set_spec by done. by rewrite decide_True.
    + rewrite list_lookup_insert_ne by lia. rewrite <- (Nat2Z.id j) at 2.
      rewrite abs_lookup by done. f_equal. unfold bget, b', elem_idx, ELEM_BITS in *. cbn [bits].
      pose proof (Z.mod_pos_bound (Z.of_nat j) 32 ltac:(lia)).
      destruct (decide (Z.of_nat j / 32 = i / 32)) as [Eq|Eq].
      * rewrite Eq, list_lookup_insert_eq by (by eapply lookup_lt_Some).
        rewrite He, word_set_spec by done. rewrite decide_False; [done|].
        intros Em. apply Ej. rewrite (Z.div_mod (Z.of_nat j) 32), (Z.div_mod i 32) by lia. congruence.
      * rewrite list_lookup_insert_ne; [done|]. intros E%Z2Nat.inj; [by apply Eq|apply Z.div_pos; lia..].
Qed.

(** ** Groups of bits *)

Lemma bool_eqb_comm a b : Bool.eqb a b = Bool.eqb b a.
Proof. by destruct a, b. Qed.

Section Groups.
Context (b : bitmap) (Hw : wf b) (start cnt : Z).
Context (Hs : 0 <= start) (Hc : 0 <= cnt) (Hsc : start + cnt <= bit_cnt b).

Lemma group_asserts {A} (k : res A) :
  (rassert (start <=? bit_cnt b);; (rassert (u32 (start + cnt) <=? bit_cnt b);; k)) = k.
Proof using Hw Hs Hc Hsc.
  destruct Hw as [W1 W2 _ _]. unfold rassert.
  rewrite uwrap_id by (unfold in_u; lia). by rewrite !(proj2 (Z.leb_le _ _)) by lia.
Qed.

Lemma group_index i : 0 <= i < cnt -> u32 (start + i) = start + i.
Proof using Hw Hs Hc Hsc. intros Hi. destruct Hw. apply uwrap_id; unfold in_u; lia. Qed.

(** [bitmap_contains] looks for [value] in the group. *)
Lemma contains_loop_ok value n : forall i, 0 <= i -> i + Z.of_nat n = cnt ->
  contains_loop b n i start value =
  Ok (existsb (Bool.eqb value) (take n (drop (Z.to_nat (start + i)) (abs b)))).
Proof using Hw Hs Hc Hsc.
  induction n as [|n IH]; intros i Hi Hn; [done|]. cbn [contains_loop].
  rewrite group_index by lia. rewrite bitmap_test_ok by (done || lia). cbn.
  assert (drop (Z.to_nat (start + i)) (abs b) = bget b (start + i) :: drop (Z.to_nat (start + (i + 1))) (abs b)) as ->.
  { erewrite drop_S by (apply abs_lookup; lia). do 2 f_equal. lia. }
  cbn. rewrite (bool_eqb_comm value). destruct (Bool.eqb (bget b (start + i)) value); [done|].
  rewrite IH by lia. done.
Qed.

Lemma bitmap_contains_ok value :
  bitmap_contains b start cnt value =
  Ok (existsb (Bool.eqb value) (take (Z.to_nat cnt) (drop (Z.to_nat start) (abs b)))).
Proof using Hw Hs Hc Hsc.
  unfold bitmap_contains. rewrite group_asserts, contains_loop_ok by lia. by rewrite Z.add_0_r.
Qed.

Lemma count_loop_ok value n : forall i acc, 0 <= i -> i + Z.of_nat n = cnt ->
  count_loop b n i start value acc =
  Ok (acc + Zlen (List.filter (Bool.eqb value) (take n (drop (Z.to_nat (start + i)) (abs b))))).
Proof using Hw Hs Hc Hsc.
  induction n as [|n IH]; intros i acc Hi Hn; [cbn; by rewrite Z.add_0_r|]. cbn [count_loop].
  rewrite group_index by lia. rewrite bitmap_test_ok by (done || lia). cbn.
  assert (drop (Z.to_nat (start + i)) (abs b) = bget b (start + i) :: drop (Z.to_nat (start + (i + 1))) (abs b)) as ->.
  { erewrite drop_S by (apply abs_lookup; lia). do 2 f_equal. lia. }
  cbn. rewrite (bool_eqb_comm value). rewrite IH by lia.
  destruct (Bool.eqb (bget b (start + i)) value); cbn [length]; f_equal; lia.
Qed.

Lemma bitmap_count_ok value :
  bitmap_count b start cnt value =
  Ok (Zlen (List.filter (Bool.eqb value) (take (Z.to_nat cnt) (drop (Z.to_nat start) (abs b))))).
Proof using Hw Hs Hc Hsc.
  unfold bitmap_count. rewrite group_asserts, count_loop_ok by lia. by rewrite Z.add_0_r.
Qed.
End Groups.

(** [n] elements of [l] from [s] on replaced by [v]. *)
Definition fill {A} (s n : nat) (v : A) (l : list A) : list A :=
  take s l ++ replicate n v ++ drop (s + n) l.

Lemma fill_0 {A} s (v : A) l : fill s 0 v l = l.
Proof. unfold fill. rewrite Nat.add_0_r. apply take_drop. Qed.

Lemma fill_insert {A} s n (v : A) l :
  (s + S n <= length l)%nat -> fill (S s) n v (<[s := v]> l) = fill s (S n) v l.
Proof.
  intros H. unfold fill.
  erewrite take_S_r by (apply list_lookup_insert_eq; lia).
  rewrite take_insert_ge by lia. rewrite <- app_assoc. cbn. do 3 f_equal.
  rewrite drop_insert_lt by lia. f_equal. lia.
Qed.

Lemma set_loop_ok start value n : forall i b,
  wf b -> 0 <= start -> 0 <= i -> start + i + Z.of_nat n <= bit_cnt b ->
  exists b', set_loop n i start value b = Ok b' /\ wf b' /\ bit_cnt b' = bit_cnt b /\
    abs b' = fill (Z.to_nat (start + i)) n value (abs b).
Proof.
  induction n as [|n IH]; intros i b Hw Hs Hi Hn.
  - exists b. cbn. by rewrite fill_0.
  - cbn [set_loop]. destruct Hw as [W1 W2 W3 W4] eqn:EW. rewrite uwrap_id by (unfold in_u; lia).
    destruct (bitmap_set_ok b (start + i) value Hw) as (b1 & -> & Hw1 & Hc1 & Ha1); [lia|]. cbn.
    destruct (IH (i + 1) b1) as (b2 & -> & Hw2 & Hc2 & Ha2); [done|done|lia|lia|].
    exists b2. split_and!; [done|done|congruence|]. rewrite Ha2, Ha1.
    replace (Z.to_nat (start + (i + 1))) with (S (Z.to_nat (start + i))) by lia.
    apply fill_insert. rewrite abs_length. lia.
Qed.

Lemma bitmap_set_multiple_ok b start cnt value :
  wf b -> 0 <= start -> 0 <= cnt -> start + cnt <= bit_cnt b ->
  exists b', bitmap_set_multiple b start cnt value = Ok b' /\ wf b' /\ bit_cnt b' = bit_cnt b /\
    abs b' = fill (Z.to_nat start) (Z.to_nat cnt) value (abs b).
Proof.
  intros Hw Hs Hc Hsc. unfold bitmap_set_multiple. rewrite group_asserts by done.
  destruct (set_loop_ok start value (Z.to_nat cnt) 0 b) as (b' & H); [done|done|done|lia|].
  exists b'. by rewrite Z.add_0_r in H.
Qed.

Lemma bitmap_set_all_ok b value :
  wf b -> exists b', bitmap_set_all b value = Ok b' /\ wf b' /\ bit_cnt b' = bit_cnt b /\
    abs b' = replicate (Z.to_nat (bit_cnt b)) value.
Proof.
  intros Hw. destruct (bitmap_set_multiple_ok b 0 (bitmap_size b) value) as (b' & H1 & H2 & H3 & H4);
    [done|lia|apply Hw|unfold bitmap_size; lia|].
  exists b'. split_and!; [done|done|done|]. rewrite H4. unfold fill, bitmap_size. cbn.
  rewrite drop_ge by (rewrite abs_length; lia). by rewrite app_nil_r.
Qed.

(** ** Searching *)

(** [cnt] bits from [i] on all have value [v] and lie within the bitmap. *)
Definition group_is (l : list bool) (i cnt : nat) (v : bool) : Prop :=
  (i + cnt <= length l)%nat /\ take cnt (drop i l) = replicate cnt v.

Lemma existsb_negb_false v (l : list bool) :
  existsb (Bool.eqb (negb v)) l = false <-> l = replicate (length l) v.
Proof.
  induction l as [|x l IH]; [done|]. cbn. rewrite orb_false_iff, IH.
  split; [intros [H1 ->]|intros [= -> H]]; [|split; [by destruct v|done]].
  f_equal; [by destruct v, x|]. by rewrite length_replicate.
Qed.

Lemma contains_group b i cnt v :
  wf b -> 0 <= i -> 0 <= cnt -> i + cnt <= bit_cnt b ->
  exists c, bitmap_contains b i cnt (negb v) = Ok c /\
    (c = false <-> group_is (abs b) (Z.to_nat i) (Z.to_nat cnt) v).
Proof.
  intros Hw Hi Hc Hic. eexists. rewrite bitmap_contains_ok by done. split; [done|].
  rewrite existsb_negb_false. unfold group_is.
  rewrite length_take, length_drop, abs_length, Nat.min_l by lia.
  split; [intros H; split; [lia|done]|by intros [_ H]].
Qed.

Lemma scan_loop_ok b cnt v n : forall i,
  wf b -> 0 <= i -> 0 <= cnt <= bit_cnt b -> i + Z.of_nat n <= bit_cnt b - cnt + 1 ->
  (exists k, scan_loop b n i cnt v = Ok k /\ i <= k < i + Z.of_nat n /\
     group_is (abs b) (Z.to_nat k) (Z.to_nat cnt) v /\
     forall j, i <= j < k -> ~ group_is (abs b) (Z.to_nat j) (Z.to_nat cnt) v) \/
  (scan_loop b n i cnt v = Ok BITMAP_ERROR /\
     forall j, i <= j < i + Z.of_nat n -> ~ group_is (abs b) (Z.to_nat j) (Z.to_nat cnt) v).
Proof.
  induction n as [|n IH]; intros i Hw Hi Hc Hn.
  - right. split; [done|]. lia.
  - cbn [scan_loop]. destruct (contains_group b i cnt v Hw Hi) as (c & -> & Hg); [lia|lia|]. cbn.
    destruct c; cbn.
    + destruct (IH (i + 1) Hw) as [(k & -> & Hk & Hgk & Hmin)|[-> Hmin]]; [lia|done|lia| |].
      * left. exists k. split_and!; [done|lia|lia|done|]. intros j Hj.
        destruct (decide (j = i)) as [->|]; [|apply Hmin; lia].
        intros Habs%Hg. done.
      * right. split; [done|]. intros j Hj. destruct (decide (j = i)) as [->|]; [|apply Hmin; lia].
        intros Habs%Hg. done.
    + left. exists i. split_and!; [done|lia|lia|by apply Hg|lia].
Qed.

Lemma bitmap_scan_ok b start cnt v :
  wf b -> 0 <= start <= bit_cnt b -> 0 <= cnt ->
  (exists k, bitmap_scan b start cnt v = Ok k /\ start <= k <= bit_cnt b /\
     group_is (abs b) (Z.to_nat k) (Z.to_nat cnt) v /\
     forall j, start <= j < k -> ~ group_is (abs b) (Z.to_nat j) (Z.to_nat cnt) v) \/
  (bitmap_scan b start cnt v = Ok BITMAP_ERROR /\
     forall j, start <= j -> ~ group_is (abs b) (Z.to_nat j) (Z.to_nat cnt) v).
Proof.
  intros Hw Hs Hc. unfold bitmap_scan, rassert. rewrite (proj2 (Z.leb_le start (bit_cnt b))) by lia. cbn.
  destruct (Z.leb_spec cnt (bit_cnt b)).
  - destruct (decide (start <= bit_cnt b - cnt + 1)) as [Hin|Hout].
    + destruct (scan_loop_ok b cnt v (Z.to_nat (bit_cnt b - cnt + 1 - start)) start)
        as [(k & -> & Hk & Hg & Hm)|[-> Hm]]; [done|lia|lia|lia| |].
      * left. exists k. split_and!; [done|lia|lia|done|done].
      * right. split; [done|]. intros j Hj [Hg1 Hg2]. rewrite abs_length in Hg1.
        apply (Hm j); [lia|]. split; [rewrite abs_length; lia|done].
    + replace (Z.to_nat (bit_cnt b - cnt + 1 - start)) with 0%nat by lia.
      right. split; [done|]. intros j Hj [Hg1 _]. rewrite abs_length in Hg1. lia.
  - right. split; [done|]. intros j Hj [Hg1 _]. rewrite abs_length in Hg1. lia.
Qed.

Lemma group_not_error b k : wf b -> 0 <= k <= bit_cnt b -> (k =? BITMAP_ERROR) = false.
Proof. intros [_ H _ _] Hk. apply Z.eqb_neq. unfold BITMAP_ERROR. lia. Qed.

Lemma scan_and_flip_ok b start cnt v :
  wf b -> 0 <= start <= bit_cnt b -> 0 <= cnt ->
  (exists k b', bitmap_scan_and_flip b start cnt v = Ok (k, b') /\ k <> BITMAP_ERROR /\
     start <= k /\ k + cnt <= bit_cnt b /\ wf b' /\ bit_cnt b' = bit_cnt b /\
     group_is (abs b) (Z.to_nat k) (Z.to_nat cnt) v /\
     (forall j, start <= j < k -> ~ group_is (abs b) (Z.to_nat j) (Z.to_nat cnt) v) /\
     abs b' = fill (Z.to_nat k) (Z.to_nat cnt) (negb v) (abs b)) \/
  (bitmap_scan_and_flip b start cnt v = Ok (BITMAP_ERROR, b) /\
     forall j, start <= j -> ~ group_is (abs b) (Z.to_nat j) (Z.to_nat cnt) v).
Proof.
  intros Hw Hs Hc. unfold bitmap_scan_and_flip.
  destruct (bitmap_scan_ok b start cnt v Hw Hs Hc) as [(k & -> & Hk & Hg & Hm)|[-> Hm]].
  - cbn. rewrite (group_not_error b k Hw) by lia. cbn.
    pose proof Hg as [Hlen _]. rewrite abs_length in Hlen.
    destruct (bitmap_set_multiple_ok b k cnt (negb v) Hw) as (b' & -> & H1 & H2 & H3);
      [lia|lia|lia|].
    left. exists k, b'. split_and!; try done || lia.
    apply Z.eqb_neq, (group_not_error b k Hw). lia.
  - right. done.
Qed.

(** ** Files *)

Lemma word_bytes_inv w bs :
  in_u 32 w -> words_of_bytes (word_bytes w ++ bs) = w :: words_of_bytes bs.
Proof.
  intros [H1 H2]. cbn. f_equal.
  pose proof (Z.div_mod w 256). pose proof (Z.div_mod (w / 256) 256).
  pose proof (Z.div_mod (w / 256 / 256) 256). pose proof (Z.div_mod (w / 256 / 256 / 256) 256).
  change (2 ^ 8) with 256 in *. change (2 ^ 16) with (256 * 256). change (2 ^ 24) with (256 * 256 * 256).
  rewrite <- !Z.div_div by lia.
  assert (w / 256 / 256 / 256 / 256 = 0). { rewrite !Z.div_div by lia. apply Z.div_small. lia. }
  lia.
Qed.

Lemma words_bytes_inv ws : Forall (in_u 32) ws -> words_of_bytes (bytes_of_words ws) = ws.
Proof.
  induction 1 as [|w ws Hw Hws IH]; [done|].
  change (bytes_of_words (w :: ws)) with (word_bytes w ++ bytes_of_words ws).
  by rewrite word_bytes_inv, IH.
Qed.

Lemma bytes_of_words_length ws : length (bytes_of_words ws) = (4 * length ws)%nat.
Proof.
  induction ws as [|w ws IH]; [done|].
  change (bytes_of_words (w :: ws)) with (word_bytes w ++ bytes_of_words ws).
  rewrite length_app, IH. cbn. lia.
Qed.

Lemma byte_cnt_len b : wf b -> byte_cnt (bit_cnt b) = Zlen (bytes_of_words (bits b)).
Proof.
  intros [W1 W2 W3 W4]. rewrite bytes_of_words_length. unfold byte_cnt, SIZEOF_ELEM.
  rewrite <- W3. rewrite elem_cnt_eq in W3 by done.
  pose proof (Z.div_mod (bit_cnt b + 31) 32). pose proof (Z.mod_pos_bound (bit_cnt b + 31) 32).
  rewrite uwrap_id; unfold in_u; lia.
Qed.

(** Clearing the unused bits of the last word changes no bit of the bitmap. *)
Lemma last_mask_bit b k :
  0 <= k < 32 -> (bit_cnt b mod 32 = 0 \/ k < bit_cnt b mod 32) -> Z.testbit (last_mask b) k = true.
Proof.
  intros Hk Hb. unfold last_mask, ELEM_BITS.
  destruct (Z.eqb_spec (bit_cnt b mod 32) 0) as [E|E].
  - rewrite testbit_u32 by done. apply Z.bits_m1. lia.
  - destruct Hb as [|Hb]; [done|]. rewrite testbit_u32 by done.
    pose proof (Z.mod_pos_bound (bit_cnt b) 32 ltac:(lia)).
    rewrite Z.shiftl_1_l.
    assert (in_u 32 (2 ^ (bit_cnt b mod 32))) as Hp
      by (split; [apply Z.pow_nonneg; lia|apply Z.pow_lt_mono_r; lia]).
    rewrite (uwrap_id 32 ltac:(lia) _ Hp).
    rewrite Z.sub_1_r, <- Z.ones_equiv, Z.testbit_ones_nonneg by lia. by apply Z.ltb_lt.
Qed.

Lemma mask_last_ok b :
  wf b -> 0 < bit_cnt b ->
  exists b', update_elem b (elem_cnt (bit_cnt b) - 1) (fun e => Z.land e (last_mask b)) = Ok b' /\
    wf b' /\ bit_cnt b' = bit_cnt b /\ abs b' = abs b.
Proof.
  intros Hw Hp. pose proof Hw as [W1 W2 W3 W4]. set (n := Z.to_nat (elem_cnt (bit_cnt b) - 1)).
  pose proof (elem_cnt_eq _ W1 W2) as He.
  assert (1 <= elem_cnt (bit_cnt b)) as Hge by (rewrite He; apply Z.div_le_lower_bound; lia).
  assert (is_Some (bits b !! n)) as [e Hn] by (apply lookup_lt_is_Some; lia).
  unfold update_elem. fold n. rewrite Hn. eexists. split; [done|].
  split; [|split; [done|]].
  - split; cbn; [done|done|by rewrite length_insert|]. apply Forall_insert; [done|].
    pose proof (Forall_lookup_1 _ _ _ _ W4 Hn) as [Hr1 Hr2].
    apply in_u_testbit; [lia|apply Z.land_nonneg; by left|].
    intros k Hk. by rewrite Z.land_spec, (in_u_bits 32 e) by (done || lia).
  - unfold abs. cbn [bit_cnt]. apply list_fmap_ext. intros i x [-> Hx]%lookup_seq. cbn.
    unfold bget, elem_idx, ELEM_BITS. cbn [bits].
    destruct (decide (Z.to_nat (Z.of_nat i / 32) = n)) as [E|E].
    2:{ by rewrite list_lookup_insert_ne by done. }
    rewrite E, list_lookup_insert_eq by (by eapply lookup_lt_Some). rewrite Hn, Z.land_spec.
    pose proof (Z.mod_pos_bound (Z.of_nat i) 32 ltac:(lia)) as Hm.
    rewrite last_mask_bit; [apply andb_true_r|done|].
    pose proof (Z.div_mod (Z.of_nat i) 32). pose proof (Z.div_mod (bit_cnt b) 32).
    pose proof (Z.mod_pos_bound (bit_cnt b) 32). pose proof (Z.div_mod (bit_cnt b + 31) 32).
    pose proof (Z.mod_pos_bound (bit_cnt b + 31) 32). lia.
Qed.

Section FileRoundTrip.
Context {file : Type} `{!FileStore file} `{!FileStoreLaws file}.

Lemma bitmap_write_read b b0 f f' :
  wf b -> wf b0 -> bit_cnt b0 = bit_cnt b -> bitmap_write b f = (true, f') ->
  exists b', bitmap_read b0 f' = Ok (true, b') /\ wf b' /\ abs b' = abs b.
Proof.
  intros Hw Hw0 Hc Hwr. unfold bitmap_write in Hwr. rewrite (byte_cnt_len b Hw) in Hwr.
  rewrite Nat2Z.id, take_ge in Hwr by done.
  destruct (file_write_at0 f (bytes_of_words (bits b))) as [n f1] eqn:E.
  injection Hwr as Hn%Z.eqb_eq ->.
  pose proof (read_back f f' _ n E Hn) as Hr. unfold bitmap_read.
  destruct (Z.ltb_spec 0 (bit_cnt b0)) as [Hpos|Hz].
  2:{ exists b0. split_and!; [done|done|]. unfold abs. rewrite Hc.
      by replace (Z.to_nat (bit_cnt b)) with 0%nat by lia. }
  rewrite Hc, (byte_cnt_len b Hw). rewrite Hn in Hr. cbv zeta.
  rewrite Hr, Z.eqb_refl.
  assert (length (bytes_of_words (bits b)) = length (bytes_of_words (bits b0))) as Hl.
  { apply Nat2Z.inj. rewrite <- (byte_cnt_len b), <- (byte_cnt_len b0) by done. by rewrite Hc. }
  rewrite Hl, drop_ge, app_nil_r, words_bytes_inv by (done || apply Hw).
  destruct (mask_last_ok b Hw) as (b' & Hm & Hw' & Hc' & Ha); [lia|].
  assert (last_mask b0 = last_mask b) as -> by (unfold last_mask; by rewrite Hc).
  replace {| bit_cnt := bit_cnt b; bits := bits b |} with b by (by destruct b).
  exists b'. by rewrite Hm.
Qed.
End FileRoundTrip.

(** * Main theorems *)

Definition demo_bitmap : bitmap := {| bit_cnt := 40; bits := [2 ^ 32 - 1; 0] |}.

Lemma demo_wf : wf demo_bitmap.
Proof. split; [cbn; lia..|reflexivity|]. repeat constructor; cbn; lia. Qed.

(** [bitmap_set] with an index inside the bitmap changes that bit and no
    other, [bitmap_test] reads the bit, and outside the bitmap both stop at their
    assertion. *)
Theorem bitmap_set_test_spec b i v :
  wf b -> 0 <= i ->
  (i < bit_cnt b ->
     exists b', bitmap_set b i v = Ok b' /\ wf b' /\ abs b' = <[Z.to_nat i := v]> (abs b) /\
       bitmap_test b i = Ok (bget b i) /\ bitmap_test b' i = Ok v) /\
  (bit_cnt b <= i -> bitmap_set b i v = Err EAssert /\ bitmap_test b i = Err EAssert).
Proof.
  intros Hw Hi. split; intros H.
  - destruct (bitmap_set_ok b i v Hw) as (b' & H1 & H2 & H3 & H4); [lia|].
    exists b'. split_and!; [done|done|done|by apply bitmap_test_ok|].
    rewrite bitmap_test_ok by (done || lia). f_equal.
    apply (f_equal (fun l => l !! Z.to_nat i)) in H4.
    rewrite abs_lookup, list_lookup_insert_eq in H4 by (rewrite ?abs_length; lia). congruence.
  - unfold bitmap_set, bitmap_test, rassert. by rewrite (proj2 (Z.ltb_ge _ _)) by lia.
Qed.

Lemma bitmap_set_test_spec_witness :
  exists b', bitmap_set demo_bitmap 35 true = Ok b' /\ bitmap_test b' 35 = Ok true.
Proof.
  destruct (bitmap_set_test_spec demo_bitmap 35 true demo_wf ltac:(lia)) as [H _].
  destruct (H ltac:(cbn; lia)) as (b' & H1 & _ & _ & _ & H2). exists b'. split; [exact H1|exact H2].
Defined.

(** C5: [bitmap_scan_and_flip] is first fit: when it returns an index, the group of
    [cnt] bits there was all [value], no group from [start] to it was, and exactly
    that group has been flipped; when it returns [BITMAP_ERROR] there is no such
    group at or after [start] and the bitmap is unchanged.  For [cnt] 0 the index is
    [start], and not 0 as the comment of the function says. *)
Theorem bitmap_scan_and_flip_spec b start cnt v :
  wf b -> 0 <= start <= bit_cnt b -> 0 <= cnt ->
  (exists k b', bitmap_scan_and_flip b start cnt v = Ok (k, b') /\ k <> BITMAP_ERROR /\
     start <= k /\ k + cnt <= bit_cnt b /\ wf b' /\ bit_cnt b' = bit_cnt b /\
     group_is (abs b) (Z.to_nat k) (Z.to_nat cnt) v /\
     (forall j, start <= j < k -> ~ group_is (abs b) (Z.to_nat j) (Z.to_nat cnt) v) /\
     abs b' = fill (Z.to_nat k) (Z.to_nat cnt) (negb v) (abs b)) \/
  (bitmap_scan_and_flip b start cnt v = Ok (BITMAP_ERROR, b) /\
     forall j, start <= j -> ~ group_is (abs b) (Z.to_nat j) (Z.to_nat cnt) v).
Proof. apply scan_and_flip_ok. Qed.

Lemma bitmap_scan_and_flip_spec_witness :
  bitmap_scan_and_flip demo_bitmap 3 4 false =
    Ok (32, {| bit_cnt := 40; bits := [2 ^ 32 - 1; 15] |}) /\
  ~ group_is (abs demo_bitmap) 5 4 false.
Proof.
  destruct (bitmap_scan_and_flip_spec demo_bitmap 3 4 false demo_wf) as [(k & b' & H)|[H _]];
    [cbn; lia|lia| |vm_compute in H; discriminate].
  destruct H as (H1 & _ & _ & _ & _ & _ & _ & H2 & _).
  assert (k = 32) as ->. { vm_compute in H1. injection H1 as H1 _. exact (eq_sym H1). }
  split; [reflexivity|]. apply (H2 5). lia.
Defined.

(** a bitmap written to a file with [bitmap_write] and read back with
    [bitmap_read] into a bitmap of the same size has the same bits, for every file
    that returns what was written to it. *)
Theorem bitmap_file_roundtrip file (FS : FileStore file) b b0 (f f' : file) :
  FileStoreLaws file -> wf b -> wf b0 -> bit_cnt b0 = bit_cnt b ->
  bitmap_write b f = (true, f') ->
  exists b', bitmap_read b0 f' = Ok (true, b') /\ wf b' /\ abs b' = abs b.
Proof. intros L. apply bitmap_write_read. Qed.

(** A file that is the bytes it holds. *)
Definition demo_store : FileStore (list Z) :=
  {| file_read_at0 f n := take (Z.to_nat n) f; file_write_at0 f data := (Zlen data, data) |}.

Lemma bitmap_file_roundtrip_witness :
  exists b', @bitmap_read _ demo_store {| bit_cnt := 40; bits := [5; 7] |}
      (snd (@bitmap_write _ demo_store demo_bitmap [])) = Ok (true, b') /\
    abs b' = abs demo_bitmap.
Proof.
  destruct (bitmap_file_roundtrip (list Z) demo_store demo_bitmap
    {| bit_cnt := 40; bits := [5; 7] |} [] (snd (@bitmap_write _ demo_store demo_bitmap [])))
    as (b' & H1 & _ & H2).
  - split. cbn. intros f f' data n H Hn. injection H as H1 H2. subst f' n.
    rewrite Nat2Z.id. apply take_ge. reflexivity.
  - exact demo_wf.
  - split; [cbn; lia..|reflexivity|]. repeat constructor; cbn; lia.
  - reflexivity.
  - reflexivity.
  - exists b'. split; [exact H1|exact H2].
Defined.
