(* ===== verification/Palloc.v ===== *)
(** Pages of memory: the address arithmetic of threads/vaddr.h and the page
    allocator of threads/palloc.c.

    Memory is given by pages, each the list of its 1024 words, at their kernel
    virtual addresses.  The lock of a pool protects the search of its bitmap; a
    call of the allocator is one transition of the model. *)
From Stdlib Require Import ZArith Lia.
From stdpp Require Import base numbers sorting gmap list.
From S2P Require Import Prelude.
From S2P Require Import Bitmap.

Local Open Scope Z_scope.

(** * Virtual addresses *)

Definition NULL : Z := 0.

Definition PGBITS : Z := 12.
Definition PGSIZE : Z := 4096.
Definition PGMASK : Z := 4095.
Definition PHYS_BASE : Z := 0xc0000000.

Definition pg_ofs (va : Z) : Z := Z.land va PGMASK.
Definition pg_no (va : Z) : Z := Z.shiftr va PGBITS.
Definition pg_round_up (va : Z) : Z := Z.land (u32 (va + PGSIZE - 1)) (u32 (Z.lnot PGMASK)).
Definition pg_round_down (va : Z) : Z := Z.land va (u32 (Z.lnot PGMASK)).

Definition is_user_vaddr (va : Z) : bool := va <? PHYS_BASE.
Definition is_kernel_vaddr (va : Z) : bool := PHYS_BASE <=? va.

(** The 1:1 mapping of physical memory at [PHYS_BASE]. *)
Definition ptov (pa : Z) : res Z := rassert (pa <? PHYS_BASE);; Ok (u32 (pa + PHYS_BASE)).
Definition vtop (va : Z) : res Z := rassert (is_kernel_vaddr va);; Ok (va - PHYS_BASE).

(** * The allocator *)

Record pool := { used_map : bitmap; base : Z }.

Record pmem := mkMem { kernel_pool : pool; user_pool : pool; pages : gmap Z (list Z) }.

Abbreviation pM := (st pmem).

(** The bits of [enum palloc_flags]. *)
Definition PAL_ASSERT : Z := 1.
Definition PAL_ZERO : Z := 2.
Definition PAL_USER : Z := 4.

Definition set_pool (user : bool) (p : pool) (m : pmem) : pmem :=
  if user then mkMem (kernel_pool m) p (pages m) else mkMem p (user_pool m) (pages m).

Definition get_pool (user : bool) (m : pmem) : pool :=
  if user then user_pool m else kernel_pool m.

(** [memset (a, byte, PGSIZE * n)] of [n] pages, [w] the word of four such bytes. *)
Fixpoint fill_pages (a : Z) (n : nat) (w : Z) (pg : gmap Z (list Z)) : gmap Z (list Z) :=
  match n with
  | O => pg
  | S n => <[a := replicate 1024 w]> (fill_pages (a + PGSIZE) n w pg)
  end.

Definition memset_pages (a cnt w : Z) : pM unit := fun m =>
  Ok (tt, mkMem (kernel_pool m) (user_pool m) (fill_pages a (Z.to_nat cnt) w (pages m))).

Definition lift {A} (r : res A) : pM A := fun m =>
  match r with
  | Ok a => Ok (a, m)
  | Err e => Err e
  end.

(** The bitmap takes the first pages of the pool.  [buf] is what the memory for
    its bits holds before. *)
Definition init_pool (start page_cnt : Z) (buf : list Z) : res pool :=
  let bm_pages := DIV_ROUND_UP (bitmap_buf_size page_cnt) PGSIZE in
  if page_cnt <? bm_pages then Err EPanic else
  let page_cnt := page_cnt - bm_pages in
  b ← bitmap_create_in_buf page_cnt (take (Z.to_nat (elem_cnt page_cnt)) buf) (u32 (bm_pages * PGSIZE));
  Ok {| used_map := b; base := start + bm_pages * PGSIZE |}.

(** [ram] is [init_ram_pages]; [kbuf] and [ubuf] are what the memory of the two
    bitmaps holds before. *)
Definition palloc_init (ram user_page_limit : Z) (kbuf ubuf : list Z) (pg : gmap Z (list Z)) : res pmem :=
  free_start ← ptov (1024 * 1024);
  free_end ← ptov (u32 (ram * PGSIZE));
  let free_pages := u32 (free_end - free_start) / PGSIZE in
  let user_pages := free_pages / 2 in
  let user_pages := if user_page_limit <? user_pages then user_page_limit else user_pages in
  let kernel_pages := free_pages - user_pages in
  kp ← init_pool free_start kernel_pages kbuf;
  up ← init_pool (free_start + kernel_pages * PGSIZE) user_pages ubuf;
  Ok (mkMem kp up pg).

Definition palloc_get_multiple (flags page_cnt : Z) : pM Z :=
  if page_cnt =? 0 then mret NULL else
  let user := negb (Z.land flags PAL_USER =? 0) in
  m ← st_get;
  let p := get_pool user m in
  r ← lift (bitmap_scan_and_flip (used_map p) 0 page_cnt false);
  let '(page_idx, b) := r in
  st_put (set_pool user {| used_map := b; base := base p |} m);;
  let result := if negb (page_idx =? BITMAP_ERROR) then base p + PGSIZE * page_idx else NULL in
  (if negb (result =? NULL) then
     if negb (Z.land flags PAL_ZERO =? 0) then memset_pages result page_cnt 0 else mret tt
   else if negb (Z.land flags PAL_ASSERT =? 0) then st_fail EPanic else mret tt);;
  mret result.

Definition palloc_get_page (flags : Z) : pM Z := palloc_get_multiple flags 1.

Definition page_from_pool (p : pool) (page : Z) : bool :=
  let page_no := pg_no page in
  let start_page := pg_no (base p) in
  let end_page := start_page + bitmap_size (used_map p) in
  (start_page <=? page_no) && (page_no <? end_page).

(** The pages are overwritten with bytes 0xcc. *)
Definition palloc_free_multiple (a page_cnt : Z) : pM unit :=
  assert (pg_ofs a =? 0);;
  if (a =? NULL) || (page_cnt =? 0) then mret tt else
  m ← st_get;
  user ← (if page_from_pool (kernel_pool m) a then mret false
          else if page_from_pool (user_pool m) a then mret true
          else st_fail EPanic);
  let p := get_pool user m in
  let page_idx := pg_no a - pg_no (base p) in
  memset_pages a page_cnt 0xcccccccc;;
  all ← lift (bitmap_all (used_map p) page_idx page_cnt);
  assert all;;
  b ← lift (bitmap_set_multiple (used_map p) page_idx page_cnt false);
  m' ← st_get;
  st_put (set_pool user {| used_map := b; base := base p |} m').

Definition palloc_free_page (a : Z) : pM unit := palloc_free_multiple a 1.

(** * Address arithmetic *)

Lemma pg_ofs_mod va : pg_ofs va = va mod PGSIZE.
Proof. unfold pg_ofs, PGMASK, PGSIZE. change 4095 with (Z.ones 12). apply Z.land_ones. lia. Qed.

Lemma pg_no_div va : pg_no va = va / PGSIZE.
Proof. unfold pg_no, PGBITS, PGSIZE. apply Z.shiftr_div_pow2. lia. Qed.

Lemma pg_round_down_eq x : in_u 32 x -> pg_round_down x = x / PGSIZE * PGSIZE.
Proof.
  intros Hx. unfold pg_round_down, PGMASK, PGSIZE. change (u32 (Z.lnot 4095)) with (Z.ldiff (Z.ones 32) (Z.ones 12)).
  assert (Z.land x (Z.ldiff (Z.ones 32) (Z.ones 12)) = Z.ldiff x (Z.ones 12)) as ->.
  { apply Z.bits_inj'. intros n Hn. rewrite Z.land_spec, !Z.ldiff_spec.
    destruct (Z.lt_ge_cases n 32).
    - rewrite (Z.ones_spec_low 32) by lia. by destruct (Z.testbit x n).
    - by rewrite (in_u_bits 32 x n) by (done || lia). }
  rewrite Z.ldiff_ones_r by lia. rewrite Z.shiftr_div_pow2, Z.shiftl_mul_pow2 by lia. done.
Qed.

(** * Pages in use *)

Record pool_ok (p : pool) : Prop := {
  po_map : wf (used_map p);
  po_aligned : base p mod PGSIZE = 0;
  po_low : PHYS_BASE <= base p;
  po_high : base p + PGSIZE * bit_cnt (used_map p) <= 2 ^ 32
}.

Definition in_pool (p : pool) (a : Z) : Prop :=
  a mod PGSIZE = 0 /\ base p <= a < base p + PGSIZE * bit_cnt (used_map p).

(** The bit of the page at [a]. *)
Definition page_bit (p : pool) (a : Z) : bool := bget (used_map p) ((a - base p) / PGSIZE).

Record mem_ok (m : pmem) : Prop := {
  mo_kernel : pool_ok (kernel_pool m);
  mo_user : pool_ok (user_pool m);
  mo_disjoint : base (kernel_pool m) + PGSIZE * bit_cnt (used_map (kernel_pool m)) <= base (user_pool m)
}.

Definition pool_used (p : pool) (a : Z) : Prop := in_pool p a /\ page_bit p a = true.

Definition used (m : pmem) (a : Z) : Prop := pool_used (kernel_pool m) a \/ pool_used (user_pool m) a.

(** The pages of a group of [cnt] from [a] on. *)
Definition group (a cnt b : Z) : Prop := exists i, 0 <= i < cnt /\ b = a + PGSIZE * i.

Lemma fill_lookup {A} s n (v : A) l i :
  (s + n <= length l)%nat -> fill s n v l !! i = if decide (s <= i < s + n)%nat then Some v else l !! i.
Proof.
  intros H. unfold fill. destruct (decide (i < s)%nat).
  { rewrite lookup_app_l, lookup_take_lt by (rewrite ?length_take; lia). by rewrite decide_False by lia. }
  rewrite lookup_app_r, length_take, Nat.min_l by (rewrite ?length_take; lia).
  destruct (decide (i < s + n)%nat).
  - rewrite lookup_app_l by (rewrite length_replicate; lia). rewrite decide_True by lia.
    apply lookup_replicate_2. lia.
  - rewrite lookup_app_r by (rewrite length_replicate; lia). rewrite decide_False by lia.
    rewrite length_replicate, lookup_drop. f_equal. lia.
Qed.

Lemma bget_fill b b' k cnt v i :
  bit_cnt b' = bit_cnt b -> abs b' = fill (Z.to_nat k) (Z.to_nat cnt) v (abs b) ->
  0 <= k -> 0 <= cnt -> k + cnt <= bit_cnt b -> 0 <= i < bit_cnt b ->
  bget b' i = if decide (k <= i < k + cnt) then v else bget b i.
Proof.
  intros Hc Ha Hk Hn Hl Hi. pose proof (abs_lookup b' i ltac:(lia)) as H1. rewrite Ha, fill_lookup in H1.
  - pose proof (abs_lookup b i Hi) as H2. rewrite H2 in H1. repeat case_decide; (lia || congruence).
  - rewrite abs_length. lia.
Qed.

Lemma group_bit b k cnt v i :
  group_is (abs b) (Z.to_nat k) (Z.to_nat cnt) v -> 0 <= k -> k <= i < k + cnt -> i < bit_cnt b -> bget b i = v.
Proof.
  intros [_ Hg] Hk Hi Hl. pose proof (abs_lookup b i ltac:(lia)) as H1.
  assert (take (Z.to_nat cnt) (drop (Z.to_nat k) (abs b)) !! Z.to_nat (i - k) = Some (bget b i)) as H2.
  { rewrite lookup_take_lt, lookup_drop by lia. rewrite <- H1. f_equal. lia. }
  rewrite Hg, lookup_replicate in H2. by destruct H2.
Qed.

(** The address of a page of a pool and its index. *)
Lemma in_pool_index p a : pool_ok p ->
  in_pool p a <-> exists i, 0 <= i < bit_cnt (used_map p) /\ a = base p + PGSIZE * i.
Proof.
  intros [_ Ha _ _]. unfold in_pool, PGSIZE in *. split.
  - intros [H1 H2]. exists ((a - base p) / 4096).
    pose proof (Z.div_mod a 4096). pose proof (Z.div_mod (base p) 4096).
    assert (a - base p = (a / 4096 - base p / 4096) * 4096) as -> by lia. rewrite Z.div_mul by lia. lia.
  - intros (i & Hi & ->). split; [|lia]. rewrite <- Ha, Z.mul_comm. apply Z.mod_add. lia.
Qed.

Lemma page_bit_index p i : page_bit p (base p + PGSIZE * i) = bget (used_map p) i.
Proof.
  unfold page_bit, PGSIZE. f_equal. replace (base p + 4096 * i - base p) with (i * 4096) by lia.
  by apply Z.div_mul.
Qed.

Lemma get_set_pool u v p m : get_pool u (set_pool v p m) = if Bool.eqb u v then p else get_pool u m.
Proof. by destruct u, v. Qed.

Lemma pages_set_pool v p m : pages (set_pool v p m) = pages m.
Proof. by destruct v. Qed.

Lemma get_pool_ok u m : mem_ok m -> pool_ok (get_pool u m).
Proof. intros []. by destruct u. Qed.

(** A group of a pool with its bits set or cleared. *)
Lemma pool_set_bits p b' k cnt v :
  pool_ok p -> wf b' -> bit_cnt b' = bit_cnt (used_map p) -> 0 <= k -> 0 <= cnt -> k + cnt <= bit_cnt (used_map p) ->
  abs b' = fill (Z.to_nat k) (Z.to_nat cnt) v (abs (used_map p)) ->
  let p' := {| used_map := b'; base := base p |} in
  pool_ok p' /\
  forall a, pool_used p' a <-> if v then pool_used p a \/ group (base p + PGSIZE * k) cnt a
                               else pool_used p a /\ ~ group (base p + PGSIZE * k) cnt a.
Proof.
  intros Hp Hw Hc Hk Hn Hl Ha p'.
  assert (pool_ok p') as Hp' by (destruct Hp; split; cbn; rewrite ?Hc; done).
  split; [done|]. intros a. unfold pool_used.
  assert (in_pool p' a <-> in_pool p a) as Hin by (unfold in_pool; cbn; by rewrite Hc).
  rewrite Hin. assert (group (base p + PGSIZE * k) cnt a -> in_pool p a) as Hgp.
  { intros (j & Hj & ->). apply in_pool_index; [done|]. exists (k + j). unfold PGSIZE. lia. }
  destruct (Z.eq_dec (a mod PGSIZE) 0) as [Hm|Hm]; [|unfold in_pool in *; destruct v; naive_solver].
  destruct (decide (base p <= a < base p + PGSIZE * bit_cnt (used_map p))) as [Hr|Hr];
    [|unfold in_pool in *; destruct v; naive_solver].
  destruct (proj1 (in_pool_index p a Hp) (conj Hm Hr)) as (i & Hi & ->). rewrite page_bit_index.
  change (base p) with (base p') at 2. rewrite page_bit_index. cbn.
  rewrite (bget_fill (used_map p) b' k cnt v i) by done.
  assert (group (base p + PGSIZE * k) cnt (base p + PGSIZE * i) <-> k <= i < k + cnt) as Hg.
  { unfold group, PGSIZE. split; [intros (j & Hj & E); lia|intros Hki; exists (i - k); lia]. }
  assert (in_pool p (base p + PGSIZE * i)) by done. case_decide; destruct v; naive_solver.
Qed.

Lemma group_in_pool p k cnt a :
  pool_ok p -> 0 <= k -> k + cnt <= bit_cnt (used_map p) -> group (base p + PGSIZE * k) cnt a -> in_pool p a.
Proof. intros Hp Hk Hl (j & Hj & ->). apply in_pool_index; [done|]. exists (k + j). unfold PGSIZE. lia. Qed.

Lemma pools_disjoint m a : mem_ok m -> in_pool (kernel_pool m) a -> in_pool (user_pool m) a -> False.
Proof. intros [_ _ H] [_ H1] [_ H2]. lia. Qed.

Lemma clear_not_used u m a :
  mem_ok m -> in_pool (get_pool u m) a -> page_bit (get_pool u m) a = false -> ~ used m a.
Proof.
  intros Hm Hin Hb [[H1 H2]|[H1 H2]]; destruct u; cbn in *; try congruence; by eapply pools_disjoint.
Qed.

(** The same in the memory as a whole. *)
Lemma set_bits_ok u m b' k cnt v :
  mem_ok m -> let p := get_pool u m in
  wf b' -> bit_cnt b' = bit_cnt (used_map p) -> 0 <= k -> 0 <= cnt -> k + cnt <= bit_cnt (used_map p) ->
  abs b' = fill (Z.to_nat k) (Z.to_nat cnt) v (abs (used_map p)) ->
  let m' := set_pool u {| used_map := b'; base := base p |} m in
  mem_ok m' /\ forall a, used m' a <-> if v then used m a \/ group (base p + PGSIZE * k) cnt a
                                       else used m a /\ ~ group (base p + PGSIZE * k) cnt a.
Proof.
  intros Hm p Hw Hc Hk Hn Hl Ha m'. pose proof (get_pool_ok u m Hm) as Hp. fold p in Hp.
  destruct (pool_set_bits p b' k cnt v Hp Hw Hc Hk Hn Hl Ha) as [Hp' Hu].
  assert (forall a, group (base p + PGSIZE * k) cnt a -> in_pool p a) as Hgp by (intros a; by apply group_in_pool).
  split.
  - destruct Hm. unfold m', p in *. destruct u; split; cbn in *; rewrite ?Hc; done.
  - intros a. specialize (Hu a). specialize (Hgp a). pose proof (pools_disjoint m a Hm).
    unfold used, m', p in *. destruct u; cbn in *; rewrite Hu; unfold pool_used in *; destruct v; naive_solver.
Qed.

(** * Contents of pages *)

Lemma fill_pages_lookup n : forall a w pg b,
  (forall i, (i < n)%nat -> b <> a + PGSIZE * Z.of_nat i) -> fill_pages a n w pg !! b = pg !! b.
Proof.
  induction n as [|n IH]; intros a w pg b H; cbn [fill_pages]; [done|].
  rewrite lookup_insert_ne; [|intros <-; apply (H O); lia]. apply IH. intros i Hi E.
  apply (H (S i)); lia.
Qed.

Lemma fill_pages_filled n : forall a w pg i,
  (i < n)%nat -> fill_pages a n w pg !! (a + PGSIZE * Z.of_nat i) = Some (replicate 1024 w).
Proof.
  induction n as [|n IH]; intros a w pg i Hi; [lia|]. cbn [fill_pages]. destruct i as [|i].
  - replace (a + PGSIZE * Z.of_nat 0) with a by (unfold PGSIZE; lia). by rewrite lookup_insert_eq.
  - replace (a + PGSIZE * Z.of_nat (S i)) with (a + PGSIZE + PGSIZE * Z.of_nat i) by (unfold PGSIZE; lia).
    rewrite lookup_insert_ne by (unfold PGSIZE; lia). apply IH. lia.
Qed.

(** What a call does to the contents of memory. *)
Definition filled (a cnt w : Z) (pg pg' : gmap Z (list Z)) : Prop :=
  (forall b, group a cnt b -> pg' !! b = Some (replicate 1024 w)) /\
  (forall b, ~ group a cnt b -> pg' !! b = pg !! b).

Lemma fill_pages_ok a cnt w pg : 0 <= cnt -> filled a cnt w pg (fill_pages a (Z.to_nat cnt) w pg).
Proof.
  intros Hc. split.
  - intros b (i & Hi & ->). rewrite <- (Z2Nat.id i) by lia. apply fill_pages_filled. lia.
  - intros b Hb. apply fill_pages_lookup. intros i Hi ->. apply Hb. exists (Z.of_nat i). lia.
Qed.

Lemma mem_ok_pages m pg : mem_ok m -> mem_ok (mkMem (kernel_pool m) (user_pool m) pg).
Proof. by intros []. Qed.

(** * Allocation *)

Lemma lift_run {A} (r : res A) a m : r = Ok a -> lift r m = Ok (a, m).
Proof. by intros ->. Qed.

(** No [cnt] pages in a row are free in the pool. *)
Definition no_room (p : pool) (cnt : Z) : Prop :=
  forall k, 0 <= k -> k + cnt <= bit_cnt (used_map p) ->
    exists i, k <= i < k + cnt /\ bget (used_map p) i = true.

Lemma no_group_no_room p cnt :
  wf (used_map p) -> 0 <= cnt ->
  (forall j, 0 <= j -> ~ group_is (abs (used_map p)) (Z.to_nat j) (Z.to_nat cnt) false) -> no_room p cnt.
Proof.
  intros Hw Hc H k Hk Hl. destruct (contains_group (used_map p) k cnt false Hw Hk Hc Hl) as (c & Hcon & Hiff).
  destruct c; [|by exfalso; apply (H k), Hiff].
  rewrite bitmap_contains_ok in Hcon by done. injection Hcon as Hcon. apply existsb_exists in Hcon as (x & Hx & Ex).
  apply list_elem_of_In, list_elem_of_lookup in Hx as [i Hi].
  pose proof (lookup_lt_Some _ _ _ Hi) as Hil. rewrite length_take, length_drop, abs_length in Hil.
  rewrite lookup_take_lt, lookup_drop in Hi by lia. exists (k + Z.of_nat i). split; [lia|].
  pose proof (abs_lookup (used_map p) (k + Z.of_nat i) ltac:(lia)) as Hab.
  replace (Z.to_nat (k + Z.of_nat i)) with (Z.to_nat k + i)%nat in Hab by lia. rewrite Hi in Hab. injection Hab as <-.
  by destruct x.
Qed.

(** Allocation moves no pool. *)
Definition same_pools (m m' : pmem) : Prop :=
  forall u, base (get_pool u m') = base (get_pool u m) /\
    bit_cnt (used_map (get_pool u m')) = bit_cnt (used_map (get_pool u m)).

Lemma same_pools_in m m' u a : same_pools m m' -> in_pool (get_pool u m') a <-> in_pool (get_pool u m) a.
Proof. intros H. destruct (H u) as [H1 H2]. unfold in_pool. by rewrite H1, H2. Qed.

Lemma used_in_pool u m a : mem_ok m -> used m a -> in_pool (get_pool u m) a -> pool_used (get_pool u m) a.
Proof.
  intros Hm Hu Hin. split; [done|]. destruct (page_bit (get_pool u m) a) eqn:E; [done|].
  exfalso. by apply (clear_not_used u m a).
Qed.

Definition user_flag (flags : Z) : bool := negb (Z.land flags PAL_USER =? 0).

(** [palloc_get_multiple] on every branch. *)
Lemma palloc_get_ok flags cnt m :
  mem_ok m -> 0 < cnt ->
  (exists a m', palloc_get_multiple flags cnt m = Ok (a, m') /\ mem_ok m' /\
     a <> NULL /\ a mod PGSIZE = 0 /\
     (forall b, group a cnt b -> in_pool (get_pool (user_flag flags) m) b /\ ~ used m b) /\
     (forall b, used m' b <-> used m b \/ group a cnt b) /\ same_pools m m' /\
     if negb (Z.land flags PAL_ZERO =? 0) then filled a cnt 0 (pages m) (pages m') else pages m' = pages m) \/
  (no_room (get_pool (user_flag flags) m) cnt /\
   palloc_get_multiple flags cnt m = if negb (Z.land flags PAL_ASSERT =? 0) then Err EPanic else Ok (NULL, m)).
Proof.
  intros Hm Hcnt. unfold palloc_get_multiple. destruct (Z.eqb_spec cnt 0) as [|_]; [lia|].
  fold (user_flag flags). set (u := user_flag flags). rewrite run_bind with (s' := m) (a := m) by done.
  set (p := get_pool u m). pose proof (get_pool_ok u m Hm) as Hp. fold p in Hp. pose proof Hp as [Hw Hal Hlo Hhi].
  pose proof (wf_cnt _ Hw) as Hbc.
  destruct (scan_and_flip_ok (used_map p) 0 cnt false Hw) as [(k & b' & Hs & Hne & Hk & Hkl & Hw' & Hc' & Hg & _ & Ha)|[Hs Hno]];
    [lia|lia| |]; rewrite (run_bind _ _ _ _ _ (lift_run _ _ m Hs)).
  - left. destruct (set_bits_ok u m b' k cnt true Hm Hw' Hc' Hk ltac:(lia) Hkl Ha) as [Hm' Hu].
    fold p in Hm', Hu. set (m1 := set_pool u {| used_map := b'; base := base p |} m) in *.
    rewrite run_bind with (s' := m1) (a := tt) by done. apply Z.eqb_neq in Hne. rewrite Hne. cbn [negb].
    set (a := base p + PGSIZE * k). assert (a <> NULL) as Han by (unfold a, NULL, PGSIZE, PHYS_BASE in *; lia).
    apply Z.eqb_neq in Han as Han'. rewrite Han'. cbn [negb].
    assert (forall b, group a cnt b -> in_pool p b /\ ~ used m b) as Hfree.
    { intros b Hb. assert (in_pool p b) as Hin by (by apply (group_in_pool p k cnt)). split; [done|].
      destruct Hb as (i & Hi & ->). unfold a in *. replace (base p + PGSIZE * k + PGSIZE * i) with (base p + PGSIZE * (k + i)) in * by lia.
      apply (clear_not_used u); [done..|]. fold p. rewrite page_bit_index. eapply group_bit; [done|lia..]. }
    assert (a mod PGSIZE = 0) as Hamod.
    { apply (group_in_pool p k cnt a Hp Hk Hkl). exists 0. unfold a, PGSIZE. lia. }
    assert (same_pools m m1) as Hsp.
    { intros w. unfold m1. rewrite get_set_pool. by destruct w, u; unfold p. }
    destruct (negb (Z.land flags PAL_ZERO =? 0)).
    + eexists a, _. split; [done|]. split; [by apply mem_ok_pages|]. split_and!; try done.
      cbn [pages]. unfold m1. rewrite pages_set_pool. by apply fill_pages_ok; lia.
    + exists a, m1. split_and!; try done. unfold m1. by rewrite pages_set_pool.
  - right. split; [apply no_group_no_room; [done|lia|by apply Hno]|].
    assert (set_pool u {| used_map := used_map p; base := base p |} m = m) as Hid.
    { unfold p. destruct u, m as [[] [] ?]; done. }
    rewrite run_bind with (s' := m) (a := tt) by (unfold st_put; by rewrite Hid). cbn [negb Z.eqb].
    change (BITMAP_ERROR =? BITMAP_ERROR) with true. cbn. by destruct (Z.land flags PAL_ASSERT =? 0).
Qed.

Lemma page_index p i : pool_ok p -> pg_no (base p + PGSIZE * i) - pg_no (base p) = i.
Proof.
  intros [_ Ha _ _]. rewrite !pg_no_div. unfold PGSIZE in *. rewrite Z.mul_comm, Z.div_add by lia. lia.
Qed.

Lemma from_pool_ok p a : pool_ok p -> a mod PGSIZE = 0 -> page_from_pool p a = true <-> in_pool p a.
Proof.
  intros Hp Ha. pose proof (po_aligned _ Hp) as Hb. unfold page_from_pool, in_pool, bitmap_size, PGSIZE in *.
  rewrite !pg_no_div, andb_true_iff, Z.leb_le, Z.ltb_lt. unfold PGSIZE.
  pose proof (Z.div_mod a 4096). pose proof (Z.div_mod (base p) 4096). split; intros; lia.
Qed.

(** Which pool [palloc_free_multiple] finds. *)
Lemma free_pool u m a :
  mem_ok m -> a mod PGSIZE = 0 -> in_pool (get_pool u m) a ->
  (if page_from_pool (kernel_pool m) a then mret false
   else if page_from_pool (user_pool m) a then mret true else st_fail EPanic : pM bool) m = Ok (u, m).
Proof.
  intros Hm Ha Hin. pose proof (from_pool_ok _ a (mo_kernel m Hm) Ha) as Hk.
  pose proof (from_pool_ok _ a (mo_user m Hm) Ha) as Hu. destruct u; cbn in Hin.
  - destruct (page_from_pool (kernel_pool m) a) eqn:Ek.
    + exfalso. apply (pools_disjoint m a Hm); [by apply Hk|done].
    + by rewrite (proj2 Hu Hin).
  - by rewrite (proj2 Hk Hin).
Qed.

Lemma bitmap_all_ok b k cnt :
  wf b -> 0 <= k -> 0 <= cnt -> k + cnt <= bit_cnt b -> (forall i, k <= i < k + cnt -> bget b i = true) ->
  bitmap_all b k cnt = Ok true.
Proof.
  intros Hw Hk Hc Hl Hb. unfold bitmap_all.
  destruct (contains_group b k cnt true Hw Hk Hc Hl) as (c & Hcon & Hiff). cbn [negb] in Hcon. rewrite Hcon.
  assert (c = false) as ->; [|done]. apply Hiff. split; [rewrite abs_length; lia|].
  apply list_eq. intros i. destruct (decide (i < Z.to_nat cnt)%nat).
  - rewrite lookup_take_lt, lookup_drop, lookup_replicate_2 by done.
    pose proof (abs_lookup b (k + Z.of_nat i) ltac:(lia)) as Ha. rewrite Hb in Ha by lia. rewrite <- Ha. f_equal. lia.
  - rewrite !lookup_ge_None_2; [done|rewrite length_replicate; lia|rewrite length_take; lia].
Qed.

(** Freeing a group of pages in use. *)
Lemma palloc_free_ok u a cnt m :
  mem_ok m -> a mod PGSIZE = 0 -> 0 < cnt -> (forall b, group a cnt b -> pool_used (get_pool u m) b) ->
  exists m', palloc_free_multiple a cnt m = Ok (tt, m') /\ mem_ok m' /\
    (forall b, used m' b <-> used m b /\ ~ group a cnt b) /\ filled a cnt 0xcccccccc (pages m) (pages m') /\
    same_pools m m'.
Proof.
  intros Hm Ha Hc Hu. pose proof (get_pool_ok u m Hm) as Hp. set (p := get_pool u m) in *.
  destruct (proj1 (Hu a ltac:(exists 0; unfold PGSIZE; lia))) as [_ Hra].
  destruct (proj1 (in_pool_index p a Hp) (conj Ha Hra)) as (k & Hk & Ea).
  assert (in_pool p (base p + PGSIZE * (k + cnt - 1))) as Hlast.
  { apply Hu. exists (cnt - 1). unfold PGSIZE in *. lia. }
  assert (k + cnt <= bit_cnt (used_map p)) as Hkl by (destruct Hlast as [_ Hlast]; unfold PGSIZE in Hlast; lia).
  unfold palloc_free_multiple. rewrite pg_ofs_mod, Ha.
  rewrite (run_bind _ _ _ tt m) by done.
  assert (a <> NULL) by (pose proof (po_low p Hp); unfold NULL, PHYS_BASE, PGSIZE in *; lia).
  destruct (Z.eqb_spec a NULL) as [|_]; [done|]. destruct (Z.eqb_spec cnt 0) as [|_]; [lia|]. cbn [orb].
  rewrite (run_bind _ _ _ m m) by done.
  rewrite (run_bind _ _ _ u m) by (by apply free_pool). fold p. rewrite Ea, page_index by done. rewrite <- Ea.
  set (m1 := mkMem (kernel_pool m) (user_pool m) (fill_pages a (Z.to_nat cnt) 0xcccccccc (pages m))).
  rewrite (run_bind _ _ _ tt m1) by done. assert (mem_ok m1) as Hm1 by (by apply mem_ok_pages).
  assert (get_pool u m1 = p) as Hgp by (unfold p; by destruct u).
  pose proof (po_map p Hp) as Hw. rewrite (run_bind _ _ _ true m1); [|apply lift_run, bitmap_all_ok; [done|lia..|]].
  2:{ intros i Hi. rewrite <- page_bit_index. apply Hu. exists (i - k). unfold PGSIZE in *. lia. }
  rewrite (run_bind _ _ _ tt m1) by done.
  destruct (bitmap_set_multiple_ok (used_map p) k cnt false Hw) as (b' & Hb & Hw' & Hc' & Hab); [lia..|].
  rewrite (run_bind _ _ _ b' m1) by (by apply lift_run). rewrite (run_bind _ _ _ m1 m1) by done.
  eexists. split; [done|].
  pose proof (set_bits_ok u m1 b' k cnt false Hm1) as Hs. rewrite Hgp in Hs.
  destruct (Hs Hw' Hc' ltac:(lia) ltac:(lia) Hkl Hab) as [Hm2 Hused]. rewrite <- Ea in Hused.
  split; [done|]. split; [done|]. rewrite pages_set_pool. split; [by apply fill_pages_ok; lia|].
  intros v. rewrite get_set_pool. destruct (Bool.eqb_spec v u) as [->|Hne]; [cbn; by fold p|]. by destruct v.
Qed.

(** * Initialization *)

Lemma elem_cnt_mono n n' : 0 <= n <= n' -> n' + 31 < 2 ^ 32 -> elem_cnt n <= elem_cnt n'.
Proof. intros H1 H2. rewrite !elem_cnt_eq by lia. apply Z.div_le_mono; lia. Qed.

Lemma init_pool_ok start cnt buf :
  start mod PGSIZE = 0 -> PHYS_BASE <= start -> 0 <= cnt -> start + PGSIZE * cnt <= 2 ^ 32 ->
  DIV_ROUND_UP (bitmap_buf_size cnt) PGSIZE <= cnt -> elem_cnt cnt <= Zlen buf -> Forall (in_u 32) buf ->
  exists p, init_pool start cnt buf = Ok p /\ pool_ok p /\ start <= base p /\
    base p + PGSIZE * bit_cnt (used_map p) = start + PGSIZE * cnt /\ forall a, ~ pool_used p a.
Proof.
  intros Hal Hlo Hc Hhi Hbm Hbuf Hw. unfold init_pool. assert (cnt <= 2 ^ 18) as Hs by (unfold PGSIZE, PHYS_BASE in *; lia).
  assert (bitmap_buf_size cnt = 8 + 4 * elem_cnt cnt /\ 0 <= elem_cnt cnt < 2 ^ 14) as [Hsz Hec].
  { rewrite elem_cnt_eq by lia. assert (0 <= (cnt + 31) / 32 < 2 ^ 14) by (split; [apply Z.div_pos; lia|apply Z.div_lt_upper_bound; lia]).
    unfold bitmap_buf_size, byte_cnt, SIZEOF_ELEM. rewrite elem_cnt_eq by lia.
    rewrite (uwrap_id 32 ltac:(lia) (4 * _)) by (unfold in_u; lia). rewrite uwrap_id by (unfold in_u; lia). done. }
  set (bm := DIV_ROUND_UP (bitmap_buf_size cnt) PGSIZE) in *.
  assert (bm = (bitmap_buf_size cnt + 4095) / 4096) as Ebm.
  { unfold bm, DIV_ROUND_UP, PGSIZE. rewrite (uwrap_id 32 ltac:(lia) (_ + 4096)) by (unfold in_u; lia).
    rewrite uwrap_id by (unfold in_u; lia). f_equal. lia. }
  assert (0 <= bm <= 2 ^ 18) by (split; [rewrite Ebm; apply Z.div_pos; lia|lia]).
  assert (bitmap_buf_size cnt <= bm * 4096).
  { rewrite Ebm. pose proof (Z.div_mod (bitmap_buf_size cnt + 4095) 4096). pose proof (Z.mod_pos_bound (bitmap_buf_size cnt + 4095) 4096). lia. }
  destruct (Z.ltb_spec cnt bm) as [|_]; [lia|].
  pose proof (elem_cnt_mono (cnt - bm) cnt ltac:(lia) ltac:(lia)) as Hmono.
  assert (bitmap_buf_size (cnt - bm) <= bitmap_buf_size cnt) as Hle.
  { rewrite Hsz. unfold bitmap_buf_size, byte_cnt, SIZEOF_ELEM. assert (0 <= elem_cnt (cnt - bm)).
    { rewrite elem_cnt_eq by lia. apply Z.div_pos; lia. }
    rewrite (uwrap_id 32 ltac:(lia) (4 * _)) by (unfold in_u; lia). rewrite uwrap_id by (unfold in_u; lia). lia. }
  assert (wf {| bit_cnt := cnt - bm; bits := take (Z.to_nat (elem_cnt (cnt - bm))) buf |}) as Hwf.
  { split; cbn; [lia|lia| |by apply Forall_take]. rewrite length_take.
    assert (0 <= elem_cnt (cnt - bm)) by (rewrite elem_cnt_eq by lia; apply Z.div_pos; lia). lia. }
  destruct (bitmap_set_all_ok _ false Hwf) as (b & Hb & Hwb & Hcb & Hab). cbn in Hcb, Hab.
  assert (u32 (bm * PGSIZE) = bm * 4096) as Eu by (apply uwrap_id; unfold in_u, PGSIZE; lia).
  unfold bitmap_create_in_buf, rassert. cbv zeta. rewrite Eu.
  rewrite (proj2 (Z.leb_le _ _)) by lia. cbn [mbind res_bind]. rewrite Hb. cbn [mbind res_bind].
  eexists. split; [done|]. unfold PGSIZE in *. split_and!; cbn [base used_map]; [|lia|rewrite Hcb; lia|].
  - split; cbn [base used_map]; unfold PGSIZE; [done| |lia|rewrite Hcb; lia]. rewrite Z.mod_add; [done|lia].
  - intros a [[_ Hr] Hbit]. unfold page_bit, PGSIZE in Hbit. cbn [base used_map] in Hr, Hbit. rewrite Hcb in Hr. unfold PGSIZE in Hr.
    set (i := (a - (start + bm * 4096)) / 4096) in *.
    assert (0 <= i < cnt - bm) as Hi by (unfold i; split; [apply Z.div_pos; lia|apply Z.div_lt_upper_bound; lia]).
    pose proof (abs_lookup b i ltac:(lia)) as Hl. rewrite Hab, Hbit in Hl. by apply lookup_replicate in Hl as [? _].
Qed.

Lemma bm_pages_fit cnt : 1 <= cnt <= 2 ^ 18 -> DIV_ROUND_UP (bitmap_buf_size cnt) PGSIZE <= cnt.
Proof.
  intros H. pose proof (Z.div_mod (cnt + 31) 32 ltac:(lia)) as H1. pose proof (Z.mod_pos_bound (cnt + 31) 32 ltac:(lia)) as H2.
  assert (bitmap_buf_size cnt = 8 + 4 * ((cnt + 31) / 32)) as Hs.
  { unfold bitmap_buf_size, byte_cnt, SIZEOF_ELEM. rewrite elem_cnt_eq by lia.
    rewrite (uwrap_id 32 ltac:(lia) (4 * _)) by (unfold in_u; lia). apply uwrap_id; unfold in_u; lia. }
  unfold DIV_ROUND_UP, PGSIZE. rewrite Hs.
  rewrite (uwrap_id 32 ltac:(lia) (_ + 4096)), uwrap_id by (unfold in_u; lia).
  apply Z.lt_succ_r, Z.div_lt_upper_bound; lia.
Qed.

Lemma palloc_init_ok ram limit kbuf ubuf pg :
  258 <= ram < 2 ^ 18 -> 1 <= limit ->
  elem_cnt ram <= Zlen kbuf -> elem_cnt ram <= Zlen ubuf -> Forall (in_u 32) kbuf -> Forall (in_u 32) ubuf ->
  exists m, palloc_init ram limit kbuf ubuf pg = Ok m /\ mem_ok m /\ (forall a, ~ used m a) /\ pages m = pg.
Proof.
  intros Hr Hl Hk Hu Hkw Huw. unfold palloc_init, ptov, rassert. rewrite (uwrap_id 32 ltac:(lia) (ram * PGSIZE)) by (unfold in_u, PGSIZE; lia).
  assert ((1024 * 1024 <? PHYS_BASE) = true) as -> by done.
  rewrite (proj2 (Z.ltb_lt (ram * PGSIZE) PHYS_BASE)) by (unfold PHYS_BASE, PGSIZE; lia). cbn [mbind res_bind].
  assert (u32 (1024 * 1024 + PHYS_BASE) = PHYS_BASE + 256 * 4096) as E1 by done.
  rewrite E1. rewrite (uwrap_id 32 ltac:(lia) (_ + PHYS_BASE)) by (unfold in_u, PGSIZE, PHYS_BASE; lia).
  assert (u32 (ram * PGSIZE + PHYS_BASE - (PHYS_BASE + 256 * 4096)) / PGSIZE = ram - 256) as E2.
  { rewrite uwrap_id by (unfold in_u, PGSIZE, PHYS_BASE; lia).
    replace (_ - _) with ((ram - 256) * 4096) by (unfold PGSIZE; lia). by apply Z.div_mul. }
  rewrite E2. set (up := if limit <? (ram - 256) / 2 then limit else (ram - 256) / 2).
  assert (1 <= up <= ram - 257) as Hup.
  { unfold up. pose proof (Z.div_mod (ram - 256) 2). pose proof (Z.mod_pos_bound (ram - 256) 2). case_match; lia. }
  pose proof (elem_cnt_mono (ram - 256 - up) ram ltac:(lia) ltac:(lia)). pose proof (elem_cnt_mono up ram ltac:(lia) ltac:(lia)).
  destruct (init_pool_ok (PHYS_BASE + 256 * 4096) (ram - 256 - up) kbuf) as (kp & -> & Hkp & Hkb & Hkt & Hkn);
    [done|unfold PHYS_BASE; lia|lia|unfold PHYS_BASE, PGSIZE; lia|apply bm_pages_fit; lia|lia|done|].
  cbn [mbind res_bind].
  destruct (init_pool_ok (PHYS_BASE + 256 * 4096 + (ram - 256 - up) * PGSIZE) up ubuf) as (upl & -> & Hupl & Hub & Hut & Hun);
    [|unfold PHYS_BASE, PGSIZE; lia|lia|unfold PHYS_BASE, PGSIZE; lia|apply bm_pages_fit; lia|lia|done|].
  { unfold PGSIZE. by rewrite Z.mod_add. }
  cbn [mbind res_bind]. eexists. split; [done|]. split; [|split; [|done]].
  - split; cbn [kernel_pool user_pool]; [done..|]. rewrite Hkt. unfold PGSIZE in *. lia.
  - intros a [H1|H1]; [by apply (Hkn a)|by apply (Hun a)].
Qed.

(** * Theorem *)

(** C12: The page allocator.  [palloc_init] sets up two disjoint pools with every
    page free.  In any well-formed state, [palloc_get_multiple] returns [cnt]
    consecutive, page-aligned pages of the requested pool that were free, marks
    exactly these as in use, and fills them with zeros if asked to, changing no
    other page; or, when the pool has no [cnt] free pages in a row, it returns
    null and changes nothing, or panics under [PAL_ASSERT].  Freeing the pages
    afterwards succeeds and leaves exactly the pages in use that were in use
    before. *)
Theorem palloc_spec :
  (forall ram limit kbuf ubuf pg,
     258 <= ram < 2 ^ 18 -> 1 <= limit ->
     elem_cnt ram <= Zlen kbuf -> elem_cnt ram <= Zlen ubuf -> Forall (in_u 32) kbuf -> Forall (in_u 32) ubuf ->
     exists m, palloc_init ram limit kbuf ubuf pg = Ok m /\ mem_ok m /\ (forall a, ~ used m a) /\ pages m = pg) /\
  (forall flags cnt m,
     mem_ok m -> 0 < cnt ->
     (exists a m', palloc_get_multiple flags cnt m = Ok (a, m') /\ mem_ok m' /\ a <> NULL /\ a mod PGSIZE = 0 /\
        (forall b, group a cnt b -> in_pool (get_pool (user_flag flags) m) b /\ ~ used m b) /\
        (forall b, used m' b <-> used m b \/ group a cnt b) /\
        (if negb (Z.land flags PAL_ZERO =? 0) then filled a cnt 0 (pages m) (pages m') else pages m' = pages m) /\
        exists m'', palloc_free_multiple a cnt m' = Ok (tt, m'') /\ mem_ok m'' /\
          (forall b, used m'' b <-> used m b) /\ filled a cnt 0xcccccccc (pages m') (pages m'')) \/
     (no_room (get_pool (user_flag flags) m) cnt /\
      palloc_get_multiple flags cnt m = if negb (Z.land flags PAL_ASSERT =? 0) then Err EPanic else Ok (NULL, m))).
Proof.
  split; [intros ram limit kbuf ubuf pg; by apply palloc_init_ok|].
  intros flags cnt m Hm Hc.
  destruct (palloc_get_ok flags cnt m Hm Hc) as [(a & m' & H1 & H2 & H3 & H4 & H5 & H6 & Hsp & H7)|H]; [left|by right].
  exists a, m'. do 7 (split; [done|]).
  destruct (palloc_free_ok (user_flag flags) a cnt m' H2 H4 Hc) as (m'' & F1 & F2 & F3 & F4 & _).
  { intros b Hb. apply used_in_pool; [done|apply H6; by right|]. apply (same_pools_in m); [done|]. by apply H5. }
  exists m''. split_and!; try done. intros b. rewrite F3, H6. split; [tauto|]. intros Hub.
  split; [by left|]. intros Hg. by apply (H5 b Hg).
Qed.

(** 320 pages of memory, 64 of them to allocate. *)
Definition demo_mem : pmem :=
  match palloc_init 320 1000 (replicate 10 7) (replicate 10 0) ∅ with
  | Ok m => m
  | Err _ => mkMem {| used_map := {| bit_cnt := 0; bits := [] |}; base := 0 |}
                   {| used_map := {| bit_cnt := 0; bits := [] |}; base := 0 |} ∅
  end.

Lemma demo_mem_ok : mem_ok demo_mem.
Proof.
  destruct (palloc_init_ok 320 1000 (replicate 10 7) (replicate 10 0) ∅) as (m & E & H & _);
    [lia|lia|by vm_compute|by vm_compute|..].
  - apply Forall_replicate. unfold in_u. lia.
  - apply Forall_replicate. unfold in_u. lia.
  - unfold demo_mem. by rewrite E.
Qed.

Lemma palloc_spec_witness :
  exists a m', palloc_get_multiple PAL_ZERO 3 demo_mem = Ok (a, m') /\ a = 0xc0101000 /\
    exists m'', palloc_free_multiple a 3 m' = Ok (tt, m'') /\ (forall b, used m'' b <-> used demo_mem b).
Proof.
  destruct palloc_spec as [_ H].
  destruct (H PAL_ZERO 3 demo_mem demo_mem_ok ltac:(lia)) as [(a & m' & H1 & _ & _ & _ & _ & _ & _ & m'' & F1 & _ & F2 & _)|[_ E]].
  - exists a, m'. split; [exact H1|]. split; [|exists m''; split; [exact F1|exact F2]].
    assert (fst <$> palloc_get_multiple PAL_ZERO 3 demo_mem = Ok a) as Ha by (by rewrite H1).
    vm_compute in Ha. by injection Ha as <-.
  - exfalso. assert (fst <$> palloc_get_multiple PAL_ZERO 3 demo_mem = Ok 0) as Ha by (by rewrite E).
    vm_compute in Ha. discriminate.
Defined.
