(* ===== verification/Malloc.v ===== *)
(** The block allocator of threads/malloc.c, over the pages of Palloc.v.

    An arena is one page cut into blocks of one size, or a run of pages for one big
    block.  The headers of arenas are in a table by address, a free list is the list
    of its blocks, and the bytes of blocks are in a map that has no entry for a byte
    nothing is known of.  The lock of a descriptor makes a call one transition. *)
From Stdlib Require Import ZArith Lia.
From stdpp Require Import base numbers sorting gmap list.
From S2P Require Import Prelude.
From S2P Require Import Bitmap.
From S2P Require Import Palloc.

Local Open Scope Z_scope.

(** * Data *)

Record desc := mkDesc {
  d_block_size : Z;
  blocks_per_arena : Z;
  free_list : list Z
}.

Definition set_free_list (l : list Z) (d : desc) : desc := mkDesc (d_block_size d) (blocks_per_arena d) l.

Definition ARENA_MAGIC : Z := 0x9a548eed.

(** The descriptor is given by its index in [descs], [None] for null. *)
Record arena := mkArena {
  magic : Z;
  a_desc : option nat;
  free_cnt : Z
}.

Definition SIZEOF_ARENA : Z := 12.
Definition SIZEOF_LIST_ELEM : nat := 8.

Record heap := mkHeap {
  hpages : pmem;
  arenas : gmap Z arena;
  descs : list desc;
  hbytes : gmap Z Z
}.

Definition set_hpages (v : pmem) (h : heap) : heap := mkHeap v (arenas h) (descs h) (hbytes h).
Definition set_arenas (v : gmap Z arena) (h : heap) : heap := mkHeap (hpages h) v (descs h) (hbytes h).
Definition set_descs (v : list desc) (h : heap) : heap := mkHeap (hpages h) (arenas h) v (hbytes h).
Definition set_hbytes (v : gmap Z Z) (h : heap) : heap := mkHeap (hpages h) (arenas h) (descs h) v.

Abbreviation hM := (st heap).

Definition hmodify (f : heap -> heap) : hM unit := fun h => Ok (tt, f h).

Definition liftm {A} (m : pM A) : hM A := fun h =>
  match m (hpages h) with
  | Ok (a, p) => Ok (a, set_hpages p h)
  | Err e => Err e
  end.

Definition get_desc (i : nat) : hM desc := fun h =>
  match descs h !! i with Some d => Ok (d, h) | None => Err EFault end.

Definition upd_free_list (i : nat) (f : list Z -> list Z) : hM unit :=
  hmodify (fun h => set_descs (alter (fun d => set_free_list (f (free_list d)) d) i (descs h)) h).

(** A page that is not an arena does not have the magic number. *)
Definition get_arena (a : Z) : hM arena := fun h =>
  match arenas h !! a with Some r => Ok (r, h) | None => Err EAssert end.

Definition put_arena (a : Z) (r : arena) : hM unit := hmodify (fun h => set_arenas (<[a := r]> (arenas h)) h).

(** * Bytes *)

(** [n] bytes from [p] on become [v]. *)
Fixpoint put_bytes (p : Z) (n : nat) (v : option Z) (m : gmap Z Z) : gmap Z Z :=
  match n with
  | O => m
  | S n => put_bytes (p + 1) n v (partial_alter (fun _ => v) p m)
  end.

(** [n] bytes from [src] on copied to [dst], which does not overlap. *)
Fixpoint copy_bytes (dst src : Z) (n : nat) (m : gmap Z Z) : gmap Z Z :=
  match n with
  | O => m
  | S n => copy_bytes (dst + 1) (src + 1) n (partial_alter (fun _ => m !! src) dst m)
  end.

Definition h_memset (p v n : Z) : hM unit := hmodify (fun h => set_hbytes (put_bytes p (Z.to_nat n) (Some v) (hbytes h)) h).
Definition h_memcpy (dst src n : Z) : hM unit := hmodify (fun h => set_hbytes (copy_bytes dst src (Z.to_nat n) (hbytes h)) h).

(** The links of a free block take up its first bytes. *)
Definition link_block (b : Z) : hM unit := hmodify (fun h => set_hbytes (put_bytes b SIZEOF_LIST_ELEM None (hbytes h)) h).

(** * Operations *)

(** The loop of [malloc_init], from [block_size] on; the sizes double. *)
Fixpoint init_descs (fuel : nat) (block_size : Z) (ds : list desc) : res (list desc) :=
  match fuel with
  | O => Err EFuel
  | S fuel =>
      if block_size <? PGSIZE / 2 then
        rassert (Zlen ds + 1 <=? 10);;
        init_descs fuel (block_size * 2) (ds ++ [mkDesc block_size ((PGSIZE - SIZEOF_ARENA) / block_size) []])
      else Ok ds
  end.

Definition malloc_init : hM unit := fun h =>
  match init_descs 12 16 (descs h) with
  | Ok ds => Ok (tt, set_descs ds h)
  | Err e => Err e
  end.

Definition block_to_arena (b : Z) : hM Z :=
  let a := pg_round_down b in
  assert (negb (a =? NULL));;
  r ← get_arena a;
  assert (magic r =? ARENA_MAGIC);;
  match a_desc r with
  | Some i => d ← get_desc i; assert (u32 (pg_ofs b - SIZEOF_ARENA) mod d_block_size d =? 0);; mret a
  | None => assert (pg_ofs b =? SIZEOF_ARENA);; mret a
  end.

Definition arena_to_block (a idx : Z) : hM Z :=
  assert (negb (a =? NULL));;
  r ← get_arena a;
  assert (magic r =? ARENA_MAGIC);;
  match a_desc r with
  | Some i => d ← get_desc i; assert (idx <? blocks_per_arena d);; mret (a + SIZEOF_ARENA + idx * d_block_size d)
  | None => st_fail EFault
  end.

(** The smallest descriptor for [size] bytes. *)
Fixpoint find_desc (ds : list desc) (i : nat) (size : Z) : option nat :=
  match ds with
  | [] => None
  | d :: ds => if size <=? d_block_size d then Some i else find_desc ds (S i) size
  end.

(** Blocks [idx], [idx + 1], ... of a new arena go to the end of the free list. *)
Fixpoint add_blocks (n : nat) (a idx : Z) (i : nat) : hM unit :=
  match n with
  | O => mret tt
  | S n =>
      b ← arena_to_block a idx;
      link_block b;;
      upd_free_list i (fun l => l ++ [b]);;
      add_blocks n a (idx + 1) i
  end.

Definition new_arena (i : nat) : hM bool :=
  a ← liftm (palloc_get_page 0);
  if a =? NULL then mret false else
  d ← get_desc i;
  put_arena a (mkArena ARENA_MAGIC (Some i) (blocks_per_arena d));;
  add_blocks (Z.to_nat (blocks_per_arena d)) a 0 i;;
  mret true.

Definition malloc (size : Z) : hM Z :=
  if size =? 0 then mret NULL else
  h ← st_get;
  match find_desc (descs h) 0 size with
  | None =>
      let page_cnt := DIV_ROUND_UP (u32 (size + SIZEOF_ARENA)) PGSIZE in
      a ← liftm (palloc_get_multiple 0 page_cnt);
      if a =? NULL then mret NULL else
      put_arena a (mkArena ARENA_MAGIC None page_cnt);;
      mret (a + SIZEOF_ARENA)
  | Some i =>
      d ← get_desc i;
      room ← (match free_list d with [] => new_arena i | _ :: _ => mret true end);
      if negb room then mret NULL else
      d ← get_desc i;
      match free_list d with
      | [] => st_fail EAssert
      | b :: _ =>
          upd_free_list i tail;;
          a ← block_to_arena b;
          r ← get_arena a;
          put_arena a (mkArena (magic r) (a_desc r) (u32 (free_cnt r - 1)));;
          mret b
      end
  end.

Definition calloc (a b : Z) : hM Z :=
  let size := u32 (a * b) in
  if (size <? a) || (size <? b) then mret NULL else
  p ← malloc size;
  (if negb (p =? NULL) then h_memset p 0 size else mret tt);;
  mret p.

Definition block_size (b : Z) : hM Z :=
  a ← block_to_arena b;
  r ← get_arena a;
  match a_desc r with
  | Some i => d ← get_desc i; mret (d_block_size d)
  | None => mret (u32 (u32 (PGSIZE * free_cnt r) - pg_ofs b))
  end.

(** [list_remove] of the blocks of an arena. *)
Fixpoint remove_blocks (n : nat) (a idx : Z) (i : nat) : hM unit :=
  match n with
  | O => mret tt
  | S n =>
      b ← arena_to_block a idx;
      upd_free_list i (filter (fun c => c <> b));;
      remove_blocks n a (idx + 1) i
  end.

(** The pages are overwritten with bytes 0xcc, and so is the header. *)
Definition free_pages (a page_cnt : Z) : hM unit :=
  liftm (palloc_free_multiple a page_cnt);;
  h_memset a 0xcc (PGSIZE * page_cnt);;
  hmodify (fun h => set_arenas (delete a (arenas h)) h).

Definition free (p : Z) : hM unit :=
  if p =? NULL then mret tt else
  a ← block_to_arena p;
  r ← get_arena a;
  match a_desc r with
  | Some i =>
      d ← get_desc i;
      h_memset p 0xcc (d_block_size d);;
      link_block p;;
      upd_free_list i (cons p);;
      let cnt := u32 (free_cnt r + 1) in
      put_arena a (mkArena (magic r) (a_desc r) cnt);;
      if blocks_per_arena d <=? cnt then
        assert (cnt =? blocks_per_arena d);;
        remove_blocks (Z.to_nat (blocks_per_arena d)) a 0 i;;
        free_pages a 1
      else mret tt
  | None => free_pages a (free_cnt r)
  end.

Definition realloc (old_block new_size : Z) : hM Z :=
  if new_size =? 0 then free old_block;; mret NULL
  else
    new_block ← malloc new_size;
    (if negb (old_block =? NULL) && negb (new_block =? NULL) then
       old_size ← block_size old_block;
       h_memcpy new_block old_block (if new_size <? old_size then new_size else old_size);;
       free old_block
     else mret tt);;
    mret new_block.

(** * Well-formed heaps *)

(** The sizes leave room for the links, and a page for the header. *)
Record desc_ok (d : desc) : Prop := {
  do_size : 16 <= d_block_size d <= 1024;
  do_count : blocks_per_arena d = (PGSIZE - SIZEOF_ARENA) / d_block_size d
}.

(** Block [k] of an arena. *)
Definition block_of (a : Z) (d : desc) (k : Z) : Z := a + SIZEOF_ARENA + k * d_block_size d.

Definition blocks (a : Z) (d : desc) : list Z := block_of a d <$> seqZ 0 (blocks_per_arena d).

(** The free blocks of one arena. *)
Definition free_in (a : Z) (l : list Z) : list Z := filter (fun b => pg_round_down b = a) l.

(** The pages of an arena. *)
Definition span (r : arena) : Z := match a_desc r with Some _ => 1 | None => free_cnt r end.

Record arena_ok (h : heap) (a : Z) (r : arena) : Prop := {
  ao_magic : magic r = ARENA_MAGIC;
  ao_span : 0 < span r;
  ao_used : forall b, group a (span r) b -> pool_used (kernel_pool (hpages h)) b;
  ao_desc : match a_desc r with
            | Some i => exists d, descs h !! i = Some d /\ free_cnt r = Zlen (free_in a (free_list d))
            | None => True
            end
}.

Record heap_ok (h : heap) : Prop := {
  ho_mem : mem_ok (hpages h);
  ho_descs : Forall desc_ok (descs h);
  ho_arena : forall a r, arenas h !! a = Some r -> arena_ok h a r;
  ho_apart : forall a r a' r' b, arenas h !! a = Some r -> arenas h !! a' = Some r' ->
    group a (span r) b -> group a' (span r') b -> a = a';
  ho_free : forall i d b, descs h !! i = Some d -> b ∈ free_list d ->
    exists a r, arenas h !! a = Some r /\ a_desc r = Some i /\ b ∈ blocks a d;
  ho_nodup : forall i d, descs h !! i = Some d -> NoDup (free_list d)
}.

(** [p] is a block of [n] bytes of an arena that has been handed out. *)
Abbreviation handed_out h a r p n :=
  (match a_desc r with
   | Some i => exists d, descs h !! i = Some d /\ p ∈ blocks a d /\ (p ∉ free_list d) /\ n = d_block_size d
   | None => p = a + SIZEOF_ARENA /\ n = PGSIZE * free_cnt r - SIZEOF_ARENA
   end).

Definition block_at (h : heap) (p n : Z) : Prop :=
  exists a r, arenas h !! a = Some r /\ handed_out h a r p n.

(** * Addresses *)

Lemma desc_fits d k : desc_ok d -> 0 <= k < blocks_per_arena d ->
  0 <= k * d_block_size d /\ k * d_block_size d + d_block_size d <= PGSIZE - SIZEOF_ARENA.
Proof.
  intros [Hs Hc] Hk. pose proof (Z.mul_div_le (PGSIZE - SIZEOF_ARENA) (d_block_size d) ltac:(lia)) as Hd. rewrite <- Hc in Hd.
  nia.
Qed.

Lemma desc_count_pos d : desc_ok d -> 1 <= blocks_per_arena d < 2 ^ 12.
Proof.
  intros [Hs Hc]. rewrite Hc. unfold PGSIZE, SIZEOF_ARENA. split.
  - apply Z.div_le_lower_bound; lia.
  - apply Z.div_lt_upper_bound; lia.
Qed.

Lemma elem_blocks a d b : b ∈ blocks a d <-> exists k, 0 <= k < blocks_per_arena d /\ b = block_of a d k.
Proof.
  unfold blocks. rewrite list_elem_of_fmap. split.
  - intros (k & -> & Hk%elem_of_seqZ). exists k. split; [lia|done].
  - intros (k & Hk & ->). exists k. split; [done|]. apply elem_of_seqZ. lia.
Qed.

Lemma blocks_nodup a d : desc_ok d -> NoDup (blocks a d).
Proof.
  intros [Hs _]. apply NoDup_fmap_2_strong; [|apply NoDup_seqZ]. intros j k _ _ E. unfold block_of in E. nia.
Qed.

Lemma blocks_length a d : desc_ok d -> Zlen (blocks a d) = blocks_per_arena d.
Proof.
  intros Hd. unfold blocks. rewrite length_fmap, length_seqZ. pose proof (desc_count_pos d Hd). lia.
Qed.

(** Where a kernel page is. *)
Definition page_at (a : Z) : Prop := a mod PGSIZE = 0 /\ PHYS_BASE <= a /\ a + PGSIZE <= 2 ^ 32.

Lemma pool_used_page p a : pool_ok p -> pool_used p a -> page_at a.
Proof.
  intros Hp [Hin _]. pose proof Hin as [Hm _]. apply (in_pool_index p a Hp) in Hin as (i & Hi & ->). destruct Hp as [_ _ Hl Hh].
  unfold page_at, PGSIZE in *. lia.
Qed.

Lemma round_in_page a x : page_at a -> 0 <= x < PGSIZE -> pg_round_down (a + x) = a.
Proof.
  intros (Ha & Hl & Hh) Hx. unfold PGSIZE, PHYS_BASE in *. rewrite pg_round_down_eq by (unfold in_u; lia). unfold PGSIZE.
  pose proof (Z.div_mod a 4096 ltac:(lia)) as Hd. rewrite <- (Z.div_unique (a + x) 4096 (a / 4096) x); lia.
Qed.

Lemma ofs_in_page a x : page_at a -> 0 <= x < PGSIZE -> pg_ofs (a + x) = x.
Proof.
  intros (Ha & Hl & Hh) Hx. rewrite pg_ofs_mod. rewrite <- Z.add_mod_idemp_l, Ha by (unfold PGSIZE; lia).
  apply Z.mod_small. lia.
Qed.

Lemma block_round a d b : page_at a -> desc_ok d -> b ∈ blocks a d -> pg_round_down b = a.
Proof.
  intros Ha Hd (k & Hk & ->)%elem_blocks. pose proof (desc_fits d k Hd Hk) as Hf. destruct Hd as [Hs _]. unfold block_of.
  rewrite <- Z.add_assoc. apply round_in_page; [done|]. unfold SIZEOF_ARENA in *. lia.
Qed.

Lemma block_offset a d k : page_at a -> desc_ok d -> 0 <= k < blocks_per_arena d ->
  u32 (pg_ofs (block_of a d k) - SIZEOF_ARENA) mod d_block_size d = 0.
Proof.
  intros Ha Hd Hk. pose proof (desc_fits d k Hd Hk) as Hf. pose proof Hd as [Hs _]. unfold block_of.
  rewrite <- Z.add_assoc, ofs_in_page by (done || unfold SIZEOF_ARENA in *; lia).
  replace (SIZEOF_ARENA + k * d_block_size d - SIZEOF_ARENA) with (k * d_block_size d) by lia.
  rewrite uwrap_id by (unfold in_u, PGSIZE, SIZEOF_ARENA in *; lia). apply Z_mod_mult.
Qed.

(** * Bytes *)

Lemma put_bytes_lookup n : forall p v m x,
  put_bytes p n v m !! x = if decide (p <= x < p + Z.of_nat n) then v else m !! x.
Proof.
  induction n as [|n IH]; intros p v m x; cbn [put_bytes]; [by rewrite decide_False by lia|].
  rewrite IH. destruct (decide (p + 1 <= x < p + 1 + Z.of_nat n)); [by rewrite decide_True by lia|].
  destruct (decide (x = p)) as [->|Hne].
  - rewrite lookup_partial_alter_eq. by rewrite decide_True by lia.
  - rewrite lookup_partial_alter_ne by done. by rewrite decide_False by lia.
Qed.

Lemma copy_bytes_lookup n : forall dst src m x,
  (dst + Z.of_nat n <= src \/ src + Z.of_nat n <= dst) ->
  copy_bytes dst src n m !! x = if decide (dst <= x < dst + Z.of_nat n) then m !! (src + (x - dst)) else m !! x.
Proof.
  induction n as [|n IH]; intros dst src m x Hd; cbn [copy_bytes]; [by rewrite decide_False by lia|].
  rewrite IH by lia. destruct (decide (dst + 1 <= x < dst + 1 + Z.of_nat n)).
  - rewrite decide_True by lia. rewrite lookup_partial_alter_ne by lia. f_equal. lia.
  - destruct (decide (x = dst)) as [->|Hne].
    + rewrite lookup_partial_alter_eq, decide_True by lia. f_equal. lia.
    + rewrite lookup_partial_alter_ne by done. by rewrite decide_False by lia.
Qed.

(** * Arenas and blocks *)

Section heap.
Context (h : heap) (Hok : heap_ok h).

Lemma arena_page a r : arenas h !! a = Some r -> page_at a.
Proof.
  intros Ha. destruct (ho_arena h Hok a r Ha) as [_ Hs Hu _]. eapply pool_used_page; [apply (mo_kernel _ (ho_mem h Hok))|].
  apply Hu. exists 0. lia.
Qed.

Lemma desc_lookup_ok i d : descs h !! i = Some d -> desc_ok d.
Proof. intros Hd. by apply (Forall_lookup_1 _ _ _ _ (ho_descs h Hok) Hd). Qed.

(** The extent of a block lies in the pages of its arena. *)
Lemma block_extent a r p n :
  arenas h !! a = Some r ->
  match a_desc r with
  | Some i => exists d, descs h !! i = Some d /\ p ∈ blocks a d /\ n = d_block_size d
  | None => p = a + SIZEOF_ARENA /\ n = PGSIZE * free_cnt r - SIZEOF_ARENA
  end -> a + SIZEOF_ARENA <= p /\ 0 < n /\ p + n <= a + PGSIZE * span r.
Proof.
  intros Ha Hb. destruct (ho_arena h Hok a r Ha) as [_ Hs _ _]. unfold span in *. destruct (a_desc r) as [i|].
  - destruct Hb as (d & Hd & (k & Hk & ->)%elem_blocks & ->). pose proof (desc_lookup_ok i d Hd) as Hdo.
    pose proof (desc_fits d k Hdo Hk). destruct Hdo as [? _]. unfold block_of, PGSIZE, SIZEOF_ARENA in *. lia.
  - destruct Hb as [-> ->]. unfold PGSIZE, SIZEOF_ARENA in *. lia.
Qed.

Lemma in_group a n x : page_at a -> a <= x < a + PGSIZE * n -> in_u 32 x -> group a n (pg_round_down x).
Proof.
  intros (Ha & _) Hx Hu. rewrite pg_round_down_eq by done. unfold PGSIZE in *.
  pose proof (Z.div_mod a 4096 ltac:(lia)). pose proof (Z.div_mod x 4096 ltac:(lia)). pose proof (Z.mod_pos_bound x 4096 ltac:(lia)).
  exists (x / 4096 - a / 4096). unfold PGSIZE. lia.
Qed.

Lemma arena_bound a r : arenas h !! a = Some r -> a + PGSIZE * span r <= 2 ^ 32.
Proof.
  intros Ha. destruct (ho_arena h Hok a r Ha) as [_ Hs Hu _]. destruct (pool_used_page (kernel_pool (hpages h)) (a + PGSIZE * (span r - 1))) as (_ & _ & Hh).
  - apply (mo_kernel _ (ho_mem h Hok)).
  - apply Hu. exists (span r - 1). lia.
  - unfold PGSIZE in *. lia.
Qed.

(** Two arenas have no byte in common. *)
Lemma arenas_apart a r a' r' x :
  arenas h !! a = Some r -> arenas h !! a' = Some r' ->
  a <= x < a + PGSIZE * span r -> a' <= x < a' + PGSIZE * span r' -> a = a'.
Proof.
  intros Ha Ha' Hx Hx'. pose proof (arena_bound a r Ha) as Hb. pose proof (arena_page a r Ha) as Hp.
  assert (in_u 32 x) as Hu by (destruct Hp as (_ & Hp & _); unfold in_u, PHYS_BASE in *; lia).
  apply (ho_apart h Hok a r a' r' (pg_round_down x)); [done|done| |]; apply in_group; try done. by apply (arena_page a' r').
Qed.

(** Blocks that have been handed out are disjoint. *)
Lemma blocks_apart p n q m : block_at h p n -> block_at h q m -> p <> q -> p + n <= q \/ q + m <= p.
Proof.
  intros (a & r & Ha & Hp) (a' & r' & Ha' & Hq) Hne.
  destruct (block_extent a r p n Ha) as (Hp1 & Hp2 & Hp3); [destruct (a_desc r); naive_solver|].
  destruct (block_extent a' r' q m Ha') as (Hq1 & Hq2 & Hq3); [destruct (a_desc r'); naive_solver|].
  destruct (decide (a = a')) as [<-|Hneq].
  - assert (r' = r) as -> by congruence. destruct (a_desc r) as [i|].
    + destruct Hp as (d & Hd & (k & Hk & ->)%elem_blocks & _ & ->), Hq as (d' & Hd' & (k' & Hk' & ->)%elem_blocks & _ & ->).
      assert (d' = d) as -> by congruence. pose proof (desc_lookup_ok i d Hd) as [Hs _]. unfold block_of in *.
      assert (k <> k') by congruence. nia.
    + destruct Hp as [-> _], Hq as [-> _]. done.
  - destruct (decide (p + n <= q)); [by left|]. destruct (decide (q + m <= p)); [by right|]. exfalso.
    apply Hneq. unfold SIZEOF_ARENA in *. apply (arenas_apart a r a' r' (Z.max p q)); [done|done|lia|lia].
Qed.

Lemma arena_run a r : arenas h !! a = Some r -> get_arena a h = Ok (r, h).
Proof. unfold get_arena. by intros ->. Qed.

Lemma desc_run i d : descs h !! i = Some d -> get_desc i h = Ok (d, h).
Proof. unfold get_desc. by intros ->. Qed.

Lemma page_nonnull a : page_at a -> (a =? NULL) = false.
Proof. intros (_ & H & _). apply Z.eqb_neq. unfold NULL, PHYS_BASE in *. lia. Qed.

Lemma block_to_arena_small a r i d b :
  arenas h !! a = Some r -> a_desc r = Some i -> descs h !! i = Some d -> b ∈ blocks a d -> block_to_arena b h = Ok (a, h).
Proof.
  intros Ha Hi Hd Hb. pose proof (arena_page a r Ha) as Hp. pose proof (desc_lookup_ok i d Hd) as Hdo.
  unfold block_to_arena. rewrite (block_round a d b) by done.
  rewrite (run_bind _ _ _ tt h) by (by rewrite page_nonnull). rewrite (run_bind _ _ _ r h) by by apply arena_run.
  rewrite (run_bind _ _ _ tt h) by (by rewrite (ao_magic _ _ _ (ho_arena h Hok a r Ha))).
  rewrite Hi. rewrite (run_bind _ _ _ d h) by by apply desc_run. apply elem_blocks in Hb as (k & Hk & ->).
  by rewrite (run_bind _ _ _ tt h) by (by rewrite (block_offset a d k)).
Qed.

Lemma block_to_arena_big a r :
  arenas h !! a = Some r -> a_desc r = None -> block_to_arena (a + SIZEOF_ARENA) h = Ok (a, h).
Proof.
  intros Ha Hi. pose proof (arena_page a r Ha) as Hp. unfold block_to_arena.
  rewrite (round_in_page a SIZEOF_ARENA) by (done || unfold SIZEOF_ARENA, PGSIZE; lia).
  rewrite (run_bind _ _ _ tt h) by (by rewrite page_nonnull). rewrite (run_bind _ _ _ r h) by by apply arena_run.
  rewrite (run_bind _ _ _ tt h) by (by rewrite (ao_magic _ _ _ (ho_arena h Hok a r Ha))).
  rewrite Hi, ofs_in_page by (done || unfold SIZEOF_ARENA, PGSIZE; lia). done.
Qed.

(** A free list holds the blocks of an arena at most once. *)
Lemma free_in_blocks a r i d b :
  arenas h !! a = Some r -> a_desc r = Some i -> descs h !! i = Some d -> b ∈ free_in a (free_list d) -> b ∈ blocks a d.
Proof.
  intros Ha Hi Hd [Hr Hb]%list_elem_of_filter. destruct (ho_free h Hok i d b Hd Hb) as (a' & r' & Ha' & Hi' & Hb').
  rewrite (block_round a' d b) in Hr; [by subst a'|by apply (arena_page a' r')|by apply (desc_lookup_ok i)|done].
Qed.

Lemma free_cnt_bound a r i d b :
  arenas h !! a = Some r -> a_desc r = Some i -> descs h !! i = Some d -> b ∈ blocks a d -> b ∉ free_list d ->
  Zlen (free_in a (free_list d)) < blocks_per_arena d.
Proof.
  intros Ha Hi Hd Hb Hnb. rewrite <- (blocks_length a d) by by apply (desc_lookup_ok i).
  assert (b :: free_in a (free_list d) ⊆+ blocks a d) as Hsub.
  { apply NoDup_submseteq.
    - apply NoDup_cons. split; [intros [_ Hx]%list_elem_of_filter; done|]. apply NoDup_filter, (ho_nodup h Hok i d Hd).
    - intros x [->|Hx]%elem_of_cons; [done|]. by apply (free_in_blocks a r i d). }
  apply submseteq_length in Hsub. cbn in Hsub. lia.
Qed.

End heap.

(** * Changing one free list *)

(** A heap with a new free list for the descriptor of an arena. *)
Definition relist (h : heap) (a : Z) (i : nat) (l : list Z) (hb : gmap Z Z) : heap :=
  mkHeap (hpages h) (<[a := mkArena ARENA_MAGIC (Some i) (Zlen (free_in a l))]> (arenas h))
    (alter (set_free_list l) i (descs h)) hb.

Lemma alter_desc (f : desc -> desc) (i : nat) (ds : list desc) j d :
  alter f i ds !! j = Some d -> exists d0, ds !! j = Some d0 /\ d = if decide (j = i) then f d0 else d0.
Proof.
  destruct (decide (j = i)) as [->|Hne].
  - rewrite list_lookup_alter_eq. destruct (ds !! i) as [d0|]; [|done]. cbn. intros [= <-]. by exists d0.
  - rewrite list_lookup_alter_ne by done. by exists d.
Qed.

Lemma lookup_alter_desc (f : desc -> desc) (i : nat) (ds : list desc) j d0 :
  ds !! j = Some d0 -> alter f i ds !! j = Some (if decide (j = i) then f d0 else d0).
Proof.
  intros H. destruct (decide (j = i)) as [->|Hne].
  - by rewrite list_lookup_alter_eq, H.
  - by rewrite list_lookup_alter_ne.
Qed.

Section relist.
Context (h : heap) (Hok : heap_ok h) (a : Z) (r : arena) (i : nat) (d : desc) (l : list Z) (hb : gmap Z Z).
Context (Ha : arenas h !! a = Some r) (Hi : a_desc r = Some i) (Hd : descs h !! i = Some d).

Lemma relist_ok :
  NoDup l -> (forall b, b ∈ l -> b ∈ free_list d \/ b ∈ blocks a d) ->
  (forall a', a' <> a -> free_in a' l = free_in a' (free_list d)) -> heap_ok (relist h a i l hb).
Proof using All.
  intros Hnd Hin Hother. assert (forall r', span (mkArena ARENA_MAGIC (Some i) r') = span r) as Hspan by (intros; unfold span; by rewrite Hi).
  assert (forall a0 r0, arenas (relist h a i l hb) !! a0 = Some r0 -> exists r1, arenas h !! a0 = Some r1 /\ span r0 = span r1 /\
            a_desc r0 = a_desc r1 /\ (r0 = r1 /\ a0 <> a \/ a0 = a /\ r0 = mkArena ARENA_MAGIC (Some i) (Zlen (free_in a l)))) as Hback.
  { intros a0 r0; cbn [relist arenas]; intros [[<- <-]|[Hne H0]]%lookup_insert_Some; [exists r|exists r0]; naive_solver. }
  split; cbn [hpages descs].
  - apply (ho_mem h Hok).
  - apply Forall_lookup. intros j d' (d0 & H0 & ->)%alter_desc. pose proof (desc_lookup_ok h Hok j d0 H0) as Hdo.
    case_decide; [|done]. by destruct Hdo.
  - intros a0 r0 H0. destruct (Hback a0 r0 H0) as (r1 & H1 & Hsp & Hds & Hcase).
    destruct (ho_arena h Hok a0 r1 H1) as [Hm Hs Hu Hc]. rewrite <- Hsp in Hs, Hu. split; [by destruct Hcase as [[-> _]|[_ ->]]|done|done|].
    rewrite Hds. destruct (a_desc r1) as [j|] eqn:Hj; [|done]. destruct Hc as (d0 & Hd0 & Hcnt). eexists.
    split; [by apply lookup_alter_desc|]. destruct Hcase as [[-> Hne]|[-> ->]].
    + case_decide; [|done]. subst j. assert (d0 = d) as -> by congruence. rewrite Hcnt. cbn [set_free_list free_list]. by rewrite Hother.
    + assert (j = i) as -> by congruence. by rewrite decide_True by done.
  - intros a0 r0 a1 r1 b H0 H1. destruct (Hback a0 r0 H0) as (r0' & H0' & -> & _), (Hback a1 r1 H1) as (r1' & H1' & -> & _).
    by apply (ho_apart h Hok a0 r0' a1 r1').
  - intros j d' b (d0 & Hd0 & ->)%alter_desc Hb.
    assert (exists a0 r0, arenas h !! a0 = Some r0 /\ a_desc r0 = Some j /\ b ∈ blocks a0 d0) as (a0 & r0 & H0 & Hj & Hbl).
    { destruct (decide (j = i)) as [->|Hne]; [|by apply (ho_free h Hok)]. assert (d0 = d) as -> by congruence.
      destruct (Hin b Hb) as [Hb'|Hb']; [by apply (ho_free h Hok)|by exists a, r]. }
    assert (b ∈ blocks a0 (if decide (j = i) then set_free_list l d0 else d0)) as Hbl' by (by case_decide).
    destruct (decide (a0 = a)) as [->|Hne]; cbn [relist arenas].
    + eexists a, _. rewrite lookup_insert_eq. split; [done|]. split; [cbn; congruence|done].
    + exists a0, r0. by rewrite lookup_insert_ne.
  - intros j d' (d0 & Hd0 & ->)%alter_desc. case_decide; [done|by apply (ho_nodup h Hok j)].
Qed.

(** Only the blocks of that descriptor that are in the free lists matter. *)
Lemma relist_block q m :
  block_at (relist h a i l hb) q m <->
  exists a0 r0, arenas h !! a0 = Some r0 /\
    match a_desc r0 with
    | Some j => exists d0, descs h !! j = Some d0 /\ q ∈ blocks a0 d0 /\
                  (q ∉ if decide (j = i) then l else free_list d0) /\ m = d_block_size d0
    | None => q = a0 + SIZEOF_ARENA /\ m = PGSIZE * free_cnt r0 - SIZEOF_ARENA
    end.
Proof using All.
  assert (forall a0 r0, arenas (relist h a i l hb) !! a0 = Some r0 <-> (a0 <> a /\ arenas h !! a0 = Some r0) \/
            (a0 = a /\ r0 = mkArena ARENA_MAGIC (Some i) (Zlen (free_in a l)))) as Har.
  { intros a0 r0. cbn. rewrite lookup_insert_Some. naive_solver. }
  assert (forall j a0 (P : Z -> Prop), (exists d0, descs (relist h a i l hb) !! j = Some d0 /\ q ∈ blocks a0 d0 /\ (q ∉ free_list d0) /\ P (d_block_size d0)) <->
            exists d0, descs h !! j = Some d0 /\ q ∈ blocks a0 d0 /\ (q ∉ if decide (j = i) then l else free_list d0) /\ P (d_block_size d0)) as Hde.
  { intros j a0 P. split.
    - intros (d1 & (d0 & Hd0 & ->)%alter_desc & Hq). exists d0. split; [done|]. by case_decide.
    - intros (d0 & Hd0 & Hq). eexists. split; [by apply lookup_alter_desc|]. by case_decide. }
  unfold block_at. split.
  - intros (a0 & r0 & [[Hne H0]|[-> ->]]%Har & Hm).
    + exists a0, r0. split; [done|]. destruct (a_desc r0); [|done]. by apply (Hde n a0 (fun z => m = z)).
    + exists a, r. split; [done|]. rewrite Hi. by apply (Hde i a (fun z => m = z)).
  - intros (a0 & r0 & H0 & Hm). destruct (decide (a0 = a)) as [->|Hne].
    + assert (r0 = r) as -> by congruence. rewrite Hi in Hm. eexists a, _. split; [apply Har; by right|]. cbn [a_desc].
      by apply (Hde i a (fun z => m = z)).
    + exists a0, r0. split; [apply Har; by left|]. destruct (a_desc r0); [|done]. by apply (Hde n a0 (fun z => m = z)).
Qed.

End relist.

(** Blocks of different arenas are different. *)
Lemma block_arena_unique h a r i d a' r' d' b :
  heap_ok h -> arenas h !! a = Some r -> arenas h !! a' = Some r' -> a_desc r = Some i -> a_desc r' = Some i ->
  descs h !! i = Some d -> d' = d -> b ∈ blocks a d -> b ∈ blocks a' d' -> a' = a.
Proof.
  intros Hok Ha Ha' Hi Hi' Hd -> Hb Hb'. pose proof (desc_lookup_ok h Hok i d Hd) as Hdo.
  rewrite <- (block_round a d b), <- (block_round a' d b); try done; [by apply (arena_page h Hok a' r')|by apply (arena_page h Hok a r)].
Qed.

(** Taking the first free block. *)
Lemma take_block h i d b rest hb :
  heap_ok h -> descs h !! i = Some d -> free_list d = b :: rest ->
  exists a r, arenas h !! a = Some r /\ a_desc r = Some i /\ b ∈ blocks a d /\
    Zlen (free_in a rest) = free_cnt r - 1 /\ heap_ok (relist h a i rest hb) /\
    forall q m, block_at (relist h a i rest hb) q m <-> block_at h q m \/ (q = b /\ m = d_block_size d).
Proof.
  intros Hok Hd Hl. destruct (ho_free h Hok i d b Hd) as (a & r & Ha & Hi & Hb); [rewrite Hl; apply list_elem_of_here|].
  pose proof (ho_nodup h Hok i d Hd) as Hnd. rewrite Hl in Hnd. apply NoDup_cons in Hnd as [Hnb Hnd].
  pose proof (desc_lookup_ok h Hok i d Hd) as Hdo. pose proof (arena_page h Hok a r Ha) as Hp.
  pose proof (block_round a d b Hp Hdo Hb) as Hround.
  exists a, r. split; [done|]. split; [done|]. split; [done|]. split; [|split].
  - pose proof (ao_desc _ _ _ (ho_arena h Hok a r Ha)) as Hc. rewrite Hi in Hc. destruct Hc as (d' & Hd' & ->).
    assert (d' = d) as -> by congruence. rewrite Hl. unfold free_in. rewrite filter_cons_True by done. cbn [length]. lia.
  - apply (relist_ok h Hok a r i d rest hb); [done|done|done|done| |].
    + intros c Hc. left. rewrite Hl. by apply list_elem_of_further.
    + intros a' Hne. rewrite Hl. unfold free_in. rewrite filter_cons_False by congruence. done.
  - intros q m. rewrite (relist_block h Hok a r i d rest hb Ha Hi Hd). split.
    + intros (a0 & r0 & H0 & Hm). destruct (decide (q = b /\ m = d_block_size d)) as [?|Hno]; [by right|left].
      exists a0, r0. split; [done|]. destruct (a_desc r0) as [j|]; [|done]. destruct Hm as (d0 & Hd0 & Hq & Hnq & ->).
      exists d0. split; [done|]. split; [done|]. split; [|done]. case_decide; [|done]. subst j. assert (d0 = d) as -> by congruence.
      rewrite Hl, elem_of_cons. naive_solver.
    + intros [(a0 & r0 & H0 & Hm)|[-> ->]].
      * exists a0, r0. split; [done|]. destruct (a_desc r0) as [j|]; [|done]. destruct Hm as (d0 & Hd0 & Hq & Hnq & ->).
        exists d0. split; [done|]. split; [done|]. split; [|done]. case_decide; [|done]. subst j. assert (d0 = d) as -> by congruence.
        rewrite Hl, not_elem_of_cons in Hnq. tauto.
      * exists a, r. split; [done|]. rewrite Hi. exists d. rewrite decide_True by done. done.
Qed.

(** Giving a block back. *)
Lemma give_block h a r i d b hb :
  heap_ok h -> arenas h !! a = Some r -> a_desc r = Some i -> descs h !! i = Some d -> b ∈ blocks a d -> b ∉ free_list d ->
  heap_ok (relist h a i (b :: free_list d) hb) /\ Zlen (free_in a (b :: free_list d)) = free_cnt r + 1 /\
  forall q m, block_at (relist h a i (b :: free_list d) hb) q m <-> block_at h q m /\ q <> b.
Proof.
  intros Hok Ha Hi Hd Hb Hnb. pose proof (desc_lookup_ok h Hok i d Hd) as Hdo. pose proof (arena_page h Hok a r Ha) as Hp.
  pose proof (block_round a d b Hp Hdo Hb) as Hround. split; [|split].
  - apply (relist_ok h Hok a r i d); [done|done|done| | |].
    + apply NoDup_cons. split; [done|by apply (ho_nodup h Hok i)].
    + intros c [->|Hc]%elem_of_cons; [by right|by left].
    + intros a' Hne. unfold free_in. by rewrite filter_cons_False by congruence.
  - pose proof (ao_desc _ _ _ (ho_arena h Hok a r Ha)) as Hc. rewrite Hi in Hc. destruct Hc as (d' & Hd' & ->).
    assert (d' = d) as -> by congruence. unfold free_in. rewrite filter_cons_True by done. cbn [length]. lia.
  - intros q m. rewrite (relist_block h Hok a r i d _ hb Ha Hi Hd). split.
    + intros (a0 & r0 & H0 & Hm). assert (q <> b) as Hqb.
      { intros ->. destruct (a_desc r0) as [j|] eqn:Hj.
        - destruct Hm as (d0 & Hd0 & Hq & Hnq & ->). assert (a0 = a) as ->.
          { apply (arenas_apart h Hok a0 r0 a r b); [done|done| |].
            - destruct (block_extent h Hok a0 r0 b (d_block_size d0) H0); [rewrite Hj; naive_solver|]. unfold SIZEOF_ARENA in *. lia.
            - destruct (block_extent h Hok a r b (d_block_size d) Ha); [rewrite Hi; naive_solver|]. unfold SIZEOF_ARENA in *. lia. }
          assert (j = i) as -> by congruence. rewrite decide_True in Hnq by done. apply Hnq, list_elem_of_here.
        - destruct Hm as [-> _]. assert (a0 = a) as ->; [|congruence].
          apply (arenas_apart h Hok a0 r0 a r (a0 + SIZEOF_ARENA)); [done|done| |].
          + pose proof (ao_span _ _ _ (ho_arena h Hok a0 r0 H0)). unfold SIZEOF_ARENA, PGSIZE in *. lia.
          + destruct (block_extent h Hok a r (a0 + SIZEOF_ARENA) (d_block_size d) Ha); [rewrite Hi; naive_solver|]. unfold SIZEOF_ARENA in *. lia. }
      split; [|done]. exists a0, r0. split; [done|]. destruct (a_desc r0) as [j|]; [|done].
      destruct Hm as (d0 & Hd0 & Hq & Hnq & ->). exists d0. split; [done|]. split; [done|]. split; [|done]. case_decide; [|done].
      subst j. assert (d0 = d) as -> by congruence. rewrite not_elem_of_cons in Hnq. tauto.
    + intros [(a0 & r0 & H0 & Hm) Hqb]. exists a0, r0. split; [done|]. destruct (a_desc r0) as [j|]; [|done].
      destruct Hm as (d0 & Hd0 & Hq & Hnq & ->). exists d0. split; [done|]. split; [done|]. split; [|done]. case_decide; [|done].
      subst j. assert (d0 = d) as -> by congruence. by apply not_elem_of_cons.
Qed.

(** * New arenas *)

Lemma arena_to_block_run h a r i d k :
  page_at a -> arenas h !! a = Some r -> magic r = ARENA_MAGIC -> a_desc r = Some i -> descs h !! i = Some d ->
  0 <= k < blocks_per_arena d -> arena_to_block a k h = Ok (block_of a d k, h).
Proof.
  intros Hp Ha Hm Hi Hd Hk. unfold arena_to_block. rewrite (run_bind _ _ _ tt h) by (by rewrite page_nonnull).
  rewrite (run_bind _ _ _ r h) by by apply arena_run. rewrite (run_bind _ _ _ tt h) by (by rewrite Hm). rewrite Hi.
  rewrite (run_bind _ _ _ d h) by by apply desc_run.
  by rewrite (run_bind _ _ _ tt h) by (apply run_assert, Z.ltb_lt; lia).
Qed.

(** The bytes outside a range are as they were. *)
Definition bytes_kept (lo hi : Z) (m m' : gmap Z Z) : Prop := forall x, ~ lo <= x < hi -> m' !! x = m !! x.

Lemma alter_free_lists (l l' : list Z) (i : nat) (ds : list desc) :
  alter (set_free_list l') i (alter (set_free_list l) i ds) = alter (set_free_list l') i ds.
Proof. rewrite list_alter_alter_eq. by apply list_alter_ext. Qed.

Lemma alter_const (f : list Z -> list Z) (i : nat) (ds : list desc) d :
  ds !! i = Some d -> alter (fun d => set_free_list (f (free_list d)) d) i ds = alter (set_free_list (f (free_list d))) i ds.
Proof. intros Hd. apply list_alter_ext; [|done]. intros d'. rewrite Hd. by intros [= <-]. Qed.

Lemma add_blocks_run a r i d n : forall idx h,
  page_at a -> desc_ok d -> arenas h !! a = Some r -> magic r = ARENA_MAGIC -> a_desc r = Some i -> descs h !! i = Some d ->
  0 <= idx -> idx + Z.of_nat n = blocks_per_arena d ->
  exists hb, add_blocks n a idx i h =
      Ok (tt, mkHeap (hpages h) (arenas h)
                (alter (set_free_list (free_list d ++ (block_of a d <$> seqZ idx (Z.of_nat n)))) i (descs h)) hb) /\
    bytes_kept a (a + PGSIZE) (hbytes h) hb.
Proof.
  revert d. induction n as [|n IH]; intros d idx h Hp Hdo Ha Hm Hi Hd H0 Hn; cbn [add_blocks].
  - exists (hbytes h). split; [|by intros ??]. rewrite app_nil_r. assert (alter (set_free_list (free_list d)) i (descs h) = descs h) as ->.
    { apply list_eq. intros j. destruct (decide (j = i)) as [->|]; [rewrite list_lookup_alter_eq, Hd; by destruct d|by rewrite list_lookup_alter_ne]. }
    by destruct h.
  - set (b := block_of a d idx). rewrite (run_bind _ _ _ b h) by (by apply (arena_to_block_run h a r i d); [..|lia]).
    set (h1 := set_hbytes (put_bytes b SIZEOF_LIST_ELEM None (hbytes h)) h). rewrite (run_bind _ _ _ tt h1) by done.
    set (d1 := set_free_list (free_list d ++ [b]) d).
    set (h2 := set_descs (alter (set_free_list (free_list d ++ [b])) i (descs h1)) h1).
    rewrite (run_bind _ _ _ tt h2).
    2:{ unfold upd_free_list, hmodify, h2. do 2 f_equal. change (descs h1) with (descs h).
        by rewrite (alter_const (fun l => l ++ [b]) i (descs h) d). }
    destruct (IH d1 (idx + 1) h2) as (hb & Hr & Hb); [done|by destruct Hdo|done|done|done| |lia|cbn; lia|].
    { cbn. by rewrite list_lookup_alter_eq, Hd. }
    exists hb. split.
    + rewrite Hr. cbn [h2 h1 set_descs set_hbytes hpages arenas descs d1 set_free_list free_list]. do 3 f_equal.
      rewrite alter_free_lists. f_equal. f_equal. rewrite <- app_assoc. f_equal. rewrite (seqZ_cons idx) by lia. cbn [fmap list_fmap app].
      rewrite Z.add_1_r. do 3 f_equal. lia.
    + intros x Hx. rewrite Hb by done. change (hbytes h2) with (put_bytes b SIZEOF_LIST_ELEM None (hbytes h)). rewrite put_bytes_lookup, decide_False; [done|].
      pose proof (desc_fits d idx Hdo ltac:(lia)). destruct Hdo as [? _]. unfold b, block_of, SIZEOF_LIST_ELEM, SIZEOF_ARENA, PGSIZE in *. lia.
Qed.

Lemma free_in_all a d : page_at a -> desc_ok d -> free_in a (blocks a d) = blocks a d.
Proof.
  intros Hp Hd. unfold free_in. assert (forall b, b ∈ blocks a d -> pg_round_down b = a) as H by (intros b; by apply block_round).
  induction (blocks a d) as [|b l IH]; [done|]. rewrite filter_cons_True by (apply H, list_elem_of_here).
  f_equal. apply IH. intros c Hc. apply H. by apply list_elem_of_further.
Qed.

Lemma free_in_none a l : (forall b, b ∈ l -> pg_round_down b <> a) -> free_in a l = [].
Proof.
  induction l as [|b l IH]; intros H; [done|]. unfold free_in. rewrite filter_cons_False by (apply H, list_elem_of_here).
  apply IH. intros c Hc. apply H. by apply list_elem_of_further.
Qed.

(** Memory with more pages in use. *)
Definition more_pages (m m' : pmem) (a n : Z) : Prop :=
  mem_ok m' /\ page_at a /\ 0 < n /\ (forall b, group a n b -> ~ used m b /\ pool_used (kernel_pool m') b) /\
  (forall b, pool_used (kernel_pool m) b -> pool_used (kernel_pool m') b).

Lemma get_pages m cnt :
  mem_ok m -> 0 < cnt ->
  palloc_get_multiple 0 cnt m = Ok (NULL, m) \/
  exists a m', palloc_get_multiple 0 cnt m = Ok (a, m') /\ more_pages m m' a cnt.
Proof.
  intros Hm Hc. destruct (palloc_get_ok 0 cnt m Hm Hc) as [(a & m' & H1 & H2 & H3 & H4 & H5 & H6 & H7 & _)|[_ E]]; [right|left; exact E].
  exists a, m'. split; [done|]. change (get_pool (user_flag 0) m) with (get_pool false m) in H5.
  assert (forall b, group a cnt b -> ~ used m b /\ pool_used (kernel_pool m') b) as Hg.
  { intros b Hb. destruct (H5 b Hb) as [Hin Hnu]. split; [done|]. change (kernel_pool m') with (get_pool false m').
    apply used_in_pool; [done|apply H6; by right|]. by apply (same_pools_in m m' false). }
  split; [done|]. split; [|split; [done|split; [done|]]].
  - apply (pool_used_page (kernel_pool m')); [apply (mo_kernel _ H2)|]. apply Hg. exists 0. lia.
  - intros b Hb. change (kernel_pool m') with (get_pool false m'). apply used_in_pool; [done|apply H6; left; by left|].
    apply (same_pools_in m m' false); [done|]. apply Hb.
Qed.

(** An arena on new pages. *)
Section new_arena.
Context (h : heap) (Hok : heap_ok h) (m' : pmem) (a n : Z) (Hmore : more_pages (hpages h) m' a n).

Lemma new_arena_fresh a' r' b : arenas h !! a' = Some r' -> group a n b -> group a' (span r') b -> False.
Proof using All.
  intros Ha Hb Hb'. destruct Hmore as (_ & _ & _ & Hnew & _). destruct (Hnew b Hb) as [Hnu _]. apply Hnu. left.
  by apply (ao_used _ _ _ (ho_arena h Hok a' r' Ha)).
Qed.

Lemma new_arena_unused : arenas h !! a = None.
Proof using All.
  destruct (arenas h !! a) as [r|] eqn:Ha; [|done]. exfalso. pose proof Hmore as (_ & _ & Hn & _).
  apply (new_arena_fresh a r a Ha); [exists 0; lia|]. exists 0. pose proof (ao_span _ _ _ (ho_arena h Hok a r Ha)). lia.
Qed.

(** A big block. *)
Definition big_heap : heap := mkHeap m' (<[a := mkArena ARENA_MAGIC None n]> (arenas h)) (descs h) (hbytes h).

(** An arena all of whose blocks are free. *)
Definition small_heap (i : nat) (d : desc) (hb : gmap Z Z) : heap :=
  mkHeap m' (<[a := mkArena ARENA_MAGIC (Some i) (blocks_per_arena d)]> (arenas h))
    (alter (set_free_list (blocks a d)) i (descs h)) hb.

Lemma arena_moved h' a' r' : arenas h !! a' = Some r' -> hpages h' = m' ->
  (forall i d, a_desc r' = Some i -> descs h !! i = Some d -> exists d', descs h' !! i = Some d' /\ free_in a' (free_list d') = free_in a' (free_list d)) ->
  arena_ok h' a' r'.
Proof using All.
  intros Ha Hp Hd. destruct (ho_arena h Hok a' r' Ha) as [Hm Hs Hu Hc]. pose proof Hmore as (_ & _ & _ & _ & Hold).
  split; [done|done| |].
  - intros b Hb. rewrite Hp. by apply Hold, Hu.
  - destruct (a_desc r') as [i|]; [|done]. destruct Hc as (d & Hdi & Hcnt). destruct (Hd i d eq_refl Hdi) as (d' & Hd' & He).
    exists d'. by rewrite He.
Qed.

Lemma apart_new r0 : span r0 = n -> forall a1 r1 a2 r2 b,
  <[a := r0]> (arenas h) !! a1 = Some r1 -> <[a := r0]> (arenas h) !! a2 = Some r2 ->
  group a1 (span r1) b -> group a2 (span r2) b -> a1 = a2.
Proof using All.
  intros Hs a1 r1 a2 r2 b [[<- <-]|[_ H1]]%lookup_insert_Some [[<- <-]|[_ H2]]%lookup_insert_Some G1 G2.
  - done.
  - exfalso. rewrite Hs in G1. by apply (new_arena_fresh a2 r2 b).
  - exfalso. rewrite Hs in G2. by apply (new_arena_fresh a1 r1 b).
  - by apply (ho_apart h Hok a1 r1 a2 r2 b).
Qed.

Lemma big_heap_ok : heap_ok big_heap.
Proof using All.
  pose proof Hmore as (Hm' & Hp & Hn & Hnew & Hold). split; cbn [big_heap hpages arenas descs].
  - done.
  - apply (ho_descs h Hok).
  - intros a1 r1 [[<- <-]|[Hne H1]]%lookup_insert_Some.
    + split; [done|done| |done]. intros b Hb. by apply Hnew.
    + apply arena_moved; [done|done|]. intros i d _ Hd. by exists d.
  - by apply apart_new.
  - intros i d b Hd Hb. destruct (ho_free h Hok i d b Hd Hb) as (a1 & r1 & H1 & Hr). exists a1, r1.
    rewrite lookup_insert_ne; [done|]. intros <-. by rewrite new_arena_unused in H1.
  - apply (ho_nodup h Hok).
Qed.

Lemma big_heap_blocks q k :
  block_at big_heap q k <-> block_at h q k \/ (q = a + SIZEOF_ARENA /\ k = PGSIZE * n - SIZEOF_ARENA).
Proof using All.
  unfold block_at, big_heap. cbn [arenas descs]. split.
  - intros (a1 & r1 & [[<- <-]|[Hne H1]]%lookup_insert_Some & Hm); [by right|left; by exists a1, r1].
  - intros [(a1 & r1 & H1 & Hm)|Hm].
    + exists a1, r1. split; [|done]. rewrite lookup_insert_ne; [done|]. intros <-. by rewrite new_arena_unused in H1.
    + eexists a, _. by rewrite lookup_insert_eq.
Qed.

Lemma small_heap_ok i d hb : n = 1 -> descs h !! i = Some d -> free_list d = [] -> heap_ok (small_heap i d hb).
Proof using All.
  intros Hn1 Hd Hl. pose proof Hmore as (Hm' & Hp & Hn & Hnew & Hold). pose proof (desc_lookup_ok h Hok i d Hd) as Hdo.
  split; cbn [small_heap hpages arenas descs].
  - done.
  - apply Forall_lookup. intros j d' (d0 & H0 & ->)%alter_desc. pose proof (desc_lookup_ok h Hok j d0 H0) as Hdo'.
    case_decide; [|done]. by destruct Hdo'.
  - intros a1 r1 [[<- <-]|[Hne H1]]%lookup_insert_Some.
    + split; [done|done| |].
      * cbn. intros b Hb. apply Hnew. by rewrite Hn1.
      * cbn. exists (set_free_list (blocks a d) d). rewrite list_lookup_alter_eq, Hd. split; [done|].
        cbn [set_free_list free_list]. by rewrite free_in_all, blocks_length.
    + apply arena_moved; [done|done|]. intros j d0 _ Hd0. eexists. split; [by apply lookup_alter_desc|].
      case_decide; [|done]. subst j. assert (d0 = d) as -> by congruence. rewrite Hl. cbn [set_free_list free_list].
      apply free_in_none. intros b Hb. rewrite (block_round a d b) by done. done.
  - by apply apart_new.
  - intros j d' b (d0 & Hd0 & ->)%alter_desc Hb. destruct (decide (j = i)) as [->|Hne].
    + assert (d0 = d) as -> by congruence. eexists a, _. rewrite lookup_insert_eq. done.
    + destruct (ho_free h Hok j d0 b Hd0 Hb) as (a1 & r1 & H1 & Hr). exists a1, r1.
      rewrite lookup_insert_ne; [done|]. intros <-. by rewrite new_arena_unused in H1.
  - intros j d' (d0 & Hd0 & ->)%alter_desc. case_decide; [by apply blocks_nodup|by apply (ho_nodup h Hok j)].
Qed.

Lemma small_heap_blocks i d hb q k :
  n = 1 -> descs h !! i = Some d -> free_list d = [] -> block_at (small_heap i d hb) q k <-> block_at h q k.
Proof using All.
  intros Hn1 Hd Hl. unfold block_at, small_heap. cbn [arenas descs]. pose proof Hmore as (Hm' & Hp & Hn & Hnew & Hold).
  pose proof (desc_lookup_ok h Hok i d Hd) as Hdo. split.
  - intros (a1 & r1 & [[<- <-]|[Hne H1]]%lookup_insert_Some & Hm).
    + cbn in Hm. destruct Hm as (d' & (d0 & Hd0 & ->)%alter_desc & Hq & Hnq & _). rewrite decide_True in Hq, Hnq by done.
      assert (d0 = d) as -> by congruence. done.
    + exists a1, r1. split; [done|]. destruct (a_desc r1) as [j|]; [|done]. destruct Hm as (d' & (d0 & Hd0 & ->)%alter_desc & Hq & Hnq & ->).
      exists d0. case_decide; [|done]. subst j. assert (d0 = d) as -> by congruence. split; [done|]. split; [done|]. rewrite Hl. split; [apply not_elem_of_nil|done].
  - intros (a1 & r1 & H1 & Hm). assert (a1 <> a) as Hne by (intros ->; by rewrite new_arena_unused in H1).
    exists a1, r1. rewrite lookup_insert_ne by done. split; [done|]. destruct (a_desc r1) as [j|] eqn:Hj; [|done].
    destruct Hm as (d0 & Hd0 & Hq & Hnq & ->). eexists. split; [by apply lookup_alter_desc|]. case_decide; [|done]. subst j.
    assert (d0 = d) as -> by congruence. split; [done|]. split; [|done]. cbn [set_free_list free_list]. intros Hqb. apply Hne.
    rewrite <- (block_round a d q), <- (block_round a1 d q); try done. by apply (arena_page h Hok a1 r1).
Qed.

End new_arena.

(** * Allocation *)

Lemma new_arena_run h i d :
  heap_ok h -> descs h !! i = Some d -> free_list d = [] ->
  new_arena i h = Ok (false, h) \/
  exists a m' hb, new_arena i h = Ok (true, small_heap h m' a i d hb) /\ more_pages (hpages h) m' a 1 /\
    bytes_kept a (a + PGSIZE) (hbytes h) hb.
Proof.
  intros Hok Hd Hl. pose proof (desc_lookup_ok h Hok i d Hd) as Hdo. unfold new_arena.
  destruct (get_pages (hpages h) 1 (ho_mem h Hok) ltac:(lia)) as [E|(a & m' & E & Hmore)].
  - left. rewrite (run_bind _ _ _ NULL h); [done|]. unfold liftm, palloc_get_page. rewrite E. by destruct h.
  - right. set (h1 := set_hpages m' h). rewrite (run_bind _ _ _ a h1) by (unfold liftm, palloc_get_page; by rewrite E).
    pose proof Hmore as (_ & Hp & _). rewrite page_nonnull by done. rewrite (run_bind _ _ _ d h1) by by apply desc_run.
    set (r := mkArena ARENA_MAGIC (Some i) (blocks_per_arena d)).
    set (h2 := set_arenas (<[a := r]> (arenas h1)) h1). rewrite (run_bind _ _ _ tt h2) by done.
    destruct (add_blocks_run a r i d (Z.to_nat (blocks_per_arena d)) 0 h2) as (hb & Hr & Hb);
      [done|done|apply lookup_insert_eq|done|done|done|lia|pose proof (desc_count_pos d Hdo); lia|].
    exists a, m', hb. split; [|done]. rewrite (run_bind _ _ _ _ _ Hr). unfold small_heap, mret, st_ret. do 2 f_equal.
    cbn [h2 h1 set_arenas set_hpages hpages arenas descs]. f_equal. rewrite Hl. cbn [app]. unfold blocks.
    by rewrite Z2Nat.id by (pose proof (desc_count_pos d Hdo); lia).
Qed.

Lemma find_desc_spec ds size i : forall k, find_desc ds k size = Some i ->
  (k <= i)%nat /\ exists d, ds !! (i - k)%nat = Some d /\ size <= d_block_size d.
Proof.
  induction ds as [|d ds IH]; intros k; cbn [find_desc]; [done|]. destruct (Z.leb_spec size (d_block_size d)).
  - intros [= ->]. split; [lia|]. exists d. rewrite Nat.sub_diag. done.
  - intros (Hk & d' & Hd' & Hs)%IH. split; [lia|]. exists d'. replace (i - k)%nat with (S (i - S k)) by lia. done.
Qed.

(** The bytes of the blocks that have been handed out are as they were. *)
Definition contents_kept (h h' : heap) : Prop :=
  forall q m x, block_at h q m -> block_at h' q m -> q <= x < q + m -> hbytes h' !! x = hbytes h !! x.

(** The result of a successful allocation. *)
Record allocated (size p n : Z) (h h' : heap) : Prop := {
  al_ok : heap_ok h';
  al_size : size <= n;
  al_nonnull : p <> NULL;
  al_blocks : forall q m, block_at h' q m <-> block_at h q m \/ (q = p /\ m = n);
  al_fresh : forall m, ~ block_at h p m;
  al_bytes : forall q m x, block_at h q m -> q <= x < q + m -> hbytes h' !! x = hbytes h !! x;
  al_pages : forall b, pool_used (kernel_pool (hpages h)) b -> pool_used (kernel_pool (hpages h')) b
}.

Lemma free_not_block h i d b m : heap_ok h -> descs h !! i = Some d -> b ∈ free_list d -> ~ block_at h b m.
Proof.
  intros Hok Hd Hb (a1 & r1 & H1 & Hm). destruct (ho_free h Hok i d b Hd Hb) as (a & r & Ha & Hi & Hbl).
  destruct (block_extent h Hok a r b (d_block_size d) Ha) as (E1 & E2 & E3); [rewrite Hi; naive_solver|].
  destruct (block_extent h Hok a1 r1 b m H1) as (F1 & F2 & F3); [destruct (a_desc r1); naive_solver|].
  assert (a1 = a) as -> by (apply (arenas_apart h Hok a1 r1 a r b); [done|done|unfold SIZEOF_ARENA in *; lia..]).
  assert (r1 = r) as -> by congruence. rewrite Hi in Hm. destruct Hm as (d' & Hd' & _ & Hnb & _). congruence.
Qed.

(** Taking a block from a non-empty free list. *)
Lemma pop_run h i d b rest :
  heap_ok h -> descs h !! i = Some d -> free_list d = b :: rest ->
  exists h', (upd_free_list i tail;; a ← block_to_arena b; r ← get_arena a;
     put_arena a (mkArena (magic r) (a_desc r) (u32 (free_cnt r - 1)));; mret b) h = Ok (b, h') /\
    hpages h' = hpages h /\ hbytes h' = hbytes h /\ heap_ok h' /\ b <> NULL /\ (forall m, ~ block_at h b m) /\
    forall q m, block_at h' q m <-> block_at h q m \/ (q = b /\ m = d_block_size d).
Proof.
  intros Hok Hd Hl. destruct (take_block h i d b rest (hbytes h) Hok Hd Hl) as (a & r & Ha & Hi & Hb & Hcnt & Hok' & Hbl).
  exists (relist h a i rest (hbytes h)). split.
  - set (h1 := set_descs (alter (set_free_list rest) i (descs h)) h). rewrite (run_bind _ _ _ tt h1).
    2:{ unfold upd_free_list, hmodify, h1. rewrite (alter_const tail i (descs h) d Hd). by rewrite Hl. }
    assert (block_to_arena b h1 = Ok (a, h1)) as Hba.
    { pose proof (arena_page h Hok a r Ha) as Hp. pose proof (desc_lookup_ok h Hok i d Hd) as Hdo.
      unfold block_to_arena. rewrite (block_round a d b) by done.
      rewrite (run_bind _ _ _ tt h1) by (by rewrite page_nonnull). rewrite (run_bind _ _ _ r h1) by by apply arena_run.
      rewrite (run_bind _ _ _ tt h1) by (by rewrite (ao_magic _ _ _ (ho_arena h Hok a r Ha))). rewrite Hi.
      rewrite (run_bind _ _ _ (set_free_list rest d) h1) by (apply desc_run; cbn; by rewrite list_lookup_alter_eq, Hd).
      apply elem_blocks in Hb as (k & Hk & ->).
      by rewrite (run_bind _ _ _ tt h1) by (cbn [set_free_list d_block_size]; by rewrite (block_offset a d k)). }
    rewrite (run_bind _ _ _ _ _ Hba). rewrite (run_bind _ _ _ r h1) by by apply arena_run.
    unfold relist. destruct (ho_arena h Hok a r Ha) as [Hm _ _ Hc]. rewrite Hm, Hi. rewrite Hi in Hc. destruct Hc as (d' & Hd' & Hc).
    assert (d' = d) as -> by congruence. rewrite <- Hcnt, uwrap_id; [done|lia|].
    pose proof (desc_lookup_ok h Hok i d Hd) as Hdo. pose proof (desc_count_pos d Hdo).
    assert (Zlen (free_in a (free_list d)) <= blocks_per_arena d) as Hle.
    { rewrite <- (blocks_length a d) by done. apply Nat2Z.inj_le, submseteq_length, NoDup_submseteq.
      - apply NoDup_filter, (ho_nodup h Hok i d Hd).
      - intros x. by apply (free_in_blocks h Hok a r i d). }
    unfold in_u. lia.
  - split; [done|]. split; [done|]. split; [done|]. split; [|split; [|done]].
    + apply Z.eqb_neq. apply elem_blocks in Hb as (k & Hk & ->). pose proof (arena_page h Hok a r Ha) as (_ & Hlo & _).
      pose proof (desc_fits d k (desc_lookup_ok h Hok i d Hd) Hk). apply Z.eqb_neq. unfold block_of, NULL, PHYS_BASE, SIZEOF_ARENA in *. lia.
    + intros m. apply (free_not_block h i d); [done|done|]. rewrite Hl. apply list_elem_of_here.
Qed.

(** Requests that do not overflow when rounded up. *)
Definition request (size : Z) : Prop := 0 < size /\ size + SIZEOF_ARENA + PGSIZE < 2 ^ 32.

Lemma page_count size : request size ->
  DIV_ROUND_UP (u32 (size + SIZEOF_ARENA)) PGSIZE = (size + SIZEOF_ARENA + PGSIZE - 1) / PGSIZE /\
  0 < (size + SIZEOF_ARENA + PGSIZE - 1) / PGSIZE /\
  size + SIZEOF_ARENA <= PGSIZE * ((size + SIZEOF_ARENA + PGSIZE - 1) / PGSIZE).
Proof.
  intros [H1 H2]. unfold DIV_ROUND_UP, SIZEOF_ARENA, PGSIZE in *.
  rewrite (uwrap_id 32 ltac:(lia) (size + 12)) by (unfold in_u; lia).
  rewrite (uwrap_id 32 ltac:(lia) (size + 12 + 4096)) by (unfold in_u; lia).
  rewrite (uwrap_id 32 ltac:(lia)) by (unfold in_u; lia).
  pose proof (Z.div_mod (size + 12 + 4096 - 1) 4096 ltac:(lia)). pose proof (Z.mod_pos_bound (size + 12 + 4096 - 1) 4096 ltac:(lia)).
  split; [done|]. lia.
Qed.

(** The bytes of old blocks are not those of new pages. *)
Lemma old_block_outside h m' a n q k x :
  heap_ok h -> more_pages (hpages h) m' a n -> block_at h q k -> q <= x < q + k -> ~ a <= x < a + PGSIZE * n.
Proof.
  intros Hok Hmore (a1 & r1 & H1 & Hm) Hx Hin.
  destruct (block_extent h Hok a1 r1 q k H1) as (F1 & F2 & F3); [destruct (a_desc r1); naive_solver|].
  pose proof (arena_page h Hok a1 r1 H1) as Hp. pose proof (arena_bound h Hok a1 r1 H1) as Hb.
  assert (in_u 32 x) as Hu by (destruct Hp as (_ & Hp & _); unfold in_u, PHYS_BASE, SIZEOF_ARENA in *; lia).
  pose proof Hmore as (_ & Hpa & _).
  apply (new_arena_fresh h Hok m' a n Hmore a1 r1 (pg_round_down x)); [done| |]; apply in_group; try done.
  unfold SIZEOF_ARENA in *. lia.
Qed.

Lemma malloc_run h size :
  heap_ok h -> request size ->
  malloc size h = Ok (NULL, h) \/ exists p n h', malloc size h = Ok (p, h') /\ allocated size p n h h'.
Proof.
  intros Hok Hreq. unfold malloc. destruct (Z.eqb_spec size 0) as [->|_]; [destruct Hreq; lia|].
  rewrite !(run_bind st_get _ h h h) by done. destruct (find_desc (descs h) 0 size) as [i|] eqn:Hf.
  - apply find_desc_spec in Hf as (_ & d & Hd & Hs). rewrite Nat.sub_0_r in Hd.
    rewrite !(run_bind (get_desc i) _ h d h) by by apply desc_run. destruct (free_list d) as [|b rest] eqn:Hl.
    + destruct (new_arena_run h i d Hok Hd Hl) as [E|(a & m' & hb & E & Hmore & Hb)].
      * left. rewrite (run_bind _ _ _ _ _ E). done.
      * right. set (h1 := small_heap h m' a i d hb) in *. pose proof (small_heap_ok h Hok m' a 1 Hmore i d hb eq_refl Hd Hl) as Hok1.
        assert (descs h1 !! i = Some (set_free_list (blocks a d) d)) as Hd1 by (cbn; by rewrite list_lookup_alter_eq, Hd).
        destruct (blocks a d) as [|b rest] eqn:Hbl.
        { pose proof (blocks_length a d (desc_lookup_ok h Hok i d Hd)) as Hlen. rewrite Hbl in Hlen.
          pose proof (desc_count_pos d (desc_lookup_ok h Hok i d Hd)). cbn in Hlen. lia. }
        destruct (pop_run h1 i _ b rest Hok1 Hd1 eq_refl) as (h' & Hr & Hp & Hhb & Hok' & Hn & Hfr & Hbk).
        exists b, (d_block_size d), h'. split.
        -- rewrite (run_bind _ _ _ _ _ E). cbn [negb]. rewrite (run_bind _ _ _ _ _ (desc_run h1 i _ Hd1)). exact Hr.
        -- assert (forall q m, block_at h1 q m <-> block_at h q m) as Hsame by (intros q m; by apply (small_heap_blocks h Hok m' a 1 Hmore i d hb q m)).
           split; [done|done|done| | | |].
           ++ intros q m. rewrite Hbk, Hsame. done.
           ++ intros m. rewrite <- Hsame. apply Hfr.
           ++ intros q m x Hq Hx. rewrite Hhb. apply Hb. replace (a + PGSIZE) with (a + PGSIZE * 1) by lia.
              by apply (old_block_outside h m' a 1 q m).
           ++ intros c Hc. rewrite Hp. cbn. pose proof Hmore as (_ & _ & _ & _ & Hold). by apply Hold.
    + right. destruct (pop_run h i d b rest Hok Hd Hl) as (h' & Hr & Hp & Hhb & Hok' & Hn & Hfr & Hbk).
      exists b, (d_block_size d), h'. split.
      * rewrite (run_bind _ _ _ true h) by done. cbn [negb]. rewrite (run_bind _ _ _ _ _ (desc_run h i _ Hd)). rewrite Hl. exact Hr.
      * split; try done; intros; by rewrite ?Hhb, ?Hp.
  - destruct (page_count size Hreq) as (-> & Hpos & Hfit). set (cnt := (size + SIZEOF_ARENA + PGSIZE - 1) / PGSIZE) in *.
    destruct (get_pages (hpages h) cnt (ho_mem h Hok) Hpos) as [E|(a & m' & E & Hmore)].
    + left. rewrite (run_bind _ _ _ NULL h); [done|]. unfold liftm. rewrite E. by destruct h.
    + right. exists (a + SIZEOF_ARENA), (PGSIZE * cnt - SIZEOF_ARENA), (big_heap h m' a cnt). pose proof Hmore as (_ & Hpa & _ & _ & Hold).
      split.
      * rewrite (run_bind _ _ _ a (set_hpages m' h)) by (unfold liftm; by rewrite E). by rewrite page_nonnull.
      * split; [by apply big_heap_ok|lia| |by apply big_heap_blocks| |done|done].
        -- destruct Hpa as (_ & Hlo & _). unfold NULL, PHYS_BASE, SIZEOF_ARENA in *. lia.
        -- intros m Hm. apply (old_block_outside h m' a cnt (a + SIZEOF_ARENA) m (a + SIZEOF_ARENA) Hok Hmore Hm).
           ++ destruct Hm as (a1 & r1 & H1 & Hm). destruct (block_extent h Hok a1 r1 (a + SIZEOF_ARENA) m H1) as (F1 & F2 & F3);
                [destruct (a_desc r1); naive_solver|]. lia.
           ++ unfold SIZEOF_ARENA, PGSIZE in *. lia.
Qed.

(** * Freeing *)

Lemma remove_blocks_run a r i n : forall d idx h,
  page_at a -> desc_ok d -> arenas h !! a = Some r -> magic r = ARENA_MAGIC -> a_desc r = Some i -> descs h !! i = Some d ->
  0 <= idx -> idx + Z.of_nat n = blocks_per_arena d ->
  remove_blocks n a idx i h =
    Ok (tt, set_descs (alter (set_free_list (filter (.∉ (block_of a d <$> seqZ idx (Z.of_nat n))) (free_list d))) i (descs h)) h).
Proof.
  induction n as [|n IH]; intros d idx h Hp Hdo Ha Hm Hi Hd H0 Hn; cbn [remove_blocks].
  - unfold mret, st_ret. do 2 f_equal. assert (filter (.∉ (block_of a d <$> seqZ idx (Z.of_nat 0))) (free_list d) = free_list d) as ->.
    { clear. induction (free_list d) as [|c l IH]; [done|]. rewrite filter_cons_True by apply not_elem_of_nil. by rewrite IH. }
    assert (alter (set_free_list (free_list d)) i (descs h) = descs h) as ->; [|by destruct h].
    apply list_eq. intros j. destruct (decide (j = i)) as [->|]; [rewrite list_lookup_alter_eq, Hd; by destruct d|by rewrite list_lookup_alter_ne].
  - set (b := block_of a d idx). rewrite (run_bind _ _ _ b h) by (by apply (arena_to_block_run h a r i d); [..|lia]).
    set (l1 := filter (fun c => c <> b) (free_list d)). set (h1 := set_descs (alter (set_free_list l1) i (descs h)) h).
    rewrite (run_bind _ _ _ tt h1).
    2:{ unfold upd_free_list, hmodify, h1. by rewrite (alter_const (filter (fun c => c <> b)) i (descs h) d Hd). }
    rewrite (IH (set_free_list l1 d) (idx + 1) h1); [|done|by destruct Hdo|done|done|done|cbn; by rewrite list_lookup_alter_eq, Hd|lia|cbn; lia].
    assert (filter (.∉ (block_of a d <$> seqZ idx (Z.of_nat (S n)))) (free_list d) =
            filter (.∉ (block_of a d <$> seqZ (idx + 1) (Z.of_nat n))) l1) as ->.
    { unfold l1. rewrite list_filter_filter. apply list_filter_iff. intros c. rewrite (seqZ_cons idx) by lia. cbn [fmap list_fmap].
      rewrite not_elem_of_cons. fold b. rewrite <- Z.add_1_r. replace (Z.pred (Z.of_nat (S n))) with (Z.of_nat n) by lia. tauto. }
    unfold h1, set_descs. cbn [hpages arenas descs hbytes]. by rewrite alter_free_lists.
Qed.

(** Memory with fewer pages in use. *)
Definition fewer_pages (m m' : pmem) (a n : Z) : Prop :=
  mem_ok m' /\ forall b, pool_used (kernel_pool m) b -> ~ group a n b -> pool_used (kernel_pool m') b.

Lemma free_pages_run h a r :
  heap_ok h -> arenas h !! a = Some r ->
  forall h0, hpages h0 = hpages h -> arenas h0 = arenas h ->
  exists m', free_pages a (span r) h0 =
      Ok (tt, mkHeap m' (delete a (arenas h)) (descs h0) (put_bytes a (Z.to_nat (PGSIZE * span r)) (Some 0xcc) (hbytes h0))) /\
    fewer_pages (hpages h) m' a (span r).
Proof.
  intros Hok Ha h0 Hp Har. destruct (ho_arena h Hok a r Ha) as [_ Hs Hu _]. pose proof (arena_page h Hok a r Ha) as (Hal & _).
  destruct (palloc_free_ok false a (span r) (hpages h) (ho_mem h Hok) Hal Hs Hu) as (m' & E & Hm' & Hused & _ & Hsp).
  exists m'. split.
  - unfold free_pages. rewrite (run_bind _ _ _ tt (set_hpages m' h0)) by (unfold liftm; by rewrite Hp, E).
    rewrite <- Har. reflexivity.
  - split; [done|]. intros b Hb Hg. change (kernel_pool m') with (get_pool false m'). apply used_in_pool; [done| |].
    + apply Hused. split; [by left|done].
    + apply (same_pools_in (hpages h)); [done|apply Hb].
Qed.

Section drop.
Context (h : heap) (Hok : heap_ok h) (a : Z) (r : arena) (Ha : arenas h !! a = Some r).
Context (m' : pmem) (Hless : fewer_pages (hpages h) m' a (span r)) (hb : gmap Z Z).

(** The heap without the arena, with other free lists. *)
Definition dropped (ds : list desc) : heap := mkHeap m' (delete a (arenas h)) ds hb.

(** The free lists without the blocks of the arena. *)
Definition lists_dropped (ds : list desc) : Prop :=
  length ds = length (descs h) /\
  forall i d, descs h !! i = Some d -> exists l, ds !! i = Some (set_free_list l d) /\ NoDup l /\
    (forall b, b ∈ l <-> b ∈ free_list d /\ (a_desc r = Some i -> b ∉ blocks a d)) /\
    (forall a', a' <> a -> free_in a' l = free_in a' (free_list d)).

Lemma dropped_lookup ds i d' : lists_dropped ds -> ds !! i = Some d' ->
  exists d l, descs h !! i = Some d /\ d' = set_free_list l d /\ NoDup l /\
    (forall b, b ∈ l <-> b ∈ free_list d /\ (a_desc r = Some i -> b ∉ blocks a d)) /\
    (forall a', a' <> a -> free_in a' l = free_in a' (free_list d)).
Proof using All.
  intros [Hlen Hds] Hd'. destruct (lookup_lt_is_Some_2 (descs h) i) as [d Hd].
  { rewrite <- Hlen. by apply lookup_lt_Some in Hd'. }
  destruct (Hds i d Hd) as (l & Hl & Hrest). exists d, l. split; [done|]. split; [congruence|done].
Qed.

Lemma dropped_ok ds : lists_dropped ds -> heap_ok (dropped ds).
Proof using All.
  intros Hds. pose proof Hless as [Hm' Hkeep]. split; cbn [dropped hpages arenas descs].
  - done.
  - apply Forall_lookup. intros i d' Hd'. destruct (dropped_lookup ds i d' Hds Hd') as (d & l & Hd & -> & _).
    by destruct (desc_lookup_ok h Hok i d Hd).
  - intros a1 r1 [Hne H1]%lookup_delete_Some. destruct (ho_arena h Hok a1 r1 H1) as [M S U C]. split; [done|done| |].
    + intros b Hb. apply Hkeep; [by apply U|]. intros Hg. apply Hne. by apply (ho_apart h Hok a r a1 r1 b).
    + destruct (a_desc r1) as [i|]; [|done]. destruct C as (d & Hd & Hc). destruct Hds as [_ Hds].
      destruct (Hds i d Hd) as (l & Hl & _ & _ & Hin). eexists. split; [done|]. cbn [set_free_list free_list].
      by rewrite Hin by congruence.
  - intros a1 r1 a2 r2 b [_ H1]%lookup_delete_Some [_ H2]%lookup_delete_Some. by apply (ho_apart h Hok a1 r1 a2 r2).
  - intros i d' b Hd' Hb. destruct (dropped_lookup ds i d' Hds Hd') as (d & l & Hd & -> & _ & Hin & _).
    apply Hin in Hb as [Hb Hnb]. destruct (ho_free h Hok i d b Hd Hb) as (a1 & r1 & H1 & Hi & Hbl). exists a1, r1.
    rewrite lookup_delete_ne; [done|]. intros <-. assert (r1 = r) as -> by congruence. by apply Hnb.
  - intros i d' Hd'. by destruct (dropped_lookup ds i d' Hds Hd') as (d & l & Hd & -> & Hnd & _).
Qed.

Lemma dropped_blocks ds q m : lists_dropped ds ->
  block_at (dropped ds) q m <-> exists a1 r1, a1 <> a /\ arenas h !! a1 = Some r1 /\
    handed_out h a1 r1 q m.
Proof using All.
  intros Hds. unfold block_at. cbn [dropped arenas descs]. split.
  - intros (a1 & r1 & [Hne H1]%lookup_delete_Some & Hm). exists a1, r1. split; [done|]. split; [done|].
    destruct (a_desc r1) as [i|] eqn:Hi; [|done]. destruct Hm as (d' & Hd' & Hq & Hnq & ->).
    destruct (dropped_lookup ds i d' Hds Hd') as (d & l & Hd & -> & _ & Hin & _). exists d. split; [done|]. split; [done|]. split; [|done].
    intros Hf. apply Hnq. cbn [set_free_list free_list]. apply Hin. split; [done|]. intros Hi' Hb. apply Hne. symmetry.
    by apply (block_arena_unique h a r i d a1 r1 d q).
  - intros (a1 & r1 & Hne & H1 & Hm). exists a1, r1. rewrite lookup_delete_ne by done. split; [done|].
    destruct (a_desc r1) as [i|]; [|done]. destruct Hm as (d & Hd & Hq & Hnq & ->). destruct Hds as [_ Hds].
    destruct (Hds i d Hd) as (l & Hl & _ & Hin & _). eexists. split; [done|]. split; [done|]. split; [|done].
    cbn [set_free_list free_list]. by intros [? _]%Hin.
Qed.

End drop.

(** The result of freeing a block. *)
Record freed (p : Z) (h h' : heap) : Prop := {
  fd_ok : heap_ok h';
  fd_blocks : forall q m, block_at h' q m <-> block_at h q m /\ q <> p;
  fd_bytes : forall q m x, block_at h q m -> q <> p -> q <= x < q + m -> hbytes h' !! x = hbytes h !! x
}.

Lemma block_inside h q m : heap_ok h -> block_at h q m ->
  exists a r, arenas h !! a = Some r /\ a + SIZEOF_ARENA <= q /\ 0 < m /\ q + m <= a + PGSIZE * span r.
Proof.
  intros Hok (a & r & Ha & Hm). exists a, r. split; [done|]. apply (block_extent h Hok a r q m Ha). destruct (a_desc r); naive_solver.
Qed.

(** An arena with no block handed out, dropped. *)
Lemma drop_run h a r ds hb h0 :
  heap_ok h -> arenas h !! a = Some r -> hpages h0 = hpages h -> arenas h0 = arenas h -> descs h0 = ds -> hbytes h0 = hb ->
  lists_dropped h a r ds ->
  exists m' hb', free_pages a (span r) h0 = Ok (tt, dropped h a m' hb' ds) /\ heap_ok (dropped h a m' hb' ds) /\
    bytes_kept a (a + PGSIZE * span r) hb hb' /\
    (forall q m, block_at (dropped h a m' hb' ds) q m <-> exists a1 r1, a1 <> a /\ arenas h !! a1 = Some r1 /\
      handed_out h a1 r1 q m).
Proof.
  intros Hok Ha Hp Har <- <- Hds. destruct (free_pages_run h a r Hok Ha h0 Hp Har) as (m' & E & Hless).
  exists m', (put_bytes a (Z.to_nat (PGSIZE * span r)) (Some 0xcc) (hbytes h0)). split; [done|].
  split; [by apply (dropped_ok h Hok a r Ha)|]. split.
  - intros x Hx. rewrite put_bytes_lookup, decide_False; [done|]. pose proof (ao_span _ _ _ (ho_arena h Hok a r Ha)). unfold PGSIZE in *. lia.
  - intros q m. by apply (dropped_blocks h Hok a r Ha m' Hless).
Qed.

Lemma lists_dropped_small h a r i d :
  heap_ok h -> arenas h !! a = Some r -> a_desc r = Some i -> descs h !! i = Some d ->
  lists_dropped h a r (alter (set_free_list (filter (.∉ blocks a d) (free_list d))) i (descs h)).
Proof.
  intros Hok Ha Hi Hd. split; [apply length_alter|]. intros j d0 Hd0.
  pose proof (arena_page h Hok a r Ha) as Hp. pose proof (desc_lookup_ok h Hok i d Hd) as Hdo.
  exists (if decide (j = i) then filter (.∉ blocks a d) (free_list d) else free_list d0).
  split; [rewrite (lookup_alter_desc _ i (descs h) j d0 Hd0); case_decide; [done|by destruct d0]|].
  pose proof (ho_nodup h Hok j d0 Hd0) as Hnd. destruct (decide (j = i)) as [->|Hne].
  - assert (d0 = d) as -> by congruence. split; [by apply NoDup_filter|]. split.
    + intros b. rewrite list_elem_of_filter. naive_solver.
    + intros a' Hne. unfold free_in. rewrite list_filter_filter. apply list_filter_iff. intros b. split; [tauto|].
      intros Hr. split; [done|]. intros Hb. apply Hne. by rewrite <- Hr, (block_round a d b).
  - split; [done|]. split; [|done]. intros b. split; [|tauto]. intros Hb. split; [done|]. congruence.
Qed.

Lemma lists_dropped_big h a r : heap_ok h -> a_desc r = None -> lists_dropped h a r (descs h).
Proof.
  intros Hok Hn. split; [done|]. intros i d Hd. exists (free_list d). split; [by destruct d|]. split; [by apply (ho_nodup h Hok i)|].
  split; [|done]. intros b. split; [|tauto]. intros Hb. split; [done|]. congruence.
Qed.

Lemma free_big h a r :
  heap_ok h -> arenas h !! a = Some r -> a_desc r = None ->
  exists h', free (a + SIZEOF_ARENA) h = Ok (tt, h') /\ freed (a + SIZEOF_ARENA) h h'.
Proof.
  intros Hok Ha Hn. pose proof (arena_page h Hok a r Ha) as (_ & Hlo & _).
  destruct (drop_run h a r (descs h) (hbytes h) h Hok Ha eq_refl eq_refl eq_refl eq_refl (lists_dropped_big h a r Hok Hn)) as
    (m' & hb' & E & Hok' & Hkept & Hbl).
  assert (forall q m, block_at h q m -> q <> a + SIZEOF_ARENA -> exists a1 r1, a1 <> a /\ arenas h !! a1 = Some r1 /\
     handed_out h a1 r1 q m) as Hother.
  { intros q m (a1 & r1 & H1 & Hm) Hq. exists a1, r1. split; [|done]. intros ->. assert (r1 = r) as -> by congruence.
    rewrite Hn in Hm. by destruct Hm as [-> _]. }
  eexists. split; [|split; [exact Hok'| |]].
  - unfold free. destruct (Z.eqb_spec (a + SIZEOF_ARENA) NULL) as [Hz|_]; [unfold NULL, PHYS_BASE, SIZEOF_ARENA in *; lia|].
    rewrite (run_bind _ _ _ a h) by by apply (block_to_arena_big h Hok a r). rewrite (run_bind _ _ _ r h) by by apply arena_run.
    rewrite Hn. replace (free_cnt r) with (span r) by (unfold span; by rewrite Hn). exact E.
  - intros q m. rewrite Hbl. split.
    + intros (a1 & r1 & Hne & H1 & Hm). split; [by exists a1, r1|]. intros ->. apply Hne.
      apply (arenas_apart h Hok a1 r1 a r (a + SIZEOF_ARENA)); [done|done| |].
      * destruct (block_extent h Hok a1 r1 (a + SIZEOF_ARENA) m H1) as (F1 & F2 & F3); [destruct (a_desc r1); naive_solver|].
        unfold SIZEOF_ARENA in *. lia.
      * pose proof (ao_span _ _ _ (ho_arena h Hok a r Ha)). unfold SIZEOF_ARENA, PGSIZE in *. lia.
    + intros [Hq Hne]. by apply Hother.
  - intros q m x Hq Hne Hx. apply Hkept. intros Hin. destruct (Hother q m Hq Hne) as (a1 & r1 & Hne1 & H1 & Hm).
    destruct (block_extent h Hok a1 r1 q m H1) as (F1 & F2 & F3); [destruct (a_desc r1); naive_solver|].
    apply Hne1. apply (arenas_apart h Hok a1 r1 a r x); [done|done|unfold SIZEOF_ARENA in *; lia|done].
Qed.

(** An arena all of whose blocks are free. *)
Lemma drop_full h a r i d :
  heap_ok h -> arenas h !! a = Some r -> a_desc r = Some i -> descs h !! i = Some d ->
  Zlen (free_in a (free_list d)) = blocks_per_arena d ->
  exists h', (remove_blocks (Z.to_nat (blocks_per_arena d)) a 0 i;; free_pages a 1) h = Ok (tt, h') /\ heap_ok h' /\
    (forall q m, block_at h' q m <-> block_at h q m) /\
    (forall q m x, block_at h q m -> q <= x < q + m -> hbytes h' !! x = hbytes h !! x).
Proof.
  intros Hok Ha Hi Hd Heq. pose proof (arena_page h Hok a r Ha) as Hpa. pose proof (desc_lookup_ok h Hok i d Hd) as Hdo.
  pose proof (desc_count_pos d Hdo) as Hpos. pose proof (ao_magic _ _ _ (ho_arena h Hok a r Ha)) as Hmagic.
  pose proof (remove_blocks_run a r i (Z.to_nat (blocks_per_arena d)) d 0 h Hpa Hdo Ha Hmagic Hi Hd ltac:(lia) ltac:(lia)) as Hrem.
  rewrite Z2Nat.id in Hrem by lia.
  pose proof (lists_dropped_small h a r i d Hok Ha Hi Hd) as Hld. fold (blocks a d) in Hrem.
  set (ds := alter _ i (descs h)) in Hrem, Hld.
  destruct (drop_run h a r ds (hbytes h) (set_descs ds h) Hok Ha eq_refl eq_refl eq_refl eq_refl Hld) as (m' & hb' & E & Hok' & Hkept & Hbl).
  assert (span r = 1) as Hspan by (unfold span; by rewrite Hi). rewrite Hspan in E, Hkept.
  assert (forall q m, block_at h q m -> exists a1 r2, a1 <> a /\ arenas h !! a1 = Some r2 /\
     handed_out h a1 r2 q m) as Hother.
  { intros q m (a1 & r2 & H1 & Hq). exists a1, r2. split; [|done]. intros ->. assert (r2 = r) as -> by congruence.
    rewrite Hi in Hq. destruct Hq as (d2 & Hd2 & Hqb & Hnq & _). assert (d2 = d) as -> by congruence.
    pose proof (free_cnt_bound h Hok a r i d q Ha Hi Hd Hqb Hnq). lia. }
  eexists. split; [rewrite (run_bind _ _ _ _ _ Hrem); exact E|]. split; [exact Hok'|]. split.
  - intros q m. rewrite Hbl. split; [|apply Hother]. intros (a1 & r2 & _ & H1 & Hq). by exists a1, r2.
  - intros q m x Hq Hx. apply Hkept. intros Hin. destruct (Hother q m Hq) as (a1 & r2 & Hne1 & H1 & Hq1).
    destruct (block_extent h Hok a1 r2 q m H1) as (F1 & F2 & F3); [destruct (a_desc r2); naive_solver|].
    apply Hne1. apply (arenas_apart h Hok a1 r2 a r x); [done|done|unfold SIZEOF_ARENA in *; lia|by rewrite Hspan].
Qed.

Lemma free_small h a r i d p :
  heap_ok h -> arenas h !! a = Some r -> a_desc r = Some i -> descs h !! i = Some d -> p ∈ blocks a d -> p ∉ free_list d ->
  exists h', free p h = Ok (tt, h') /\ freed p h h'.
Proof.
  intros Hok Ha Hi Hd Hp Hnp. pose proof (arena_page h Hok a r Ha) as Hpa. pose proof (desc_lookup_ok h Hok i d Hd) as Hdo.
  destruct (block_extent h Hok a r p (d_block_size d) Ha) as (E1 & E2 & E3); [rewrite Hi; naive_solver|].
  set (l := p :: free_list d).
  set (hb := put_bytes p SIZEOF_LIST_ELEM None (put_bytes p (Z.to_nat (d_block_size d)) (Some 0xcc) (hbytes h))).
  destruct (give_block h a r i d p hb Hok Ha Hi Hd Hp Hnp) as (Hok1 & Hcnt & Hbl1). fold l in Hok1, Hcnt, Hbl1.
  set (h1 := relist h a i l hb) in *. set (r1 := mkArena ARENA_MAGIC (Some i) (Zlen (free_in a l))).
  assert (arenas h1 !! a = Some r1) as Ha1 by apply lookup_insert_eq.
  assert (descs h1 !! i = Some (set_free_list l d)) as Hd1 by (cbn; by rewrite list_lookup_alter_eq, Hd).
  pose proof (desc_count_pos d Hdo) as Hpos.
  destruct (ho_arena h Hok a r Ha) as [Hm _ _ Hc]. rewrite Hi in Hc. destruct Hc as (d' & Hd' & Hc). assert (d' = d) as -> by congruence.
  pose proof (free_cnt_bound h Hok a r i d p Ha Hi Hd Hp Hnp) as Hlt.
  assert (forall q m x, block_at h q m -> q <> p -> q <= x < q + m -> hb !! x = hbytes h !! x) as Hbytes.
  { intros q m x Hq Hne Hx. assert (block_at h p (d_block_size d)) as Hpb by (exists a, r; split; [done|]; rewrite Hi; by exists d).
    destruct (block_inside h q m Hok Hq) as (_ & _ & _ & _ & Hm0 & _). pose proof Hdo as [Hsz _].
    destruct (blocks_apart h Hok p (d_block_size d) q m Hpb Hq) as [|]; [congruence| |].
    - unfold hb. rewrite !put_bytes_lookup, !decide_False; [done|lia|unfold SIZEOF_LIST_ELEM; lia].
    - unfold hb. rewrite !put_bytes_lookup, !decide_False; [done|lia|unfold SIZEOF_LIST_ELEM; lia]. }
  assert (free p h = (if blocks_per_arena d <=? Zlen (free_in a l) then
            assert (Zlen (free_in a l) =? blocks_per_arena d);; remove_blocks (Z.to_nat (blocks_per_arena d)) a 0 i;; free_pages a 1
          else mret tt) h1) as Hrun.
  { unfold free. destruct (Z.eqb_spec p NULL) as [Hz|_]; [destruct Hpa as (_ & ? & _); unfold NULL, PHYS_BASE, SIZEOF_ARENA in *; lia|].
    rewrite (run_bind _ _ _ a h) by by apply (block_to_arena_small h Hok a r i d). rewrite (run_bind _ _ _ r h) by by apply arena_run.
    rewrite Hi. rewrite (run_bind _ _ _ d h) by by apply desc_run. rewrite Hm.
    assert (u32 (free_cnt r + 1) = Zlen (free_in a l)) as -> by (rewrite Hcnt; apply uwrap_id; unfold in_u; lia).
    set (k := if blocks_per_arena d <=? Zlen (free_in a l) then _ else _). unfold h_memset, link_block, upd_free_list, put_arena, hmodify.
    unfold h1, relist. unfold l at 3. rewrite <- (alter_const (cons p) i (descs h) d Hd). reflexivity. }
  destruct (Z.leb_spec (blocks_per_arena d) (Zlen (free_in a l))) as [Hfull|Hroom].
  2:{ exists h1. split; [done|]. split; [done|done|done]. }
  assert (Zlen (free_in a l) = blocks_per_arena d) as Heq by lia.
  rewrite (run_bind _ _ _ tt h1) in Hrun by (apply run_assert, Z.eqb_eq; done).
  destruct (drop_full h1 a r1 i (set_free_list l d) Hok1 Ha1 eq_refl Hd1 Heq) as (h' & E & Hok' & Hbl & Hkept).
  exists h'. split; [by rewrite Hrun|]. split; [done|by intros q m; rewrite Hbl|].
  intros q m x Hq Hne Hx. rewrite (Hkept q m x); [by apply (Hbytes q m)|by apply Hbl1|done].
Qed.

Lemma free_run h p n : heap_ok h -> block_at h p n -> exists h', free p h = Ok (tt, h') /\ freed p h h'.
Proof.
  intros Hok (a & r & Ha & Hm). destruct (a_desc r) as [i|] eqn:Hi.
  - destruct Hm as (d & Hd & Hp & Hnp & _). by apply (free_small h a r i d).
  - destruct Hm as [-> _]. by apply (free_big h a r).
Qed.

(** * The other operations *)

Lemma block_size_run h p n : heap_ok h -> block_at h p n -> block_size p h = Ok (n, h).
Proof.
  intros Hok (a & r & Ha & Hm). pose proof (arena_page h Hok a r Ha) as Hpa. pose proof (arena_bound h Hok a r Ha) as Hb.
  pose proof (ao_span _ _ _ (ho_arena h Hok a r Ha)) as Hs. unfold block_size. destruct (a_desc r) as [i|] eqn:Hi.
  - destruct Hm as (d & Hd & Hp & _ & ->). rewrite (run_bind _ _ _ a h) by by apply (block_to_arena_small h Hok a r i d).
    rewrite (run_bind _ _ _ r h) by by apply arena_run. rewrite Hi. by rewrite (run_bind _ _ _ d h) by by apply desc_run.
  - destruct Hm as [-> ->]. rewrite (run_bind _ _ _ a h) by by apply (block_to_arena_big h Hok a r).
    rewrite (run_bind _ _ _ r h) by by apply arena_run. rewrite Hi, ofs_in_page by (done || unfold SIZEOF_ARENA, PGSIZE; lia).
    unfold span in *. rewrite Hi in Hs, Hb. destruct Hpa as (_ & Hlo & _). unfold PHYS_BASE, PGSIZE, SIZEOF_ARENA in *.
    rewrite (uwrap_id 32 ltac:(lia) (4096 * _)) by (unfold in_u; lia). rewrite uwrap_id by (unfold in_u; lia). done.
Qed.

Lemma set_bytes_ok h hb : heap_ok h -> heap_ok (set_hbytes hb h).
Proof. intros [H1 H2 H3 H4 H5 H6]. split; [done..| |done|done|done]. intros a r Ha. by destruct (H3 a r Ha). Qed.

(** [calloc] of a product that does not overflow. *)
Lemma calloc_run h a b :
  heap_ok h -> 0 < a -> 0 < b -> request (a * b) ->
  calloc a b h = Ok (NULL, h) \/
  exists p n h', calloc a b h = Ok (p, h') /\ allocated (a * b) p n h h' /\
    forall x, p <= x < p + a * b -> hbytes h' !! x = Some 0.
Proof.
  intros Hok Ha Hb Hreq. unfold calloc. pose proof Hreq as [H1 H2]. unfold SIZEOF_ARENA, PGSIZE in H2.
  rewrite uwrap_id by (unfold in_u; lia). rewrite (proj2 (Z.ltb_ge (a * b) a)) by nia. rewrite (proj2 (Z.ltb_ge (a * b) b)) by nia.
  cbn [orb]. destruct (malloc_run h (a * b) Hok ltac:(by split)) as [E|(p & n & h1 & E & Hal)]; rewrite (run_bind _ _ _ _ _ E).
  { by left. }
  right. destruct Hal as [Hok' Hsz Hn Hbl Hfr Hby Hpg]. apply Z.eqb_neq in Hn as Hn'. rewrite Hn'. cbn [negb].
  eexists p, n, _. split; [reflexivity|]. split.
  - split; [by apply set_bytes_ok|done|done|done|done| |done]. intros q m x Hq Hx. cbn [set_hbytes hbytes].
    rewrite put_bytes_lookup, decide_False; [by apply (Hby q m)|].
    assert (q <> p) as Hqp by (intros ->; by apply (Hfr m)).
    destruct (blocks_apart h1 Hok' q m p n) as [|]; [apply Hbl; by left|apply Hbl; by right|done|lia|lia].
  - intros x Hx. cbn [set_hbytes hbytes]. rewrite put_bytes_lookup, decide_True by lia. done.
Qed.

(** [realloc] of a block. *)
Lemma realloc_run h old n0 size :
  heap_ok h -> block_at h old n0 -> request size ->
  realloc old size h = Ok (NULL, h) \/
  exists p n h', realloc old size h = Ok (p, h') /\ heap_ok h' /\ size <= n /\ p <> NULL /\ (forall m, ~ block_at h p m) /\
    (forall q m, block_at h' q m <-> (block_at h q m /\ q <> old) \/ (q = p /\ m = n)) /\
    (forall i, 0 <= i < Z.min size n0 -> hbytes h' !! (p + i) = hbytes h !! (old + i)) /\
    (forall q m x, block_at h q m -> q <> old -> q <= x < q + m -> hbytes h' !! x = hbytes h !! x).
Proof.
  intros Hok Hold Hreq. unfold realloc. destruct (Z.eqb_spec size 0) as [->|_]; [destruct Hreq; lia|].
  destruct (malloc_run h size Hok Hreq) as [E|(p & n & h1 & E & Hal)]; rewrite (run_bind _ _ _ _ _ E).
  { left. by rewrite andb_false_r. }
  right. destruct Hal as [Hok1 Hsz Hn Hbl Hfr Hby Hpg]. assert (old <> NULL) as Hold0.
  { destruct (block_inside h old n0 Hok Hold) as (a & r & Ha & Hlo & _). pose proof (arena_page h Hok a r Ha) as (_ & ? & _).
    unfold NULL, PHYS_BASE, SIZEOF_ARENA in *. lia. }
  apply Z.eqb_neq in Hn as Hn', Hold0 as Hold0'. rewrite Hn', Hold0'. cbn [negb andb].
  assert (block_at h1 old n0) as Hold1 by (apply Hbl; by left). assert (block_at h1 p n) as Hp1 by (apply Hbl; by right).
  assert (old <> p) as Hne by (intros ->; by apply (Hfr n0)).
  set (k := if size <? n0 then size else n0). assert (k = Z.min size n0) as Hk by (unfold k; destruct (Z.ltb_spec size n0); lia).
  destruct (block_inside h1 old n0 Hok1 Hold1) as (_ & _ & _ & _ & Hn0 & _).
  set (h2 := set_hbytes (copy_bytes p old (Z.to_nat k) (hbytes h1)) h1). assert (heap_ok h2) as Hok2 by by apply set_bytes_ok.
  destruct (free_run h2 old n0 Hok2 Hold1) as (h3 & Hf & [Hok3 Hbl3 Hby3]).
  assert (forall x, hbytes h2 !! x = if decide (p <= x < p + k) then hbytes h1 !! (old + (x - p)) else hbytes h1 !! x) as Hcopy.
  { intros x. cbn [h2 set_hbytes hbytes]. destruct Hreq. rewrite copy_bytes_lookup, Z2Nat.id; [done|lia|].
    destruct (blocks_apart h1 Hok1 old n0 p n Hold1 Hp1 Hne); lia. }
  exists p, n, h3. split.
  - rewrite (run_bind _ _ _ tt h3); [done|]. rewrite (run_bind _ _ _ n0 h1) by by apply block_size_run. fold k.
    rewrite (run_bind _ _ _ tt h2) by done. exact Hf.
  - split; [done|]. split; [done|]. split; [done|]. split; [done|]. split; [|split].
    + intros q m. rewrite Hbl3. change (block_at h2 q m) with (block_at h1 q m). rewrite Hbl. split; [|naive_solver].
      intros [[Hq|[-> ->]] Hqo]; [by left|by right].
    + intros i Hi. rewrite (Hby3 p n (p + i)); [|done|done|lia]. rewrite Hcopy, decide_True by lia.
      replace (old + (p + i - p)) with (old + i) by lia. apply (Hby old n0); [done|lia].
    + intros q m x Hq Hqo Hx. assert (block_at h1 q m) as Hq1 by (apply Hbl; by left). rewrite (Hby3 q m x Hq1 Hqo Hx), Hcopy.
      rewrite decide_False; [by apply (Hby q m)|]. assert (q <> p) as Hqp by (intros ->; by apply (Hfr m)).
      destruct (blocks_apart h1 Hok1 q m p n Hq1 Hp1 Hqp); lia.
Qed.

(** After [malloc_init] nothing is handed out. *)
Lemma malloc_init_run m :
  mem_ok m -> exists ds, malloc_init (mkHeap m ∅ [] ∅) = Ok (tt, mkHeap m ∅ ds ∅) /\
    (d_block_size <$> ds) = [16; 32; 64; 128; 256; 512; 1024] /\ heap_ok (mkHeap m ∅ ds ∅) /\
    forall p n, ~ block_at (mkHeap m ∅ ds ∅) p n.
Proof.
  intros Hm. eexists. split; [reflexivity|]. split; [reflexivity|]. split.
  - split; cbn [hpages arenas descs]; [done| |by intros a r Ha..| |].
    + repeat (apply Forall_cons; split; [split; cbn; [lia|reflexivity]|]). by apply Forall_nil.
    + intros i d b Hd Hb. exfalso. revert Hd Hb. do 7 (destruct i as [|i]; [intros [= <-] Hb; by apply not_elem_of_nil in Hb|]). done.
    + intros i d. do 7 (destruct i as [|i]; [intros [= <-]; apply NoDup_nil_2|]). done.
  - by intros p n (a & r & Ha & _).
Qed.

(** * Theorems *)

(** C20: The block allocator.  After [malloc_init] no block is handed out.  In a well-formed heap a request either
    returns null and changes nothing, or a block of at least the requested size that was not handed out before, and
    exactly that block is handed out in addition; [free] of a block that is handed out succeeds and takes back exactly
    that block; neither changes a byte of the other blocks.  Blocks that are handed out are disjoint. *)
Theorem malloc_spec :
  (forall m, mem_ok m -> exists ds, malloc_init (mkHeap m ∅ [] ∅) = Ok (tt, mkHeap m ∅ ds ∅) /\
     heap_ok (mkHeap m ∅ ds ∅) /\ forall p n, ~ block_at (mkHeap m ∅ ds ∅) p n) /\
  (forall h, heap_ok h ->
     (forall p n q m, block_at h p n -> block_at h q m -> p <> q -> p + n <= q \/ q + m <= p) /\
     (forall size, request size ->
        malloc size h = Ok (NULL, h) \/
        exists p n h', malloc size h = Ok (p, h') /\ heap_ok h' /\ size <= n /\ p <> NULL /\ (forall m, ~ block_at h p m) /\
          (forall q m, block_at h' q m <-> block_at h q m \/ (q = p /\ m = n)) /\
          (forall q m x, block_at h q m -> q <= x < q + m -> hbytes h' !! x = hbytes h !! x)) /\
     (forall p n, block_at h p n ->
        exists h', free p h = Ok (tt, h') /\ heap_ok h' /\
          (forall q m, block_at h' q m <-> block_at h q m /\ q <> p) /\
          (forall q m x, block_at h q m -> q <> p -> q <= x < q + m -> hbytes h' !! x = hbytes h !! x))).
Proof.
  split; [intros m Hm; destruct (malloc_init_run m Hm) as (ds & H1 & _ & H2 & H3); by exists ds|].
  intros h Hok. split; [by apply blocks_apart|]. split.
  - intros size Hreq. destruct (malloc_run h size Hok Hreq) as [E|(p & n & h' & E & [])]; [by left|right]. by exists p, n, h'.
  - intros p n Hp. destruct (free_run h p n Hok Hp) as (h' & E & []). by exists h'.
Qed.

(** [realloc] of a block returns null and changes nothing, or a block of at least the new size that begins with
    the bytes of the old one, up to the smaller of the sizes; the old block is taken back and the other blocks keep
    their bytes.  [calloc] returns null and changes nothing, or a new block whose bytes are 0, for a product that
    does not overflow. *)
Theorem realloc_spec h :
  heap_ok h ->
  (forall old n0 size, block_at h old n0 -> request size ->
     realloc old size h = Ok (NULL, h) \/
     exists p n h', realloc old size h = Ok (p, h') /\ heap_ok h' /\ size <= n /\ p <> NULL /\ (forall m, ~ block_at h p m) /\
       (forall q m, block_at h' q m <-> (block_at h q m /\ q <> old) \/ (q = p /\ m = n)) /\
       (forall i, 0 <= i < Z.min size n0 -> hbytes h' !! (p + i) = hbytes h !! (old + i)) /\
       (forall q m x, block_at h q m -> q <> old -> q <= x < q + m -> hbytes h' !! x = hbytes h !! x)) /\
  (forall a b, 0 < a -> 0 < b -> request (a * b) ->
     calloc a b h = Ok (NULL, h) \/
     exists p n h', calloc a b h = Ok (p, h') /\ heap_ok h' /\ a * b <= n /\
       (forall q m, block_at h' q m <-> block_at h q m \/ (q = p /\ m = n)) /\
       forall x, p <= x < p + a * b -> hbytes h' !! x = Some 0).
Proof.
  intros Hok. split; [intros old n0 size; by apply realloc_run|]. intros a b Ha Hb Hreq.
  destruct (calloc_run h a b Hok Ha Hb Hreq) as [E|(p & n & h' & E & [] & Hz)]; [by left|right]. by exists p, n, h'.
Qed.

(** * Requests that overflow *)

Lemma find_desc_none ds size : forall k, (forall d, d ∈ ds -> d_block_size d < size) -> find_desc ds k size = None.
Proof.
  induction ds as [|d ds IH]; intros k H; [done|]. cbn [find_desc]. rewrite (proj2 (Z.leb_gt _ _)) by (apply H, list_elem_of_here).
  apply IH. intros d' Hd'. apply H. by apply list_elem_of_further.
Qed.

(** The size with the header wraps around: a request of almost 4 GB returns a block of one page. *)
Theorem malloc_overflow h size :
  heap_ok h -> 2 ^ 32 - SIZEOF_ARENA < size < 2 ^ 32 ->
  malloc size h = Ok (NULL, h) \/
  exists p h', malloc size h = Ok (p, h') /\ heap_ok h' /\ block_at h' p (PGSIZE - SIZEOF_ARENA) /\ p <> NULL.
Proof.
  intros Hok Hs. unfold SIZEOF_ARENA in Hs. unfold malloc. destruct (Z.eqb_spec size 0) as [|_]; [lia|].
  rewrite !(run_bind st_get _ h h h) by done. rewrite find_desc_none.
  2:{ intros d Hd. pose proof (ho_descs h Hok) as Hf. rewrite Forall_forall in Hf. destruct (Hf d Hd) as [? _]. lia. }
  assert (DIV_ROUND_UP (u32 (size + SIZEOF_ARENA)) PGSIZE = 1) as ->.
  { unfold DIV_ROUND_UP, SIZEOF_ARENA, PGSIZE. assert (u32 (size + 12) = size + 12 - 2 ^ 32) as ->.
    { unfold uwrap. symmetry. apply Z.mod_unique with (q := 1); lia. }
    rewrite (uwrap_id 32 ltac:(lia) (size + 12 - 2 ^ 32 + 4096)) by (unfold in_u; lia). rewrite uwrap_id by (unfold in_u; lia).
    symmetry. apply Z.div_unique with (r := size + 12 - 2 ^ 32 + 4096 - 1 - 4096); lia. }
  destruct (get_pages (hpages h) 1 (ho_mem h Hok) ltac:(lia)) as [E|(a & m' & E & Hmore)].
  - left. rewrite (run_bind _ _ _ NULL h); [done|]. unfold liftm. rewrite E. by destruct h.
  - right. exists (a + SIZEOF_ARENA), (big_heap h m' a 1). pose proof Hmore as (_ & Hpa & _). split; [|split; [by apply big_heap_ok|split]].
    + rewrite (run_bind _ _ _ a (set_hpages m' h)) by (unfold liftm; by rewrite E). by rewrite page_nonnull.
    + apply (big_heap_blocks h Hok m' a 1 Hmore). by right.
    + destruct Hpa as (_ & Hlo & _). unfold NULL, PHYS_BASE, SIZEOF_ARENA in *. lia.
Qed.

(** * Witnesses *)

Definition demo_heap0 : heap :=
  match malloc_init (mkHeap demo_mem ∅ [] ∅) with Ok (_, h) => h | Err _ => mkHeap demo_mem ∅ [] ∅ end.

Lemma demo_heap0_ok : heap_ok demo_heap0.
Proof. destruct (malloc_init_run demo_mem demo_mem_ok) as (ds & E & _ & H & _). unfold demo_heap0. rewrite E. exact H. Qed.

Lemma malloc_spec_witness :
  exists p n h', malloc 20 demo_heap0 = Ok (p, h') /\ heap_ok h' /\ 20 <= n /\ block_at h' p n /\
    exists h'', free p h' = Ok (tt, h'') /\ forall m, ~ block_at h'' p m.
Proof.
  destruct malloc_spec as [_ H]. destruct (H demo_heap0 demo_heap0_ok) as (_ & Hm & _).
  destruct (Hm 20) as [E|(p & n & h' & E & Hok & Hn & _ & _ & Hbl & _)].
  - split; unfold SIZEOF_ARENA, PGSIZE; lia.
  - exfalso. assert (fst <$> malloc 20 demo_heap0 = Ok NULL) as Hc by (rewrite E; reflexivity). vm_compute in Hc. discriminate Hc.
  - exists p, n, h'. assert (block_at h' p n) as Hp by (apply Hbl; right; split; reflexivity).
    split; [exact E|]. split; [exact Hok|]. split; [exact Hn|]. split; [exact Hp|].
    destruct (H h' Hok) as (_ & _ & Hf). destruct (Hf p n Hp) as (h'' & F & _ & Hb & _). exists h''. split; [exact F|].
    intros m Hq. apply Hb in Hq as [_ Hq]. apply Hq. reflexivity.
Defined.

(** A heap with one block, some of whose bytes are known. *)
Lemma demo_heap1 : exists p n h, malloc 20 demo_heap0 = Ok (p, h) /\ heap_ok h /\ block_at h p n /\ 20 <= n.
Proof.
  destruct (malloc_run demo_heap0 20 demo_heap0_ok) as [E|(p & n & h' & E & [Hok Hn _ Hbl _ _ _])].
  - split; unfold SIZEOF_ARENA, PGSIZE; lia.
  - exfalso. assert (fst <$> malloc 20 demo_heap0 = Ok NULL) as Hc by (rewrite E; reflexivity). vm_compute in Hc. discriminate Hc.
  - exists p, n, h'. split; [exact E|]. split; [exact Hok|]. split; [|exact Hn]. apply Hbl. right. split; reflexivity.
Qed.

Lemma realloc_spec_witness :
  exists p h p' h', malloc 20 demo_heap0 = Ok (p, h) /\ realloc p 100 h = Ok (p', h') /\
    (forall i, 0 <= i < 20 -> hbytes h' !! (p' + i) = hbytes h !! (p + i)) /\ exists n, 100 <= n /\ block_at h' p' n.
Proof.
  destruct demo_heap1 as (p & n & h & E & Hok & Hp & Hn). destruct (realloc_spec h Hok) as [H _].
  destruct (H p n 100 Hp) as [R|(p' & n' & h' & R & _ & Hs & _ & _ & Hb & Hc & _)].
  - split; unfold SIZEOF_ARENA, PGSIZE; lia.
  - exfalso. assert (fst <$> (p ← malloc 20; realloc p 100) demo_heap0 = Ok NULL) as Hc
      by (rewrite (run_bind _ _ _ _ _ E), R; reflexivity). vm_compute in Hc. discriminate Hc.
  - exists p, h, p', h'. split; [exact E|]. split; [exact R|]. split.
    + intros i Hi. apply Hc. lia.
    + exists n'. split; [exact Hs|]. apply Hb. right. split; reflexivity.
Defined.
