(* ===== verification/PageDir.v ===== *)
(** Page directories: the entries of threads/pte.h and the operations of
    userprog/pagedir.c, over the memory of Palloc.v.

    A page directory is a page of 1024 entries; an entry that is not 0 points to a
    page table, a page of 1024 entries that point to data pages. *)
From Stdlib Require Import ZArith Lia.
From stdpp Require Import base numbers sorting gmap list.
From S2P Require Import Prelude.
From S2P Require Import Bitmap.
From S2P Require Import Palloc.

Local Open Scope Z_scope.

(** * Entries *)

Definition PTSHIFT : Z := PGBITS.
Definition PTBITS : Z := 10.
Definition PTMASK : Z := 0x003ff000.
Definition PDSHIFT : Z := PTSHIFT + PTBITS.

Definition pt_no (va : Z) : Z := Z.shiftr (Z.land va PTMASK) PTSHIFT.
Definition pd_no (va : Z) : Z := Z.shiftr va PDSHIFT.

Definition PTE_FLAGS : Z := 0x00000fff.
Definition PTE_ADDR : Z := 0xfffff000.
Definition PTE_P : Z := 0x1.
Definition PTE_W : Z := 0x2.
Definition PTE_U : Z := 0x4.
Definition PTE_A : Z := 0x20.
Definition PTE_D : Z := 0x40.

Definition pde_create (pt : Z) : res Z :=
  rassert (pg_ofs pt =? 0);; pa ← vtop pt; Ok (Z.lor (Z.lor (Z.lor pa PTE_U) PTE_P) PTE_W).

Definition pde_get_pt (pde : Z) : res Z :=
  rassert (negb (Z.land pde PTE_P =? 0));; ptov (Z.land pde PTE_ADDR).

Definition pte_create_kernel (page : Z) (writable : bool) : res Z :=
  rassert (pg_ofs page =? 0);; pa ← vtop page;
  Ok (Z.lor (Z.lor pa PTE_P) (if writable then PTE_W else 0)).

Definition pte_create_user (page : Z) (writable : bool) : res Z :=
  e ← pte_create_kernel page writable; Ok (Z.lor e PTE_U).

Definition pte_get_page (pte : Z) : res Z := ptov (Z.land pte PTE_ADDR).

(** * Memory accesses *)

(** The memory, and the page directory base register. *)
Record vmem := mkVm { phys : pmem; cr3 : Z }.

Abbreviation vM := (st vmem).

Definition liftr {A} (r : res A) : vM A := fun s =>
  match r with
  | Ok a => Ok (a, s)
  | Err e => Err e
  end.

Definition liftp {A} (m : pM A) : vM A := fun s =>
  match m (phys s) with
  | Ok (a, p) => Ok (a, mkVm p (cr3 s))
  | Err e => Err e
  end.

(** The word at an address of the kernel. *)
Definition word (pg : gmap Z (list Z)) (a : Z) : option Z :=
  ws ← pg !! (a - a mod PGSIZE); ws !! Z.to_nat (a mod PGSIZE / 4).

Definition set_word (a w : Z) (pg : gmap Z (list Z)) : gmap Z (list Z) :=
  alter (fun ws => <[Z.to_nat (a mod PGSIZE / 4) := w]> ws) (a - a mod PGSIZE) pg.

Definition load (a : Z) : vM Z := fun s =>
  match word (pages (phys s)) a with
  | Some w => Ok (w, s)
  | None => Err EFault
  end.

Definition with_pages (f : gmap Z (list Z) -> gmap Z (list Z)) (s : vmem) : vmem :=
  mkVm (mkMem (kernel_pool (phys s)) (user_pool (phys s)) (f (pages (phys s)))) (cr3 s).

Definition store (a w : Z) : vM unit := fun s =>
  match word (pages (phys s)) a with
  | Some _ => Ok (tt, with_pages (set_word a w) s)
  | None => Err EFault
  end.

Definition set_cr3 (pa : Z) : vM unit := fun s => Ok (tt, mkVm (phys s) pa).

(** [memcpy (dst, src, PGSIZE)] of whole pages. *)
Definition copy_page (dst src : Z) : vM unit := fun s =>
  match pages (phys s) !! src with
  | Some ws => Ok (tt, with_pages (insert dst ws) s)
  | None => Err EFault
  end.

(** * Operations *)

Section pagedir.
(** [init_page_dir] and [init_ram_pages] of threads/init.c and loader.h, set once
    at boot. *)
Context (init_page_dir init_ram_pages : Z).

Definition pagedir_create : vM Z :=
  pd ← liftp (palloc_get_page 0);
  (if negb (pd =? NULL) then copy_page pd init_page_dir else mret tt);;
  mret pd.

Definition lookup_page (pd vaddr : Z) (create : bool) : vM Z :=
  assert (negb (pd =? NULL));;
  assert (negb create || is_user_vaddr vaddr);;
  let pde := pd + 4 * pd_no vaddr in
  w ← load pde;
  missing ←
    (if w =? 0 then
       if create then
         pt ← liftp (palloc_get_page PAL_ZERO);
         if pt =? NULL then mret true else
         w' ← liftr (pde_create pt);
         store pde w';; mret false
       else mret true
     else mret false);
  if missing : bool then mret NULL else
  w ← load pde;
  pt ← liftr (pde_get_pt w);
  mret (pt + 4 * pt_no vaddr).

(** Loading the register; a translation lookaside buffer is not modelled. *)
Definition pagedir_activate (pd : Z) : vM unit :=
  let pd := if pd =? NULL then init_page_dir else pd in
  pa ← liftr (vtop pd);
  set_cr3 pa.

Definition active_pd : vM Z := fun s => liftr (ptov (cr3 s)) s.

Definition invalidate_pagedir (pd : Z) : vM unit :=
  a ← active_pd; if a =? pd then pagedir_activate pd else mret tt.

Definition pagedir_set_page (pd upage kpage : Z) (writable : bool) : vM bool :=
  assert (pg_ofs upage =? 0);;
  assert (pg_ofs kpage =? 0);;
  assert (is_user_vaddr upage);;
  pa ← liftr (vtop kpage);
  assert (Z.shiftr pa PTSHIFT <? init_ram_pages);;
  assert (negb (pd =? init_page_dir));;
  pte ← lookup_page pd upage true;
  if negb (pte =? NULL) then
    w ← load pte;
    assert (Z.land w PTE_P =? 0);;
    w' ← liftr (pte_create_user kpage writable);
    store pte w';; mret true
  else mret false.

Definition pagedir_get_page (pd uaddr : Z) : vM Z :=
  assert (is_user_vaddr uaddr);;
  pte ← lookup_page pd uaddr false;
  if pte =? NULL then mret NULL else
  w ← load pte;
  if negb (Z.land w PTE_P =? 0) then
    page ← liftr (pte_get_page w); mret (page + pg_ofs uaddr)
  else mret NULL.

Definition pagedir_clear_page (pd upage : Z) : vM unit :=
  assert (pg_ofs upage =? 0);;
  assert (is_user_vaddr upage);;
  pte ← lookup_page pd upage false;
  if pte =? NULL then mret tt else
  w ← load pte;
  if negb (Z.land w PTE_P =? 0) then
    store pte (Z.land w (u32 (Z.lnot PTE_P)));; invalidate_pagedir pd
  else mret tt.

Definition test_flag (flag pd vpage : Z) : vM bool :=
  pte ← lookup_page pd vpage false;
  if pte =? NULL then mret false else
  w ← load pte; mret (negb (Z.land w flag =? 0)).

Definition set_flag (flag pd vpage : Z) (v : bool) : vM unit :=
  pte ← lookup_page pd vpage false;
  if pte =? NULL then mret tt else
  w ← load pte;
  if v then store pte (Z.lor w flag)
  else store pte (Z.land w (u32 (Z.lnot flag)));; invalidate_pagedir pd.

Definition pagedir_is_dirty : Z -> Z -> vM bool := test_flag PTE_D.
Definition pagedir_set_dirty : Z -> Z -> bool -> vM unit := set_flag PTE_D.
Definition pagedir_is_accessed : Z -> Z -> vM bool := test_flag PTE_A.
Definition pagedir_set_accessed : Z -> Z -> bool -> vM unit := set_flag PTE_A.

(** The loops of [pagedir_destroy]: [n] entries from address [a] on. *)
Fixpoint free_entries (n : nat) (a : Z) : vM unit :=
  match n with
  | O => mret tt
  | S n =>
      w ← load a;
      (if negb (Z.land w PTE_P =? 0) then
         page ← liftr (pte_get_page w); liftp (palloc_free_page page)
       else mret tt);;
      free_entries n (a + 4)
  end.

Fixpoint free_tables (n : nat) (a : Z) : vM unit :=
  match n with
  | O => mret tt
  | S n =>
      w ← load a;
      (if negb (Z.land w PTE_P =? 0) then
         pt ← liftr (pde_get_pt w);
         free_entries (Z.to_nat (PGSIZE / 4)) pt;;
         liftp (palloc_free_page pt)
       else mret tt);;
      free_tables n (a + 4)
  end.

Definition pagedir_destroy (pd : Z) : vM unit :=
  if pd =? NULL then mret tt else
  assert (negb (pd =? init_page_dir));;
  free_tables (Z.to_nat (pd_no PHYS_BASE)) pd;;
  liftp (palloc_free_page pd).

End pagedir.

(** * Addresses and entries *)

Lemma pd_no_div va : pd_no va = va / 2 ^ 22.
Proof. apply Z.shiftr_div_pow2. done. Qed.

Lemma pt_no_mod va : pt_no va = va / PGSIZE mod 1024.
Proof.
  unfold pt_no, PTSHIFT, PGBITS, PTMASK, PGSIZE. rewrite Z.shiftr_land.
  change (Z.shiftr 4190208 12) with (Z.ones 10). rewrite Z.land_ones, Z.shiftr_div_pow2 by lia. done.
Qed.

Lemma pd_no_range va : 0 <= va -> va < 2 ^ 32 -> 0 <= pd_no va < 1024.
Proof.
  intros H0 Hu. rewrite pd_no_div.
  split; [apply Z.div_pos; lia|apply Z.div_lt_upper_bound; lia].
Qed.

Lemma pt_no_range va : 0 <= pt_no va < 1024.
Proof. rewrite pt_no_mod. apply Z.mod_pos_bound. lia. Qed.

(** The two indices make up the page number. *)
Lemma page_indices va : va / PGSIZE = pd_no va * 1024 + pt_no va.
Proof.
  rewrite pd_no_div, pt_no_mod. unfold PGSIZE. change (2 ^ 22) with (4096 * 1024).
  rewrite <- Z.div_div by lia. pose proof (Z.div_mod (va / 4096) 1024). lia.
Qed.

Lemma land_addr x : in_u 32 x -> Z.land x PTE_ADDR = x / PGSIZE * PGSIZE.
Proof. apply pg_round_down_eq. Qed.

(** An address and flags together. *)
Lemma entry_bits a f k :
  0 <= a -> a mod PGSIZE = 0 -> 0 <= f < 4096 -> 0 <= k ->
  Z.testbit (Z.lor a f) k = if decide (k < 12) then Z.testbit f k else Z.testbit a k.
Proof.
  intros Ha Hm Hf Hk. rewrite Z.lor_spec. case_decide.
  - unfold PGSIZE in Hm. rewrite <- (Z.mod_pow2_bits_low a 12 k) by lia. change (2 ^ 12) with 4096.
    by rewrite Hm, Z.bits_0.
  - rewrite (in_u_bits 12 f k); [apply orb_false_r|lia| |lia]. unfold in_u. lia.
Qed.

Lemma entry_range a f : in_u 32 a -> 0 <= f < 4096 -> in_u 32 (Z.lor a f).
Proof.
  intros Ha Hf. apply in_u_testbit; [lia|apply Z.lor_nonneg; unfold in_u in Ha; lia|].
  intros k Hk. rewrite Z.lor_spec, (in_u_bits 32 a k), (in_u_bits 12 f k); (done || lia || unfold in_u; lia).
Qed.

Lemma entry_addr a f : in_u 32 a -> a mod PGSIZE = 0 -> 0 <= f < 4096 -> Z.land (Z.lor a f) PTE_ADDR = a.
Proof.
  intros Ha Hm Hf. apply Z.bits_inj'. intros k Hk. rewrite Z.land_spec.
  destruct (Z.lt_ge_cases k 12).
  - rewrite <- (Z.mod_pow2_bits_low a 12 k), <- (Z.mod_pow2_bits_low PTE_ADDR 12 k) by lia.
    unfold PGSIZE in Hm. change (2 ^ 12) with 4096. rewrite Hm. change (PTE_ADDR mod 4096) with 0.
    rewrite Z.bits_0. apply andb_false_r.
  - rewrite entry_bits, decide_False by (unfold in_u in Ha; done || lia).
    destruct (Z.lt_ge_cases k 32); [|by rewrite (in_u_bits 32 a k) by (done || lia)].
    change PTE_ADDR with (Z.shiftl (Z.ones 20) 12). rewrite Z.shiftl_spec, Z.ones_spec_low by lia. apply andb_true_r.
Qed.

(** A flag of an entry does not change its address. *)
Lemma word_set_addr w k v : in_u 32 w -> 0 <= k < 12 -> Z.land (word_set w k v) PTE_ADDR = Z.land w PTE_ADDR.
Proof.
  intros Hw Hk. pose proof (word_set_range w k v ltac:(lia) Hw) as Hw'. rewrite !land_addr by done.
  f_equal. unfold PGSIZE. change 4096 with (2 ^ 12). rewrite <- !Z.shiftr_div_pow2 by lia.
  apply Z.bits_inj'. intros n Hn. rewrite !Z.shiftr_spec by lia. destruct (Z.lt_ge_cases (n + 12) 32).
  - rewrite word_set_spec by lia. by rewrite decide_False by lia.
  - by rewrite !(in_u_bits 32) by (done || lia).
Qed.

(** * Well-formed page directories *)

(** The page table an entry of the directory points to. *)
Definition tab (pde : Z) : Z := Z.land pde PTE_ADDR + PHYS_BASE.

(** A page of entries. *)
Definition entries (pg : gmap Z (list Z)) (b : Z) : Prop :=
  exists ws, pg !! b = Some ws /\ length ws = 1024%nat /\ Forall (in_u 32) ws.

Record table_ok (m : pmem) (pd pde : Z) : Prop := {
  to_present : Z.testbit pde 0 = true;
  to_used : used m (tab pde);
  to_other : tab pde <> pd;
  to_entries : entries (pages m) (tab pde)
}.

(** The directory and its page tables are pages in use, all different. *)
Record pd_ok (m : pmem) (pd : Z) : Prop := {
  po_mem : mem_ok m;
  po_used : used m pd;
  po_entries : entries (pages m) pd;
  po_tables : forall i w, 0 <= i < 1024 -> word (pages m) (pd + 4 * i) = Some w -> w <> 0 -> table_ok m pd w;
  po_distinct : forall i j wi wj, 0 <= i < 1024 -> 0 <= j < 1024 ->
    word (pages m) (pd + 4 * i) = Some wi -> word (pages m) (pd + 4 * j) = Some wj ->
    wi <> 0 -> wj <> 0 -> tab wi = tab wj -> i = j
}.

(** The page table entry for an address, 0 where there is no page table. *)
Definition pte_of (pg : gmap Z (list Z)) (pd va : Z) : Z :=
  match word pg (pd + 4 * pd_no va) with
  | Some w => if w =? 0 then 0 else default 0 (word pg (tab w + 4 * pt_no va))
  | None => 0
  end.

Lemma used_aligned m a : mem_ok m -> used m a -> a mod PGSIZE = 0 /\ PHYS_BASE <= a < 2 ^ 32.
Proof.
  intros [[_ _ ? ?] [_ _ ? ?] _] [[[H1 H2] _]|[[H1 H2] _]]; unfold PGSIZE in *; lia.
Qed.

Lemma word_at pg b i : b mod PGSIZE = 0 -> 0 <= i < 1024 ->
  word pg (b + 4 * i) = (ws ← pg !! b; ws !! Z.to_nat i).
Proof.
  intros Hb Hi. unfold word. assert ((b + 4 * i) mod PGSIZE = 4 * i) as ->.
  { unfold PGSIZE in *. rewrite <- Z.add_mod_idemp_l, Hb by lia. apply Z.mod_small. lia. }
  replace (b + 4 * i - 4 * i) with b by lia. rewrite Z.mul_comm, Z.div_mul by lia. done.
Qed.

Lemma set_word_at pg b i w : b mod PGSIZE = 0 -> 0 <= i < 1024 ->
  set_word (b + 4 * i) w pg = alter (insert (Z.to_nat i) w) b pg.
Proof.
  intros Hb Hi. unfold set_word. assert ((b + 4 * i) mod PGSIZE = 4 * i) as ->.
  { unfold PGSIZE in *. rewrite <- Z.add_mod_idemp_l, Hb by lia. apply Z.mod_small. lia. }
  replace (b + 4 * i - 4 * i) with b by lia. rewrite Z.mul_comm, Z.div_mul by lia. done.
Qed.

Lemma entries_word pg b i : entries pg b -> b mod PGSIZE = 0 -> 0 <= i < 1024 ->
  exists w, word pg (b + 4 * i) = Some w /\ in_u 32 w.
Proof.
  intros (ws & Hb & Hl & Hw) Ha Hi. destruct (lookup_lt_is_Some_2 ws (Z.to_nat i)) as [w E]; [lia|].
  exists w. rewrite word_at, Hb by done. split; [done|]. by eapply Forall_lookup_1.
Qed.

(** Writing one entry. *)
Lemma word_set_word pg b i w b' j :
  entries pg b -> b mod PGSIZE = 0 -> b' mod PGSIZE = 0 -> 0 <= i < 1024 -> 0 <= j < 1024 ->
  word (set_word (b + 4 * i) w pg) (b' + 4 * j) =
    if decide (b' = b /\ j = i) then Some w else word pg (b' + 4 * j).
Proof.
  intros (ws & Hb & Hl & _) Ha Ha' Hi Hj. rewrite set_word_at, !word_at by done.
  destruct (decide (b' = b)) as [->|Hne].
  - rewrite lookup_alter_eq, Hb. cbn. case_decide as E.
    + destruct E as [_ ->]. rewrite list_lookup_insert_eq by lia. done.
    + rewrite list_lookup_insert_ne by lia. done.
  - rewrite lookup_alter_ne by done. by rewrite decide_False by naive_solver.
Qed.

Lemma entries_set_word pg b i w b' :
  b mod PGSIZE = 0 -> 0 <= i < 1024 -> in_u 32 w -> entries pg b' -> entries (set_word (b + 4 * i) w pg) b'.
Proof.
  intros Ha Hi Hw (ws & Hb & Hl & Hf). rewrite set_word_at by done. unfold entries.
  destruct (decide (b' = b)) as [->|Hne].
  - exists (<[Z.to_nat i := w]> ws). rewrite lookup_alter_eq, Hb. split; [done|].
    split; [by rewrite length_insert|]. by apply Forall_insert.
  - exists ws. by rewrite lookup_alter_ne by done.
Qed.

Definition set_pages (pg : gmap Z (list Z)) (m : pmem) : pmem := mkMem (kernel_pool m) (user_pool m) pg.

Lemma pd_word m pd i : pd_ok m pd -> 0 <= i < 1024 -> exists w, word (pages m) (pd + 4 * i) = Some w /\ in_u 32 w.
Proof.
  intros Hok Hi. apply entries_word; [apply (po_entries m pd Hok)| |done].
  apply (used_aligned m pd (po_mem m pd Hok) (po_used m pd Hok)).
Qed.

Lemma tab_word m pd pde i : pd_ok m pd -> table_ok m pd pde -> 0 <= i < 1024 ->
  exists w, word (pages m) (tab pde + 4 * i) = Some w /\ in_u 32 w.
Proof.
  intros Hok Ht Hi. apply entries_word; [apply (to_entries _ _ _ Ht)| |done].
  apply (used_aligned m _ (po_mem m pd Hok) (to_used _ _ _ Ht)).
Qed.

(** Setting the entry of a page in its page table. *)
Lemma set_pte_ok m pd va w x :
  pd_ok m pd -> 0 <= va -> va < 2 ^ 32 ->
  word (pages m) (pd + 4 * pd_no va) = Some w -> w <> 0 -> in_u 32 x ->
  let m' := set_pages (set_word (tab w + 4 * pt_no va) x (pages m)) m in
  pd_ok m' pd /\
  forall va', 0 <= va' -> va' < 2 ^ 32 ->
    pte_of (pages m') pd va' = if decide (va' / PGSIZE = va / PGSIZE) then x else pte_of (pages m) pd va'.
Proof.
  intros Hok H0 Hu Hw Hne Hx m'. pose proof (pd_no_range va H0 Hu) as Hpd. pose proof (pt_no_range va) as Hpt.
  pose proof (po_tables m pd Hok _ _ Hpd Hw Hne) as Ht. pose proof (po_mem m pd Hok) as Hm.
  destruct (used_aligned m pd Hm (po_used m pd Hok)) as [Hpa _].
  destruct (used_aligned m _ Hm (to_used _ _ _ Ht)) as [Hta _].
  assert (forall i, 0 <= i < 1024 -> word (pages m') (pd + 4 * i) = word (pages m) (pd + 4 * i)) as Hsame.
  { intros i Hi. unfold m'; cbn. rewrite word_set_word by (done || apply (to_entries _ _ _ Ht)).
    rewrite decide_False; [done|]. intros [E _]. by apply (to_other _ _ _ Ht). }
  split.
  - split; [by apply mem_ok_pages|apply (po_used m pd Hok)| | |].
    + apply entries_set_word; [done..|apply (po_entries m pd Hok)].
    + intros i wi Hi. rewrite Hsame by lia. intros Hwi Hnz.
      destruct (po_tables m pd Hok i wi Hi Hwi Hnz) as [T1 T2 T3 T4]. split; [done..|].
      by apply entries_set_word.
    + intros i j wi wj Hi Hj. rewrite !Hsame by lia. apply (po_distinct m pd Hok); done.
  - intros va' H0' Hu'. pose proof (pd_no_range va' H0' Hu') as Hpd'. pose proof (pt_no_range va') as Hpt'.
    unfold pte_of. rewrite Hsame by lia. rewrite !page_indices.
    destruct (pd_word m pd (pd_no va') Hok ltac:(lia)) as (w' & Hw' & _). rewrite Hw'.
    destruct (Z.eqb_spec w' 0) as [->|Hnz].
    { case_decide; [|done]. assert (pd_no va' = pd_no va) as E by lia. rewrite E in Hw'. congruence. }
    pose proof (po_tables m pd Hok _ _ Hpd' Hw' Hnz) as Ht'.
    destruct (used_aligned m _ Hm (to_used _ _ _ Ht')) as [Hta' _].
    unfold m'; cbn. rewrite word_set_word by (done || apply (to_entries _ _ _ Ht)).
    destruct (decide (tab w' = tab w /\ pt_no va' = pt_no va)) as [[E1 E2]|Hd].
    + assert (pd_no va' = pd_no va) as E by (by eapply (po_distinct m pd Hok)).
      rewrite decide_True by lia. done.
    + rewrite decide_False; [done|]. intros E. apply Hd. assert (pd_no va' = pd_no va) as E1 by lia.
      rewrite E1 in Hw'. split; [congruence|lia].
Qed.

(** A page directory does not see what happens to pages that were not in use. *)
Lemma pd_ok_frame m m1 pd :
  pd_ok m pd -> mem_ok m1 -> (forall b, used m b -> used m1 b) ->
  (forall b, used m b -> pages m1 !! b = pages m !! b) ->
  pd_ok m1 pd /\ forall va, 0 <= va -> va < 2 ^ 32 ->
    word (pages m1) (pd + 4 * pd_no va) = word (pages m) (pd + 4 * pd_no va) /\
    pte_of (pages m1) pd va = pte_of (pages m) pd va.
Proof.
  intros Hok Hm1 Hu Hp. pose proof (po_mem m pd Hok) as Hm.
  assert (forall b i, used m b -> 0 <= i < 1024 -> word (pages m1) (b + 4 * i) = word (pages m) (b + 4 * i)) as Hw.
  { intros b i Hb Hi. destruct (used_aligned m b Hm Hb). rewrite !word_at, Hp by done. done. }
  assert (forall b, used m b -> entries (pages m) b -> entries (pages m1) b) as He.
  { intros b Hb (ws & E & H). exists ws. by rewrite Hp. }
  pose proof (po_used m pd Hok) as Hpd. split.
  - split; [done|by apply Hu|apply He, (po_entries m pd Hok); done| |].
    + intros i w Hi. rewrite Hw by (done || lia). intros Hwi Hnz.
      destruct (po_tables m pd Hok i w Hi Hwi Hnz) as [T1 T2 T3 T4]. split; [done|by apply Hu|done|by apply He].
    + intros i j wi wj Hi Hj. rewrite !Hw by (done || lia). by apply (po_distinct m pd Hok).
  - intros va H0 Huv. pose proof (pd_no_range va H0 Huv) as Hr. rewrite Hw by (done || lia). split; [done|].
    unfold pte_of. rewrite Hw by (done || lia). destruct (pd_word m pd (pd_no va) Hok ltac:(lia)) as (w & E & _).
    rewrite E. destruct (Z.eqb_spec w 0); [done|]. rewrite Hw; [done| |apply pt_no_range].
    apply (to_used _ _ _ (po_tables m pd Hok _ _ Hr E ltac:(done))).
Qed.

(** Entering a new, empty page table. *)
Lemma new_table_ok m pd va pt e :
  pd_ok m pd -> 0 <= va -> va < 2 ^ 32 -> word (pages m) (pd + 4 * pd_no va) = Some 0 ->
  in_u 32 e -> tab e = pt -> e <> 0 -> table_ok m pd e -> pages m !! pt = Some (replicate 1024 0) ->
  (forall i w, 0 <= i < 1024 -> word (pages m) (pd + 4 * i) = Some w -> w <> 0 -> tab w <> pt) ->
  let m' := set_pages (set_word (pd + 4 * pd_no va) e (pages m)) m in
  pd_ok m' pd /\ word (pages m') (pd + 4 * pd_no va) = Some e /\
  forall va', 0 <= va' -> va' < 2 ^ 32 -> pte_of (pages m') pd va' = pte_of (pages m) pd va'.
Proof.
  intros Hok H0 Hu Hz He Hpt Hne Ht Hfill Hfresh m'. pose proof (pd_no_range va H0 Hu) as Hpd.
  pose proof (po_mem m pd Hok) as Hm. destruct (used_aligned m pd Hm (po_used m pd Hok)) as [Hpa _].
  assert (forall i, 0 <= i < 1024 ->
    word (pages m') (pd + 4 * i) = if decide (i = pd_no va) then Some e else word (pages m) (pd + 4 * i)) as Hsame.
  { intros i Hi. unfold m'; cbn. rewrite word_set_word by (done || lia || apply (po_entries m pd Hok)).
    repeat case_decide; naive_solver. }
  assert (forall b, entries (pages m) b -> entries (pages m') b) as Hent.
  { intros b Hb. apply entries_set_word; (done || lia). }
  assert (forall w, table_ok m pd w -> table_ok m' pd w) as Htab.
  { intros w [T1 T2 T3 T4]. split; [done..|by apply Hent]. }
  split; [|split].
  - split; [by apply mem_ok_pages|apply (po_used m pd Hok)|apply Hent, (po_entries m pd Hok)| |].
    + intros i w Hi. rewrite Hsame by lia. case_decide as Ei; [intros [= <-] _; by apply Htab|].
      intros Hwi Hnz. apply Htab. by apply (po_tables m pd Hok i).
    + intros i j wi wj Hi Hj. rewrite !Hsame by lia.
      repeat case_decide; intros Ei Ej Hni Hnj Et; simplify_eq.
      * done.
      * exfalso. by apply (Hfresh j wj Hj Ej Hnj).
      * exfalso. by apply (Hfresh i wi Hi Ei Hni).
      * by apply (po_distinct m pd Hok i j wi wj).
  - by rewrite Hsame, decide_True by lia.
  - intros va' H0' Hu'. pose proof (pd_no_range va' H0' Hu') as Hpd'. pose proof (pt_no_range va') as Hpt'.
    unfold pte_of. rewrite Hsame by lia. case_decide as E.
    + rewrite E, Hz. apply Z.eqb_neq in Hne as ->. cbn.
      destruct (used_aligned m _ Hm (to_used _ _ _ Ht)) as [Hta _].
      rewrite word_set_word by (done || lia || apply (po_entries m pd Hok)).
      rewrite decide_False by (intros [? _]; by apply (to_other _ _ _ Ht)). rewrite word_at, Hpt, Hfill by (done || lia).
      cbn [mbind option_bind]. rewrite lookup_replicate_2 by lia. done.
    + destruct (pd_word m pd (pd_no va') Hok ltac:(lia)) as (w & Ew & _). rewrite Ew.
      destruct (Z.eqb_spec w 0) as [|Hnz]; [done|]. pose proof (po_tables m pd Hok _ _ Hpd' Ew Hnz) as Hw.
      destruct (used_aligned m _ Hm (to_used _ _ _ Hw)) as [Hta _]. cbn.
      rewrite word_set_word by (done || lia || apply (po_entries m pd Hok)).
      by rewrite decide_False by (intros [? _]; by apply (to_other _ _ _ Hw)).
Qed.

(** * Looking up entries *)

Lemma lift_run_v {A} (r : res A) a s : r = Ok a -> liftr r s = Ok (a, s).
Proof. by intros ->. Qed.

Lemma word_load_run a w s : word (pages (phys s)) a = Some w -> load a s = Ok (w, s).
Proof. unfold load. by intros ->. Qed.

Lemma word_store_run a w w' s :
  word (pages (phys s)) a = Some w' ->
  store a w s = Ok (tt, mkVm (set_pages (set_word a w (pages (phys s))) (phys s)) (cr3 s)).
Proof. unfold store. by intros ->. Qed.

Lemma flag_test w k : 0 <= k -> negb (Z.land w (2 ^ k) =? 0) = Z.testbit w k.
Proof. apply land_bit_test. Qed.

Lemma pde_get_pt_ok m pd w : pd_ok m pd -> table_ok m pd w -> pde_get_pt w = Ok (tab w).
Proof.
  intros Hok [T1 T2 _ _]. destruct (used_aligned m _ (po_mem m pd Hok) T2) as [_ Hr].
  unfold pde_get_pt, rassert. change PTE_P with (2 ^ 0). rewrite flag_test, T1 by lia. cbn [mbind res_bind].
  unfold tab in *. set (a := Z.land w PTE_ADDR) in *. unfold ptov, rassert, PHYS_BASE in *.
  rewrite (proj2 (Z.ltb_lt _ _)) by lia. cbn [mbind res_bind]. f_equal. apply uwrap_id; unfold in_u; lia.
Qed.

(** The address of the entry for [va]. *)
Definition entry_at (m : pmem) (pd va a : Z) : Prop :=
  exists w, word (pages m) (pd + 4 * pd_no va) = Some w /\ w <> 0 /\ a = tab w + 4 * pt_no va.

Lemma entry_at_word m pd va a :
  pd_ok m pd -> 0 <= va -> va < 2 ^ 32 -> entry_at m pd va a ->
  a <> NULL /\ word (pages m) a = Some (pte_of (pages m) pd va) /\ in_u 32 (pte_of (pages m) pd va).
Proof.
  intros Hok H0 Hu (w & Hw & Hnz & ->). pose proof (pd_no_range va H0 Hu) as Hr. pose proof (pt_no_range va) as Hp.
  pose proof (po_tables m pd Hok _ _ Hr Hw Hnz) as Ht.
  destruct (used_aligned m _ (po_mem m pd Hok) (to_used _ _ _ Ht)) as [_ Hb].
  destruct (tab_word m pd w (pt_no va) Hok Ht Hp) as (x & Hx & Hxr).
  unfold pte_of. rewrite Hw. apply Z.eqb_neq in Hnz as ->. rewrite Hx. cbn.
  split; [unfold NULL, PHYS_BASE in *; lia|]. done.
Qed.

(** Without [create]: null and 0 for a missing page table, or the entry. *)
Lemma lookup_page_ok s pd va :
  pd_ok (phys s) pd -> 0 <= va -> va < 2 ^ 32 ->
  exists a, lookup_page pd va false s = Ok (a, s) /\
    ((a = NULL /\ pte_of (pages (phys s)) pd va = 0) \/ entry_at (phys s) pd va a).
Proof.
  intros Hok H0 Hu. pose proof (pd_no_range va H0 Hu) as Hr.
  destruct (used_aligned _ pd (po_mem _ pd Hok) (po_used _ pd Hok)) as [_ Hb].
  destruct (pd_word _ pd (pd_no va) Hok Hr) as (w & Hw & _). unfold lookup_page.
  rewrite (run_bind _ _ _ tt s) by (apply run_assert; destruct (Z.eqb_spec pd NULL); [unfold NULL, PHYS_BASE in *; lia|done]).
  rewrite (run_bind _ _ _ tt s) by done. rewrite (run_bind _ _ _ w s) by (by apply word_load_run).
  destruct (Z.eqb_spec w 0) as [->|Hnz].
  - exists NULL. split; [done|]. left. split; [done|]. unfold pte_of. by rewrite Hw.
  - exists (tab w + 4 * pt_no va). split; [|right; by exists w].
    rewrite (run_bind _ _ _ false s) by done. rewrite (run_bind _ _ _ w s) by (by apply word_load_run).
    rewrite (run_bind _ _ _ (tab w) s); [done|]. apply lift_run_v. eapply pde_get_pt_ok; [done|].
    by apply (po_tables _ pd Hok (pd_no va)).
Qed.

Lemma group_one a b : group a 1 b <-> b = a.
Proof.
  unfold group. split; [intros (i & Hi & ->); replace i with 0 by lia; lia|intros ->; exists 0; lia].
Qed.

(** The entry [pde_create] makes for a page table. *)
Lemma pde_create_ok pt :
  pt mod PGSIZE = 0 -> PHYS_BASE <= pt < 2 ^ 32 ->
  exists e, pde_create pt = Ok e /\ in_u 32 e /\ tab e = pt /\ e <> 0 /\ Z.testbit e 0 = true.
Proof.
  intros Ha Hr. unfold pde_create, vtop, rassert, is_kernel_vaddr. rewrite pg_ofs_mod, Ha. cbn [Z.eqb mbind res_bind].
  rewrite (proj2 (Z.leb_le _ _)) by lia. cbn [mbind res_bind]. rewrite <- !Z.lor_assoc.
  change (Z.lor PTE_U (Z.lor PTE_P PTE_W)) with 7. eexists. split; [done|].
  assert ((pt - PHYS_BASE) mod PGSIZE = 0) as Hm.
  { unfold PHYS_BASE, PGSIZE in *. rewrite Zminus_mod, Ha. done. }
  assert (in_u 32 (pt - PHYS_BASE)) as Hi by (unfold in_u, PHYS_BASE in *; lia).
  split; [by apply entry_range|]. split; [unfold tab; rewrite entry_addr by done; lia|].
  assert (Z.testbit (Z.lor (pt - PHYS_BASE) 7) 0 = true) as Hb.
  { rewrite entry_bits by (unfold in_u in Hi; done || lia). done. }
  split; [|done]. intros E. by rewrite E in Hb.
Qed.

(** What an operation may change: the page directory and its tables, and pages
    that were free, from which new page tables come. *)
Definition frame (pd : Z) (m m' : pmem) : Prop :=
  (forall b, used m b -> used m' b) /\
  (forall b, used m b -> b <> pd ->
     (forall i w, 0 <= i < 1024 -> word (pages m) (pd + 4 * i) = Some w -> w <> 0 -> tab w <> b) ->
     pages m' !! b = pages m !! b) /\
  (forall i w, 0 <= i < 1024 -> word (pages m') (pd + 4 * i) = Some w -> w <> 0 ->
     word (pages m) (pd + 4 * i) = Some w \/ ~ used m (tab w)).

Lemma frame_refl pd m : frame pd m m.
Proof. split; [done|split; [done|by left]]. Qed.

Lemma frame_trans pd m m1 m2 : frame pd m m1 -> frame pd m1 m2 -> frame pd m m2.
Proof.
  intros (F1 & F2 & F3) (G1 & G2 & G3). split; [by eauto|split].
  - intros b Hb Hne Hd. rewrite G2; [by apply F2|by apply F1|done|].
    intros i w Hi Hw Hnz Et. destruct (F3 i w Hi Hw Hnz) as [H|H]; [by apply (Hd i w)|by rewrite Et in H].
  - intros i w Hi Hw Hnz. destruct (G3 i w Hi Hw Hnz) as [H|H]; [by apply F3|right]. intros Hu. by apply H, F1.
Qed.

(** A directory with a table of its own on the new page [pt], full of zeros, for the empty entry of [va]. *)
Lemma fresh_table m m1 pd va pt :
  pd_ok m pd -> 0 <= va -> va < 2 ^ 32 -> word (pages m) (pd + 4 * pd_no va) = Some 0 ->
  mem_ok m1 -> pt mod PGSIZE = 0 -> used m1 pt -> ~ used m pt -> (forall b, used m b -> used m1 b) ->
  (forall b, used m b -> pages m1 !! b = pages m !! b) -> pages m1 !! pt = Some (replicate 1024 0) ->
  exists e, pde_create pt = Ok e /\ in_u 32 e /\ tab e = pt /\ e <> 0 /\ word (pages m1) (pd + 4 * pd_no va) = Some 0 /\
    let m2 := set_pages (set_word (pd + 4 * pd_no va) e (pages m1)) m1 in
    pd_ok m2 pd /\ word (pages m2) (pd + 4 * pd_no va) = Some e /\ table_ok m2 pd e /\ frame pd m m2 /\
    forall va', 0 <= va' -> va' < 2 ^ 32 -> pte_of (pages m2) pd va' = pte_of (pages m) pd va'.
Proof.
  intros Hok H0 Hu Hw Hm1 Hpta Hpu Hpn Hused Hp1 Hpz. pose proof (pd_no_range va H0 Hu) as Hr.
  destruct (used_aligned _ pd (po_mem _ pd Hok) (po_used _ pd Hok)) as [Hpa Hb].
  destruct (pd_ok_frame m m1 pd Hok Hm1) as [Hok1 Hsame]; [done|done|].
  destruct (used_aligned m1 pt Hm1 Hpu) as [_ Hptr]. destruct (pde_create_ok pt Hpta Hptr) as (e & He & Her & Het & Hen & Heb).
  assert (word (pages m1) (pd + 4 * pd_no va) = Some 0) as Hw1 by (by rewrite (proj1 (Hsame va H0 Hu))).
  assert (forall i w, 0 <= i < 1024 -> word (pages m) (pd + 4 * i) = Some w -> w <> 0 -> tab w <> pt) as Hdiff.
  { intros i w Hi Hwi Hnz Et. apply Hpn. rewrite <- Et. by apply (po_tables _ pd Hok i). }
  assert (forall i, 0 <= i < 1024 -> word (pages m1) (pd + 4 * i) = word (pages m) (pd + 4 * i)) as Hws.
  { intros i Hi. rewrite !word_at by done. by rewrite Hp1 by apply (po_used _ _ Hok). }
  assert (table_ok m1 pd e) as Hte.
  { split; rewrite ?Het; [done|done| |].
    - intros ->. apply Hpn, (po_used _ _ Hok).
    - exists (replicate 1024 0). split; [done|]. split; [apply length_replicate|]. apply Forall_replicate. unfold in_u. lia. }
  destruct (new_table_ok m1 pd va pt e Hok1 H0 Hu Hw1 Her Het Hen Hte Hpz) as (Hok2 & Hw2 & Hpte).
  { intros i w Hi. rewrite Hws by done. by apply Hdiff. }
  exists e. split; [done|]. split; [done|]. split; [done|]. split; [done|]. split; [done|]. intros m2. split; [done|]. split; [done|].
  split; [by apply (po_tables _ _ Hok2 (pd_no va))|]. split.
  - split; [done|split].
    + intros b Hub Hb1 _. unfold m2; cbn. rewrite set_word_at, lookup_alter_ne by done. by apply Hp1.
    + intros i w Hi. unfold m2; cbn. rewrite word_set_word by (done || lia || apply (po_entries _ _ Hok1)).
      case_decide; [intros [= <-] _; right; by rewrite Het|]. rewrite Hws by done. by left.
  - intros va' Ha Hb'. rewrite Hpte by done. by apply Hsame.
Qed.

(** With [create], for a user address: the entry, in a new page table if need be,
    or null and no change if there is no page for one. *)
Lemma lookup_page_create s pd va :
  pd_ok (phys s) pd -> 0 <= va -> is_user_vaddr va = true ->
  (exists a m', lookup_page pd va true s = Ok (a, mkVm m' (cr3 s)) /\ pd_ok m' pd /\ entry_at m' pd va a /\
     frame pd (phys s) m' /\
     forall va', 0 <= va' -> va' < 2 ^ 32 -> pte_of (pages m') pd va' = pte_of (pages (phys s)) pd va') \/
  (lookup_page pd va true s = Ok (NULL, s) /\ no_room (kernel_pool (phys s)) 1 /\ pte_of (pages (phys s)) pd va = 0).
Proof.
  intros Hok H0 Huv. assert (va < 2 ^ 32) as Hu by (apply Z.ltb_lt in Huv; unfold PHYS_BASE in Huv; lia).
  pose proof (pd_no_range va H0 Hu) as Hr. pose proof (po_mem _ pd Hok) as Hm.
  destruct (used_aligned _ pd Hm (po_used _ pd Hok)) as [Hpa Hb].
  destruct (pd_word _ pd (pd_no va) Hok Hr) as (w & Hw & _). unfold lookup_page.
  rewrite (run_bind _ _ _ tt s) by (apply run_assert; destruct (Z.eqb_spec pd NULL); [unfold NULL, PHYS_BASE in *; lia|done]).
  rewrite (run_bind _ _ _ tt s) by (apply run_assert; by rewrite Huv).
  rewrite (run_bind _ _ _ w s) by (by apply word_load_run).
  destruct (Z.eqb_spec w 0) as [->|Hnz].
  2:{ left. exists (tab w + 4 * pt_no va), (phys s).
    assert (mkVm (phys s) (cr3 s) = s) as -> by (by destruct s).
    split; [|split; [done|split; [by exists w|split; [apply frame_refl|done]]]].
    rewrite (run_bind _ _ _ false s) by done. rewrite (run_bind _ _ _ w s) by (by apply word_load_run).
    rewrite (run_bind _ _ _ (tab w) s); [done|]. apply lift_run_v. eapply pde_get_pt_ok; [done|].
    by apply (po_tables _ pd Hok (pd_no va)). }
  destruct (palloc_get_ok PAL_ZERO 1 (phys s) Hm ltac:(lia))
    as [(pt & m1 & Hget & Hm1 & Hptn & Hpta & Hfree & Hused & _ & Hz)|[Hno Hget]].
  - left. assert (forall b, used (phys s) b -> pages m1 !! b = pages (phys s) !! b) as Hp1.
    { intros b Hub. apply Hz. rewrite group_one. intros ->. by apply (Hfree pt); [apply group_one|]. }
    destruct (fresh_table (phys s) m1 pd va pt) as (e & He & Her & Het & Hen & Hw1 & Hok2 & Hw2 & Hte & Hfr & Hpte); try done.
    { apply Hused. right. by apply group_one. }
    { apply Hfree. by apply group_one. }
    { intros b Hub. apply Hused. by left. }
    { apply Hz. by apply group_one. }
    set (m2 := set_pages _ m1) in *. exists (pt + 4 * pt_no va), m2.
    rewrite (run_bind _ _ _ false (mkVm m2 (cr3 s))).
    2:{ rewrite (run_bind _ _ _ pt (mkVm m1 (cr3 s))) by (unfold liftp, palloc_get_page; by rewrite Hget).
        apply Z.eqb_neq in Hptn as ->. rewrite (run_bind _ _ _ e (mkVm m1 (cr3 s))) by (by apply lift_run_v).
        by rewrite (run_bind _ _ _ tt (mkVm m2 (cr3 s))) by (by apply (word_store_run _ e 0 (mkVm m1 (cr3 s)))). }
    rewrite (run_bind _ _ _ e (mkVm m2 (cr3 s))) by (by apply word_load_run).
    rewrite (run_bind _ _ _ pt (mkVm m2 (cr3 s))) by (apply lift_run_v; rewrite <- Het; by eapply pde_get_pt_ok).
    split; [done|]. split; [done|]. split; [exists e; by rewrite Het|]. by split.
  - right. split; [|split; [done|unfold pte_of; by rewrite Hw]]. rewrite (run_bind _ _ _ true s); [done|].
    rewrite (run_bind _ _ _ NULL s); [done|]. unfold liftp, palloc_get_page. rewrite Hget. by destruct s.
Qed.

(** * Mappings *)

(** What an operation on the entry of [va] leaves behind: [x] in that entry, every
    other entry of the directory as it was, and the register as it was. *)
Record updated (pd va x : Z) (s s' : vmem) : Prop := {
  up_ok : pd_ok (phys s') pd;
  up_cr3 : cr3 s' = cr3 s;
  up_frame : frame pd (phys s) (phys s');
  up_pte : forall va', 0 <= va' -> va' < 2 ^ 32 ->
    pte_of (pages (phys s')) pd va' =
      if decide (va' / PGSIZE = va / PGSIZE) then x else pte_of (pages (phys s)) pd va'
}.

Lemma updated_same pd va s :
  pd_ok (phys s) pd -> 0 <= va -> va < 2 ^ 32 -> updated pd va (pte_of (pages (phys s)) pd va) s s.
Proof.
  intros Hok H0 Hu. split; [done|done|apply frame_refl|]. intros va' H0' Hu'.
  case_decide as E; [|done]. unfold pte_of.
  assert (pd_no va' = pd_no va /\ pt_no va' = pt_no va) as [-> ->]; [|done].
  pose proof (pt_no_range va). pose proof (pt_no_range va'). rewrite !page_indices in E. lia.
Qed.

(** Writing the entry that was looked up. *)
Lemma store_entry s pd va a x :
  pd_ok (phys s) pd -> 0 <= va -> va < 2 ^ 32 -> entry_at (phys s) pd va a -> in_u 32 x ->
  exists s', store a x s = Ok (tt, s') /\ updated pd va x s s'.
Proof.
  intros Hok H0 Hu He Hx. destruct (entry_at_word _ pd va a Hok H0 Hu He) as (_ & Hw & _).
  eexists. split; [by eapply word_store_run|]. destruct He as (w & Hpw & Hnz & ->).
  destruct (set_pte_ok (phys s) pd va w x Hok H0 Hu Hpw Hnz Hx) as [Hok' Hpte].
  pose proof (pd_no_range va H0 Hu) as Hr. pose proof (po_tables _ pd Hok _ _ Hr Hpw Hnz) as Ht.
  destruct (used_aligned _ _ (po_mem _ _ Hok) (to_used _ _ _ Ht)) as [Hta _].
  destruct (used_aligned _ _ (po_mem _ _ Hok) (po_used _ _ Hok)) as [Hpa _]. pose proof (pt_no_range va) as Hpn.
  split; [done|done| |done]. split; [done|split]; cbn.
  - intros b Hb _ Hd. rewrite set_word_at, lookup_alter_ne; [done| |done..]. by apply (Hd (pd_no va)).
  - intros i w' Hi. rewrite word_set_word by (done || apply (to_entries _ _ _ Ht)).
    rewrite decide_False by (intros [E _]; by apply (to_other _ _ _ Ht)). by left.
Qed.

(** Reloading the register when the directory is the active one. *)
Lemma invalidate_run ipd pd s :
  PHYS_BASE <= pd < 2 ^ 32 -> 0 <= cr3 s < 2 ^ 30 -> invalidate_pagedir ipd pd s = Ok (tt, s).
Proof.
  intros Hp Hc. unfold invalidate_pagedir.
  rewrite (run_bind _ _ _ (cr3 s + PHYS_BASE) s).
  2:{ apply lift_run_v. unfold ptov, rassert. rewrite (proj2 (Z.ltb_lt _ _)) by (unfold PHYS_BASE; lia).
      cbn [mbind res_bind]. f_equal. apply uwrap_id; unfold in_u, PHYS_BASE; lia. }
  destruct (Z.eqb_spec (cr3 s + PHYS_BASE) pd) as [E|_]; [|done]. unfold pagedir_activate.
  assert ((pd =? NULL) = false) as -> by (apply Z.eqb_neq; unfold NULL, PHYS_BASE in *; lia).
  rewrite (run_bind _ _ _ (cr3 s) s); [by destruct s|]. apply lift_run_v. unfold vtop, rassert, is_kernel_vaddr.
  rewrite (proj2 (Z.leb_le _ _)) by lia. cbn. f_equal. lia.
Qed.

(** A flag written by [x |= 1 << k] or [x &= ~(1 << k)]. *)
Lemma set_flag_ok ipd k pd va v s :
  pd_ok (phys s) pd -> 0 <= cr3 s < 2 ^ 30 -> 0 <= va -> va < 2 ^ 32 -> 0 <= k < 12 ->
  exists s', set_flag ipd (2 ^ k) pd va v s = Ok (tt, s') /\
    ((s' = s /\ pte_of (pages (phys s)) pd va = 0) \/
     updated pd va (word_set (pte_of (pages (phys s)) pd va) k v) s s').
Proof.
  intros Hok Hc H0 Hu Hk. unfold set_flag.
  destruct (used_aligned _ pd (po_mem _ pd Hok) (po_used _ pd Hok)) as [_ Hpr].
  destruct (lookup_page_ok s pd va Hok H0 Hu) as (a & Hl & [[-> Hz]|He]); rewrite (run_bind _ _ _ _ _ Hl).
  { exists s. split; [done|by left]. }
  destruct (entry_at_word _ pd va a Hok H0 Hu He) as (Hn & Hw & Hr). apply Z.eqb_neq in Hn as ->.
  rewrite (run_bind _ _ _ _ _ (word_load_run _ _ _ Hw)). set (x := pte_of _ pd va) in *.
  destruct (store_entry s pd va a (word_set x k v) Hok H0 Hu He) as (s' & Hs & Hup).
  { apply word_set_range; [lia|done]. }
  exists s'. split; [|by right]. unfold word_set in Hs. destruct v; [done|].
  rewrite (run_bind _ _ _ _ _ Hs). apply invalidate_run; [done|]. by rewrite (up_cr3 _ _ _ _ _ Hup).
Qed.

Lemma test_flag_ok k pd va s :
  pd_ok (phys s) pd -> 0 <= va -> va < 2 ^ 32 -> 0 <= k ->
  test_flag (2 ^ k) pd va s = Ok (Z.testbit (pte_of (pages (phys s)) pd va) k, s).
Proof.
  intros Hok H0 Hu Hk. unfold test_flag.
  destruct (lookup_page_ok s pd va Hok H0 Hu) as (a & Hl & [[-> Hz]|He]); rewrite (run_bind _ _ _ _ _ Hl).
  { rewrite Hz, Z.bits_0. done. }
  destruct (entry_at_word _ pd va a Hok H0 Hu He) as (Hn & Hw & Hr). apply Z.eqb_neq in Hn as ->.
  rewrite (run_bind _ _ _ _ _ (word_load_run _ _ _ Hw)). by rewrite flag_test.
Qed.

(** The page [va] is mapped to, and whether it may be written. *)
Definition mapping (m : pmem) (pd va : Z) : option (Z * bool) :=
  let w := pte_of (pages m) pd va in
  if Z.testbit w 0 then Some (tab w, Z.testbit w 1) else None.

Definition dirty (m : pmem) (pd va : Z) : bool := Z.testbit (pte_of (pages m) pd va) 6.
Definition accessed (m : pmem) (pd va : Z) : bool := Z.testbit (pte_of (pages m) pd va) 5.

(** A directory all of whose mappings lie in the kernel's window of memory. *)
Record pd_inv (s : vmem) (pd : Z) : Prop := {
  pi_ok : pd_ok (phys s) pd;
  pi_cr3 : 0 <= cr3 s < 2 ^ 30;
  pi_window : forall va k w, 0 <= va -> va < 2 ^ 32 -> mapping (phys s) pd va = Some (k, w) -> k < 2 ^ 32
}.

Lemma updated_inv pd va x s s' :
  pd_inv s pd -> updated pd va x s s' -> (Z.testbit x 0 = true -> tab x < 2 ^ 32) -> pd_inv s' pd.
Proof.
  intros [H1 H2 H3] [U1 U2 U3 U4] Hx. split; [done|by rewrite U2|].
  intros va' k w H0 Hu. unfold mapping in *. rewrite U4 by done. specialize (H3 va' k w H0 Hu). case_decide; [|done].
  destruct (Z.testbit x 0); [|done]. intros [= <- _]. by apply Hx.
Qed.

(** The entry of a user page. *)
Lemma pte_create_user_ok k wr :
  k mod PGSIZE = 0 -> PHYS_BASE <= k < 2 ^ 32 ->
  exists e, pte_create_user k wr = Ok e /\ in_u 32 e /\ tab e = k /\ Z.testbit e 0 = true /\ Z.testbit e 1 = wr /\
    Z.testbit e 5 = false /\ Z.testbit e 6 = false.
Proof.
  intros Ha Hr. unfold pte_create_user, pte_create_kernel, vtop, rassert, is_kernel_vaddr. rewrite pg_ofs_mod, Ha.
  cbn [Z.eqb mbind res_bind]. rewrite (proj2 (Z.leb_le _ _)) by lia. cbn [mbind res_bind].
  rewrite <- !Z.lor_assoc. set (f := Z.lor PTE_P _). eexists. split; [done|].
  assert ((k - PHYS_BASE) mod PGSIZE = 0) as Hm by (unfold PHYS_BASE, PGSIZE in *; by rewrite Zminus_mod, Ha).
  assert (in_u 32 (k - PHYS_BASE)) as Hi by (unfold in_u, PHYS_BASE in *; lia).
  assert (0 <= f < 4096) as Hf by (unfold f; by destruct wr).
  split; [by apply entry_range|]. split; [unfold tab; rewrite entry_addr by done; lia|].
  rewrite !entry_bits by (unfold in_u in Hi; done || lia). unfold f. by destruct wr.
Qed.

Lemma pagedir_get_page_ok s pd va :
  pd_inv s pd -> 0 <= va -> is_user_vaddr va = true ->
  pagedir_get_page pd va s =
    Ok (match mapping (phys s) pd va with Some (k, _) => k + va mod PGSIZE | None => NULL end, s).
Proof.
  intros [Hok _ Hwin] H0 Huv. assert (va < 2 ^ 32) as Hu by (apply Z.ltb_lt in Huv; unfold PHYS_BASE in Huv; lia).
  unfold pagedir_get_page. rewrite (run_bind _ _ _ tt s) by (by apply run_assert).
  specialize (Hwin va). unfold mapping in *.
  destruct (lookup_page_ok s pd va Hok H0 Hu) as (a & Hl & [[-> Hz]|He]); rewrite (run_bind _ _ _ _ _ Hl).
  { by rewrite Hz. }
  destruct (entry_at_word _ pd va a Hok H0 Hu He) as (Hn & Hw & Hr). apply Z.eqb_neq in Hn as ->.
  rewrite (run_bind _ _ _ _ _ (word_load_run _ _ _ Hw)). change PTE_P with (2 ^ 0). rewrite flag_test by lia.
  set (x := pte_of _ pd va) in *. destruct (Z.testbit x 0); [|done].
  rewrite (run_bind _ _ _ (tab x) s); [by rewrite pg_ofs_mod|]. apply lift_run_v. specialize (Hwin _ _ H0 Hu eq_refl).
  unfold pte_get_page, ptov, rassert, tab in *. pose proof (land_addr x Hr) as Hla.
  assert (0 <= x / PGSIZE) by (apply Z.div_pos; unfold in_u, PGSIZE in *; lia).
  set (y := Z.land x PTE_ADDR) in *. unfold PHYS_BASE, PGSIZE in *. rewrite (proj2 (Z.ltb_lt _ _)) by lia.
  cbn [mbind res_bind]. f_equal. apply uwrap_id; unfold in_u; lia.
Qed.

(** The assertions of [pagedir_set_page] on its arguments. *)
Record set_page_pre (ipd ram pd upage kpage : Z) : Prop := {
  sp_upage : upage mod PGSIZE = 0;
  sp_user : 0 <= upage < PHYS_BASE;
  sp_kpage : kpage mod PGSIZE = 0;
  sp_kernel : PHYS_BASE <= kpage < 2 ^ 32;
  sp_ram : (kpage - PHYS_BASE) / PGSIZE < ram;
  sp_pd : pd <> ipd
}.

Lemma set_page_start ipd ram pd upage kpage wr s :
  set_page_pre ipd ram pd upage kpage ->
  pagedir_set_page ipd ram pd upage kpage wr s =
    (pte ← lookup_page pd upage true;
     if negb (pte =? NULL) then
       w ← load pte; assert (Z.land w PTE_P =? 0);; w' ← liftr (pte_create_user kpage wr); store pte w';; mret true
     else mret false) s.
Proof.
  intros [H1 H2 H3 H4 H5 H6]. unfold pagedir_set_page.
  rewrite (run_bind _ _ _ tt s) by (apply run_assert; rewrite pg_ofs_mod, H1; done).
  rewrite (run_bind _ _ _ tt s) by (apply run_assert; rewrite pg_ofs_mod, H3; done).
  rewrite (run_bind _ _ _ tt s) by (apply run_assert; apply Z.ltb_lt; lia).
  rewrite (run_bind _ _ _ (kpage - PHYS_BASE) s).
  2:{ apply lift_run_v. unfold vtop, rassert, is_kernel_vaddr. by rewrite (proj2 (Z.leb_le _ _)) by lia. }
  rewrite (run_bind _ _ _ tt s).
  2:{ apply run_assert. unfold PTSHIFT, PGBITS. rewrite Z.shiftr_div_pow2 by lia. by apply Z.ltb_lt. }
  rewrite (run_bind _ _ _ tt s) by (apply run_assert; by apply Z.eqb_neq in H6 as ->). done.
Qed.

Lemma updated_frame pd va x s m s' :
  (forall va', 0 <= va' -> va' < 2 ^ 32 -> pte_of (pages m) pd va' = pte_of (pages (phys s)) pd va') ->
  frame pd (phys s) m -> updated pd va x (mkVm m (cr3 s)) s' -> updated pd va x s s'.
Proof.
  intros Hp Hf [U1 U2 U3 U4]. cbn in *. split; [done|done|by eapply frame_trans|].
  intros va' H0 Hu. rewrite U4 by done. case_decide; [done|]. by apply Hp.
Qed.

(** A new mapping: made, or refused for want of a page for the page table; a page
    that is mapped already fails the assertion. *)
Lemma pagedir_set_page_ok ipd ram s pd upage kpage wr :
  pd_inv s pd -> set_page_pre ipd ram pd upage kpage ->
  match mapping (phys s) pd upage with
  | None =>
      (exists s' e, pagedir_set_page ipd ram pd upage kpage wr s = Ok (true, s') /\ pd_inv s' pd /\
         updated pd upage e s s' /\ tab e = kpage /\ Z.testbit e 0 = true /\ Z.testbit e 1 = wr /\
         Z.testbit e 5 = false /\ Z.testbit e 6 = false) \/
      (pagedir_set_page ipd ram pd upage kpage wr s = Ok (false, s) /\ no_room (kernel_pool (phys s)) 1)
  | Some _ => pagedir_set_page ipd ram pd upage kpage wr s = Err EAssert
  end.
Proof.
  intros Hinv Hpre. pose proof Hinv as [Hok Hc Hwin]. rewrite (set_page_start _ _ _ _ _ _ _ Hpre).
  destruct Hpre as [_ Hu Hka Hk _ _]. assert (0 <= upage /\ upage < 2 ^ 32) as [H0 H32] by (unfold PHYS_BASE in Hu; lia).
  destruct (pte_create_user_ok kpage wr Hka Hk) as (e & He & Her & Het & Hb0 & Hb).
  destruct (lookup_page_create s pd upage Hok H0 ltac:(apply Z.ltb_lt; lia)) as [(a & m & Hl & Hok1 & Hea & Hf & Hp)|(Hl & Hno & Hz)];
    rewrite (run_bind _ _ _ _ _ Hl); unfold mapping.
  - destruct (entry_at_word m pd upage a Hok1 H0 H32 Hea) as (Hn & Hw & Hr).
    apply Z.eqb_neq in Hn as ->. cbn [negb]. rewrite (run_bind _ _ _ _ _ (word_load_run _ _ (mkVm m (cr3 s)) Hw)).
    rewrite <- (Hp upage H0 H32). set (x := pte_of _ pd upage) in *.
    pose proof (flag_test x 0 ltac:(lia)) as Hft. change (2 ^ 0) with PTE_P in Hft.
    destruct (Z.testbit x 0).
    + rewrite run_bind_err with (e := EAssert); [done|]. by destruct (Z.land x PTE_P =? 0).
    + left. rewrite (run_bind _ _ _ tt (mkVm m (cr3 s))) by (apply run_assert; by destruct (Z.land x PTE_P =? 0)).
      rewrite (run_bind _ _ _ e (mkVm m (cr3 s))) by (by apply lift_run_v).
      destruct (store_entry (mkVm m (cr3 s)) pd upage a e Hok1 H0 H32 Hea Her) as (s' & Hs & Hup).
      assert (updated pd upage e s s') as Hup' by (by eapply updated_frame).
      exists s', e. rewrite (run_bind _ _ _ _ _ Hs). split; [done|].
      split; [eapply updated_inv; [done..|]; rewrite Het; lia|]. done.
  - rewrite Hz. by right.
Qed.

(** The mapping of one page is gone; the page stays where it was. *)
Lemma pagedir_clear_page_ok ipd s pd upage :
  pd_inv s pd -> upage mod PGSIZE = 0 -> 0 <= upage < PHYS_BASE ->
  exists s', pagedir_clear_page ipd pd upage s = Ok (tt, s') /\ pd_inv s' pd /\
    exists x, updated pd upage x s s' /\ Z.testbit x 0 = false /\
      forall k, 0 < k < 32 -> Z.testbit x k = Z.testbit (pte_of (pages (phys s)) pd upage) k.
Proof.
  intros Hinv Ha Hr. pose proof Hinv as [Hok Hc Hwin].
  destruct (used_aligned _ pd (po_mem _ pd Hok) (po_used _ pd Hok)) as [_ Hpr].
  assert (0 <= upage /\ upage < 2 ^ 32) as [H0 H32] by (unfold PHYS_BASE in Hr; lia). unfold pagedir_clear_page.
  rewrite (run_bind _ _ _ tt s) by (apply run_assert; rewrite pg_ofs_mod, Ha; done).
  rewrite (run_bind _ _ _ tt s) by (apply run_assert; apply Z.ltb_lt; lia).
  pose proof (updated_same pd upage s Hok H0 H32) as Hsame.
  destruct (lookup_page_ok s pd upage Hok H0 H32) as (a & Hl & [[-> Hz]|He]); rewrite (run_bind _ _ _ _ _ Hl).
  { exists s. split; [done|]. split; [done|]. eexists. split; [done|]. by rewrite Hz, Z.bits_0. }
  destruct (entry_at_word _ pd upage a Hok H0 H32 He) as (Hn & Hw & Hx). apply Z.eqb_neq in Hn as ->.
  rewrite (run_bind _ _ _ _ _ (word_load_run _ _ _ Hw)). set (x := pte_of _ pd upage) in *.
  change PTE_P with (2 ^ 0). rewrite flag_test by lia. destruct (Z.testbit x 0) eqn:E.
  - destruct (store_entry s pd upage a (word_set x 0 false) Hok H0 H32 He) as (s' & Hs & Hup).
    { apply word_set_range; [lia|done]. }
    assert (Z.testbit (word_set x 0 false) 0 = false) as Hb by (by rewrite word_set_spec by lia).
    exists s'. rewrite (run_bind _ _ _ _ _ Hs). split; [apply invalidate_run; [done|by rewrite (up_cr3 _ _ _ _ _ Hup)]|].
    split; [by eapply updated_inv; [done..|rewrite Hb]|]. eexists. split; [done|]. split; [done|].
    intros k Hk. rewrite word_set_spec by lia. by rewrite decide_False by lia.
  - exists s. split; [done|]. split; [done|]. by exists x.
Qed.

(** A new directory has the mappings of the initial one. *)
Lemma pagedir_create_ok ipd s :
  pd_inv s ipd ->
  (exists pd s', pagedir_create ipd s = Ok (pd, s') /\ ~ used (phys s) pd /\ pd_inv s' pd /\ pd_inv s' ipd /\
     (forall b, used (phys s') b <-> used (phys s) b \/ b = pd) /\
     forall va, 0 <= va -> va < 2 ^ 32 ->
       pte_of (pages (phys s')) pd va = pte_of (pages (phys s)) ipd va /\
       pte_of (pages (phys s')) ipd va = pte_of (pages (phys s)) ipd va) \/
  (pagedir_create ipd s = Ok (NULL, s) /\ no_room (kernel_pool (phys s)) 1).
Proof.
  intros [Hok Hc Hwin]. pose proof (po_mem _ _ Hok) as Hm. unfold pagedir_create.
  destruct (used_aligned _ ipd Hm (po_used _ ipd Hok)) as [Hia _].
  destruct (palloc_get_ok 0 1 (phys s) Hm ltac:(lia))
    as [(pd & m1 & Hget & Hm1 & Hn & Ha & Hfree & Hused & _ & Hpg)|[Hno Hget]].
  2:{ right. split; [|done]. rewrite (run_bind _ _ _ NULL s); [done|].
      unfold liftp, palloc_get_page. rewrite Hget. by destruct s. }
  left. cbn in Hpg. assert (~ used (phys s) pd) as Hnu by (apply Hfree; by apply group_one).
  destruct (po_entries _ _ Hok) as (ws & Hws & Hwl & Hwf).
  set (m2 := set_pages (<[pd := ws]> (pages m1)) m1). exists pd, (mkVm m2 (cr3 s)).
  assert (forall b, used m2 b <-> used (phys s) b \/ b = pd) as Hu2.
  { intros b. change (used m2 b) with (used m1 b). by rewrite Hused, group_one. }
  assert (forall b, used (phys s) b -> pages m2 !! b = pages (phys s) !! b) as Hp2.
  { intros b Hb. cbn. rewrite lookup_insert_ne by (by intros ->). by rewrite Hpg. }
  assert (mem_ok m2) as Hm2 by (by apply mem_ok_pages).
  destruct (pd_ok_frame (phys s) m2 ipd Hok Hm2) as [Hoki Hpti]; [intros b Hb; apply Hu2; by left|done|].
  assert (forall i, 0 <= i < 1024 -> word (pages m2) (pd + 4 * i) = word (pages (phys s)) (ipd + 4 * i)) as Hpdw.
  { intros i Hi. rewrite !word_at by done. cbn. by rewrite lookup_insert_eq, Hws. }
  assert (forall i, 0 <= i < 1024 -> word (pages m2) (ipd + 4 * i) = word (pages (phys s)) (ipd + 4 * i)) as Hiw.
  { intros i Hi. rewrite !word_at by done. by rewrite Hp2 by apply (po_used _ _ Hok). }
  assert (pd_ok m2 pd) as Hokp.
  { split; [done|apply Hu2; by right|exists ws; cbn; by rewrite lookup_insert_eq| |].
    - intros i w Hi. rewrite Hpdw by done. intros Hw Hnz. pose proof (po_tables _ _ Hok i w Hi Hw Hnz) as [T1 T2 T3 T4].
      rewrite <- Hiw in Hw by done. split; [done|apply Hu2; by left|by intros E; rewrite E in T2|].
      apply (po_tables _ _ Hoki i w Hi Hw Hnz).
    - intros i j wi wj Hi Hj. rewrite !Hpdw by done. by apply (po_distinct _ _ Hok). }
  assert (forall va, 0 <= va -> va < 2 ^ 32 -> pte_of (pages m2) pd va = pte_of (pages m2) ipd va) as Hpte.
  { intros va H0 Hu. pose proof (pd_no_range va H0 Hu). unfold pte_of. by rewrite Hpdw, Hiw by done. }
  split; [|split_and!].
  - rewrite (run_bind _ _ _ pd (mkVm m1 (cr3 s))) by (unfold liftp, palloc_get_page; by rewrite Hget).
    apply Z.eqb_neq in Hn as ->. cbn [negb]. rewrite (run_bind _ _ _ tt (mkVm m2 (cr3 s))); [done|].
    unfold copy_page. cbn [phys]. by rewrite Hpg, Hws.
  - done.
  - split; [done|done|]. intros va k w H0 Hu. unfold mapping; cbn [phys]. rewrite Hpte by done.
    rewrite (proj2 (Hpti va H0 Hu)). by apply Hwin.
  - split; [done|done|]. intros va k w H0 Hu. unfold mapping; cbn [phys]. rewrite (proj2 (Hpti va H0 Hu)). by apply Hwin.
  - done.
  - intros va H0 Hu. cbn [phys]. rewrite Hpte by done. split; apply Hpti; done.
Qed.

(** * Destruction *)

(** What is freed: pages that were in use, and no other page changes. *)
Record freed (L : list Z) (s s' : vmem) : Prop := {
  fr_mem : mem_ok (phys s');
  fr_cr3 : cr3 s' = cr3 s;
  fr_used : forall b, used (phys s') b <-> used (phys s) b /\ b ∉ L;
  fr_pages : forall b, b ∉ L -> pages (phys s') !! b = pages (phys s) !! b
}.

Lemma freed_nil s : mem_ok (phys s) -> freed [] s s.
Proof. intros Hm. split; [done|done| |done]. intros b. split; [intros H; split; [done|apply not_elem_of_nil]|tauto]. Qed.

Lemma freed_app L L' s s1 s2 : freed L s s1 -> freed L' s1 s2 -> freed (L ++ L') s s2.
Proof.
  intros [M1 C1 U1 P1] [M2 C2 U2 P2]. split; [done|congruence| |].
  - intros b. rewrite U2, U1, not_elem_of_app. tauto.
  - intros b [H1 H2]%not_elem_of_app. by rewrite P2, P1.
Qed.

(** The pages still to be freed are still in use. *)
Lemma freed_rest L L' s s' :
  freed L s s' -> NoDup (L ++ L') -> (forall b, b ∈ L ++ L' -> used (phys s) b) -> forall b, b ∈ L' -> used (phys s') b.
Proof.
  intros [_ _ U _] (_ & Hd & _)%NoDup_app Hu b Hb. apply U. split; [apply Hu; set_solver|]. intros H. by apply (Hd b).
Qed.

Lemma free_page_run a s :
  mem_ok (phys s) -> used (phys s) a -> exists s', liftp (palloc_free_page a) s = Ok (tt, s') /\ freed [a] s s'.
Proof.
  intros Hm Hu. destruct (used_aligned _ a Hm Hu) as [Ha _].
  assert (exists u, pool_used (get_pool u (phys s)) a) as [u Hp].
  { destruct Hu; [by exists false|by exists true]. }
  destruct (palloc_free_ok u a 1 (phys s) Hm Ha ltac:(lia)) as (m' & E & Hm' & Hu' & Hf).
  { by intros b ->%group_one. }
  exists (mkVm m' (cr3 s)). split; [unfold liftp, palloc_free_page; by rewrite E|].
  split; [done|done| |]; cbn; intros b; setoid_rewrite list_elem_of_singleton.
  - by rewrite Hu', group_one.
  - intros Hb. apply Hf. by rewrite group_one.
Qed.

(** The pages the present entries of a list point to. *)
Definition targets (ws : list Z) : list Z := tab <$> filter (fun w => Z.testbit w 0 = true) ws.

Definition words_at (m : pmem) (b : Z) : list Z := default [] (pages m !! b).

Lemma ptov_tab m w : mem_ok m -> used m (tab w) -> ptov (Z.land w PTE_ADDR) = Ok (tab w).
Proof.
  intros Hm Hu. destruct (used_aligned m _ Hm Hu) as [_ Hr]. unfold tab, ptov, rassert, PHYS_BASE in *.
  set (y := Z.land w PTE_ADDR) in *. rewrite (proj2 (Z.ltb_lt _ _)) by lia. cbn [mbind res_bind]. f_equal.
  apply uwrap_id; unfold in_u; lia.
Qed.

Lemma free_entries_ok ws : forall i pt s wall,
  mem_ok (phys s) -> pt mod PGSIZE = 0 -> pages (phys s) !! pt = Some wall -> drop i wall = ws ->
  length wall = 1024%nat -> NoDup (targets ws) -> pt ∉ targets ws -> (forall b, b ∈ targets ws -> used (phys s) b) ->
  exists s', free_entries (length ws) (pt + 4 * Z.of_nat i) s = Ok (tt, s') /\ freed (targets ws) s s'.
Proof.
  induction ws as [|w ws IH]; intros i pt s wall Hm Ha Hp Hd Hl Hnd Hpt Hu.
  { exists s. split; [done|]. by apply freed_nil. }
  assert (wall !! i = Some w) as Hi by (rewrite <- (Nat.add_0_r i), <- lookup_drop, Hd; done).
  assert (i < 1024)%nat as Hil by (rewrite <- Hl; by eapply lookup_lt_Some).
  assert (drop (S i) wall = ws) as Hd' by (rewrite <- Nat.add_1_r, <- drop_drop, Hd; done).
  cbn [length free_entries]. rewrite (run_bind _ _ _ w s).
  2:{ apply word_load_run. rewrite word_at, Hp by (done || lia). cbn. by rewrite Nat2Z.id. }
  replace (pt + 4 * Z.of_nat i + 4) with (pt + 4 * Z.of_nat (S i)) by lia.
  change PTE_P with (2 ^ 0). rewrite flag_test by lia. unfold targets in *. rewrite filter_cons in Hnd, Hpt, Hu |- *.
  destruct (Z.testbit w 0); cbn [fmap list_fmap] in *; fold (targets ws) in *.
  2:{ rewrite (run_bind _ _ _ tt s) by done. by apply (IH (S i) pt s wall). }
  destruct (free_page_run (tab w) s Hm ltac:(apply Hu; set_solver)) as (s1 & Hf & Hfr).
  rewrite (run_bind _ _ _ tt s1).
  2:{ rewrite (run_bind _ _ _ (tab w) s); [done|]. apply lift_run_v. eapply ptov_tab; [done|]. apply Hu. set_solver. }
  destruct (IH (S i) pt s1 wall) as (s2 & Hr & Hfr2); try done.
  - apply (fr_mem _ _ _ Hfr).
  - rewrite (fr_pages _ _ _ Hfr); [done|]. set_solver.
  - by apply NoDup_cons in Hnd as [_ ?].
  - set_solver.
  - by apply (freed_rest [tab w] _ s s1).
  - exists s2. split; [done|]. by apply (freed_app [tab w] _ s s1 s2).
Qed.

Lemma table_count : Z.to_nat (PGSIZE / 4) = 1024%nat.
Proof. by vm_compute. Qed.

Lemma user_count : Z.to_nat (pd_no PHYS_BASE) = (768 `min` 1024)%nat.
Proof. by vm_compute. Qed.

(** The pages of a page table and the table, in the order they are freed. *)
Definition table_pages (m : pmem) (w : Z) : list Z :=
  if Z.testbit w 0 then targets (words_at m (tab w)) ++ [tab w] else [].

(** The pages of user memory a directory refers to. *)
Definition user_pages (m : pmem) (pd : Z) : list Z := take 768 (words_at m pd) ≫= table_pages m.

Lemma table_pages_freed L s s' w :
  freed L s s' -> (Z.testbit w 0 = true -> tab w ∉ L) -> table_pages (phys s') w = table_pages (phys s) w.
Proof.
  intros Hf Hw. unfold table_pages, words_at. destruct (Z.testbit w 0); [|done]. by rewrite (fr_pages _ _ _ Hf) by auto.
Qed.

Lemma tables_pages_freed L s s' ws :
  freed L s s' -> (forall b, b ∈ ws ≫= table_pages (phys s) -> b ∉ L) ->
  ws ≫= table_pages (phys s') = ws ≫= table_pages (phys s).
Proof.
  intros Hf. induction ws as [|w ws IH]; intros H; [done|]. cbn [mbind list_bind] in *.
  rewrite IH by (intros b Hb; apply H; set_solver).
  rewrite (table_pages_freed _ _ _ w Hf); [done|]. intros Hw. apply H. unfold table_pages. rewrite Hw. set_solver.
Qed.

(** One page table. *)
Lemma free_table_ok w s :
  mem_ok (phys s) -> (Z.testbit w 0 = true -> length (words_at (phys s) (tab w)) = 1024%nat) ->
  NoDup (table_pages (phys s) w) -> (forall b, b ∈ table_pages (phys s) w -> used (phys s) b) ->
  exists s', (if negb (Z.land w PTE_P =? 0) then
                pt ← liftr (pde_get_pt w); free_entries (Z.to_nat (PGSIZE / 4)) pt;; liftp (palloc_free_page pt)
              else mret tt) s = Ok (tt, s') /\ freed (table_pages (phys s) w) s s'.
Proof.
  intros Hm Hl Hnd Hu. change PTE_P with (2 ^ 0). rewrite flag_test by lia. unfold table_pages in *.
  destruct (Z.testbit w 0) eqn:Hb; [|exists s; split; [done|by apply freed_nil]]. specialize (Hl eq_refl).
  assert (used (phys s) (tab w)) as Hut by (apply Hu; set_solver).
  rewrite (run_bind _ _ _ (tab w) s).
  2:{ apply lift_run_v. unfold pde_get_pt, rassert. change PTE_P with (2 ^ 0). rewrite flag_test, Hb by lia.
      cbn [mbind res_bind]. by eapply ptov_tab. }
  unfold words_at in *. destruct (pages (phys s) !! tab w) as [wall|] eqn:Hp; [|done]. cbn [default from_option id] in *.
  pose proof Hnd as (Hn1 & Hn2 & _)%NoDup_app.
  destruct (free_entries_ok wall 0 (tab w) s wall) as (s1 & Hf & Hfr); try done.
  - apply (used_aligned _ _ Hm Hut).
  - intros H. by apply (Hn2 _ H), list_elem_of_singleton.
  - intros b Hbt. apply Hu. set_solver.
  - rewrite (run_bind _ _ _ tt s1).
    2:{ rewrite <- Hf, Hl, table_count. by rewrite Z.mul_0_r, Z.add_0_r. }
    destruct (free_page_run (tab w) s1) as (s2 & Hf2 & Hfr2).
    + apply (fr_mem _ _ _ Hfr).
    + by apply (freed_rest _ _ _ _ Hfr Hnd Hu), list_elem_of_singleton.
    + exists s2. split; [done|]. by eapply freed_app.
Qed.

Lemma free_tables_ok ws : forall i pd s wall,
  mem_ok (phys s) -> pd mod PGSIZE = 0 -> pages (phys s) !! pd = Some wall ->
  (forall j, (j < length ws)%nat -> wall !! (i + j)%nat = ws !! j) -> (i + length ws <= 1024)%nat ->
  (forall w, w ∈ ws -> Z.testbit w 0 = true -> length (words_at (phys s) (tab w)) = 1024%nat) ->
  NoDup (ws ≫= table_pages (phys s)) -> pd ∉ ws ≫= table_pages (phys s) ->
  (forall b, b ∈ ws ≫= table_pages (phys s) -> used (phys s) b) ->
  exists s', free_tables (length ws) (pd + 4 * Z.of_nat i) s = Ok (tt, s') /\ freed (ws ≫= table_pages (phys s)) s s'.
Proof.
  induction ws as [|w ws IH]; intros i pd s wall Hm Ha Hp Hw Hi Hl Hnd Hpd Hu.
  { exists s. split; [done|]. by apply freed_nil. }
  cbn [length mbind list_bind free_tables] in *. pose proof Hnd as (Hn1 & Hn2 & Hn3)%NoDup_app.
  rewrite (run_bind _ _ _ w s).
  2:{ apply word_load_run. rewrite word_at, Hp by (done || lia). cbn. rewrite Nat2Z.id. rewrite <- (Nat.add_0_r i).
      apply (Hw 0%nat). lia. }
  replace (pd + 4 * Z.of_nat i + 4) with (pd + 4 * Z.of_nat (S i)) by lia.
  destruct (free_table_ok w s Hm) as (s1 & Hf & Hfr); [apply Hl, list_elem_of_here|done|intros b Hb; apply Hu, elem_of_app; by left|].
  rewrite (run_bind _ _ _ tt s1) by done.
  assert (ws ≫= table_pages (phys s1) = ws ≫= table_pages (phys s)) as Heq.
  { apply (tables_pages_freed _ _ _ _ Hfr). intros b Hb Hb'. by apply (Hn2 b). }
  destruct (IH (S i) pd s1 wall) as (s2 & Hr & Hfr2); rewrite ?Heq; try done.
  - apply (fr_mem _ _ _ Hfr).
  - rewrite (fr_pages _ _ _ Hfr); [done|]. by apply not_elem_of_app in Hpd as [? _].
  - intros j Hj. replace (S i + j)%nat with (i + S j)%nat by lia. apply (Hw (S j)). lia.
  - lia.
  - intros w' Hw' Hb. unfold words_at. rewrite (fr_pages _ _ _ Hfr); [by apply Hl; [apply list_elem_of_further|]|].
    intros H. apply (Hn2 (tab w') H). apply list_elem_of_bind. exists w'. split; [|done].
    unfold table_pages. rewrite Hb. apply elem_of_app. right. by apply list_elem_of_singleton.
  - by apply not_elem_of_app in Hpd as [_ ?].
  - by apply (freed_rest _ _ _ _ Hfr Hnd Hu).
  - exists s2. split; [done|]. rewrite Heq in Hfr2. by eapply freed_app.
Qed.

(** * Theorem *)

Definition same_page (va va' : Z) : Prop := va / PGSIZE = va' / PGSIZE.

(** Mapping and bits of the pages of a directory other than that of [va]. *)
Definition others_kept (pd va : Z) (m m' : pmem) : Prop :=
  forall va', 0 <= va' -> va' < 2 ^ 32 -> ~ same_page va' va ->
    mapping m' pd va' = mapping m pd va' /\ dirty m' pd va' = dirty m pd va' /\ accessed m' pd va' = accessed m pd va'.

Lemma updated_others pd va x s s' : updated pd va x s s' -> others_kept pd va (phys s) (phys s').
Proof.
  intros [_ _ _ U] va' H0 Hu Hne. unfold mapping, dirty, accessed. rewrite U by done. by rewrite decide_False.
Qed.

Lemma updated_pte pd va x s s' va' :
  updated pd va x s s' -> 0 <= va' -> va' < 2 ^ 32 -> same_page va' va -> pte_of (pages (phys s')) pd va' = x.
Proof. intros [_ _ _ U] H0 Hu E. rewrite U by done. by rewrite decide_True. Qed.

Lemma set_flag_keeps ipd k pd va v s :
  pd_inv s pd -> 0 <= va < 2 ^ 32 -> k = 5 \/ k = 6 ->
  exists s', set_flag ipd (2 ^ k) pd va v s = Ok (tt, s') /\ pd_inv s' pd /\ others_kept pd va (phys s) (phys s') /\
    mapping (phys s') pd va = mapping (phys s) pd va /\
    (forall j, 0 <= j < 12 -> j <> k ->
       Z.testbit (pte_of (pages (phys s')) pd va) j = Z.testbit (pte_of (pages (phys s)) pd va) j) /\
    (mapping (phys s) pd va <> None -> Z.testbit (pte_of (pages (phys s')) pd va) k = v).
Proof.
  intros Hinv [H0 Hu] Hk. pose proof Hinv as [Hok Hc Hwin].
  destruct (set_flag_ok ipd k pd va v s Hok Hc H0 Hu ltac:(lia)) as (s' & Hs & Hup). exists s'. split; [done|].
  destruct Hup as [[-> Hz]|Hup].
  { split; [done|]. split; [by intros ?|]. split; [done|]. split; [done|]. intros Hm. exfalso. apply Hm.
    unfold mapping. by rewrite Hz. }
  pose proof (updated_pte _ _ _ _ _ va Hup H0 Hu eq_refl) as Hp. set (x := pte_of (pages (phys s)) pd va) in *.
  assert (in_u 32 x) as Hx.
  { destruct (lookup_page_ok s pd va Hok H0 Hu) as (a & _ & [[_ Hz]|He]).
    - unfold x. rewrite Hz. unfold in_u. lia.
    - by apply (entry_at_word _ pd va a Hok H0 Hu He). }
  assert (forall j, 0 <= j < 32 -> Z.testbit (word_set x k v) j = if decide (j = k) then v else Z.testbit x j) as Hbits.
  { intros j Hj. apply word_set_spec; lia. }
  assert (tab (word_set x k v) = tab x) as Ht by (unfold tab; rewrite word_set_addr; [done|done|lia]).
  split; [|split; [by eapply updated_others|split; [|split]]].
  - eapply updated_inv; [done..|]. rewrite Hbits, decide_False by lia. rewrite Ht. intros Hb.
    apply (Hwin va (tab x) (Z.testbit x 1) H0 Hu). unfold mapping. fold x. by rewrite Hb.
  - unfold mapping. fold x. rewrite Hp, Ht, !Hbits, !decide_False by lia. done.
  - intros j Hj Hne. rewrite Hp, Hbits by lia. by rewrite decide_False.
  - intros _. rewrite Hp, Hbits by lia. by rewrite decide_True.
Qed.

(** C13: Page directories.  A page directory implements a map from pages to kernel
    pages with a writable, an accessed and a dirty bit.  [pagedir_get_page] reads
    the map; [pagedir_set_page] enters a mapping that is then found with both bits
    clear, fails an assertion if the page is mapped already, and returns false,
    with nothing changed, only if no page is free for a page table;
    [pagedir_clear_page] removes a mapping; the accessed and dirty bits of a mapped
    page read back as they were set, each without a change to the other or to the
    mapping.  No operation changes another page's mapping or bits, and a new
    directory has the mappings of the initial one. *)
Theorem pagedir_spec ipd ram s pd :
  pd_inv s pd ->
  (forall va, 0 <= va < PHYS_BASE ->
     pagedir_get_page pd va s =
       Ok (match mapping (phys s) pd va with Some (k, _) => k + va mod PGSIZE | None => NULL end, s)) /\
  (forall upage kpage wr, set_page_pre ipd ram pd upage kpage ->
     match mapping (phys s) pd upage with
     | Some _ => pagedir_set_page ipd ram pd upage kpage wr s = Err EAssert
     | None =>
         (exists s', pagedir_set_page ipd ram pd upage kpage wr s = Ok (true, s') /\ pd_inv s' pd /\
            others_kept pd upage (phys s) (phys s') /\
            forall o, 0 <= o < PGSIZE -> mapping (phys s') pd (upage + o) = Some (kpage, wr) /\
              dirty (phys s') pd (upage + o) = false /\ accessed (phys s') pd (upage + o) = false) \/
         (pagedir_set_page ipd ram pd upage kpage wr s = Ok (false, s) /\ no_room (kernel_pool (phys s)) 1)
     end) /\
  (forall upage, upage mod PGSIZE = 0 -> 0 <= upage < PHYS_BASE ->
     exists s', pagedir_clear_page ipd pd upage s = Ok (tt, s') /\ pd_inv s' pd /\
       others_kept pd upage (phys s) (phys s') /\ mapping (phys s') pd upage = None /\
       dirty (phys s') pd upage = dirty (phys s) pd upage /\ accessed (phys s') pd upage = accessed (phys s) pd upage) /\
  (forall va v, 0 <= va < 2 ^ 32 ->
     pagedir_is_dirty pd va s = Ok (dirty (phys s) pd va, s) /\
     pagedir_is_accessed pd va s = Ok (accessed (phys s) pd va, s) /\
     (exists s', pagedir_set_dirty ipd pd va v s = Ok (tt, s') /\ pd_inv s' pd /\
        others_kept pd va (phys s) (phys s') /\ mapping (phys s') pd va = mapping (phys s) pd va /\
        accessed (phys s') pd va = accessed (phys s) pd va /\
        (mapping (phys s) pd va <> None -> dirty (phys s') pd va = v)) /\
     (exists s', pagedir_set_accessed ipd pd va v s = Ok (tt, s') /\ pd_inv s' pd /\
        others_kept pd va (phys s) (phys s') /\ mapping (phys s') pd va = mapping (phys s) pd va /\
        dirty (phys s') pd va = dirty (phys s) pd va /\
        (mapping (phys s) pd va <> None -> accessed (phys s') pd va = v))) /\
  ((exists npd s', pagedir_create pd s = Ok (npd, s') /\ ~ used (phys s) npd /\ pd_inv s' npd /\ pd_inv s' pd /\
      forall va, 0 <= va < 2 ^ 32 -> mapping (phys s') npd va = mapping (phys s) pd va /\
        mapping (phys s') pd va = mapping (phys s) pd va) \/
   (pagedir_create pd s = Ok (NULL, s) /\ no_room (kernel_pool (phys s)) 1)).
Proof.
  intros Hinv. pose proof Hinv as [Hok Hc Hwin]. split; [|split; [|split; [|split]]].
  - intros va Hva. apply pagedir_get_page_ok; [done|lia|]. apply Z.ltb_lt. lia.
  - intros upage kpage wr Hpre. pose proof (pagedir_set_page_ok ipd ram s pd upage kpage wr Hinv Hpre) as H.
    destruct (mapping (phys s) pd upage); [done|]. destruct H as [(s' & e & H1 & H2 & H3 & H4 & H5 & H6 & H7 & H8)|H]; [left|by right].
    exists s'. split; [done|]. split; [done|]. split; [by eapply updated_others|]. intros o Ho.
    destruct Hpre as [Hm Hr _ _ _ _]. unfold mapping, dirty, accessed.
    rewrite (updated_pte _ _ _ _ _ (upage + o) H3); [|lia|unfold PHYS_BASE, PGSIZE in *; lia|].
    + by rewrite H5, H4, H6, H7, H8.
    + unfold same_page, PGSIZE in *. pose proof (Z.div_mod upage 4096). symmetry. apply Z.div_unique with (r := o); lia.
  - intros upage Ha Hr. destruct (pagedir_clear_page_ok ipd s pd upage Hinv Ha Hr) as (s' & H1 & H2 & x & H3 & H4 & H5).
    exists s'. split; [done|]. split; [done|]. split; [by eapply updated_others|]. unfold mapping, dirty, accessed.
    rewrite (updated_pte _ _ _ _ _ upage H3); [|lia|unfold PHYS_BASE in *; lia|done]. rewrite H4, !H5 by lia. done.
  - intros va v Hva. split; [by apply (test_flag_ok 6); try lia|]. split; [by apply (test_flag_ok 5); try lia|]. split.
    + destruct (set_flag_keeps ipd 6 pd va v s Hinv Hva ltac:(by right)) as (s' & H1 & H2 & H3 & H4 & H5 & H6).
      exists s'. do 4 (split; [done|]). split; [apply H5; lia|done].
    + destruct (set_flag_keeps ipd 5 pd va v s Hinv Hva ltac:(by left)) as (s' & H1 & H2 & H3 & H4 & H5 & H6).
      exists s'. do 4 (split; [done|]). split; [apply H5; lia|done].
  - destruct (pagedir_create_ok pd s Hinv) as [(npd & s' & H1 & H2 & H3 & H4 & H5 & H6)|H]; [left|by right].
    exists npd, s'. do 4 (split; [done|]). intros va Hva. unfold mapping. destruct (H6 va) as [-> ->]; [lia..|]. done.
Qed.

(** A page of zeros is a directory without mappings. *)
Lemma empty_pd_inv m pd c :
  mem_ok m -> used m pd -> pages m !! pd = Some (replicate 1024 0) -> 0 <= c < 2 ^ 30 ->
  pd_inv (mkVm m c) pd /\ forall va, 0 <= va -> va < 2 ^ 32 -> mapping m pd va = None.
Proof.
  intros Hm Hu Hz Hc. destruct (used_aligned m pd Hm Hu) as [Ha _].
  assert (forall i, 0 <= i < 1024 -> word (pages m) (pd + 4 * i) = Some 0) as Hw.
  { intros i Hi. rewrite word_at, Hz by done. cbn [mbind option_bind]. apply lookup_replicate_2. lia. }
  assert (forall va, 0 <= va -> va < 2 ^ 32 -> mapping m pd va = None) as Hmap.
  { intros va H0 H1. unfold mapping, pte_of. by rewrite Hw by (by apply pd_no_range). }
  split; [|done]. split; [|done|intros va k w H0 H1; cbn; by rewrite Hmap].
  split; cbn; [done|done| | |].
  - exists (replicate 1024 0). split; [done|]. split; [apply length_replicate|]. apply Forall_replicate. unfold in_u. lia.
  - intros i w Hi. rewrite Hw by done. by intros [= <-].
  - intros i j wi wj Hi Hj. rewrite !Hw by done. by intros [= <-].
Qed.

Definition demo_dir : Z * pmem :=
  match palloc_get_page PAL_ZERO demo_mem with
  | Ok r => r
  | Err _ => (0, demo_mem)
  end.

Lemma demo_dir_inv :
  pd_inv (mkVm (snd demo_dir) 0x1000) (fst demo_dir) /\ mapping (snd demo_dir) (fst demo_dir) 0x8048000 = None.
Proof.
  destruct (palloc_get_ok PAL_ZERO 1 demo_mem demo_mem_ok ltac:(lia)) as [(a & m & E & Hm & _ & _ & _ & Hu & _ & Hz)|[_ E]].
  - unfold demo_dir, palloc_get_page. rewrite E. cbn [fst snd].
    destruct (empty_pd_inv m a 0x1000 Hm) as [H1 H2]; [apply Hu; right; by apply group_one|apply Hz; by apply group_one|lia|].
    split; [done|apply H2; lia].
  - exfalso. assert (fst <$> palloc_get_multiple PAL_ZERO 1 demo_mem = Ok 0) as Ha by (by rewrite E).
    vm_compute in Ha. discriminate.
Qed.

Lemma pagedir_spec_witness :
  exists s', pagedir_set_page 0xc0050000 320 (fst demo_dir) 0x8048000 0xc0110000 true (mkVm (snd demo_dir) 0x1000) = Ok (true, s') /\
    pd_inv s' (fst demo_dir) /\ mapping (phys s') (fst demo_dir) 0x8048123 = Some (0xc0110000, true).
Proof.
  destruct demo_dir_inv as [Hinv Hm].
  destruct (pagedir_spec 0xc0050000 320 (mkVm (snd demo_dir) 0x1000) (fst demo_dir) Hinv) as (_ & H & _).
  specialize (H 0x8048000 0xc0110000 true). cbn [phys] in H. rewrite Hm in H.
  assert (fst demo_dir = 0xc0101000) as Epd by (by vm_compute).
  destruct H as [(s' & H1 & H2 & _ & H3)|[E _]].
  - split; [by vm_compute|unfold PHYS_BASE; lia|by vm_compute|unfold PHYS_BASE; lia|by vm_compute|by rewrite Epd].
  - exists s'. split; [exact H1|]. split; [exact H2|]. apply (H3 0x123). unfold PGSIZE. lia.
  - exfalso.
    assert (fst <$> pagedir_set_page 0xc0050000 320 (fst demo_dir) 0x8048000 0xc0110000 true (mkVm (snd demo_dir) 0x1000) = Ok false)
      as Ha by (by rewrite E).
    vm_compute in Ha. discriminate.
Defined.

(** C14: Destroying a directory that owns its pages (all in use, none mapped twice)
    runs to the end and frees exactly the pages mapped below [PHYS_BASE], the page
    tables for these and the directory, each once; every other page keeps its
    state and its contents. *)
Theorem pagedir_destroy_spec ipd pd s :
  mem_ok (phys s) -> pd <> ipd -> length (words_at (phys s) pd) = 1024%nat ->
  (forall w, w ∈ take 768 (words_at (phys s) pd) -> Z.testbit w 0 = true ->
     length (words_at (phys s) (tab w)) = 1024%nat) ->
  NoDup (user_pages (phys s) pd ++ [pd]) -> (forall b, b ∈ user_pages (phys s) pd ++ [pd] -> used (phys s) b) ->
  exists s', pagedir_destroy ipd pd s = Ok (tt, s') /\ mem_ok (phys s') /\ cr3 s' = cr3 s /\
    (forall b, used (phys s') b <-> used (phys s) b /\ b ∉ user_pages (phys s) pd ++ [pd]) /\
    (forall b, b ∉ user_pages (phys s) pd ++ [pd] -> pages (phys s') !! b = pages (phys s) !! b).
Proof.
  intros Hm Hne Hl Ht Hnd Hu. pose proof Hnd as (Hn1 & Hn2 & _)%NoDup_app.
  destruct (used_aligned _ pd Hm) as [Ha Hr]; [apply Hu; set_solver|].
  unfold pagedir_destroy. assert ((pd =? NULL) = false) as -> by (apply Z.eqb_neq; unfold NULL, PHYS_BASE in *; lia).
  rewrite (run_bind _ _ _ tt s) by (apply run_assert; by apply Z.eqb_neq in Hne as ->).
  unfold user_pages, words_at in *. destruct (pages (phys s) !! pd) as [wall|] eqn:Hp; [|done]. cbn [default from_option id] in *.
  destruct (free_tables_ok (take 768 wall) 0 pd s wall) as (s1 & Hf & Hfr); try done.
  - intros j Hj. rewrite length_take in Hj. rewrite lookup_take_lt by lia. done.
  - rewrite length_take. lia.
  - intros H. by apply (Hn2 _ H), list_elem_of_singleton.
  - intros b Hb. apply Hu. set_solver.
  - rewrite (run_bind _ _ _ tt s1).
    2:{ rewrite <- Hf, length_take, Hl, user_count. by rewrite Z.mul_0_r, Z.add_0_r. }
    destruct (free_page_run pd s1) as (s2 & Hf2 & Hfr2).
    + apply (fr_mem _ _ _ Hfr).
    + by apply (freed_rest _ _ _ _ Hfr Hnd Hu), list_elem_of_singleton.
    + exists s2. split; [done|]. destruct (freed_app _ _ _ _ _ Hfr Hfr2) as [M C U P]. done.
Qed.

(** A directory with one page of user memory mapped. *)
Definition demo_full : vmem :=
  match (k ← liftp (palloc_get_page PAL_USER);
         pagedir_set_page 0xc0050000 320 (fst demo_dir) 0x8048000 k true) (mkVm (snd demo_dir) 0x1000) with
  | Ok (_, s) => s
  | Err _ => mkVm demo_mem 0
  end.

Lemma demo_full_ok : mem_ok (phys demo_full).
Proof.
  split; [split|split|]; try (by vm_compute).
  - split; [by vm_compute..|]. unfold in_u. apply (bool_decide_unpack _). by vm_compute.
  - split; [by vm_compute..|]. unfold in_u. apply (bool_decide_unpack _). by vm_compute.
Qed.

Definition usedb (m : pmem) (a : Z) : bool :=
  let one p := (a mod PGSIZE =? 0) && (base p <=? a) && (a <? base p + PGSIZE * bit_cnt (used_map p)) && page_bit p a in
  one (kernel_pool m) || one (user_pool m).

Lemma usedb_used m a : usedb m a = true -> used m a.
Proof.
  unfold usedb, used, pool_used, in_pool. rewrite orb_true_iff, !andb_true_iff, !Z.leb_le, !Z.ltb_lt, !Z.eqb_eq. tauto.
Qed.

Lemma pagedir_destroy_witness :
  user_pages (phys demo_full) 0xc0101000 = [0xc0121000; 0xc0102000] /\
  exists s', pagedir_destroy 0xc0050000 0xc0101000 demo_full = Ok (tt, s') /\ ~ used (phys s') 0xc0121000.
Proof.
  assert (user_pages (phys demo_full) 0xc0101000 = [0xc0121000; 0xc0102000]) as E by (by vm_compute).
  split; [exact E|].
  destruct (pagedir_destroy_spec 0xc0050000 0xc0101000 demo_full demo_full_ok) as (s' & H & _ & _ & Hu & _).
  - lia.
  - by vm_compute.
  - assert (forallb (fun w => negb (Z.testbit w 0) || (length (words_at (phys demo_full) (tab w)) =? 1024)%nat)
      (take 768 (words_at (phys demo_full) 0xc0101000)) = true) as Hf by (by vm_compute).
    intros w Hw Hb. rewrite forallb_forall in Hf. specialize (Hf w (proj1 (list_elem_of_In _ _) Hw)).
    rewrite Hb in Hf. by apply Nat.eqb_eq in Hf.
  - rewrite E. apply (bool_decide_unpack _). by vm_compute.
  - rewrite E. intros b Hb. apply usedb_used. cbn [app] in Hb. rewrite !elem_of_cons in Hb.
    destruct Hb as [H|[H|[H|H]]]; [rewrite H; vm_compute; reflexivity..|]. destruct (not_elem_of_nil _ H).
  - exists s'. split; [exact H|]. rewrite Hu, E. intros [_ Hn]. apply Hn. apply list_elem_of_here.
Defined.
