(* ===== verification/FixedPoint.v ===== *)
(** The 20.12 fixed-point numbers of threads/fixedpoint.h, on 32-bit [int]s with
    64-bit intermediate products, and the formulas of the multi-level feedback
    scheduler of threads/thread.c that are written with them. *)
From Stdlib Require Import ZArith Lia.
From stdpp Require Import base numbers sorting gmap list.
From S2P Require Import Prelude.

Local Open Scope Z_scope.

(** * Operations *)

Definition Q : Z := 12.
Definition F : Z := 4096.
Definition HF : Z := 2048.

Definition Float (i : Z) : Z := s32 (i * F).

(** C's division rounds towards zero. *)
Definition Round0 (f : Z) : Z := Z.quot f F.

Definition Round (f : Z) : Z :=
  if 0 <? f then Round0 (s32 (f + HF)) else Round0 (s32 (f - HF)).

Definition AddF (f1 f2 : Z) : Z := s32 (f1 + f2).
Definition SubF (f1 f2 : Z) : Z := s32 (f1 - f2).

(** [((int64_t) f1) * f2 / F], converted to [int]; the product of two [int]s fits
    in 64 bits. *)
Definition MulF (f1 f2 : Z) : Z := s32 (Z.quot (s64 (f1 * f2)) F).

(** Division by zero traps. *)
Definition DivF (f1 f2 : Z) : res Z :=
  if f2 =? 0 then Err EFault else Ok (s32 (Z.quot (s64 (f1 * F)) f2)).

Definition AddI (f i : Z) : Z := AddF f (Float i).
Definition SubI (f i : Z) : Z := SubF f (Float i).
Definition MulI (f i : Z) : Z := s32 (f * i).

(** So does the one quotient that does not fit, [INT_MIN / -1]. *)
Definition DivI (f i : Z) : res Z :=
  if (i =? 0) || ((f =? - 2 ^ 31) && (i =? -1)) then Err EFault else Ok (Z.quot f i).

(** * The formulas of thread.c *)

Definition PRI_MIN : Z := 0.
Definition PRI_DEFAULT : Z := 31.
Definition PRI_MAX : Z := 63.

(** [frac59] and [frac01], as [thread_init] computes them. *)
Definition frac59 : res Z := DivI (Float 59) 60.
Definition frac01 : res Z := DivI (Float 1) 60.

Definition clamp_priority (p : Z) : Z :=
  if p <? PRI_MIN then PRI_MIN else if PRI_MAX <? p then PRI_MAX else p.

(** [Round (SubF (Float (PRI_MAX), AddF (DivI (recent_cpu, 4), MulI (Float (nice), 2))))] *)
Definition mlfqs_priority (recent_cpu nice : Z) : res Z :=
  q ← DivI recent_cpu 4;
  Ok (Round (SubF (Float PRI_MAX) (AddF q (MulI (Float nice) 2)))).

(** [AddF (MulF (frac59, load_avg), MulI (frac01, ready))] *)
Definition mlfqs_load_avg (load_avg ready : Z) : res Z :=
  f59 ← frac59; f01 ← frac01;
  Ok (AddF (MulF f59 load_avg) (MulI f01 ready)).

(** [AddI (MulF (DivF (MulI (load_avg, 2), AddI (MulI (load_avg, 2), 1)), recent_cpu), nice)] *)
Definition mlfqs_recent_cpu (load_avg recent_cpu nice : Z) : res Z :=
  d ← DivF (MulI load_avg 2) (AddI (MulI load_avg 2) 1);
  Ok (AddI (MulF d recent_cpu) nice).

(** * Properties *)

Lemma s32_small z : in_s 32 z -> s32 z = z.
Proof. by apply swrap_id. Qed.

Lemma quot_bounds a b : 0 < b -> a - b < b * Z.quot a b < a + b.
Proof. intros H. pose proof (Z.quot_rem' a b). pose proof (Z.rem_bound_abs a b). lia. Qed.

(** Multiples of [F] convert back exactly. *)
Lemma Float_exact i : - 2 ^ 19 <= i < 2 ^ 19 -> Float i = i * F.
Proof. intros H. apply s32_small. unfold in_s, F. lia. Qed.

Lemma Round_nearest f :
  - 2 ^ 31 + HF <= f < 2 ^ 31 - HF -> Z.abs (Round f * F - f) <= HF.
Proof.
  intros H. unfold Round, Round0, F, HF in *. destruct (Z.ltb_spec 0 f) as [E|E].
  - rewrite s32_small by (unfold in_s; lia).
    rewrite Z.quot_div_nonneg by lia.
    pose proof (Z.div_mod (f + 2048) 4096). pose proof (Z.mod_pos_bound (f + 2048) 4096). lia.
  - rewrite s32_small by (unfold in_s; lia).
    replace (f - 2048) with (- (2048 - f)) by lia. rewrite Z.quot_opp_l by lia.
    rewrite Z.quot_div_nonneg by lia.
    pose proof (Z.div_mod (2048 - f) 4096). pose proof (Z.mod_pos_bound (2048 - f) 4096). lia.
Qed.

Lemma s64_mul_int a b : in_s 32 a -> in_s 32 b -> s64 (a * b) = a * b.
Proof. unfold in_s. intros Ha Hb. apply swrap_id; [lia|]. unfold in_s. nia. Qed.

(** A product is exact up to one unit of the last place, when it fits. *)
Lemma MulF_error a b :
  in_s 32 a -> in_s 32 b -> in_s 32 (Z.quot (a * b) F) -> Z.abs (MulF a b * F - a * b) < F.
Proof.
  intros Ha Hb Hp. unfold MulF. rewrite s64_mul_int by done. rewrite s32_small by done.
  pose proof (quot_bounds (a * b) F ltac:(unfold F; lia)). lia.
Qed.

(** ** Load average *)

Lemma frac59_eq : frac59 = Ok 4027.
Proof. reflexivity. Qed.

Lemma frac01_eq : frac01 = Ok 68.
Proof. reflexivity. Qed.

Lemma mlfqs_load_avg_eq l r n :
  0 <= r <= n -> n < 2 ^ 19 -> 0 <= l <= n * F ->
  mlfqs_load_avg l r = Ok (4027 * l / 4096 + 68 * r).
Proof.
  intros Hr Hn Hl. unfold mlfqs_load_avg. rewrite frac59_eq, frac01_eq. cbn.
  unfold AddF, MulF, MulI, F in *.
  rewrite s64_mul_int by (unfold in_s; lia). rewrite Z.quot_div_nonneg by lia.
  assert (0 <= 4027 * l / 4096 <= 4027 * n).
  { split; [apply Z.div_pos; lia|]. apply Z.div_le_upper_bound; lia. }
  rewrite (s32_small (4027 * l / 4096)), (s32_small (68 * r)) by (unfold in_s; lia).
  by rewrite s32_small by (unfold in_s; lia).
Qed.

Lemma clamp_range p : PRI_MIN <= clamp_priority p <= PRI_MAX.
Proof. unfold clamp_priority, PRI_MIN, PRI_MAX. repeat case_match; lia. Qed.

Lemma clamp_id p : PRI_MIN <= p <= PRI_MAX -> clamp_priority p = p.
Proof. unfold clamp_priority, PRI_MIN, PRI_MAX. intros H. repeat case_match; lia. Qed.

(** ** Recent CPU *)

(** The decay factor (2 * load_avg) / (2 * load_avg + 1) is below 1. *)
Lemma decay_factor l :
  0 <= l < 2 ^ 29 -> exists d, DivF (MulI l 2) (AddI (MulI l 2) 1) = Ok d /\ 0 <= d < F.
Proof.
  intros Hl. unfold DivF, MulI, AddI, AddF, Float, F.
  rewrite (s32_small (l * 2)), (s32_small (1 * 4096)), s32_small by (unfold in_s; lia).
  rewrite (proj2 (Z.eqb_neq _ _)) by lia. rewrite s64_mul_int by (unfold in_s; lia).
  rewrite Z.quot_div_nonneg by lia.
  assert (0 <= l * 2 * 4096 / (l * 2 + 1 * 4096) < 4096).
  { split; [apply Z.div_pos; lia|]. apply Z.div_lt_upper_bound; lia. }
  eexists. split; [reflexivity|]. rewrite s32_small by (unfold in_s; lia). lia.
Qed.

(** Scaling by a factor below 1 does not enlarge and keeps the sign. *)
Lemma MulF_decay d c : 0 <= d < F -> in_s 32 c -> Z.min c 0 <= MulF d c <= Z.max c 0.
Proof.
  intros Hd Hc. unfold MulF, F in *. rewrite s64_mul_int by (unfold in_s in *; lia).
  assert (Z.min c 0 <= Z.quot (d * c) 4096 <= Z.max c 0).
  { destruct (Z.le_ge_cases 0 c).
    - rewrite Z.quot_div_nonneg by nia.
      assert (0 <= d * c / 4096 <= c) by (split; [apply Z.div_pos; nia|apply Z.div_le_upper_bound; nia]).
      lia.
    - replace (d * c) with (- (d * - c)) by lia. rewrite Z.quot_opp_l by lia.
      rewrite Z.quot_div_nonneg by nia.
      assert (0 <= d * - c / 4096 <= - c) by (split; [apply Z.div_pos; nia|apply Z.div_le_upper_bound; nia]).
      lia. }
  rewrite s32_small; [done|]. unfold in_s in *. lia.
Qed.

(** * Main theorems *)

(** converting an integer to fixed point and back is the identity, with either
    rounding, for every integer that can be represented; and [Round] returns a
    nearest integer: it is off by at most half. *)
Theorem fixed_point_roundtrip i :
  - 2 ^ 19 + 1 <= i < 2 ^ 19 - 1 ->
  Round0 (Float i) = i /\ Round (Float i) = i.
Proof.
  intros H. rewrite Float_exact by lia. split.
  - unfold Round0. by apply Z.quot_mul.
  - pose proof (Round_nearest (i * F)) as Hr. unfold F, HF in *.
    specialize (Hr ltac:(lia)). lia.
Qed.

Lemma fixed_point_roundtrip_witness : Round0 (Float (-7)) = -7 /\ Round (Float (-7)) = -7.
Proof. apply fixed_point_roundtrip. lia. Defined.

(** the load average never leaves the range of the number of runnable threads:
    if it is between 0 and [n] and at most [n] threads are ready, the value
    computed at the next second is between 0 and [n] too, without overflow, for
    any [n] below 2^19. *)
Theorem load_avg_bounded l r n :
  0 <= r <= n -> n < 2 ^ 19 -> 0 <= l <= n * F ->
  exists l', mlfqs_load_avg l r = Ok l' /\ 0 <= l' <= n * F.
Proof.
  intros Hr Hn Hl. exists (4027 * l / 4096 + 68 * r). split; [by apply (mlfqs_load_avg_eq l r n)|].
  unfold F in *. assert (0 <= 4027 * l / 4096 <= 4027 * n); [|lia].
  split; [apply Z.div_pos; lia|]. apply Z.div_le_upper_bound; lia.
Qed.

Lemma load_avg_bounded_witness : exists l', mlfqs_load_avg 8192 2 = Ok l' /\ 0 <= l' <= 2 * F.
Proof. apply (load_avg_bounded 8192 2 2); unfold F; lia. Defined.

(** one second of decay never traps and never makes [recent_cpu] grow in
    magnitude beyond adding [nice]: the new value lies between 0 and the old one,
    shifted by [nice], for every load average below 2^17 threads. *)
Theorem recent_cpu_decays l c nice :
  0 <= l < 2 ^ 29 -> - 2 ^ 30 <= c < 2 ^ 30 -> -20 <= nice <= 20 ->
  exists c', mlfqs_recent_cpu l c nice = Ok c' /\
    Z.min c 0 + nice * F <= c' <= Z.max c 0 + nice * F.
Proof.
  intros Hl Hc Hn. unfold mlfqs_recent_cpu. destruct (decay_factor l Hl) as (d & -> & Hd). cbn.
  pose proof (MulF_decay d c Hd ltac:(unfold in_s; lia)) as Hm.
  eexists. split; [reflexivity|]. unfold AddI, AddF. rewrite Float_exact by lia.
  rewrite s32_small by (unfold in_s, F in *; lia). lia.
Qed.

Lemma recent_cpu_decays_witness :
  exists c', mlfqs_recent_cpu 8192 40960 3 = Ok c' /\ 0 + 3 * F <= c' <= 40960 + 3 * F.
Proof. apply (recent_cpu_decays 8192 40960 3); lia. Defined.
