(* ===== verification/Thread.v ===== *)
(** Threads, the scheduler and the synchronization primitives: threads/thread.c,
    threads/synch.c and the sleep queue of devices/timer.c.

    The kernel state is one record.  A routine of the C code that runs without
    losing the CPU is a function on it; where a routine calls [schedule], which
    returns only when some other thread gives the CPU back, what is left to do
    afterwards is returned as a list of commands, the continuation the thread
    keeps on its kernel stack.  The timer could also interrupt [lock_acquire],
    [lock_try_acquire], [lock_release], [cond_signal] and the search of
    [timer_sleep] between two accesses, which run with interrupts on; Preempt.v
    has these routines access by access. *)
From Stdlib Require Import ZArith Lia.
From stdpp Require Import base numbers sorting gmap list.
From S2P Require Import Prelude.
From S2P Require Import FixedPoint.

Local Open Scope Z_scope.

(** * Data *)

Inductive thread_status :=
| THREAD_RUNNING
| THREAD_READY
| THREAD_BLOCKED
| THREAD_DYING.

#[export] Instance thread_status_eq_dec : EqDecision thread_status.
Proof. solve_decision. Defined.

Definition TID_ERROR : Z := -1.
Definition PRI_DEPTH : Z := 8.
Definition TIME_SLICE : Z := 4.
Definition TIMER_FREQ : Z := 100.

(** A null pointer. *)
Definition NULL : Z := 0.

Record priority_lock := { pl_lock : Z; pl_thread : Z }.

Definition no_donation : priority_lock := {| pl_lock := NULL; pl_thread := NULL |}.

Record fileHandle := { fh_file : Z; fh_dir : Z; fh_fd : Z }.

Record exit_status := { es_tid : Z; es_status : Z }.

Record sleep_elem := { wakeTicks : Z; currentThread : Z; removeFlag : Z }.

(** The semaphores of the kernel: free-standing ones, the one inside a lock, the
    ones inside a thread, and the one on the stack of a thread in [cond_wait]. *)
Inductive sema_id :=
| SemaAt (addr : Z)
| LockSema (lock : Z)
| WaitSema (thread : Z)
| ExecSema (thread : Z)
| CondSema (thread : Z).

#[export] Instance sema_id_eq_dec : EqDecision sema_id.
Proof. solve_decision. Defined.

#[export] Instance sema_id_countable : Countable sema_id.
Proof.
  apply (inj_countable'
    (fun s => match s with
      | SemaAt a => (0, a) | LockSema a => (1, a) | WaitSema a => (2, a)
      | ExecSema a => (3, a) | CondSema a => (4, a) end)
    (fun '(n, a) => match n with
      | 0 => SemaAt a | 1 => LockSema a | 2 => WaitSema a
      | 3 => ExecSema a | _ => CondSema a end)).
  by intros [].
Defined.

Record semaphore := { value : Z; waiters : list Z }.

(** A thread, by the fields of [struct thread] the scheduler and the system calls
    use.  [has_pagedir] is [pagedir != NULL].  A page that holds a live thread has
    an intact [magic]; a freed page does not, since palloc.c overwrites it. *)
Record thread := mkThread {
  tid : Z;
  status : thread_status;
  nativePriority : Z;
  priority : Z;
  numDonors : Z;
  nice : Z;
  recent_cpu : Z;
  donors : list priority_lock;
  donees : priority_lock;
  handles : list fileHandle;
  wait_list : list Z;
  child_list : list Z;
  nextFD : Z;
  has_pagedir : bool
}.

Definition set_tid (v : Z) (t : thread) : thread :=
    mkThread v (status t) (nativePriority t) (priority t) (numDonors t) (nice t) (recent_cpu t)
    (donors t) (donees t) (handles t) (wait_list t) (child_list t) (nextFD t) (has_pagedir t).
Definition set_status (v : thread_status) (t : thread) : thread :=
    mkThread (tid t) v (nativePriority t) (priority t) (numDonors t) (nice t) (recent_cpu t)
    (donors t) (donees t) (handles t) (wait_list t) (child_list t) (nextFD t) (has_pagedir t).
Definition set_nativePriority (v : Z) (t : thread) : thread :=
    mkThread (tid t) (status t) v (priority t) (numDonors t) (nice t) (recent_cpu t) (donors t)
    (donees t) (handles t) (wait_list t) (child_list t) (nextFD t) (has_pagedir t).
Definition set_priority (v : Z) (t : thread) : thread :=
    mkThread (tid t) (status t) (nativePriority t) v (numDonors t) (nice t) (recent_cpu t)
    (donors t) (donees t) (handles t) (wait_list t) (child_list t) (nextFD t) (has_pagedir t).
Definition set_numDonors (v : Z) (t : thread) : thread :=
    mkThread (tid t) (status t) (nativePriority t) (priority t) v (nice t) (recent_cpu t)
    (donors t) (donees t) (handles t) (wait_list t) (child_list t) (nextFD t) (has_pagedir t).
Definition set_nice (v : Z) (t : thread) : thread :=
    mkThread (tid t) (status t) (nativePriority t) (priority t) (numDonors t) v (recent_cpu t)
    (donors t) (donees t) (handles t) (wait_list t) (child_list t) (nextFD t) (has_pagedir t).
Definition set_recent_cpu (v : Z) (t : thread) : thread :=
    mkThread (tid t) (status t) (nativePriority t) (priority t) (numDonors t) (nice t) v (donors
    t) (donees t) (handles t) (wait_list t) (child_list t) (nextFD t) (has_pagedir t).
Definition set_donors (v : list priority_lock) (t : thread) : thread :=
    mkThread (tid t) (status t) (nativePriority t) (priority t) (numDonors t) (nice t)
    (recent_cpu t) v (donees t) (handles t) (wait_list t) (child_list t) (nextFD t) (has_pagedir
    t).
Definition set_donees (v : priority_lock) (t : thread) : thread :=
    mkThread (tid t) (status t) (nativePriority t) (priority t) (numDonors t) (nice t)
    (recent_cpu t) (donors t) v (handles t) (wait_list t) (child_list t) (nextFD t) (has_pagedir
    t).
Definition set_handles (v : list fileHandle) (t : thread) : thread :=
    mkThread (tid t) (status t) (nativePriority t) (priority t) (numDonors t) (nice t)
    (recent_cpu t) (donors t) (donees t) v (wait_list t) (child_list t) (nextFD t) (has_pagedir
    t).
Definition set_wait_list (v : list Z) (t : thread) : thread :=
    mkThread (tid t) (status t) (nativePriority t) (priority t) (numDonors t) (nice t)
    (recent_cpu t) (donors t) (donees t) (handles t) v (child_list t) (nextFD t) (has_pagedir
    t).
Definition set_child_list (v : list Z) (t : thread) : thread :=
    mkThread (tid t) (status t) (nativePriority t) (priority t) (numDonors t) (nice t)
    (recent_cpu t) (donors t) (donees t) (handles t) (wait_list t) v (nextFD t) (has_pagedir t).
Definition set_nextFD (v : Z) (t : thread) : thread :=
    mkThread (tid t) (status t) (nativePriority t) (priority t) (numDonors t) (nice t)
    (recent_cpu t) (donors t) (donees t) (handles t) (wait_list t) (child_list t) v (has_pagedir
    t).
Definition set_has_pagedir (v : bool) (t : thread) : thread :=
    mkThread (tid t) (status t) (nativePriority t) (priority t) (numDonors t) (nice t)
    (recent_cpu t) (donors t) (donees t) (handles t) (wait_list t) (child_list t) (nextFD t) v.

(** Who asked [allocate_tid] for a tid: [thread_init], or [thread_create] for the
    new thread at [page] with the exit status at [es]. *)
Inductive tid_use :=
| ForInit
| ForCreate (page es : Z).

(** What a thread has still to do once it runs again. *)
Inductive cmd :=
| CSetLevel (on : bool)                (* intr_set_level (old_level) *)
| CYield                               (* thread_yield () *)
| CExit                                (* thread_exit () *)
| CSemaDown (s : sema_id)
| CDownLoop (s : sema_id) (old : bool) (* the while loop of sema_down and what follows *)
| CSemaUp (s : sema_id)
| CLockAcquire (l : Z)
| CLockTake (l : Z)                    (* lock_acquire after its sema_down *)
| CLockRelease (l : Z)
| CCondWait (c l : Z)
| CCondSignal (c l : Z)
| CCondBroadcast (c l : Z)
| CSetPriority (p stray : Z)
| CNextTid (u : tid_use)               (* allocate_tid inside its lock *)
| CTid (u : tid_use) (n : Z)           (* what follows the call of allocate_tid *)
| CIdle (started : sema_id)            (* idle () *)
| CIdleLoop                            (* its for loop *)
| CIdleWake.                           (* the loop after thread_block *)

(** The state of the kernel.  [cur] is the running thread, [holders] the [holder]
    of every lock, [conds] the waiters of every condition variable by the thread
    that waits. *)
Record kstate := mkK {
  threads : gmap Z thread;
  ready_list : list Z;
  all_list : list Z;
  exit_list : list Z;
  exits : gmap Z exit_status;
  idle_thread : Z;
  initial_thread : Z;
  idle_ticks : Z;
  kernel_ticks : Z;
  user_ticks : Z;
  thread_ticks : Z;
  thread_mlfqs : bool;
  load_avg : Z;
  ready_threads : Z;
  next_tid : Z;
  cur : Z;
  intr_on : bool;
  in_external_intr : bool;
  yield_on_return : bool;
  ticks : Z;
  sleep_queue : list sleep_elem;
  semas : gmap sema_id semaphore;
  holders : gmap Z Z;
  conds : gmap Z (list Z)
}.

Definition set_threads (v : gmap Z thread) (k : kstate) : kstate :=
    mkK v (ready_list k) (all_list k) (exit_list k) (exits k) (idle_thread k) (initial_thread k)
    (idle_ticks k) (kernel_ticks k) (user_ticks k) (thread_ticks k) (thread_mlfqs k) (load_avg
    k) (ready_threads k) (next_tid k) (cur k) (intr_on k) (in_external_intr k) (yield_on_return
    k) (ticks k) (sleep_queue k) (semas k) (holders k) (conds k).
Definition set_ready_list (v : list Z) (k : kstate) : kstate :=
    mkK (threads k) v (all_list k) (exit_list k) (exits k) (idle_thread k) (initial_thread k)
    (idle_ticks k) (kernel_ticks k) (user_ticks k) (thread_ticks k) (thread_mlfqs k) (load_avg
    k) (ready_threads k) (next_tid k) (cur k) (intr_on k) (in_external_intr k) (yield_on_return
    k) (ticks k) (sleep_queue k) (semas k) (holders k) (conds k).
Definition set_all_list (v : list Z) (k : kstate) : kstate :=
    mkK (threads k) (ready_list k) v (exit_list k) (exits k) (idle_thread k) (initial_thread k)
    (idle_ticks k) (kernel_ticks k) (user_ticks k) (thread_ticks k) (thread_mlfqs k) (load_avg
    k) (ready_threads k) (next_tid k) (cur k) (intr_on k) (in_external_intr k) (yield_on_return
    k) (ticks k) (sleep_queue k) (semas k) (holders k) (conds k).
Definition set_exit_list (v : list Z) (k : kstate) : kstate :=
    mkK (threads k) (ready_list k) (all_list k) v (exits k) (idle_thread k) (initial_thread k)
    (idle_ticks k) (kernel_ticks k) (user_ticks k) (thread_ticks k) (thread_mlfqs k) (load_avg
    k) (ready_threads k) (next_tid k) (cur k) (intr_on k) (in_external_intr k) (yield_on_return
    k) (ticks k) (sleep_queue k) (semas k) (holders k) (conds k).
Definition set_exits (v : gmap Z exit_status) (k : kstate) : kstate :=
    mkK (threads k) (ready_list k) (all_list k) (exit_list k) v (idle_thread k) (initial_thread
    k) (idle_ticks k) (kernel_ticks k) (user_ticks k) (thread_ticks k) (thread_mlfqs k)
    (load_avg k) (ready_threads k) (next_tid k) (cur k) (intr_on k) (in_external_intr k)
    (yield_on_return k) (ticks k) (sleep_queue k) (semas k) (holders k) (conds k).
Definition set_idle_thread (v : Z) (k : kstate) : kstate :=
    mkK (threads k) (ready_list k) (all_list k) (exit_list k) (exits k) v (initial_thread k)
    (idle_ticks k) (kernel_ticks k) (user_ticks k) (thread_ticks k) (thread_mlfqs k) (load_avg
    k) (ready_threads k) (next_tid k) (cur k) (intr_on k) (in_external_intr k) (yield_on_return
    k) (ticks k) (sleep_queue k) (semas k) (holders k) (conds k).
Definition set_initial_thread (v : Z) (k : kstate) : kstate :=
    mkK (threads k) (ready_list k) (all_list k) (exit_list k) (exits k) (idle_thread k) v
    (idle_ticks k) (kernel_ticks k) (user_ticks k) (thread_ticks k) (thread_mlfqs k) (load_avg
    k) (ready_threads k) (next_tid k) (cur k) (intr_on k) (in_external_intr k) (yield_on_return
    k) (ticks k) (sleep_queue k) (semas k) (holders k) (conds k).
Definition set_idle_ticks (v : Z) (k : kstate) : kstate :=
    mkK (threads k) (ready_list k) (all_list k) (exit_list k) (exits k) (idle_thread k)
    (initial_thread k) v (kernel_ticks k) (user_ticks k) (thread_ticks k) (thread_mlfqs k)
    (load_avg k) (ready_threads k) (next_tid k) (cur k) (intr_on k) (in_external_intr k)
    (yield_on_return k) (ticks k) (sleep_queue k) (semas k) (holders k) (conds k).
Definition set_kernel_ticks (v : Z) (k : kstate) : kstate :=
    mkK (threads k) (ready_list k) (all_list k) (exit_list k) (exits k) (idle_thread k)
    (initial_thread k) (idle_ticks k) v (user_ticks k) (thread_ticks k) (thread_mlfqs k)
    (load_avg k) (ready_threads k) (next_tid k) (cur k) (intr_on k) (in_external_intr k)
    (yield_on_return k) (ticks k) (sleep_queue k) (semas k) (holders k) (conds k).
Definition set_user_ticks (v : Z) (k : kstate) : kstate :=
    mkK (threads k) (ready_list k) (all_list k) (exit_list k) (exits k) (idle_thread k)
    (initial_thread k) (idle_ticks k) (kernel_ticks k) v (thread_ticks k) (thread_mlfqs k)
    (load_avg k) (ready_threads k) (next_tid k) (cur k) (intr_on k) (in_external_intr k)
    (yield_on_return k) (ticks k) (sleep_queue k) (semas k) (holders k) (conds k).
Definition set_thread_ticks (v : Z) (k : kstate) : kstate :=
    mkK (threads k) (ready_list k) (all_list k) (exit_list k) (exits k) (idle_thread k)
    (initial_thread k) (idle_ticks k) (kernel_ticks k) (user_ticks k) v (thread_mlfqs k)
    (load_avg k) (ready_threads k) (next_tid k) (cur k) (intr_on k) (in_external_intr k)
    (yield_on_return k) (ticks k) (sleep_queue k) (semas k) (holders k) (conds k).
Definition set_thread_mlfqs (v : bool) (k : kstate) : kstate :=
    mkK (threads k) (ready_list k) (all_list k) (exit_list k) (exits k) (idle_thread k)
    (initial_thread k) (idle_ticks k) (kernel_ticks k) (user_ticks k) (thread_ticks k) v
    (load_avg k) (ready_threads k) (next_tid k) (cur k) (intr_on k) (in_external_intr k)
    (yield_on_return k) (ticks k) (sleep_queue k) (semas k) (holders k) (conds k).
Definition set_load_avg (v : Z) (k : kstate) : kstate :=
    mkK (threads k) (ready_list k) (all_list k) (exit_list k) (exits k) (idle_thread k)
    (initial_thread k) (idle_ticks k) (kernel_ticks k) (user_ticks k) (thread_ticks k)
    (thread_mlfqs k) v (ready_threads k) (next_tid k) (cur k) (intr_on k) (in_external_intr k)
    (yield_on_return k) (ticks k) (sleep_queue k) (semas k) (holders k) (conds k).
Definition set_ready_threads (v : Z) (k : kstate) : kstate :=
    mkK (threads k) (ready_list k) (all_list k) (exit_list k) (exits k) (idle_thread k)
    (initial_thread k) (idle_ticks k) (kernel_ticks k) (user_ticks k) (thread_ticks k)
    (thread_mlfqs k) (load_avg k) v (next_tid k) (cur k) (intr_on k) (in_external_intr k)
    (yield_on_return k) (ticks k) (sleep_queue k) (semas k) (holders k) (conds k).
Definition set_next_tid (v : Z) (k : kstate) : kstate :=
    mkK (threads k) (ready_list k) (all_list k) (exit_list k) (exits k) (idle_thread k)
    (initial_thread k) (idle_ticks k) (kernel_ticks k) (user_ticks k) (thread_ticks k)
    (thread_mlfqs k) (load_avg k) (ready_threads k) v (cur k) (intr_on k) (in_external_intr k)
    (yield_on_return k) (ticks k) (sleep_queue k) (semas k) (holders k) (conds k).
Definition set_cur (v : Z) (k : kstate) : kstate :=
    mkK (threads k) (ready_list k) (all_list k) (exit_list k) (exits k) (idle_thread k)
    (initial_thread k) (idle_ticks k) (kernel_ticks k) (user_ticks k) (thread_ticks k)
    (thread_mlfqs k) (load_avg k) (ready_threads k) (next_tid k) v (intr_on k) (in_external_intr
    k) (yield_on_return k) (ticks k) (sleep_queue k) (semas k) (holders k) (conds k).
Definition set_intr_on (v : bool) (k : kstate) : kstate :=
    mkK (threads k) (ready_list k) (all_list k) (exit_list k) (exits k) (idle_thread k)
    (initial_thread k) (idle_ticks k) (kernel_ticks k) (user_ticks k) (thread_ticks k)
    (thread_mlfqs k) (load_avg k) (ready_threads k) (next_tid k) (cur k) v (in_external_intr k)
    (yield_on_return k) (ticks k) (sleep_queue k) (semas k) (holders k) (conds k).
Definition set_in_external_intr (v : bool) (k : kstate) : kstate :=
    mkK (threads k) (ready_list k) (all_list k) (exit_list k) (exits k) (idle_thread k)
    (initial_thread k) (idle_ticks k) (kernel_ticks k) (user_ticks k) (thread_ticks k)
    (thread_mlfqs k) (load_avg k) (ready_threads k) (next_tid k) (cur k) (intr_on k) v
    (yield_on_return k) (ticks k) (sleep_queue k) (semas k) (holders k) (conds k).
Definition set_yield_on_return (v : bool) (k : kstate) : kstate :=
    mkK (threads k) (ready_list k) (all_list k) (exit_list k) (exits k) (idle_thread k)
    (initial_thread k) (idle_ticks k) (kernel_ticks k) (user_ticks k) (thread_ticks k)
    (thread_mlfqs k) (load_avg k) (ready_threads k) (next_tid k) (cur k) (intr_on k)
    (in_external_intr k) v (ticks k) (sleep_queue k) (semas k) (holders k) (conds k).
Definition set_ticks (v : Z) (k : kstate) : kstate :=
    mkK (threads k) (ready_list k) (all_list k) (exit_list k) (exits k) (idle_thread k)
    (initial_thread k) (idle_ticks k) (kernel_ticks k) (user_ticks k) (thread_ticks k)
    (thread_mlfqs k) (load_avg k) (ready_threads k) (next_tid k) (cur k) (intr_on k)
    (in_external_intr k) (yield_on_return k) v (sleep_queue k) (semas k) (holders k) (conds k).
Definition set_sleep_queue (v : list sleep_elem) (k : kstate) : kstate :=
    mkK (threads k) (ready_list k) (all_list k) (exit_list k) (exits k) (idle_thread k)
    (initial_thread k) (idle_ticks k) (kernel_ticks k) (user_ticks k) (thread_ticks k)
    (thread_mlfqs k) (load_avg k) (ready_threads k) (next_tid k) (cur k) (intr_on k)
    (in_external_intr k) (yield_on_return k) (ticks k) v (semas k) (holders k) (conds k).
Definition set_semas (v : gmap sema_id semaphore) (k : kstate) : kstate :=
    mkK (threads k) (ready_list k) (all_list k) (exit_list k) (exits k) (idle_thread k)
    (initial_thread k) (idle_ticks k) (kernel_ticks k) (user_ticks k) (thread_ticks k)
    (thread_mlfqs k) (load_avg k) (ready_threads k) (next_tid k) (cur k) (intr_on k)
    (in_external_intr k) (yield_on_return k) (ticks k) (sleep_queue k) v (holders k) (conds k).
Definition set_holders (v : gmap Z Z) (k : kstate) : kstate :=
    mkK (threads k) (ready_list k) (all_list k) (exit_list k) (exits k) (idle_thread k)
    (initial_thread k) (idle_ticks k) (kernel_ticks k) (user_ticks k) (thread_ticks k)
    (thread_mlfqs k) (load_avg k) (ready_threads k) (next_tid k) (cur k) (intr_on k)
    (in_external_intr k) (yield_on_return k) (ticks k) (sleep_queue k) (semas k) v (conds k).
Definition set_conds (v : gmap Z (list Z)) (k : kstate) : kstate :=
    mkK (threads k) (ready_list k) (all_list k) (exit_list k) (exits k) (idle_thread k)
    (initial_thread k) (idle_ticks k) (kernel_ticks k) (user_ticks k) (thread_ticks k)
    (thread_mlfqs k) (load_avg k) (ready_threads k) (next_tid k) (cur k) (intr_on k)
    (in_external_intr k) (yield_on_return k) (ticks k) (sleep_queue k) (semas k) (holders k) v.

Abbreviation kM := (st kstate).

Definition modify (f : kstate -> kstate) : kM unit := fun k => Ok (tt, f k).
Definition gets {A} (f : kstate -> A) : kM A := fun k => Ok (f k, k).

(** * Access to threads *)

Definition is_thread (k : kstate) (t : Z) : bool :=
  negb (t =? NULL) && bool_decide (is_Some (threads k !! t)).

Definition get_thread (t : Z) : kM thread := fun k =>
  match threads k !! t with
  | Some th => Ok (th, k)
  | None => Err EFault
  end.

Definition upd_thread (t : Z) (f : thread -> thread) : kM unit := fun k =>
  match threads k !! t with
  | Some th => Ok (tt, set_threads (<[t := f th]> (threads k)) k)
  | None => Err EFault
  end.

(** The priority of [t], 0 for a pointer that is not a thread. *)
Definition prio (k : kstate) (t : Z) : Z :=
  match threads k !! t with
  | Some th => priority th
  | None => 0
  end.

(** [list_remove] of [p] from a list of pointers.  list.h leaves the result
    undefined when [p] is in no list. *)
Fixpoint remove_one (t : Z) (l : list Z) : list Z :=
  match l with
  | [] => []
  | x :: l' => if x =? t then l' else x :: remove_one t l'
  end.

Definition unlink (p : Z) (l : list Z) : kM (list Z) :=
  if bool_decide (p ∈ l) then mret (remove_one p l) else st_fail EUndef.

Definition thread_current : kM Z :=
  t ← gets cur;
  k ← st_get;
  assert (is_thread k t);;
  th ← get_thread t;
  assert (bool_decide (status th = THREAD_RUNNING));;
  mret t.

Definition thread_tid : kM Z := t ← thread_current; th ← get_thread t; mret (tid th).

(** * Interrupts *)

Definition intr_disable : kM bool := old ← gets intr_on; modify (set_intr_on false);; mret old.

Definition intr_enable : kM bool :=
  old ← gets intr_on;
  ext ← gets in_external_intr;
  assert (negb ext);;
  modify (set_intr_on true);; mret old.

Definition intr_set_level (on : bool) : kM bool := if on then intr_enable else intr_disable.

Definition intr_yield_on_return : kM unit :=
  ext ← gets in_external_intr; assert ext;; modify (set_yield_on_return true).

(** * The scheduler *)

Definition next_thread_to_run : kM Z :=
  r ← gets ready_list;
  match r with
  | [] => gets idle_thread
  | t :: r' =>
      n ← gets ready_threads;
      modify (set_ready_threads (s32 (n - 1)));;
      modify (set_ready_list r');; mret t
  end.

(** [process_activate] loads the page directory register, which is not modelled. *)
Definition thread_schedule_tail (prev : Z) : kM unit :=
  c ← gets cur;
  on ← gets intr_on;
  assert (negb on);;
  upd_thread c (set_status THREAD_RUNNING);;
  modify (set_thread_ticks 0);;
  ini ← gets initial_thread;
  if prev =? NULL then mret tt else
  th ← get_thread prev;
  if bool_decide (status th = THREAD_DYING) && negb (prev =? ini) then
    assert (negb (prev =? c));;
    m ← gets threads; modify (set_threads (delete prev m))
  else mret tt.

Definition schedule : kM unit :=
  c ← gets cur;
  nxt ← next_thread_to_run;
  on ← gets intr_on;
  assert (negb on);;
  th ← get_thread c;
  assert (negb (bool_decide (status th = THREAD_RUNNING)));;
  k ← st_get;
  assert (is_thread k nxt);;
  if negb (c =? nxt) then modify (set_cur nxt);; thread_schedule_tail c
  else thread_schedule_tail NULL.

Definition thread_block : kM unit :=
  ext ← gets in_external_intr; assert (negb ext);;
  on ← gets intr_on; assert (negb on);;
  c ← thread_current;
  upd_thread c (set_status THREAD_BLOCKED);;
  schedule.

(** The place [thread_unblock] inserts at: before the first thread whose priority
    is not higher, or at the end. *)
Fixpoint unblock_insert (k : kstate) (t : Z) (r : list Z) : list Z :=
  match r with
  | [] => [t]
  | e :: r' => if prio k e <=? prio k t then t :: r else e :: unblock_insert k t r'
  end.

Definition thread_unblock (t : Z) : kM unit :=
  k ← st_get; assert (is_thread k t);;
  old ← intr_disable;
  th ← get_thread t;
  assert (bool_decide (status th = THREAD_BLOCKED));;
  r ← gets ready_list;
  modify (set_ready_list (unblock_insert k t r));;
  n ← gets ready_threads;
  modify (set_ready_threads (s32 (n + 1)));;
  upd_thread t (set_status THREAD_READY);;
  intr_set_level old;; mret tt.

(** The place [thread_yield] inserts at: before the first thread whose priority is
    lower, or at the end. *)
Fixpoint yield_insert (k : kstate) (c : Z) (r : list Z) : list Z :=
  match r with
  | [] => [c]
  | e :: r' => if prio k e <? prio k c then c :: r else e :: yield_insert k c r'
  end.

Definition thread_yield : kM (list cmd) :=
  c ← thread_current;
  ext ← gets in_external_intr; assert (negb ext);;
  old ← intr_disable;
  idle ← gets idle_thread;
  (if negb (c =? idle) then
     k ← st_get;
     r ← gets ready_list;
     modify (set_ready_list (yield_insert k c r));;
     n ← gets ready_threads;
     modify (set_ready_threads (s32 (n + 1)))
   else mret tt);;
  upd_thread c (set_status THREAD_READY);;
  schedule;;
  mret [CSetLevel old].

(** [process_exit] of userprog/process.c runs before; it is modelled apart. *)
Definition thread_exit : kM (list cmd) :=
  ext ← gets in_external_intr; assert (negb ext);;
  intr_disable;;
  c ← thread_current;
  a ← gets all_list;
  a' ← unlink c a;
  modify (set_all_list a');;
  upd_thread c (set_status THREAD_DYING);;
  schedule;;
  mret [].

(** * Priorities *)

(** The highest priority among the first [numDonors] donors that are threads. *)
Definition highest_donated (k : kstate) (th : thread) : Z :=
  foldl (fun hi d =>
    if is_thread k (pl_thread d) && (hi <? prio k (pl_thread d)) then prio k (pl_thread d) else hi)
    PRI_MIN (take (Z.to_nat (numDonors th)) (donors th)).

(** The recursion follows the [donees] pointers; on a chain without a cycle it
    visits each thread at most once. *)
Fixpoint update_active (fuel : nat) (t : Z) : kM unit :=
  match fuel with
  | O => st_fail EFuel
  | S fuel =>
      k ← st_get; assert (is_thread k t);;
      th ← get_thread t;
      let hi := highest_donated k th in
      upd_thread t (set_priority (if nativePriority th <? hi then hi else nativePriority th));;
      k' ← st_get;
      if is_thread k' (pl_thread (donees th)) then update_active fuel (pl_thread (donees th))
      else mret tt
  end.

Definition updateActivePriority (t : Z) : kM unit :=
  k ← st_get; update_active (S (size (threads k))) t.

Definition thread_get_priority : kM Z := t ← thread_current; th ← get_thread t; mret (priority th).

(** [stray] is what the code reads as the priority of the head of an empty ready
    list: the memory found at that offset from the list's tail. *)
Definition thread_set_priority (new_priority stray : Z) : kM (list cmd) :=
  intr_disable;;
  t ← thread_current;
  upd_thread t (set_nativePriority (clamp_priority new_priority));;
  updateActivePriority t;;
  intr_enable;;
  r ← gets ready_list;
  k ← st_get;
  let head_prio := match r with [] => stray | e :: _ => prio k e end in
  if prio k t <? head_prio then mret [CYield] else mret [].

Definition lift {A} (r : res A) : kM A := fun k =>
  match r with
  | Ok a => Ok (a, k)
  | Err e => Err e
  end.

Definition thread_set_nice (n stray : Z) : kM (list cmd) :=
  let n := if n <? -20 then -20 else if 20 <? n then 20 else n in
  t ← thread_current;
  upd_thread t (set_nice n);;
  th ← get_thread t;
  p ← lift (mlfqs_priority (recent_cpu th) (nice th));
  thread_set_priority p stray.

Definition thread_get_nice : kM Z := t ← thread_current; th ← get_thread t; mret (nice th).

Definition thread_get_load_avg : kM Z := l ← gets load_avg; mret (Round0 (MulI l 100)).

Definition thread_get_recent_cpu : kM Z :=
  t ← thread_current; th ← get_thread t; mret (Round0 (MulI (recent_cpu th) 100)).

(** * Timer *)

Definition timer_ticks : kM Z := gets ticks.

(** The scan of [timer_sleep]: expired entries it passes are dropped, and the new
    entry goes before the first one that is due later. *)
Fixpoint sleep_insert (new : sleep_elem) (q : list sleep_elem) : list sleep_elem :=
  match q with
  | [] => [new]
  | s :: q' =>
      if negb (removeFlag s =? 0) then sleep_insert new q'
      else if wakeTicks new <? wakeTicks s then new :: q
      else s :: sleep_insert new q'
  end.

(** The search and the insertion as one step. *)
Definition timer_sleep (n : Z) : kM (list cmd) :=
  now ← timer_ticks;
  t ← thread_current;
  let new := {| wakeTicks := s64 (now + n); currentThread := t; removeFlag := 0 |} in
  q ← gets sleep_queue;
  intr_disable;;
  modify (set_sleep_queue (sleep_insert new q));;
  thread_block;;
  mret [CSetLevel true].

(** The loop of [timer_wake] from one entry of the queue on: the entries it leaves
    behind. *)
Fixpoint wake_loop (now : Z) (q : list sleep_elem) : kM (list sleep_elem) :=
  match q with
  | [] => mret []
  | s :: q' =>
      if wakeTicks s <=? now then
        if removeFlag s =? 0 then
          thread_unblock (currentThread s);;
          r ← wake_loop now q';
          mret ({| wakeTicks := wakeTicks s; currentThread := currentThread s; removeFlag := 1 |} :: r)
        else r ← wake_loop now q'; mret (s :: r)
      else mret q
  end.

Definition timer_wake : kM unit :=
  now ← timer_ticks;
  q ← gets sleep_queue;
  q' ← wake_loop now q;
  modify (set_sleep_queue q').

(** * The timer tick *)

Fixpoint each_thread (f : Z -> kM unit) (ts : list Z) : kM unit :=
  match ts with
  | [] => mret tt
  | t :: ts' => f t;; each_thread f ts'
  end.

Definition thread_foreach (f : Z -> kM unit) : kM unit :=
  on ← gets intr_on; assert (negb on);;
  a ← gets all_list; each_thread f a.

Definition tick_recent_cpu (t : Z) : kM unit :=
  l ← gets load_avg;
  th ← get_thread t;
  v ← lift (mlfqs_recent_cpu l (recent_cpu th) (nice th));
  upd_thread t (set_recent_cpu v).

Definition tick_priority (t : Z) : kM unit :=
  th ← get_thread t;
  p ← lift (mlfqs_priority (recent_cpu th) (nice th));
  upd_thread t (set_nativePriority (clamp_priority p));;
  updateActivePriority t.

Definition thread_tick : kM unit :=
  t ← thread_current;
  idle ← gets idle_thread;
  th ← get_thread t;
  (if t =? idle then n ← gets idle_ticks; modify (set_idle_ticks (n + 1))
   else if has_pagedir th then n ← gets user_ticks; modify (set_user_ticks (n + 1))
   else n ← gets kernel_ticks; modify (set_kernel_ticks (n + 1)));;
  mlfqs ← gets thread_mlfqs;
  (if mlfqs : bool then
     tick ← timer_ticks;
     (if Z.rem tick TIMER_FREQ =? 0 then
        l ← gets load_avg;
        n ← gets ready_threads;
        l' ← lift (mlfqs_load_avg l (if t =? idle then n else s32 (n + 1)));
        modify (set_load_avg l');;
        a ← gets all_list;
        each_thread tick_recent_cpu a
      else mret tt);;
     (if negb (t =? idle) then upd_thread t (fun th => set_recent_cpu (AddI (recent_cpu th) 1) th)
      else mret tt);;
     (if Z.rem tick 4 =? 0 then a ← gets all_list; each_thread tick_priority a else mret tt)
   else mret tt);;
  n ← gets thread_ticks;
  modify (set_thread_ticks (u32 (n + 1)));;
  (if TIME_SLICE <=? u32 (n + 1) then intr_yield_on_return else mret tt);;
  timer_wake.

(** [timer_interrupt], and the part of [intr_handler] around it for an external
    interrupt: a tick may ask to yield on return. *)
Definition timer_interrupt : kM unit :=
  n ← gets ticks; modify (set_ticks (s64 (n + 1)));; thread_tick.

Definition intr_handler_timer : kM (list cmd) :=
  on ← gets intr_on;
  modify (set_intr_on false);;
  ext ← gets in_external_intr; assert (negb ext);;
  modify (set_in_external_intr true);;
  modify (set_yield_on_return false);;
  timer_interrupt;;
  modify (set_in_external_intr false);;
  y ← gets yield_on_return;
  if y : bool then mret [CYield; CSetLevel on] else mret [CSetLevel on].

(** * Children and exit statuses *)

Definition thread_by_tid (n : Z) : kM Z :=
  a ← gets all_list;
  k ← st_get;
  mret (match List.find (fun t => match threads k !! t with
                                  | Some th => tid th =? n
                                  | None => false end) a with
        | Some t => t
        | None => NULL
        end).

Definition es_has_tid (k : kstate) (n : Z) (es : Z) : bool :=
  match exits k !! es with
  | Some e => es_tid e =? n
  | None => false
  end.

Definition thread_is_child (n : Z) : kM bool :=
  t ← thread_current; th ← get_thread t; k ← st_get;
  mret (existsb (es_has_tid k n) (child_list th)).

Definition thread_has_waited (n : Z) : kM bool :=
  t ← thread_current; th ← get_thread t; k ← st_get;
  mret (existsb (es_has_tid k n) (wait_list th)).

(** The exit status of [n] on the global list, or null. *)
Definition thread_get_exit_status (n : Z) : kM Z :=
  el ← gets exit_list; k ← st_get;
  mret (match List.find (es_has_tid k n) el with Some es => es | None => NULL end).

(** The result of the search is not tested before it is written to. *)
Definition thread_set_exit_status (n v : Z) : kM unit :=
  es ← thread_get_exit_status n;
  ex ← gets exits;
  match ex !! es with
  | Some e => modify (set_exits (<[es := {| es_tid := es_tid e; es_status := v |}]> ex))
  | None => st_fail EFault
  end.

Fixpoint clear_loop (t : Z) (ws : list Z) : kM unit :=
  match ws with
  | [] => mret tt
  | es :: ws' =>
      el ← gets exit_list;
      el' ← unlink es el;
      modify (set_exit_list el');;
      th ← get_thread t;
      cl' ← unlink es (child_list th);
      upd_thread t (set_child_list cl');;
      upd_thread t (set_wait_list ws');;
      clear_loop t ws'
  end.

Definition thread_clear_child_exit_status (t : Z) : kM unit :=
  th ← get_thread t; clear_loop t (wait_list th).

Definition thread_mark_waited (es : Z) : kM unit :=
  t ← thread_current;
  el ← gets exit_list;
  el' ← unlink es el;
  modify (set_exit_list el');;
  upd_thread t (fun th => set_wait_list (es :: wait_list th) th).

(** * File handles *)

Definition thread_add_handler (file dir : Z) : kM Z :=
  t ← thread_current;
  th ← get_thread t;
  let fd := nextFD th in
  upd_thread t (fun th => set_handles (handles th ++ [{| fh_file := file; fh_dir := dir; fh_fd := fd |}])
                           (set_nextFD (s32 (fd + 1)) th));;
  mret fd.

Definition thread_add_file_handler (file : Z) : kM Z := thread_add_handler file NULL.
Definition thread_add_dir_handler (dir : Z) : kM Z := thread_add_handler NULL dir.

(** The first handle with this descriptor is removed; it is returned, for the
    caller to close its file or directory. *)
Fixpoint close_handle (fd : Z) (hs : list fileHandle) : option fileHandle * list fileHandle :=
  match hs with
  | [] => (None, [])
  | h :: hs' =>
      if fh_fd h =? fd then (Some h, hs')
      else let '(r, hs'') := close_handle fd hs' in (r, h :: hs'')
  end.

(** The handle that is taken off the list; the caller closes its file or directory. *)
Definition thread_close_handler (fd : Z) : kM (option fileHandle) :=
  t ← thread_current;
  th ← get_thread t;
  let '(r, hs) := close_handle fd (handles th) in
  upd_thread t (set_handles hs);;
  mret r.

(** * Semaphores *)

Definition get_sema (s : sema_id) : kM semaphore := fun k =>
  match semas k !! s with
  | Some sm => Ok (sm, k)
  | None => Err EFault
  end.

Definition put_sema (s : sema_id) (sm : semaphore) : kM unit :=
  modify (fun k => set_semas (<[s := sm]> (semas k)) k).

Definition sema_init (s : sema_id) (v : Z) : kM unit := put_sema s {| value := v; waiters := [] |}.

(** [sema_down] up to its [while] loop. *)
Definition sema_down (s : sema_id) : kM (list cmd) :=
  ext ← gets in_external_intr; assert (negb ext);;
  old ← intr_disable;
  sm ← get_sema s;
  (if value sm <=? 0 then
     t ← thread_current;
     put_sema s {| value := value sm; waiters := waiters sm ++ [t] |}
   else mret tt);;
  mret [CDownLoop s old].

(** The test of the loop: block and test again, or take one unit and go on. *)
Definition sema_down_loop (s : sema_id) (old : bool) : kM (list cmd) :=
  sm ← get_sema s;
  if value sm <=? 0 then thread_block;; mret [CDownLoop s old]
  else
    put_sema s {| value := u32 (value sm - 1); waiters := waiters sm |};;
    intr_set_level old;; mret [].

Definition sema_try_down (s : sema_id) : kM bool :=
  old ← intr_disable;
  sm ← get_sema s;
  (if 0 <? value sm then put_sema s {| value := u32 (value sm - 1); waiters := waiters sm |}
   else mret tt);;
  intr_set_level old;;
  mret (0 <? value sm).

(** The search of [sema_up] and [cond_signal]: the first thread of highest
    priority among [ws], and its priority. *)
Definition highest_waiter (k : kstate) (ws : list Z) : option Z * Z :=
  foldl (fun '(best, hi) w => if hi <? prio k w then (Some w, prio k w) else (best, hi))
    (None, PRI_MIN - 1) ws.

Definition sema_up (s : sema_id) : kM (list cmd) :=
  old ← intr_disable;
  sm ← get_sema s;
  k ← st_get;
  let '(best, hi) := highest_waiter k (waiters sm) in
  (match waiters sm with
   | [] => mret tt
   | _ =>
       match best with
       | Some t =>
           put_sema s {| value := value sm; waiters := remove_one t (waiters sm) |};;
           thread_unblock t
       | None => st_fail EFault
       end
   end);;
  sm' ← get_sema s;
  put_sema s {| value := u32 (value sm' + 1); waiters := waiters sm' |};;
  intr_set_level old;;
  c ← thread_current;
  k' ← st_get;
  if prio k' c <=? hi then mret [CYield] else mret [].

(** * Locks *)

Definition holder (k : kstate) (l : Z) : Z := default NULL (holders k !! l).

Definition set_holder (l t : Z) : kM unit :=
  modify (fun k => set_holders (<[l := t]> (holders k)) k).

Definition lock_init (l : Z) : kM unit := set_holder l NULL;; sema_init (LockSema l) 1.

Definition lock_held_by_current_thread (l : Z) : kM bool :=
  k ← st_get; c ← thread_current; mret (holder k l =? c).

(** Entering oneself as a donor of thread [t] for lock [l]. *)
Definition donate (t l : Z) : kM unit :=
  c ← thread_current;
  upd_thread t (fun th =>
    set_numDonors (numDonors th + 1)
      (set_donors (<[Z.to_nat (numDonors th) := {| pl_lock := l; pl_thread := c |}]> (donors th)) th));;
  upd_thread c (set_donees {| pl_lock := l; pl_thread := t |});;
  updateActivePriority t.

(** Up to its [sema_down], as one step. *)
Definition lock_acquire (l : Z) : kM (list cmd) :=
  ext ← gets in_external_intr; assert (negb ext);;
  h ← lock_held_by_current_thread l; assert (negb h);;
  k ← st_get;
  (if negb (holder k l =? NULL) then
     let t := holder k l in
     th ← get_thread t;
     c ← thread_current;
     if (nativePriority th <? prio k c) && (numDonors th <? PRI_DEPTH) then donate t l
     else mret tt
   else mret tt);;
  mret [CSemaDown (LockSema l); CLockTake l].

Definition lock_take (l : Z) : kM (list cmd) :=
  c ← thread_current;
  set_holder l c;;
  upd_thread c (set_donees no_donation);;
  mret [].

(** As one step. *)
Definition lock_try_acquire (l : Z) : kM bool :=
  h ← lock_held_by_current_thread l; assert (negb h);;
  ok ← sema_try_down (LockSema l);
  c ← thread_current;
  (if ok : bool then set_holder l c else mret tt);;
  mret ok.

(** The inner loop of [lock_release]: [j] moves down past donors of this lock. *)
Fixpoint skip_back (l : Z) (ds : list priority_lock) (i j : nat) : nat :=
  match j with
  | O => O
  | S j' =>
      if (pl_lock (nth j ds no_donation) =? l) && (i <? j)%nat then skip_back l ds i j'
      else j
  end.

(** The outer loop: the donors, and where the index [i] stops.  [i] grows in every
    round but the last, so as many rounds as donors, and one more, are enough. *)
Fixpoint release_loop (fuel : nat) (l : Z) (ds : list priority_lock) (i j : nat)
    : list priority_lock * nat :=
  match fuel with
  | O => (ds, i)
  | S fuel =>
      if (i <=? j)%nat then
        let '(ds, j) :=
          if pl_lock (nth i ds no_donation) =? l then
            let j := skip_back l ds i j in
            if negb (pl_lock (nth j ds no_donation) =? l)
            then (<[i := nth j ds no_donation]> ds, j) else (ds, j)
          else (ds, j) in
        if pl_lock (nth i ds no_donation) =? l then (ds, i) else release_loop fuel l ds (S i) j
      else (ds, i)
  end.

(** All of it, for [n] donors; with none the loop is not entered. *)
Definition release_donors (l : Z) (ds : list priority_lock) (n : nat) : list priority_lock * nat :=
  match n with
  | O => (ds, O)
  | S n' => release_loop (S (S n')) l ds 0 n'
  end.

(** Up to its [sema_up], as one step. *)
Definition lock_release (l : Z) : kM (list cmd) :=
  h ← lock_held_by_current_thread l; assert h;;
  c ← thread_current;
  th ← get_thread c;
  hasWaiter ←
    (if nativePriority th <? priority th then
       let '(ds, i) := release_donors l (donors th) (Z.to_nat (numDonors th)) in
       upd_thread c (set_donors ds);;
       if (Z.of_nat i <? numDonors th) then
         upd_thread c (set_numDonors (Z.of_nat i));;
         updateActivePriority c;;
         mret true
       else mret false
     else mret false);
  set_holder l NULL;;
  mret (CSemaUp (LockSema l) :: if hasWaiter : bool then [CYield] else []).

(** * Creation *)

(** The contents [init_thread] gives a thread; the [tid] comes later. *)
Definition blank_thread (p : Z) : thread :=
  {| tid := 0; status := THREAD_BLOCKED; nativePriority := p; priority := p; numDonors := 0;
     nice := 0; recent_cpu := 0; donors := replicate (Z.to_nat PRI_DEPTH) no_donation;
     donees := no_donation; handles := []; wait_list := []; child_list := []; nextFD := 2;
     has_pagedir := false |}.

Definition init_thread (t p : Z) : kM unit :=
  assert (negb (t =? NULL));;
  assert ((PRI_MIN <=? p) && (p <=? PRI_MAX));;
  m ← gets threads;
  modify (set_threads (<[t := blank_thread p]> m));;
  old ← intr_disable;
  sema_init (WaitSema t) 0;;
  sema_init (ExecSema t) 0;;
  a ← gets all_list;
  modify (set_all_list (a ++ [t]));;
  intr_set_level old;; mret tt.

(** The address of the static lock of thread.c. *)
Definition tid_lock : Z := 4.

(** [allocate_tid] takes [tid_lock], and may block on it: what [u] does with the
    tid comes after. *)
Definition allocate_tid (u : tid_use) : list cmd := [CLockAcquire tid_lock; CNextTid u].

Definition take_tid (u : tid_use) : kM (list cmd) :=
  n ← gets next_tid;
  modify (set_next_tid (s32 (n + 1)));;
  mret [CLockRelease tid_lock; CTid u n].

(** [thread_init] up to its call of [allocate_tid], and from there on. *)
Definition thread_init : kM (list cmd) :=
  on ← gets intr_on; assert (negb on);;
  lock_init tid_lock;;
  modify (set_ready_list []);;
  modify (set_all_list []);;
  modify (set_exit_list []);;
  c ← gets cur;
  modify (set_initial_thread c);;
  init_thread c PRI_DEFAULT;;
  upd_thread c (set_status THREAD_RUNNING);;
  mret (allocate_tid ForInit).

Definition thread_init_tid (n : Z) : kM (list cmd) :=
  t ← gets initial_thread;
  upd_thread t (set_tid n);;
  modify (set_load_avg (Float 0));;
  r ← gets ready_list;
  modify (set_ready_threads (s32 (Zlen r)));;
  mret [].

(** [thread_create] up to its call of [allocate_tid], and from there on.  [page] is
    the result of [palloc_get_page], [es] the exit status that [malloc] returns.
    The stack frames for [kernel_thread] become the commands the new thread starts
    with, which the caller of this function installs. *)
Definition thread_create (p : Z) (page es : Z) : kM (list cmd) :=
  mlfqs ← gets thread_mlfqs;
  let p := if mlfqs : bool then PRI_DEFAULT else p in
  if page =? NULL then mret [] else
  init_thread page p;;
  mret (allocate_tid (ForCreate page es)).

Definition thread_create_tid (page es n : Z) : kM (list cmd) :=
  mlfqs ← gets thread_mlfqs;
  upd_thread page (set_tid n);;
  old ← intr_disable;
  c ← thread_current;
  (if mlfqs : bool then
     th ← get_thread c;
     upd_thread page (set_nice (nice th));;
     upd_thread page (set_recent_cpu (recent_cpu th));;
     np ← lift (mlfqs_priority (recent_cpu th) (nice th));
     upd_thread page (set_nativePriority (clamp_priority np))
   else mret tt);;
  ex ← gets exits;
  modify (set_exits (<[es := {| es_tid := n; es_status := 0 |}]> ex));;
  el ← gets exit_list;
  modify (set_exit_list (el ++ [es]));;
  upd_thread c (fun th => set_child_list (child_list th ++ [es]) th);;
  intr_set_level old;;
  thread_unblock page;;
  k ← st_get;
  if prio k c <? prio k page then mret [CYield] else mret [].

(** A new thread turns interrupts on, runs its function, and exits.  The function
    is arbitrary code, which may call into the kernel before the [CExit]. *)
Definition kernel_thread : list cmd := [CSetLevel true; CExit].

(** * Condition variables *)

Definition cond_waiters (k : kstate) (c : Z) : list Z := default [] (conds k !! c).

Definition set_cond (c : Z) (ws : list Z) : kM unit :=
  modify (fun k => set_conds (<[c := ws]> (conds k)) k).

Definition cond_init (c : Z) : kM unit := set_cond c [].

Definition cond_wait (c l : Z) : kM (list cmd) :=
  t ← thread_current;
  ext ← gets in_external_intr; assert (negb ext);;
  h ← lock_held_by_current_thread l; assert h;;
  sema_init (CondSema t) 0;;
  k ← st_get;
  set_cond c (cond_waiters k c ++ [t]);;
  mret [CLockRelease l; CSemaDown (CondSema t); CLockAcquire l].

Definition cond_signal (c l : Z) : kM (list cmd) :=
  ext ← gets in_external_intr; assert (negb ext);;
  h ← lock_held_by_current_thread l; assert h;;
  k ← st_get;
  match cond_waiters k c with
  | [] => mret []
  | ws =>
      match fst (highest_waiter k ws) with
      | Some t => set_cond c (remove_one t ws);; mret [CSemaUp (CondSema t)]
      | None => st_fail EFault
      end
  end.

Definition cond_broadcast (c l : Z) : kM (list cmd) :=
  k ← st_get;
  match cond_waiters k c with
  | [] => mret []
  | _ => cs ← cond_signal c l; mret (cs ++ [CCondBroadcast c l])
  end.

(** * The idle thread *)

Definition idle (started : sema_id) : kM (list cmd) :=
  c ← thread_current;
  modify (set_idle_thread c);;
  mret [CSemaUp started; CIdleLoop].

Definition idle_loop : kM (list cmd) :=
  intr_disable;; thread_block;; mret [CIdleWake].

(** "sti; hlt": interrupts on, and round again. *)
Definition idle_wake : kM (list cmd) := modify (set_intr_on true);; mret [CIdleLoop].
