(* ===== verification/Machine.v ===== *)
(** The kernel as a transition system: any thread may call any of the
    synchronization routines, a timer interrupt may come between two of the commands
    of Thread.v whenever interrupts are on, and the scheduler decides who runs.
    Preempt.v has the finer transitions, with interrupts between two accesses. *)
From Stdlib Require Import ZArith Lia.
From stdpp Require Import base numbers sorting gmap list relations.
From S2P Require Import Prelude.
From S2P Require Import FixedPoint.
From S2P Require Import Thread.

Local Open Scope Z_scope.

(** * Transitions *)

Definition exec (c : cmd) : kM (list cmd) :=
  match c with
  | CSetLevel on => intr_set_level on;; mret []
  | CYield => thread_yield
  | CExit => thread_exit
  | CSemaDown s => sema_down s
  | CDownLoop s old => sema_down_loop s old
  | CSemaUp s => sema_up s
  | CLockAcquire l => lock_acquire l
  | CLockTake l => lock_take l
  | CLockRelease l => lock_release l
  | CCondWait c l => cond_wait c l
  | CCondSignal c l => cond_signal c l
  | CCondBroadcast c l => cond_broadcast c l
  | CSetPriority p stray => thread_set_priority p stray
  | CNextTid u => take_tid u
  | CTid ForInit n => thread_init_tid n
  | CTid (ForCreate page es) n => thread_create_tid page es n
  | CIdle s => idle s
  | CIdleLoop => idle_loop
  | CIdleWake => idle_wake
  end.

(** What the code of a thread may call.  The semaphores inside locks and those of
    [cond_wait] are only used by synch.c. *)
Definition public_sema (s : sema_id) : bool :=
  match s with
  | SemaAt _ | WaitSema _ | ExecSema _ => true
  | LockSema _ | CondSema _ => false
  end.

Definition callable (c : cmd) : bool :=
  match c with
  | CYield | CExit | CLockAcquire _ | CLockRelease _ | CCondWait _ _ | CCondSignal _ _
  | CCondBroadcast _ _ | CSetPriority _ _ => true
  | CSemaDown s | CSemaUp s => public_sema s
  | _ => false
  end.

(** A machine: the kernel state and what every thread has still to do.  A thread
    that is inside its own code has nothing left to do in the kernel; the thread
    function of [kernel_thread] has the [thread_exit] after it. *)
Abbreviation machine := (kstate * gmap Z (list cmd))%type.

Definition own (cs : list cmd) : bool :=
  match cs with
  | [] | [CExit] => true
  | _ => false
  end.

(** One transition: the running thread, back in its own code, calls a routine; it
    goes on with what it is doing; the timer interrupts it; or it calls a routine
    that returns a value.  A routine, or the stretch of one between two commands,
    is one transition: an interrupt comes before or after it. *)
Inductive step : machine -> machine -> Prop :=
| step_call k code c cs :
    code !! cur k = Some cs -> own cs = true -> callable c = true ->
    step (k, code) (k, <[cur k := c :: cs]> code)
| step_exec k code c cs cs' k' :
    code !! cur k = Some (c :: cs) -> c <> CExit -> exec c k = Ok (cs', k') ->
    step (k, code) (k', <[cur k := cs' ++ cs]> code)
| step_exit k code cs cs' k' :
    code !! cur k = Some (CExit :: cs) -> thread_exit k = Ok (cs', k') ->
    step (k, code) (k', delete (cur k) code)
| step_timer k code cs cs' k' :
    code !! cur k = Some cs -> intr_on k = true -> intr_handler_timer k = Ok (cs', k') ->
    step (k, code) (k', <[cur k := cs' ++ cs]> code)
| step_create k code p page es cs cs' k' :
    code !! cur k = Some cs -> own cs = true ->
    code !! page = None -> threads k !! page = None ->
    thread_create p page es k = Ok (cs', k') ->
    step (k, code)
      (k', if page =? NULL then code
           else <[page := kernel_thread]> (<[cur k := cs' ++ cs]> code))
| step_sleep k code n cs cs' k' :
    code !! cur k = Some cs -> own cs = true -> timer_sleep n k = Ok (cs', k') ->
    step (k, code) (k', <[cur k := cs' ++ cs]> code)
| step_try_down k code s cs b k' :
    code !! cur k = Some cs -> own cs = true -> public_sema s = true ->
    sema_try_down s k = Ok (b, k') ->
    step (k, code) (k', code)
| step_try_acquire k code l cs b k' :
    code !! cur k = Some cs -> own cs = true -> lock_try_acquire l k = Ok (b, k') ->
    step (k, code) (k', code).

(** The transitions as a function, to run a schedule on a concrete machine. *)
Inductive action :=
| ACall (c : cmd)
| AExec
| ATimer
| ACreate (p page es : Z)
| ASleep (n : Z)
| ATryAcquire (l : Z).

Definition act (a : action) (m : machine) : option machine :=
  let '(k, code) := m in
  cs ← code !! cur k;
  match a with
  | ACall c => if own cs && callable c then Some (k, <[cur k := c :: cs]> code) else None
  | AExec =>
      match cs with
      | [] => None
      | CExit :: _ => match thread_exit k with Ok (_, k') => Some (k', delete (cur k) code) | _ => None end
      | c :: cs => match exec c k with Ok (cs', k') => Some (k', <[cur k := cs' ++ cs]> code) | _ => None end
      end
  | ATimer =>
      if intr_on k then
        match intr_handler_timer k with Ok (cs', k') => Some (k', <[cur k := cs' ++ cs]> code) | _ => None end
      else None
  | ACreate p page es =>
      if own cs && negb (bool_decide (is_Some (code !! page))) && negb (bool_decide (is_Some (threads k !! page)))
      then
        match thread_create p page es k with
        | Ok (cs', k') =>
            Some (k', if page =? NULL then code
                      else <[page := kernel_thread]> (<[cur k := cs' ++ cs]> code))
        | _ => None
        end
      else None
  | ASleep n =>
      if own cs then
        match timer_sleep n k with Ok (cs', k') => Some (k', <[cur k := cs' ++ cs]> code) | _ => None end
      else None
  | ATryAcquire l =>
      if own cs then match lock_try_acquire l k with Ok (_, k') => Some (k', code) | _ => None end
      else None
  end.

Definition acts (l : list action) (m : machine) : option machine :=
  foldl (fun m a => m ≫= act a) (Some m) l.

Lemma act_step a m m' : act a m = Some m' -> step m m'.
Proof.
  destruct m as [k code]. unfold act. intros H.
  destruct (code !! cur k) as [cs|] eqn:E; [|done]. cbn in H.
  destruct a; repeat case_match; simplify_eq/=;
    repeat match goal with
    | H : _ && _ = true |- _ => apply andb_true_iff in H as [? ?]
    | H : negb _ = true |- _ => apply negb_true_iff, bool_decide_eq_false, eq_None_not_Some in H
    end; try (econstructor; eauto; fail).
  all: lazymatch goal with H : (_ =? NULL) = ?b, H1 : thread_create _ _ _ _ = _ |- _ =>
    epose proof (step_create _ _ _ _ _ _ _ _ E ltac:(eassumption) ltac:(eassumption)
      ltac:(eassumption) H1) as X; by rewrite H in X end.
Qed.

Lemma acts_step l m m' : acts l m = Some m' -> rtc step m m'.
Proof.
  unfold acts. revert m. induction l as [|a l IH]; cbn; intros m H; [by simplify_eq|].
  destruct (act a m) as [m1|] eqn:E.
  - eapply rtc_l; [by eapply act_step|]. by apply IH.
  - clear IH. induction l as [|b l IHl]; cbn in H; [done|]. by apply IHl.
Qed.

(** * What the routines leave alone *)

Lemma keeps_modify {B} (proj : kstate -> B) f :
  (forall k, proj (f k) = proj k) -> keeps proj (modify f).
Proof. intros H k a k' E. injection E as <- <-. apply H. Qed.

Lemma keeps_gets {A B} (proj : kstate -> B) (f : kstate -> A) : keeps proj (gets f).
Proof. intros k a k' E. by injection E as <- <-. Qed.

Lemma keeps_get_thread {B} (proj : kstate -> B) t : keeps proj (get_thread t).
Proof. intros k a k' E. unfold get_thread in E. by destruct (threads k !! t); simplify_eq. Qed.

Lemma keeps_upd_thread {B} (proj : kstate -> B) t f :
  (forall m k, proj (set_threads m k) = proj k) -> keeps proj (upd_thread t f).
Proof.
  intros H k a k' E. unfold upd_thread in E. destruct (threads k !! t); simplify_eq. apply H.
Qed.

Lemma keeps_lift {A B} (proj : kstate -> B) (r : res A) : keeps proj (lift r).
Proof. intros k a k' E. unfold lift in E. by destruct r; simplify_eq. Qed.

Lemma keeps_get_sema {B} (proj : kstate -> B) s : keeps proj (get_sema s).
Proof. intros k a k' E. unfold get_sema in E. by destruct (semas k !! s); simplify_eq. Qed.

Lemma keeps_unlink {B} (proj : kstate -> B) p l : keeps proj (unlink p l).
Proof. unfold unlink. destruct (bool_decide _); [apply keeps_ret|apply keeps_fail]. Qed.

#[export] Hint Resolve keeps_gets keeps_get_thread keeps_lift keeps_get_sema keeps_unlink : keeps.
(** [keeps_solve] takes a routine apart down to calls the hint database [keeps]
    knows about. *)
Ltac keeps_solve := repeat first
  [ match goal with |- keeps _ (mbind _ _) => apply keeps_bind; [|intros] end
  | match goal with |- keeps _ (modify _) => apply keeps_modify; intros; reflexivity end
  | match goal with |- keeps _ (upd_thread _ _) => apply keeps_upd_thread; intros; reflexivity end
  | match goal with |- keeps _ (match ?x with _ => _ end) => destruct x end
  | solve [auto with keeps]
  | progress cbv zeta ].

(** The parts of the state the scheduler does not touch: semaphores, locks and
    condition variables. *)
Definition sync (k : kstate) : gmap sema_id semaphore * gmap Z Z * gmap Z (list Z) :=
  (semas k, holders k, conds k).

Lemma keeps_thread_current {B} (proj : kstate -> B) : keeps proj thread_current.
Proof. unfold thread_current. keeps_solve. Qed.
#[export] Hint Resolve keeps_thread_current : keeps.

Lemma keeps_intr_set_level on : keeps sync (intr_set_level on).
Proof. unfold intr_set_level, intr_enable, intr_disable. keeps_solve. Qed.

Lemma keeps_intr_disable : keeps sync intr_disable.
Proof. unfold intr_disable. keeps_solve. Qed.

Lemma keeps_intr_enable : keeps sync intr_enable.
Proof. unfold intr_enable. keeps_solve. Qed.
#[export] Hint Resolve keeps_intr_set_level keeps_intr_disable keeps_intr_enable : keeps.

Lemma keeps_schedule : keeps sync schedule.
Proof. unfold schedule, next_thread_to_run, thread_schedule_tail. keeps_solve. Qed.
#[export] Hint Resolve keeps_schedule : keeps.

Lemma keeps_thread_block : keeps sync thread_block.
Proof. unfold thread_block. keeps_solve. Qed.

Lemma keeps_thread_unblock t : keeps sync (thread_unblock t).
Proof. unfold thread_unblock. keeps_solve. Qed.

Lemma keeps_thread_yield : keeps sync thread_yield.
Proof. unfold thread_yield. keeps_solve. Qed.

Lemma keeps_thread_exit : keeps sync thread_exit.
Proof. unfold thread_exit. keeps_solve. Qed.
#[export] Hint Resolve keeps_thread_block keeps_thread_unblock keeps_thread_yield
  keeps_thread_exit : keeps.

Lemma keeps_updateActivePriority t : keeps sync (updateActivePriority t).
Proof.
  unfold updateActivePriority. apply keeps_bind; [apply keeps_get|]. intros k.
  generalize (S (size (threads k))). intros fuel. revert t.
  induction fuel as [|fuel IH]; intros t; cbn [update_active]; keeps_solve.
Qed.
#[export] Hint Resolve keeps_updateActivePriority : keeps.

Lemma keeps_thread_set_priority p stray : keeps sync (thread_set_priority p stray).
Proof. unfold thread_set_priority. keeps_solve. Qed.
#[export] Hint Resolve keeps_thread_set_priority : keeps.

Lemma keeps_wake_loop now q : keeps sync (wake_loop now q).
Proof. induction q as [|s q IH]; cbn [wake_loop]; keeps_solve. Qed.
#[export] Hint Resolve keeps_wake_loop : keeps.

Lemma keeps_each_thread f ts : (forall t, keeps sync (f t)) -> keeps sync (each_thread f ts).
Proof. intros H. induction ts as [|t ts IH]; cbn [each_thread]; keeps_solve. Qed.

Lemma keeps_thread_tick : keeps sync thread_tick.
Proof.
  unfold thread_tick, intr_yield_on_return, timer_wake, timer_ticks.
  assert (forall a, keeps sync (each_thread tick_recent_cpu a)).
  { intros a. apply keeps_each_thread. intros t. unfold tick_recent_cpu. keeps_solve. }
  assert (forall a, keeps sync (each_thread tick_priority a)).
  { intros a. apply keeps_each_thread. intros t. unfold tick_priority. keeps_solve. }
  keeps_solve.
Qed.
#[export] Hint Resolve keeps_thread_tick : keeps.

Lemma keeps_intr_handler_timer : keeps sync intr_handler_timer.
Proof. unfold intr_handler_timer, timer_interrupt. keeps_solve. Qed.

Lemma keeps_timer_sleep n : keeps sync (timer_sleep n).
Proof. unfold timer_sleep, timer_ticks. keeps_solve. Qed.

Lemma keeps_donate t l : keeps sync (donate t l).
Proof. unfold donate. keeps_solve. Qed.
#[export] Hint Resolve keeps_intr_handler_timer keeps_timer_sleep keeps_donate : keeps.

Lemma keeps_lock_held l {B} (proj : kstate -> B) : keeps proj (lock_held_by_current_thread l).
Proof. unfold lock_held_by_current_thread. keeps_solve. Qed.
#[export] Hint Resolve keeps_lock_held : keeps.

Lemma keeps_lock_acquire l : keeps sync (lock_acquire l).
Proof. unfold lock_acquire. keeps_solve. Qed.

#[export] Hint Resolve keeps_lock_acquire : keeps.

(** * Inside a handler *)

(** In a handler of an external interrupt. *)
Definition in_handler (k : kstate) : Prop := intr_on k = false /\ in_external_intr k = true.

(** A routine that leaves interrupts off, does not leave the handler and does not
    switch to another thread. *)
Definition stays {A} (m : kM A) : Prop :=
  forall k a k', m k = Ok (a, k') -> in_handler k -> in_handler k' /\ cur k' = cur k.

Lemma stays_bind {A B} (m : kM A) (f : A -> kM B) : stays m -> (forall a, stays (f a)) -> stays (m ≫= f).
Proof.
  intros Hm Hf k b k' (a & k1 & H1 & H2)%run_bind_inv Hk. destruct (Hm _ _ _ H1 Hk) as [Hk1 E1].
  destruct (Hf a _ _ _ H2 Hk1) as [Hk2 E2]. split; congruence.
Qed.

Lemma stays_ret {A} (a : A) : stays (mret a).
Proof. intros k b k' [= <- <-]. done. Qed.

Lemma stays_gets {A} (f : kstate -> A) : stays (gets f).
Proof. intros k b k' [= <- <-]. done. Qed.

Lemma stays_get : stays st_get.
Proof. intros k b k' [= <- <-]. done. Qed.

Lemma stays_assert c : stays (assert c).
Proof. destruct c; [apply stays_ret|done]. Qed.

Lemma stays_modify f :
  (forall k, (intr_on (f k), in_external_intr (f k), cur (f k)) = (intr_on k, in_external_intr k, cur k)) ->
  stays (modify f).
Proof. intros Hf k b k' [= <- <-] [H1 H2]. injection (Hf k) as E1 E2 E3. unfold in_handler. by rewrite E1, E2. Qed.

Lemma stays_fail {A} e : stays (st_fail e : kM A).
Proof. done. Qed.

Create HintDb stays.
#[export] Hint Resolve stays_bind stays_ret stays_fail stays_gets stays_get stays_assert : stays.
#[export] Hint Extern 2 (stays (modify _)) => apply stays_modify; done : stays.
#[export] Hint Extern 2 (stays (match ?x with _ => _ end)) => destruct x : stays.

Lemma stays_disable : stays intr_disable.
Proof. by intros k b k' [= <- <-] [H1 H2]. Qed.

Lemma stays_enable : stays intr_enable.
Proof. intros k b k' H [H1 H2]. unfold intr_enable, gets, mbind, st_bind in H. by rewrite H2 in H. Qed.

Lemma stays_set_level on : stays (intr_set_level on).
Proof. destruct on; [apply stays_enable|apply stays_disable]. Qed.

Lemma stays_get_thread t : stays (get_thread t).
Proof. intros k th k' H. unfold get_thread in H. by case_match; simplify_eq. Qed.

Lemma stays_upd_thread t f : stays (upd_thread t f).
Proof. intros k [] k' H Hk. unfold upd_thread in H. by case_match; simplify_eq. Qed.

Lemma stays_lift {A} (r : res A) : stays (Thread.lift r).
Proof. intros k a k' H. unfold Thread.lift in H. by case_match; simplify_eq. Qed.
#[export] Hint Resolve stays_disable stays_set_level stays_get_thread stays_upd_thread stays_lift : stays.

Lemma stays_thread_current : stays thread_current.
Proof. unfold thread_current. auto 20 with stays. Qed.

Lemma stays_thread_unblock t : stays (thread_unblock t).
Proof. unfold thread_unblock. auto 30 with stays. Qed.
#[export] Hint Resolve stays_thread_current stays_thread_unblock : stays.

Lemma stays_update t : stays (updateActivePriority t).
Proof.
  unfold updateActivePriority. apply stays_bind; [apply stays_get|]. intros k. generalize (S (size (threads k))). intros fuel. revert t.
  induction fuel as [|fuel IH]; intros t; cbn [update_active]; auto 30 with stays.
Qed.
#[export] Hint Resolve stays_update : stays.

Lemma stays_wake_loop now q : stays (wake_loop now q).
Proof. induction q as [|s q IH]; cbn [wake_loop]; auto 20 with stays. Qed.

Lemma stays_each f ts : (forall t, stays (f t)) -> stays (each_thread f ts).
Proof. intros H. induction ts as [|t ts IH]; cbn [each_thread]; auto with stays. Qed.
#[export] Hint Resolve stays_wake_loop stays_each : stays.

Lemma stays_timer_interrupt : stays timer_interrupt.
Proof.
  unfold timer_interrupt, thread_tick, intr_yield_on_return, timer_wake, timer_ticks.
  assert (forall a, stays (each_thread tick_recent_cpu a)) by (intros a; apply stays_each; intros t; unfold tick_recent_cpu; auto 20 with stays).
  assert (forall a, stays (each_thread tick_priority a)) by (intros a; apply stays_each; intros t; unfold tick_priority; auto 20 with stays).
  auto 60 with stays.
Qed.

(** * Runs of the routines *)

Lemma assert_inv {S} (c : bool) (s : S) a s' : assert c s = Ok (a, s') -> c = true /\ s' = s.
Proof. by destruct c; intros [= <- <-]. Qed.

Lemma get_thread_inv t k th k' : get_thread t k = Ok (th, k') -> threads k !! t = Some th /\ k' = k.
Proof. unfold get_thread. destruct (threads k !! t); by intros [= <- <-]. Qed.

Lemma thread_current_run k t k' :
  thread_current k = Ok (t, k') ->
  k' = k /\ t = cur k /\ t <> NULL /\ exists th, threads k !! t = Some th /\ status th = THREAD_RUNNING.
Proof.
  unfold thread_current. intros (c & k1 & [= <- <-] & H)%run_bind_inv.
  apply run_bind_inv in H as (? & ? & [= <- <-] & H).
  apply run_bind_inv in H as (? & ? & [Ht ->]%assert_inv & H).
  apply run_bind_inv in H as (th & k2 & Hth & H).
  apply get_thread_inv in Hth as [Hth ->].
  apply run_bind_inv in H as (? & ? & [Hs ->]%assert_inv & [= <- <-]).
  apply bool_decide_eq_true in Hs. apply andb_true_iff in Ht as [Ht%negb_true_iff%Z.eqb_neq _].
  eauto 8.
Qed.

(** Takes a run of a sequence of calls apart. *)
Ltac run_inv H :=
  let a := fresh "a" in let s := fresh "k" in let H1 := fresh "Hr" in
  apply run_bind_inv in H as (a & s & H1 & H); cbv beta zeta in H.

Lemma get_sema_inv s k sm k' : get_sema s k = Ok (sm, k') -> semas k !! s = Some sm /\ k' = k.
Proof. unfold get_sema. destruct (semas k !! s); by intros [= <- <-]. Qed.

Ltac run_all H :=
  repeat run_inv H; repeat case_match; simplify_eq; try (repeat run_inv H); try injection H as <- <-.

Lemma cond_signal_code c l' k cs' k' :
  cond_signal c l' k = Ok (cs', k') -> cs' = [] \/ exists t, cs' = [CSemaUp (CondSema t)].
Proof.
  unfold cond_signal. intros H. run_all H; try done; eauto.
Qed.

(** * Concrete runs *)

Definition zero_k : kstate :=
  mkK ∅ [] [] [] ∅ NULL NULL 0 0 0 0 false 0 0 1 4096 false false false 0 [] ∅ ∅ ∅.

(** Just after boot: the main thread at 4096 runs alone, with locks at 77 and 78
    and a semaphore of value 0 at 88. *)
Definition boot : machine :=
  match (cs ← thread_init; lock_init 77;; lock_init 78;; sema_init (SemaAt 88) 0;; mret cs) zero_k with
  | Ok (cs, k) =>
      match acts (replicate 8 AExec) (k, {[ 4096 := cs ]}) with
      | Some (k', code) => (set_intr_on true k', code)
      | None => (zero_k, ∅)
      end
  | Err _ => (zero_k, ∅)
  end.

(** [thread_create] with its eight commands: the lock of the tid is taken and
    released, and the thread is made ready. *)
Definition create (p page es : Z) : list action := ACreate p page es :: replicate 8 AExec.

(** The main thread takes the lock; a second one of higher priority runs into it,
    donates and blocks. *)
Definition contention : list action :=
  [ACall (CLockAcquire 77); AExec; AExec; AExec; AExec] ++ create 40 8192 500 ++
  [AExec; AExec; ACall (CLockAcquire 77); AExec; AExec; AExec; AExec].

Definition contended : machine := default boot (acts contention boot).

(** A thread of lower priority waits for the semaphore at 88; the main thread
    ups it and downs it again before the woken thread has run. *)
Definition lost_run : list action :=
  create 20 8192 500 ++
  [ACall (CSetPriority 10 0); AExec; AExec;                             (* the other thread runs, *)
   AExec; ACall (CSemaDown (SemaAt 88)); AExec; AExec;                  (* downs 88 and blocks *)
   AExec; ACall (CSetPriority 31 0); AExec;
   ACall (CSemaUp (SemaAt 88)); AExec;                                  (* it is woken *)
   ACall (CSemaDown (SemaAt 88)); AExec; AExec;                         (* but the unit is taken *)
   ACall (CSetPriority 10 0); AExec; AExec; AExec; AExec;               (* so that it blocks again *)
   ACall (CSemaUp (SemaAt 88)); AExec].                                 (* and is not woken *)

(** [sema_down] enters the thread among the waiters once, before its loop.  A
    thread that was woken and finds the value 0 again blocks without being a
    waiter, and the next [sema_up] does not wake it: there is a run of the kernel
    that ends with a thread blocked inside [sema_down], the value positive and
    no waiter entered. *)
Theorem sema_down_lost_wakeup :
  exists k code cs, rtc step boot (k, code) /\
    code !! 8192 = Some (CDownLoop (SemaAt 88) true :: cs) /\
    status <$> threads k !! 8192 = Some THREAD_BLOCKED /\
    semas k !! SemaAt 88 = Some {| value := 1; waiters := [] |}.
Proof.
  pose (m := default boot (acts lost_run boot)).
  exists (fst m), (snd m), [CExit]. split; [apply (acts_step lost_run); by vm_compute|].
  split_and!; by vm_compute.
Qed.
