(* ===== verification/Preempt.v ===== *)
(** The routines of threads/synch.c, and what threads/thread.c and devices/timer.c
    call of them, access by access: between any two accesses to memory a timer
    interrupt may come, if interrupts are on, and with it a switch to another
    thread.  Thread.v has the same routines as functions that run through; here
    [intr_disable] and [intr_set_level] are what keeps the others out.

    One step is one load or store of a field, one operation on a list, or one
    [schedule], which asserts that interrupts are off.  The names are those of the
    C functions; a routine of Thread.v is [Thread.f]. *)
From Stdlib Require Import ZArith Lia.
From stdpp Require Import base numbers sorting gmap list relations.
From S2P Require Import Prelude.
From S2P Require Import FixedPoint.
From S2P Require Import Thread.

Local Open Scope Z_scope.

(** * Programs *)

(** A program is a sequence of accesses; [Loop body s k] runs [body] from [s] until
    it gives [inr], with no bound on the number of rounds. *)
Inductive prog (A : Type) : Type :=
| Ret (a : A)
| Act {B : Type} (m : kM B) (k : B -> prog A)
| Loop {S B : Type} (body : S -> prog (S + B)) (s : S) (k : B -> prog A).
Arguments Ret {A} a.
Arguments Act {A B} m k.
Arguments Loop {A S B} body s k.

Fixpoint pbind {A B} (f : A -> prog B) (p : prog A) : prog B :=
  match p with
  | Ret a => f a
  | Act m k => Act m (fun b => pbind f (k b))
  | Loop body s k => Loop body s (fun b => pbind f (k b))
  end.

#[export] Instance prog_ret : MRet prog := @Ret.
#[export] Instance prog_bind : MBind prog := @pbind.

(** One access. *)
Definition atom {A} (m : kM A) : prog A := Act m Ret.

Definition while {S B} (s : S) (body : S -> prog (S + B)) : prog B := Loop body s Ret.

(** The next access of a program, and what is left of it. *)
Definition pstep {A} (p : prog A) : kM (prog A) :=
  match p with
  | Ret a => mret (Ret a)
  | Act m k => b ← m; mret (k b)
  | Loop body s k =>
      mret (pbind (fun r => match r with inl s' => Loop body s' k | inr b => k b end) (body s))
  end.

Definition passert (c : bool) : prog unit := atom (assert c).

(** * Interrupts *)

Definition intr_disable : prog bool :=
  old ← atom (gets intr_on);
  atom (modify (set_intr_on false));;
  mret old.

Definition intr_enable : prog bool :=
  old ← atom (gets intr_on);
  ext ← atom (gets in_external_intr); passert (negb ext);;
  atom (modify (set_intr_on true));;
  mret old.

Definition intr_set_level (on : bool) : prog bool := if on then intr_enable else intr_disable.

(** * The scheduler *)

(** [elem] of [t] goes before the first thread of [r] that [before] holds of; [r] is
    walked thread by thread. *)
Fixpoint insert_place (before : Z -> Z -> bool) (t : Z) (pre r : list Z) : prog (list Z) :=
  match r with
  | [] => mret (pre ++ [t])
  | e :: r' =>
      pe ← atom (gets (fun k => prio k e));
      pt ← atom (gets (fun k => prio k t));
      if before pe pt then mret (pre ++ t :: r) else insert_place before t (pre ++ [e]) r'
  end.

Definition ready_insert (before : Z -> Z -> bool) (t : Z) : prog unit :=
  r ← atom (gets ready_list);
  r' ← insert_place before t [] r;
  atom (modify (set_ready_list r'));;
  n ← atom (gets ready_threads);
  atom (modify (set_ready_threads (s32 (n + 1)))).

Definition thread_unblock (t : Z) : prog unit :=
  k ← atom st_get; passert (is_thread k t);;
  old ← intr_disable;
  th ← atom (get_thread t); passert (bool_decide (status th = THREAD_BLOCKED));;
  ready_insert (fun pe pt => pe <=? pt) t;;
  atom (upd_thread t (set_status THREAD_READY));;
  intr_set_level old;; mret tt.

Definition thread_yield : prog unit :=
  c ← atom thread_current;
  ext ← atom (gets in_external_intr); passert (negb ext);;
  old ← intr_disable;
  idle ← atom (gets idle_thread);
  (if negb (c =? idle) then ready_insert (fun pe pt => pe <? pt) c else mret tt);;
  atom (upd_thread c (set_status THREAD_READY));;
  atom schedule;;
  intr_set_level old;; mret tt.

(** * Priorities *)

(** The loop over the donors of [t], from [i] on, with [hi] the highest so far. *)
Definition donor_round (t : Z) : nat * Z -> prog (nat * Z + Z) := fun '(i, hi) =>
  th ← atom (get_thread t);
  if Z.of_nat i <? numDonors th then
    th ← atom (get_thread t);
    let d := pl_thread (nth i (donors th) no_donation) in
    k ← atom st_get;
    if is_thread k d then
      p ← atom (gets (fun k => prio k d));
      if hi <? p then p' ← atom (gets (fun k => prio k d)); mret (inl (S i, p'))
      else mret (inl (S i, hi))
    else mret (inl (S i, hi))
  else mret (inr hi).

Definition highest_donation (t : Z) : prog Z := while (O, PRI_MIN) (donor_round t).

(** The call at the end, on the thread [t] has donated to, is the next round. *)
Definition updateActivePriority (t : Z) : prog unit :=
  while t (fun t =>
    k ← atom st_get; passert (is_thread k t);;
    hi ← highest_donation t;
    th ← atom (get_thread t);
    atom (upd_thread t (set_priority (if nativePriority th <? hi then hi else nativePriority th)));;
    th ← atom (get_thread t);
    let d := pl_thread (donees th) in
    k ← atom st_get;
    if is_thread k d then mret (inl d) else mret (inr tt)).

Definition thread_set_priority (new_priority stray : Z) : prog unit :=
  intr_disable;;
  t ← atom thread_current;
  atom (upd_thread t (set_nativePriority (clamp_priority new_priority)));;
  updateActivePriority t;;
  intr_enable;;
  r ← atom (gets ready_list);
  hp ← match r with [] => mret stray | e :: _ => atom (gets (fun k => prio k e)) end;
  p ← atom (gets (fun k => prio k t));
  if p <? hp then thread_yield else mret tt.

(** * Semaphores *)

Definition sema_value (s : sema_id) : kM Z := sm ← get_sema s; mret (value sm).
Definition set_sema_value (s : sema_id) (v : Z) : kM unit :=
  sm ← get_sema s; put_sema s {| value := v; waiters := waiters sm |}.
Definition sema_waiters (s : sema_id) : kM (list Z) := sm ← get_sema s; mret (waiters sm).
Definition upd_waiters (s : sema_id) (f : list Z -> list Z) : kM unit :=
  sm ← get_sema s; put_sema s {| value := value sm; waiters := f (waiters sm) |}.

Definition sema_down (s : sema_id) : prog unit :=
  ext ← atom (gets in_external_intr); passert (negb ext);;
  old ← intr_disable;
  v ← atom (sema_value s);
  (if v <=? 0 then t ← atom thread_current; atom (upd_waiters s (fun ws => ws ++ [t])) else mret tt);;
  while tt (fun _ =>
    v ← atom (sema_value s);
    if v <=? 0 then atom thread_block;; mret (inl tt) else mret (inr tt));;
  v ← atom (sema_value s);
  atom (set_sema_value s (u32 (v - 1)));;
  intr_set_level old;; mret tt.

Definition sema_try_down (s : sema_id) : prog bool :=
  old ← intr_disable;
  v ← atom (sema_value s);
  success ←
    (if 0 <? v then
       v ← atom (sema_value s);
       atom (set_sema_value s (u32 (v - 1)));;
       mret true
     else mret false);
  intr_set_level old;;
  mret success.

(** The search for the first thread of highest priority. *)
Fixpoint search_waiters (best : option Z) (hi : Z) (ws : list Z) : prog (option Z * Z) :=
  match ws with
  | [] => mret (best, hi)
  | w :: ws =>
      p ← atom (gets (fun k => prio k w));
      if hi <? p then p' ← atom (gets (fun k => prio k w)); search_waiters (Some w) p' ws
      else search_waiters best hi ws
  end.

Definition sema_up (s : sema_id) : prog unit :=
  old ← intr_disable;
  ws ← atom (sema_waiters s);
  hi ←
    (match ws with
     | [] => mret (PRI_MIN - 1)
     | _ =>
         r ← search_waiters None (PRI_MIN - 1) ws;
         match fst r with
         | Some t => atom (upd_waiters s (remove_one t));; thread_unblock t;; mret (snd r)
         | None => atom (st_fail EFault)
         end
     end);
  v ← atom (sema_value s);
  atom (set_sema_value s (u32 (v + 1)));;
  intr_set_level old;;
  c ← atom thread_current;
  p ← atom (gets (fun k => prio k c));
  if p <=? hi then thread_yield else mret tt.

(** * Locks *)

Definition get_holder (l : Z) : kM Z := gets (fun k => holder k l).

Definition lock_held_by_current_thread (l : Z) : prog bool :=
  h ← atom (get_holder l); c ← atom thread_current; mret (h =? c).

(** A store to [donors[i]] of [t]; past the end of the array it is undefined. *)
Definition set_donor (t : Z) (i : Z) (f : priority_lock -> priority_lock) : kM unit :=
  th ← get_thread t;
  assert ((0 <=? i) && (i <? Zlen (donors th)));;
  upd_thread t (fun th =>
    set_donors (<[Z.to_nat i := f (nth (Z.to_nat i) (donors th) no_donation)]> (donors th)) th).

Definition set_pl_thread (c : Z) (d : priority_lock) : priority_lock := {| pl_lock := pl_lock d; pl_thread := c |}.
Definition set_pl_lock (l : Z) (d : priority_lock) : priority_lock := {| pl_lock := l; pl_thread := pl_thread d |}.

Definition donate (t l : Z) : prog unit :=
  th ← atom (get_thread t); c ← atom thread_current;
  atom (set_donor t (numDonors th) (set_pl_thread c));;
  th ← atom (get_thread t);
  atom (set_donor t (numDonors th) (set_pl_lock l));;
  th ← atom (get_thread t);
  atom (upd_thread t (set_numDonors (numDonors th + 1)));;
  c ← atom thread_current;
  atom (upd_thread c (fun th => set_donees (set_pl_thread t (donees th)) th));;
  c ← atom thread_current;
  atom (upd_thread c (fun th => set_donees (set_pl_lock l (donees th)) th));;
  updateActivePriority t.

Definition lock_acquire (l : Z) : prog unit :=
  ext ← atom (gets in_external_intr); passert (negb ext);;
  h ← lock_held_by_current_thread l; passert (negb h);;
  h ← atom (get_holder l);
  (if negb (h =? NULL) then
     t ← atom (get_holder l);
     th ← atom (get_thread t);
     c ← atom thread_current;
     p ← atom (gets (fun k => prio k c));
     if nativePriority th <? p then
       th ← atom (get_thread t);
       if numDonors th <? PRI_DEPTH then donate t l else mret tt
     else mret tt
   else mret tt);;
  sema_down (LockSema l);;
  c ← atom thread_current;
  atom (set_holder l c);;
  c ← atom thread_current;
  atom (upd_thread c (fun th => set_donees (set_pl_thread NULL (donees th)) th));;
  c ← atom thread_current;
  atom (upd_thread c (fun th => set_donees (set_pl_lock NULL (donees th)) th)).

Definition lock_try_acquire (l : Z) : prog bool :=
  h ← lock_held_by_current_thread l; passert (negb h);;
  success ← sema_try_down (LockSema l);
  (if success : bool then c ← atom thread_current; atom (set_holder l c) else mret tt);;
  mret success.

(** [donors[i]] of the running thread. *)
Definition own_donor (i : nat) : kM priority_lock :=
  c ← thread_current; th ← get_thread c; mret (nth i (donors th) no_donation).

(** The inner loop of [lock_release], and one round of the outer one; [j] is -1
    when there are no donors, and then the outer loop is not entered. *)
Definition skip_back (l : Z) (i : nat) (j : nat) : prog nat :=
  while j (fun j =>
    d ← atom (own_donor j);
    if (pl_lock d =? l) && (i <? j)%nat then mret (inl (j - 1)%nat) else mret (inr j)).

Definition release_round (l : Z) : nat * Z -> prog (nat * Z + nat) := fun '(i, j) =>
  if Z.of_nat i <=? j then
    d ← atom (own_donor i);
    j ← (if pl_lock d =? l then
           j ← skip_back l i (Z.to_nat j);
           d ← atom (own_donor j);
           (if negb (pl_lock d =? l) then
              d ← atom (own_donor j);
              c ← atom thread_current;
              atom (set_donor c (Z.of_nat i) (fun _ => d))
            else mret tt);;
           mret (Z.of_nat j)
         else mret j);
    d ← atom (own_donor i);
    if pl_lock d =? l then mret (inr i) else mret (inl (S i, j))
  else mret (inr i).

Definition own_thread : kM thread := c ← thread_current; get_thread c.

Definition lock_release (l : Z) : prog unit :=
  h ← lock_held_by_current_thread l; passert h;;
  th ← atom own_thread;
  th' ← atom own_thread;
  hasWaiter ←
    (if nativePriority th' <? priority th then
       th ← atom own_thread;
       i ← while (O, numDonors th - 1) (release_round l);
       th ← atom own_thread;
       if Z.of_nat i <? numDonors th then
         c ← atom thread_current;
         atom (upd_thread c (set_numDonors (Z.of_nat i)));;
         c ← atom thread_current;
         updateActivePriority c;;
         mret true
       else mret false
     else mret false);
  atom (set_holder l NULL);;
  sema_up (LockSema l);;
  if hasWaiter : bool then thread_yield else mret tt.

(** * Condition variables *)

Definition cond_wait (c l : Z) : prog unit :=
  t ← atom thread_current;
  ext ← atom (gets in_external_intr); passert (negb ext);;
  h ← lock_held_by_current_thread l; passert h;;
  atom (sema_init (CondSema t) 0);;
  atom (modify (fun k => set_conds (<[c := cond_waiters k c ++ [t]]> (conds k)) k));;
  lock_release l;;
  sema_down (CondSema t);;
  lock_acquire l.

(** The element after [w] in a list, or the first one. *)
Fixpoint next_waiter (w : option Z) (ws : list Z) : option Z :=
  match w with
  | None => head ws
  | Some x =>
      match ws with
      | [] => None
      | y :: ws' => if y =? x then head ws' else next_waiter w ws'
      end
  end.

(** The search of [cond_signal]; the list is read anew in every round. *)
Definition cond_search (c : Z) : prog (option Z * Z) :=
  while (None, None, PRI_MIN - 1) (fun '(e, best, hi) =>
    n ← atom (gets (fun k => next_waiter e (cond_waiters k c)));
    match n with
    | None => mret (inr (best, hi))
    | Some w =>
        p ← atom (gets (fun k => prio k w));
        if hi <? p then p' ← atom (gets (fun k => prio k w)); mret (inl (Some w, Some w, p'))
        else mret (inl (Some w, best, hi))
    end).

Definition cond_signal (c l : Z) : prog unit :=
  ext ← atom (gets in_external_intr); passert (negb ext);;
  h ← lock_held_by_current_thread l; passert h;;
  ws ← atom (gets (fun k => cond_waiters k c));
  match ws with
  | [] => mret tt
  | _ =>
      r ← cond_search c;
      match fst r with
      | Some t =>
          atom (modify (fun k => set_conds (<[c := remove_one t (cond_waiters k c)]> (conds k)) k));;
          sema_up (CondSema t)
      | None => atom (st_fail EFault)
      end
  end.

Definition cond_broadcast (c l : Z) : prog unit :=
  while tt (fun _ =>
    ws ← atom (gets (fun k => cond_waiters k c));
    match ws with
    | [] => mret (inr tt)
    | _ => cond_signal c l;; mret (inl tt)
    end).

(** * Sleeping, creating, idling *)

Definition timer_ticks : prog Z :=
  old ← intr_disable; n ← atom (gets ticks); intr_set_level old;; mret n.

(** The scan of [timer_sleep] walks the queue with interrupts on, while others
    change it under its hands: what each of its [list_remove]s leaves ([freed]), and
    the queue after its [list_insert] ([queue]), may be anything here. *)
Definition timer_sleep (freed : list (list sleep_elem)) (queue : list sleep_elem) : prog unit :=
  timer_ticks;;
  atom thread_current;;
  (fix scan (freed : list (list sleep_elem)) : prog unit :=
     match freed with
     | [] => mret tt
     | q :: freed =>
         intr_disable;; atom (modify (set_sleep_queue q));; intr_enable;; scan freed
     end) freed;;
  intr_disable;;
  atom (modify (set_sleep_queue queue));;
  atom thread_block;;
  intr_enable;; mret tt.

Definition init_thread (t p : Z) : prog unit :=
  passert (negb (t =? NULL));;
  passert ((PRI_MIN <=? p) && (p <=? PRI_MAX));;
  atom (modify (fun k => set_threads (<[t := blank_thread p]> (threads k)) k));;
  old ← intr_disable;
  atom (sema_init (WaitSema t) 0);;
  atom (sema_init (ExecSema t) 0);;
  atom (modify (fun k => set_all_list (all_list k ++ [t]) k));;
  intr_set_level old;; mret tt.

Definition allocate_tid : prog Z :=
  lock_acquire tid_lock;;
  n ← atom (gets next_tid);
  atom (modify (set_next_tid (s32 (n + 1))));;
  lock_release tid_lock;;
  mret n.

(** [page] is the result of [palloc_get_page], [es] that of [malloc]. *)
Definition thread_create (p page es : Z) : prog unit :=
  mlfqs ← atom (gets thread_mlfqs);
  let p := if mlfqs : bool then PRI_DEFAULT else p in
  if page =? NULL then mret tt else
  init_thread page p;;
  n ← allocate_tid;
  atom (upd_thread page (set_tid n));;
  old ← intr_disable;
  c ← atom thread_current;
  (if mlfqs : bool then
     th ← atom (get_thread c);
     atom (upd_thread page (set_nice (nice th)));;
     atom (upd_thread page (set_recent_cpu (recent_cpu th)));;
     np ← atom (lift (mlfqs_priority (recent_cpu th) (nice th)));
     atom (upd_thread page (set_nativePriority (clamp_priority np)))
   else mret tt);;
  atom (modify (fun k => set_exits (<[es := {| es_tid := n; es_status := 0 |}]> (exits k)) k));;
  atom (modify (fun k => set_exit_list (exit_list k ++ [es]) k));;
  atom (upd_thread c (fun th => set_child_list (child_list th ++ [es]) th));;
  intr_set_level old;;
  thread_unblock page;;
  pt ← atom (gets (fun k => prio k page));
  pc ← atom (gets (fun k => prio k c));
  if pc <? pt then thread_yield else mret tt.

(** What [kernel_thread] does before it calls the thread's function. *)
Definition kernel_thread : prog unit := intr_enable;; mret tt.

Definition idle (started : sema_id) : prog unit :=
  c ← atom thread_current;
  atom (modify (set_idle_thread c));;
  sema_up started;;
  while tt (fun _ =>
    intr_disable;;
    atom thread_block;;
    atom (modify (set_intr_on true));;
    mret (inl tt)).

(** What [intr_handler] leaves to do after the handler of the timer has run. *)
Definition intr_return (cs : list cmd) : prog unit :=
  match cs with
  | [CYield; CSetLevel on] => thread_yield;; intr_set_level on;; mret tt
  | [CSetLevel on] => intr_set_level on;; mret tt
  | _ => atom (st_fail EUndef)
  end.

(** * The machine *)

(** What the code of a thread may call. *)
Inductive call :=
| SemaDown (s : sema_id)
| SemaTryDown (s : sema_id)
| SemaUp (s : sema_id)
| LockAcquire (l : Z)
| LockTryAcquire (l : Z)
| LockRelease (l : Z)
| CondWait (c l : Z)
| CondSignal (c l : Z)
| CondBroadcast (c l : Z)
| Yield
| SetPriority (p stray : Z)
| TimerSleep (freed : list (list sleep_elem)) (queue : list sleep_elem)
| ThreadCreate (p page es : Z)
| Idle (started : sema_id).

(** The semaphores inside locks and those of [cond_wait] are used by synch.c only. *)
Definition public_sema (s : sema_id) : bool :=
  match s with
  | SemaAt _ | WaitSema _ | ExecSema _ => true
  | LockSema _ | CondSema _ => false
  end.

Definition callable (c : call) : bool :=
  match c with
  | SemaDown s | SemaTryDown s | SemaUp s | Idle s => public_sema s
  | _ => true
  end.

(** The program of a call gives back the locks its caller has from then on. *)
Definition routine (c : call) : prog (list Z) :=
  match c with
  | SemaDown s => sema_down s;; mret []
  | SemaTryDown s => sema_try_down s;; mret []
  | SemaUp s => sema_up s;; mret []
  | LockAcquire l => lock_acquire l;; mret [l]
  | LockTryAcquire l => b ← lock_try_acquire l; mret (if b : bool then [l] else [])
  | LockRelease l => lock_release l;; mret []
  | CondWait c l => cond_wait c l;; mret [l]
  | CondSignal c l => cond_signal c l;; mret []
  | CondBroadcast c l => cond_broadcast c l;; mret []
  | Yield => thread_yield;; mret []
  | SetPriority p stray => thread_set_priority p stray;; mret []
  | TimerSleep freed queue => timer_sleep freed queue;; mret []
  | ThreadCreate p page es => thread_create p page es;; mret []
  | Idle s => idle s;; mret []
  end.

(** The lock the caller no longer has once it makes the call. *)
Definition gives_up (c : call) (l : Z) : bool :=
  match c with
  | LockRelease l' | CondWait _ l' => l' =? l
  | _ => false
  end.

(** A thread: the programs it is inside of, innermost first (an interrupt comes on
    top of what it interrupts), and the locks its own code has acquired and not
    begun to release.  With no program it is in its own code. *)
Record tstate := { frames : list (prog (list Z)); has : list Z }.

Abbreviation machine := (kstate * gmap Z tstate)%type.

(** The code of the new thread that [thread_create] installs in its page. *)
Definition spawn (c : call) (code : gmap Z tstate) : gmap Z tstate :=
  match c with
  | ThreadCreate _ page _ =>
      if page =? NULL then code else <[page := {| frames := [kernel_thread;; mret []]; has := [] |}]> code
  | _ => code
  end.

(** The page is one that palloc.c does not give out twice. *)
Definition page_free (c : call) (k : kstate) (code : gmap Z tstate) : Prop :=
  match c with
  | ThreadCreate _ page _ => code !! page = None /\ threads k !! page = None
  | _ => True
  end.

(** One transition: the running thread calls a routine, makes the next access of
    what it is inside of, or comes back from it; it exits; or the timer interrupts
    it, wherever it is, if interrupts are on. *)
Inductive step : machine -> machine -> Prop :=
| step_call k code c h :
    code !! cur k = Some {| frames := []; has := h |} -> callable c = true -> page_free c k code ->
    step (k, code)
      (k, spawn c (<[cur k := {| frames := [routine c];
                                 has := List.filter (fun l => negb (gives_up c l)) h |}]> code))
| step_access k code p fs h p' k' :
    code !! cur k = Some {| frames := p :: fs; has := h |} -> pstep p k = Ok (p', k') ->
    step (k, code) (k', <[cur k := {| frames := p' :: fs; has := h |}]> code)
| step_return k code ls fs h :
    code !! cur k = Some {| frames := Ret ls :: fs; has := h |} ->
    step (k, code) (k, <[cur k := {| frames := fs; has := ls ++ h |}]> code)
| step_exit k code h cs k' :
    code !! cur k = Some {| frames := []; has := h |} -> thread_exit k = Ok (cs, k') ->
    step (k, code) (k', delete (cur k) code)
| step_timer k code fs h cs k' :
    code !! cur k = Some {| frames := fs; has := h |} -> intr_on k = true ->
    intr_handler_timer k = Ok (cs, k') ->
    step (k, code) (k', <[cur k := {| frames := (intr_return cs;; mret []) :: fs; has := h |}]> code).

(** The transitions as a function, to run a schedule on a concrete machine. *)
Inductive action :=
| ACall (c : call)
| AStep
| AExit
| ATimer.

Definition page_freeb (c : call) (k : kstate) (code : gmap Z tstate) : bool :=
  match c with
  | ThreadCreate _ page _ =>
      match code !! page, threads k !! page with None, None => true | _, _ => false end
  | _ => true
  end.

Definition act (a : action) (m : machine) : option machine :=
  let '(k, code) := m in
  ts ← code !! cur k;
  match a, frames ts with
  | ACall c, [] =>
      if callable c && page_freeb c k code then
        Some (k, spawn c (<[cur k := {| frames := [routine c];
                                        has := List.filter (fun l => negb (gives_up c l)) (has ts) |}]> code))
      else None
  | AStep, Ret ls :: fs => Some (k, <[cur k := {| frames := fs; has := ls ++ has ts |}]> code)
  | AStep, p :: fs =>
      match pstep p k with
      | Ok (p', k') => Some (k', <[cur k := {| frames := p' :: fs; has := has ts |}]> code)
      | Err _ => None
      end
  | AExit, [] => match thread_exit k with Ok (_, k') => Some (k', delete (cur k) code) | Err _ => None end
  | ATimer, fs =>
      if intr_on k then
        match intr_handler_timer k with
        | Ok (cs, k') =>
            Some (k', <[cur k := {| frames := (intr_return cs;; mret []) :: fs; has := has ts |}]> code)
        | Err _ => None
        end
      else None
  | _, _ => None
  end.

Lemma act_transition a m m' : act a m = Some m' -> step m m'.
Proof.
  destruct m as [k code]. unfold act. intros H.
  destruct (code !! cur k) as [[fs h]|] eqn:E; [|done]. cbn in H.
  destruct a; destruct fs as [|p fs]; try done; try (destruct (intr_on k) eqn:Ei; [|done]).
  - destruct (callable c && page_freeb c k code) eqn:Ec; [|done]. injection H as <-.
    apply andb_true_iff in Ec as [Ec Ep]. apply step_call; [done..|].
    destruct c; try done. cbn in *. by destruct (code !! page), (threads k !! page).
  - destruct p; [injection H as <-; by apply step_return|..];
      (destruct (pstep _ k) as [[p' k']|] eqn:Ep; [|done]); injection H as <-; by eapply step_access.
  - destruct (thread_exit k) as [[cs k']|] eqn:Ex; [|done]. injection H as <-. by eapply step_exit.
  - destruct (intr_handler_timer k) as [[cs k']|] eqn:Ex; [|done]. injection H as <-. by eapply step_timer.
  - destruct (intr_handler_timer k) as [[cs k']|] eqn:Ex; [|done]. injection H as <-. by eapply step_timer.
Qed.
