(* ===== verification/Exclusion.v ===== *)
(** Mutual exclusion of the locks of threads/synch.c, for the routines of Preempt.v:
    whatever interrupts and switches come between two accesses, only the thread that
    acquired a lock and has not begun to release it is its holder.

    A lock has one unit: it is in the semaphore, or with the holder, or on its way
    in the hands of a thread inside [lock_acquire] or [lock_release].  [wp] says of a
    program that it keeps the unit through every access, whatever the other threads
    do between two of them; with interrupts off they do nothing. *)
From Stdlib Require Import ZArith Lia.
From stdpp Require Import base numbers sorting gmap list relations.
From S2P Require Import Prelude.
From S2P Require Import FixedPoint.
From S2P Require Import Thread.
From S2P Require Import Machine.
From S2P Require Import Preempt.

Local Open Scope Z_scope.

(** * What one thread sees of a lock *)

Definition lock_value (l : Z) (k : kstate) : option Z := value <$> semas k !! LockSema l.

Definition value_of (l : Z) (k : kstate) : Z := default 0 (lock_value l k).
Definition is_held (l : Z) (k : kstate) : Z := if holder k l =? NULL then 0 else 1.

(** The units of the lock, of which a thread has one in its hands when [n]. *)
Definition units (l : Z) (k : kstate) (n : bool) : Z := value_of l k + is_held l k + Z.b2z n.

Record sound (l : Z) (k : kstate) (n : bool) : Prop := {
  sound_sema : is_Some (lock_value l k);
  sound_pos : 0 <= value_of l k;
  sound_units : units l k n <= 1
}.

(** The parts of the state [wp] watches. *)
Definition seen (l : Z) (k : kstate) : option Z * Z * Z * bool := (lock_value l k, holder k l, cur k, intr_on k).

Section wp.
Context (l t : Z) (keep : bool).

(** The running thread is [t], at an interrupt level, with the lock or without. *)
Record at_ (n on h : bool) (k : kstate) : Prop := {
  at_cur : cur k = t;
  at_intr : intr_on k = on;
  at_holder : (holder k l =? t) = h;
  at_sound : sound l k n;
  at_keep : keep = true -> h = true
}.

(** The states in which [t] goes on after it has left [k]: [k] itself if [t] runs
    with interrupts off; otherwise interrupts and other threads may have done
    anything that keeps the unit and does not enter or remove [t] as the holder.  A
    thread that was switched away from comes back with interrupts off. *)
Definition later (n : bool) (k k' : kstate) : Prop :=
  if decide (cur k = t /\ intr_on k = false) then k' = k
  else at_ n (bool_decide (cur k = t) && intr_on k) (holder k l =? t) k'.

(** What an access may do. *)
Record guar (n : bool) (k : kstate) (n' : bool) (k' : kstate) : Prop := {
  guar_units : units l k' n' = units l k n;
  guar_sema : is_Some (lock_value l k');
  guar_pos : 0 <= value_of l k';
  guar_holder : holder k' l = holder k l \/ (holder k l = NULL /\ holder k' l = t /\ t <> NULL) \/
                (holder k l = t /\ holder k' l = NULL);
  guar_switch : cur k' <> t -> intr_on k' = false;
  guar_keep : keep = true -> holder k' l = t
}.

Fixpoint wp {A} (p : prog A) (n : bool) (k : kstate) (Q : A -> bool -> kstate -> Prop) : Prop :=
  match p with
  | Ret a => Q a n k
  | Act m f => forall b k', m k = Ok (b, k') ->
      exists n', guar n k n' k' /\ forall k'', later n' k' k'' -> wp (f b) n' k'' Q
  | @Loop _ T B body s f => exists I : T -> bool -> kstate -> Prop, I s n k /\
      forall s n k, I s n k ->
        wp (body s) n k (fun r n' k' =>
          match r with inl s' => I s' n' k' | inr b => wp (f b) n' k' Q end)
  end.

Lemma wp_mono {A} (p : prog A) n k (Q Q' : A -> bool -> kstate -> Prop) :
  wp p n k Q -> (forall a n' k', Q a n' k' -> Q' a n' k') -> wp p n k Q'.
Proof.
  revert n k Q Q'. induction p as [A a|A B m f IH|A T B body IHb s f IHf]; cbn; intros n k Q Q' H HQ.
  - by apply HQ.
  - intros b k' E. destruct (H b k' E) as (n' & G & W). eauto.
  - destruct H as (I & Hi & W). exists I. split; [done|]. intros s' n' k' Hs.
    eapply IHb; [by apply W|]. intros [s2|b] n2 k2; [done|]. intros H. by eapply IHf.
Qed.

Lemma wp_bind {A B} (p : prog A) (f : A -> prog B) n k Q :
  wp p n k (fun a n' k' => wp (f a) n' k' Q) -> wp (p ≫= f) n k Q.
Proof.
  revert n k. induction p as [A a|A C m g IH|A T C body IHb s g IHg]; cbn; intros n k H; [done| |].
  - intros b k' E. destruct (H b k' E) as (n' & G & W). exists n'. split; [done|]. intros k'' L.
    by apply IH, W.
  - destruct H as (I & Hi & W). exists I. split; [done|]. intros s' n' k' Hs.
    eapply wp_mono; [by apply W|]. intros [s2|b] n2 k2; [done|]. apply IHg.
Qed.

Lemma wp_assoc {A B C} (p : prog A) (g : A -> prog B) (f : B -> prog C) n k Q :
  wp (p ≫= fun a => g a ≫= f) n k Q -> wp ((p ≫= g) ≫= f) n k Q.
Proof.
  revert n k. induction p as [A a|A D m h IH|A T D body IHb s h IHh]; cbn; intros n k H; [done| |].
  - intros b k' E. destruct (H b k' E) as (n' & G & W). exists n'. split; [done|]. intros k'' L.
    by apply IH, W.
  - destruct H as (I & Hi & W). exists I. split; [done|]. intros s' n' k' Hs.
    eapply wp_mono; [by apply W|]. intros [s2|b] n2 k2; [done|]. apply IHh.
Qed.

(** A step of the machine keeps what [wp] says. *)
Lemma wp_step {A} (p : prog A) n k Q p' k' :
  wp p n k Q -> pstep p k = Ok (p', k') ->
  (exists a, p = Ret a) \/
  (exists n', guar n k n' k' /\ forall k'', later n' k' k'' -> wp p' n' k'' Q) \/
  (k' = k /\ forall k'', wp p n k'' Q -> wp p' n k'' Q).
Proof.
  destruct p as [a|B m f|T B body s f]; cbn [pstep]; intros W E; [by left; eexists|right; left|right; right].
  - apply run_bind_inv in E as (b & k1 & E & [= <- <-]). by apply W.
  - injection E as <- <-. split; [done|]. intros k'' (I & Hi & W').
    apply (wp_bind (body s)). eapply wp_mono; [by apply W'|].
    intros [s2|b] n2 k2; [|done]. intros Hs. by exists I.
Qed.

(** ** Rules *)

Lemma later_at n on h k k' : at_ n on h k -> later n k k' -> at_ n on h k'.
Proof.
  intros [Hc Hi Hh Hs Hk]. unfold later. case_decide; [by intros ->|].
  rewrite bool_decide_eq_true_2, Hi, Hh by done. done.
Qed.

Lemma at_kept n on h k : at_ n on h k -> keep = true -> holder k l = t.
Proof. intros [_ _ <- _ Hk] Hkeep. apply Z.eqb_eq. auto. Qed.

Lemma guar_same n k k' :
  sound l k n -> (keep = true -> holder k l = t) ->
  lock_value l k' = lock_value l k -> holder k' l = holder k l ->
  (cur k' <> t -> intr_on k' = false) -> guar n k n k'.
Proof.
  intros [H1 H2 H3] Hk Hv Hh Hc. unfold value_of in *.
  split; unfold units, value_of, is_held in *; rewrite ?Hv, ?Hh; auto.
Qed.

Lemma at_same n on h on' k k' :
  at_ n on h k -> lock_value l k' = lock_value l k -> holder k' l = holder k l -> cur k' = cur k ->
  intr_on k' = on' -> at_ n on' h k'.
Proof.
  intros [Hc Hi Hh [H1 H2 H3] Hk] Hv Hh' Hc' Hi'. split; [congruence..| |done].
  split; unfold units, value_of, is_held in *; by rewrite ?Hv, ?Hh'.
Qed.

Lemma sound_same n k k' :
  sound l k n -> lock_value l k' = lock_value l k -> holder k' l = holder k l -> sound l k' n.
Proof.
  intros [H1 H2 H3] Hv Hh. split; unfold units, value_of, is_held in *; by rewrite ?Hv, ?Hh.
Qed.

(** An access to something else. *)
Lemma wp_quiet {A B} (m : kM B) (f : B -> prog A) n on h k Q :
  keeps (seen l) m -> at_ n on h k ->
  (forall b k', (exists k1, m k = Ok (b, k1)) -> at_ n on h k' -> wp (f b) n k' Q) ->
  wp (atom m ≫= f) n k Q.
Proof.
  intros Hm Hk Hf b k' E. assert (E' := E). apply Hm in E. unfold seen in E. injection E as Ev Eh Ec Ei.
  assert (at_ n on h k') as Hk' by (eapply at_same; [done..|]; rewrite Ei; apply Hk).
  exists n. split; [|intros k'' L; apply Hf; [by eexists|by eapply later_at]].
  pose proof Hk as [Hc Hi Hh Hs _]. apply guar_same; [done|by eapply at_kept|done..|]. intros ?. congruence.
Qed.

(** With interrupts off, what was read stays. *)
Record off_ (n h : bool) (v : Z) (k : kstate) : Prop := {
  off_at : at_ n false h k;
  off_value : value_of l k = v
}.

Lemma wp_off {A B} (m : kM B) (f : B -> prog A) n h v k Q :
  keeps (seen l) m -> off_ n h v k ->
  (forall b k', m k = Ok (b, k') -> off_ n h v k' -> wp (f b) n k' Q) -> wp (atom m ≫= f) n k Q.
Proof.
  intros Hm [Ha Hv] Hf b k' E. assert (E' := E). apply Hm in E'. unfold seen in E'.
  injection E' as Ev Eh Ec Ei.
  assert (off_ n h v k') as Hk'.
  { split; [eapply at_same; [done..|]; rewrite Ei; apply Ha|]. unfold value_of in *. congruence. }
  pose proof Ha as [Hc Hi Hh Hs _].
  exists n. split; [apply guar_same; [done|by eapply at_kept|done..|intros ?; congruence]|].
  intros k''. unfold later. rewrite decide_True by (split; congruence). intros ->. by apply Hf.
Qed.

(** An access after which the thread goes on with interrupts at level [on']. *)
Lemma wp_level {A} on' (f : unit -> prog A) n on h k Q :
  at_ n on h k -> (forall k', at_ n on' h k' -> wp (f tt) n k' Q) ->
  wp (atom (modify (set_intr_on on')) ≫= f) n k Q.
Proof.
  intros Ha Hf b k' [= <- <-]. exists n. pose proof Ha as [Hc Hi Hh Hs _].
  assert (at_ n on' h (set_intr_on on' k)) as Hk' by (by eapply at_same).
  split; [apply guar_same; [done|by eapply at_kept|done..]|]. intros k'' L. by eapply Hf, later_at.
Qed.

(** A switch: the thread comes back with interrupts off. *)
Lemma wp_switch {A B} (m : kM B) (f : B -> prog A) n on h k Q :
  (forall k b k', m k = Ok (b, k') ->
     lock_value l k' = lock_value l k /\ holder k' l = holder k l /\ intr_on k' = false) ->
  at_ n on h k -> (forall b k', at_ n false h k' -> wp (f b) n k' Q) -> wp (atom m ≫= f) n k Q.
Proof.
  intros Hm Ha Hf b k' E. apply Hm in E as (Hv & Hh' & Hi'). pose proof Ha as [Hc Hi Hh Hs Hk].
  exists n. split; [apply guar_same; [done|by eapply at_kept|done..]|]. intros k'' L. apply Hf. revert L. unfold later.
  case_decide as D.
  - intros ->. destruct D as [Hc' _]. split; [done..|congruence|by eapply sound_same|done].
  - rewrite Hi', andb_false_r, Hh'. rewrite Hh. done.
Qed.

Lemma wp_ret {A} (a : A) n k (Q : A -> bool -> kstate -> Prop) : Q a n k -> wp (mret a) n k Q.
Proof. done. Qed.

Lemma wp_while {T B} (I : T -> bool -> kstate -> Prop) (s : T) (body : T -> prog (T + B)) n k Q :
  I s n k ->
  (forall s n k, I s n k ->
     wp (body s) n k (fun r n' k' => match r with inl s' => I s' n' k' | inr b => Q b n' k' end)) ->
  wp (while s body) n k Q.
Proof. intros Hi H. by exists I. Qed.

(** A program that touches nothing [wp] watches. *)
Definition quiet {A} (p : prog A) : Prop :=
  forall n on h k, at_ n on h k -> wp p n k (fun _ n' k' => n' = n /\ at_ n on h k').

Lemma wp_quiet_prog {A B} (p : prog A) (f : A -> prog B) n on h k Q :
  quiet p -> at_ n on h k ->
  (forall a k', at_ n on h k' -> wp (f a) n k' Q) -> wp (p ≫= f) n k Q.
Proof.
  intros Hp Hk Hf. apply wp_bind. eapply wp_mono; [by eapply Hp|].
  intros a n' k' [-> Hk']. by apply Hf.
Qed.

Lemma quiet_atom {A} (m : kM A) : keeps (seen l) m -> quiet (atom m).
Proof.
  intros Hm n on h k Hk.
  apply (wp_quiet m mret n on h k (fun _ n' k' => n' = n /\ at_ n on h k') Hm Hk).
  by intros b k' _ Hk'.
Qed.

Lemma quiet_ret {A} (a : A) : quiet (mret a).
Proof. by intros n on h k Hk. Qed.

Lemma quiet_bind {A B} (p : prog A) (f : A -> prog B) :
  quiet p -> (forall a, quiet (f a)) -> quiet (p ≫= f).
Proof.
  intros Hp Hf n on h k Hk. eapply wp_quiet_prog; [done..|]. intros a k' Hk'. by eapply Hf.
Qed.

Lemma quiet_while {T B} (s : T) (body : T -> prog (T + B)) :
  (forall s, quiet (body s)) -> quiet (while s body).
Proof.
  intros Hb n on h k Hk. apply (wp_while (fun _ n' k' => n' = n /\ at_ n on h k')); [done|].
  intros s' n' k' [-> Hk']. eapply wp_mono; [by eapply Hb|]. by intros [?|?].
Qed.

(** ** Interrupt levels *)

Lemma keeps_seen_gets {A} (f : kstate -> A) : keeps (seen l) (gets f).
Proof. intros k a k' [= _ <-]. done. Qed.

Lemma keeps_seen_assert c : keeps (seen l) (assert c).
Proof. intros k a k' E. by apply assert_inv in E as [_ ->]. Qed.

Lemma wp_disable {A} (f : bool -> prog A) n on h k Q :
  at_ n on h k -> (forall k', at_ n false h k' -> wp (f on) n k' Q) -> wp (intr_disable ≫= f) n k Q.
Proof.
  intros Hk Hf. apply wp_assoc. apply (wp_quiet _ _ n on h); [apply keeps_seen_gets|done|].
  intros b k' [k1 [= <- _]] Hk'. rewrite (at_intr _ _ _ _ Hk).
  apply wp_assoc. apply (wp_level _ _ n on h); [done|]. intros k2 H2. by apply Hf.
Qed.

Lemma wp_enable {A} (f : bool -> prog A) n on h k Q :
  at_ n on h k -> (forall b k', at_ n true h k' -> wp (f b) n k' Q) -> wp (intr_enable ≫= f) n k Q.
Proof.
  intros Hk Hf. apply wp_assoc. apply (wp_quiet _ _ n on h); [apply keeps_seen_gets|done|]. intros old k1 _ H1.
  apply wp_assoc. apply (wp_quiet _ _ n on h); [apply keeps_seen_gets|done|]. intros ext k2 _ H2.
  apply wp_assoc. apply (wp_quiet _ _ n on h); [apply keeps_seen_assert|done|]. intros _ k3 _ H3.
  apply wp_assoc. apply (wp_level _ _ n on h); [done|]. intros k4 H4. by apply Hf.
Qed.

Lemma wp_set_level {A} on' (f : bool -> prog A) n on h k Q :
  at_ n on h k -> (forall b k', at_ n on' h k' -> wp (f b) n k' Q) -> wp (intr_set_level on' ≫= f) n k Q.
Proof.
  intros Hk Hf. destruct on'; [by eapply wp_enable|]. eapply wp_disable; [done|]. eauto.
Qed.
End wp.

(** * The routines *)

Create HintDb quiet.

Section routines.
Context (l t : Z) (keep : bool).

Lemma keeps_get_sema_field {A} s (f : semaphore -> A) : keeps (seen l) (sm ← get_sema s; mret (f sm)).
Proof. keeps_solve. Qed.

Lemma keeps_sema_value s : keeps (seen l) (sema_value s).
Proof. unfold sema_value. keeps_solve. Qed.

Lemma keeps_sema_waiters s : keeps (seen l) (sema_waiters s).
Proof. unfold sema_waiters. keeps_solve. Qed.

(** A store to a semaphore, by what it does to the value. *)
Lemma put_sema_seen s sm k a k' :
  put_sema s sm k = Ok (a, k') ->
  seen l k' = (if decide (s = LockSema l) then Some (value sm) else lock_value l k, holder k l, cur k, intr_on k).
Proof.
  intros [= <- <-]. unfold seen, lock_value, holder; cbn. case_decide as E; subst.
  - by rewrite lookup_insert_eq.
  - by rewrite lookup_insert_ne.
Qed.

Lemma keeps_upd_waiters s f : keeps (seen l) (upd_waiters s f).
Proof.
  intros k a k' H. unfold upd_waiters in H. run_inv H. apply get_sema_inv in Hr as [Hs ->].
  rewrite (put_sema_seen _ _ _ _ _ H). unfold seen, lock_value. case_decide; [|done]. subst.
  by rewrite Hs.
Qed.

Lemma keeps_put_sema s sm : s <> LockSema l -> keeps (seen l) (put_sema s sm).
Proof. intros Hs k a k' H. rewrite (put_sema_seen _ _ _ _ _ H). by case_decide. Qed.

Lemma keeps_set_sema_value s v : s <> LockSema l -> keeps (seen l) (set_sema_value s v).
Proof. intros Hs. unfold set_sema_value. apply keeps_bind; [keeps_solve|]. intros. by apply keeps_put_sema. Qed.

Lemma keeps_sema_init s v : s <> LockSema l -> keeps (seen l) (sema_init s v).
Proof. apply keeps_put_sema. Qed.

Lemma keeps_set_holder l' c : l' <> l -> keeps (seen l) (set_holder l' c).
Proof.
  intros Hl k a k' [= <- <-]. unfold seen, lock_value, holder; cbn. by rewrite lookup_insert_ne.
Qed.

Lemma keeps_set_donor c i f : keeps (seen l) (set_donor c i f).
Proof.
  unfold set_donor. apply keeps_bind; [keeps_solve|intros]. apply keeps_bind; [apply keeps_assert|intros].
  keeps_solve.
Qed.

Lemma keeps_own_donor i : keeps (seen l) (own_donor i).
Proof. unfold own_donor. keeps_solve. Qed.

Lemma keeps_own_thread : keeps (seen l) own_thread.
Proof. unfold own_thread. keeps_solve. Qed.

Lemma keeps_get_holder l' : keeps (seen l) (get_holder l').
Proof. unfold get_holder. keeps_solve. Qed.

Lemma keeps_st_get {B} (proj : kstate -> B) : keeps proj st_get.
Proof. by intros k a k' [= <- <-]. Qed.
End routines.

#[export] Hint Resolve keeps_sema_value keeps_sema_waiters keeps_upd_waiters keeps_set_sema_value
  keeps_sema_init keeps_set_holder keeps_assert keeps_set_donor keeps_own_donor keeps_own_thread
  keeps_get_holder keeps_st_get : keeps.

Ltac seen_solve := solve [keeps_solve].

(** [quiet_solve] takes a program apart down to accesses that leave the lock alone and
    to programs the hint database [quiet] knows about. *)
Ltac quiet_solve := repeat first
  [ solve [auto with quiet]
  | match goal with |- quiet _ _ _ (mbind _ _) => apply quiet_bind; [|intros] end
  | match goal with |- quiet _ _ _ (atom _) => apply quiet_atom; seen_solve end
  | match goal with |- quiet _ _ _ (mret _) => apply quiet_ret end
  | match goal with |- quiet _ _ _ (while _ _) => apply quiet_while; intros end
  | match goal with |- quiet _ _ _ (match ?x with _ => _ end) => destruct x end
  | match goal with |- quiet _ _ _ (passert _) => apply quiet_atom; auto with keeps end
  | progress cbv zeta ].

(** Accesses of a program whose result [wp] does not care about. *)
Ltac wp_skip :=
  let Hw := fresh "Hw" in
  first [apply wp_assoc | idtac];
  lazymatch goal with
  | |- wp _ _ _ (mbind _ (passert _)) _ _ _ => eapply wp_quiet; [auto with keeps|eassumption|]; intros ? ? _ Hw
  | |- wp _ _ _ (mbind _ (atom _)) _ _ _ => eapply wp_quiet; [seen_solve|eassumption|]; intros ? ? _ Hw
  end.

(** The rest of the program is quiet. *)
Ltac wp_end :=
  lazymatch goal with |- wp ?l ?t ?kp ?p _ _ _ =>
    let Hq := fresh in assert (quiet l t kp p) as Hq; [solve [quiet_solve]|by eapply Hq]
  end.

Section quiet.
Context (l t : Z) (keep : bool).

Lemma schedule_seen k b k' :
  schedule k = Ok (b, k') -> lock_value l k' = lock_value l k /\ holder k' l = holder k l /\ intr_on k' = false.
Proof.
  intros E. assert (sync k' = sync k) as Es by (by eapply keeps_schedule).
  unfold sync in Es. injection Es as E1 E2 _. unfold lock_value, holder. rewrite E1, E2. split_and!; [done..|].
  assert (keeps intr_on schedule) as Hi.
  { unfold schedule, next_thread_to_run, thread_schedule_tail. keeps_solve. }
  rewrite (Hi _ _ _ E). clear Hi E1 E2. unfold schedule in E. run_inv E. injection Hr as <- <-.
  run_inv E. assert (keeps intr_on next_thread_to_run) as Hn by (unfold next_thread_to_run; keeps_solve).
  apply Hn in Hr. rewrite <- Hr. run_inv E. injection Hr0 as <- <-.
  run_inv E. apply assert_inv in Hr0 as [Ho _]. by apply negb_true_iff.
Qed.

Lemma thread_block_seen k b k' :
  thread_block k = Ok (b, k') -> lock_value l k' = lock_value l k /\ holder k' l = holder k l /\ intr_on k' = false.
Proof.
  intros E. assert (sync k' = sync k) as Es by (by eapply keeps_thread_block).
  unfold sync in Es. injection Es as E1 E2 _. unfold lock_value, holder. rewrite E1, E2. split_and!; [done..|].
  unfold thread_block in E. do 6 run_inv E. by apply schedule_seen in E as (_ & _ & ->).
Qed.

Lemma quiet_insert_place before x pre r : quiet l t keep (insert_place before x pre r).
Proof. revert pre. induction r as [|e r IH]; intros pre; cbn [insert_place]; quiet_solve. Qed.
#[local] Hint Resolve quiet_insert_place : quiet.

Lemma quiet_ready_insert before x : quiet l t keep (ready_insert before x).
Proof. unfold ready_insert. quiet_solve. Qed.
#[local] Hint Resolve quiet_ready_insert : quiet.

(** A critical section: interrupts go off, and back to where they were. *)
Lemma quiet_critical {A} (p : bool -> prog A) :
  (forall n on h k, at_ l t keep n false h k -> wp l t keep (p on) n k (fun _ n' k' => n' = n /\ at_ l t keep n on h k')) ->
  quiet l t keep (old ← Preempt.intr_disable; p old).
Proof. intros Hp n on h k Hk. eapply wp_disable; [done|]. intros k' Hk'. by apply Hp. Qed.

Lemma wp_leave {A} (a : A) n on h on' k Q :
  at_ l t keep n on h k -> (forall k', at_ l t keep n on' h k' -> Q a n k') ->
  wp l t keep (Preempt.intr_set_level on';; mret a) n k Q.
Proof. intros Hk HQ. eapply wp_set_level; [done|]. intros b k' Hk'. by apply HQ. Qed.

Lemma quiet_thread_unblock x : quiet l t keep (thread_unblock x).
Proof.
  unfold Preempt.thread_unblock. do 2 (apply quiet_bind; [quiet_solve|intros]). apply quiet_critical.
  intros n on h k Hk. do 2 wp_skip. eapply wp_quiet_prog; [apply quiet_ready_insert|done|].
  intros _ k3 H3. wp_skip. by eapply wp_leave.
Qed.

Lemma quiet_thread_yield : quiet l t keep thread_yield.
Proof.
  unfold Preempt.thread_yield. do 3 (apply quiet_bind; [quiet_solve|intros]). apply quiet_critical.
  intros n on h k Hk. wp_skip. eapply wp_quiet_prog; [quiet_solve|done|]. intros _ k2 H2. wp_skip.
  eapply wp_switch; [apply schedule_seen|done|]. intros _ k4 H4. by eapply wp_leave.
Qed.
#[local] Hint Resolve quiet_thread_unblock quiet_thread_yield : quiet.

Lemma quiet_donor_round x s : quiet l t keep (donor_round x s).
Proof. destruct s. unfold donor_round. quiet_solve. Qed.

Lemma quiet_updateActivePriority x : quiet l t keep (updateActivePriority x).
Proof.
  unfold Preempt.updateActivePriority, highest_donation. apply quiet_while. intros y.
  pose proof (quiet_donor_round y). quiet_solve.
Qed.
#[local] Hint Resolve quiet_updateActivePriority : quiet.

Lemma quiet_search_waiters best hi ws : quiet l t keep (search_waiters best hi ws).
Proof. revert best hi. induction ws as [|w ws IH]; intros best hi; cbn [search_waiters]; quiet_solve. Qed.
#[local] Hint Resolve quiet_search_waiters : quiet.

Lemma quiet_lock_held l' : quiet l t keep (lock_held_by_current_thread l').
Proof. unfold Preempt.lock_held_by_current_thread. quiet_solve. Qed.

Lemma quiet_donate x l' : quiet l t keep (donate x l').
Proof. unfold Preempt.donate. quiet_solve. Qed.
#[local] Hint Resolve quiet_lock_held quiet_donate : quiet.

Lemma quiet_skip_back l' i j : quiet l t keep (skip_back l' i j).
Proof. unfold Preempt.skip_back. quiet_solve. Qed.
#[local] Hint Resolve quiet_skip_back : quiet.

Lemma quiet_release_round l' s : quiet l t keep (release_round l' s).
Proof. destruct s. unfold release_round. quiet_solve. Qed.
#[local] Hint Resolve quiet_release_round : quiet.

Lemma quiet_cond_search c : quiet l t keep (cond_search c).
Proof. unfold cond_search. quiet_solve. Qed.

Lemma quiet_timer_ticks : quiet l t keep timer_ticks.
Proof.
  unfold Preempt.timer_ticks. apply quiet_critical. intros n on h k Hk. wp_skip. by eapply wp_leave.
Qed.
#[local] Hint Resolve quiet_cond_search quiet_timer_ticks : quiet.

Lemma quiet_init_thread x p : quiet l t keep (init_thread x p).
Proof.
  unfold Preempt.init_thread. do 3 (apply quiet_bind; [quiet_solve|intros]). apply quiet_critical.
  intros n on h k Hk. do 3 wp_skip. by eapply wp_leave.
Qed.

(** ** Semaphores other than the lock's *)

Lemma quiet_sema_down s : s <> LockSema l -> quiet l t keep (sema_down s).
Proof.
  intros Hs. unfold Preempt.sema_down. do 2 (apply quiet_bind; [quiet_solve|intros]). apply quiet_critical.
  intros n on h k Hk. wp_skip. eapply wp_quiet_prog; [quiet_solve|done|]. intros _ k2 H2.
  apply wp_bind, (wp_while _ _ _ (fun _ n' k' => n' = n /\ at_ l t keep n false h k')); [done|].
  intros _ n3 k3 [-> H3]. wp_skip. case_match.
  - apply (wp_switch _ _ _ _ _ _ false h); [apply thread_block_seen|done|]. by intros.
  - apply wp_ret. wp_skip. wp_skip. by eapply wp_leave.
Qed.

Lemma quiet_sema_try_down s : s <> LockSema l -> quiet l t keep (sema_try_down s).
Proof.
  intros Hs. unfold Preempt.sema_try_down. apply quiet_critical.
  intros n on h k Hk. wp_skip. eapply wp_quiet_prog; [quiet_solve|done|]. intros a k2 H2. by eapply wp_leave.
Qed.

(** The part of [sema_up] that wakes a waiter touches no value. *)
Lemma quiet_wake s ws : quiet l t keep
  (match ws with
   | [] => mret (PRI_MIN - 1)
   | _ =>
       r ← search_waiters None (PRI_MIN - 1) ws;
       match fst r with
       | Some x => atom (upd_waiters s (remove_one x));; thread_unblock x;; mret (snd r)
       | None => atom (st_fail EFault)
       end
   end).
Proof. quiet_solve. Qed.

Lemma quiet_sema_up s : s <> LockSema l -> quiet l t keep (sema_up s).
Proof.
  intros Hs. unfold Preempt.sema_up. apply quiet_critical.
  intros n on h k Hk. wp_skip. eapply wp_quiet_prog; [apply quiet_wake|done|]. intros hi k2 H2.
  do 2 wp_skip. eapply wp_set_level; [done|]. intros. wp_end.
Qed.

(** ** Other locks *)

Lemma quiet_lock_acquire l' : l' <> l -> quiet l t keep (lock_acquire l').
Proof.
  intros Hl. assert (LockSema l' <> LockSema l) as Hs by congruence.
  pose proof (quiet_sema_down (LockSema l') Hs). unfold Preempt.lock_acquire. quiet_solve.
Qed.

Lemma quiet_lock_try_acquire l' : l' <> l -> quiet l t keep (lock_try_acquire l').
Proof.
  intros Hl. assert (LockSema l' <> LockSema l) as Hs by congruence.
  pose proof (quiet_sema_try_down (LockSema l') Hs). unfold Preempt.lock_try_acquire. quiet_solve.
Qed.

Lemma quiet_lock_release l' : l' <> l -> quiet l t keep (lock_release l').
Proof.
  intros Hl. assert (LockSema l' <> LockSema l) as Hs by congruence.
  pose proof (quiet_sema_up (LockSema l') Hs). unfold Preempt.lock_release. quiet_solve.
Qed.

Lemma quiet_cond_wait c l' : l' <> l -> quiet l t keep (cond_wait c l').
Proof.
  intros Hl. pose proof (quiet_lock_acquire l' Hl). pose proof (quiet_lock_release l' Hl).
  assert (forall x, CondSema x <> LockSema l) as Hs by done.
  pose proof (fun x => quiet_sema_down (CondSema x) (Hs x)). unfold Preempt.cond_wait. quiet_solve.
Qed.

Lemma quiet_cond_signal c l' : quiet l t keep (cond_signal c l').
Proof. assert (forall x, CondSema x <> LockSema l) as Hs by done.
  pose proof (fun x => quiet_sema_up (CondSema x) (Hs x)). unfold Preempt.cond_signal. quiet_solve. Qed.

Lemma quiet_cond_broadcast c l' : quiet l t keep (cond_broadcast c l').
Proof. pose proof (quiet_cond_signal c l'). unfold Preempt.cond_broadcast. quiet_solve. Qed.
End quiet.

#[export] Hint Resolve quiet_ready_insert quiet_thread_unblock quiet_thread_yield quiet_updateActivePriority
  quiet_search_waiters quiet_lock_held quiet_donate quiet_skip_back quiet_release_round quiet_cond_search
  quiet_timer_ticks quiet_init_thread quiet_sema_down quiet_sema_try_down quiet_sema_up : quiet.

(** * The lock itself *)

Section lock.
Context (l t : Z) (keep : bool).

Lemma at_off n h k : at_ l t keep n false h k -> off_ l t keep n h (value_of l k) k.
Proof. by split. Qed.

Lemma sema_value_run k v k' : sema_value (LockSema l) k = Ok (v, k') -> v = value_of l k.
Proof.
  unfold sema_value. intros H. run_inv H. apply get_sema_inv in Hr as [Hs ->]. injection H as <- _.
  unfold value_of, lock_value. by rewrite Hs.
Qed.

(** With interrupts off the value read is the value. *)
Lemma wp_value {A} (f : Z -> prog A) n h v k Q :
  off_ l t keep n h v k -> (forall k', off_ l t keep n h v k' -> wp l t keep (f v) n k' Q) ->
  wp l t keep (atom (sema_value (LockSema l)) ≫= f) n k Q.
Proof.
  intros Hk Hf. eapply wp_off; [auto with keeps|done|]. intros b k' E Hk'.
  apply sema_value_run in E. rewrite E, (off_value _ _ _ _ _ _ _ Hk). by apply Hf.
Qed.

Lemma set_sema_value_seen v k a k' :
  set_sema_value (LockSema l) v k = Ok (a, k') ->
  seen l k' = (Some v, holder k l, cur k, intr_on k).
Proof.
  unfold set_sema_value. intros H. run_inv H. apply get_sema_inv in Hr as [Hs ->].
  rewrite (put_sema_seen l _ _ _ _ _ H). by rewrite decide_True.
Qed.

(** A store of the value with interrupts off, which passes the unit on. *)
Lemma wp_set_value {A} (f : unit -> prog A) n n' h v v' k Q :
  off_ l t keep n h v k -> 0 <= v' -> v' + Z.b2z n' = v + Z.b2z n ->
  (forall k', at_ l t keep n' false h k' -> wp l t keep (f tt) n' k' Q) ->
  wp l t keep (atom (set_sema_value (LockSema l) v') ≫= f) n k Q.
Proof.
  intros [Ha Hv] H0 Hu Hf b k' E. pose proof Ha as [Hc Hi Hh [S1 S2 S3] Hkeep]. apply set_sema_value_seen in E.
  unfold seen in E. injection E as Ev Eh Ec Ei. destruct b. exists n'.
  assert (value_of l k' = v') as Ev' by (unfold value_of; by rewrite Ev).
  assert (units l k' n' = units l k n) as Eu by (unfold units, is_held in *; rewrite Ev', Hv, Eh; lia).
  assert (at_ l t keep n' false h k') as Hk'.
  { split; [congruence..| |done]. split; [by rewrite Ev; eexists|by rewrite Ev'|by rewrite Eu]. }
  split.
  - split; [done|by rewrite Ev; eexists|by rewrite Ev'|by left|intros ?; congruence|].
    rewrite Eh. by eapply at_kept.
  - intros k'' L. by eapply Hf, later_at.
Qed.

Lemma is_held_range k : 0 <= is_held l k <= 1.
Proof. unfold is_held. case_match; lia. Qed.

(** The value of a lock's semaphore leaves no room for a wrap-around. *)
Lemma off_range n h v k : off_ l t keep n h v k -> 0 <= v /\ v + Z.b2z n <= 1.
Proof.
  intros [[_ _ _ [_ H1 H2] _] Hv]. unfold units in H2. pose proof (is_held_range k). lia.
Qed.

Lemma wp_take {A} (f : unit -> prog A) h v k Q :
  off_ l t keep false h v k -> 0 < v -> (forall k', at_ l t keep true false h k' -> wp l t keep (f tt) true k' Q) ->
  wp l t keep (atom (set_sema_value (LockSema l) (u32 (v - 1))) ≫= f) false k Q.
Proof.
  intros Hk Hv. pose proof (off_range _ _ _ _ Hk) as [_ H]. cbn in H. assert (v = 1) as -> by lia.
  by eapply wp_set_value.
Qed.

Lemma wp_give {A} (f : unit -> prog A) h v k Q :
  off_ l t keep true h v k -> (forall k', at_ l t keep false false h k' -> wp l t keep (f tt) false k' Q) ->
  wp l t keep (atom (set_sema_value (LockSema l) (u32 (v + 1))) ≫= f) true k Q.
Proof.
  intros Hk. pose proof (off_range _ _ _ _ Hk) as [? H]. cbn in H. assert (v = 0) as -> by lia.
  by eapply wp_set_value.
Qed.

(** A store of the holder, which passes the unit on. *)
Lemma wp_set_holder {A} (f : unit -> prog A) c n n' on h k Q :
  at_ l t keep n on h k -> t <> NULL ->
  (n = true /\ n' = false /\ c = t \/ n = false /\ n' = true /\ c = NULL /\ h = true /\ keep = false) ->
  (forall k', at_ l t keep n' on (c =? t) k' -> wp l t keep (f tt) n' k' Q) ->
  wp l t keep (atom (set_holder l c) ≫= f) n k Q.
Proof.
  intros [Hc Hi Hh [S1 S2 S3] Hkeep] Ht Hn Hf b k' [= <- <-]. exists n'.
  set (k' := set_holders (<[l := c]> (holders k)) k).
  assert (holder k' l = c) as Eh by (unfold holder; cbn; by rewrite lookup_insert_eq).
  assert (units l k' n' = units l k n /\
    (holder k l = NULL /\ c = t \/ holder k l = t /\ c = NULL /\ keep = false)) as [Eu Hd].
  { unfold units, is_held in *. rewrite Eh. change (value_of l k') with (value_of l k).
    destruct Hn as [(-> & -> & ->)|(-> & -> & -> & -> & Hk)]; cbn [Z.b2z] in *.
    - destruct (Z.eqb_spec (holder k l) NULL), (Z.eqb_spec t NULL); try done; split; auto; lia.
    - apply Z.eqb_eq in Hh. rewrite Hh in *. destruct (Z.eqb_spec t NULL); [done|].
      rewrite Z.eqb_refl. split; auto; lia. }
  assert (at_ l t keep n' on (c =? t) k') as Hk'.
  { split; [done..|by rewrite Eh|split; [done..|by rewrite Eu]|].
    destruct Hd as [[? ->]|(? & _ & ->)]; [by rewrite Z.eqb_refl|done]. }
  split.
  - split; [done..| |done|]; rewrite Eh; destruct Hd as [[? ->]|(? & -> & ->)]; auto; done.
  - intros k'' L. by eapply Hf, later_at.
Qed.

Lemma thread_current_at n on h k c k1 :
  at_ l t keep n on h k -> thread_current k = Ok (c, k1) -> c = t /\ t <> NULL.
Proof. intros [<- _ _ _ _] H. apply thread_current_run in H as (_ & -> & ? & _). done. Qed.

(** What a call leaves behind: the unit in the thread's hands, the interrupt level and
    the holder. *)
Definition leaves {A} (n on h : bool) : A -> bool -> kstate -> Prop := fun _ n' k' => n' = n /\ at_ l t keep n on h k'.

Lemma wp_sema_down on h k :
  at_ l t keep false on h k -> wp l t keep (sema_down (LockSema l)) false k (leaves true on h).
Proof.
  intros Hk. unfold Preempt.sema_down. do 2 wp_skip. eapply wp_disable; [done|]. intros k1 H1.
  wp_skip. eapply wp_quiet_prog; [quiet_solve|done|]. intros _ k3 H3.
  apply wp_bind, (wp_while _ _ _ (fun _ n' k' => n' = false /\ at_ l t keep false false h k')); [done|].
  intros _ n4 k4 [-> H4]. eapply wp_value; [by apply at_off|]. intros k5 H5.
  destruct (Z.leb_spec (value_of l k4) 0) as [Hv|Hv].
  - apply (wp_switch _ _ _ _ _ _ false h); [apply thread_block_seen|apply H5|]. by intros.
  - eapply wp_value; [done|]. intros k6 H6. eapply wp_take; [done..|]. intros k7 H7. by eapply wp_leave.
Qed.

Lemma wp_sema_try_down on h k :
  at_ l t keep false on h k ->
  wp l t keep (sema_try_down (LockSema l)) false k (fun b n' k' => n' = b /\ at_ l t keep n' on h k').
Proof.
  intros Hk. unfold Preempt.sema_try_down. eapply wp_disable; [done|]. intros k1 H1.
  eapply wp_value; [by apply at_off|]. intros k2 H2. destruct (Z.ltb_spec 0 (value_of l k1)) as [Hv|Hv].
  - apply wp_assoc. eapply wp_value; [done|]. intros k3 H3. apply wp_assoc. eapply wp_take; [done..|].
    intros k4 H4. by eapply wp_leave.
  - eapply wp_leave; [apply H2|done].
Qed.

Lemma wp_sema_up on h k :
  at_ l t keep true on h k -> wp l t keep (sema_up (LockSema l)) true k (leaves false on h).
Proof.
  intros Hk. unfold Preempt.sema_up. eapply wp_disable; [done|]. intros k1 H1. wp_skip.
  eapply wp_quiet_prog; [apply quiet_wake|done|]. intros hi k3 H3.
  eapply wp_value; [by apply at_off|]. intros k4 H4. eapply wp_give; [done|]. intros k5 H5.
  eapply wp_set_level; [done|]. intros. wp_end.
Qed.

(** The test whether the running thread is the holder. *)
Lemma wp_held {A} (f : bool -> prog A) n on h k Q :
  at_ l t keep n on h k -> (forall k', t <> NULL -> at_ l t keep n on h k' -> wp l t keep (f h) n k' Q) ->
  wp l t keep (lock_held_by_current_thread l ≫= f) n k Q.
Proof.
  intros Hk Hf. unfold Preempt.lock_held_by_current_thread. apply wp_assoc.
  eapply wp_quiet; [auto with keeps|done|]. intros x k1 [? [= <- _]] H1.
  apply wp_assoc. eapply wp_quiet; [auto with keeps|done|]. intros c k2 [? E] H2.
  destruct (thread_current_at _ _ _ _ _ _ H1 E) as [-> ?].
  rewrite (at_holder _ _ _ _ _ _ _ Hk). by apply Hf.
Qed.

Lemma wp_passert {A} (f : unit -> prog A) c n on h k Q :
  at_ l t keep n on h k -> (forall k', c = true -> at_ l t keep n on h k' -> wp l t keep (f tt) n k' Q) ->
  wp l t keep (passert c ≫= f) n k Q.
Proof.
  intros Hk Hf. eapply wp_quiet; [auto with keeps|done|]. intros [] k1 [? E] H1.
  apply assert_inv in E as [E _]. by apply Hf.
Qed.

Lemma wp_current {A} (f : Z -> prog A) n on h k Q :
  at_ l t keep n on h k -> (forall k', t <> NULL -> at_ l t keep n on h k' -> wp l t keep (f t) n k' Q) ->
  wp l t keep (atom thread_current ≫= f) n k Q.
Proof.
  intros Hk Hf. eapply wp_quiet; [auto with keeps|done|]. intros c k1 [? E] H1.
  destruct (thread_current_at _ _ _ _ _ _ Hk E) as [-> ?]. by apply Hf.
Qed.

Lemma wp_lock_acquire on h k :
  at_ l t keep false on h k ->
  wp l t keep (lock_acquire l) false k (fun a n' k' => h = false /\ leaves false on true a n' k').
Proof.
  intros Hk. unfold Preempt.lock_acquire. do 2 wp_skip. eapply wp_held; [done|]. intros k3 Ht H3.
  eapply wp_passert; [done|]. intros k4 Hh%negb_true_iff H4. wp_skip. eapply wp_quiet_prog; [quiet_solve|done|]. intros _ k6 H6.
  apply wp_bind. eapply wp_mono; [by apply wp_sema_down|]. intros _ n7 k7 [-> H7].
  eapply wp_current; [done|]. intros k8 _ H8. eapply (wp_set_holder _ _ _ false); [done..|by left|].
  rewrite Z.eqb_refl. intros k9 H9.
  eapply wp_mono; [|intros ??? H; split; [exact Hh|exact H]]. wp_end.
Qed.

Lemma wp_lock_try_acquire on h k :
  at_ l t keep false on h k ->
  wp l t keep (lock_try_acquire l) false k (fun b n' k' => n' = false /\ h = false /\ at_ l t keep false on b k').
Proof.
  intros Hk. unfold Preempt.lock_try_acquire. eapply wp_held; [done|]. intros k3 Ht H3.
  eapply wp_passert; [done|]. intros k4 ->%negb_true_iff H4.
  apply wp_bind. eapply wp_mono; [by apply wp_sema_try_down|]. intros b n7 k7 [-> H7].
  destruct b; [|by apply wp_ret].
  apply wp_assoc. eapply wp_current; [done|]. intros k8 _ H8. eapply (wp_set_holder _ _ _ false); [done..|by left|].
  rewrite Z.eqb_refl. intros k9 H9. by apply wp_ret.
Qed.

Lemma wp_lock_release on h k :
  keep = false -> at_ l t keep false on h k ->
  wp l t keep (lock_release l) false k (leaves false on false).
Proof.
  intros Hkeep Hk. unfold Preempt.lock_release. eapply wp_held; [done|]. intros k3 Ht H3.
  eapply wp_passert; [done|]. intros k4 -> H4. do 2 wp_skip.
  eapply wp_quiet_prog; [quiet_solve|done|]. intros w k6 H6.
  apply (wp_set_holder _ _ _ true _ _ _ _ H6 Ht); [by right|]. intros k7 H7.
  apply wp_bind. eapply wp_mono; [by apply wp_sema_up|]. intros _ n8 k8 [-> H8].
  destruct (Z.eqb_spec NULL t); [congruence|]. wp_end.
Qed.

Lemma wp_cond_wait c on h k :
  keep = false -> at_ l t keep false on h k ->
  wp l t keep (cond_wait c l) false k (leaves false on true).
Proof.
  intros Hkeep Hk. unfold Preempt.cond_wait. do 3 wp_skip. eapply wp_held; [done|]. intros k3 Ht H3. wp_skip.
  eapply wp_quiet; [by auto with keeps|done|]. intros _ k5 _ H5. wp_skip.
  apply wp_bind. eapply wp_mono; [by eapply wp_lock_release|]. intros _ n8 k8 [-> H8].
  eapply wp_quiet_prog; [by apply quiet_sema_down|done|]. intros _ k9 H9.
  eapply wp_mono; [by eapply wp_lock_acquire|]. by intros ??? [_ ?].
Qed.
End lock.

(** * Calls *)

Create HintDb calm.

Section calls.
Context (l t : Z) (keep : bool).

(** What the other calls leave: everything but perhaps the interrupt level. *)
Definition calm {A} (p : prog A) : Prop :=
  forall n on h k, at_ l t keep n on h k -> wp l t keep p n k (fun _ n' k' => n' = n /\ exists on', at_ l t keep n on' h k').

Lemma quiet_calm {A} (p : prog A) : quiet l t keep p -> calm p.
Proof. intros H n on h k Hk. eapply wp_mono; [by eapply H|]. intros a n' k' [-> ?]. eauto. Qed.

Lemma calm_bind {A B} (p : prog A) (f : A -> prog B) :
  calm p -> (forall a, calm (f a)) -> calm (p ≫= f).
Proof.
  intros Hp Hf n on h k Hk. apply wp_bind. eapply wp_mono; [by eapply Hp|].
  intros a n' k' (-> & on' & Hk'). by eapply Hf.
Qed.

Lemma calm_atom {A} (m : kM A) : keeps (seen l) m -> calm (atom m).
Proof. intros H. by apply quiet_calm, quiet_atom. Qed.

Lemma calm_ret {A} (a : A) : calm (mret a).
Proof. apply quiet_calm, quiet_ret. Qed.

Lemma calm_disable : calm intr_disable.
Proof.
  intros n on h k Hk. pose proof (wp_disable l t keep mret n on h k
    (fun _ n' k' => n' = n /\ exists on', at_ l t keep n on' h k') Hk) as W.
  apply W. intros k' Hk'. apply wp_ret. eauto.
Qed.

Lemma calm_enable : calm intr_enable.
Proof.
  intros n on h k Hk. pose proof (wp_enable l t keep mret n on h k
    (fun _ n' k' => n' = n /\ exists on', at_ l t keep n on' h k') Hk) as W.
  apply W. intros b k' Hk'. apply wp_ret. eauto.
Qed.

Lemma calm_level on' : calm (atom (modify (set_intr_on on'))).
Proof.
  intros n on h k Hk. apply (wp_level l t keep on' mret n on h); [done|]. intros k' Hk'. apply wp_ret. eauto.
Qed.

Lemma calm_block : calm (atom thread_block).
Proof.
  intros n on h k Hk. apply (wp_switch l t keep thread_block mret n on h); [apply thread_block_seen|done|].
  intros b k' Hk'. apply wp_ret. eauto.
Qed.

Lemma calm_while {T B} (s : T) (body : T -> prog (T + B)) :
  (forall s, calm (body s)) -> calm (while s body).
Proof.
  intros Hb n on h k Hk. apply (wp_while _ _ _ (fun _ n' k' => n' = n /\ exists on', at_ l t keep n on' h k')); [eauto|].
  intros s' n' k' (-> & on' & Hk'). eapply wp_mono; [by eapply Hb|]. by intros [?|?].
Qed.
End calls.

#[export] Hint Resolve calm_disable calm_enable calm_level calm_block calm_ret : calm.

Ltac calm_solve := repeat first
  [ solve [auto with calm]
  | solve [apply quiet_calm; auto with quiet]
  | match goal with |- calm _ _ _ (mbind _ _) => apply calm_bind; [|intros] end
  | match goal with |- calm _ _ _ (atom _) => apply calm_atom; seen_solve end
  | match goal with |- calm _ _ _ (while _ _) => apply calm_while; intros end
  | match goal with |- calm _ _ _ (match ?x with _ => _ end) => destruct x end
  | match goal with |- calm _ _ _ (passert _) => apply calm_atom; auto with keeps end ].

Section calls2.
Context (l t : Z) (keep : bool).

Lemma calm_timer_sleep freed queue : calm l t keep (timer_sleep freed queue).
Proof.
  unfold Preempt.timer_sleep. do 2 (apply calm_bind; [calm_solve|intros]). apply calm_bind; [|intros; calm_solve].
  induction freed as [|q freed IH]; calm_solve.
Qed.

Lemma calm_set_priority p stray : calm l t keep (thread_set_priority p stray).
Proof. unfold Preempt.thread_set_priority. calm_solve. Qed.

Lemma calm_idle s : s <> LockSema l -> calm l t keep (idle s).
Proof. intros Hs. pose proof (quiet_sema_up l t keep s Hs). unfold Preempt.idle. calm_solve. Qed.

(** [allocate_tid] has acquired and released its lock when it returns. *)
Lemma wp_allocate_tid on h k :
  at_ l t keep false on h k -> wp l t keep allocate_tid false k (leaves l t keep false on h).
Proof.
  intros Hk. unfold Preempt.allocate_tid. destruct (decide (tid_lock = l)) as [<-|Hl].
  - apply wp_bind. eapply wp_mono; [by eapply wp_lock_acquire|]. intros _ n1 k1 [-> [-> H1]].
    assert (keep = false) as -> by (destruct keep; [discriminate (at_keep _ _ _ _ _ _ _ Hk eq_refl)|done]). do 2 wp_skip. apply wp_bind. eapply wp_mono; [by eapply wp_lock_release|].
    intros ? n4 k4 [-> H4]. by apply wp_ret.
  - assert (quiet l t keep (lock_acquire tid_lock)) as Ha by (by apply quiet_lock_acquire).
    assert (quiet l t keep (lock_release tid_lock)) as Hr by (by apply quiet_lock_release).
    wp_end.
Qed.

Lemma wp_thread_create p page es on h k :
  at_ l t keep false on h k -> wp l t keep (thread_create p page es) false k (leaves l t keep false on h).
Proof.
  intros Hk. unfold Preempt.thread_create. wp_skip. cbv zeta. destruct (page =? NULL); [by apply wp_ret|].
  eapply wp_quiet_prog; [auto with quiet|done|]. intros _ k2 H2.
  apply wp_bind. eapply wp_mono; [by eapply wp_allocate_tid|]. intros tid n3 k3 [-> H3].
  wp_skip. eapply wp_disable; [done|]. intros k5 H5. wp_skip.
  eapply wp_quiet_prog; [quiet_solve|done|]. intros _ k6 H6. do 3 wp_skip.
  eapply wp_set_level; [done|]. intros. wp_end.
Qed.

(** The return from the interrupt of the timer, which came with interrupts on. *)
Lemma wp_intr_return y n h k :
  at_ l t keep n false h k ->
  wp l t keep (intr_return (if y : bool then [CYield; CSetLevel true] else [CSetLevel true])) n k (leaves l t keep n true h).
Proof.
  intros Hk. destruct y; cbn [intr_return].
  - eapply wp_quiet_prog; [auto with quiet|done|]. intros _ k1 H1. by eapply wp_leave.
  - by eapply wp_leave.
Qed.

(** The post-condition of the program of a call: the locks it reports as acquired
    are the thread's, and so is every lock that was and that the call does not give
    up. *)
Definition call_post (c : call) (h : bool) (ls : list Z) (n : bool) (k : kstate) : Prop :=
  n = false /\ cur k = t /\ sound l k n /\
  (h = true -> gives_up c l = false -> holder k l = t) /\ (l ∈ ls -> holder k l = t).

Lemma wp_calm_call c (p : prog unit) on h k :
  calm l t keep p -> at_ l t keep false on h k -> wp l t keep (p;; mret []) false k (call_post c h).
Proof.
  intros Hp Hk. apply wp_bind. eapply wp_mono; [by eapply Hp|]. intros [] n' k' (-> & on' & [Hc Hi Hh Hs _]).
  apply wp_ret. split_and!; [done..| |by intros ?%elem_of_nil]. intros -> _. by apply Z.eqb_eq.
Qed.

Lemma wp_leaves_call c ls (p : prog unit) on h h' k :
  wp l t keep p false k (leaves l t keep false on h') ->
  (h = true -> gives_up c l = false -> h' = true) -> (l ∈ ls -> h' = true) ->
  wp l t keep (p;; mret ls) false k (call_post c h).
Proof.
  intros Hp Hg Hls. apply wp_bind. eapply wp_mono; [by eapply Hp|]. intros [] n' k' [-> [Hc Hi Hh Hs _]].
  apply wp_ret. split_and!; [done..| |]; intros; apply Z.eqb_eq; rewrite Hh; auto.
Qed.

(** A call on another lock, which it may report as acquired. *)
Lemma wp_other_call c l' (p : prog unit) on h k :
  quiet l t keep p -> l' <> l -> at_ l t keep false on h k -> wp l t keep (p;; mret [l']) false k (call_post c h).
Proof.
  intros Hp Hl Hk. apply (wp_leaves_call _ _ _ on h h).
  - by eapply Hp.
  - done.
  - by intros ->%list_elem_of_singleton.
Qed.

Lemma wp_try_acquire_call l' on h k :
  at_ l t keep false on h k -> wp l t keep (routine (LockTryAcquire l')) false k (call_post (LockTryAcquire l') h).
Proof.
  intros Hk. cbn [routine]. apply wp_bind. destruct (decide (l' = l)) as [->|Hl].
  - eapply wp_mono; [by eapply wp_lock_try_acquire|]. intros b n' k' (-> & Hh & [Hc Hi Hb Hs _]).
    apply wp_ret. split_and!; [done..| |].
    + by rewrite Hh.
    + destruct b; [by intros; apply Z.eqb_eq|by intros ?%elem_of_nil].
  - eapply wp_mono; [by eapply quiet_lock_try_acquire|]. intros b n' k' (-> & [Hc Hi Hh Hs _]).
    apply wp_ret. split_and!; [done..| |].
    + intros -> _. by apply Z.eqb_eq.
    + destruct b; [intros ->%list_elem_of_singleton; done|by intros ?%elem_of_nil].
Qed.

(** Every call keeps the unit, and does what it says about the holder. *)
Lemma wp_routine c on h k :
  callable c = true -> (keep = true -> gives_up c l = false) -> at_ l t keep false on h k ->
  wp l t keep (routine c) false k (call_post c h).
Proof.
  intros Hc Hkeep Hk. destruct c as [s|s|s|l'|l'|l'|c l'|c l'|c l'| |p stray|freed queue|p page es|s];
    cbn [routine callable] in *.
  - apply (wp_calm_call _ _ on); [|done]. apply quiet_calm, quiet_sema_down. by destruct s.
  - apply wp_bind. eapply wp_mono; [eapply quiet_sema_try_down; [by destruct s|done]|].
    intros b n' k' (-> & [? ? Hh ? _]). apply wp_ret. split_and!; [done..| |by intros ?%elem_of_nil].
    intros -> _. by apply Z.eqb_eq.
  - apply (wp_calm_call _ _ on); [|done]. apply quiet_calm, quiet_sema_up. by destruct s.
  - destruct (decide (l' = l)) as [->|Hl]; [|by eapply wp_other_call; [by apply quiet_lock_acquire|..]].
    apply (wp_leaves_call _ _ _ on h true); [|done..].
    eapply wp_mono; [by eapply wp_lock_acquire|]. by intros ??? [_ ?].
  - by eapply wp_try_acquire_call.
  - destruct (decide (l' = l)) as [->|Hl].
    + apply (wp_leaves_call _ _ _ on h false); [|cbn; by rewrite Z.eqb_refl|].
      { eapply wp_lock_release; [|done]. cbn in Hkeep. rewrite Z.eqb_refl in Hkeep. destruct keep; auto. }
      by intros ?%elem_of_nil.
    + apply (wp_calm_call _ _ on); [|done]. by apply quiet_calm, quiet_lock_release.
  - destruct (decide (l' = l)) as [->|Hl]; [|by eapply wp_other_call; [by apply quiet_cond_wait|..]].
    apply (wp_leaves_call _ _ _ on h true); [|done..].
    eapply wp_cond_wait; [|done]. cbn in Hkeep. rewrite Z.eqb_refl in Hkeep. destruct keep; auto.
  - apply (wp_calm_call _ _ on); [|done]. apply quiet_calm, quiet_cond_signal.
  - apply (wp_calm_call _ _ on); [|done]. apply quiet_calm, quiet_cond_broadcast.
  - apply (wp_calm_call _ _ on); [|done]. apply quiet_calm, quiet_thread_yield.
  - apply (wp_calm_call _ _ on); [|done]. apply calm_set_priority.
  - apply (wp_calm_call _ _ on); [|done]. apply calm_timer_sleep.
  - apply (wp_leaves_call _ _ _ on h h); [by eapply wp_thread_create|done|by intros ?%elem_of_nil].
  - apply (wp_calm_call _ _ on); [|done]. apply calm_idle. by destruct s.
Qed.
End calls2.

(** * The machine *)

Section invariant.
Context (l : Z).

(** Whether the thread's own code has the lock; nothing it is inside of may then
    remove it as the holder. *)
Definition kept (has : list Z) : bool := bool_decide (l ∈ has).

(** The programs a thread is inside of, to be continued with the unit [n] in its
    hands, at level [on], as the holder or not. *)
Fixpoint frames_ok (t : Z) (fs : list (prog (list Z))) (has : list Z) (n on h : bool) : Prop :=
  match fs with
  | [] => n = false
  | p :: fs => forall k, at_ l t (kept has) n on h k ->
      wp l t (kept has) p n k (fun ls n' k' =>
        frames_ok t fs (ls ++ has) n' (intr_on k') (holder k' l =? t) /\ cur k' = t /\ sound l k' n' /\
        (l ∈ ls ++ has -> holder k' l = t))
  end.

Definition frame_post (t : Z) (fs : list (prog (list Z))) (has : list Z) (ls : list Z) (n : bool) (k : kstate) : Prop :=
  frames_ok t fs (ls ++ has) n (intr_on k) (holder k l =? t) /\ cur k = t /\ sound l k n /\
  (l ∈ ls ++ has -> holder k l = t).

(** A thread in the state [k] of the kernel, whether it runs or not. *)
Definition thread_ok (t : Z) (ts : tstate) (n : bool) (k : kstate) : Prop :=
  (l ∈ has ts -> holder k l = t) /\
  match frames ts with
  | [] => n = false
  | p :: fs => forall k', later l t (kept (has ts)) n k k' -> wp l t (kept (has ts)) p n k' (frame_post t fs (has ts))
  end.

(** [g] is the thread with the unit in its hands. *)
Definition hands (g : option Z) (t : Z) : bool := bool_decide (g = Some t).

Definition out (g : option Z) : Z := match g with Some _ => 1 | None => 0 end.

Record lock_ok (g : option Z) (m : machine) : Prop := {
  ok_sema : is_Some (lock_value l (fst m));
  ok_pos : 0 <= value_of l (fst m);
  ok_units : value_of l (fst m) + is_held l (fst m) + out g = 1;
  ok_hands : forall t, g = Some t -> is_Some (snd m !! t);
  ok_null : snd m !! NULL = None;
  ok_threads : forall t ts, snd m !! t = Some ts -> thread_ok t ts (hands g t) (fst m)
}.

Lemma kept_holder t hs n on h k : at_ l t (kept hs) n on h k -> l ∈ hs -> holder k l = t.
Proof. intros Hk Hl. eapply at_kept; [done|]. by apply bool_decide_eq_true_2. Qed.

Lemma at_self t hs n k :
  cur k = t -> sound l k n -> (l ∈ hs -> holder k l = t) -> at_ l t (kept hs) n (intr_on k) (holder k l =? t) k.
Proof. intros Hc Hs Hh. split; [done..|]. intros Hk%bool_decide_eq_true. apply Z.eqb_eq. auto. Qed.

Lemma later_self t hs n k :
  cur k = t -> sound l k n -> (l ∈ hs -> holder k l = t) -> later l t (kept hs) n k k.
Proof.
  intros Hc Hs Hh. unfold later. case_decide; [done|]. rewrite bool_decide_eq_true_2 by done. by apply at_self.
Qed.

Lemma frame_post_ok t fs has0 ls n k :
  frame_post t fs has0 ls n k -> thread_ok t {| frames := fs; has := ls ++ has0 |} n k.
Proof.
  intros (Hf & Hc & Hs & Hh). split; cbn; [done|]. destruct fs as [|p fs]; cbn in Hf; [done|].
  intros k' L. apply Hf. eapply later_at; [|done]. by apply at_self.
Qed.

(** The holder as another thread sees it. *)
Lemma guar_other t t2 keep n k n' k' :
  guar l t keep n k n' k' -> t2 <> t -> t2 <> NULL -> (holder k' l =? t2) = (holder k l =? t2).
Proof.
  intros G Hne Hn. destruct (guar_holder _ _ _ _ _ _ _ G) as [->|[(-> & -> & _)|[-> ->]]]; [done| |].
  - destruct (Z.eqb_spec t t2), (Z.eqb_spec NULL t2); congruence.
  - destruct (Z.eqb_spec t t2), (Z.eqb_spec NULL t2); congruence.
Qed.

(** What the running thread does is something the others allow for. *)
Lemma thread_ok_other t t2 ts keep n k n' k' n2 :
  thread_ok t2 ts n2 k -> cur k = t -> guar l t keep n k n' k' -> sound l k' n2 -> t2 <> t -> t2 <> NULL ->
  thread_ok t2 ts n2 k'.
Proof.
  intros [Hh Hok] Hc G Hs Hne Hn. pose proof (guar_other _ _ _ _ _ _ _ G Hne Hn) as Eh.
  assert (l ∈ has ts -> holder k' l = t2) as Hh'.
  { intros Hl. apply Z.eqb_eq. rewrite Eh. apply Z.eqb_eq. auto. }
  split; [done|]. destruct (frames ts) as [|p fs]; [done|].
  intros k'' L. apply Hok. unfold later in *. rewrite decide_False by (intros [? _]; congruence).
  rewrite bool_decide_eq_false_2 by congruence. cbn. pose proof (guar_switch _ _ _ _ _ _ _ G) as Hsw.
  case_decide as D.
  - subst k''. destruct D as [D1 D2]. rewrite <- D2, <- Eh. by apply at_self.
  - rewrite <- Eh. destruct (decide (cur k' = t2)) as [E|E].
    + rewrite Hsw in L by congruence. by rewrite andb_false_r in L.
    + by rewrite bool_decide_eq_false_2 in L by done.
Qed.

Lemma hands_self t : hands (Some t) t = true.
Proof. by apply bool_decide_eq_true_2. Qed.

Lemma hands_out g t : Z.b2z (hands g t) <= out g.
Proof. destruct g as [t'|]; [|done]. by destruct (hands _ _). Qed.

Lemma ok_sound g m t : lock_ok g m -> sound l (fst m) (hands g t).
Proof.
  intros [H1 H2 H3 _ _ _]. split; [done..|]. unfold units.
  pose proof (hands_out g t). lia.
Qed.

(** The unit after a step of [t]. *)
Definition pass (g : option Z) (t : Z) (n' : bool) : option Z :=
  if n' then Some t else if decide (g = Some t) then None else g.

Lemma hands_pass_self g t n' : hands (pass g t n') t = n'.
Proof.
  unfold hands, pass. destruct n'; [by apply bool_decide_eq_true_2|].
  apply bool_decide_eq_false_2. by case_decide.
Qed.

Lemma hands_pass_other g t n' t2 :
  t2 <> t -> (n' = true -> g = None \/ g = Some t) -> hands (pass g t n') t2 = hands g t2.
Proof.
  intros Hne Hg. unfold hands, pass. apply bool_decide_ext. destruct n'.
  - destruct (Hg eq_refl) as [-> | ->]; split; congruence.
  - case_decide as E; [rewrite E|done]. split; congruence.
Qed.

(** A step of the running thread. *)
Lemma lock_ok_update g k code t keep ts n' k' ts' :
  lock_ok g (k, code) -> cur k = t -> code !! t = Some ts ->
  guar l t keep (hands g t) k n' k' -> thread_ok t ts' n' k' ->
  lock_ok (pass g t n') (k', <[t := ts']> code).
Proof.
  intros Hok Hc Ht G Hts. pose proof Hok as [H1 H2 H3 H4 H5 H6]. cbn in *.
  assert (t <> NULL) as Htn by congruence.
  pose proof (guar_units _ _ _ _ _ _ _ G) as Hu. pose proof (guar_pos _ _ _ _ _ _ _ G) as Hp.
  pose proof (is_held_range l k') as Hr. unfold units in Hu.
  assert (n' = true -> g = None \/ g = Some t) as Hg.
  { intros ->. destruct g as [t2|]; [|by left]. right. destruct (decide (t2 = t)) as [->|Hne]; [done|].
    assert (hands (Some t2) t = false) as Hh by (apply bool_decide_eq_false_2; congruence).
    rewrite Hh in Hu. cbn in *. lia. }
  assert (value_of l k' + is_held l k' + out (pass g t n') = 1) as Hu'.
  { unfold pass. destruct n'; [|case_decide as E].
    - destruct (Hg eq_refl) as [-> | ->]; [change (hands None t) with false in Hu|rewrite hands_self in Hu];
        cbn in *; lia.
    - rewrite E, hands_self in *. cbn in *. lia.
    - assert (hands g t = false) as Hh by (by apply bool_decide_eq_false_2).
      rewrite Hh in Hu. cbn in Hu. lia. }
  split; cbn; [by apply G|done|done| | |].
  - intros t2. unfold pass. destruct n'; [|case_decide; [done|]].
    + intros [= <-]. rewrite lookup_insert_eq. by eexists.
    + intros Hs. destruct (decide (t2 = t)) as [->|]; [by rewrite lookup_insert_eq; eexists|].
      rewrite lookup_insert_ne by done. auto.
  - by rewrite lookup_insert_ne.
  - intros t2 ts2. destruct (decide (t2 = t)) as [->|Hne].
    + rewrite lookup_insert_eq. intros [= <-]. by rewrite hands_pass_self.
    + rewrite lookup_insert_ne by done. intros E. rewrite hands_pass_other by done.
      eapply thread_ok_other; [by apply H6|done..| |done|congruence].
      split; [by apply G|done|]. unfold units. rewrite <- (hands_pass_other g t n' t2) by done.
      pose proof (hands_out (pass g t n') t2). lia.
Qed.
End invariant.

(** ** Every transition *)

Lemma intr_handler_timer_seen l k cs k' :
  intr_handler_timer k = Ok (cs, k') ->
  lock_value l k' = lock_value l k /\ holder k' l = holder k l /\ cur k' = cur k /\ intr_on k' = false /\
  exists y : bool, cs = if y then [CYield; CSetLevel (intr_on k)] else [CSetLevel (intr_on k)].
Proof.
  intros E. assert (sync k' = sync k) as Es by (by eapply keeps_intr_handler_timer).
  unfold sync in Es. injection Es as E1 E2 _. unfold lock_value, holder. rewrite E1, E2. split; [done|split; [done|]].
  clear E1 E2. unfold intr_handler_timer in E. run_inv E. injection Hr as <- <-.
  run_inv E. injection Hr as <- <-. run_inv E. injection Hr as <- <-.
  run_inv E. apply assert_inv in Hr as [_ ->]. run_inv E. injection Hr as <- <-. run_inv E. injection Hr as <- <-.
  run_inv E. apply stays_timer_interrupt in Hr as [[Hi _] Hc]; [by split|].
  run_inv E. injection Hr as <- <-. run_inv E. injection Hr as <- <-.
  destruct (yield_on_return _); injection E as <- <-; (split_and!; [done..|]); [by exists true|by exists false].
Qed.

Lemma thread_exit_seen l k cs k' :
  thread_exit k = Ok (cs, k') ->
  lock_value l k' = lock_value l k /\ holder k' l = holder k l /\ intr_on k' = false.
Proof.
  intros E. assert (sync k' = sync k) as Es by (by eapply keeps_thread_exit).
  unfold sync in Es. injection Es as E1 E2 _. unfold lock_value, holder. rewrite E1, E2. split_and!; [done..|].
  unfold thread_exit in E. do 9 run_inv E. injection E as _ <-. by apply (schedule_seen l) in Hr7 as (_ & _ & ->).
Qed.

Section steps.
Context (l : Z).

Lemma guar_refl t keep n k :
  sound l k n -> (keep = true -> holder k l = t) -> cur k = t -> guar l t keep n k n k.
Proof. intros Hs Hh Hc. by apply guar_same. Qed.

Lemma gives_up_kept c h : kept l (List.filter (fun l => negb (gives_up c l)) h) = true -> gives_up c l = false.
Proof. intros [_ Hg]%bool_decide_eq_true%list_elem_of_In%filter_In. by apply negb_true_iff. Qed.

Lemma call_ok c t h k :
  callable c = true -> (l ∈ h -> holder k l = t) -> cur k = t -> sound l k false ->
  thread_ok l t {| frames := [routine c]; has := List.filter (fun l => negb (gives_up c l)) h |} false k.
Proof.
  intros Hc Hh Hcur Hs. set (h' := List.filter _ h).
  assert (l ∈ h' -> holder k l = t /\ gives_up c l = false) as Hh'.
  { intros [Hl Hg]%list_elem_of_In%filter_In. split; [by apply Hh, list_elem_of_In|by apply negb_true_iff]. }
  split; cbn; [apply Hh'|]. intros k' L.
  assert (at_ l t (kept l h') false (intr_on k) (holder k l =? t) k) as Hk by (apply at_self; [done..|apply Hh']).
  eapply wp_mono; [eapply wp_routine; [done|apply gives_up_kept|by eapply later_at]|].
  intros ls n' k2 (-> & Hc2 & Hs2 & Hkeep & Hls). split_and!; [done..|].
  intros [Hl|Hl]%elem_of_app; [auto|]. destruct (Hh' Hl). apply Hkeep; [by apply Z.eqb_eq|done].
Qed.

Lemma kernel_thread_ok t h on k :
  at_ l t (kept l []) false on h k ->
  wp l t (kept l []) (kernel_thread;; mret []) false k (frame_post l t [] []).
Proof.
  intros Hk. apply wp_bind. unfold Preempt.kernel_thread. eapply wp_enable; [done|].
  intros b k1 [Hc Hi Hh Hs _]. apply wp_ret, wp_ret. split_and!; [done..|]. by intros ?%elem_of_nil.
Qed.

Lemma spawn_ok c g k code :
  lock_ok l g (k, code) -> page_free c k code -> code !! cur k <> None -> lock_ok l g (k, spawn c code).
Proof.
  intros Hok Hp Hcur. destruct c; try done. cbn in *. destruct (Z.eqb_spec page NULL) as [|Hn]; [done|].
  destruct Hp as [Hp _]. destruct Hok as [H1 H2 H3 H4 H5 H6]; cbn in *. split; cbn; try done.
  - intros t Ht. destruct (H4 t Ht). rewrite lookup_insert_ne by congruence. by eexists.
  - by rewrite lookup_insert_ne.
  - intros t ts. destruct (decide (t = page)) as [->|Hne].
    + rewrite lookup_insert_eq. intros [= <-]. split; cbn; [by intros ?%elem_of_nil|]. intros k' L.
      assert (hands g page = false) as Hg.
      { apply bool_decide_eq_false_2. intros Hg. destruct (H4 _ Hg). congruence. }
      rewrite Hg in *. unfold later in L. rewrite decide_False in L by (intros [E _]; by rewrite E in Hcur).
      by eapply kernel_thread_ok.
    + rewrite lookup_insert_ne by done. apply H6.
Qed.

(** Replacing what the running thread is inside of. *)
Lemma lock_ok_replace g k code ts ts' :
  lock_ok l g (k, code) -> code !! cur k = Some ts -> thread_ok l (cur k) ts' (hands g (cur k)) k ->
  lock_ok l g (k, <[cur k := ts']> code).
Proof.
  intros Hok Ht Hts. pose proof (ok_sound _ _ _ (cur k) Hok) as Hs.
  assert (guar l (cur k) false (hands g (cur k)) k (hands g (cur k)) k) as G by (by apply guar_refl).
  pose proof (lock_ok_update l g k code (cur k) false ts _ k ts' Hok eq_refl Ht G Hts) as H.
  assert (pass g (cur k) (hands g (cur k)) = g) as E; [|by rewrite E in H].
  unfold pass, hands. destruct (bool_decide_reflect (g = Some (cur k))); [done|]. by rewrite decide_False.
Qed.

Lemma step_call_ok g k code c h :
  lock_ok l g (k, code) -> code !! cur k = Some {| frames := []; has := h |} -> callable c = true ->
  page_free c k code ->
  lock_ok l g (k, spawn c (<[cur k := {| frames := [routine c];
                                         has := List.filter (fun l => negb (gives_up c l)) h |}]> code)).
Proof.
  intros Hok Ht Hc Hp. pose proof (ok_threads _ _ _ Hok _ _ Ht) as [Hh Hn]. cbn in Hn, Hh.
  pose proof (ok_sound _ _ _ (cur k) Hok) as Hs. cbn in Hs. rewrite Hn in Hs.
  apply spawn_ok.
  - eapply lock_ok_replace; [done..|]. rewrite Hn. by apply call_ok.
  - destruct c; try done. cbn in *. destruct Hp as [Hp ?]. split; [|done].
    rewrite lookup_insert_ne; [done|]. congruence.
  - by rewrite lookup_insert_eq.
Qed.

Lemma step_access_ok g k code p fs h p' k' :
  lock_ok l g (k, code) -> code !! cur k = Some {| frames := p :: fs; has := h |} -> pstep p k = Ok (p', k') ->
  exists g', lock_ok l g' (k', <[cur k := {| frames := p' :: fs; has := h |}]> code) /\
    exists keep n', guar l (cur k) keep (hands g (cur k)) k n' k'.
Proof.
  intros Hok Ht E. pose proof (ok_sound _ _ _ (cur k) Hok) as Hs. cbn in Hs.
  pose proof (ok_threads _ _ _ Hok _ _ Ht) as [Hh Hts]. cbn in Hts, Hh.
  pose proof (Hts k (later_self _ _ _ _ _ eq_refl Hs Hh)) as W.
  destruct (wp_step _ _ _ _ _ _ _ _ _ W E) as [[a ->]|[(n' & G & W')|[-> W']]].
  - injection E as <- <-. exists g. split; [by eapply lock_ok_replace|].
    exists false, (hands g (cur k)). by apply guar_refl.
  - exists (pass g (cur k) n'). split; [|by do 2 eexists]. eapply lock_ok_update; [done..|].
    split; cbn; [|done]. intros Hl. apply (guar_keep _ _ _ _ _ _ _ G). by apply bool_decide_eq_true_2.
  - exists g. split; [|exists false, (hands g (cur k)); by apply guar_refl].
    eapply lock_ok_replace; [done..|]. split; cbn; [done|]. intros k2 L. by apply W', Hts.
Qed.

Lemma step_return_ok g k code ls fs h :
  lock_ok l g (k, code) -> code !! cur k = Some {| frames := Ret ls :: fs; has := h |} ->
  lock_ok l g (k, <[cur k := {| frames := fs; has := ls ++ h |}]> code).
Proof.
  intros Hok Ht. pose proof (ok_sound _ _ _ (cur k) Hok) as Hs. cbn in Hs.
  pose proof (ok_threads _ _ _ Hok _ _ Ht) as [Hh Hts]. cbn in Hts, Hh.
  eapply lock_ok_replace; [done..|]. apply frame_post_ok. apply Hts. by apply later_self.
Qed.

Lemma lock_ok_delete g k code t :
  lock_ok l g (k, code) -> hands g t = false -> lock_ok l g (k, delete t code).
Proof.
  intros [H1 H2 H3 H4 H5 H6] Hn%bool_decide_eq_false; cbn in *. split; cbn; try done.
  - intros t2 Ht2. rewrite lookup_delete_ne by congruence. auto.
  - rewrite lookup_delete_None. auto.
  - intros t2 ts [_ Hts]%lookup_delete_Some. auto.
Qed.

Lemma step_exit_ok g k code h cs k' :
  lock_ok l g (k, code) -> code !! cur k = Some {| frames := []; has := h |} -> thread_exit k = Ok (cs, k') ->
  lock_ok l (pass g (cur k) false) (k', delete (cur k) code) /\ holder k' l = holder k l.
Proof.
  intros Hok Ht E. apply (thread_exit_seen l) in E as (Ev & Eh & Ei). split; [|done].
  pose proof (ok_threads _ _ _ Hok _ _ Ht) as [_ Hn]. cbn in Hn.
  assert (guar l (cur k) false (hands g (cur k)) k false k') as G.
  { pose proof (ok_sound _ _ _ (cur k) Hok) as Hs. rewrite Hn in *. by apply guar_same. }
  rewrite <- (delete_insert_eq code (cur k) {| frames := []; has := [] |}).
  apply lock_ok_delete; [|apply hands_pass_self]. eapply lock_ok_update; [done..|].
  split; [by intros ?%elem_of_nil|done].
Qed.

Lemma step_timer_ok g k code fs h cs k' :
  lock_ok l g (k, code) -> code !! cur k = Some {| frames := fs; has := h |} -> intr_on k = true ->
  intr_handler_timer k = Ok (cs, k') ->
  lock_ok l g (k', <[cur k := {| frames := (intr_return cs;; mret []) :: fs; has := h |}]> code) /\
  holder k' l = holder k l.
Proof.
  intros Hok Ht Hon E. apply (intr_handler_timer_seen l) in E as (Ev & Eh & Ec & Ei & y & ->). split; [|done].
  pose proof (ok_sound _ _ _ (cur k) Hok) as Hs. cbn in Hs. set (n := hands g (cur k)) in *.
  assert (guar l (cur k) false n k n k') as G by (by apply guar_same).
  assert (pass g (cur k) n = g) as Eg.
  { unfold pass, n, hands. destruct (bool_decide_reflect (g = Some (cur k))); [done|]. by rewrite decide_False. }
  pose proof (ok_threads _ _ _ Hok _ _ Ht) as [Hh Hts]. cbn in Hts, Hh. fold n in Hts.
  rewrite <- Eg. eapply lock_ok_update; [done..|]. split; cbn; [by rewrite Eh|]. rewrite Hon.
  assert (at_ l (cur k) (kept l h) n false (holder k l =? cur k) k') as Hk'.
  { eapply at_same; [by apply at_self|done..]. }
  intros k2 L. apply wp_bind. eapply wp_mono; [eapply wp_intr_return; by eapply later_at|].
  intros [] n' k3 [-> Hk3]. apply wp_ret. pose proof Hk3 as [Hc3 Hi3 Hh3 Hs3 _].
  split; [|split_and!; [done..|by eapply kept_holder]]. rewrite Hi3, Hh3. cbn [app].
  destruct fs as [|p fs]; cbn; [done|]. intros k4 H4. apply Hts. unfold later.
  rewrite decide_False by (intros [_ ?]; congruence). by rewrite Hon, bool_decide_eq_true_2.
Qed.

(** Who a transition makes the holder. *)
Definition holder_change (k k' : kstate) : Prop :=
  holder k' l = holder k l \/
  (holder k l = NULL /\ holder k' l = cur k /\ cur k <> NULL) \/
  (holder k l = cur k /\ holder k' l = NULL).

Lemma step_ok m m' :
  step m m' -> (exists g, lock_ok l g m) -> (exists g, lock_ok l g m') /\ holder_change (fst m) (fst m').
Proof.
  intros Hstep [g Hok]. destruct Hstep as [k code c h Ht Hc Hp|k code p fs h p' k' Ht E|k code ls fs h Ht
    |k code h cs k' Ht E|k code fs h cs k' Ht Hi E]; cbn.
  - split; [|by left]. exists g. by apply step_call_ok.
  - destruct (step_access_ok _ _ _ _ _ _ _ _ Hok Ht E) as (g' & Hok' & kp & n' & G).
    split; [by exists g'|]. exact (guar_holder _ _ _ _ _ _ _ G).
  - split; [|by left]. exists g. by apply step_return_ok.
  - destruct (step_exit_ok _ _ _ _ _ _ Hok Ht E). split; [by eexists|by left].
  - destruct (step_timer_ok _ _ _ _ _ _ _ Hok Ht Hi E). split; [by eexists|by left].
Qed.

Lemma rtc_ok m m' : rtc step m m' -> (exists g, lock_ok l g m) -> exists g, lock_ok l g m'.
Proof. induction 1 as [|m m1 m' Hs _ IH]; [done|]. intros H. apply IH. by apply (step_ok m m1). Qed.
End steps.

(** * Theorems *)

(** A lock as [lock_init] leaves it, when no thread is inside the kernel. *)
Definition free_lock (l : Z) (m : machine) : Prop :=
  semas (fst m) !! LockSema l = Some {| value := 1; waiters := [] |} /\ holder (fst m) l = NULL /\
  snd m !! NULL = None /\
  map_Forall (fun _ ts => frames ts = [] /\ has ts = []) (snd m).

Lemma free_lock_ok l m : free_lock l m -> lock_ok l None m.
Proof.
  destruct m as [k code]. intros (Hs & Hh & Hn & Hc). cbn in *.
  assert (lock_value l k = Some 1) as Ev by (unfold lock_value; by rewrite Hs).
  split; cbn; unfold value_of, is_held; rewrite ?Ev, ?Hh; try done.
  - intros t ts Ht. destruct (Hc _ _ Ht) as [E1 E2]. unfold thread_ok. rewrite E1, E2.
    split; [by intros ?%elem_of_nil|done].
Qed.

(** C1: Locks exclude.  Start from any kernel state in which lock [l] is free and
    every thread is in its own code, and let the threads call the routines of
    synch.c, yield, sleep, create threads and exit in any order, with a timer
    interrupt, and the switch it may lead to, between any two memory accesses made
    with interrupts on.  Then the lock's semaphore is 0 or 1, and 1 only when nobody
    holds the lock; a thread whose own code has acquired the lock and not yet begun
    to release it is the holder, so that there is never more than one; and every
    further step leaves the holder as it is, or enters the running thread where
    there was no holder, or is the running thread giving up its own lock. *)
Theorem lock_mutual_exclusion l m0 k code :
  free_lock l m0 -> rtc step m0 (k, code) ->
  (value_of l k = 0 \/ value_of l k = 1 /\ holder k l = NULL) /\
  (forall t ts, code !! t = Some ts -> l ∈ has ts -> holder k l = t) /\
  (forall t1 t2 ts1 ts2, code !! t1 = Some ts1 -> code !! t2 = Some ts2 -> l ∈ has ts1 -> l ∈ has ts2 -> t1 = t2) /\
  (forall m', step (k, code) m' -> holder_change l k (fst m')).
Proof.
  intros Hf%free_lock_ok Hr. destruct (rtc_ok l _ _ Hr) as [g Hok]; [by exists None|].
  assert (forall t ts, code !! t = Some ts -> l ∈ has ts -> holder k l = t) as Hhas.
  { intros t ts Ht Hl. by destruct (ok_threads _ _ _ Hok _ _ Ht) as [Hh _]; apply Hh. }
  split_and!; [|done|intros t1 t2 ts1 ts2 H1 H2 Hl1 Hl2; trans (holder k l); [symmetry|]; eauto|].
  - pose proof (ok_pos _ _ _ Hok). pose proof (ok_units _ _ _ Hok). cbn in *. unfold is_held in *.
    assert (0 <= out g) by (by destruct g). destruct (Z.eqb_spec (holder k l) NULL); lia.
  - intros m' Hs. apply (step_ok l (k, code) m'); [done|]. by exists g.
Qed.

(** * Concrete runs *)

(** A script: the actions, and letting the running thread go on until it is back in
    its own code. *)
Inductive script :=
| Do (a : action)
| Settle.

Fixpoint settle (fuel : nat) (m : machine) : machine :=
  match fuel with
  | O => m
  | S fuel =>
      match frames <$> snd m !! cur (fst m) with
      | Some [] | None => m
      | _ => match act AStep m with Some m' => settle fuel m' | None => m end
      end
  end.

Definition perform (m : machine) (s : script) : machine :=
  match s with
  | Do a => default m (act a m)
  | Settle => settle 500 m
  end.

Lemma settle_steps fuel m : rtc step m (settle fuel m).
Proof.
  revert m. induction fuel as [|fuel IH]; intros m; cbn [settle]; [done|].
  destruct (frames <$> _) as [[|p fs]|]; [done| |done].
  destruct (act AStep m) as [m'|] eqn:E; [|done]. eapply rtc_l; [by eapply act_transition|done].
Qed.

Lemma perform_steps ss m : rtc step m (foldl perform m ss).
Proof.
  revert m. induction ss as [|s ss IH]; intros m; cbn [foldl]; [done|]. etrans; [|by apply IH].
  destruct s as [a|]; cbn [perform]; [|apply settle_steps].
  destruct (act a m) as [m'|] eqn:E; cbn; [|done]. by eapply rtc_once, act_transition.
Qed.

(** Just after boot: the main thread at 4096 runs alone, with locks at 77 and 78. *)
Definition start : machine := (fst boot, {[ 4096 := {| frames := []; has := [] |} ]}).

(** The main thread is interrupted on its way into the lock, comes through, and
    creates a thread of higher priority, which runs into the lock, donates and
    blocks; back in its own code the main thread is interrupted again. *)
Definition rivalry : list script :=
  [Do (ACall (LockAcquire 77))] ++ replicate 12 (Do AStep) ++ [Do ATimer; Settle;
   Do (ACall (ThreadCreate 40 8192 500)); Settle; Do (ACall (LockAcquire 77)); Settle; Settle; Do ATimer].

Definition rivals : machine := foldl perform start rivalry.

Lemma lock_mutual_exclusion_witness :
  let k := fst rivals in let code := snd rivals in
  has <$> code !! 4096 = Some [77] /\ length ∘ frames <$> code !! 8192 = Some 1%nat /\
  waiters <$> semas k !! LockSema 77 = Some [8192] /\
  (value_of 77 k = 0 \/ value_of 77 k = 1 /\ holder k 77 = NULL) /\
  (forall t ts, code !! t = Some ts -> 77 ∈ has ts -> holder k 77 = t) /\
  (forall m', step (k, code) m' -> holder_change 77 k (fst m')).
Proof.
  intros k code. do 3 (split; [by vm_compute|]).
  destruct (lock_mutual_exclusion 77 start k code) as (H1 & H2 & _ & H3); [| |done].
  - split; [by vm_compute|]. split; [by vm_compute|]. split; [by vm_compute|]. by apply map_Forall_singleton.
  - unfold k, code. rewrite <- surjective_pairing. apply perform_steps.
Defined.
