(* ===== verification/Sched.v ===== *)
(** The scheduler: the ready list holds exactly the threads that are ready, one
    thread runs, and the ready list is kept by priority. *)
From Stdlib Require Import ZArith Lia.
From stdpp Require Import base numbers sorting gmap list relations.
From S2P Require Import Prelude.
From S2P Require Import FixedPoint.
From S2P Require Import Thread.
From S2P Require Import Machine.

Local Open Scope Z_scope.

(** * Routines that keep an invariant *)

Definition preserves {S A} (I : S -> Prop) (m : st S A) : Prop :=
  forall s a s', I s -> m s = Ok (a, s') -> I s'.

Lemma preserves_bind {S A B} (I : S -> Prop) (m : st S A) (f : A -> st S B) :
  preserves I m -> (forall a, preserves I (f a)) -> preserves I (m ≫= f).
Proof. intros Hm Hf s b s'' Hi (a & s' & H1 & H2)%run_bind_inv. eapply Hf; [by eapply Hm|done]. Qed.

Lemma keeps_preserves {S A B} (I : S -> Prop) (proj : S -> B) (m : st S A) :
  (forall s s', proj s' = proj s -> I s -> I s') -> keeps proj m -> preserves I m.
Proof. intros HI Hk s a s' Hi H. eapply HI; [by eapply Hk|done]. Qed.

(** * What the scheduler works on *)

Definition stat (k : kstate) : gmap Z thread_status := status <$> threads k.

Definition sched_view (k : kstate) : list Z * Z * Z * Z * gmap Z thread_status :=
  (ready_list k, ready_threads k, cur k, idle_thread k, stat k).

(** The part of the invariant that holds also in the middle of a switch. *)
Record listed (k : kstate) : Prop := {
  li_nodup : NoDup (ready_list k);
  li_ready : forall t, t ∈ ready_list k -> stat k !! t = Some THREAD_READY;
  li_listed : forall t, stat k !! t = Some THREAD_READY -> t <> idle_thread k -> t ∈ ready_list k;
  li_count : ready_threads k = s32 (Zlen (ready_list k))
}.

(** The ready list has every ready thread but the idle thread, once, the counter
    is its length, and the one running thread is [cur]. *)
Record sched_inv (k : kstate) : Prop := {
  si_listed : listed k;
  si_cur : forall t, stat k !! t = Some THREAD_RUNNING <-> t = cur k
}.

Lemma sched_inv_view k k' : sched_view k' = sched_view k -> sched_inv k -> sched_inv k'.
Proof.
  unfold sched_view. intros [= E1 E2 E3 E4 E5] [[H1 H2 H3 H4] H5].
  split; [split|]; rewrite ?E1, ?E2, ?E3, ?E4, ?E5; done.
Qed.

(** ** Reading and writing statuses *)

Lemma stat_insert t th (m : gmap Z thread) : status <$> <[t := th]> m = <[t := status th]> (status <$> m).
Proof. apply fmap_insert. Qed.

Lemma keeps_upd_quiet t f : (forall th, status (f th) = status th) -> keeps sched_view (upd_thread t f).
Proof.
  intros Hf k a k' H. unfold upd_thread in H. destruct (threads k !! t) as [th|] eqn:E; [|done].
  injection H as <- <-. unfold sched_view, stat; cbn.
  rewrite stat_insert, Hf, insert_id; [done|]. by rewrite lookup_fmap, E.
Qed.

Lemma upd_status_inv t v k a k' :
  upd_thread t (set_status v) k = Ok (a, k') ->
  is_Some (stat k !! t) /\ stat k' = <[t := v]> (stat k) /\
  ready_list k' = ready_list k /\ ready_threads k' = ready_threads k /\ cur k' = cur k /\
  idle_thread k' = idle_thread k /\ intr_on k' = intr_on k.
Proof.
  unfold upd_thread. destruct (threads k !! t) as [th|] eqn:E; [|done]. intros [= <- <-].
  unfold stat; cbn. rewrite stat_insert, lookup_fmap, E. eauto 8.
Qed.

Lemma s32_step a d : s32 (s32 a + d) = s32 (a + d).
Proof.
  unfold swrap. f_equal.
  replace ((a + 2 ^ (32 - 1)) mod 2 ^ 32 - 2 ^ (32 - 1) + d + 2 ^ (32 - 1))
    with ((a + 2 ^ (32 - 1)) mod 2 ^ 32 + d) by lia.
  rewrite Zplus_mod_idemp_l. f_equal. lia.
Qed.

(** ** Insertion into the ready list *)

Lemma unblock_insert_perm k t r : unblock_insert k t r ≡ₚ t :: r.
Proof.
  induction r as [|e r IH]; cbn; [done|]. case_match; [done|]. rewrite IH. apply Permutation_swap.
Qed.

Lemma yield_insert_perm k t r : yield_insert k t r ≡ₚ t :: r.
Proof.
  induction r as [|e r IH]; cbn; [done|]. case_match; [done|]. rewrite IH. apply Permutation_swap.
Qed.

Lemma yield_insert_ext k k' t r :
  (forall t, prio k' t = prio k t) -> yield_insert k' t r = yield_insert k t r.
Proof. intros H. induction r as [|e r IH]; cbn; [done|]. by rewrite !H, IH. Qed.

Lemma listed_insert k k' t :
  listed k -> t ∉ ready_list k -> ready_list k' ≡ₚ t :: ready_list k ->
  ready_threads k' = s32 (ready_threads k + 1) -> stat k' = <[t := THREAD_READY]> (stat k) ->
  idle_thread k' = idle_thread k -> listed k'.
Proof.
  intros [H1 H2 H3 H4] Ht Hr Hn Hs Hi. split.
  - rewrite Hr. by apply NoDup_cons.
  - intros t'. rewrite Hr, Hs. intros [->|Hin]%elem_of_cons; [by rewrite lookup_insert_eq|].
    rewrite lookup_insert_ne by (by intros ->). by apply H2.
  - intros t'. rewrite Hs, Hi, Hr. intros Hl Hne. destruct (decide (t' = t)) as [->|Hd]; [left|right].
    rewrite lookup_insert_ne in Hl by done. by apply H3.
  - rewrite Hn, H4, s32_step, (Permutation_length Hr). f_equal. cbn [length]. lia.
Qed.

Lemma listed_status k k' t v :
  listed k -> t ∉ ready_list k -> v <> THREAD_READY \/ t = idle_thread k ->
  ready_list k' = ready_list k -> ready_threads k' = ready_threads k ->
  stat k' = <[t := v]> (stat k) -> idle_thread k' = idle_thread k -> listed k'.
Proof.
  intros [H1 H2 H3 H4] Ht Hv Hr Hn Hs Hi. split; rewrite ?Hr, ?Hn; try done.
  - intros t' Hin. rewrite Hs, lookup_insert_ne by (by intros <-). by apply H2.
  - intros t'. rewrite Hs, Hi. intros Hl Hne. destruct (decide (t' = t)) as [->|Hd].
    + rewrite lookup_insert_eq in Hl. destruct Hv; congruence.
    + rewrite lookup_insert_ne in Hl by done. by apply H3.
Qed.

Lemma not_ready_not_listed k t v :
  listed k -> stat k !! t = Some v -> v <> THREAD_READY -> t ∉ ready_list k.
Proof. intros [_ H2 _ _] Hs Hv Hin. apply H2 in Hin. congruence. Qed.

Lemma intr_disable_run k : intr_disable k = Ok (intr_on k, set_intr_on false k).
Proof. reflexivity. Qed.

(** * The switch *)

(** In the middle of a switch no thread is marked as running. *)
Record between (k : kstate) : Prop := {
  be_listed : listed k;
  be_none : forall t, stat k !! t <> Some THREAD_RUNNING
}.

(** Popping the head of the ready list and running it. *)
Lemma listed_pop k k' t r :
  listed k -> ready_list k = t :: r -> ready_list k' = r -> ready_threads k' = s32 (ready_threads k - 1) ->
  stat k' = <[t := THREAD_RUNNING]> (stat k) -> idle_thread k' = idle_thread k -> listed k'.
Proof.
  intros [H1 H2 H3 H4] Hr Hr' Hn Hs Hi. rewrite Hr in *. apply NoDup_cons in H1 as [Ht H1].
  split; rewrite ?Hr'; try done.
  - intros t' Hin. rewrite Hs, lookup_insert_ne by (by intros <-). apply H2. by right.
  - intros t'. rewrite Hs, Hi. intros Hl Hne. destruct (decide (t' = t)) as [->|Hd].
    + by rewrite lookup_insert_eq in Hl.
    + rewrite lookup_insert_ne in Hl by done. apply H3 in Hl; [|done]. set_solver.
  - rewrite Hn, H4. rewrite <- Z.add_opp_r, s32_step. f_equal. cbn [length]. lia.
Qed.

Lemma running_insert k k' t :
  (forall t', stat k !! t' <> Some THREAD_RUNNING) -> stat k' = <[t := THREAD_RUNNING]> (stat k) ->
  cur k' = t -> forall t', stat k' !! t' = Some THREAD_RUNNING <-> t' = cur k'.
Proof.
  intros Hn Hs Hc t'. rewrite Hs, Hc. destruct (decide (t' = t)) as [->|Hd].
  - by rewrite lookup_insert_eq.
  - rewrite lookup_insert_ne by done. split; [by intros ?%Hn|done].
Qed.

(** Freeing the page of a thread that is dying. *)
Lemma sched_inv_delete k k' t :
  sched_inv k -> stat k !! t = Some THREAD_DYING ->
  threads k' = delete t (threads k) -> ready_list k' = ready_list k -> ready_threads k' = ready_threads k ->
  cur k' = cur k -> idle_thread k' = idle_thread k -> sched_inv k'.
Proof.
  intros [[H1 H2 H3 H4] H5] Hd Ht Hr Hn Hc Hi.
  assert (stat k' = delete t (stat k)) as Hs by (unfold stat; by rewrite Ht, fmap_delete).
  split; [split|]; rewrite ?Hr, ?Hn, ?Hc, ?Hi; try done.
  - intros t' Hin. apply H2 in Hin as Hin'. rewrite Hs, lookup_delete_ne; congruence.
  - intros t'. rewrite Hs. intros [Hne Hl]%lookup_delete_Some. by apply H3.
  - intros t'. rewrite Hs, lookup_delete_Some, H5. split; [naive_solver|]. intros ->. split; [|done].
    intros ->. specialize (H5 (cur k)). naive_solver.
Qed.

Lemma schedule_tail_inv prev k a k' k0 :
  thread_schedule_tail prev k = Ok (a, k') ->
  between k0 -> stat k = stat k0 -> idle_thread k = idle_thread k0 ->
  (forall k1, stat k1 = <[cur k := THREAD_RUNNING]> (stat k) -> ready_list k1 = ready_list k ->
     ready_threads k1 = ready_threads k -> idle_thread k1 = idle_thread k -> listed k1) ->
  sched_inv k' /\ cur k' = cur k.
Proof.
  intros H [_ Hn] Hs Hi Hl. unfold thread_schedule_tail in H.
  run_inv H. injection Hr as <- <-. run_inv H. injection Hr as <- <-.
  run_inv H. apply assert_inv in Hr as [_ ->]. run_inv H.
  apply upd_status_inv in Hr as (_ & S1 & S2 & S3 & S4 & S5 & _).
  run_inv H. injection Hr as <- <-. run_inv H. injection Hr as <- <-.
  assert (sched_inv k1) as Hk1.
  { split; [by apply Hl|]. apply (running_insert k k1 (cur k)); [|done..]. intros t'. rewrite Hs. apply Hn. }
  assert (sched_inv (set_thread_ticks 0 k1)) as Hk2 by (by apply (sched_inv_view k1)).
  destruct (prev =? NULL); [by injection H as <- <-|].
  run_inv H. apply get_thread_inv in Hr as [Hth ->].
  case_match; [|by injection H as <- <-].
  apply andb_true_iff in H0 as [Hd%bool_decide_eq_true _].
  run_inv H. apply assert_inv in Hr as [_ ->]. run_inv H. injection Hr as <- <-. injection H as <- <-.
  split; [|done]. eapply (sched_inv_delete _ _ prev Hk2); try done.
  unfold stat. cbn in *. by rewrite lookup_fmap, Hth, <- Hd.
Qed.

(** What [schedule] returns to: the head of the ready list, or the idle thread. *)
Definition successor (k : kstate) : Z :=
  match ready_list k with
  | [] => idle_thread k
  | t :: _ => t
  end.

Lemma schedule_inv k a k' :
  schedule k = Ok (a, k') -> between k -> sched_inv k' /\ cur k' = successor k.
Proof.
  intros H Hb. unfold schedule in H. run_inv H. injection Hr as <- <-. run_inv H.
  run_inv H. injection Hr0 as <- <-. run_inv H. apply assert_inv in Hr0 as [_ ->].
  run_inv H. apply get_thread_inv in Hr0 as [Hth ->]. run_inv H. apply assert_inv in Hr0 as [_ ->].
  run_inv H. injection Hr0 as <- <-. run_inv H. apply assert_inv in Hr0 as [Hnx ->].
  assert (a0 = successor k /\ stat k0 = stat k /\ idle_thread k0 = idle_thread k /\ cur k0 = cur k /\
    forall k2, stat k2 = <[a0 := THREAD_RUNNING]> (stat k) -> ready_list k2 = ready_list k0 ->
     ready_threads k2 = ready_threads k0 -> idle_thread k2 = idle_thread k -> listed k2)
    as (-> & Hs & Hi & Hc & Hl).
  { unfold next_thread_to_run in Hr. run_inv Hr. injection Hr0 as <- <-. unfold successor.
    pose proof (be_listed _ Hb) as Hli.
    destruct (ready_list k) as [|t r] eqn:Er.
    - injection Hr as <- <-. split_and!; try done. intros k2 S1 S2 S3 S4.
      eapply (listed_status k k2 (idle_thread k) THREAD_RUNNING); [done|rewrite Er; set_solver|by left|congruence..].
    - run_inv Hr. injection Hr0 as <- <-. run_inv Hr. injection Hr0 as <- <-. run_inv Hr.
      injection Hr0 as <- <-. injection Hr as <- <-. split_and!; try done. intros k2 S1 S2 S3 S4.
      by eapply (listed_pop k k2). }
  case_match eqn:Ec.
  - run_inv H. injection Hr0 as <- <-. eapply schedule_tail_inv in H as [H1 H2]; [|done..|].
    + by rewrite H2.
    + intros k2 S1 S2 S3 S4. apply Hl; [by rewrite <- Hs|done|done|by rewrite <- Hi].
  - apply negb_false_iff, Z.eqb_eq in Ec.
    eapply schedule_tail_inv in H as [H1 H2]; [|done..|].
    + by rewrite H2, Hc.
    + intros k2 S1 S2 S3 S4. apply Hl; congruence.
Qed.

(** ** The three ways to give up the CPU *)

Lemma cur_not_listed k : sched_inv k -> stat k !! cur k = Some THREAD_RUNNING /\ cur k ∉ ready_list k.
Proof.
  intros [Hl Hc]. assert (stat k !! cur k = Some THREAD_RUNNING) as E by (by apply Hc).
  split; [done|]. by eapply not_ready_not_listed.
Qed.

Lemma stop_running k k' v :
  sched_inv k -> stat k' = <[cur k := v]> (stat k) -> v <> THREAD_RUNNING ->
  forall t, stat k' !! t <> Some THREAD_RUNNING.
Proof.
  intros [_ Hc] Hs Hv t. rewrite Hs. destruct (decide (t = cur k)) as [->|Hd].
  - rewrite lookup_insert_eq. congruence.
  - rewrite lookup_insert_ne by done. intros ?%Hc. congruence.
Qed.

Lemma thread_block_inv k a k' :
  thread_block k = Ok (a, k') -> sched_inv k -> sched_inv k' /\ cur k' = successor k.
Proof.
  intros H Hi. unfold thread_block in H. run_inv H. injection Hr as <- <-.
  run_inv H. apply assert_inv in Hr as [_ ->]. run_inv H. injection Hr as <- <-.
  run_inv H. apply assert_inv in Hr as [_ ->]. run_inv H. apply thread_current_run in Hr as (-> & -> & _ & _).
  run_inv H. apply upd_status_inv in Hr as (_ & S1 & S2 & S3 & S4 & S5 & _).
  destruct (cur_not_listed k Hi) as [_ Hnl].
  assert (between k0) as Hb.
  { split; [|by eapply stop_running]. eapply (listed_status k k0 (cur k) THREAD_BLOCKED); try done; [apply Hi|by left]. }
  apply schedule_inv in H as [H1 H2]; [|done]. split; [done|]. rewrite H2. unfold successor. by rewrite S2, S5.
Qed.

Lemma thread_yield_inv k cs k' :
  thread_yield k = Ok (cs, k') -> sched_inv k ->
  sched_inv k' /\
  cur k' = if cur k =? idle_thread k then successor k
           else hd NULL (yield_insert k (cur k) (ready_list k)).
Proof.
  intros H Hi. unfold thread_yield in H. run_inv H. apply thread_current_run in Hr as (-> & -> & _ & _).
  run_inv H. injection Hr as <- <-. run_inv H. apply assert_inv in Hr as [_ ->].
  run_inv H. rewrite intr_disable_run in Hr. injection Hr as <- <-. run_inv H. injection Hr as <- <-. run_inv H. run_inv H.
  apply upd_status_inv in Hr0 as (_ & S1 & S2 & S3 & S4 & S5 & _). run_inv H. injection H as <- <-.
  destruct (cur_not_listed k Hi) as [_ Hnl].
  assert (stat k0 = stat k /\ idle_thread k0 = idle_thread k /\ cur k0 = cur k /\
    ready_list k0 = (if cur k =? idle_thread k then ready_list k else yield_insert k (cur k) (ready_list k)) /\
    ready_threads k0 = (if cur k =? idle_thread k then ready_threads k else s32 (ready_threads k + 1)))
    as (T1 & T2 & T3 & T4 & T5).
  { cbn in Hr. destruct (cur k =? idle_thread k); cbn in Hr; [by injection Hr as <- <-|].
    repeat (run_inv Hr; injection Hr1 as <- <-). injection Hr as <- <-. split_and!; try done.
    by apply yield_insert_ext. }
  assert (stat k1 = <[cur k := THREAD_READY]> (stat k)) as Hs by (by rewrite S1, T1).
  assert (between k1) as Hb.
  { split; [|by eapply stop_running].
    destruct (Z.eqb_spec (cur k) (idle_thread k)) as [Ei|Ei].
    - eapply (listed_status k k1 (cur k) THREAD_READY); try congruence; [apply Hi|by right].
    - eapply (listed_insert k k1 (cur k)); try congruence; [apply Hi|].
      rewrite S2, T4. apply yield_insert_perm. }
  apply schedule_inv in Hr0 as [H1 H2]; [|done]. split; [done|]. rewrite H2. unfold successor.
  rewrite S2, T4, S5, T2. case_match; [done|]. by destruct (yield_insert k (cur k) (ready_list k)) eqn:E;
    [pose proof (yield_insert_perm k (cur k) (ready_list k)) as Hp; rewrite E in Hp;
     apply Permutation_nil_cons in Hp|].
Qed.

Lemma thread_exit_inv k cs k' :
  thread_exit k = Ok (cs, k') -> sched_inv k -> sched_inv k' /\ cur k' = successor k.
Proof.
  intros H Hi. unfold thread_exit in H. run_inv H. injection Hr as <- <-.
  run_inv H. apply assert_inv in Hr as [_ ->]. run_inv H. rewrite intr_disable_run in Hr. injection Hr as <- <-.
  run_inv H. apply thread_current_run in Hr as (-> & -> & _ & _). run_inv H. injection Hr as <- <-.
  run_inv H. apply (keeps_unlink id) in Hr; unfold id in Hr; subst. run_inv H. injection Hr as <- <-.
  run_inv H. apply upd_status_inv in Hr as (_ & S1 & S2 & S3 & S4 & S5 & _). run_inv H. injection H as <- <-.
  destruct (cur_not_listed k Hi) as [_ Hnl]. cbn in *.
  assert (between k0) as Hb.
  { split; [|by apply (stop_running k k0 THREAD_DYING)].
    eapply (listed_status k k0 (cur k) THREAD_DYING); try done; [apply Hi|by left]. }
  apply schedule_inv in Hr as [H1 H2]; [|done]. split; [done|]. rewrite H2. unfold successor. by rewrite S2, S5.
Qed.

(** ** Waking a thread *)

Create HintDb preserves.
#[export] Hint Extern 1 (keeps sched_view (upd_thread _ _)) =>
  (apply keeps_upd_quiet; intros; reflexivity) : keeps.

Lemma keeps_intr_view on : keeps sched_view (intr_set_level on).
Proof. unfold intr_set_level, intr_enable, intr_disable. keeps_solve. Qed.

Lemma keeps_intr_disable_view : keeps sched_view intr_disable.
Proof. unfold intr_disable. keeps_solve. Qed.
#[export] Hint Resolve keeps_intr_view keeps_intr_disable_view : keeps.

Lemma thread_unblock_inv t k a k' :
  thread_unblock t k = Ok (a, k') -> sched_inv k ->
  sched_inv k' /\ stat k !! t = Some THREAD_BLOCKED /\ cur k' = cur k /\
  ready_list k' = unblock_insert k t (ready_list k).
Proof.
  intros H Hi. unfold thread_unblock in H. run_inv H. injection Hr as <- <-.
  run_inv H. apply assert_inv in Hr as [_ ->]. run_inv H. rewrite intr_disable_run in Hr. injection Hr as <- <-.
  run_inv H. apply get_thread_inv in Hr as [Hth ->]. run_inv H. apply assert_inv in Hr as [Hb%bool_decide_eq_true ->].
  repeat (run_inv H; injection Hr as <- <-). run_inv H.
  apply upd_status_inv in Hr as (_ & S1 & S2 & S3 & S4 & S5 & _). run_inv H.
  apply keeps_intr_view in Hr. injection H as <- <-. unfold sched_view in Hr. injection Hr as R1 R2 R3 R4 R5.
  assert (stat k !! t = Some THREAD_BLOCKED) as Ht.
  { unfold stat. cbn in Hth. by rewrite lookup_fmap, Hth, <- Hb. }
  assert (t ∉ ready_list k) as Hnl by (eapply not_ready_not_listed; [apply Hi|done|done]).
  assert (stat k1 = <[t := THREAD_READY]> (stat k)) as Hs by (by rewrite R5, S1).
  cbn in *. split; [|split_and!; congruence]. split.
  - eapply (listed_insert k k1 t); try congruence; [apply Hi|]. rewrite R1, S2. apply unblock_insert_perm.
  - intros t'. destruct Hi as [_ Hc]. rewrite Hs, R3, S4. destruct (decide (t' = t)) as [->|Hd].
    + rewrite lookup_insert_eq. split; [done|]. intros ->. specialize (Hc (cur k)). naive_solver.
    + rewrite lookup_insert_ne by done. apply Hc.
Qed.

Lemma preserves_unblock t : preserves sched_inv (thread_unblock t).
Proof. intros k a k' Hi H. by apply thread_unblock_inv in H as [? _]. Qed.

Lemma preserves_block : preserves sched_inv thread_block.
Proof. intros k a k' Hi H. by apply thread_block_inv in H as [? _]. Qed.

Lemma preserves_yield : preserves sched_inv thread_yield.
Proof. intros k a k' Hi H. by apply thread_yield_inv in H as [? _]. Qed.

Lemma preserves_exit : preserves sched_inv thread_exit.
Proof. intros k a k' Hi H. by apply thread_exit_inv in H as [? _]. Qed.
#[export] Hint Resolve preserves_unblock preserves_block preserves_yield preserves_exit : preserves.

(** [preserves_solve] takes a routine apart down to calls that are known to
    preserve the invariant, or not to touch what it is about. *)
Ltac preserves_solve := repeat first
  [ solve [auto with preserves]
  | match goal with |- preserves _ (mbind _ _) => apply preserves_bind; [|intros] end
  | match goal with |- preserves _ (match ?x with _ => _ end) => destruct x end
  | solve [apply (keeps_preserves _ sched_view); [apply sched_inv_view|keeps_solve]]
  | progress cbv zeta ].

(** ** The other routines *)

Lemma keeps_update_active_view fuel t : keeps sched_view (update_active fuel t).
Proof. revert t. induction fuel as [|fuel IH]; intros t; cbn [update_active]; keeps_solve. Qed.

Lemma keeps_update_view t : keeps sched_view (updateActivePriority t).
Proof. unfold updateActivePriority. apply keeps_bind; [auto with keeps|]. intros k. apply keeps_update_active_view. Qed.
#[export] Hint Resolve keeps_update_view : keeps.

Lemma keeps_each_view f ts : (forall t, keeps sched_view (f t)) -> keeps sched_view (each_thread f ts).
Proof. intros H. induction ts as [|t ts IH]; cbn [each_thread]; keeps_solve. Qed.

Lemma keeps_tick_recent_cpu t : keeps sched_view (tick_recent_cpu t).
Proof. unfold tick_recent_cpu. keeps_solve. Qed.

Lemma keeps_tick_priority t : keeps sched_view (tick_priority t).
Proof. unfold tick_priority. keeps_solve. Qed.
#[export] Hint Resolve keeps_each_view keeps_tick_recent_cpu keeps_tick_priority : keeps.

Lemma preserves_wake_loop now q : preserves sched_inv (wake_loop now q).
Proof. induction q as [|s q IH]; cbn [wake_loop]; preserves_solve. Qed.
#[export] Hint Resolve preserves_wake_loop : preserves.

Lemma preserves_timer : preserves sched_inv intr_handler_timer.
Proof.
  unfold intr_handler_timer, timer_interrupt, thread_tick, timer_wake, timer_ticks, intr_yield_on_return.
  preserves_solve.
Qed.

Lemma preserves_sleep n : preserves sched_inv (timer_sleep n).
Proof. unfold timer_sleep, timer_ticks. preserves_solve. Qed.

(** [thread_init] sets the counter to what it is in a consistent state. *)
Lemma preserves_init_tid n : preserves sched_inv (thread_init_tid n).
Proof.
  unfold thread_init_tid. do 3 (apply preserves_bind; [preserves_solve|intros]).
  intros k a' k' Hi H. repeat (run_inv H; injection Hr as <- <-). injection H as <- <-.
  apply (sched_inv_view k); [|done]. unfold sched_view; cbn. by rewrite (li_count _ (si_listed _ Hi)).
Qed.
#[export] Hint Resolve preserves_init_tid : preserves.

Lemma preserves_exec c : (forall s, c <> CIdle s) -> preserves sched_inv (exec c).
Proof.
  intros Hc. destruct c; cbn [exec]; try (by destruct (Hc started));
    unfold sema_down, sema_down_loop, sema_up, lock_acquire, lock_take, lock_release, cond_wait,
      cond_broadcast, cond_signal, thread_set_priority, idle_loop, idle_wake, take_tid, thread_create_tid, donate, sema_init, put_sema, set_holder,
      set_cond, lock_held_by_current_thread, intr_enable; preserves_solve.
Qed.

(** A blocked thread at a new address. *)
Lemma new_thread_inv page th k :
  threads k !! page = None -> status th = THREAD_BLOCKED -> sched_inv k ->
  sched_inv (set_threads (<[page := th]> (threads k)) k).
Proof.
  intros Hp Hb [Hl Hc].
  assert (stat k !! page = None) as Hs by (unfold stat; by rewrite lookup_fmap, Hp).
  assert (page ∉ ready_list k) as Hnl by (intros Hin; apply Hl in Hin; congruence).
  match goal with |- sched_inv ?k' => assert (stat k' = <[page := THREAD_BLOCKED]> (stat k)) as Hs' end.
  { unfold stat; cbn. by rewrite fmap_insert, Hb. }
  split.
  - eapply (listed_status k _ page THREAD_BLOCKED); try done. by left.
  - intros t'. rewrite Hs'. cbn. destruct (decide (t' = page)) as [->|Hd].
    + rewrite lookup_insert_eq. split; [done|]. intros ->. specialize (Hc (cur k)). naive_solver.
    + rewrite lookup_insert_ne by done. apply Hc.
Qed.

Lemma init_thread_inv page p k a k' :
  init_thread page p k = Ok (a, k') -> threads k !! page = None -> sched_inv k -> sched_inv k'.
Proof.
  intros H Hp Hi. unfold init_thread in H. run_inv H. apply assert_inv in Hr as [_ ->].
  run_inv H. apply assert_inv in Hr as [_ ->]. do 2 (run_inv H; injection Hr as <- <-).
  apply (new_thread_inv page (blank_thread p)) in Hi; [|done..]. revert Hi.
  revert H.
  match goal with |- ?m _ = _ -> _ => assert (preserves sched_inv m) as Hm end.
  { unfold sema_init, put_sema. preserves_solve. }
  intros H Hi. by eapply Hm.
Qed.

Lemma thread_create_inv p page es k r k' :
  thread_create p page es k = Ok (r, k') -> threads k !! page = None -> sched_inv k -> sched_inv k'.
Proof.
  intros H Hp Hi. unfold thread_create in H. run_inv H. injection Hr as <- <-.
  destruct (page =? NULL); [by injection H as <- <-|].
  run_inv H. eapply init_thread_inv in Hr; [|done..]. by injection H as <- <-.
Qed.

Lemma preserves_try_down s : preserves sched_inv (sema_try_down s).
Proof. unfold sema_try_down, put_sema. preserves_solve. Qed.
#[export] Hint Resolve preserves_try_down : preserves.

Lemma preserves_try_acquire l : preserves sched_inv (lock_try_acquire l).
Proof. unfold lock_try_acquire, lock_held_by_current_thread, set_holder. preserves_solve. Qed.

(** No thread is about to become the idle thread. *)
Definition not_idle (c : cmd) : bool := match c with CIdle _ => false | _ => true end.

Definition no_idle (code : gmap Z (list cmd)) : Prop :=
  map_Forall (fun _ cs => forallb not_idle cs = true) code.

Lemma exec_no_idle c k cs' k' : exec c k = Ok (cs', k') -> forallb not_idle cs' = true.
Proof.
  destruct c; cbn [exec]; intros H;
    unfold thread_yield, thread_exit, sema_down, sema_down_loop, sema_up, lock_acquire, lock_take, lock_release,
      cond_wait, thread_set_priority, idle, idle_loop, idle_wake in H.
  12: { unfold cond_broadcast in H. run_inv H. case_match; [by injection H as <- <-|].
       run_inv H. injection H as <- <-. by apply cond_signal_code in Hr0 as [->|[t ->]]. }
  all: try (by apply cond_signal_code in H as [->|[t ->]]).
  all: run_all H; try done; case_match; by injection H as <- <-.
Qed.

Lemma no_idle_insert code t cs cs' :
  no_idle code -> code !! t = Some cs -> forallb not_idle cs' = true -> no_idle (<[t := cs' ++ cs]> code).
Proof.
  intros Hn Hc H. apply map_Forall_insert_2; [|done]. rewrite forallb_app, H. by apply Hn in Hc.
Qed.

(** What runs of the kernel preserve, thread code included. *)
Definition machine_inv (m : machine) : Prop := sched_inv (fst m) /\ no_idle (snd m).

Lemma step_machine_inv m m' : step m m' -> machine_inv m -> machine_inv m'.
Proof.
  destruct 1 as [k code c cs Hc Ho Hcall|k code c cs cs' k' Hc Hne He|k code cs cs' k' Hc He
    |k code cs cs' k' Hc _ He|k code p page es cs cs' k' Hc Ho Hpc Hpt He
    |k code n cs cs' k' Hc Ho He|k code s cs b k' Hc Ho Hs He|k code l' cs b k' Hc Ho He];
    intros [Hi Hn]; (split; cbn in * ).
  - done.
  - apply (no_idle_insert _ _ cs [c]); [done..|]. by destruct c.
  - eapply preserves_exec; [|done..]. intros s ->. by apply Hn in Hc.
  - apply exec_no_idle in He. apply map_Forall_insert_2; [|done]. apply Hn in Hc. cbn in Hc.
    apply andb_true_iff in Hc as [_ Hc]. by rewrite forallb_app, He.
  - by eapply preserves_exit.
  - by apply map_Forall_delete.
  - by eapply preserves_timer.
  - apply no_idle_insert; [done..|]. unfold intr_handler_timer in He. by run_all He.
  - by eapply thread_create_inv.
  - destruct (page =? NULL) eqn:Ep; [done|]. apply map_Forall_insert_2; [done|].
    apply no_idle_insert; [done..|]. unfold thread_create in He. rewrite Ep in He.
    repeat run_inv He. by injection He as <- <-.
  - by eapply preserves_sleep.
  - apply no_idle_insert; [done..|]. unfold timer_sleep in He. by run_all He.
  - by eapply preserves_try_down.
  - done.
  - by eapply preserves_try_acquire.
  - done.
Qed.

Lemma rtc_machine_inv m m' : rtc step m m' -> machine_inv m -> machine_inv m'.
Proof. induction 1; eauto using step_machine_inv. Qed.

(** * Theorems *)

(** C2: The run queue is consistent.  In every state the kernel reaches from a
    consistent one, through any interleaving of threads, interrupts and context
    switches, exactly one thread has the status running and it is the current
    one; the ready list has no thread twice, has only threads whose status is
    ready, and has all of them but the idle thread; and [ready_threads], from
    which the load average is computed, is the number of its entries.  (A step is a routine of
    Thread.v up to where it blocks, yields or sets the interrupt level.) *)
Theorem run_queue_consistent m0 m :
  machine_inv m0 -> rtc step m0 m -> sched_inv (fst m).
Proof. intros Hi Hr. apply (rtc_machine_inv _ _ Hr Hi). Qed.

(** A single thread, in its own code. *)
Lemma alone_inv m t :
  ready_list (fst m) = [] -> ready_threads (fst m) = 0 -> cur (fst m) = t ->
  stat (fst m) = {[t := THREAD_RUNNING]} -> snd m = {[t := []]} -> machine_inv m.
Proof.
  intros E1 E2 E3 E4 E5. split; [split; [split|]|]; rewrite ?E1, ?E2, ?E3, ?E4, ?E5; try done.
  - apply NoDup_nil_2.
  - by intros t' ?%elem_of_nil.
  - intros t'. by intros [_ ?]%lookup_singleton_Some.
  - intros t'. rewrite lookup_singleton_Some. naive_solver.
  - by apply map_Forall_singleton.
Qed.

Lemma boot_inv : machine_inv boot.
Proof. apply (alone_inv boot 4096); by vm_compute. Qed.

Lemma run_queue_consistent_witness : sched_inv (fst contended) /\ ready_list (fst contended) = [].
Proof.
  split; [|by vm_compute].
  apply (run_queue_consistent boot contended); [apply boot_inv|].
  apply (acts_step contention). by vm_compute.
Defined.

(** ** Priorities *)

(** Highest priority first. *)
Definition by_priority (k : kstate) (r : list Z) : Prop :=
  StronglySorted (fun a b => prio k b <= prio k a) r.

(** [thread_unblock] puts the thread first among those of its priority. *)
Lemma unblock_insert_split k t r :
  by_priority k r ->
  exists r1 r2, r = r1 ++ r2 /\ unblock_insert k t r = r1 ++ t :: r2 /\
    Forall (fun e => prio k t < prio k e) r1 /\ Forall (fun e => prio k e <= prio k t) r2.
Proof.
  induction r as [|e r IH]; cbn; intros Hs.
  { by exists [], []. }
  apply StronglySorted_inv in Hs as [Hs He]. destruct (Z.leb_spec (prio k e) (prio k t)) as [Hle|Hlt].
  - exists [], (e :: r). split_and!; try done. constructor; [done|].
    eapply Forall_impl; [apply He|]. cbn. intros; lia.
  - destruct (IH Hs) as (r1 & r2 & -> & -> & H1 & H2). exists (e :: r1), r2. split_and!; try done.
    by constructor.
Qed.

(** [thread_yield] puts it last. *)
Lemma yield_insert_split k t r :
  by_priority k r ->
  exists r1 r2, r = r1 ++ r2 /\ yield_insert k t r = r1 ++ t :: r2 /\
    Forall (fun e => prio k t <= prio k e) r1 /\ Forall (fun e => prio k e < prio k t) r2.
Proof.
  induction r as [|e r IH]; cbn; intros Hs.
  { by exists [], []. }
  apply StronglySorted_inv in Hs as [Hs He]. destruct (Z.ltb_spec (prio k e) (prio k t)) as [Hle|Hlt].
  - exists [], (e :: r). split_and!; try done. constructor; [done|].
    eapply Forall_impl; [apply He|]. cbn. intros; lia.
  - destruct (IH Hs) as (r1 & r2 & -> & -> & H1 & H2). exists (e :: r1), r2. split_and!; try done.
    by constructor.
Qed.

Lemma by_priority_middle k r1 r2 t :
  by_priority k (r1 ++ r2) -> Forall (fun e => prio k t <= prio k e) r1 ->
  Forall (fun e => prio k e <= prio k t) r2 -> by_priority k (r1 ++ t :: r2).
Proof.
  induction r1 as [|e r1 IH]; cbn; intros Hs H1 H2.
  - by constructor.
  - apply StronglySorted_inv in Hs as [Hs He]. apply Forall_cons in H1 as [He1 H1].
    constructor; [by apply IH|]. apply Forall_app in He as [Ha Hb].
    apply Forall_app. split; [done|]. by constructor.
Qed.

Lemma by_priority_ext k k' r : (forall t, prio k' t = prio k t) -> by_priority k r -> by_priority k' r.
Proof.
  intros H Hs. induction Hs as [|a r Hs IH Hf]; constructor; [done|].
  eapply Forall_impl; [apply Hf|]. cbn. intros b. by rewrite !H.
Qed.

(** What a switch does to the ready list and the priorities. *)
Lemma schedule_ready k a k' : schedule k = Ok (a, k') -> ready_list k' = tail (ready_list k).
Proof.
  intros H. unfold schedule in H. run_inv H. injection Hr as <- <-. run_inv H.
  assert (ready_list k0 = tail (ready_list k)) as <-.
  { unfold next_thread_to_run in Hr. run_inv Hr. injection Hr0 as <- <-.
    destruct (ready_list k) eqn:E; [injection Hr as <- <-; by rewrite E|].
    repeat (run_inv Hr; injection Hr0 as <- <-). by injection Hr as <- <-. }
  revert H. match goal with |- ?m k0 = _ -> _ => assert (keeps ready_list m) as Hm; [|apply Hm] end.
  unfold thread_schedule_tail. keeps_solve.
Qed.

Definition prios (k : kstate) : gmap Z Z := priority <$> threads k.

Lemma prios_prio k k' : prios k' = prios k -> forall t, prio k' t = prio k t.
Proof.
  intros H t. assert (prios k' !! t = prios k !! t) as E by (by rewrite H).
  unfold prios in E. rewrite !lookup_fmap in E. unfold prio.
  destruct (threads k' !! t), (threads k !! t); by simplify_eq/=.
Qed.

Lemma keeps_upd_prios t f : (forall th, priority (f th) = priority th) -> keeps prios (upd_thread t f).
Proof.
  intros Hf k a k' H. unfold upd_thread in H. destruct (threads k !! t) as [th|] eqn:E; [|done].
  injection H as <- <-. unfold prios; cbn. rewrite fmap_insert, Hf, insert_id; [done|].
  by rewrite lookup_fmap, E.
Qed.
#[export] Hint Extern 1 (keeps prios (upd_thread _ _)) => (apply keeps_upd_prios; intros; reflexivity) : keeps.

Lemma keeps_next_prios {B} (proj : kstate -> B) :
  (forall v k, proj (set_ready_list v k) = proj k) -> (forall v k, proj (set_ready_threads v k) = proj k) ->
  keeps proj next_thread_to_run.
Proof.
  intros H1 H2. unfold next_thread_to_run. apply keeps_bind; [apply keeps_gets|]. intros [|t r]; [apply keeps_gets|].
  repeat (apply keeps_bind; [|intros]); try apply keeps_gets; try apply keeps_ret; apply keeps_modify; auto.
Qed.

Lemma tail_prios prev k a k' :
  thread_schedule_tail prev k = Ok (a, k') -> prev <> cur k -> stat k !! prev <> Some THREAD_DYING ->
  prios k' = prios k.
Proof.
  intros H Hne Hd. unfold thread_schedule_tail in H.
  run_inv H. injection Hr as <- <-. run_inv H. injection Hr as <- <-. run_inv H. apply assert_inv in Hr as [_ ->].
  run_inv H. apply upd_status_inv in Hr as Hu. destruct Hu as (_ & S1 & _).
  assert (prios k0 = prios k) as <- by (by apply (keeps_upd_prios _ (set_status _) (fun _ => eq_refl)) in Hr).
  run_inv H. injection Hr0 as <- <-. run_inv H. injection Hr0 as <- <-.
  destruct (prev =? NULL); [by injection H as <- <-|].
  run_inv H. apply get_thread_inv in Hr0 as [Hth ->].
  destruct (bool_decide_reflect (status a2 = THREAD_DYING)) as [Hs|Hs]; [|by injection H as <- <-].
  exfalso. apply Hd. rewrite <- (lookup_insert_ne (stat k) (cur k) prev THREAD_RUNNING) by done.
  rewrite <- S1. unfold stat. cbn in Hth. by rewrite lookup_fmap, Hth, <- Hs.
Qed.

Lemma schedule_prios k a k' :
  schedule k = Ok (a, k') -> stat k !! cur k <> Some THREAD_DYING -> threads k !! NULL = None ->
  prios k' = prios k.
Proof.
  intros H Hd H0. unfold schedule in H. run_inv H. injection Hr as <- <-. run_inv H.
  assert (keeps prios next_thread_to_run) as K1 by (by apply keeps_next_prios).
  assert (keeps cur next_thread_to_run) as K2 by (by apply keeps_next_prios).
  assert (keeps threads next_thread_to_run) as K3 by (by apply keeps_next_prios).
  apply K1 in Hr as E1. apply K2 in Hr as E2. apply K3 in Hr as E3. rewrite <- E1. clear K1 K2 K3 E1.
  run_inv H. injection Hr0 as <- <-. run_inv H. apply assert_inv in Hr0 as [_ ->].
  run_inv H. apply get_thread_inv in Hr0 as [Hth ->]. run_inv H. apply assert_inv in Hr0 as [_ ->].
  run_inv H. injection Hr0 as <- <-. run_inv H. apply assert_inv in Hr0 as [Hnx ->].
  apply andb_true_iff in Hnx as [Hnx%negb_true_iff%Z.eqb_neq _].
  assert (stat k0 = stat k) as Es by (unfold stat; by rewrite E3).
  destruct (Z.eqb_spec (cur k) a0) as [Ec|Ec]; cbn in H.
  - apply tail_prios in H; [done| |]; [congruence|]. unfold stat. by rewrite lookup_fmap, E3, H0.
  - run_inv H. injection Hr0 as <- <-. apply tail_prios in H; [done| |].
    + done.
    + unfold stat in *. cbn. by rewrite Es.
Qed.

Lemma yield_view k cs k' :
  thread_yield k = Ok (cs, k') -> sched_inv k -> cur k <> idle_thread k -> threads k !! NULL = None ->
  ready_list k' = tail (yield_insert k (cur k) (ready_list k)) /\ prios k' = prios k.
Proof.
  intros H Hi Hne H0. unfold thread_yield in H. run_inv H. apply thread_current_run in Hr as (-> & -> & Hc0 & _).
  run_inv H. injection Hr as <- <-. run_inv H. apply assert_inv in Hr as [_ ->].
  run_inv H. rewrite intr_disable_run in Hr. injection Hr as <- <-. run_inv H. injection Hr as <- <-. cbn in H.
  destruct (Z.eqb_spec (cur k) (idle_thread k)) as [|_]; [done|]. cbn in H. run_inv H.
  repeat (run_inv Hr; injection Hr0 as <- <-). injection Hr as <- <-.
  run_inv H. apply upd_status_inv in Hr as Hu. destruct Hu as (_ & S1 & S2 & _ & S4 & _). cbn in S2, S4.
  apply (keeps_upd_prios _ (set_status _) (fun _ => eq_refl)) in Hr as Hp.
  run_inv H. injection H as <- <-. apply schedule_ready in Hr0 as R1.
  split; [rewrite R1, S2; f_equal; by apply yield_insert_ext|].
  apply schedule_prios in Hr0; [by rewrite Hr0, Hp| |].
  - rewrite S4, S1, lookup_insert_eq. done.
  - unfold upd_thread in Hr. cbn in Hr. destruct (threads k !! cur k); [|done]. injection Hr as <- <-. cbn.
    by rewrite lookup_insert_ne.
Qed.

(** Yielding runs a thread of highest priority, round robin.  If the ready list
    is ordered by priority, [thread_yield] gives the CPU to a thread whose priority
    no ready thread and not the yielding one exceeds; when some ready thread has at
    least the priority of the yielding one, another thread runs, the longest
    waiting of the highest priority; and the ready list stays ordered. *)
Theorem yield_runs_highest k cs k' :
  thread_yield k = Ok (cs, k') ->
  sched_inv k -> cur k <> idle_thread k -> threads k !! NULL = None -> by_priority k (ready_list k) ->
  cur k' ∈ cur k :: ready_list k /\
  Forall (fun t => prio k t <= prio k (cur k')) (cur k :: ready_list k) /\
  (Exists (fun t => prio k (cur k) <= prio k t) (ready_list k) -> Some (cur k') = head (ready_list k)) /\
  by_priority k' (ready_list k').
Proof.
  intros H Hi Hne H0 Hs. destruct (yield_view _ _ _ H Hi Hne H0) as [Hr Hp].
  apply thread_yield_inv in H as [_ Hc]; [|done]. destruct (Z.eqb_spec (cur k) (idle_thread k)); [done|].
  destruct (yield_insert_split k (cur k) _ Hs) as (r1 & r2 & E & Ei & F1 & F2).
  assert (by_priority k (yield_insert k (cur k) (ready_list k))) as Hs'.
  { rewrite Ei. apply by_priority_middle; [by rewrite <- E|done|]. eapply Forall_impl; [apply F2|]. cbn; intros; lia. }
  assert (yield_insert k (cur k) (ready_list k) ≡ₚ cur k :: ready_list k) as Hperm by apply yield_insert_perm.
  destruct (yield_insert k (cur k) (ready_list k)) as [|h r] eqn:Ey.
  { by destruct r1. }
  cbn in Hc, Hr. subst h. apply StronglySorted_inv in Hs' as [Hs1 Hs2]. split_and!.
  - rewrite <- Hperm. left.
  - rewrite <- Hperm. by constructor; [lia|].
  - intros Hex. destruct r1 as [|e r1]; cbn in Ei; injection Ei as -> ->; [|by rewrite E].
    exfalso. rewrite E in Hex. cbn in Hex. apply Exists_exists in Hex as (t & Ht & Hle).
    rewrite Forall_forall in F2. apply F2 in Ht. lia.
  - rewrite Hr. eapply by_priority_ext; [by apply prios_prio|done].
Qed.

(** The main thread and two others of priority 31 and 20, ready. *)
Definition three_threads : machine := default boot (acts (create 31 8192 500 ++ create 20 12288 508) boot).

Lemma three_threads_inv : machine_inv three_threads.
Proof.
  apply (rtc_machine_inv boot); [|apply boot_inv].
  apply (acts_step (create 31 8192 500 ++ create 20 12288 508)). by vm_compute.
Qed.

Lemma three_threads_sorted :
  cur (fst three_threads) = 4096 /\ ready_list (fst three_threads) = [8192; 12288] /\
  by_priority (fst three_threads) [8192; 12288].
Proof.
  split_and!; [by vm_compute..|].
  assert (prio (fst three_threads) 8192 = 31) as E1 by (by vm_compute).
  assert (prio (fst three_threads) 12288 = 20) as E2 by (by vm_compute).
  unfold by_priority. repeat constructor. rewrite E1, E2. done.
Qed.

Lemma yield_runs_highest_witness :
  exists cs k', thread_yield (fst three_threads) = Ok (cs, k') /\ cur k' = 8192 /\
    by_priority k' (ready_list k').
Proof.
  destruct (thread_yield (fst three_threads)) as [[cs k']|e] eqn:E; [|by vm_compute in E].
  exists cs, k'. split; [done|].
  destruct three_threads_sorted as (Hc & Hr & Hs).
  destruct (yield_runs_highest (fst three_threads) cs k' E) as (_ & _ & Hh & Hs').
  - apply three_threads_inv.
  - by vm_compute.
  - by vm_compute.
  - by rewrite Hr.
  - split; [|done]. rewrite Hr in Hh. cbn in Hh.
    assert (Some (cur k') = Some 8192) as HH; [|by injection HH].
    apply Hh. constructor. by vm_compute.
Defined.

(** Waking a thread.  [thread_unblock] succeeds only on a thread that is
    blocked; when it returns, the run queue is consistent, the running thread and
    all priorities are as before, and the thread stands in the ready list after
    all threads of higher priority and before all others, so that the list stays
    ordered. *)
Theorem unblock_keeps_order t k a k' :
  thread_unblock t k = Ok (a, k') -> sched_inv k -> by_priority k (ready_list k) ->
  stat k !! t = Some THREAD_BLOCKED /\ stat k' !! t = Some THREAD_READY /\
  sched_inv k' /\ cur k' = cur k /\ prios k' = prios k /\
  (exists r1 r2, ready_list k = r1 ++ r2 /\ ready_list k' = r1 ++ t :: r2 /\
     Forall (fun e => prio k t < prio k e) r1 /\ Forall (fun e => prio k e <= prio k t) r2) /\
  by_priority k' (ready_list k').
Proof.
  intros H Hi Hs. destruct (unblock_insert_split k t _ Hs) as (r1 & r2 & E & Ei & F1 & F2).
  assert (keeps prios (thread_unblock t)) as Hk.
  { unfold thread_unblock, intr_set_level, intr_enable, intr_disable. keeps_solve. }
  apply Hk in H as Hp. apply thread_unblock_inv in H as (Hi' & Hb & Hc & Hr); [|done].
  rewrite Hr, Ei. split_and!; try done.
  - apply Hi'. rewrite Hr, Ei. set_solver.
  - by exists r1, r2.
  - eapply by_priority_ext; [by apply prios_prio|]. apply by_priority_middle; [by rewrite <- E| |done].
    eapply Forall_impl; [apply F1|]. cbn; intros; lia.
Qed.

(** The thread that waits in [contended] is woken. *)
Lemma unblock_keeps_order_witness :
  exists k', thread_unblock 8192 (fst contended) = Ok (tt, k') /\ sched_inv k' /\
    stat k' !! 8192 = Some THREAD_READY.
Proof.
  destruct (thread_unblock 8192 (fst contended)) as [[[] k']|e] eqn:E; [|by vm_compute in E].
  exists k'. split; [done|].
  destruct (unblock_keeps_order 8192 (fst contended) tt k' E) as (_ & H1 & H2 & _).
  - apply (rtc_machine_inv boot); [|apply boot_inv]. apply (acts_step contention). by vm_compute.
  - assert (ready_list (fst contended) = []) as -> by (by vm_compute). constructor.
  - exact (conj H2 H1).
Defined.
