(* ===== verification/Priority.v ===== *)
(** Priority donation, and the choice of the thread a semaphore wakes. *)
From Stdlib Require Import ZArith Lia.
From stdpp Require Import base numbers sorting gmap list relations.
From S2P Require Import Prelude.
From S2P Require Import FixedPoint.
From S2P Require Import Thread.
From S2P Require Import Machine.
From S2P Require Import Sched.

Local Open Scope Z_scope.

(** * The waiter a semaphore wakes *)

(** The first of the threads of highest priority. *)
Definition first_highest (k : kstate) (ws : list Z) (t : Z) : Prop :=
  exists l1 l2, ws = l1 ++ t :: l2 /\
    Forall (fun u => prio k u < prio k t) l1 /\ Forall (fun u => prio k u <= prio k t) l2.

Lemma highest_waiter_snoc k ws w :
  highest_waiter k (ws ++ [w]) =
    let '(best, hi) := highest_waiter k ws in if hi <? prio k w then (Some w, prio k w) else (best, hi).
Proof. unfold highest_waiter. rewrite foldl_app. cbn. by destruct (foldl _ _ ws). Qed.

Lemma highest_waiter_spec k ws :
  Forall (fun w => PRI_MIN <= prio k w) ws -> ws <> [] ->
  exists t, highest_waiter k ws = (Some t, prio k t) /\ first_highest k ws t.
Proof.
  induction ws as [|w ws IH] using rev_ind; intros Hp Hne; [done|].
  apply Forall_app in Hp as [Hp Hw]. rewrite Forall_singleton in Hw. rewrite highest_waiter_snoc.
  destruct ws as [|w0 ws0].
  - exists w. unfold highest_waiter; cbn [foldl]. rewrite (proj2 (Z.ltb_lt (PRI_MIN - 1) (prio k w))) by lia.
    split; [done|]. exists [], []. done.
  - destruct (IH Hp) as (t & -> & l1 & l2 & E & F1 & F2); [done|]. rewrite E.
    destruct (Z.ltb_spec (prio k t) (prio k w)) as [Hlt|Hge].
    + exists w. split; [done|]. exists (l1 ++ t :: l2), []. split_and!; try done.
      apply Forall_app; split; [|constructor; [done|]].
      * eapply Forall_impl; [apply F1|]. cbn; intros; lia.
      * eapply Forall_impl; [apply F2|]. cbn; intros; lia.
    + exists t. split; [done|]. exists l1, (l2 ++ [w]). split; [by rewrite <- app_assoc|].
      split; [done|]. apply Forall_app. by split; [|constructor].
Qed.

Lemma remove_one_middle t l1 l2 : t ∉ l1 -> remove_one t (l1 ++ t :: l2) = l1 ++ l2.
Proof.
  induction l1 as [|x l1 IH]; cbn; intros Hn; [by rewrite Z.eqb_refl|].
  apply not_elem_of_cons in Hn as [Hx Hn]. destruct (Z.eqb_spec x t); [congruence|]. by rewrite IH.
Qed.

(** C6: [sema_up] wakes the right thread.  When threads wait on the semaphore, the
    one woken is the first to have come among those of highest priority: it was
    blocked, it leaves the waiters and nobody else does, it is ready or already
    running afterwards, and the semaphore's value has grown by one (modulo the
    width of an unsigned int).  The caller goes on to yield exactly when its own
    priority is not higher: at equal priority too, and also inside an interrupt
    handler, where [thread_yield] then fails its assertion. *)
Theorem sema_up_wakes_highest s sm k cs k' :
  sema_up s k = Ok (cs, k') -> sched_inv k -> semas k !! s = Some sm -> waiters sm <> [] ->
  Forall (fun w => PRI_MIN <= prio k w) (waiters sm) ->
  exists t l1 l2, first_highest k (waiters sm) t /\ waiters sm = l1 ++ t :: l2 /\
    semas k' !! s = Some {| value := u32 (value sm + 1); waiters := l1 ++ l2 |} /\
    stat k !! t = Some THREAD_BLOCKED /\ stat k' !! t = Some THREAD_READY /\
    cs = if prio k (cur k) <=? prio k t then [CYield] else [].
Proof.
  intros H Hi Hs Hne Hp. destruct (highest_waiter_spec k _ Hp Hne) as (t & Eh & Hf).
  pose proof Hf as (l1 & l2 & El & F1 & F2). exists t, l1, l2. split; [done|]. split; [done|].
  unfold sema_up in H. run_inv H. rewrite intr_disable_run in Hr. injection Hr as <- <-.
  run_inv H. apply get_sema_inv in Hr as [Hs' ->]. cbn in Hs'. rewrite Hs in Hs'. injection Hs' as <-.
  run_inv H. injection Hr as <- <-. change (highest_waiter (set_intr_on false k)) with (highest_waiter k) in H.
  rewrite Eh in H. run_inv H. run_inv H. apply get_sema_inv in Hr0 as [Hs2 ->].
  run_inv H. injection Hr0 as <- <-. run_inv H. run_inv H. apply thread_current_run in Hr1 as (-> & -> & _ & _).
  run_inv H. injection Hr1 as <- <-.
  destruct (waiters sm) as [|w ws] eqn:Ew; [done|]. rewrite El in Hr. run_inv Hr. injection Hr1 as <- <-.
  assert (t ∉ l1) as Hn.
  { intros Hin. rewrite Forall_forall in F1. apply F1 in Hin. lia. }
  assert (keeps prios (thread_unblock t)) as Hkp.
  { unfold thread_unblock, intr_set_level, intr_enable, intr_disable. keeps_solve. }
  assert (keeps semas (thread_unblock t)) as Hks.
  { unfold thread_unblock, intr_set_level, intr_enable, intr_disable. keeps_solve. }
  apply Hkp in Hr as Ep. apply Hks in Hr as Es. cbn in Es. rewrite Es in Hs2. clear Hkp Hks.
  apply thread_unblock_inv in Hr as (Hi1 & Hb & Hc & Hrl); [|by apply (sched_inv_view k)].
  rewrite lookup_insert_eq in Hs2. injection Hs2 as <-. cbn in *.
  apply keeps_intr_view in Hr0 as Ev. apply keeps_intr_set_level in Hr0 as Ey.
  unfold sync in Ey. injection Ey as Ey1 _ _. injection Ev as _ _ Ec _ Est.
  assert (semas k' = semas k1 /\ stat k' = stat k1 /\
    cs = if prio k1 (cur k1) <=? prio k t then [CYield] else []) as (Ea & Eb & ->).
  { destruct (prio k1 (cur k1) <=? prio k t); by injection H as <- <-. }
  split_and!.
  - rewrite Ea, Ey1, Es, lookup_insert_eq. by rewrite remove_one_middle.
  - done.
  - rewrite Eb, Est. apply Hi1. cbn. rewrite Hrl, unblock_insert_perm. left.
  - rewrite Ec. cbn. rewrite Hc. cbn.
    assert (prio k1 (cur k) = prio k (cur k)) as ->; [|done].
    apply prios_prio. transitivity (prios k0); [|done].
    assert (keeps prios (intr_set_level (intr_on k))) as Hk; [|by apply Hk in Hr0].
    unfold intr_set_level, intr_enable, intr_disable. keeps_solve.
Qed.

Lemma sema_up_wakes_highest_witness :
  exists cs k', sema_up (LockSema 77) (fst contended) = Ok (cs, k') /\
    stat k' !! 8192 = Some THREAD_READY.
Proof.
  destruct (sema_up (LockSema 77) (fst contended)) as [[cs k']|e] eqn:E; [|by vm_compute in E].
  exists cs, k'. split; [done|].
  destruct (sema_up_wakes_highest (LockSema 77) {| value := 0; waiters := [8192] |} (fst contended) cs k' E)
    as (t & l1 & l2 & _ & El & _ & _ & Ht & _).
  - apply (rtc_machine_inv boot); [|apply boot_inv]. apply (acts_step contention). by vm_compute.
  - by vm_compute.
  - done.
  - constructor; [by vm_compute|constructor].
  - clear E. destruct l1 as [|a [|]]; [|discriminate El|discriminate El]. injection El as <- _. exact Ht.
Defined.

(** * Donation *)

(** The donors of a thread that count: the first [numDonors] that are threads. *)
Definition donors_of (k : kstate) (th : thread) : list Z :=
  filter (fun d => is_thread k d = true) (pl_thread <$> take (Z.to_nat (numDonors th)) (donors th)).

(** The priority [updateActivePriority] gives a thread. *)
Definition effective (k : kstate) (th : thread) : Z :=
  if nativePriority th <? highest_donated k th then highest_donated k th else nativePriority th.

Lemma highest_donated_eq k th :
  highest_donated k th =
    foldl (fun hi d => if hi <? prio k d then prio k d else hi) PRI_MIN (donors_of k th).
Proof.
  unfold highest_donated, donors_of. generalize PRI_MIN.
  induction (take _ _) as [|d ds IH]; intros hi; [done|]. cbn [foldl fmap list_fmap].
  rewrite filter_cons. destruct (is_thread k (pl_thread d)); cbn; apply IH.
Qed.

Lemma foldl_max_spec (f : Z -> Z) ds hi :
  let m := foldl (fun hi d => if hi <? f d then f d else hi) hi ds in
  hi <= m /\ Forall (fun d => f d <= m) ds /\ (m = hi \/ Exists (fun d => m = f d) ds).
Proof.
  revert hi. induction ds as [|d ds IH]; intros hi m; subst m; cbn; [split_and!; auto; lia|].
  destruct (Z.ltb_spec hi (f d)).
  - destruct (IH (f d)) as (H1 & H2 & [H3|H3]); (split_and!; [lia|by constructor|]); right.
    + by left.
    + by right.
  - destruct (IH hi) as (H1 & H2 & [H3|H3]); (split_and!; [lia|constructor; [lia|done]|]); auto.
Qed.

(** It is the highest of the native priority and the donors' priorities. *)
Lemma effective_spec k th :
  PRI_MIN <= nativePriority th ->
  nativePriority th <= effective k th /\ Forall (fun d => prio k d <= effective k th) (donors_of k th) /\
  (effective k th = nativePriority th \/ Exists (fun d => effective k th = prio k d) (donors_of k th)).
Proof.
  intros Hn. unfold effective. rewrite highest_donated_eq.
  destruct (foldl_max_spec (prio k) (donors_of k th) PRI_MIN) as (H1 & H2 & H3). cbv zeta in *.
  destruct (Z.ltb_spec (nativePriority th)
    (foldl (fun hi d => if hi <? prio k d then prio k d else hi) PRI_MIN (donors_of k th))).
  - split_and!; [lia|done|]. destruct H3 as [H3|H3]; [lia|by right].
  - split_and!; [lia| |by left]. eapply Forall_impl; [apply H2|]. cbn; intros; lia.
Qed.

(** The threads [updateActivePriority] visits: along the [donees] pointers, as
    long as they point to a thread. *)
Inductive chain (k : kstate) : Z -> list Z -> Prop :=
| chain_end t th :
    t <> NULL -> threads k !! t = Some th -> is_thread k (pl_thread (donees th)) = false -> chain k t [t]
| chain_next t th p :
    t <> NULL -> threads k !! t = Some th -> chain k (pl_thread (donees th)) p -> chain k t (t :: p).

Definition set_effective (t : Z) (k : kstate) : kstate :=
  match threads k !! t with
  | Some th => set_threads (<[t := set_priority (effective k th) th]> (threads k)) k
  | None => k
  end.

(** All but the effective priorities. *)
Definition static (k : kstate) : gmap Z thread := set_priority 0 <$> threads k.

Lemma static_set_effective t k : static (set_effective t k) = static k.
Proof.
  unfold set_effective. destruct (threads k !! t) as [th|] eqn:E; [|done].
  unfold static; cbn. rewrite fmap_insert, insert_id; [done|]. by rewrite lookup_fmap, E.
Qed.

Lemma static_lookup k k' t th :
  static k' = static k -> threads k !! t = Some th -> exists v, threads k' !! t = Some (set_priority v th).
Proof.
  intros Hs H. assert (static k' !! t = static k !! t) as E by (by rewrite Hs).
  unfold static in E. rewrite !lookup_fmap, H in E. destruct (threads k' !! t) as [th'|]; [|done].
  exists (priority th'). cbn in E. injection E as E. unfold set_priority in *. destruct th, th'; cbn in *. by simplify_eq.
Qed.

Lemma static_is_thread k k' t : static k' = static k -> is_thread k' t = is_thread k t.
Proof.
  intros Hs. unfold is_thread. f_equal. apply bool_decide_ext.
  assert (static k' !! t = static k !! t) as E by (by rewrite Hs).
  unfold static in E. rewrite !lookup_fmap in E. destruct (threads k' !! t), (threads k !! t); try done; naive_solver.
Qed.

Lemma chain_static k k' t p : static k' = static k -> chain k t p -> chain k' t p.
Proof.
  intros Hs. induction 1 as [t th Ht Hth Hd|t th p Ht Hth Hc IH];
    destruct (static_lookup _ _ _ _ Hs Hth) as [v Hv].
  - eapply chain_end; [done..|]. by rewrite (static_is_thread _ _ _ Hs).
  - by eapply chain_next.
Qed.

Lemma chain_head k t p : chain k t p -> is_thread k t = true.
Proof.
  destruct 1 as [t th Ht Hth _|t th p Ht Hth _]; unfold is_thread; rewrite Hth;
    by destruct (Z.eqb_spec t NULL).
Qed.

Lemma update_active_run fuel k t p :
  chain k t p -> (length p <= fuel)%nat -> update_active fuel t k = Ok (tt, foldl (flip set_effective) k p).
Proof.
  intros Hc. revert k t p Hc. induction fuel as [|fuel IH]; intros k t p Hc Hf; [by destruct Hc; cbn in Hf; lia|].
  cbn [update_active]. rewrite (run_bind _ _ _ _ _ (run_get k)).
  rewrite (run_bind _ _ _ _ _ (run_assert _ k (chain_head _ _ _ Hc))).
  assert (exists th, threads k !! t = Some th) as [th Hth] by (destruct Hc; eauto).
  rewrite (run_bind _ _ k th k) by (unfold get_thread; by rewrite Hth).
  assert (upd_thread t (set_priority (effective k th)) k = Ok (tt, set_effective t k)) as Hu.
  { unfold upd_thread, set_effective. by rewrite Hth. }
  cbv zeta. unfold effective in Hu. rewrite (run_bind _ _ _ _ _ Hu). rewrite (run_bind _ _ _ _ _ (run_get _)).
  rewrite (static_is_thread _ _ _ (static_set_effective t k)).
  inversion Hc as [? th' ? Hth' Hd|? th' p' ? Hth' Hc']; simplify_eq.
  - by rewrite Hd.
  - rewrite (chain_head _ _ _ Hc').
    change (foldl (flip set_effective) k (t :: p')) with (foldl (flip set_effective) (set_effective t k) p').
    apply IH; [|cbn in Hf; lia].
    eapply chain_static; [apply static_set_effective|done].
Qed.

Lemma chain_in_threads k t p : chain k t p -> Forall (fun u => is_Some (threads k !! u)) p.
Proof. induction 1; repeat constructor; eauto. Qed.

Lemma chain_length k t p : chain k t p -> NoDup p -> (length p <= size (threads k))%nat.
Proof.
  intros Hc Hn. rewrite <- size_dom, <- (size_list_to_set p Hn (C := gset Z)). apply subseteq_size.
  intros u Hu%elem_of_list_to_set. apply elem_of_dom. pose proof (chain_in_threads _ _ _ Hc) as Hf.
  rewrite Forall_forall in Hf. by apply Hf.
Qed.

(** ** What the visits do *)

Lemma set_effective_other t k u : u <> t -> threads (set_effective t k) !! u = threads k !! u.
Proof.
  intros H. unfold set_effective. destruct (threads k !! t); [|done]. cbn. by rewrite lookup_insert_ne.
Qed.

Lemma visits_other p k u : u ∉ p -> threads (foldl (flip set_effective) k p) !! u = threads k !! u.
Proof.
  revert k. induction p as [|t p IH]; cbn; intros k Hu; [done|]. apply not_elem_of_cons in Hu as [H1 H2].
  rewrite IH by done. by apply set_effective_other.
Qed.

Lemma visits_static p k : static (foldl (flip set_effective) k p) = static k.
Proof. revert k. induction p as [|t p IH]; cbn; intros k; [done|]. rewrite IH. apply static_set_effective. Qed.

(** The visits change the table of threads and nothing else of the kernel state. *)
Lemma visits_frame p k : foldl (flip set_effective) k p = set_threads (threads (foldl (flip set_effective) k p)) k.
Proof.
  revert k. induction p as [|t p IH]; cbn; intros k; [by destruct k|]. rewrite IH.
  unfold set_effective. by destruct (threads k !! t).
Qed.

(** Each thread of the chain is among the donors of the next. *)
Inductive donating (k : kstate) : list Z -> Prop :=
| donating_one t : donating k [t]
| donating_cons t u th p :
    threads k !! u = Some th -> t ∈ donors_of k th -> donating k (u :: p) -> donating k (t :: u :: p).

Lemma donors_of_static k k' th v :
  static k' = static k -> donors_of k' (set_priority v th) = donors_of k th.
Proof.
  intros Hs. unfold donors_of. cbn. apply list_filter_iff. intros d. by rewrite (static_is_thread _ _ _ Hs).
Qed.

Lemma donating_static k k' p : static k' = static k -> donating k p -> donating k' p.
Proof.
  intros Hs. induction 1 as [t|t u th p Hu Ht Hd IH]; [constructor|].
  destruct (static_lookup _ _ _ _ Hs Hu) as [v Hv]. econstructor; [done| |done].
  by rewrite (donors_of_static _ _ _ _ Hs).
Qed.

Definition in_range (k : kstate) : Prop := map_Forall (fun _ th => PRI_MIN <= nativePriority th) (threads k).

Lemma in_range_static k k' : static k' = static k -> in_range k -> in_range k'.
Proof.
  intros Hs Hr t th' Ht. destruct (static_lookup k' k t th' (eq_sym Hs) Ht) as [v Hv].
  by apply Hr in Hv.
Qed.

Lemma set_effective_prio t k th : threads k !! t = Some th -> prio (set_effective t k) t = effective k th.
Proof. intros H. unfold set_effective, prio. rewrite H. cbn. by rewrite lookup_insert_eq. Qed.

Lemma visits_rise p k :
  donating k p -> NoDup p -> in_range k ->
  StronglySorted (fun t u => prio (foldl (flip set_effective) k p) t <= prio (foldl (flip set_effective) k p) u) p.
Proof.
  intros Hd Hn Hr. apply Sorted_StronglySorted; [intros a b c; lia|].
  revert k Hd Hr. induction p as [|t [|u p] IH]; intros k Hd Hr; [constructor|repeat constructor|].
  apply NoDup_cons in Hn as [Ht Hn]. inversion Hd as [|? ? th ? Hu Hin Hd']; subst.
  pose proof (static_set_effective t k) as Hs. cbn [foldl flip].
  specialize (IH Hn (set_effective t k) (donating_static _ _ _ Hs Hd') (in_range_static _ _ Hs Hr)).
  constructor; [done|]. constructor. cbn [foldl flip].
  set (k1 := set_effective t k) in *.
  assert (u <> t) as Hne by set_solver.
  assert (threads k1 !! u = Some th) as Hu1 by (unfold k1; by rewrite set_effective_other).
  assert (donors_of k1 th = donors_of k th) as Ed.
  { rewrite <- (donors_of_static k k1 th (priority th) Hs). by destruct th. }
  assert (prio (foldl (flip set_effective) (set_effective u k1) p) u = effective k1 th) as Eu.
  { rewrite <- (set_effective_prio u k1 th Hu1). unfold prio. rewrite visits_other; [done|].
    by apply NoDup_cons in Hn as [? _]. }
  assert (prio (foldl (flip set_effective) (set_effective u k1) p) t = prio k1 t) as Et.
  { unfold prio. rewrite visits_other by set_solver. by rewrite set_effective_other. }
  rewrite Eu, Et. destruct (effective_spec k1 th) as (_ & Hf & _); [by apply (in_range_static _ _ Hs Hr) in Hu1|].
  rewrite Forall_forall in Hf. apply Hf. by rewrite Ed.
Qed.

(** ** Chains have no repetition *)

Lemma chain_det k t p p' : chain k t p -> chain k t p' -> p = p'.
Proof.
  intros Hc. revert p'. induction Hc as [t th Ht Hth Hd|t th p Ht Hth Hc IH]; intros p' Hc';
    inversion Hc' as [? th' ? Hth' Hd'|? th' q ? Hth' Hq]; simplify_eq; try done.
  - apply chain_head in Hq. congruence.
  - apply chain_head in Hc. congruence.
  - f_equal. by apply IH.
Qed.

Lemma chain_suffix k t p u : chain k t p -> u ∈ p -> exists p1 p2, p = p1 ++ p2 /\ chain k u p2.
Proof.
  intros Hc. induction Hc as [t th Ht Hth Hd|t th p Ht Hth Hc IH]; intros Hu.
  - apply list_elem_of_singleton in Hu as ->. exists [], [t]. split; [done|by econstructor].
  - apply elem_of_cons in Hu as [->|Hu].
    + exists [], (t :: p). split; [done|]. by econstructor.
    + destruct (IH Hu) as (p1 & p2 & -> & H2). by exists (t :: p1), p2.
Qed.

Lemma chain_NoDup k t p : chain k t p -> NoDup p.
Proof.
  induction 1 as [t th Ht Hth Hd|t th p Ht Hth Hc IH]; [apply NoDup_singleton|].
  apply NoDup_cons. split; [|done]. intros Hin.
  destruct (chain_suffix _ _ _ _ Hc Hin) as (p1 & p2 & -> & H2).
  assert (t :: p1 ++ p2 = p2) as E by (eapply chain_det; [by econstructor|done]).
  apply (f_equal length) in E. cbn in E. rewrite length_app in E. lia.
Qed.

Lemma update_active_chain fuel k t k' :
  update_active fuel t k = Ok (tt, k') -> exists p, chain k t p.
Proof.
  revert k t. induction fuel as [|fuel IH]; intros k t H; [done|]. cbn [update_active] in H.
  run_inv H. injection Hr as <- <-. run_inv H. apply assert_inv in Hr as [Ht ->].
  assert (t <> NULL) as Hn.
  { apply andb_true_iff in Ht as [Ht _]. by apply negb_true_iff, Z.eqb_neq in Ht. }
  run_inv H. apply get_thread_inv in Hr as [Hth ->]. run_inv H.
  assert (k0 = set_effective t k) as ->.
  { unfold upd_thread in Hr. unfold set_effective. rewrite Hth in *. by injection Hr as <- <-. }
  run_inv H. injection Hr0 as <- <-.
  rewrite (static_is_thread _ _ _ (static_set_effective t k)) in H.
  destruct (is_thread k (pl_thread (donees a0))) eqn:Ed.
  - apply IH in H as [p Hp]. exists (t :: p). eapply chain_next; [done..|].
    eapply chain_static; [|done]. symmetry. apply static_set_effective.
  - exists [t]. by eapply chain_end.
Qed.

(** C3: Donated priority reaches every thread it should.  [updateActivePriority]
    returns exactly when the threads it visits along the [donees] pointers come to
    an end (they never repeat then).  It changes nothing of the kernel state but the
    priority of those threads.  The thread it starts from gets the highest of its native priority and
    its donors' priorities; and if each thread of the chain is entered among the
    donors of the next, the priorities do not fall along the chain, so that the
    holder at its end runs at least at the priority of every thread that waits for
    it. *)
Theorem donation_propagates k t th :
  threads k !! t = Some th -> in_range k ->
  ((exists k', updateActivePriority t k = Ok (tt, k')) <-> (exists p, chain k t p)) /\
  forall p, chain k t p -> exists k', updateActivePriority t k = Ok (tt, k') /\
    k' = set_threads (threads k') k /\ static k' = static k /\
    (forall u, u ∉ p -> threads k' !! u = threads k !! u) /\
    nativePriority th <= prio k' t /\ Forall (fun d => prio k d <= prio k' t) (donors_of k th) /\
    (prio k' t = nativePriority th \/ Exists (fun d => prio k' t = prio k d) (donors_of k th)) /\
    (donating k p -> StronglySorted (fun a b => prio k' a <= prio k' b) p).
Proof.
  intros Ht Hr.
  assert (forall p, chain k t p -> updateActivePriority t k = Ok (tt, foldl (flip set_effective) k p)) as Hrun.
  { intros p Hc. unfold updateActivePriority. rewrite (run_bind _ _ _ _ _ (run_get k)).
    apply update_active_run; [done|]. pose proof (chain_length _ _ _ Hc (chain_NoDup _ _ _ Hc)). lia. }
  split.
  - split; [intros [k' H]|intros [p Hp]; eauto]. unfold updateActivePriority in H. run_inv H.
    injection Hr0 as <- <-. by eapply update_active_chain.
  - intros p Hc. eexists. split; [by apply Hrun|]. pose proof (chain_NoDup _ _ _ Hc) as Hn.
    split; [apply visits_frame|]. split; [apply visits_static|]. split; [intros; by apply visits_other|].
    assert (prio (foldl (flip set_effective) k p) t = effective k th) as ->.
    { rewrite <- (set_effective_prio _ _ _ Ht). unfold prio. destruct Hc as [t ? _ _ _|t ? p _ _ _]; [done|].
      cbn [foldl flip]. rewrite visits_other; [done|]. by apply NoDup_cons in Hn as [? _]. }
    destruct (effective_spec k th) as (H1 & H2 & H3); [by apply Hr in Ht|]. split_and!; try done.
    intros Hd. by apply visits_rise.
Qed.

(** From the thread that waits in [contended] to the main thread, the holder. *)
Lemma donation_propagates_witness :
  let k := fst contended in
  exists k', updateActivePriority 8192 k = Ok (tt, k') /\ k' = set_threads (threads k') k /\
    prio k' 8192 = 40 /\ StronglySorted (fun a b => prio k' a <= prio k' b) [8192; 4096].
Proof.
  intros k. destruct (threads k !! 8192) as [th|] eqn:E; [|by vm_compute in E].
  destruct (threads k !! 4096) as [th'|] eqn:E'; [|by vm_compute in E'].
  destruct (donation_propagates k 8192 th E) as [_ H].
  - intros t th2 Ht.
    assert (bool_decide (map_Forall (fun _ th => PRI_MIN <= nativePriority th) (threads k)) = true) as Hb
      by (by vm_compute).
    apply bool_decide_eq_true in Hb. by apply Hb in Ht.
  - assert ((fun th => is_thread k (pl_thread (donees th))) <$> threads k !! 4096 = Some false) as Hx by (by vm_compute).
    assert ((fun th => pl_thread (donees th)) <$> threads k !! 8192 = Some 4096) as Hy by (by vm_compute).
    assert (donors_of k <$> threads k !! 4096 = Some [8192]) as Hz by (by vm_compute).
    assert ((fun th => (nativePriority th, donors_of k th)) <$> threads k !! 8192 = Some (40, [])) as Hw by (by vm_compute).
    rewrite E in Hy, Hw. rewrite E' in Hx, Hz. cbn in Hx, Hy, Hz, Hw.
    clearbody k. injection Hx as Hx. injection Hy as Hy. injection Hz as Hz. injection Hw as Hw1 Hw2.
    destruct (H [8192; 4096]) as (k' & H1 & H2 & _ & _ & _ & _ & H3 & H4).
    + eapply chain_next; [done|exact E|]. rewrite Hy. by eapply chain_end; [|exact E'|].
    + exists k'. split; [exact H1|]. split; [exact H2|]. split.
      * destruct H3 as [H3|H3]; [congruence|]. rewrite Hw2 in H3. exact (False_ind _ (proj1 (Exists_nil _) H3)).
      * apply H4. eapply donating_cons; [exact E'|rewrite Hz; by left|constructor].
Defined.

(** ** Withdrawing donations *)

Section Release.
Context (l : Z) (n : nat).

Abbreviation at_ ds x := (nth x ds no_donation).

(** [d] is one of the first [n] donors, for another lock. *)
Definition kept_donor (ds : list priority_lock) (d : priority_lock) : Prop :=
  pl_lock d <> l /\ exists x, (x < n)%nat /\ at_ ds x = d.

Lemma skip_back_spec ds i j :
  (i <= j)%nat -> let j' := skip_back l ds i j in
  (i <= j' <= j)%nat /\ (forall x, (j' < x <= j)%nat -> pl_lock (at_ ds x) = l) /\
  (pl_lock (at_ ds j') = l -> j' = i).
Proof using.
  induction j as [|j IH]; intros Hij; cbn.
  { split_and!; intros; lia. }
  destruct (Z.eqb_spec (pl_lock (at_ ds (S j))) l) as [E|E]; cbn [andb]; [|split_and!; intros; done || lia].
  destruct (Nat.leb_spec i j) as [Hlt|Hge].
  - destruct IH as (H1 & H2 & H3); [lia|]. split_and!; [lia|lia| |done].
    intros x Hx. destruct (decide (x = S j)) as [->|]; [done|]. apply H2. lia.
  - split_and!; intros; lia.
Qed.

Lemma nth_insert ds i x d :
  (i < length ds)%nat -> at_ (<[i := d]> ds) x = if decide (x = i) then d else at_ ds x.
Proof using.
  intros Hi. rewrite !nth_lookup. case_decide as E; subst.
  - by rewrite list_lookup_insert_eq.
  - by rewrite list_lookup_insert_ne.
Qed.

(** Overwriting a donor of this lock by a copy of one of another lock. *)
Lemma kept_donor_copy ds i j d :
  (i < length ds)%nat -> (j < n)%nat -> (i < n)%nat -> pl_lock (at_ ds i) = l ->
  kept_donor (<[i := at_ ds j]> ds) d <-> kept_donor ds d.
Proof using.
  intros Hi Hj Hin El. unfold kept_donor. split; intros (Hd & x & Hx & Ex); (split; [done|]).
  - rewrite nth_insert in Ex by done. case_decide; eauto.
  - destruct (decide (x = i)) as [->|Hne]; [congruence|]. exists x.
    rewrite nth_insert by done. rewrite decide_False by done. done.
Qed.

Lemma release_loop_spec fuel ds i j ds' i' :
  release_loop fuel l ds i j = (ds', i') ->
  (n <= length ds)%nat -> (j < n)%nat -> (i <= S j)%nat -> (S j - i < fuel)%nat ->
  (forall x, (x < i)%nat -> pl_lock (at_ ds x) <> l) ->
  (forall x, (j < x < n)%nat -> pl_lock (at_ ds x) = l) ->
  length ds' = length ds /\ (i' <= n)%nat /\
  (forall x, (x < i')%nat -> pl_lock (at_ ds' x) <> l) /\
  (forall x, (i' <= x < n)%nat -> pl_lock (at_ ds' x) = l) /\
  (forall d, kept_donor ds' d <-> kept_donor ds d).
Proof using.
  revert ds i j. induction fuel as [|fuel IH]; intros ds i j H Hlen Hj Hij Hf Hlo Hhi; [lia|].
  cbn [release_loop] in H. destruct (Nat.leb_spec i j) as [Hle|Hgt].
  2: { simplify_eq. split_and!; try done; [lia|]. intros x Hx. apply Hhi. lia. }
  destruct (Z.eqb_spec (pl_lock (at_ ds i)) l) as [E|E].
  - destruct (skip_back_spec ds i j Hle) as (H1 & H2 & H3). cbv zeta in *. set (j' := skip_back l ds i j) in *.
    assert (forall x, (j' < x < n)%nat -> pl_lock (at_ ds x) = l) as Hhi'.
    { intros x Hx. destruct (decide (x <= j)%nat); [apply H2; lia|apply Hhi; lia]. }
    destruct (Z.eqb_spec (pl_lock (at_ ds j')) l) as [E'|E']; cbn [negb] in H.
    + rewrite E, Z.eqb_refl in H. simplify_eq. split_and!; try done; [lia|].
      intros x Hx. destruct (decide (x = i')) as [->|]; [done|]. apply Hhi'. rewrite (H3 E'). lia.
    + rewrite nth_insert, decide_True in H by (done || lia).
      destruct (Z.eqb_spec (pl_lock (at_ ds j')) l) as [|_]; [done|].
      apply IH in H as (A1 & A2 & A3 & A4 & A5); rewrite ?length_insert in *; try lia.
      * split_and!; try done. intros d. rewrite A5. apply kept_donor_copy; [lia..|done].
      * intros x Hx. rewrite nth_insert by lia. case_decide; [done|]. apply Hlo. lia.
      * intros x Hx. rewrite nth_insert by lia. rewrite decide_False by lia. apply Hhi'. lia.
  - destruct (Z.eqb_spec (pl_lock (at_ ds i)) l) as [|_]; [done|].
    apply IH in H; try lia; try done. intros x Hx. destruct (decide (x = i)) as [->|]; [done|]. apply Hlo. lia.
Qed.

End Release.

(** Withdrawing the donations for a lock.  Of the first [n] donors, the loop of
    [lock_release] leaves as the first [i] exactly those entered for another lock:
    none of the lock being released is left among them, and none of another lock
    is lost (an entry may come out twice).  What is left after them is of the
    released lock only. *)
Theorem release_donors_spec l ds n ds' i :
  release_donors l ds n = (ds', i) -> (n <= length ds)%nat ->
  (i <= n)%nat /\ length ds' = length ds /\
  (forall d, d ∈ take i ds' <-> d ∈ take n ds /\ pl_lock d <> l) /\
  Forall (fun d => pl_lock d = l) (take (n - i) (drop i ds')).
Proof.
  unfold release_donors. destruct n as [|n]; intros H Hlen.
  { injection H as <- <-. split_and!; try done. cbn. set_solver. }
  apply (release_loop_spec l (S n)) in H as (A1 & A2 & A3 & A4 & A5); try (intros; lia).
  assert (forall m ds0 d, (m <= length ds0)%nat ->
    d ∈ take m ds0 <-> exists x, (x < m)%nat /\ nth x ds0 no_donation = d) as Htake.
  { intros m ds0 d Hm. rewrite list_elem_of_lookup. split.
    - intros (x & Hx). apply lookup_take_Some in Hx as [Hx Hlt]. exists x. split; [done|]. by apply nth_lookup_Some.
    - intros (x & Hx & <-). exists x. rewrite lookup_take_lt by done.
      destruct (lookup_lt_is_Some_2 ds0 x) as [e He]; [lia|]. by rewrite (nth_lookup_Some _ _ _ _ He). }
  split_and!; try done.
  - intros d. rewrite !Htake by lia. specialize (A5 d). unfold kept_donor in A5. split.
    + intros (x & Hx & <-). specialize (A3 x Hx). destruct A5 as [A5 _].
      destruct A5 as (_ & y & Hy & Ey); [split; [done|]; exists x; split; [lia|done]|]. eauto.
    + intros [(x & Hx & <-) Hne]. destruct A5 as [_ A5].
      destruct A5 as (_ & y & Hy & Ey); [eauto|]. exists y. split; [|done].
      destruct (decide (y < i)%nat); [done|]. rewrite <- Ey in Hne. exfalso. apply Hne, A4. lia.
  - apply Forall_forall. intros d Hd. apply list_elem_of_lookup in Hd as (x & Hx).
    apply lookup_take_Some in Hx as [Hx Hlt]. rewrite lookup_drop in Hx.
    rewrite <- (nth_lookup_Some _ _ no_donation _ Hx). apply A4. lia.
Qed.

Lemma release_donors_spec_witness :
  let a := {| pl_lock := 77; pl_thread := 1 |} in let b := {| pl_lock := 78; pl_thread := 2 |} in
  let c := {| pl_lock := 77; pl_thread := 3 |} in
  (b ∈ [b; b] <-> b ∈ [a; b; c] /\ pl_lock b <> 77) /\ (a ∈ [b; b] <-> a ∈ [a; b; c] /\ pl_lock a <> 77).
Proof.
  intros a b c.
  pose proof (release_donors_spec 77 [a; b; c] 3 [b; b; c] 2 eq_refl (le_n _)) as (_ & _ & H & _).
  split; apply H.
Defined.

(** The main thread holds 77 and 78.  A thread of priority 40 waits for 77; while
    the main thread sleeps, one of priority 35 waits for 78; the main thread then
    releases 77. *)
Definition stale_run : list action :=
  [ACall (CLockAcquire 77); AExec; AExec; AExec; AExec; ACall (CLockAcquire 78); AExec; AExec; AExec; AExec] ++
  create 5 16384 516 ++ create 40 8192 500 ++
  [AExec; AExec; ACall (CLockAcquire 77); AExec; AExec; AExec; AExec] ++
  create 35 12288 508 ++
  [ASleep 1; AExec; ACall (CLockAcquire 78); AExec; AExec; AExec;
   AExec; ATimer; AExec; ATimer; AExec; ATimer; AExec; ATimer; AExec; AExec; ACall (CLockRelease 77); AExec].

(** The compaction of [lock_release] does not step over the donor it has moved,
    so that with donors for [77; 78] the second comes out twice and the index
    reaches [numDonors]: the list is not trimmed and the priority not computed
    anew.  There is a run that ends with a thread at priority 40 whose own priority
    and remaining donors give 35. *)
Theorem lock_release_stale_donation :
  exists k code th, rtc step boot (k, code) /\ threads k !! 4096 = Some th /\ holder k 77 = NULL /\
    priority th = 40 /\ effective k th = 35.
Proof.
  pose (m := default boot (acts stale_run boot)).
  exists (fst m), (snd m), (default (blank_thread 0) (threads (fst m) !! 4096)).
  split; [apply (acts_step stale_run); by vm_compute|]. split_and!; by vm_compute.
Qed.
