(* ===== verification/Sleep.v ===== *)
(** The sleep queue of devices/timer.c: [timer_sleep] keeps it by wake-up time and
    [timer_wake] wakes exactly the threads that are due. *)
From Stdlib Require Import ZArith Lia.
From stdpp Require Import base numbers sorting gmap list relations.
From S2P Require Import Prelude.
From S2P Require Import FixedPoint.
From S2P Require Import Thread.
From S2P Require Import Machine.
From S2P Require Import Sched.

Local Open Scope Z_scope.

(** * The queue *)

Definition by_time (q : list sleep_elem) : Prop :=
  StronglySorted (fun a b => wakeTicks a <= wakeTicks b) q.

(** The entries whose thread still sleeps. *)
Definition asleep (q : list sleep_elem) : list sleep_elem := filter (fun s => removeFlag s = 0) q.

Lemma sleep_insert_asleep new q :
  removeFlag new = 0 -> asleep (sleep_insert new q) ≡ₚ new :: asleep q.
Proof.
  intros Hn. unfold asleep. induction q as [|s q IH]; cbn [sleep_insert].
  { by rewrite filter_cons_True. }
  destruct (Z.eqb_spec (removeFlag s) 0) as [E|E]; cbn [negb].
  - destruct (wakeTicks new <? wakeTicks s).
    + by rewrite filter_cons_True.
    + rewrite !(filter_cons_True _ s) by done. rewrite IH. apply Permutation_swap.
  - rewrite (filter_cons_False _ s) by done. done.
Qed.

Lemma sleep_insert_Forall (P : sleep_elem -> Prop) new q :
  P new -> Forall P q -> Forall P (sleep_insert new q).
Proof.
  intros Hn. induction 1 as [|s q Hs Hq IH]; cbn; [by constructor|].
  repeat case_match; repeat constructor; auto.
Qed.

Lemma sleep_insert_sorted new q : by_time q -> by_time (sleep_insert new q).
Proof.
  unfold by_time. induction q as [|s q IH]; cbn; intros Hs; [repeat constructor|].
  apply StronglySorted_inv in Hs as [Hq Hs]. case_match; [by apply IH|].
  destruct (Z.ltb_spec (wakeTicks new) (wakeTicks s)).
  - repeat constructor; try done; [lia|]. eapply Forall_impl; [apply Hs|]. cbn; intros; lia.
  - constructor; [by apply IH|]. by apply sleep_insert_Forall.
Qed.

(** * Waking *)

Definition due (now : Z) (s : sleep_elem) : bool := wakeTicks s <=? now.

(** The threads to wake: those of due entries that have not been woken. *)
Definition to_wake (now : Z) (q : list sleep_elem) : list Z :=
  currentThread <$> filter (fun s => due now s = true) (asleep q).

Definition mark (now : Z) (s : sleep_elem) : sleep_elem :=
  if due now s && (removeFlag s =? 0)
  then {| wakeTicks := wakeTicks s; currentThread := currentThread s; removeFlag := 1 |} else s.

Definition wake_all (ts : list Z) (m : gmap Z thread_status) : gmap Z thread_status :=
  foldl (fun m t => <[t := THREAD_READY]> m) m ts.

Lemma thread_unblock_stat t k a k' :
  thread_unblock t k = Ok (a, k') -> stat k' = <[t := THREAD_READY]> (stat k).
Proof.
  unfold thread_unblock. intros H. repeat (first [run_inv H; injection Hr as <- <- |
    run_inv H; apply assert_inv in Hr as [_ ->] | run_inv H; apply get_thread_inv in Hr as [_ ->]]).
  run_inv H. apply upd_status_inv in Hr as (_ & S1 & _). run_inv H. apply keeps_intr_view in Hr.
  injection H as <- <-. unfold sched_view in Hr. injection Hr as _ _ _ _ ->. done.
Qed.

Lemma keeps_unblock_prios t : keeps prios (thread_unblock t).
Proof. unfold thread_unblock, intr_set_level, intr_enable, intr_disable. keeps_solve. Qed.

Lemma nothing_due now s q :
  now < wakeTicks s -> by_time (s :: q) -> to_wake now (s :: q) = [] /\ map (mark now) (s :: q) = s :: q.
Proof.
  intros Hs [Hq Hf]%StronglySorted_inv.
  assert (forall e, e ∈ s :: q -> due now e = false) as Hd.
  { intros e [->|He]%elem_of_cons; apply Z.leb_gt; [done|]. rewrite Forall_forall in Hf. apply Hf in He. lia. }
  split.
  - unfold to_wake. destruct (filter (fun s => due now s = true) (asleep (s :: q))) as [|e l] eqn:E; [done|].
    assert (e ∈ filter (fun s => due now s = true) (asleep (s :: q))) as He by (rewrite E; left).
    apply list_elem_of_filter in He as [He1 [_ He2]%list_elem_of_filter]. by rewrite Hd in He1.
  - rewrite <- (map_id (s :: q)) at 2. apply map_ext_in. intros e He%list_elem_of_In. unfold mark. by rewrite Hd.
Qed.

Lemma wake_loop_spec now q k r k' :
  by_time q -> sched_inv k -> by_priority k (ready_list k) -> wake_loop now q k = Ok (r, k') ->
  r = map (mark now) q /\ stat k' = wake_all (to_wake now q) (stat k) /\
  Forall (fun t => stat k !! t = Some THREAD_BLOCKED) (to_wake now q) /\
  sched_inv k' /\ prios k' = prios k /\ by_priority k' (ready_list k') /\ cur k' = cur k.
Proof.
  revert k r. induction q as [|s q IH]; intros k r Hq Hi Hp H; cbn [wake_loop] in H.
  { injection H as <- <-. by split_and!. }
  pose proof Hq as [Hq' _]%StronglySorted_inv.
  destruct (Z.leb_spec (wakeTicks s) now) as [Hd|Hd].
  2: { injection H as <- <-. destruct (nothing_due now s q Hd Hq) as [-> ->]. by split_and!. }
  assert (due now s = true) as Hdue by (by apply Z.leb_le).
  destruct (Z.eqb_spec (removeFlag s) 0) as [Hf|Hf].
  - run_inv H. run_inv H. injection H as <- <-. destruct a.
    apply thread_unblock_stat in Hr as Hs. apply keeps_unblock_prios in Hr as Hpr.
    destruct (unblock_insert_split k (currentThread s) _ Hp) as (r1 & r2 & E1 & E2 & F1 & F2).
    apply thread_unblock_inv in Hr as (Hi0 & Hb & Hc & Hrl); [|done].
    assert (by_priority k0 (ready_list k0)) as Hp0.
    { rewrite Hrl, E2. eapply by_priority_ext; [by apply prios_prio|].
      apply by_priority_middle; [by rewrite <- E1| |done]. eapply Forall_impl; [apply F1|]. cbn; intros; lia. }
    destruct (IH k0 a0 Hq' Hi0 Hp0 Hr0) as (-> & A1 & A2 & A3 & A4 & A5 & A6).
    assert (to_wake now (s :: q) = currentThread s :: to_wake now q) as ->.
    { unfold to_wake, asleep. by rewrite !filter_cons_True. }
    split_and!; try done.
    + cbn [map]. unfold mark at 2. by rewrite Hdue, Hf.
    + by rewrite A1, Hs.
    + constructor; [done|]. apply Forall_forall. intros t Ht. rewrite Forall_forall in A2. apply A2 in Ht.
      rewrite Hs in Ht. by apply lookup_insert_Some in Ht as [[_ ?]|[_ ?]].
    + by rewrite A4.
    + by rewrite A6.
  - run_inv H. injection H as <- <-. destruct (IH k a Hq' Hi Hp Hr) as (-> & A).
    assert (to_wake now (s :: q) = to_wake now q) as ->.
    { unfold to_wake, asleep. by rewrite filter_cons_False. }
    split; [|done]. cbn [map]. unfold mark at 2. rewrite Hdue. by destruct (Z.eqb_spec (removeFlag s) 0).
Qed.

(** C7: Sleepers wake on time.  If the sleep queue is ordered by wake-up time,
    [timer_wake] makes ready exactly the threads whose time has come and which have
    not been woken before, all of them blocked until then; it marks their entries,
    leaves the entries and the statuses of all other threads as they are, and keeps
    the run queue consistent and ordered by priority. *)
Theorem timer_wake_spec k a k' :
  timer_wake k = Ok (a, k') -> by_time (sleep_queue k) -> sched_inv k -> by_priority k (ready_list k) ->
  sleep_queue k' = map (mark (ticks k)) (sleep_queue k) /\
  stat k' = wake_all (to_wake (ticks k) (sleep_queue k)) (stat k) /\
  Forall (fun t => stat k !! t = Some THREAD_BLOCKED) (to_wake (ticks k) (sleep_queue k)) /\
  sched_inv k' /\ by_priority k' (ready_list k') /\ cur k' = cur k.
Proof.
  unfold timer_wake, timer_ticks. intros H Hq Hi Hp. run_inv H. injection Hr as <- <-.
  run_inv H. injection Hr as <- <-. run_inv H. injection H as <- <-.
  destruct (wake_loop_spec _ _ _ _ _ Hq Hi Hp Hr) as (-> & A1 & A2 & A3 & A4 & A5 & A6).
  split_and!; try done.
  - by apply (sched_inv_view k0).
Qed.

(** Two sleepers, one of them due at tick 5. *)
Definition sleepers : list action :=
  create 20 8192 500 ++ create 25 12288 508 ++ create 5 16384 516 ++ [ASleep 9; AExec; ASleep 5].

Definition asleep_k : kstate := set_ticks 7 (fst (default boot (acts sleepers boot))).

Lemma sleepers_inv : machine_inv (default boot (acts sleepers boot)).
Proof.
  apply (rtc_machine_inv boot); [|apply boot_inv]. apply (acts_step sleepers). by vm_compute.
Qed.

Lemma asleep_sorted : by_priority asleep_k (ready_list asleep_k).
Proof.
  apply (eq_ind [16384] (by_priority asleep_k)); [|by vm_compute]. unfold by_priority. repeat constructor.
Qed.

Lemma ticks_view n k : sched_view (set_ticks n k) = sched_view k.
Proof. reflexivity. Qed.

Lemma timer_wake_spec_witness :
  exists k', timer_wake asleep_k = Ok (tt, k') /\ to_wake 7 (sleep_queue asleep_k) = [12288] /\
    stat k' = wake_all (to_wake (ticks asleep_k) (sleep_queue asleep_k)) (stat asleep_k).
Proof.
  destruct (timer_wake asleep_k) as [[[] k']|e] eqn:E; [|by vm_compute in E].
  exists k'. split; [done|]. split; [by vm_compute|].
  pose (k := fst (default boot (acts sleepers boot))).
  destruct (timer_wake_spec asleep_k tt k' E) as (_ & H & _).
  - assert (sleep_queue asleep_k = [{| wakeTicks := 5; currentThread := 12288; removeFlag := 0 |};
      {| wakeTicks := 9; currentThread := 4096; removeFlag := 0 |}]) as -> by (by vm_compute).
    clear. repeat constructor; cbn; lia.
  - unfold asleep_k. apply (sched_inv_view k); [apply ticks_view|].
    apply sleepers_inv.
  - apply asleep_sorted.
  - exact H.
Defined.

(** Going to sleep.  The insertion of [timer_sleep] keeps the queue ordered by
    wake-up time, loses no thread that still sleeps, and adds the new one. *)
Theorem timer_sleep_queue new q :
  by_time q -> removeFlag new = 0 ->
  by_time (sleep_insert new q) /\ asleep (sleep_insert new q) ≡ₚ new :: asleep q.
Proof. intros Hq Hn. split; [by apply sleep_insert_sorted|by apply sleep_insert_asleep]. Qed.

Lemma timer_sleep_queue_witness :
  let s t th f := {| wakeTicks := t; currentThread := th; removeFlag := f |} in
  by_time (sleep_insert (s 6 3 0) [s 1 1 1; s 9 2 0]).
Proof.
  intros s. apply (timer_sleep_queue (s 6 3 0) [s 1 1 1; s 9 2 0]); [|done].
  repeat constructor; cbn; lia.
Defined.
