(* ===== verification/StringC.v ===== *)
(** lib/string.c: blocks of memory and null-terminated strings, at the level of
    bytes and pointers. *)
From Stdlib Require Import ZArith Lia.
From stdpp Require Import base numbers sorting gmap list.
From S2P Require Import Prelude.

Local Open Scope Z_scope.

(** * Memory *)

(** The bytes of the memory that may be accessed, by address. *)
Abbreviation mem := (gmap Z Z).
Abbreviation mM := (st mem).

Definition load (p : Z) : mM Z := fun m =>
  match m !! p with
  | Some b => Ok (b, m)
  | None => Err EFault
  end.

Definition store (p b : Z) : mM unit := fun m =>
  match m !! p with
  | Some _ => Ok (tt, <[p := u8 b]> m)
  | None => Err EFault
  end.

(** Fuel for a loop over a string: it meets a different byte in each round, so
    that as many rounds as there are bytes, and one more, are enough. *)
Definition scan {A R} (body : A -> mM (A + R)) (a : A) : mM R :=
  m ← st_get; loop (S (size m)) body a.

(** * Blocks *)

Definition block_args (a b size : Z) : mM unit :=
  assert (negb (a =? 0) || (size =? 0));; assert (negb (b =? 0) || (size =? 0)).

Fixpoint copy_up (n : nat) (dst src : Z) : mM unit :=
  match n with
  | O => mret tt
  | S n => b ← load src; store dst b;; copy_up n (dst + 1) (src + 1)
  end.

Fixpoint copy_down (n : nat) (dst src : Z) : mM unit :=
  match n with
  | O => mret tt
  | S n => b ← load (src - 1); store (dst - 1) b;; copy_down n (dst - 1) (src - 1)
  end.

Definition memcpy (dst src size : Z) : mM Z :=
  block_args dst src size;; copy_up (Z.to_nat size) dst src;; mret dst.

(** [dst] itself is the loop variable, and what is returned. *)
Definition memmove (dst src size : Z) : mM Z :=
  block_args dst src size;;
  if dst <? src then copy_up (Z.to_nat size) dst src;; mret (dst + size)
  else copy_down (Z.to_nat size) (dst + size) (src + size);; mret dst.

Fixpoint cmp_loop (n : nat) (a b : Z) : mM Z :=
  match n with
  | O => mret 0
  | S n =>
      x ← load a; y ← load b;
      if negb (x =? y) then mret (if y <? x then 1 else -1) else cmp_loop n (a + 1) (b + 1)
  end.

Definition memcmp (a b size : Z) : mM Z := block_args a b size;; cmp_loop (Z.to_nat size) a b.

Fixpoint chr_loop (n : nat) (block ch : Z) : mM Z :=
  match n with
  | O => mret 0
  | S n => x ← load block; if x =? ch then mret block else chr_loop n (block + 1) ch
  end.

Definition memchr (block ch size : Z) : mM Z :=
  assert (negb (block =? 0) || (size =? 0));; chr_loop (Z.to_nat size) block (u8 ch).

Fixpoint set_loop (n : nat) (dst value : Z) : mM unit :=
  match n with
  | O => mret tt
  | S n => store dst value;; set_loop n (dst + 1) value
  end.

Definition memset (dst value size : Z) : mM Z :=
  assert (negb (dst =? 0) || (size =? 0));; set_loop (Z.to_nat size) dst value;; mret dst.

(** * Strings *)

Definition strcmp (a b : Z) : mM Z :=
  assert (negb (a =? 0));; assert (negb (b =? 0));;
  scan (fun '(a, b) =>
    x ← load a; y ← load b;
    if negb (x =? 0) && (x =? y) then mret (inl (a + 1, b + 1))
    else mret (inr (if x <? y then -1 else if y <? x then 1 else 0))) (a, b).

(** A null pointer is 0. *)
Definition strchr (string c : Z) : mM Z :=
  assert (negb (string =? 0));;
  scan (fun p =>
    x ← load p;
    if x =? u8 c then mret (inr p) else if x =? 0 then mret (inr 0) else mret (inl (p + 1))) string.

Definition strcspn (string stop : Z) : mM Z :=
  scan (fun length =>
    x ← load (string + length);
    if x =? 0 then mret (inr length)
    else q ← strchr stop x; if negb (q =? 0) then mret (inr length) else mret (inl (length + 1))) 0.

Definition strspn (string skip : Z) : mM Z :=
  scan (fun length =>
    x ← load (string + length);
    if x =? 0 then mret (inr length)
    else q ← strchr skip x; if q =? 0 then mret (inr length) else mret (inl (length + 1))) 0.

Definition strpbrk (string stop : Z) : mM Z :=
  scan (fun p =>
    x ← load p;
    if x =? 0 then mret (inr 0)
    else q ← strchr stop x; if negb (q =? 0) then mret (inr p) else mret (inl (p + 1))) string.

Definition strrchr (string c : Z) : mM Z :=
  scan (fun '(s, p) =>
    x ← load s;
    if x =? 0 then mret (inr p)
    else mret (inl (s + 1, if x =? u8 c then s else p))) (string, 0).

Definition strlen (string : Z) : mM Z :=
  assert (negb (string =? 0));;
  p ← scan (fun p => x ← load p; if x =? 0 then mret (inr p) else mret (inl (p + 1))) string;
  mret (p - string).

Definition strnlen (string maxlen : Z) : mM Z :=
  scan (fun length =>
    x ← load (string + length);
    if negb (x =? 0) && (length <? maxlen) then mret (inl (length + 1)) else mret (inr length)) 0.

Fixpoint str_loop (n : nat) (haystack needle len : Z) : mM Z :=
  match n with
  | O => mret 0
  | S n =>
      c ← memcmp haystack needle len;
      if c =? 0 then mret haystack else str_loop n (haystack + 1) needle len
  end.

Definition strstr (haystack needle : Z) : mM Z :=
  hl ← strlen haystack; nl ← strlen needle;
  if nl <=? hl then str_loop (S (Z.to_nat (hl - nl))) haystack needle nl else mret 0.

(** The token and the new [*save_ptr]. *)
Definition strtok_r (s delimiters save_ptr : Z) : mM (Z * Z) :=
  assert (negb (delimiters =? 0));;
  let s := if s =? 0 then save_ptr else s in
  assert (negb (s =? 0));;
  start ← scan (fun s =>
    x ← load s;
    q ← strchr delimiters x;
    if negb (q =? 0) then
      (if x =? 0 then mret (inr (inl s)) else mret (inl (s + 1)))
    else mret (inr (inr s))) s;
  match start with
  | inl s => mret (0, s)
  | inr token =>
      s ← scan (fun s =>
        x ← load s;
        q ← strchr delimiters x;
        if q =? 0 then mret (inl (s + 1)) else mret (inr s)) token;
      x ← load s;
      if negb (x =? 0) then store s 0;; mret (token, s + 1) else mret (token, s)
  end.

Definition strlcpy (dst src size : Z) : mM Z :=
  assert (negb (dst =? 0));; assert (negb (src =? 0));;
  src_len ← strlen src;
  (if 0 <? size then
     let dst_len := if src_len <? size - 1 then src_len else size - 1 in
     memcpy dst src dst_len;; store (dst + dst_len) 0
   else mret tt);;
  mret src_len.

Definition strlcat (dst src size : Z) : mM Z :=
  assert (negb (dst =? 0));; assert (negb (src =? 0));;
  src_len ← strlen src;
  dst_len ← strlen dst;
  (if (0 <? size) && (dst_len <? size) then
     let copy_cnt := if src_len <? size - dst_len - 1 then src_len else size - dst_len - 1 in
     memcpy (dst + dst_len) src copy_cnt;; store (dst + dst_len + copy_cnt) 0
   else mret tt);;
  mret (u32 (src_len + dst_len)).

(** * What a string in memory is *)

(** The bytes [bs] from address [p] on. *)
Definition block (m : mem) (p : Z) (bs : list Z) : Prop :=
  forall i b, bs !! i = Some b -> m !! (p + Z.of_nat i) = Some b.

(** A null-terminated string. *)
Definition cstr (m : mem) (p : Z) (s : list Z) : Prop :=
  0 < p /\ block m p (s ++ [0]) /\ Forall (fun b => 0 < b < 256) s.

Lemma block_cons m p b bs : block m p (b :: bs) <-> m !! p = Some b /\ block m (p + 1) bs.
Proof.
  unfold block. split.
  - intros H. split; [rewrite <- (Z.add_0_r p); by apply (H O)|].
    intros i c Hi. specialize (H (S i) c Hi). by replace (p + 1 + Z.of_nat i) with (p + Z.of_nat (S i)) by lia.
  - intros [H0 H] [|i] c Hi; cbn in Hi; [by simplify_eq; rewrite Z.add_0_r|].
    replace (p + Z.of_nat (S i)) with (p + 1 + Z.of_nat i) by lia. by apply H.
Qed.

Lemma block_app m p bs cs : block m p (bs ++ cs) <-> block m p bs /\ block m (p + Zlen bs) cs.
Proof.
  revert p. induction bs as [|b bs IH]; intros p; cbn [app length].
  - rewrite Z.add_0_r. split; [|tauto]. intros H. split; [intros i c Hi; by rewrite lookup_nil in Hi|done].
  - rewrite !block_cons, IH. replace (p + 1 + Zlen bs) with (p + Z.of_nat (S (length bs))) by lia. tauto.
Qed.

Lemma block_insert_ne m p bs a v : (a < p \/ p + Zlen bs <= a) -> block m p bs -> block (<[a := v]> m) p bs.
Proof.
  intros Ha H i b Hi. apply lookup_lt_Some in Hi as Hl. rewrite lookup_insert_ne by lia. by apply H.
Qed.

Lemma cstr_nil m p : cstr m p [] <-> 0 < p /\ m !! p = Some 0.
Proof.
  unfold cstr. cbn. rewrite block_cons. split; [tauto|]. intros [H1 H2]. by split_and!.
Qed.

Lemma cstr_cons m p b s : cstr m p (b :: s) <-> 0 < p /\ m !! p = Some b /\ 0 < b < 256 /\ cstr m (p + 1) s.
Proof.
  unfold cstr. cbn [app]. rewrite block_cons, Forall_cons. split; [intros (H1 & [H2 H3] & H4 & H5)|naive_solver].
  split_and!; try done; lia.
Qed.

Lemma cstr_app m p s t : cstr m p (s ++ t) -> cstr m (p + Zlen s) t.
Proof.
  intros (H1 & H2 & H3). rewrite <- app_assoc in H2. apply block_app in H2 as [_ H2].
  apply Forall_app in H3 as [_ H3]. split_and!; try done. lia.
Qed.

(** The bytes of a string are at different addresses. *)
Lemma block_size m p bs : block m p bs -> (length bs <= size m)%nat.
Proof.
  intros H. rewrite <- size_dom.
  assert (NoDup ((fun i => p + Z.of_nat i) <$> seq 0 (length bs))) as Hn.
  { apply NoDup_fmap_2; [intros x y; lia|apply NoDup_seq]. }
  pose proof (size_list_to_set (C := gset Z) _ Hn) as Hs. rewrite length_fmap, length_seq in Hs.
  rewrite <- Hs. apply subseteq_size.
  intros a Ha%elem_of_list_to_set. apply list_elem_of_fmap in Ha as (i & -> & Hi%elem_of_seq).
  destruct (lookup_lt_is_Some_2 bs i) as [b Hb]; [lia|]. apply elem_of_dom. exists b. by apply H.
Qed.

Lemma cstr_size m p s : cstr m p s -> (length s < S (size m))%nat.
Proof. intros (_ & H & _). apply block_size in H. rewrite length_app in H. cbn in H. lia. Qed.

Lemma load_run m p b : m !! p = Some b -> load p m = Ok (b, m).
Proof. intros H. unfold load. by rewrite H. Qed.

Lemma store_run m p b : is_Some (m !! p) -> store p b m = Ok (tt, <[p := u8 b]> m).
Proof. intros [x H]. unfold store. by rewrite H. Qed.

(** The rule for loops along a string. *)
Lemma scan_list {A R} (body : A -> mM (A + R)) (Inv : list Z -> A -> Prop) (Post : R -> Prop) m s a :
  (length s < S (size m))%nat ->
  (forall e l a, Inv (e :: l) a ->
     (exists a', body a m = Ok (inl a', m) /\ Inv l a') \/ (exists r, body a m = Ok (inr r, m) /\ Post r)) ->
  (forall a, Inv [] a -> exists r, body a m = Ok (inr r, m) /\ Post r) ->
  Inv s a -> exists r, scan body a m = Ok (r, m) /\ Post r.
Proof.
  intros Hl Hstep Hend Hi. unfold scan. rewrite (run_bind _ _ _ _ _ (run_get m)).
  destruct (loop_list body (fun l a m' => m' = m /\ Inv l a) (fun r m' => m' = m /\ Post r)) with
    (l := s) (fuel := S (size m)) (a := a) (s := m) as (r & m' & Hr & -> & HP); try done.
  - intros e l a' m' [-> HI]. destruct (Hstep _ _ _ HI) as [(a'' & H1 & H2)|(r & H1 & H2)]; eauto 8.
  - intros a' m' [-> HI]. destruct (Hend _ HI) as (r & H1 & H2). eauto 8.
  - eauto.
Qed.

Lemma assert_nonnull (m : mem) p : 0 < p -> assert (negb (p =? 0)) m = Ok (tt, m).
Proof. intros H. apply run_assert. by destruct (Z.eqb_spec p 0); [lia|]. Qed.

Lemma strlen_run m p s : cstr m p s -> strlen p m = Ok (Zlen s, m).
Proof.
  intros Hs. pose proof Hs as (Hp & _). unfold strlen.
  rewrite (run_bind _ _ _ _ _ (assert_nonnull m p Hp)).
  destruct (scan_list (fun p => x ← load p; if x =? 0 then mret (inr p) else mret (inl (p + 1)))
    (fun l a => cstr m a l /\ a + Zlen l = p + Zlen s) (fun r => r = p + Zlen s) m s p) as (r & Hr & ->).
  - by eapply cstr_size.
  - intros e l a [Hc Ha]. apply cstr_cons in Hc as (H1 & H2 & H3 & H4). left.
    rewrite (run_bind _ _ _ _ _ (load_run _ _ _ H2)). destruct (Z.eqb_spec e 0); [lia|].
    eexists. split; [done|]. split; [done|]. cbn [length] in Ha. lia.
  - intros a [Hc Ha]. apply cstr_nil in Hc as [H1 H2]. rewrite (run_bind _ _ _ _ _ (load_run _ _ _ H2)).
    eexists. split; [done|]. cbn in Ha. lia.
  - done.
  - rewrite (run_bind _ _ _ _ _ Hr). unfold mret, st_ret. do 2 f_equal. lia.
Qed.

(** Where [c] first is in the string at [p], its terminator included. *)
Fixpoint chr_at (p c : Z) (s : list Z) : Z :=
  match s with
  | [] => if c =? 0 then p else 0
  | b :: s => if b =? c then p else chr_at (p + 1) c s
  end.

Lemma u8_id b : 0 <= b < 256 -> u8 b = b.
Proof. intros H. apply uwrap_id; [lia|]. split; lia. Qed.

Lemma strchr_run m p s c : cstr m p s -> 0 <= c < 256 -> strchr p c m = Ok (chr_at p c s, m).
Proof.
  intros Hs Hc. pose proof Hs as (Hp & _). unfold strchr. rewrite u8_id by done.
  rewrite (run_bind _ _ _ _ _ (assert_nonnull m p Hp)).
  destruct (scan_list (fun p => x ← load p;
      if x =? c then mret (inr p) else if x =? 0 then mret (inr 0) else mret (inl (p + 1)))
    (fun l a => cstr m a l /\ chr_at a c l = chr_at p c s) (fun r => r = chr_at p c s) m s p) as (r & Hr & ->).
  - by eapply cstr_size.
  - intros e l a [Hl Ha]. apply cstr_cons in Hl as (H1 & H2 & H3 & H4). cbn in Ha.
    rewrite (run_bind _ _ _ _ _ (load_run _ _ _ H2)). destruct (Z.eqb_spec e c); [by right; eexists|].
    destruct (Z.eqb_spec e 0); [lia|]. left. eauto.
  - intros a [Hl Ha]. apply cstr_nil in Hl as [H1 H2]. cbn in Ha. rewrite (run_bind _ _ _ _ _ (load_run _ _ _ H2)).
    rewrite Z.eqb_sym. destruct (Z.eqb_spec c 0); eauto.
  - done.
  - done.
Qed.

Definition delim (ds : list Z) (b : Z) : bool := (b =? 0) || existsb (Z.eqb b) ds.

Lemma chr_at_delim p b ds : 0 < p -> (chr_at p b ds =? 0) = negb (delim ds b).
Proof.
  revert p. induction ds as [|d ds IH]; intros p Hp; unfold delim; cbn.
  - rewrite orb_false_r. destruct (b =? 0); [|done]. cbn. apply Z.eqb_neq. lia.
  - rewrite (Z.eqb_sym d b). destruct (b =? d); cbn.
    + rewrite orb_true_r. apply Z.eqb_neq. lia.
    + apply IH. lia.
Qed.

(** * Tokens *)

(** The pieces of [s] between delimiters, without the empty ones; [cur] is the
    piece begun. *)
Fixpoint tok (ds cur s : list Z) : list (list Z) :=
  match s with
  | [] => match cur with [] => [] | _ => [cur] end
  | b :: s =>
      if delim ds b then match cur with [] => tok ds [] s | _ => cur :: tok ds [] s end
      else tok ds (cur ++ [b]) s
  end.

Definition tokens (ds s : list Z) : list (list Z) := tok ds [] s.

Lemma tokens_skip ds b s : delim ds b = true -> tokens ds (b :: s) = tokens ds s.
Proof. intros H. unfold tokens. cbn. by rewrite H. Qed.

Lemma tok_app ds cur t s :
  Forall (fun b => delim ds b = false) t -> tok ds cur (t ++ s) = tok ds (cur ++ t) s.
Proof.
  intros Ht. revert cur. induction Ht as [|b t Hb Ht IH]; intros cur; cbn; [by rewrite app_nil_r|].
  by rewrite Hb, IH, <- app_assoc.
Qed.

Lemma tokens_word ds t s :
  t <> [] -> Forall (fun b => delim ds b = false) t ->
  match s with [] => True | b :: _ => delim ds b = true end ->
  tokens ds (t ++ s) = t :: tokens ds (tail s).
Proof.
  intros Hne Ht Hs. unfold tokens. rewrite tok_app by done. cbn [app].
  destruct s as [|b s]; cbn; [by destruct t|]. rewrite Hs. by destruct t.
Qed.

Lemma read_delim m p dp ds b :
  m !! p = Some b -> 0 <= b < 256 -> cstr m dp ds ->
  load p m = Ok (b, m) /\ strchr dp b m = Ok (chr_at dp b ds, m) /\
  (chr_at dp b ds =? 0) = negb (delim ds b).
Proof.
  intros H1 H2 H3. split; [by apply load_run|]. split; [by apply strchr_run|].
  apply chr_at_delim. apply H3.
Qed.

(** The two loops of [strtok_r]. *)
Definition tok_skip (dp : Z) (s : Z) : mM (Z + (Z + Z)) :=
  x ← load s;
  q ← strchr dp x;
  if negb (q =? 0) then (if x =? 0 then mret (inr (inl s)) else mret (inl (s + 1)))
  else mret (inr (inr s)).

Definition tok_word (dp : Z) (s : Z) : mM (Z + Z) :=
  x ← load s; q ← strchr dp x; if q =? 0 then mret (inl (s + 1)) else mret (inr s).

Lemma tok_skip_run m p s dp ds :
  cstr m p s -> cstr m dp ds ->
  exists r, scan (tok_skip dp) p m = Ok (r, m) /\
    match r with
    | inl q => cstr m q [] /\ tokens ds s = []
    | inr q => exists b l, cstr m q (b :: l) /\ q + Zlen (b :: l) = p + Zlen s /\ p <= q /\
        delim ds b = false /\ tokens ds (b :: l) = tokens ds s
    end.
Proof.
  intros Hs Hd. eapply (scan_list _ (fun l a => cstr m a l /\ a + Zlen l = p + Zlen s /\ p <= a /\
    tokens ds l = tokens ds s)) with (s := s).
  - by eapply cstr_size.
  - intros b l a (Hl & Ha & Hp & Ht). pose proof Hl as (H1 & H2 & H3 & H4)%cstr_cons.
    destruct (read_delim m a dp ds b H2 ltac:(lia) Hd) as (R1 & R2 & R3). unfold tok_skip.
    rewrite (run_bind _ _ _ _ _ R1), (run_bind _ _ _ _ _ R2), R3. destruct (delim ds b) eqn:E; cbn.
    + left. destruct (Z.eqb_spec b 0); [lia|]. eexists. split; [done|].
      rewrite tokens_skip in Ht by done. cbn [length] in Ha. split_and!; try done; lia.
    + right. eexists. split; [done|]. cbv beta iota. eauto 8.
  - intros a (Hl & Ha & Hp & Ht). pose proof Hl as [H1 H2]%cstr_nil.
    destruct (read_delim m a dp ds 0 H2 ltac:(lia) Hd) as (R1 & R2 & R3). unfold tok_skip.
    rewrite (run_bind _ _ _ _ _ R1), (run_bind _ _ _ _ _ R2), R3. cbn. eexists. split; [done|]. done.
  - done.
Qed.

Lemma tok_word_run m q l dp ds :
  cstr m q l -> cstr m dp ds ->
  exists t rest, scan (tok_word dp) q m = Ok (q + Zlen t, m) /\ l = t ++ rest /\
    Forall (fun b => delim ds b = false) t /\ match rest with [] => True | b :: _ => delim ds b = true end.
Proof.
  intros Hs Hd.
  destruct (scan_list (tok_word dp)
    (fun rest a => exists t, a = q + Zlen t /\ l = t ++ rest /\ Forall (fun b => delim ds b = false) t)
    (fun r => exists t rest, r = q + Zlen t /\ l = t ++ rest /\ Forall (fun b => delim ds b = false) t /\
       match rest with [] => True | b :: _ => delim ds b = true end) m l q) as (r & Hr & t & rest & -> & H).
  - by eapply cstr_size.
  - intros b rest a (t & -> & -> & Ht). pose proof (cstr_app _ _ _ _ Hs) as Hl.
    pose proof Hl as (H1 & H2 & H3 & H4)%cstr_cons.
    destruct (read_delim m _ dp ds b H2 ltac:(lia) Hd) as (R1 & R2 & R3). unfold tok_word.
    rewrite (run_bind _ _ _ _ _ R1), (run_bind _ _ _ _ _ R2), R3. destruct (delim ds b) eqn:E; cbn.
    + right. eexists. split; [done|]. exists t, (b :: rest). done.
    + left. eexists. split; [done|]. exists (t ++ [b]). rewrite <- app_assoc, length_app. cbn.
      split_and!; [lia|done|]. apply Forall_app. by repeat constructor.
  - intros a (t & -> & -> & Ht). pose proof (cstr_app _ _ _ _ Hs) as Hl. pose proof Hl as [H1 H2]%cstr_nil.
    destruct (read_delim m _ dp ds 0 H2 ltac:(lia) Hd) as (R1 & R2 & R3). unfold tok_word.
    rewrite (run_bind _ _ _ _ _ R1), (run_bind _ _ _ _ _ R2), R3. cbn. eexists. split; [done|]. by exists t, [].
  - exists []. cbn. split_and!; [lia|done|done].
  - exists t, rest. split; [done|]. naive_solver.
Qed.

(** Writing the null byte that ends a token. *)
Lemma cstr_cut m q t b rest :
  cstr m q (t ++ b :: rest) ->
  cstr (<[q + Zlen t := 0]> m) q t /\ cstr (<[q + Zlen t := 0]> m) (q + Zlen t + 1) rest.
Proof.
  intros Hc. pose proof (cstr_app _ _ _ _ Hc) as (_ & _ & _ & Hr)%cstr_cons. destruct Hc as (Hq & Hb & Hf).
  split; (split_and!; [lia| |]).
  - rewrite <- app_assoc in Hb. apply block_app in Hb as [Hb _]. apply block_app. split.
    + apply block_insert_ne; [lia|done].
    + apply block_cons. split; [apply lookup_insert_eq|]. intros i c Hi. by rewrite lookup_nil in Hi.
  - by apply Forall_app in Hf as [? _].
  - destruct Hr as (_ & Hr & _). apply block_insert_ne; [lia|done].
  - apply Hr.
Qed.

(** [strtok_r] splits a string.  Called on a string (or, with a null pointer,
    at the position saved by the last call), it returns null when nothing but
    delimiters is left; otherwise it returns the first piece between delimiters, as
    a string of its own in memory, and saves a position from which the remaining
    pieces follow.  It writes nothing outside the string. *)
Theorem strtok_r_spec m s save p str dp ds :
  p = (if s =? 0 then save else s) -> cstr m p str -> cstr m dp ds ->
  match tokens ds str with
  | [] => exists q, strtok_r s dp save m = Ok ((0, q), m) /\ cstr m q []
  | t :: ts => exists ptr q m' rest, strtok_r s dp save m = Ok ((ptr, q), m') /\ cstr m' ptr t /\
      cstr m' q rest /\ tokens ds rest = ts /\ p <= ptr /\
      (forall a, a < p \/ p + Zlen str < a -> m' !! a = m !! a)
  end.
Proof.
  intros Hp Hs Hd. unfold strtok_r.
  rewrite (run_bind _ _ _ _ _ (assert_nonnull m dp (proj1 Hd))). cbv zeta. rewrite <- Hp.
  rewrite (run_bind _ _ _ _ _ (assert_nonnull m p (proj1 Hs))).
  destruct (tok_skip_run m p str dp ds Hs Hd) as ([q|q] & Hr & H); unfold tok_skip in Hr;
    rewrite (run_bind _ _ _ _ _ Hr).
  - destruct H as [H1 ->]. eauto.
  - destruct H as (b & l & Hl & Hlen & Hq & Hb & Ht). rewrite <- Ht.
    destruct (tok_word_run m q (b :: l) dp ds Hl Hd) as (t & rest & Hw & E & Hf & Hr'). unfold tok_word in Hw.
    assert (t <> []) as Hne by (intros ->; cbn in E; destruct rest; simplify_eq; congruence).
    rewrite E in Hl, Hlen |- *. rewrite (tokens_word ds t rest Hne Hf Hr').
    rewrite (run_bind _ _ _ _ _ Hw). destruct rest as [|d rest]; cbn [tail].
    + pose proof (cstr_app _ _ _ _ Hl) as He. pose proof He as [_ H0]%cstr_nil.
      rewrite (run_bind _ _ _ _ _ (load_run _ _ _ H0)). rewrite app_nil_r in Hl. cbn. eauto 10.
    + pose proof (cstr_app _ _ _ _ Hl) as (_ & H0 & Hdr & _)%cstr_cons.
      rewrite (run_bind _ _ _ _ _ (load_run _ _ _ H0)). destruct (Z.eqb_spec d 0); [lia|]. cbn [negb].
      rewrite (run_bind _ _ _ _ _ (store_run _ _ 0 ltac:(eauto))). destruct (cstr_cut _ _ _ _ _ Hl) as [C1 C2].
      do 4 eexists. split; [done|]. split_and!; [exact C1|exact C2|done|done|].
      intros a Ha. rewrite length_app in Hlen. cbn in Hlen. apply lookup_insert_ne. lia.
Qed.

(** "/a//bc" at 100, the delimiter "/" at 50. *)
Definition demo_mem : mem := list_to_map (zip (seqZ 100 7) [47; 97; 47; 47; 98; 99; 0] ++ [(50, 47); (51, 0)]).

Lemma strtok_r_spec_witness :
  exists ptr q m' rest, strtok_r 100 50 0 demo_mem = Ok ((ptr, q), m') /\ cstr m' ptr [97] /\
    cstr m' q rest /\ tokens [47] rest = [[98; 99]].
Proof.
  destruct (strtok_r_spec demo_mem 100 0 100 [47; 97; 47; 47; 98; 99] 50 [47]) as (ptr & q & m' & rest & H).
  - done.
  - repeat (apply cstr_cons; split_and!; try done; try (by vm_compute)). apply cstr_nil. by split; [|vm_compute].
  - repeat (apply cstr_cons; split_and!; try done; try (by vm_compute)). apply cstr_nil. by split; [|vm_compute].
  - exists ptr, q, m', rest. destruct H as (H1 & H2 & H3 & H4 & _). by split_and!.
Defined.

(** * Copying *)

Definition is_byte (b : Z) : Prop := 0 <= b < 256.

(** [n] bytes from [p] on may be written. *)
Definition writable (m : mem) (p : Z) (n : nat) : Prop :=
  forall i, (i < n)%nat -> is_Some (m !! (p + Z.of_nat i)).

(** [m'] is [m] with [bs] written at [p]. *)
Definition written (m m' : mem) (p : Z) (bs : list Z) : Prop :=
  block m' p bs /\ forall a, a < p \/ p + Zlen bs <= a -> m' !! a = m !! a.

Lemma writable_insert m p n a v : writable m p n -> writable (<[a := v]> m) p n.
Proof. intros H i Hi. destruct (H i Hi) as [x Hx]. rewrite lookup_insert. case_decide; eauto. Qed.

Lemma writable_S m p n : writable m p (S n) -> is_Some (m !! p) /\ writable m (p + 1) n.
Proof.
  intros H. split; [specialize (H O ltac:(lia)); by rewrite Z.add_0_r in H|].
  intros i Hi. specialize (H (S i) ltac:(lia)). by replace (p + 1 + Z.of_nat i) with (p + Z.of_nat (S i)) by lia.
Qed.

Lemma copy_up_run bs m dst src :
  block m src bs -> Forall is_byte bs -> writable m dst (length bs) ->
  dst < src \/ src + Zlen bs <= dst ->
  exists m', copy_up (length bs) dst src m = Ok (tt, m') /\ written m m' dst bs.
Proof.
  revert m dst src. induction bs as [|b bs IH]; intros m dst src Hb Hf Hw Hd; cbn [copy_up length].
  { exists m. split; [done|]. split; [|done]. intros i c Hi. by rewrite lookup_nil in Hi. }
  apply block_cons in Hb as [H0 Hb]. apply Forall_cons in Hf as [Hfb Hf].
  apply writable_S in Hw as [Hw0 Hw]. cbn [length] in Hd.
  rewrite (run_bind _ _ _ _ _ (load_run _ _ _ H0)), (run_bind _ _ _ _ _ (store_run _ _ b Hw0)), u8_id by done.
  destruct (IH (<[dst := b]> m) (dst + 1) (src + 1)) as (m' & Hr & Hin & Hout).
  - apply block_insert_ne; [lia|done].
  - done.
  - by apply writable_insert.
  - lia.
  - exists m'. split; [done|]. split.
    + apply block_cons. split; [|done]. rewrite Hout by lia. apply lookup_insert_eq.
    + intros a Ha. cbn [length] in Ha. rewrite Hout by lia. apply lookup_insert_ne. lia.
Qed.

Lemma copy_down_run bs m dst src :
  block m src bs -> Forall is_byte bs -> writable m dst (length bs) -> src <= dst ->
  exists m', copy_down (length bs) (dst + Zlen bs) (src + Zlen bs) m = Ok (tt, m') /\ written m m' dst bs.
Proof.
  revert m. induction bs as [|b bs IH] using rev_ind; intros m Hb Hf Hw Hd.
  { exists m. split; [done|]. split; [|done]. intros i c Hi. by rewrite lookup_nil in Hi. }
  apply block_app in Hb as [Hb [H0 _]%block_cons]. apply Forall_app in Hf as [Hf Hfb%Forall_cons].
  rewrite length_app in *. cbn [length] in *. rewrite Nat.add_1_r in *. cbn [copy_down].
  replace (src + Z.of_nat (S (length bs)) - 1) with (src + Zlen bs) by lia.
  replace (dst + Z.of_nat (S (length bs)) - 1) with (dst + Zlen bs) by lia.
  rewrite (run_bind _ _ _ _ _ (load_run _ _ _ H0)).
  rewrite (run_bind _ _ _ _ _ (store_run _ _ b (Hw (length bs) ltac:(lia)))), u8_id by apply Hfb.
  destruct (IH (<[dst + Zlen bs := b]> m)) as (m' & Hr & Hin & Hout).
  - apply block_insert_ne; [lia|done].
  - done.
  - apply writable_insert. intros i Hi. apply Hw. lia.
  - done.
  - exists m'. split; [done|]. split.
    + apply block_app. split; [done|]. apply block_cons. split.
      * rewrite Hout by lia. apply lookup_insert_eq.
      * intros i c Hi. by rewrite lookup_nil in Hi.
    + rewrite length_app. cbn [length]. intros a Ha. rewrite Hout by lia. apply lookup_insert_ne. lia.
Qed.

Lemma block_args_run (m : mem) a b n : 0 < a -> 0 < b -> block_args a b n m = Ok (tt, m).
Proof.
  intros Ha Hb. unfold block_args. destruct (Z.eqb_spec a 0); [lia|]. destruct (Z.eqb_spec b 0); [lia|]. done.
Qed.

(** [memmove] copies between blocks that may overlap.  The [n] bytes that were at
    [src] are at [dst] afterwards, and nothing else has changed.  The pointer it
    returns is [dst] when [dst] is not below [src], and the end of the block
    otherwise, where its comment says that it returns [dst]. *)
Theorem memmove_spec m dst src bs :
  0 < dst -> 0 < src -> block m src bs -> Forall is_byte bs -> writable m dst (length bs) ->
  exists m', memmove dst src (Zlen bs) m = Ok (if dst <? src then dst + Zlen bs else dst, m') /\
    block m' dst bs /\ (forall a, a < dst \/ dst + Zlen bs <= a -> m' !! a = m !! a).
Proof.
  intros Hd Hs Hb Hf Hw. unfold memmove. rewrite (run_bind _ _ _ _ _ (block_args_run m dst src _ Hd Hs)), Nat2Z.id.
  destruct (Z.ltb_spec dst src).
  - destruct (copy_up_run bs m dst src Hb Hf Hw ltac:(lia)) as (m' & Hr & Hw').
    rewrite (run_bind _ _ _ _ _ Hr). eauto.
  - destruct (copy_down_run bs m dst src Hb Hf Hw ltac:(lia)) as (m' & Hr & Hw').
    rewrite (run_bind _ _ _ _ _ Hr). eauto.
Qed.

Lemma demo_block : block demo_mem 100 [47; 97; 47] /\ writable demo_mem 102 3.
Proof.
  split.
  - repeat (apply block_cons; split; [by vm_compute|]). intros i c Hi. by rewrite lookup_nil in Hi.
  - intros [|[|[|i]]] Hi; [by eexists; vm_compute..|lia].
Qed.

Lemma memmove_spec_witness :
  exists m', memmove 102 100 3 demo_mem = Ok (102, m') /\ block m' 102 [47; 97; 47].
Proof.
  destruct demo_block as [Hb Hw].
  destruct (memmove_spec demo_mem 102 100 [47; 97; 47]) as (m' & H1 & H2 & _).
  - lia.
  - lia.
  - done.
  - unfold is_byte. repeat apply Forall_cons_2; try lia. by apply Forall_nil_2.
  - done.
  - exists m'. by split.
Defined.

(** [strlcpy] copies as much as fits.  If the destination has room for [size]
    bytes and does not overlap the source string, the first [size - 1] bytes of the
    source (or all of it, if it is shorter) stand at [dst] as a null-terminated
    string, nothing outside the destination has changed, and the length of the
    source is returned. *)
Theorem strlcpy_spec m dst src s size :
  cstr m src s -> 0 < dst -> 0 < size -> writable m dst (Z.to_nat size) ->
  dst + size <= src \/ src + Zlen s < dst ->
  exists m', strlcpy dst src size m = Ok (Zlen s, m') /\
    cstr m' dst (take (Z.to_nat (size - 1)) s) /\
    (forall a, a < dst \/ dst + size <= a -> m' !! a = m !! a).
Proof.
  intros Hs Hd Hsz Hw Hdis. unfold strlcpy.
  rewrite (run_bind _ _ _ _ _ (assert_nonnull m dst Hd)), (run_bind _ _ _ _ _ (assert_nonnull m src (proj1 Hs))).
  rewrite (run_bind _ _ _ _ _ (strlen_run _ _ _ Hs)). destruct (Z.ltb_spec 0 size); [|lia]. cbv zeta.
  set (t := take (Z.to_nat (size - 1)) s).
  assert ((if Zlen s <? size - 1 then Zlen s else size - 1) = Zlen t) as ->.
  { unfold t. rewrite length_take. case_match eqn:E; [apply Z.ltb_lt in E|apply Z.ltb_ge in E]; lia. }
  assert (length t <= Z.to_nat (size - 1) /\ length t <= length s)%nat as [Ht1 Ht2] by (unfold t; rewrite length_take; lia).
  destruct Hs as (Hp & Hb & Hf). apply block_app in Hb as [Hb _].
  assert (s = t ++ drop (Z.to_nat (size - 1)) s) as Es by (unfold t; by rewrite take_drop).
  rewrite Es in Hb, Hf. apply block_app in Hb as [Hb _]. apply Forall_app in Hf as [Hf _].
  destruct (copy_up_run t m dst src Hb) as (m' & Hr & Hin & Hout).
  - eapply Forall_impl; [apply Hf|]. unfold is_byte. cbn; intros; lia.
  - intros i Hi. apply Hw. lia.
  - lia.
  - unfold memcpy. rewrite (run_bind _ _ _ tt (<[dst + Zlen t := 0]> m')).
    + exists (<[dst + Zlen t := 0]> m'). split; [done|]. split; [split_and!; [done| |done]|].
      * apply block_app. split; [apply block_insert_ne; [lia|done]|]. apply block_cons.
        split; [apply lookup_insert_eq|]. intros i c Hi. by rewrite lookup_nil in Hi.
      * intros a Ha. rewrite lookup_insert_ne by lia. apply Hout. lia.
    + rewrite (run_bind _ _ _ dst m').
      * apply store_run. destruct (Hw (length t) ltac:(lia)) as [x Hx]. rewrite Hout by lia. eauto.
      * rewrite (run_bind _ _ _ _ _ (block_args_run m dst src _ Hd Hp)), Nat2Z.id, (run_bind _ _ _ _ _ Hr). done.
Qed.

Lemma strlcpy_spec_witness :
  exists m', strlcpy 100 50 2 demo_mem = Ok (1, m') /\ cstr m' 100 [47].
Proof.
  destruct (strlcpy_spec demo_mem 100 50 [47] 2) as (m' & H1 & H2 & _).
  - repeat (apply cstr_cons; split_and!; try done; try (by vm_compute)). apply cstr_nil. by split; [|vm_compute].
  - lia.
  - lia.
  - intros [|[|i]] Hi; [by eexists; vm_compute..|lia].
  - cbn. lia.
  - exists m'. by split.
Defined.

(** * Comparing *)

(** Byte-wise lexicographic order. *)
Fixpoint str_compare (s t : list Z) : Z :=
  match s, t with
  | [], [] => 0
  | [], _ => -1
  | _, [] => 1
  | x :: s, y :: t => if x =? y then str_compare s t else if x <? y then -1 else 1
  end.

Lemma str_compare_eq s t : str_compare s t = 0 <-> s = t.
Proof.
  revert t. induction s as [|x s IH]; intros [|y t]; cbn; try done.
  destruct (Z.eqb_spec x y) as [->|Hne]; [rewrite IH; naive_solver|]. case_match; naive_solver.
Qed.

(** [strcmp] is the lexicographic order of unsigned bytes: it returns -1, 0 or 1
    as the first string is smaller, equal or greater, and 0 exactly when the strings
    are the same. *)
Theorem strcmp_spec m a b s t :
  cstr m a s -> cstr m b t ->
  strcmp a b m = Ok (str_compare s t, m) /\ (str_compare s t = 0 <-> s = t).
Proof.
  intros Ha Hb. split; [|apply str_compare_eq]. unfold strcmp.
  rewrite (run_bind _ _ _ _ _ (assert_nonnull m a (proj1 Ha))), (run_bind _ _ _ _ _ (assert_nonnull m b (proj1 Hb))).
  match goal with |- scan ?body _ _ = _ =>
    destruct (scan_list body (fun l '(p, q) => exists u, cstr m p l /\ cstr m q u /\ str_compare l u = str_compare s t)
      (fun r => r = str_compare s t) m s (a, b)) as (r & Hr & ->) end.
  - by eapply cstr_size.
  - intros x l [p q] (u & Hl & Hu & E). apply cstr_cons in Hl as (H1 & H2 & H3 & H4). cbn in E.
    rewrite (run_bind _ _ _ _ _ (load_run _ _ _ H2)). destruct u as [|y u].
    + apply cstr_nil in Hu as [_ Hq]. rewrite (run_bind _ _ _ _ _ (load_run _ _ _ Hq)). right.
      destruct (Z.eqb_spec x 0); [lia|]. cbn. destruct (Z.ltb_spec x 0); [lia|]. destruct (Z.ltb_spec 0 x); [|lia]. eauto.
    + apply cstr_cons in Hu as (_ & Hq & Hy & Hu). rewrite (run_bind _ _ _ _ _ (load_run _ _ _ Hq)).
      destruct (Z.eqb_spec x 0); [lia|]. destruct (Z.eqb_spec x y) as [->|Hne]; cbn; [left; eexists; split; [done|]; by exists u|].
      right. eexists. split; [done|]. destruct (Z.ltb_spec x y); [done|]. by destruct (Z.ltb_spec y x); [|lia].
  - intros [p q] (u & Hl & Hu & E). apply cstr_nil in Hl as [H1 H2]. rewrite (run_bind _ _ _ _ _ (load_run _ _ _ H2)).
    destruct u as [|y u].
    + apply cstr_nil in Hu as [_ Hq]. rewrite (run_bind _ _ _ _ _ (load_run _ _ _ Hq)). eauto.
    + apply cstr_cons in Hu as (_ & Hq & Hy & Hu). rewrite (run_bind _ _ _ _ _ (load_run _ _ _ Hq)). cbn.
      destruct (Z.ltb_spec 0 y); [|lia]. eauto.
  - eauto.
  - done.
Qed.

Lemma strcmp_spec_witness : strcmp 104 50 demo_mem = Ok (1, demo_mem).
Proof.
  apply (strcmp_spec demo_mem 104 50 [98; 99] [47]).
  - repeat (apply cstr_cons; split_and!; try done; try (by vm_compute)). apply cstr_nil. by split; [|vm_compute].
  - repeat (apply cstr_cons; split_and!; try done; try (by vm_compute)). apply cstr_nil. by split; [|vm_compute].
Defined.
