(* ===== verification/StdlibC.v ===== *)
(** lib/stdlib.c: heap sort and binary search of arrays of bytes in memory, and the
    conversion of decimal numbers. *)
From Stdlib Require Import ZArith Lia.
From stdpp Require Import base numbers sorting gmap list.
From S2P Require Import Prelude.
From S2P Require Import StringC.

Local Open Scope Z_scope.

(** * Character classes *)

Definition isdigit (c : Z) : bool := (48 <=? c) && (c <=? 57).

Definition isspace (c : Z) : bool :=
  (c =? 32) || (c =? 12) || (c =? 10) || (c =? 13) || (c =? 9) || (c =? 11).

(** [int] from the bits of a [char]. *)
Definition schar (b : Z) : Z := swrap 8 b.

Definition isprint (c : Z) : bool := (32 <=? c) && (c <? 127).

(** * Conversion *)

Definition atoi (s : Z) : mM Z :=
  assert (negb (s =? 0));;
  s ← scan (fun s => c ← load s; if isspace c then mret (inl (s + 1)) else mret (inr s)) s;
  c ← load s;
  let negative := negb (c =? 43) && (c =? 45) in
  let s := if (c =? 43) || (c =? 45) then s + 1 else s in
  value ← scan (fun '(s, value) =>
    c ← load s;
    if isdigit (schar c) then mret (inl (s + 1, s32 (s32 (value * 10) - (schar c - 48)))) else mret (inr value)) (s, 0);
  mret (if negative then value else s32 (- value)).

(** * Sorting and searching *)

Section compare.
(** The comparison function, called with the addresses of two elements; the
    auxiliary data it is passed are part of it. *)
Context (compare : Z -> Z -> mM Z).

Fixpoint swap_bytes (n : nat) (a b : Z) : mM unit :=
  match n with
  | O => mret tt
  | S n => t ← load a; y ← load b; store a y;; store b t;; swap_bytes n (a + 1) (b + 1)
  end.

Definition do_swap (array a_idx b_idx size : Z) : mM unit :=
  swap_bytes (Z.to_nat size) (array + (a_idx - 1) * size) (array + (b_idx - 1) * size).

Definition do_compare (array a_idx b_idx size : Z) : mM Z :=
  compare (array + (a_idx - 1) * size) (array + (b_idx - 1) * size).

(** One round of the loop: the index to go on with, or the end. *)
Definition heapify_round (array cnt size i : Z) : mM (Z + unit) :=
  let left := u32 (2 * i) in
  let right := u32 (2 * i + 1) in
  let max := i in
  gt ← (if left <=? cnt then c ← do_compare array left max size; mret (0 <? c) else mret false);
  let max := if gt : bool then left else max in
  gt ← (if right <=? cnt then c ← do_compare array right max size; mret (0 <? c) else mret false);
  let max := if gt : bool then right else max in
  if max =? i then mret (inr tt) else
  do_swap array i max size;; mret (inl max).

(** The index at least doubles in each round. *)
Definition heapify (array i cnt size : Z) : mM unit :=
  loop (S (Z.to_nat cnt)) (heapify_round array cnt size) i.

(** [i] counts down from [n] to 1. *)
Fixpoint build_heap (n : nat) (array cnt size : Z) : mM unit :=
  match n with
  | O => mret tt
  | S n' => heapify array (Z.of_nat n) cnt size;; build_heap n' array cnt size
  end.

(** [i] counts down from [n + 1] to 2. *)
Fixpoint sort_heap (n : nat) (array size : Z) : mM unit :=
  match n with
  | O => mret tt
  | S n' =>
      let i := Z.of_nat n + 1 in
      do_swap array 1 i size;; heapify array 1 (i - 1) size;; sort_heap n' array size
  end.

Definition sort (array cnt size : Z) : mM unit :=
  assert (negb (array =? 0) || (cnt =? 0));;
  assert (0 <? size);;
  build_heap (Z.to_nat (cnt / 2)) array cnt size;;
  sort_heap (Z.to_nat (cnt - 1)) array size.

Definition binary_search (key array cnt size : Z) : mM Z :=
  loop (S (Z.to_nat cnt)) (fun '(first, last) =>
    if first <? last then
      let range := (last - first) / size in
      let middle := first + range / 2 * size in
      cmp ← compare key middle;
      if cmp <? 0 then mret (inl (first, middle))
      else if 0 <? cmp then mret (inl (middle + size, last))
      else mret (inr middle)
    else mret (inr 0)) (array, array + size * cnt).

(** [compare_thunk] only drops the auxiliary data, which [compare] has none of. *)
Definition qsort (array cnt size : Z) : mM unit := sort array cnt size.
Definition bsearch (key array cnt size : Z) : mM Z := binary_search key array cnt size.
End compare.

(** * Arrays *)

(** Elements of [size] bytes, one after the other from [p] on. *)
Definition arr (m : mem) (p size : Z) (els : list (list Z)) : Prop :=
  forall k x, els !! k = Some x -> Zlen x = size /\ Forall is_byte x /\ block m (p + Z.of_nat k * size) x.

(** The memory outside [n] bytes at [p] is unchanged. *)
Definition outside (p n : Z) (m m' : mem) : Prop := forall a, a < p \/ p + n <= a -> m' !! a = m !! a.

Lemma outside_refl p n m : outside p n m m.
Proof. by intros a _. Qed.

Lemma outside_trans p n m1 m2 m3 : outside p n m1 m2 -> outside p n m2 m3 -> outside p n m1 m3.
Proof. intros H1 H2 a Ha. by rewrite H2, H1. Qed.

Lemma block_outside m m' p bs :
  (forall a, p <= a < p + Zlen bs -> m' !! a = m !! a) -> block m p bs -> block m' p bs.
Proof. intros H Hb i b Hi. apply lookup_lt_Some in Hi as Hl. rewrite H by lia. by apply Hb. Qed.

Lemma swap_bytes_run x : forall m a b y,
  block m a x -> block m b y -> length y = length x -> Forall is_byte x -> Forall is_byte y ->
  a + Zlen x <= b \/ b + Zlen x <= a ->
  exists m', swap_bytes (length x) a b m = Ok (tt, m') /\ block m' a y /\ block m' b x /\
    forall k, (k < a \/ a + Zlen x <= k) -> (k < b \/ b + Zlen x <= k) -> m' !! k = m !! k.
Proof.
  induction x as [|x0 x IH]; intros m a b y Ha Hb Hl Hx Hy Hd; destruct y as [|y0 y]; try done.
  { by exists m. }
  apply block_cons in Ha as [Ha0 Ha], Hb as [Hb0 Hb]. apply Forall_cons in Hx as [Hx0 Hx], Hy as [Hy0 Hy].
  cbn [length swap_bytes] in *. injection Hl as Hl.
  rewrite (run_bind _ _ _ x0 m) by (by apply load_run). rewrite (run_bind _ _ _ y0 m) by (by apply load_run).
  rewrite (run_bind _ _ _ tt (<[a := y0]> m)) by (rewrite store_run by done; by rewrite u8_id).
  set (m1 := <[b := x0]> (<[a := y0]> m)). rewrite (run_bind _ _ _ tt m1).
  2:{ rewrite store_run by (rewrite lookup_insert_ne by lia; done). by rewrite u8_id. }
  destruct (IH m1 (a + 1) (b + 1) y) as (m' & Hr & Ha' & Hb' & Hk); try done.
  - apply block_insert_ne; [lia|]. apply block_insert_ne; [lia|done].
  - apply block_insert_ne; [lia|]. apply block_insert_ne; [lia|done].
  - lia.
  - exists m'. split; [done|]. rewrite !block_cons. split; [|split].
    + split; [|done]. rewrite Hk by lia. unfold m1. rewrite lookup_insert_ne by lia. by rewrite lookup_insert_eq.
    + split; [|done]. rewrite Hk by lia. unfold m1. by rewrite lookup_insert_eq.
    + intros k Hk1 Hk2. rewrite Hk by lia. unfold m1. by rewrite !lookup_insert_ne by lia.
Qed.

(** The element at a 1-based index. *)
Definition elem (els : list (list Z)) (i : Z) : list Z := els !!! Z.to_nat (i - 1).

Definition swap_elems (els : list (list Z)) (i j : Z) : list (list Z) :=
  <[Z.to_nat (i - 1) := elem els j]> (<[Z.to_nat (j - 1) := elem els i]> els).

Lemma elem_lookup els i : 1 <= i <= Zlen els -> els !! Z.to_nat (i - 1) = Some (elem els i).
Proof. intros Hi. apply list_lookup_lookup_total_lt. lia. Qed.

Lemma length_swap els i j : length (swap_elems els i j) = length els.
Proof. unfold swap_elems. by rewrite !length_insert. Qed.

Lemma elem_swap els i j k :
  1 <= i <= Zlen els -> 1 <= j <= Zlen els -> 1 <= k <= Zlen els ->
  elem (swap_elems els i j) k = if decide (k = i) then elem els j else if decide (k = j) then elem els i else elem els k.
Proof.
  intros Hi Hj Hk. unfold elem at 1, swap_elems. case_decide as Ei.
  - subst. rewrite list_lookup_total_insert_eq; [done|]. rewrite length_insert. lia.
  - rewrite list_lookup_total_insert_ne by lia. case_decide as Ej.
    + subst. rewrite list_lookup_total_insert_eq; [done|]. lia.
    + by rewrite list_lookup_total_insert_ne by lia.
Qed.

(** Sorting moves elements of the first [cnt] only. *)
Definition moved (cnt : Z) (els els' : list (list Z)) : Prop :=
  take (Z.to_nat cnt) els' ≡ₚ take (Z.to_nat cnt) els /\ drop (Z.to_nat cnt) els' = drop (Z.to_nat cnt) els.

Lemma moved_refl cnt els : moved cnt els els.
Proof. done. Qed.

Lemma moved_trans cnt els1 els2 els3 : moved cnt els1 els2 -> moved cnt els2 els3 -> moved cnt els1 els3.
Proof. intros [P1 D1] [P2 D2]. split; [by rewrite P2|congruence]. Qed.

Lemma moved_perm cnt els els' : moved cnt els els' -> els' ≡ₚ els.
Proof.
  intros [P D]. by rewrite <- (take_drop (Z.to_nat cnt) els'), <- (take_drop (Z.to_nat cnt) els), P, D.
Qed.

Lemma moved_length cnt els els' : moved cnt els els' -> length els' = length els.
Proof. intros H. by rewrite (moved_perm _ _ _ H). Qed.

Lemma swap_moved cnt els i j : 1 <= i <= cnt -> 1 <= j <= cnt -> cnt <= Zlen els -> moved cnt els (swap_elems els i j).
Proof.
  intros Hi Hj Hc. unfold moved, swap_elems. rewrite !take_insert_lt, !drop_insert_lt by lia. split; [|done].
  apply Permutation_insert_swap; (rewrite lookup_take_lt by lia; apply elem_lookup; lia).
Qed.

Lemma arr_elem m p size els i : arr m p size els -> 1 <= i <= Zlen els ->
  Zlen (elem els i) = size /\ Forall is_byte (elem els i) /\ block m (p + (i - 1) * size) (elem els i).
Proof.
  intros H Hi. destruct (H _ _ (elem_lookup els i Hi)) as (H1 & H2 & H3). rewrite Z2Nat.id in H3 by lia. done.
Qed.

(** The element boundaries of two indices. *)
Lemma slots_disjoint i j size : 0 < size -> i <> j -> i * size + size <= j * size \/ j * size + size <= i * size.
Proof. intros Hs Hne. destruct (Z.lt_ge_cases i j); [left|right]; nia. Qed.

Lemma do_swap_run m p size els i j :
  arr m p size els -> 0 < size -> 1 <= i <= Zlen els -> 1 <= j <= Zlen els -> i <> j ->
  exists m', do_swap p i j size m = Ok (tt, m') /\ arr m' p size (swap_elems els i j) /\
    outside p (size * Zlen els) m m'.
Proof.
  intros Ha Hs Hi Hj Hne. destruct (arr_elem m p size els i Ha Hi) as (Li & Bi & Mi).
  destruct (arr_elem m p size els j Ha Hj) as (Lj & Bj & Mj).
  destruct (swap_bytes_run (elem els i) m (p + (i - 1) * size) (p + (j - 1) * size) (elem els j))
    as (m' & Hr & H1 & H2 & H3); try done; [lia| |].
  { destruct (slots_disjoint (i - 1) (j - 1) size Hs); lia. }
  exists m'. split; [|split].
  - unfold do_swap. by replace (Z.to_nat size) with (length (elem els i)) by lia.
  - intros k x Hk. apply lookup_lt_Some in Hk as Hkl. rewrite length_swap in Hkl.
    assert (x = elem (swap_elems els i j) (Z.of_nat k + 1)) as ->.
    { pose proof (elem_lookup (swap_elems els i j) (Z.of_nat k + 1)) as E. rewrite length_swap in E. specialize (E ltac:(lia)).
      replace (Z.to_nat (Z.of_nat k + 1 - 1)) with k in E by lia. congruence. }
    rewrite elem_swap by lia. case_decide as Ei; [|case_decide as Ej].
    + replace (Z.of_nat k) with (i - 1) by lia. done.
    + replace (Z.of_nat k) with (j - 1) by lia. done.
    + destruct (arr_elem m p size els (Z.of_nat k + 1) Ha ltac:(lia)) as (Lk & Bk & Mk).
      replace (Z.of_nat k + 1 - 1) with (Z.of_nat k) in Mk by lia. split; [done|]. split; [done|].
      eapply block_outside; [|exact Mk]. intros a Hal. rewrite Lk in Hal.
      destruct (slots_disjoint (Z.of_nat k) (i - 1) size Hs ltac:(lia)),
        (slots_disjoint (Z.of_nat k) (j - 1) size Hs ltac:(lia)); apply H3; lia.
  - intros a Hal. apply H3; rewrite Li; nia.
Qed.

(** * Heaps *)

Section order.
(** A comparison function that compares what the two elements hold, by a total
    preorder. *)
Context (compare : Z -> Z -> mM Z) (cmp : list Z -> list Z -> Z) (size : Z).
Context (Hsize : 0 < size).
Context (compare_cmp : forall m a b x y,
  block m a x -> block m b y -> Zlen x = size -> Zlen y = size -> compare a b m = Ok (cmp x y, m)).
Context (cmp_sym : forall x y, cmp x y < 0 <-> 0 < cmp y x).
Context (cmp_trans : forall x y z, cmp x y <= 0 -> cmp y z <= 0 -> cmp x z <= 0).

Definition le (x y : list Z) : Prop := cmp x y <= 0.

Lemma le_refl x : le x x.
Proof using cmp_sym. unfold le. pose proof (cmp_sym x x). lia. Qed.

Lemma le_flip x y : ~ le x y -> le y x.
Proof using cmp_sym. unfold le. intros H. pose proof (proj2 (cmp_sym y x)). lia. Qed.

Definition child (j c : Z) : Prop := c = 2 * j \/ c = 2 * j + 1.

(** The elements from [lo] on are a heap within the first [cnt]. *)
Definition heap (lo cnt : Z) (els : list (list Z)) : Prop :=
  forall j c, lo <= j -> child j c -> c <= cnt -> le (elem els c) (elem els j).

(** The same but for the element at [i]. *)
Record almost_heap (lo cnt i : Z) (els : list (list Z)) : Prop := {
  ah_other : forall j c, lo <= j -> j <> i -> child j c -> c <= cnt -> le (elem els c) (elem els j);
  ah_above : forall j c, lo <= j -> child j i -> child i c -> c <= cnt -> le (elem els c) (elem els j)
}.

Lemma do_compare_run m p els i j :
  arr m p size els -> 1 <= i <= Zlen els -> 1 <= j <= Zlen els ->
  do_compare compare p i j size m = Ok (cmp (elem els i) (elem els j), m).
Proof using compare_cmp.
  intros Ha Hi Hj. destruct (arr_elem m p size els i Ha Hi) as (Li & _ & Mi).
  destruct (arr_elem m p size els j Ha Hj) as (Lj & _ & Mj). by apply compare_cmp.
Qed.

(** The child of [i] that a round goes on with. *)
Lemma sift_step lo cnt i mx els :
  almost_heap lo cnt i els -> 1 <= lo <= i -> cnt <= Zlen els -> child i mx -> mx <= cnt ->
  le (elem els i) (elem els mx) -> (forall c, child i c -> c <= cnt -> le (elem els c) (elem els mx)) ->
  almost_heap lo cnt mx (swap_elems els i mx).
Proof using.
  intros [H1 H2] Hlo Hc Hch Hmx Him Hmax. split; unfold child in *.
  - intros j c Hj Hne Hjc Hcc. rewrite !elem_swap by lia. repeat case_decide; subst; try lia; try done.
    + apply H2; (done || lia).
    + apply Hmax; lia.
    + apply H1; (done || lia).
  - intros j c Hj Hjm Hmc Hcc. assert (j = i) as -> by lia. rewrite !elem_swap by lia.
    repeat case_decide; try lia. apply H1; (done || lia).
Qed.

Lemma heapify_run lo cnt p : 1 <= lo -> cnt < 2 ^ 30 ->
  forall fuel i m els,
  cnt - i < Z.of_nat fuel -> lo <= i <= cnt -> cnt <= Zlen els -> arr m p size els -> almost_heap lo cnt i els ->
  exists m' els', loop fuel (heapify_round compare p cnt size) i m = Ok (tt, m') /\ arr m' p size els' /\
    heap lo cnt els' /\ moved cnt els els' /\ outside p (size * Zlen els) m m'.
Proof using compare_cmp cmp_sym cmp_trans Hsize.
  intros Hlo Hcnt fuel. induction fuel as [|fuel IH]; intros i m els Hf Hi Hl Ha Hah; [lia|].
  assert (u32 (2 * i) = 2 * i /\ u32 (2 * i + 1) = 2 * i + 1) as [El Er] by (split; apply uwrap_id; unfold in_u; lia).
  set (mx1 := if (2 * i <=? cnt) && (0 <? cmp (elem els (2 * i)) (elem els i)) then 2 * i else i).
  set (mx := if (2 * i + 1 <=? cnt) && (0 <? cmp (elem els (2 * i + 1)) (elem els mx1)) then 2 * i + 1 else mx1).
  assert (1 <= mx1 <= cnt) as Hm1 by (unfold mx1; case_match eqn:E; [apply andb_true_iff in E as [E%Z.leb_le _]|]; lia).
  assert (heapify_round compare p cnt size i m =
    (if mx =? i then mret (inr tt) else do_swap p i mx size;; mret (inl mx)) m) as Hround.
  { unfold heapify_round. cbv zeta. rewrite El, Er.
    rewrite (run_bind _ _ _ ((2 * i <=? cnt) && (0 <? cmp (elem els (2 * i)) (elem els i))) m).
    2:{ destruct (Z.leb_spec (2 * i) cnt); [|done]. by rewrite (run_bind _ _ _ _ _ (do_compare_run m p els (2 * i) i Ha ltac:(lia) ltac:(lia))). }
    fold mx1. rewrite (run_bind _ _ _ ((2 * i + 1 <=? cnt) && (0 <? cmp (elem els (2 * i + 1)) (elem els mx1))) m); [done|].
    destruct (Z.leb_spec (2 * i + 1) cnt); [|done]. by rewrite (run_bind _ _ _ _ _ (do_compare_run m p els (2 * i + 1) mx1 Ha ltac:(lia) ltac:(lia))). }
  assert ((mx = i \/ child i mx /\ mx <= cnt) /\ le (elem els i) (elem els mx) /\
    forall c, child i c -> c <= cnt -> le (elem els c) (elem els mx)) as (Hch & Him & Hmax).
  { assert (le (elem els i) (elem els mx1) /\ (2 * i <= cnt -> le (elem els (2 * i)) (elem els mx1)) /\ (mx1 = i \/ mx1 = 2 * i))
      as (A1 & A2 & A3).
    { unfold mx1, le. destruct (Z.leb_spec (2 * i) cnt), (Z.ltb_spec 0 (cmp (elem els (2 * i)) (elem els i))) as [Hg|Hg]; cbn [andb];
        (split; [|split; [|by auto]]); try (intros; lia); try apply le_refl; try (intros; apply le_refl).
      apply cmp_sym in Hg. lia. }
    unfold mx, child. destruct (Z.leb_spec (2 * i + 1) cnt), (Z.ltb_spec 0 (cmp (elem els (2 * i + 1)) (elem els mx1))) as [Hg|Hg]; cbn [andb].
    - apply cmp_sym in Hg. assert (le (elem els mx1) (elem els (2 * i + 1))) as Hg' by (unfold le; lia).
      split; [by auto with lia|]. split; [by eapply cmp_trans|]. intros c [-> | ->] Hc; [|apply le_refl].
      eapply cmp_trans; [by apply A2|done].
    - split; [destruct A3; lia|]. split; [done|]. intros c [-> | ->] Hc; [by apply A2|done].
    - split; [destruct A3; lia|]. split; [done|]. intros c [-> | ->] Hc; [by apply A2|lia].
    - split; [destruct A3; lia|]. split; [done|]. intros c [-> | ->] Hc; [by apply A2|lia]. }
  destruct (Z.eqb_spec mx i) as [E|Hne].
  - exists m, els. split; [by apply loop_break|]. split; [done|]. split; [|split; [apply moved_refl|apply outside_refl]].
    intros j c Hj Hjc Hc. destruct (Z.eq_dec j i) as [->|Hji]; [rewrite <- E; by apply Hmax|by apply Hah].
  - destruct Hch as [?|[Hch Hmc]]; [done|].
    destruct (do_swap_run m p size els i mx Ha Hsize) as (m1 & Hs & Ha1 & Ho1); [lia|unfold child in Hch; lia|done|].
    rewrite (run_bind _ _ _ _ _ Hs) in Hround.
    destruct (IH mx m1 (swap_elems els i mx)) as (m2 & els2 & Hr & Ha2 & Hh & Hmv & Ho2); try done.
    + unfold child in Hch. lia.
    + unfold child in Hch. lia.
    + by rewrite length_swap.
    + apply sift_step; (done || lia).
    + exists m2, els2. split; [by rewrite (loop_continue _ _ _ _ _ _ Hround)|].
      split; [done|]. split; [done|]. rewrite length_swap in Ho2. split.
      * eapply moved_trans; [|done]. apply swap_moved; unfold child in Hch; lia.
      * by eapply outside_trans.
Qed.
Lemma build_heap_run cnt p n : forall m els,
  Zlen els = cnt -> cnt < 2 ^ 30 -> Z.of_nat n <= cnt / 2 -> arr m p size els -> heap (Z.of_nat n + 1) cnt els ->
  exists m' els', build_heap compare n p cnt size m = Ok (tt, m') /\ arr m' p size els' /\
    heap 1 cnt els' /\ moved cnt els els' /\ outside p (size * cnt) m m'.
Proof using compare_cmp cmp_sym cmp_trans Hsize.
  induction n as [|n IH]; intros m els Hl Hc Hn Ha Hh.
  { exists m, els. split; [done|]. split; [done|]. split; [done|]. split; [apply moved_refl|apply outside_refl]. }
  cbn [build_heap]. pose proof (Z.div_mod cnt 2). pose proof (Z.mod_pos_bound cnt 2).
  destruct (heapify_run (Z.of_nat (S n)) cnt p ltac:(lia) Hc (S (Z.to_nat cnt)) (Z.of_nat (S n)) m els)
    as (m1 & els1 & Hr1 & Ha1 & Hh1 & Hm1 & Ho1); [lia|lia|lia|done| |].
  { split; [intros j c Hj Hne; apply Hh; lia|]. intros j c Hj Hji. unfold child in Hji. lia. }
  rewrite (run_bind _ _ _ _ _ Hr1). rewrite Hl in Ho1. pose proof (moved_length _ _ _ Hm1) as Hlen.
  destruct (IH m1 els1) as (m2 & els2 & Hr2 & Ha2 & Hh2 & Hm2 & Ho2); [lia|lia|lia|done| |].
  { by replace (Z.of_nat n + 1) with (Z.of_nat (S n)) by lia. }
  exists m2, els2. split; [done|]. split; [done|]. split; [done|].
  split; [by eapply moved_trans|by eapply outside_trans].
Qed.

(** The root of a heap is a largest element. *)
Lemma heap_root cnt els : heap 1 cnt els -> forall k, 1 <= k <= cnt -> le (elem els k) (elem els 1).
Proof using cmp_sym cmp_trans.
  intros Hh k. remember (Z.to_nat k) as n eqn:En. revert k En.
  induction n as [n IH] using lt_wf_ind. intros k -> Hk. destruct (Z.eq_dec k 1) as [->|Hne]; [apply le_refl|].
  pose proof (Z.div_mod k 2 ltac:(lia)). pose proof (Z.mod_pos_bound k 2 ltac:(lia)).
  eapply cmp_trans; [apply (Hh (k / 2)); unfold child; lia|]. eapply IH; [|done|]; lia.
Qed.

Lemma moved_suffix cnt els els' k : moved cnt els els' -> 0 <= cnt < k -> elem els' k = elem els k.
Proof using.
  intros [_ D] Hk. unfold elem. replace (Z.to_nat (k - 1)) with (Z.to_nat cnt + Z.to_nat (k - 1 - cnt))%nat by lia.
  by rewrite <- !lookup_total_drop, D.
Qed.

Lemma moved_prefix cnt els els' k :
  moved cnt els els' -> 1 <= k <= cnt -> cnt <= Zlen els -> exists k', 1 <= k' <= cnt /\ elem els' k = elem els k'.
Proof using.
  intros Hm Hk Hl. pose proof (moved_length _ _ _ Hm) as Hlen. destruct Hm as [P _].
  assert (elem els' k ∈ take (Z.to_nat cnt) els) as Hin.
  { rewrite <- P. apply list_elem_of_lookup. exists (Z.to_nat (k - 1)). rewrite lookup_take_lt by lia. apply elem_lookup. lia. }
  apply list_elem_of_lookup in Hin as [n Hn]. apply lookup_lt_Some in Hn as Hnl. rewrite length_take in Hnl.
  rewrite lookup_take_lt in Hn by lia. exists (Z.of_nat n + 1). split; [lia|].
  pose proof (elem_lookup els (Z.of_nat n + 1) ltac:(lia)) as E. replace (Z.to_nat (Z.of_nat n + 1 - 1)) with n in E by lia. congruence.
Qed.

(** What the second loop keeps: a heap up to [i], and behind it the largest
    elements in order. *)
Record sorting (i cnt : Z) (els : list (list Z)) : Prop := {
  so_heap : heap 1 i els;
  so_above : forall a b, 1 <= a <= i -> i < b <= cnt -> le (elem els a) (elem els b);
  so_sorted : forall a b, i < a <= b -> b <= cnt -> le (elem els a) (elem els b)
}.

Lemma sorting_step i cnt els els' :
  sorting i cnt els -> 1 < i <= cnt -> Zlen els = cnt ->
  moved (i - 1) (swap_elems els 1 i) els' -> heap 1 (i - 1) els' -> sorting (i - 1) cnt els'.
Proof using cmp_sym cmp_trans.
  intros [Hh Hab Hs] Hi Hl Hm Hh'. pose proof (heap_root i els Hh) as Hroot.
  assert (forall b, i <= b <= cnt -> elem els' b = if decide (b = i) then elem els 1 else elem els b) as Hsuf.
  { intros b Hb. rewrite (moved_suffix _ _ _ _ Hm) by lia. rewrite elem_swap by lia. repeat case_decide; (lia || done). }
  assert (forall a, 1 <= a <= i - 1 -> exists a', 1 <= a' <= i /\ elem els' a = elem els a') as Hpre.
  { intros a Hal. destruct (moved_prefix _ _ _ a Hm) as (k & Hk & ->); [lia|rewrite length_swap; lia|].
    rewrite elem_swap by lia. case_decide; [exists i; split; [lia|done]|]. case_decide; [lia|]. exists k. split; [lia|done]. }
  split; [done| |].
  - intros a b Hal Hb. destruct (Hpre a ltac:(lia)) as (a' & Ha' & ->). rewrite Hsuf by lia.
    case_decide; [by apply Hroot|apply Hab; lia].
  - intros a b Hal Hb. rewrite !Hsuf by lia. repeat case_decide; subst; [apply le_refl|apply Hab; lia|lia|apply Hs; lia].
Qed.

Lemma sort_heap_run cnt p n : forall m els,
  Zlen els = cnt -> cnt < 2 ^ 30 -> Z.of_nat n + 1 <= cnt -> arr m p size els -> sorting (Z.of_nat n + 1) cnt els ->
  exists m' els', sort_heap compare n p size m = Ok (tt, m') /\ arr m' p size els' /\
    els' ≡ₚ els /\ (forall a b, 1 <= a <= b -> b <= cnt -> le (elem els' a) (elem els' b)) /\ outside p (size * cnt) m m'.
Proof using compare_cmp cmp_sym cmp_trans Hsize.
  induction n as [|n IH]; intros m els Hl Hc Hn Ha Hso.
  { exists m, els. split; [done|]. split; [done|]. split; [done|]. split; [|apply outside_refl].
    destruct Hso as [_ H1 H2]. intros a b Hab Hb. destruct (Z.eq_dec a b) as [->|]; [apply le_refl|].
    destruct (Z.eq_dec a 1) as [->|]; [apply H1|apply H2]; lia. }
  cbn [sort_heap]. set (i := Z.of_nat (S n) + 1) in *.
  destruct (do_swap_run m p size els 1 i Ha Hsize) as (m1 & Hs & Ha1 & Ho1); [lia..|].
  rewrite (run_bind _ _ _ _ _ Hs).
  destruct (heapify_run 1 (i - 1) p ltac:(lia) ltac:(lia) (S (Z.to_nat (i - 1))) 1 m1 (swap_elems els 1 i))
    as (m2 & els2 & Hr2 & Ha2 & Hh2 & Hm2 & Ho2); [lia|lia|rewrite length_swap; lia|done| |].
  { split; [|intros j c Hj Hj1; unfold child in Hj1; lia]. intros j c Hj Hne Hch Hcc. unfold child in Hch.
    rewrite !elem_swap by lia. repeat case_decide; try lia. apply (so_heap _ _ _ Hso); unfold child; lia. }
  rewrite (run_bind _ _ _ _ _ Hr2). pose proof (moved_length _ _ _ Hm2) as Hlen. rewrite length_swap in Hlen, Ho2.
  pose proof (sorting_step i cnt els els2 Hso ltac:(lia) Hl Hm2 Hh2) as Hso2.
  destruct (IH m2 els2) as (m3 & els3 & Hr3 & Ha3 & Hp3 & Hs3 & Ho3); [lia|lia|lia|done| |].
  { by replace (Z.of_nat n + 1) with (i - 1) by lia. }
  exists m3, els3. split; [done|]. split; [done|]. rewrite Hl in *. split; [|split; [done|]].
  - rewrite Hp3, (moved_perm _ _ _ Hm2). eapply (moved_perm i). apply swap_moved; lia.
  - eapply outside_trans; [done|]. by eapply outside_trans.
Qed.

Lemma sort_run m p els :
  0 < p -> Zlen els < 2 ^ 30 -> arr m p size els ->
  exists m' els', sort compare p (Zlen els) size m = Ok (tt, m') /\ arr m' p size els' /\ els' ≡ₚ els /\
    (forall i j x y, els' !! i = Some x -> els' !! j = Some y -> (i <= j)%nat -> le x y) /\
    outside p (size * Zlen els) m m'.
Proof using compare_cmp cmp_sym cmp_trans Hsize.
  intros Hp Hl Ha. set (cnt := Zlen els). unfold sort.
  rewrite (run_bind _ _ _ tt m) by (apply run_assert; destruct (Z.eqb_spec p 0); [lia|done]).
  rewrite (run_bind _ _ _ tt m) by (apply run_assert; by apply Z.ltb_lt).
  pose proof (Z.div_mod cnt 2 ltac:(lia)). pose proof (Z.mod_pos_bound cnt 2 ltac:(lia)).
  destruct (build_heap_run cnt p (Z.to_nat (cnt / 2)) m els) as (m1 & els1 & Hr1 & Ha1 & Hh1 & Hm1 & Ho1); [done|lia|lia|done| |].
  { intros j c Hj Hch Hc. unfold child in Hch. lia. }
  rewrite (run_bind _ _ _ _ _ Hr1). pose proof (moved_length _ _ _ Hm1) as Hlen.
  assert (exists m' els', sort_heap compare (Z.to_nat (cnt - 1)) p size m1 = Ok (tt, m') /\ arr m' p size els' /\
    els' ≡ₚ els1 /\ (forall a b, 1 <= a <= b -> b <= cnt -> le (elem els' a) (elem els' b)) /\ outside p (size * cnt) m1 m')
    as (m2 & els2 & Hr2 & Ha2 & Hp2 & Hs2 & Ho2).
  { destruct (Z.eq_dec cnt 0) as [E|Hne].
    - rewrite E. exists m1, els1. split; [done|]. split; [done|]. split; [done|]. split; [intros; lia|apply outside_refl].
    - apply sort_heap_run; [lia|lia|lia|done|]. replace (Z.of_nat _ + 1) with cnt by lia.
      split; [done|intros; lia|intros; lia]. }
  exists m2, els2. split; [done|]. split; [done|]. split; [by rewrite Hp2, (moved_perm _ _ _ Hm1)|].
  split; [|by eapply outside_trans]. assert (length els2 = length els1) as Hlen2 by (by rewrite Hp2).
  intros i j x y Hi Hj Hij. apply lookup_lt_Some in Hj as Hjl.
  specialize (Hs2 (Z.of_nat i + 1) (Z.of_nat j + 1) ltac:(lia) ltac:(lia)). unfold elem in Hs2.
  replace (Z.to_nat (Z.of_nat i + 1 - 1)) with i in Hs2 by lia. replace (Z.to_nat (Z.of_nat j + 1 - 1)) with j in Hs2 by lia.
  by rewrite (list_lookup_total_correct _ _ _ Hi), (list_lookup_total_correct _ _ _ Hj) in Hs2.
Qed.

Definition in_order (els : list (list Z)) : Prop :=
  forall i j x y, els !! i = Some x -> els !! j = Some y -> (i <= j)%nat -> le x y.

(** The loop between the indices [lo] and [hi]. *)
Lemma search_run m kp key p els :
  block m kp key -> Zlen key = size -> arr m p size els -> 0 < p -> in_order els ->
  forall fuel lo hi, (hi - lo < fuel)%nat -> (lo <= hi <= length els)%nat ->
  (forall k x, els !! k = Some x -> (k < lo)%nat -> 0 < cmp key x) ->
  (forall k x, els !! k = Some x -> (hi <= k)%nat -> cmp key x < 0) ->
  exists r, loop fuel (fun '(first, last) =>
    if first <? last then
      let range := (last - first) / size in
      let middle := first + range / 2 * size in
      c ← compare kp middle;
      if c <? 0 then mret (inl (first, middle))
      else if 0 <? c then mret (inl (middle + size, last))
      else mret (inr middle)
    else mret (inr 0)) (p + Z.of_nat lo * size, p + Z.of_nat hi * size) m = Ok (r, m) /\
    ((r = 0 /\ forall x, x ∈ els -> cmp key x <> 0) \/
     exists k x, els !! k = Some x /\ cmp key x = 0 /\ r = p + Z.of_nat k * size).
Proof using compare_cmp cmp_sym cmp_trans Hsize.
  intros Hkb Hkl Ha Hp Hord fuel. induction fuel as [|fuel IH]; intros lo hi Hf Hlh Hlo Hhi; [lia|].
  set (body := fun '(first, last) => _). destruct (decide (lo < hi)%nat) as [Hlt|Hge].
  2:{ exists 0. split.
      - apply loop_break. unfold body. by rewrite (proj2 (Z.ltb_ge _ _)) by nia.
      - left. split; [done|]. intros x [k Hk]%list_elem_of_lookup. destruct (decide (k < lo)%nat) as [Hk'|Hk'].
        + specialize (Hlo k x Hk Hk'). lia.
        + specialize (Hhi k x Hk ltac:(lia)). lia. }
  set (mid := (lo + (hi - lo) / 2)%nat).
  assert (lo <= mid < hi)%nat as Hmid.
  { unfold mid. pose proof (Nat.div_lt (hi - lo) 2 ltac:(lia) ltac:(lia)). lia. }
  destruct (lookup_lt_is_Some_2 els mid ltac:(lia)) as [x Hx]. destruct (Ha _ _ Hx) as (Lx & _ & Bx).
  assert (body (p + Z.of_nat lo * size, p + Z.of_nat hi * size) m =
    (if cmp key x <? 0 then mret (inl (p + Z.of_nat lo * size, p + Z.of_nat mid * size))
     else if 0 <? cmp key x then mret (inl (p + Z.of_nat (S mid) * size, p + Z.of_nat hi * size))
     else mret (inr (p + Z.of_nat mid * size)) : mM (Z * Z + Z)) m) as Hb.
  { unfold body. rewrite (proj2 (Z.ltb_lt _ _)) by nia. cbv zeta.
    replace (p + Z.of_nat hi * size - (p + Z.of_nat lo * size)) with (Z.of_nat (hi - lo) * size) by nia.
    rewrite Z.div_mul by lia.
    assert (Z.of_nat (hi - lo) / 2 = Z.of_nat ((hi - lo) / 2)) as -> by (by rewrite Nat2Z.inj_div).
    replace (p + Z.of_nat lo * size + Z.of_nat ((hi - lo) / 2) * size) with (p + Z.of_nat mid * size) by (unfold mid; lia).
    rewrite (run_bind _ _ _ (cmp key x) m) by (apply compare_cmp; [done|exact Bx|done|lia]).
    by replace (p + Z.of_nat mid * size + size) with (p + Z.of_nat (S mid) * size) by lia. }
  destruct (Z.ltb_spec (cmp key x) 0) as [Hneg|Hnn]; [|destruct (Z.ltb_spec 0 (cmp key x)) as [Hpos|Hz]].
  - rewrite (loop_continue _ _ _ _ _ _ Hb). apply IH; [lia|lia|done|].
    intros k y Hk Hle. pose proof (Hord mid k x y Hx Hk Hle) as Hxy. apply Z.nle_gt. intros Hc.
    pose proof (proj1 (cmp_sym key x) Hneg) as H1. assert (cmp y key <= 0 \/ 0 < cmp y key) as [H2|H2] by lia.
    + pose proof (cmp_trans x y key Hxy H2). lia.
    + apply (proj2 (cmp_sym key y)) in H2. lia.
  - rewrite (loop_continue _ _ _ _ _ _ Hb). apply IH; [lia|lia| |done].
    intros k y Hk Hle. pose proof (Hord k mid y x Hk Hx ltac:(lia)) as Hyx. apply Z.nle_gt. intros Hc.
    pose proof (cmp_trans key y x Hc Hyx). lia.
  - exists (p + Z.of_nat mid * size). split; [by apply loop_break|]. right. exists mid, x. split; [done|]. split; [lia|done].
Qed.

End order.

(** * Theorem *)

(** C15: Sorting and searching.  With a comparison function that orders the contents
    of elements by a total preorder, [qsort] terminates and leaves the elements of
    the array in order, none lost or duplicated, and no byte outside the array
    changed; a [bsearch] in the sorted array for a key outside of it then returns
    the address of an element equal to the key if the array has one, and null if
    it has none. *)
Theorem sort_search_spec compare cmp size m p els :
  0 < size -> 0 < p -> Zlen els < 2 ^ 30 -> arr m p size els ->
  (forall m a b x y, block m a x -> block m b y -> Zlen x = size -> Zlen y = size -> compare a b m = Ok (cmp x y, m)) ->
  (forall x y, cmp x y < 0 <-> 0 < cmp y x) ->
  (forall x y z, cmp x y <= 0 -> cmp y z <= 0 -> cmp x z <= 0) ->
  exists m' els', qsort compare p (Zlen els) size m = Ok (tt, m') /\ arr m' p size els' /\ els' ≡ₚ els /\
    in_order cmp els' /\ outside p (size * Zlen els) m m' /\
    forall kp key, block m kp key -> Zlen key = size -> (kp + size <= p \/ p + size * Zlen els <= kp) ->
      exists r, bsearch compare kp p (Zlen els) size m' = Ok (r, m') /\
        if decide (Exists (fun x => cmp key x = 0) els)
        then exists k x, els' !! k = Some x /\ cmp key x = 0 /\ r = p + Z.of_nat k * size
        else r = 0.
Proof.
  intros Hs Hp Hl Ha Hcmp Hsym Htr.
  destruct (sort_run compare cmp size Hs Hcmp Hsym Htr m p els Hp Hl Ha) as (m' & els' & Hr & Ha' & Hperm & Hord & Hout).
  exists m', els'. split; [done|]. do 4 (split; [done|]). intros kp key Hk Hkl Hd.
  assert (block m' kp key) as Hk'.
  { eapply block_outside; [|exact Hk]. intros a Hal. apply Hout. lia. }
  assert (Zlen els' = Zlen els) as Hlen by (by rewrite Hperm).
  destruct (search_run compare cmp size Hs Hcmp Hsym Htr m' kp key p els' Hk' Hkl Ha' Hp Hord (S (Z.to_nat (Zlen els))) 0 (length els))
    as (r & Hrun & Hres); [lia|lia|intros; lia| |].
  { intros k x Hkx Hle. apply lookup_lt_Some in Hkx. lia. }
  exists r. split.
  - unfold bsearch, binary_search. rewrite <- Hrun. f_equal; [|lia..]. f_equal; lia.
  - case_decide as E.
    + destruct Hres as [[_ Hno]|H]; [|done]. exfalso. rewrite Exists_exists in E. destruct E as (x & Hx & Ex).
      apply (Hno x); [by rewrite Hperm|done].
    + destruct Hres as [[-> _]|(k & x & Hkx & Ex & ->)]; [done|]. exfalso. apply E. rewrite Exists_exists. exists x.
      split; [|done]. rewrite <- Hperm. by eapply list_elem_of_lookup_2.
Qed.

(** Elements of two bytes, compared by the first. *)
Definition demo_array : mem := list_to_map (zip (seqZ 100 8) [7; 0; 3; 1; 9; 2; 3; 3] ++ [(50, 9); (51, 0)]).
Definition demo_compare (a b : Z) : mM Z := x ← load a; y ← load b; mret (x - y).
Definition demo_cmp (x y : list Z) : Z := hd 0 x - hd 0 y.

Lemma sort_search_spec_witness :
  exists m' els', qsort demo_compare 100 4 2 demo_array = Ok (tt, m') /\
    els' ≡ₚ [[7; 0]; [3; 1]; [9; 2]; [3; 3]] /\ in_order demo_cmp els' /\
    exists r, bsearch demo_compare 50 100 4 2 m' = Ok (r, m') /\ r = 106.
Proof.
  destruct (sort_search_spec demo_compare demo_cmp 2 demo_array 100 [[7; 0]; [3; 1]; [9; 2]; [3; 3]])
    as (m' & els' & H1 & _ & H2 & H3 & _ & H4).
  - lia.
  - lia.
  - by vm_compute.
  - intros k x Hk. assert (k < 4)%nat as Hlt by (apply lookup_lt_Some in Hk; exact Hk).
    do 4 (destruct k as [|k]; [injection Hk as <-; split; [done|split;
      [repeat constructor; unfold is_byte; lia|rewrite !block_cons; split_and!; by vm_compute]]|]).
    lia.
  - intros m a b x y Hx Hy Lx Ly. destruct x as [|x0 x]; [done|]. destruct y as [|y0 y]; [done|].
    apply block_cons in Hx as [Hx _], Hy as [Hy _]. unfold demo_compare.
    rewrite (run_bind _ _ _ _ _ (load_run m a x0 Hx)). by rewrite (run_bind _ _ _ _ _ (load_run m b y0 Hy)).
  - intros x y. unfold demo_cmp. lia.
  - intros x y z. unfold demo_cmp. lia.
  - exists m', els'. split; [exact H1|]. split; [exact H2|]. split; [exact H3|].
    destruct (H4 50 [9; 0]) as (r & Hr & _).
    + rewrite !block_cons. split_and!; by vm_compute.
    + done.
    + left. lia.
    + exists r. split; [exact Hr|].
      assert ((r' ← (qsort demo_compare 100 4 2;; bsearch demo_compare 50 100 4 2); mret r') demo_array = Ok (r, m')) as E.
      { rewrite (run_bind _ _ _ r m'); [done|]. by rewrite (run_bind _ _ _ tt m'). }
      assert (fst <$> (r' ← (qsort demo_compare 100 4 2;; bsearch demo_compare 50 100 4 2); mret r') demo_array = Ok 106) as E'
        by (by vm_compute).
      rewrite E in E'. by injection E'.
Defined.

(** * Decimal numbers *)

Definition dec_digit (d : Z) : Prop := 48 <= d <= 57.

(** The number [n] followed by a sequence of digits denotes. *)
Definition dec_from (n : Z) (ds : list Z) : Z := foldl (fun n d => 10 * n + (d - 48)) n ds.

Lemma s32_mod z : s32 z mod 2 ^ 32 = z mod 2 ^ 32.
Proof. unfold swrap. rewrite Zminus_mod_idemp_l. f_equal. lia. Qed.

Lemma s32_cong y z : y mod 2 ^ 32 = z mod 2 ^ 32 -> s32 y = s32 z.
Proof. intros H. unfold swrap. by rewrite <- Zplus_mod_idemp_l, H, Zplus_mod_idemp_l. Qed.

(** One digit: the wrap-arounds amount to one at the end. *)
Lemma atoi_step a d : s32 (s32 (s32 a * 10) - d) = s32 (a * 10 - d).
Proof.
  apply s32_cong. rewrite <- Zminus_mod_idemp_l, s32_mod, Zminus_mod_idemp_l.
  rewrite <- Zminus_mod_idemp_l, <- Zmult_mod_idemp_l, s32_mod, Zmult_mod_idemp_l, Zminus_mod_idemp_l. done.
Qed.

Lemma isdigit_dec b : 0 <= b < 256 -> isdigit (schar b) = true <-> dec_digit b.
Proof.
  intros Hb. unfold isdigit, dec_digit, schar, swrap. rewrite andb_true_iff, !Z.leb_le. change (2 ^ 8) with 256. change (2 ^ (8 - 1)) with 128.
  destruct (Z.lt_ge_cases b 128).
  - rewrite Z.mod_small by lia. lia.
  - assert ((b + 128) mod 256 = b - 128) as -> by (symmetry; apply Z.mod_unique with 1; lia). lia.
Qed.

Lemma schar_digit b : dec_digit b -> schar b = b.
Proof. unfold dec_digit. intros H. apply (swrap_id 8 ltac:(lia)). unfold in_s. lia. Qed.

Definition no_digit (s : list Z) : Prop := match s with [] => True | c :: _ => ~ dec_digit c end.

Lemma digits_run m p n ds rest :
  cstr m p (ds ++ rest) -> Forall dec_digit ds -> no_digit rest ->
  scan (fun '(s, value) => c ← load s;
    if isdigit (schar c) then mret (inl (s + 1, s32 (s32 (value * 10) - (schar c - 48)))) else mret (inr value)) (p, s32 (- n)) m =
  Ok (s32 (- dec_from n ds), m).
Proof.
  intros Hc Hd Hn. destruct (scan_list (fun '(s, value) => c ← load s;
    if isdigit (schar c) then mret (inl (s + 1, s32 (s32 (value * 10) - (schar c - 48)))) else mret (inr value))
    (fun l '(s, value) => exists ds' k, l = ds' ++ rest /\ cstr m s l /\ Forall dec_digit ds' /\ value = s32 (- k) /\ dec_from k ds' = dec_from n ds)
    (fun r => r = s32 (- dec_from n ds)) m (ds ++ rest) (p, s32 (- n))) as (r & Hr & ->).
  - by eapply cstr_size.
  - intros e l [s value] (ds' & k & El & Hs & Hds & -> & Hk). apply cstr_cons in Hs as (H1 & H2 & H3 & H4).
    rewrite (run_bind _ _ _ _ _ (load_run _ _ _ H2)). pose proof (isdigit_dec e ltac:(lia)) as Hdig.
    destruct ds' as [|d ds'].
    + right. cbn in El. subst rest. cbn in Hn, Hk. destruct (isdigit (schar e)); [by exfalso; apply Hn, Hdig|].
      eexists. split; [done|]. by rewrite Hk.
    + left. injection El as <- ->. apply Forall_cons in Hds as [Hd0 Hds]. rewrite (proj2 Hdig Hd0), schar_digit by done.
      eexists. split; [done|]. exists ds', (10 * k + (e - 48)). split; [done|]. split; [done|]. split; [done|]. split; [|done].
      rewrite atoi_step. f_equal. lia.
  - intros [s value] (ds' & k & El & Hs & Hds & -> & Hk). destruct ds'; [|done]. apply cstr_nil in Hs as [H1 H2].
    rewrite (run_bind _ _ _ _ _ (load_run _ _ _ H2)). change (isdigit (schar 0)) with false. eexists. split; [done|]. cbn in Hk. by rewrite Hk.
  - exists ds, n. done.
  - done.
Qed.

(** White space, an optional sign, digits, and anything behind them. *)
Lemma atoi_run m p sp sg ds rest :
  cstr m p (sp ++ sg ++ ds ++ rest) -> Forall (fun c => isspace c = true) sp ->
  sg = [] \/ sg = [43] \/ sg = [45] -> Forall dec_digit ds -> no_digit rest ->
  (sg = [] -> ds <> []) ->
  atoi p m = Ok (s32 (if decide (sg = [45]) then - dec_from 0 ds else dec_from 0 ds), m).
Proof.
  intros Hc Hsp Hsg Hds Hrest Hne. pose proof Hc as (Hp & _). unfold atoi.
  rewrite (run_bind _ _ _ _ _ (assert_nonnull m p Hp)).
  set (tl := sg ++ ds ++ rest) in *.
  assert (match tl with [] => True | c :: _ => isspace c = false end) as Htl.
  { unfold tl. destruct Hsg as [-> |[-> | ->]]; [|done..]. destruct ds as [|d ds]; [by destruct (Hne eq_refl)|].
    apply Forall_cons in Hds as [Hd _]. unfold dec_digit, isspace in *. cbn.
    rewrite !(proj2 (Z.eqb_neq d _)) by lia. done. }
  destruct (scan_list (fun s => c ← load s; if isspace c then mret (inl (s + 1)) else mret (inr s))
    (fun l s => exists sp', l = sp' ++ tl /\ cstr m s l /\ Forall (fun c => isspace c = true) sp')
    (fun r => cstr m r tl) m (sp ++ tl) p) as (q & Hq & Hqc).
  - by eapply cstr_size.
  - intros e l s (sp' & El & Hs & Hsp'). apply cstr_cons in Hs as Hs'. destruct Hs' as (H1 & H2 & H3 & H4).
    rewrite (run_bind _ _ _ _ _ (load_run _ _ _ H2)). destruct sp' as [|c sp'].
    + right. cbn in El. rewrite <- El in Htl. rewrite Htl. eexists. split; [done|]. by rewrite <- El.
    + left. injection El as <- ->. apply Forall_cons in Hsp' as [Hc0 Hsp']. rewrite Hc0. eexists. split; [done|]. by exists sp'.
  - intros s (sp' & El & Hs & _). symmetry in El. apply app_eq_nil in El as [-> El]. apply cstr_nil in Hs as Hs'. destruct Hs' as [H1 H2].
    rewrite (run_bind _ _ _ _ _ (load_run _ _ _ H2)). change (isspace 0) with false. eexists. split; [done|]. by rewrite El.
  - by exists sp.
  - rewrite (run_bind _ _ _ _ _ Hq).
    assert (exists c, m !! q = Some c /\ head (tl ++ [0]) = Some c) as (c & Hcq & Hch).
    { destruct Hqc as (_ & Hb & _). destruct (tl ++ [0]) as [|c l] eqn:E; [by apply app_eq_nil in E as [_ ?]|].
      apply block_cons in Hb as [Hb _]. by exists c. }
    rewrite (run_bind _ _ _ _ _ (load_run _ _ _ Hcq)).
    assert (negb (c =? 43) && (c =? 45) = bool_decide (sg = [45]) /\
      (if (c =? 43) || (c =? 45) then q + 1 else q) = q + Zlen sg) as [-> ->].
    { unfold tl in Hch. destruct Hsg as [-> |[-> | ->]]; cbn in Hch; [|injection Hch as <-; cbn; done..].
      destruct ds as [|d ds]; [by destruct (Hne eq_refl)|]. injection Hch as <-. apply Forall_cons in Hds as [Hd _].
      unfold dec_digit in Hd. rewrite !(proj2 (Z.eqb_neq d _)) by lia. cbn. split; [done|lia]. }
    rewrite (run_bind _ _ _ (s32 (- dec_from 0 ds)) m).
    2:{ rewrite <- (digits_run m (q + Zlen sg) 0 ds rest); [done| |done|done]. by apply cstr_app. }
    case_bool_decide; [by rewrite decide_True by done|rewrite decide_False by done]. unfold mret, st_ret. do 2 f_equal. apply s32_cong.
    rewrite <- Z.sub_0_l, <- Zminus_mod_idemp_r, s32_mod, Zminus_mod_idemp_r. f_equal. lia.
Qed.
