(* ===== verification/Stdio.v ===== *)
(** lib/stdio.c: formatted output.

    A format is the list of its characters; strings that are printed are in the
    memory of StringC.v.  An output function changes the memory or data of its
    own, of a type [A]: what the C passes around as [aux]. *)
From Stdlib Require Import ZArith Lia String Ascii.
From stdpp Require Import base numbers sorting gmap list.
From S2P Require Import Prelude.
From S2P Require Import StringC.
From S2P Require Import StdlibC.

Local Open Scope Z_scope.

(** The characters of a string constant. *)
Definition chars (s : string) : list Z := Z.of_nat ∘ nat_of_ascii <$> list_ascii_of_string s.

(** * Conversions *)

Definition MINUS : Z := 1.
Definition PLUS : Z := 2.
Definition SPACE : Z := 4.
Definition POUND : Z := 8.
Definition ZERO : Z := 16.
Definition GROUP : Z := 32.

Inductive int_type := CHAR | SHORT | INT | INTMAX | LONG | LONGLONG | PTRDIFFT | SIZET.

Record printf_conversion := mkConv { flags : Z; width : Z; precision : Z; type : int_type }.

Record integer_base := mkBase { b_base : Z; b_digits : list Z; b_x : Z; b_group : Z }.

Definition base_d : integer_base := mkBase 10 (chars "0123456789") 0 3.
Definition base_o : integer_base := mkBase 8 (chars "01234567") 0 3.
Definition base_x : integer_base := mkBase 16 (chars "0123456789abcdef") 120 4.
Definition base_X : integer_base := mkBase 16 (chars "0123456789ABCDEF") 88 4.

Definition flag_set (fl f : Z) : bool := negb (Z.land fl f =? 0).

(** The arguments of a call: words of 32 bits, among them addresses, and double
    words.  To take an argument of another size is undefined. *)
Inductive arg := AWord (w : Z) | ALong (w : Z).

Definition va_word (args : list arg) : res (Z * list arg) :=
  match args with
  | AWord w :: args => Ok (w, args)
  | _ => Err EUndef
  end.

Definition va_long (args : list arg) : res (Z * list arg) :=
  match args with
  | ALong w :: args => Ok (w, args)
  | _ => Err EUndef
  end.

(** The flag characters, from [-] to ['], and the loop over them. *)
Definition flag_of (c : Z) : option Z :=
  if c =? 45 then Some MINUS else if c =? 43 then Some PLUS else if c =? 32 then Some SPACE
  else if c =? 35 then Some POUND else if c =? 48 then Some ZERO else if c =? 39 then Some GROUP else None.

Fixpoint parse_flags (format : list Z) (fl : Z) : list Z * Z :=
  match format with
  | c :: format' =>
      match flag_of c with
      | Some f => parse_flags format' (Z.lor fl f)
      | None => (format, fl)
      end
  | [] => ([], fl)
  end.

Fixpoint parse_digits (format : list Z) (n : Z) : list Z * Z :=
  match format with
  | c :: format' =>
      if isdigit (schar c) then parse_digits format' (s32 (s32 (s32 (n * 10) + schar c) - 48)) else (format, n)
  | [] => ([], n)
  end.

(** [*] or digits. *)
Definition parse_number (format : list Z) (args : list arg) : res (list Z * Z * list arg) :=
  match format with
  | 42 :: format => r ← va_word args; let '(w, args) := r in Ok (format, s32 w, args)
  | _ => let '(format, n) := parse_digits format 0 in Ok (format, n, args)
  end.

Definition parse_type (format : list Z) : list Z * int_type :=
  match format with
  | 104 :: 104 :: format => (format, CHAR)
  | 104 :: format => (format, SHORT)
  | 106 :: format => (format, INTMAX)
  | 108 :: 108 :: format => (format, LONGLONG)
  | 108 :: format => (format, LONG)
  | 116 :: format => (format, PTRDIFFT)
  | 122 :: format => (format, SIZET)
  | _ => (format, INT)
  end.

Definition clear_flag (fl f : Z) : Z := Z.land fl (Z.lnot f).

Definition parse_conversion (format : list Z) (args : list arg) : res (list Z * printf_conversion * list arg) :=
  let '(format, fl) := parse_flags format 0 in
  let fl := if flag_set fl MINUS then clear_flag fl ZERO else fl in
  let fl := if flag_set fl PLUS then clear_flag fl SPACE else fl in
  r ← parse_number format args;
  let '(format, w, args) := r in
  let fl := if w <? 0 then Z.lor fl MINUS else fl in
  let w := if w <? 0 then s32 (- w) else w in
  r ← (match format with
       | 46 :: format =>
           r ← parse_number format args;
           let '(format, p, args) := r in Ok (format, if p <? 0 then -1 else p, args)
       | _ => Ok (format, -1, args)
       end);
  let '(format, p, args) := r in
  let fl := if 0 <=? p then clear_flag fl ZERO else fl in
  let '(format, t) := parse_type format in
  Ok (format, mkConv fl w p t, args).

(** The argument of a signed conversion. *)
Definition signed_arg (t : int_type) (args : list arg) : res (Z * list arg) :=
  match t with
  | CHAR => r ← va_word args; Ok (swrap 8 r.1, r.2)
  | SHORT => r ← va_word args; Ok (swrap 16 r.1, r.2)
  | INT | LONG | PTRDIFFT => r ← va_word args; Ok (s32 r.1, r.2)
  | INTMAX | LONGLONG => r ← va_long args; Ok (s64 r.1, r.2)
  | SIZET => r ← va_word args; let v := u32 r.1 in Ok (if 2 ^ 31 - 1 <? v then v - (2 ^ 32 - 1) - 1 else v, r.2)
  end.

Definition unsigned_arg (t : int_type) (args : list arg) : res (Z * list arg) :=
  match t with
  | CHAR => r ← va_word args; Ok (u8 r.1, r.2)
  | SHORT => r ← va_word args; Ok (u16 r.1, r.2)
  | INT | LONG | SIZET => r ← va_word args; Ok (u32 r.1, r.2)
  | INTMAX | LONGLONG => r ← va_long args; Ok (u64 r.1, r.2)
  | PTRDIFFT => r ← va_word args; Ok (Z.land (u64 (s32 r.1)) (Z.lor (u64 (Z.shiftl (2 ^ 31 - 1) 1)) 1), r.2)
  end.

(** * Output *)

Section output.
Context {A : Type}.
Abbreviation oM := (st (mem * A)).
Context (output : Z -> oM unit).

(** Routines on the memory. *)
Definition liftm {X} (m : mM X) : oM X := fun '(s, a) =>
  match m s with
  | Ok (r, s') => Ok (r, (s', a))
  | Err e => Err e
  end.

Definition lifto {X} (r : res X) : oM X :=
  match r with
  | Ok v => mret v
  | Err e => st_fail e
  end.

Fixpoint output_dup (ch : Z) (cnt : nat) : oM unit :=
  match cnt with
  | O => mret tt
  | S cnt => output ch;; output_dup ch cnt
  end.

Fixpoint output_all (cs : list Z) : oM unit :=
  match cs with
  | [] => mret tt
  | c :: cs => output c;; output_all cs
  end.

(** [*cp++ = c] into [buf], which holds 64 characters. *)
Definition push (buf : list Z) (c : Z) : res (list Z) :=
  if Zlen buf <? 64 then Ok (buf ++ [c]) else Err EFault.

(** The digits of [value], the last one first: at most one for each of its bits. *)
Fixpoint digit_loop (fuel : nat) (value : Z) (b : integer_base) (fl digit_cnt : Z) (buf : list Z) : res (list Z) :=
  match fuel with
  | O => Err EFuel
  | S fuel =>
      if 0 <? value then
        buf ← (if flag_set fl GROUP && (0 <? digit_cnt) && (digit_cnt mod b_group b =? 0) then push buf 44 else Ok buf);
        match b_digits b !! Z.to_nat (value mod b_base b) with
        | Some d =>
            buf ← push buf d;
            digit_loop fuel (value / b_base b) b fl (digit_cnt + 1) buf
        | None => Err EFault
        end
      else Ok buf
  end.

Fixpoint zero_loop (fuel : nat) (prec : Z) (buf : list Z) : res (list Z) :=
  match fuel with
  | O => Err EFuel
  | S fuel =>
      if (Zlen buf <? prec) && (Zlen buf <? 63) then buf ← push buf 48; zero_loop fuel prec buf else Ok buf
  end.

Definition format_integer (value : Z) (is_signed negative : bool) (b : integer_base) (c : printf_conversion) : oM unit :=
  let sign := if is_signed then
                if flag_set (flags c) PLUS then if negative then 45 else 43
                else if flag_set (flags c) SPACE then if negative then 45 else 32
                else if negative then 45 else 0
              else 0 in
  let x := if flag_set (flags c) POUND && negb (value =? 0) then b_x b else 0 in
  buf ← lifto (digit_loop 65 value b (flags c) 0 []);
  let prec := if precision c <? 0 then 1 else precision c in
  buf ← lifto (zero_loop 64 prec buf);
  buf ← lifto (if flag_set (flags c) POUND && (b_base b =? 8) && negb (bool_decide (last buf = Some 48)) then push buf 48
               else Ok buf);
  let pad_cnt := width c - Zlen buf - (if negb (x =? 0) then 2 else 0) - (if negb (sign =? 0) then 1 else 0) in
  let pad_cnt := if pad_cnt <? 0 then 0 else pad_cnt in
  (if negb (flag_set (flags c) (Z.lor MINUS ZERO)) then output_dup 32 (Z.to_nat pad_cnt) else mret tt);;
  (if negb (sign =? 0) then output sign else mret tt);;
  (if negb (x =? 0) then output 48;; output x else mret tt);;
  (if flag_set (flags c) ZERO then output_dup 48 (Z.to_nat pad_cnt) else mret tt);;
  output_all (rev buf);;
  (if flag_set (flags c) MINUS then output_dup 32 (Z.to_nat pad_cnt) else mret tt).

(** [get i] is [string[i]]. *)
Fixpoint string_loop (n : nat) (get : Z -> oM Z) (i : Z) : oM unit :=
  match n with
  | O => mret tt
  | S n => ch ← get i; output ch;; string_loop n get (i + 1)
  end.

Definition format_string (get : Z -> oM Z) (len : Z) (c : printf_conversion) : oM unit :=
  (if (len <? width c) && negb (flag_set (flags c) MINUS) then output_dup 32 (Z.to_nat (width c - len)) else mret tt);;
  string_loop (Z.to_nat len) get 0;;
  (if (len <? width c) && flag_set (flags c) MINUS then output_dup 32 (Z.to_nat (width c - len)) else mret tt).

(** Characters of a string constant, and of a string in memory. *)
Definition const_char (s : list Z) (i : Z) : oM Z :=
  match (s ++ [0]) !! Z.to_nat i with
  | Some ch => mret ch
  | None => st_fail EFault
  end.

Definition mem_char (p i : Z) : oM Z := liftm (load (p + i)).

Definition null_string : list Z := chars "(null)".

(** One conversion, [ch] its character; what is left of the arguments. *)
Definition convert (nested : list Z -> list arg -> oM unit) (ch : Z) (c : printf_conversion) (args : list arg) : oM (list arg) :=
  if (ch =? 100) || (ch =? 105) then
    r ← lifto (signed_arg (type c) args);
    let '(value, args) := r in
    format_integer (u64 (if value <? 0 then s64 (- value) else value)) true (value <? 0) base_d c;;
    mret args
  else if (ch =? 111) || (ch =? 117) || (ch =? 120) || (ch =? 88) then
    r ← lifto (unsigned_arg (type c) args);
    let '(value, args) := r in
    let b := if ch =? 111 then base_o else if ch =? 117 then base_d else if ch =? 120 then base_x else base_X in
    format_integer value false false b c;;
    mret args
  else if ch =? 99 then
    r ← lifto (va_word args);
    format_string (const_char [u8 r.1]) 1 c;;
    mret r.2
  else if ch =? 115 then
    r ← lifto (va_word args);
    let '(s, args) := r in
    (if s =? 0 then format_string (const_char null_string) (Z.min (Zlen null_string) (u32 (precision c))) c
     else n ← liftm (strnlen s (u32 (precision c))); format_string (mem_char s) n c);;
    mret args
  else if ch =? 112 then
    r ← lifto (va_word args);
    format_integer (u32 r.1) false false base_x (mkConv POUND (width c) (precision c) (type c));;
    mret r.2
  else if (ch =? 102) || (ch =? 101) || (ch =? 69) || (ch =? 103) || (ch =? 71) || (ch =? 110) then
    nested (chars "<<no %%%c in kernel>>") [AWord ch];; mret args
  else
    nested (chars "<<no %%%c conversion>>") [AWord ch];; mret args.

(** The loop over the format; a round takes at least one character.  A nested
    call is made with a constant format of at most 22 characters.  A format that
    ends within a conversion is read beyond its end. *)
Fixpoint vprintf_loop (fuel : nat) (format : list Z) (args : list arg) : oM unit :=
  match fuel with
  | O => st_fail EFuel
  | S fuel =>
      match format with
      | [] => mret tt
      | ch :: format =>
          if negb (ch =? 37) then output ch;; vprintf_loop fuel format args else
          if default 0 (head format) =? 37 then output 37;; vprintf_loop fuel (tail format) args else
          r ← lifto (parse_conversion format args);
          let '(format, c, args) := r in
          args ← convert (vprintf_loop fuel) (default 0 (head format)) c args;
          match format with
          | [] => st_fail EUndef
          | _ :: format => vprintf_loop fuel format args
          end
      end
  end.

Definition __vprintf (format : list Z) (args : list arg) : oM unit :=
  vprintf_loop (length format + 24) format args.
End output.

(** * Buffers *)

Record vsnprintf_aux := mkAux { aux_p : Z; aux_length : Z; aux_max_length : Z }.

Definition vsnprintf_helper (ch : Z) : st (mem * vsnprintf_aux) unit :=
  s ← st_get;
  let aux := s.2 in
  if aux_length aux <? aux_max_length aux then
    liftm (store (aux_p aux) ch);;
    s ← st_get; st_put (s.1, mkAux (aux_p aux + 1) (s32 (aux_length aux + 1)) (aux_max_length aux))
  else st_put (s.1, mkAux (aux_p aux) (s32 (aux_length aux + 1)) (aux_max_length aux)).

Definition vsnprintf (buffer buf_size : Z) (format : list Z) (args : list arg) : mM Z := fun m =>
  let aux := mkAux buffer 0 (s32 (if 0 <? buf_size then buf_size - 1 else 0)) in
  match (__vprintf vsnprintf_helper format args;;
         s ← st_get;
         (if 0 <? buf_size then liftm (store (aux_p s.2) 0) else mret tt);;
         mret (aux_length s.2)) (m, aux) with
  | Ok (r, (m', _)) => Ok (r, m')
  | Err e => Err e
  end.

(** The variable arguments are the list. *)
Definition snprintf (buffer buf_size : Z) (format : list Z) (args : list arg) : mM Z := vsnprintf buffer buf_size format args.

(** * The console *)

(** The characters written to the console, and [char_cnt]. *)
Definition vprintf_helper (c : Z) : st (mem * (list Z * Z)) unit :=
  s ← st_get; st_put (s.1, (s.2.1 ++ [c], s32 (s.2.2 + 1))).

Definition vprintf (format : list Z) (args : list arg) : st (mem * list Z) Z := fun '(m, out) =>
  match __vprintf vprintf_helper format args (m, (out, 0)) with
  | Ok (_, (m', (out', n))) => Ok (n, (m', out'))
  | Err e => Err e
  end.

Definition printf (format : list Z) (args : list arg) : st (mem * list Z) Z := vprintf format args.

(** [hex_dump]: [n] bytes from [buf] on, a line of up to 16 per round. *)
Definition print (format : string) (args : list arg) : st (mem * list Z) unit := printf (chars format) args;; mret tt.

Fixpoint print_times (n : nat) (format : string) : st (mem * list Z) unit :=
  match n with
  | O => mret tt
  | S n => print format [];; print_times n format
  end.

(** [i] from [start] on, [n] bytes. *)
Fixpoint dump_hex (n : nat) (buf start i : Z) : st (mem * list Z) unit :=
  match n with
  | O => mret tt
  | S n =>
      b ← liftm (load (buf + (i - start)));
      print "%02hhx%c" [AWord b; AWord (if i =? 16 / 2 - 1 then 45 else 32)];;
      dump_hex n buf start (i + 1)
  end.

Fixpoint dump_ascii (n : nat) (buf start i : Z) : st (mem * list Z) unit :=
  match n with
  | O => mret tt
  | S n =>
      b ← liftm (load (buf + (i - start)));
      print "%c" [AWord (if isprint b then b else 46)];;
      dump_ascii n buf start (i + 1)
  end.

Definition newline : string := String (ascii_of_nat 10) EmptyString.

Fixpoint hex_dump_loop (fuel : nat) (ofs buf size : Z) (with_ascii : bool) : st (mem * list Z) unit :=
  match fuel with
  | O => st_fail EFuel
  | S fuel =>
      if 0 <? size then
        let start := ofs mod 16 in
        let end_ := if size <? 16 - start then start + size else 16 in
        let n := end_ - start in
        print "%08jx  " [ALong (ofs / 16 * 16)];;
        print_times (Z.to_nat start) "   ";;
        dump_hex (Z.to_nat n) buf start start;;
        (if with_ascii then
           print_times (Z.to_nat (16 - end_)) "   ";;
           print "|" [];;
           print_times (Z.to_nat start) " ";;
           dump_ascii (Z.to_nat n) buf start start;;
           print_times (Z.to_nat (16 - end_)) " ";;
           print "|" []
         else mret tt);;
        print newline [];;
        hex_dump_loop fuel (u32 (ofs + n)) (buf + n) (size - n) with_ascii
      else mret tt
  end.

Definition hex_dump (ofs buf size : Z) (with_ascii : bool) : st (mem * list Z) unit :=
  hex_dump_loop (S (Z.to_nat size)) ofs buf size with_ascii.

(** The units; [fp[1] != NULL] holds for all but the last. *)
Fixpoint scale (size : Z) (fp : list string) : Z * string :=
  match fp with
  | f :: (_ :: _) as fp' => if 1024 <=? size then scale (size / 1024) fp' else (size, f)
  | f :: [] => (size, f)
  | [] => (size, EmptyString)
  end.

(** [%s] of a constant is the constant. *)
Definition print_human_readable_size (size : Z) : st (mem * list Z) unit :=
  if size =? 1 then print "1 byte" []
  else
    let '(size, f) := scale size ["bytes"; "kB"; "MB"; "GB"; "TB"]%string in
    print (String.append "%llu " f) [ALong size].

(** * What is printed does not depend on where to *)

(** Output into a list. *)
Definition collect (ch : Z) : st (mem * list Z) unit := fun '(m, out) => Ok (tt, (m, out ++ [ch])).

Section buffer.
Context (minit : mem) (buf size : Z).
Context (Hsize : 0 <= size < 2 ^ 31).

Definition room : Z := if 0 <? size then size - 1 else 0.

(** The buffer holds what of the output fits; the strings of the format are
    outside of it. *)
Record printed (s1 : mem * list Z) (s2 : mem * vsnprintf_aux) : Prop := {
  pr_sub : s1.1 ⊆ s2.1;
  pr_writable : writable s2.1 buf (Z.to_nat size);
  pr_apart : forall a, buf <= a < buf + size -> s1.1 !! a = None;
  pr_aux : s2.2 = mkAux (buf + Z.min (Zlen s1.2) room) (Zlen s1.2) room;
  pr_block : block s2.1 buf (u8 <$> take (Z.to_nat room) s1.2);
  pr_outside : outside buf size minit s2.1
}.

(** The run into the buffer follows the run into the list. *)
Definition sim {X} (c1 : st (mem * list Z) X) (c2 : st (mem * vsnprintf_aux) X) : Prop :=
  (forall s1 r s1', c1 s1 = Ok (r, s1') -> Zlen s1.2 <= Zlen s1'.2) /\
  (forall s1 s2 r s1', printed s1 s2 -> c1 s1 = Ok (r, s1') -> Zlen s1'.2 < 2 ^ 31 ->
     exists s2', c2 s2 = Ok (r, s2') /\ printed s1' s2').

Lemma sim_ret {X} (v : X) : sim (mret v) (mret v).
Proof using. split; [intros s1 r s1' [= <- <-]; lia|]. intros s1 s2 r s1' Hp [= <- <-] _. by exists s2. Qed.

Lemma sim_fail {X} e : sim (st_fail e : st _ X) (st_fail e).
Proof using. by split. Qed.

Lemma sim_bind {X Y} (c1 : st _ X) c2 (k1 : X -> st _ Y) k2 :
  sim c1 c2 -> (forall v, sim (k1 v) (k2 v)) -> sim (c1 ≫= k1) (c2 ≫= k2).
Proof using.
  intros [Hm Hs] Hk. split.
  - intros s1 r s1' (v & s & H1 & H2)%run_bind_inv. etrans; [by eapply Hm|by eapply (Hk v)].
  - intros s1 s2 r s1' Hp (v & s & H1 & H2)%run_bind_inv Hl. destruct (Hk v) as [Hm' Hs'].
    pose proof (Hm' _ _ _ H2). destruct (Hs s1 s2 v s Hp H1) as (s2' & R1 & Hp'); [lia|].
    destruct (Hs' s s2' r s1' Hp' H2 Hl) as (s2'' & R2 & Hp''). exists s2''. split; [|done].
    by rewrite (run_bind _ _ _ _ _ R1).
Qed.

Lemma sim_lifto {X} (r : res X) : sim (lifto r) (lifto r).
Proof using. destruct r; [apply sim_ret|apply sim_fail]. Qed.

Lemma sim_read {X} (c : mM X) :
  (forall m0 m r m', m0 ⊆ m -> c m0 = Ok (r, m') -> m' = m0 /\ c m = Ok (r, m)) -> sim (liftm c) (liftm c).
Proof using.
  intros Hc. split.
  - intros [m0 out] r s1'. unfold liftm. destruct (c m0) as [[v m']|] eqn:E; [|done]. intros [= <- <-]. cbn. lia.
  - intros [m0 out] [m aux] r s1' Hp. pose proof (pr_sub _ _ Hp) as Hsub. cbn in Hsub. unfold liftm.
    destruct (c m0) as [[v m']|] eqn:E; [|done]. intros [= <- <-] _. destruct (Hc _ _ _ _ Hsub E) as [-> ->].
    by exists (m, aux).
Qed.

Lemma load_mono (m0 m : mem) a r m' : m0 ⊆ m -> load a m0 = Ok (r, m') -> m' = m0 /\ load a m = Ok (r, m).
Proof using.
  intros Hs. unfold load. destruct (m0 !! a) eqn:E; [|done]. intros [= <- <-]. split; [done|].
  by rewrite (lookup_weaken _ _ _ _ E Hs).
Qed.

(** More memory, and more fuel. *)
Lemma loop_mono {S R} (body : S -> mM (S + R)) (m0 m : mem) :
  (forall a v m', body a m0 = Ok (v, m') -> m' = m0 /\ body a m = Ok (v, m)) ->
  forall fuel fuel' a r m', (fuel <= fuel')%nat -> loop fuel body a m0 = Ok (r, m') ->
    m' = m0 /\ loop fuel' body a m = Ok (r, m).
Proof using.
  intros Hb fuel. induction fuel as [|fuel IH]; intros [|fuel'] a r m' Hf; try done; [lia|].
  intros ([a'|v] & s & H1 & H2)%run_bind_inv; apply Hb in H1 as [-> H1].
  - apply (IH fuel') in H2 as [-> H2]; [|lia]. split; [done|]. by rewrite (loop_continue _ _ _ _ _ _ H1).
  - injection H2 as <- <-. split; [done|]. by apply loop_break.
Qed.

Lemma strnlen_mono (m0 m : mem) s k r m' : m0 ⊆ m -> strnlen s k m0 = Ok (r, m') -> m' = m0 /\ strnlen s k m = Ok (r, m).
Proof using.
  intros Hs. unfold strnlen, scan. rewrite (run_bind st_get _ m0 m0 m0), (run_bind st_get _ m m m) by done. apply loop_mono.
  - intros n v m1 (c & m2 & H1 & H2)%run_bind_inv. apply (load_mono _ m) in H1 as [-> H1]; [|done].
    rewrite (run_bind _ _ _ _ _ H1). destruct (_ && _); injection H2 as <- <-; done.
  - apply le_n_S, map_subseteq_size, Hs.
Qed.

Lemma fmap_take_snoc l (c : Z) n :
  u8 <$> take n (l ++ [c]) = if decide (length l < n)%nat then (u8 <$> take n l) ++ [u8 c] else u8 <$> take n l.
Proof using.
  case_decide.
  - rewrite !take_ge by (rewrite ?length_app; cbn; lia). by rewrite fmap_app.
  - by rewrite take_app_le by lia.
Qed.

Lemma writable_lookup m p n a : writable m p n -> p <= a < p + Z.of_nat n -> is_Some (m !! a).
Proof using. intros H Ha. replace a with (p + Z.of_nat (Z.to_nat (a - p))) by lia. apply H. lia. Qed.
Lemma sim_output ch : sim (collect ch) (vsnprintf_helper ch).
Proof using Hsize.
  split.
  { intros [m out] r s1' [= <- <-]. cbn. rewrite length_app. lia. }
  intros [m0 out] [m aux] r s1' [P1 P2 P3 P4 P5 P6] [= <- <-] Hl. cbn in *. subst aux.
  rewrite length_app in Hl. cbn in Hl. unfold vsnprintf_helper. rewrite (run_bind _ _ _ _ _ (run_get _)). cbn.
  assert (0 <= room <= size) as Hroom by (unfold room; case_match; lia).
  assert (s32 (Zlen out + 1) = Zlen (out ++ [ch])) as Hlen.
  { rewrite length_app. cbn. rewrite swrap_id; unfold in_s; lia. }
  destruct (Z.ltb_spec (Zlen out) room) as [Hlt|Hge].
  - assert (room < size) as Hrs by (unfold room in *; case_match; lia).
    rewrite Z.min_l by lia. pose proof (writable_lookup _ _ _ (buf + Zlen out) P2 ltac:(lia)) as Hw.
    rewrite (run_bind _ _ _ tt (<[buf + Zlen out := u8 ch]> m, mkAux (buf + Zlen out) (Zlen out) room)).
    2:{ unfold liftm. by rewrite store_run. }
    eexists. split; [done|]. rewrite Hlen. split; cbn.
    + apply insert_subseteq_r; [|done]. apply P3. lia.
    + by apply writable_insert.
    + done.
    + f_equal. rewrite length_app. cbn. lia.
    + rewrite fmap_take_snoc, decide_True by lia. apply block_app. rewrite take_ge in P5 |- * by lia. split.
      * apply block_insert_ne; [rewrite length_fmap; lia|done].
      * rewrite length_fmap. apply block_cons. by rewrite lookup_insert_eq.
    + intros a Ha. rewrite lookup_insert_ne by lia. by apply P6.
  - eexists. split; [done|]. rewrite Hlen. split; cbn; try done.
    + f_equal. rewrite length_app. cbn. lia.
    + by rewrite fmap_take_snoc, decide_False by lia.
Qed.

Lemma sim_dup ch n : sim (output_dup collect ch n) (output_dup vsnprintf_helper ch n).
Proof using Hsize. induction n as [|n IH]; [apply sim_ret|]. apply sim_bind; [apply sim_output|done]. Qed.

Lemma sim_all cs : sim (output_all collect cs) (output_all vsnprintf_helper cs).
Proof using Hsize. induction cs as [|c cs IH]; [apply sim_ret|]. apply sim_bind; [apply sim_output|done]. Qed.

Lemma sim_load a : sim (liftm (load a)) (liftm (load a)).
Proof using. apply sim_read. intros m0 m r m'. apply load_mono. Qed.

Lemma sim_strnlen s k : sim (liftm (strnlen s k)) (liftm (strnlen s k)).
Proof using. apply sim_read. intros m0 m r m'. apply strnlen_mono. Qed.

Lemma sim_const cs i : sim (const_char cs i) (const_char cs i).
Proof using. unfold const_char. destruct (_ !! _); [apply sim_ret|apply sim_fail]. Qed.

Create HintDb sim.
Local Hint Resolve sim_ret sim_fail sim_bind sim_lifto sim_output sim_dup sim_all sim_load sim_strnlen sim_const : sim.
Local Hint Extern 1 (sim (if ?b then _ else _) _) => destruct b : sim.
Local Hint Extern 1 (sim (let '(_, _) := ?b in _) _) => destruct b : sim.

Lemma sim_string n get1 get2 : (forall i, sim (get1 i) (get2 i)) -> forall i,
  sim (string_loop collect n get1 i) (string_loop vsnprintf_helper n get2 i).
Proof using Hsize. intros Hg. induction n as [|n IH]; intros i; cbn [string_loop]; auto with sim. Qed.

Lemma sim_format_string get1 get2 len c : (forall i, sim (get1 i) (get2 i)) ->
  sim (format_string collect get1 len c) (format_string vsnprintf_helper get2 len c).
Proof using Hsize.
  intros Hg. unfold format_string. apply sim_bind; [auto with sim|intros _].
  apply sim_bind; [by apply sim_string|intros _]. auto with sim.
Qed.

Lemma sim_format_integer v sg ng b c :
  sim (format_integer collect v sg ng b c) (format_integer vsnprintf_helper v sg ng b c).
Proof using Hsize.
  unfold format_integer. do 3 (apply sim_bind; [apply sim_lifto|intros ?]).
  repeat (apply sim_bind; [auto with sim|intros _]). auto with sim.
Qed.

Local Hint Resolve sim_format_integer sim_format_string : sim.

Lemma sim_convert n1 n2 ch c args :
  (forall f a, sim (n1 f a) (n2 f a)) -> sim (convert collect n1 ch c args) (convert vsnprintf_helper n2 ch c args).
Proof using Hsize.
  intros Hn. unfold convert.
  repeat match goal with |- sim (if ?b then _ else _) _ => destruct b end;
    repeat first [apply sim_ret|apply sim_bind; [auto with sim|intros ?]|
                  match goal with |- sim (let '(_, _) := ?b in _) _ => destruct b end].
  destruct (_ =? _); [by apply sim_format_string; intros; apply sim_const|].
  apply sim_bind; [apply sim_strnlen|]. intros n. apply sim_format_string. intros i. apply sim_load.
Qed.

Lemma sim_loop fuel : forall format args,
  sim (vprintf_loop collect fuel format args) (vprintf_loop vsnprintf_helper fuel format args).
Proof using Hsize.
  induction fuel as [|fuel IH]; intros format args; [apply sim_fail|]. cbn [vprintf_loop].
  destruct format as [|ch format]; [apply sim_ret|].
  destruct (negb _); [by apply sim_bind; [apply sim_output|]|].
  destruct (_ =? 37); [by apply sim_bind; [apply sim_output|]|].
  apply sim_bind; [apply sim_lifto|]. intros [[format' c] args'].
  apply sim_bind; [by apply sim_convert|]. intros args''. destruct format'; [apply sim_fail|apply IH].
Qed.

Lemma vsnprintf_run m0 format args out :
  m0 ⊆ minit -> writable minit buf (Z.to_nat size) -> (forall a, buf <= a < buf + size -> m0 !! a = None) ->
  __vprintf collect format args (m0, []) = Ok (tt, (m0, out)) -> Zlen out < 2 ^ 31 ->
  exists m', vsnprintf buf size format args minit = Ok (Zlen out, m') /\
    (0 < size -> block m' buf ((u8 <$> take (Z.to_nat (size - 1)) out) ++ [0])) /\ outside buf size minit m'.
Proof using Hsize.
  intros Hsub Hw Hap Hrun Hl.
  destruct (sim_loop (length format + 24) format args) as [_ Hsim].
  assert (s32 room = room) as Er by (apply (swrap_id 32 ltac:(lia)); unfold in_s, room; case_match; lia).
  destruct (Hsim (m0, []) (minit, mkAux buf 0 room) tt (m0, out)) as ([m aux] & Hr & [P1 P2 P3 P4 P5 P6]); [|done|done|].
  { split; cbn; try done.
    - f_equal. unfold room. case_match; lia.
    - rewrite take_nil. by intros i b Hi. }
  cbn in *. subst aux. unfold vsnprintf, __vprintf. fold room. rewrite Er. rewrite (run_bind _ _ _ _ _ Hr).
  rewrite (run_bind _ _ _ _ _ (run_get _)). cbn [snd aux_p aux_length].
  assert (0 <= room <= size) as Hroom by (unfold room; case_match; lia).
  destruct (Z.ltb_spec 0 size) as [Hpos|Hz].
  2:{ exists m. split; [done|]. split; [lia|done]. }
  assert (room = size - 1) as Hrm by (unfold room; by rewrite (proj2 (Z.ltb_lt _ _)) by lia).
  set (e := buf + Z.min (Zlen out) room). pose proof (writable_lookup _ _ _ e P2 ltac:(lia)) as He.
  rewrite (run_bind _ _ _ tt (<[e := 0]> m, mkAux e (Zlen out) room)).
  2:{ unfold liftm. rewrite store_run by done. by rewrite u8_id by lia. }
  exists (<[e := 0]> m). split; [done|]. split.
  - intros _. rewrite <- Hrm. apply block_app.
    assert (Zlen (u8 <$> take (Z.to_nat room) out) = Z.min (Zlen out) room) as Hlen by (rewrite length_fmap, length_take; lia).
    split; [apply block_insert_ne; [lia|done]|]. rewrite Hlen. apply block_cons. fold e. by rewrite lookup_insert_eq.
  - intros a Ha. rewrite lookup_insert_ne by lia. by apply P6.
Qed.
End buffer.

(** * Decimal numbers *)

(** The number a sequence of digits denotes, the last digit first. *)
Definition dec_rev (ds : list Z) : Z := foldr (fun d n => d - 48 + 10 * n) 0 ds.

Lemma dec_from_rev ds : forall n, dec_from n (rev ds) = n * 10 ^ Zlen ds + dec_rev ds.
Proof.
  unfold dec_from, dec_rev. induction ds as [|d ds IH]; intros n; [cbn; lia|]. cbn [rev]. rewrite foldl_app, IH. cbn [foldl foldr length].
  rewrite Nat2Z.inj_succ, Z.pow_succ_r by lia. lia.
Qed.

Lemma digit_d n : 0 <= n < 10 -> b_digits base_d !! Z.to_nat n = Some (48 + n).
Proof.
  intros H. rewrite <- (Z2Nat.id n) at 2 by lia. assert (Z.to_nat n < 10)%nat as Hn by lia.
  generalize dependent (Z.to_nat n). clear. intros k Hk. do 10 (destruct k as [|k]; [done|]). lia.
Qed.

Lemma digit_loop_d k : forall fuel value cnt buf,
  0 <= value < 10 ^ Z.of_nat k -> (k < fuel)%nat -> (length buf + k <= 64)%nat ->
  exists ds, digit_loop fuel value base_d 0 cnt buf = Ok (buf ++ ds) /\ dec_rev ds = value /\ Forall dec_digit ds /\
    (length ds <= k)%nat.
Proof.
  induction k as [|k IH]; intros [|fuel] value cnt buf Hv Hf Hl; try lia; cbn [digit_loop].
  { assert (value = 0) as -> by lia. exists []. rewrite app_nil_r. split; [done|]. by repeat constructor. }
  destruct (Z.ltb_spec 0 value) as [Hpos|Hz].
  2:{ assert (value = 0) as -> by lia. exists []. rewrite app_nil_r. split; [done|]. split; [done|]. split; [constructor|cbn; lia]. }
  cbn [flag_set andb mbind res_bind]. change (flag_set 0 GROUP) with false. cbn [andb mbind res_bind].
  change (b_base base_d) with 10. pose proof (Z.mod_pos_bound value 10 ltac:(lia)). rewrite digit_d by done.
  unfold push at 1. rewrite (proj2 (Z.ltb_lt _ _)) by lia. cbn [mbind res_bind].
  destruct (IH fuel (value / 10) (cnt + 1) (buf ++ [48 + value mod 10])) as (ds & Hr & Hd & Hds & Hlen).
  - rewrite Nat2Z.inj_succ, Z.pow_succ_r in Hv by lia. split; [apply Z.div_pos; lia|apply Z.div_lt_upper_bound; lia].
  - lia.
  - rewrite length_app. cbn. lia.
  - exists ((48 + value mod 10) :: ds). rewrite Hr, <- app_assoc. split; [done|].
    split; [cbn [dec_rev foldr]; fold (dec_rev ds); pose proof (Z.div_mod value 10); lia|].
    split; [constructor; [unfold dec_digit; lia|done]|cbn; lia].
Qed.

Lemma collect_all cs : forall m out, output_all collect cs (m, out) = Ok (tt, (m, out ++ cs)).
Proof.
  induction cs as [|c cs IH]; intros m out; cbn [output_all]; [by rewrite app_nil_r|].
  rewrite (run_bind _ _ _ tt (m, out ++ [c])) by done. by rewrite IH, <- app_assoc.
Qed.

(** The conversion without flags, width and precision. *)
Definition plain (t : int_type) : printf_conversion := mkConv 0 0 (-1) t.

Lemma format_signed v m out t :
  0 <= Z.abs v < 10 ^ 20 -> exists ds,
    format_integer collect (Z.abs v) true (v <? 0) base_d (plain t) (m, out) =
      Ok (tt, (m, out ++ (if v <? 0 then [45] else []) ++ ds)) /\
    dec_from 0 ds = Z.abs v /\ Forall dec_digit ds /\ (1 <= length ds <= 20)%nat /\
    forall k, (k <= 20)%nat -> (0 < k)%nat -> Z.abs v < 10 ^ Z.of_nat k -> (length ds <= k)%nat.
Proof.
  intros Hv.
  assert (forall k, (k <= 20)%nat -> Z.abs v < 10 ^ Z.of_nat k -> exists ds,
    digit_loop 65 (Z.abs v) base_d 0 0 [] = Ok ds /\ dec_rev ds = Z.abs v /\ Forall dec_digit ds /\ (length ds <= k)%nat) as Hdig.
  { intros k Hk Hlt. apply (digit_loop_d k 65 (Z.abs v) 0 []); cbn; lia. }
  destruct (Hdig 20%nat ltac:(lia) ltac:(cbn; lia)) as (ds & Hr & Hd & Hf & Hl).
  assert (forall k, (k <= 20)%nat -> Z.abs v < 10 ^ Z.of_nat k -> (length ds <= k)%nat) as Hshort.
  { intros k Hk Hlt. destruct (Hdig k Hk Hlt) as (ds' & Hr' & _ & _ & Hl'). congruence. }
  clear Hdig. set (ds' := if decide (ds = []) then [48] else ds).
  assert (zero_loop 64 1 ds = Ok ds') as Hz.
  { unfold ds'. case_decide as E; [by subst|]. destruct ds as [|d ds]; [done|]. cbn [zero_loop].
    rewrite (proj2 (Z.ltb_ge _ _)) by (cbn; lia). done. }
  assert (dec_rev ds' = Z.abs v /\ Forall dec_digit ds' /\ (1 <= length ds')%nat /\ (length ds' <= 1 `max` length ds)%nat) as (Hd' & Hf' & Hl1 & Hl2).
  { unfold ds'. case_decide as E; [subst; split; [done|split; [repeat constructor; unfold dec_digit; lia|cbn; lia]]|].
    destruct ds; [done|]. cbn. split; [done|]. split; [done|lia]. }
  exists (rev ds'). split; [|split; [|split; [|split]]].
  - unfold format_integer, plain. cbn [flags width precision].
    change (flag_set 0 PLUS) with false. change (flag_set 0 SPACE) with false. change (flag_set 0 POUND) with false.
    change (flag_set 0 ZERO) with false. change (flag_set 0 MINUS) with false. change (flag_set 0 (Z.lor MINUS ZERO)) with false.
    cbn [andb negb]. rewrite (run_bind _ _ _ ds (m, out)) by (by rewrite Hr).
    change (-1 <? 0) with true. cbn iota. rewrite (run_bind _ _ _ ds' (m, out)) by (by rewrite Hz).
    rewrite (run_bind _ _ _ ds' (m, out)) by done. cbv zeta.
    change (0 =? 0) with true. cbn [negb]. rewrite (proj2 (Z.ltb_lt (0 - _ - 0 - _) 0)) by (destruct (v <? 0); cbn; lia).
    rewrite (run_bind _ _ _ tt (m, out)) by done.
    rewrite (run_bind _ _ _ tt (m, out ++ if v <? 0 then [45] else [])).
    2:{ destruct (v <? 0); cbn [Z.eqb negb Pos.eqb]; [done|]. change (0 =? 0) with true. by rewrite app_nil_r. }
    do 2 rewrite (run_bind _ _ _ tt (m, out ++ if v <? 0 then [45] else [])) by done.
    rewrite (run_bind _ _ _ _ _ (collect_all _ _ _)). by rewrite <- app_assoc.
  - rewrite dec_from_rev. lia.
  - by apply Forall_rev.
  - rewrite length_rev. lia.
  - intros k Hk Hk0 Hlt. specialize (Hshort k Hk Hlt). rewrite length_rev. lia.
Qed.

(** [%d] of an [int]. *)
Lemma print_int v m :
  in_s 32 v -> exists ds, __vprintf collect (chars "%d") [AWord (u32 v)] (m, []) =
      Ok (tt, (m, (if v <? 0 then [45] else []) ++ ds)) /\
    dec_from 0 ds = Z.abs v /\ Forall dec_digit ds /\ (1 <= length ds <= 10)%nat.
Proof.
  intros Hv. destruct (format_signed v m [] INT) as (ds & Hr & Hd & Hf & Hl & Hk); [unfold in_s in Hv; lia|].
  exists ds. split; [|split; [done|split; [done|]]].
  2:{ specialize (Hk 10%nat ltac:(lia) ltac:(lia)). unfold in_s in Hv. cbn in Hk. lia. }
  change (chars "%d") with [37; 100]. unfold __vprintf.
  replace (length _ + 24)%nat with (S (S 24)) by done. generalize 24%nat as k. intros k. cbn [vprintf_loop].
  change (negb (37 =? 37)) with false. cbn [head default from_option id]. change (100 =? 37) with false. cbn iota.
  rewrite (run_bind _ _ _ ([100], plain INT, [AWord (u32 v)]) (m, [])) by done. cbn [head].
  rewrite (run_bind _ _ _ [] (m, (if v <? 0 then [45] else []) ++ ds)); [done|].
  unfold convert. cbn [default from_option id type plain].
  change ((100 =? 100) || (100 =? 105)) with true. cbn iota.
  rewrite (run_bind _ _ _ (v, []) (m, [])).
  2:{ unfold signed_arg, va_word. cbn [mbind res_bind fst snd lifto]. by rewrite s32_u32. }
  rewrite (run_bind _ _ _ tt (m, (if v <? 0 then [45] else []) ++ ds)); [done|].
  assert (u64 (if v <? 0 then s64 (- v) else v) = Z.abs v) as ->; [|exact Hr].
  unfold in_s in Hv. destruct (Z.ltb_spec v 0).
  - rewrite (swrap_id 64 ltac:(lia)) by (unfold in_s; lia). rewrite uwrap_id by (unfold in_u; lia). lia.
  - rewrite uwrap_id by (unfold in_u; lia). lia.
Qed.

(** * Theorems *)

(** C16: [vsnprintf] respects its buffer.  If a format, with its arguments, prints
    the characters [out] (the strings it refers to lie outside the buffer), then
    [vsnprintf] into a buffer of [size] bytes returns the length of all of [out],
    leaves the first [size - 1] characters of [out] in the buffer, terminated by a
    null character unless [size] is 0, and changes no byte outside the buffer. *)
Theorem vsnprintf_spec m0 m buf size format args out :
  0 <= size < 2 ^ 31 -> m0 ⊆ m -> writable m buf (Z.to_nat size) -> (forall a, buf <= a < buf + size -> m0 !! a = None) ->
  __vprintf collect format args (m0, []) = Ok (tt, (m0, out)) -> Zlen out < 2 ^ 31 ->
  exists m', vsnprintf buf size format args m = Ok (Zlen out, m') /\
    (0 < size -> block m' buf ((u8 <$> take (Z.to_nat (size - 1)) out) ++ [0])) /\ outside buf size m m'.
Proof. intros Hs. by apply vsnprintf_run. Qed.

(** Some bytes of memory to print to. *)
Definition demo_buffer : mem := list_to_map (zip (seqZ 200 16) (replicate 16 7)).

Lemma demo_writable n : (n <= 16)%nat -> writable demo_buffer 200 n.
Proof.
  intros Hn i Hi. exists 7.
  assert (forall j, (j < 16)%nat -> demo_buffer !! (200 + Z.of_nat j) = Some 7) as H.
  { intros j Hj. do 16 (destruct j as [|j]; [by vm_compute|]). lia. }
  apply H. lia.
Qed.

Lemma vsnprintf_spec_witness :
  exists m', vsnprintf 200 5 (chars "%x:%3d") [AWord 48879; AWord 7] demo_buffer = Ok (8, m') /\
    block m' 200 [98; 101; 101; 102; 0].
Proof.
  destruct (vsnprintf_spec ∅ demo_buffer 200 5 (chars "%x:%3d") [AWord 48879; AWord 7] (chars "beef:  7")) as (m' & H1 & H2 & _).
  - lia.
  - apply map_empty_subseteq.
  - apply demo_writable. cbn. lia.
  - intros a _. apply lookup_empty.
  - by vm_compute.
  - by vm_compute.
  - exists m'. split; [exact H1|]. apply H2. lia.
Defined.

(** Printing and reading a number.  For every [int] [v], [snprintf] with ["%d"]
    into a buffer of at least 12 bytes and [atoi] of the buffer give [v] back. *)
Theorem decimal_roundtrip m buf size v :
  in_s 32 v -> 0 < buf -> 12 <= size < 2 ^ 31 -> writable m buf (Z.to_nat size) ->
  exists n m', snprintf buf size (chars "%d") [AWord (u32 v)] m = Ok (n, m') /\ atoi buf m' = Ok (v, m').
Proof.
  intros Hv Hb Hs Hw. destruct (print_int v ∅ Hv) as (ds & Hr & Hd & Hf & Hl).
  set (sg := if v <? 0 then [45] else []) in *. assert (Zlen sg <= 1) as Hsg by (unfold sg; destruct (v <? 0); cbn; lia).
  destruct (vsnprintf_run m buf size ltac:(lia) ∅ (chars "%d") [AWord (u32 v)] (sg ++ ds)) as (m' & H1 & H2 & _).
  - apply map_empty_subseteq.
  - exact Hw.
  - intros a _. apply lookup_empty.
  - exact Hr.
  - rewrite length_app. lia.
  - exists (Zlen (sg ++ ds)), m'. split; [exact H1|]. specialize (H2 ltac:(lia)).
    rewrite take_ge in H2 by (rewrite length_app; lia).
    assert (Forall (fun b => 0 < b < 256) (sg ++ ds)) as Hbytes.
    { apply Forall_app. split; [unfold sg; destruct (v <? 0); repeat constructor; lia|].
      eapply Forall_impl; [exact Hf|]. unfold dec_digit. lia. }
    assert (u8 <$> (sg ++ ds) = sg ++ ds) as E.
    { rewrite <- (list_fmap_id (sg ++ ds)) at 2. apply list_fmap_ext. intros i b Hi. change (u8 b = b). apply u8_id.
      destruct (Forall_lookup_1 _ _ _ _ Hbytes Hi). lia. }
    rewrite E in H2. rewrite (atoi_run m' buf [] sg ds []).
    + f_equal. f_equal. unfold sg, in_s in *. destruct (Z.ltb_spec v 0).
      * rewrite decide_True by done. rewrite Hd, (swrap_id 32 ltac:(lia)) by (unfold in_s; lia). lia.
      * rewrite decide_False by done. rewrite Hd, (swrap_id 32 ltac:(lia)) by (unfold in_s; lia). lia.
    + rewrite app_nil_r. done.
    + constructor.
    + unfold sg. destruct (v <? 0); auto.
    + done.
    + done.
    + intros _ ->. cbn in Hl. lia.
Qed.

Lemma decimal_roundtrip_witness :
  exists n m', snprintf 200 16 (chars "%d") [AWord (u32 (-2147483648))] demo_buffer = Ok (n, m') /\
    atoi 200 m' = Ok (-2147483648, m').
Proof.
  apply (decimal_roundtrip demo_buffer 200 16 (-2147483648)).
  - unfold in_s. lia.
  - lia.
  - lia.
  - apply demo_writable. cbn. lia.
Defined.
