(* ===== verification/Path.v ===== *)
(** filesys/path.c: path names.  A path is the list of its bytes; what [strtok_r]
    makes of it is [tokens] of StringC.v, which [strtok_r_spec] there justifies. *)
From Stdlib Require Import ZArith Lia.
From stdpp Require Import base numbers sorting gmap list.
From S2P Require Import Prelude.
From S2P Require Import StringC.

Local Open Scope Z_scope.

Abbreviation str := (list Z).

(** * Memory *)

(** A routine that calls [malloc]: the state is the outcomes of the calls to come,
    and when they are used up every call succeeds. *)
Abbreviation pM := (st (list bool)).

Definition malloc : pM bool := fun o =>
  match o with
  | [] => Ok (true, [])
  | b :: o => Ok (b, o)
  end.

(** A copy of a string, null when there is no memory. *)
Definition dup (s : str) : pM (option str) := ok ← malloc; mret (if ok : bool then Some s else None).

(** * Predicates *)

Definition SLASH : Z := 47.
Definition DOT : Z := 46.

Definition valid_char (c : Z) : bool :=
  (c =? 45) || (c =? 46) || (c =? 47) || ((48 <=? c) && (c <=? 57)) || ((65 <=? c) && (c <=? 90)) ||
  (c =? 95) || ((97 <=? c) && (c <=? 122)).

Definition path_isvalid (path : str) : bool := (0 <? Zlen path) && forallb valid_char path.

Definition path_isabs (path : str) : bool :=
  path_isvalid path && match path with c :: _ => c =? SLASH | [] => false end.

Definition path_isroot (path : str) : bool :=
  path_isvalid path && (Zlen path =? 1) && match path with c :: _ => c =? SLASH | [] => false end.

Definition path_isdot (path : str) : bool :=
  path_isvalid path && (Zlen path =? 1) && match path with c :: _ => c =? DOT | [] => false end.

Definition path_isdotdot (path : str) : bool :=
  path_isvalid path && (Zlen path =? 2) &&
  match path with c :: d :: _ => (c =? DOT) && (d =? DOT) | _ => false end.

(** * Joining *)

(** Null pointers are [None].  With an empty [path1] the code reads the byte before
    the string. *)
Definition path_join2 (path1 path2 : option str) : pM (option str) :=
  assert (match path1, path2 with None, None => false | _, _ => true end);;
  match path1, path2 with
  | Some p1, None => dup p1
  | None, Some p2 => dup p2
  | Some p1, Some p2 =>
      if path_isabs p2 then dup p2
      else
        match last p1 with
        | None => st_fail EUndef
        | Some c => if c =? SLASH then dup (p1 ++ p2) else dup (p1 ++ SLASH :: p2)
        end
  | None, None => st_fail EFault
  end.

Fixpoint join_loop (ret : option str) (args : list (option str)) : pM (option str) :=
  match args with
  | [] => mret ret
  | tmp :: args => r ← path_join2 ret tmp; join_loop r args
  end.

Definition path_join (path1 : str) (args : list (option str)) : pM (option str) :=
  ok ← malloc; assert ok;; join_loop (Some path1) args.

(** * Taking apart *)

(** What an absolute or a relative path is when nothing is left of it. *)
Definition empty_path (path : str) : str := if path_isabs path then [SLASH] else [DOT].

(** The loop of [path_dirname]: [token] is the last component seen, and is appended
    only when another one follows.  A null result of a join ends it. *)
Fixpoint dirname_loop (path : str) (ret token : option str) (toks : list str) : pM (option (option str)) :=
  match toks with
  | [] => mret (Some ret)
  | sentry :: toks =>
      match token with
      | None => dirname_loop path ret (Some sentry) toks
      | Some t =>
          r ← match ret with
              | None => if path_isabs path then path_join2 (Some [SLASH]) (Some t) else mret (Some t)
              | Some r => path_join2 (Some r) (Some t)
              end;
          match r with
          | None => mret None
          | Some r => dirname_loop path (Some r) (Some sentry) toks
          end
      end
  end.

Definition path_dirname (path : str) : pM (option str) :=
  ok ← malloc;
  if negb ok then mret None else
  ret ← dirname_loop path None None (tokens [SLASH] path);
  match ret with
  | None => mret None
  | Some ret => dup (default (empty_path path) ret)
  end.

Definition path_basename (path : str) : pM (option str) :=
  ok ← malloc;
  if negb ok then mret None else
  dup (default (empty_path path) (last (tokens [SLASH] path))).

(** * Normalizing *)

Fixpoint normpath_loop (path : str) (ret : option str) (toks : list str) : pM (option (option str)) :=
  match toks with
  | [] => mret (Some ret)
  | token :: toks =>
      if path_isdotdot token then
        match ret with
        | Some r => r' ← path_dirname r; normpath_loop path r' toks
        | None => normpath_loop path (Some (if path_isabs path then [SLASH] else token)) toks
        end
      else if path_isdot token then normpath_loop path ret toks
      else
        r ← match ret with
            | None => if path_isabs path then path_join2 (Some [SLASH]) (Some token) else mret (Some token)
            | Some r => path_join2 (Some r) (Some token)
            end;
        match r with
        | None => mret None
        | Some r => normpath_loop path (Some r) toks
        end
  end.

Definition path_normpath (path : option str) : pM (option str) :=
  match path with
  | None => mret None
  | Some path =>
      ok ← malloc; assert ok;;
      ret ← normpath_loop path None (tokens [SLASH] path);
      match ret with
      | None => mret None
      | Some ret => dup (default (empty_path path) ret)
      end
  end.

(** [cwd] is the [pwd] of the running thread. *)
Definition path_abspath (cwd : str) (path : option str) : pM (option str) :=
  join ← path_join2 (Some cwd) path;
  match join with
  | None => mret None
  | Some j => path_normpath (Some j)
  end.

(** * Absolute paths as lists of components *)

Definition comp (c : str) : Prop := c <> [] /\ Forall (fun b => valid_char b = true /\ b <> SLASH) c.

Definition render (cs : list str) : str :=
  match cs with
  | [] => [SLASH]
  | _ => concat (cons SLASH <$> cs)
  end.

(** Following one component: ["."] stays, [".."] goes up. *)
Definition follow (cs : list str) (t : str) : list str :=
  if path_isdotdot t then removelast cs else if path_isdot t then cs else cs ++ [t].

Definition resolve (cs ts : list str) : list str := foldl follow cs ts.

Lemma Forall_snoc {A} (P : A -> Prop) l x : Forall P l -> P x -> Forall P (l ++ [x]).
Proof. intros Hl Hx. apply Forall_app. split; [done|]. by apply Forall_singleton. Qed.

Lemma valid_char_pos b : valid_char b = true -> 0 < b < 256.
Proof.
  unfold valid_char. rewrite !orb_true_iff, !andb_true_iff, !Z.eqb_eq, !Z.leb_le. lia.
Qed.

Lemma delim_slash b : valid_char b = true -> delim [SLASH] b = (b =? SLASH).
Proof.
  intros H%valid_char_pos. unfold delim. cbn. rewrite orb_false_r. destruct (Z.eqb_spec b 0); [lia|done].
Qed.

Lemma comp_delim c : comp c -> Forall (fun b => delim [SLASH] b = false) c.
Proof.
  intros [_ H]. eapply Forall_impl; [apply H|]. cbn. intros b [Hv Hs]. rewrite delim_slash by done. by apply Z.eqb_neq.
Qed.

Lemma tok_comp cur s :
  Forall (fun b => valid_char b = true /\ b <> SLASH) cur -> forallb valid_char s = true ->
  Forall comp (tok [SLASH] cur s).
Proof.
  revert cur. induction s as [|b s IH]; intros cur Hc Hs; cbn.
  - destruct cur as [|x cur]; [constructor|]. apply Forall_singleton. by split.
  - cbn in Hs. apply andb_true_iff in Hs as [Hb Hs]. rewrite delim_slash by done.
    destruct (Z.eqb_spec b SLASH) as [->|Hne].
    + destruct cur; [by apply IH|]. constructor; [done|]. by apply IH.
    + apply IH; [|done]. by apply Forall_snoc.
Qed.

Lemma tokens_comp p : path_isvalid p = true -> Forall comp (tokens [SLASH] p).
Proof. intros [_ H]%andb_true_iff. by apply tok_comp. Qed.

Lemma comp_valid c : comp c -> path_isvalid c = true /\ path_isabs c = false.
Proof.
  intros [Hne H]. assert (path_isvalid c = true) as Hv.
  { unfold path_isvalid. destruct c as [|b c]; [done|]. apply andb_true_iff. split; [by apply Z.ltb_lt; cbn; lia|].
    apply forallb_forall. intros x Hx%list_elem_of_In. rewrite Forall_forall in H. by apply H. }
  split; [done|]. unfold path_isabs. rewrite Hv. destruct c as [|b c]; [done|].
  apply Forall_cons in H as [[_ Hb] _]. by apply Z.eqb_neq.
Qed.

Lemma render_cons c cs : exists l, render (c :: cs) = SLASH :: l.
Proof. by eexists. Qed.

Lemma concat_valid cs : Forall comp cs -> forallb valid_char (concat (cons SLASH <$> cs)) = true.
Proof.
  induction 1 as [|c cs Hc Hcs IH]; [done|]. cbn [fmap list_fmap concat]. rewrite forallb_app.
  apply andb_true_iff. split; [|done].
  cbn. destruct (comp_valid _ Hc) as [Hc' _]. by apply andb_true_iff in Hc' as [_ ?].
Qed.

Lemma render_valid cs : Forall comp cs -> path_isvalid (render cs) = true /\ path_isabs (render cs) = true.
Proof.
  intros H. assert (path_isvalid (render cs) = true) as Hv.
  { destruct cs as [|c cs]; [done|]. destruct (render_cons c cs) as [l E]. unfold path_isvalid.
    rewrite E at 1. apply andb_true_iff. split; [by apply Z.ltb_lt; cbn; lia|].
    by apply concat_valid. }
  split; [done|]. unfold path_isabs. rewrite Hv. by destruct cs.
Qed.

Lemma tokens_render cs : Forall comp cs -> tokens [SLASH] (render cs) = cs.
Proof.
  intros H. destruct cs as [|c0 cs0]; [done|]. cbn [render]. revert H. generalize (c0 :: cs0). clear.
  induction 1 as [|c cs Hc Hcs IH]; [done|]. cbn [fmap list_fmap concat app].
  rewrite tokens_skip by done. rewrite (tokens_word [SLASH] c) by (apply Hc || by apply comp_delim || by destruct cs).
  f_equal. destruct cs as [|c' cs]; [done|]. rewrite <- IH at 2. cbn [fmap list_fmap concat app tail].
  by rewrite (tokens_skip [SLASH] SLASH).
Qed.

(** ** The routines on such paths, when there is memory *)

Lemma render_snoc cs t : render (cs ++ [t]) = concat (cons SLASH <$> cs) ++ SLASH :: t.
Proof.
  destruct cs as [|c cs]; cbn; [by rewrite app_nil_r|]. f_equal. rewrite fmap_app, concat_app. cbn.
  by rewrite app_nil_r, <- app_assoc.
Qed.

Lemma last_render c cs : Forall comp (c :: cs) -> exists b, last (render (c :: cs)) = Some b /\ b <> SLASH.
Proof.
  intros H. destruct (exists_last (l := c :: cs)) as (cs' & t & E); [done|]. rewrite E in H |- *.
  apply Forall_app in H as [_ [[Hne Ht] _]%Forall_cons]. rewrite render_snoc.
  destruct (exists_last Hne) as (t' & b & ->). exists b.
  apply Forall_app in Ht as [_ [[_ Hb] _]%Forall_cons]. split; [|done].
  by rewrite last_app_cons, (app_comm_cons t' [b]), last_snoc.
Qed.

Lemma join_render cs t :
  Forall comp cs -> comp t -> path_join2 (Some (render cs)) (Some t) [] = Ok (Some (render (cs ++ [t])), []).
Proof.
  intros Hcs Ht. unfold path_join2. rewrite (run_bind _ _ _ _ _ (run_assert true [] eq_refl)).
  destruct (comp_valid _ Ht) as [_ ->]. rewrite render_snoc. destruct cs as [|c cs]; [done|].
  destruct (last_render _ _ Hcs) as (b & -> & Hb). by destruct (Z.eqb_spec b SLASH).
Qed.

(** A path in the making: null stands for the root. *)
Definition rep (r : option str) (cs : list str) : Prop := r = Some (render cs) \/ (r = None /\ cs = []).

Lemma join_rep p ret cs t :
  path_isabs p = true -> rep ret cs -> Forall comp cs -> comp t ->
  match ret with
  | None => if path_isabs p then path_join2 (Some [SLASH]) (Some t) else mret (Some t)
  | Some r => path_join2 (Some r) (Some t)
  end [] = Ok (Some (render (cs ++ [t])), []).
Proof.
  intros Hp [->|[-> ->]] Hcs Ht; [by apply join_render|]. rewrite Hp. by apply (join_render []).
Qed.

Lemma rep_default p r cs : path_isabs p = true -> rep r cs -> default (empty_path p) r = render cs.
Proof. intros Hp [->|[-> ->]]; [done|]. cbn. unfold empty_path. by rewrite Hp. Qed.

Lemma dirname_loop_run p ret cs t ts :
  path_isabs p = true -> rep ret cs -> Forall comp cs -> comp t -> Forall comp ts ->
  exists r, dirname_loop p ret (Some t) ts [] = Ok (Some r, []) /\ rep r (cs ++ removelast (t :: ts)).
Proof.
  intros Hp Hr Hcs Ht Hts. revert ret cs t Hr Hcs Ht. induction Hts as [|u ts Hu Hts IH]; intros ret cs t Hr Hcs Ht.
  { exists ret. split; [done|]. cbn. by rewrite app_nil_r. }
  cbn [dirname_loop]. rewrite (run_bind _ _ _ _ _ (join_rep _ _ _ _ Hp Hr Hcs Ht)).
  destruct (IH (Some (render (cs ++ [t]))) (cs ++ [t]) u) as (r & H1 & H2); [by left|by apply Forall_snoc|done|].
  exists r. split; [done|]. rewrite <- app_assoc in H2. done.
Qed.

Lemma path_dirname_run cs :
  Forall comp cs -> path_dirname (render cs) [] = Ok (Some (render (removelast cs)), []).
Proof.
  intros Hcs. unfold path_dirname. rewrite (run_bind _ _ [] true []) by done. cbn [negb].
  rewrite tokens_render by done. destruct (render_valid _ Hcs) as [_ Ha].
  destruct cs as [|c cs]; [done|]. apply Forall_cons in Hcs as [Hc Hcs]. cbn [dirname_loop].
  destruct (dirname_loop_run (render (c :: cs)) None [] c cs Ha) as (r & H1 & H2); [by right|done..|].
  rewrite (run_bind _ _ _ _ _ H1). rewrite (rep_default _ _ _ Ha H2). done.
Qed.

Lemma removelast_comp cs : Forall comp cs -> Forall comp (removelast cs).
Proof.
  intros H. destruct cs as [|c cs]; [done|]. rewrite (app_removelast_last [] (l := c :: cs)) in H by done.
  by apply Forall_app in H as [? _].
Qed.

Lemma follow_comp cs t : Forall comp cs -> comp t -> Forall comp (follow cs t).
Proof.
  intros Hcs Ht. unfold follow. repeat case_match; [by apply removelast_comp|done|].
  by apply Forall_snoc.
Qed.

Lemma resolve_comp cs ts : Forall comp cs -> Forall comp ts -> Forall comp (resolve cs ts).
Proof.
  intros Hcs Hts. revert cs Hcs. induction Hts as [|t ts Ht Hts IH]; intros cs Hcs; [done|].
  apply IH. by apply follow_comp.
Qed.

Lemma normpath_loop_run p ret cs ts :
  path_isabs p = true -> rep ret cs -> Forall comp cs -> Forall comp ts ->
  exists r, normpath_loop p ret ts [] = Ok (Some r, []) /\ rep r (resolve cs ts).
Proof.
  intros Hp Hr Hcs Hts. revert ret cs Hr Hcs. induction Hts as [|t ts Ht Hts IH]; intros ret cs Hr Hcs.
  { by exists ret. }
  pose proof (follow_comp _ _ Hcs Ht) as Hf. change (resolve cs (t :: ts)) with (resolve (follow cs t) ts).
  cbn [normpath_loop]. unfold follow in Hf |- *.
  destruct (path_isdotdot t).
  - destruct Hr as [->|[-> ->]].
    + rewrite (run_bind _ _ _ _ _ (path_dirname_run _ Hcs)). apply IH; [by left|done].
    + rewrite Hp. apply IH; [by left|done].
  - destruct (path_isdot t); [by apply IH|].
    rewrite (run_bind _ _ _ _ _ (join_rep _ _ _ _ Hp Hr Hcs Ht)). apply IH; [by left|done].
Qed.

Lemma path_normpath_run p :
  path_isabs p = true ->
  path_normpath (Some p) [] = Ok (Some (render (resolve [] (tokens [SLASH] p))), []).
Proof.
  intros Hp. pose proof Hp as Hv. unfold path_isabs in Hv. apply andb_true_iff in Hv as [Hv _].
  unfold path_normpath. rewrite (run_bind _ _ [] true []) by done. rewrite (run_bind _ _ _ _ _ (run_assert true [] eq_refl)).
  destruct (normpath_loop_run p None [] (tokens [SLASH] p) Hp) as (r & H1 & H2);
    [by right|done|by apply tokens_comp|].
  rewrite (run_bind _ _ _ _ _ H1), (rep_default _ _ _ Hp H2). done.
Qed.

Lemma follow_plain cs t : path_isdot t = false -> path_isdotdot t = false -> follow cs t = cs ++ [t].
Proof. intros H1 H2. unfold follow. by rewrite H1, H2. Qed.

(** A component that is not a reference to this or the upper directory. *)
Definition plain (t : str) : Prop := path_isdot t = false /\ path_isdotdot t = false.

Lemma removelast_plain cs : Forall plain cs -> Forall plain (removelast cs).
Proof.
  intros H. destruct cs as [|c cs]; [done|]. rewrite (app_removelast_last [] (l := c :: cs)) in H by done.
  by apply Forall_app in H as [? _].
Qed.

Lemma resolve_plain cs ts : Forall plain cs -> Forall plain (resolve cs ts).
Proof.
  revert cs. induction ts as [|t ts IH]; intros cs Hcs; [done|]. apply IH. unfold follow.
  destruct (path_isdotdot t) eqn:E1; [by apply removelast_plain|]. destruct (path_isdot t) eqn:E2; [done|].
  by apply Forall_snoc.
Qed.

Lemma resolve_plain_id cs ts : Forall plain ts -> resolve cs ts = cs ++ ts.
Proof.
  intros H. revert cs. induction H as [|t ts [H1 H2] Hts IH]; intros cs; [by rewrite app_nil_r|].
  change (resolve cs (t :: ts)) with (resolve (follow cs t) ts).
  by rewrite IH, follow_plain, <- app_assoc.
Qed.

Lemma tok_split ds cur s d t :
  delim ds d = true -> tok ds cur (s ++ d :: t) = tok ds cur s ++ tok ds [] t.
Proof.
  intros Hd. revert cur. induction s as [|b s IH]; intros cur; cbn.
  - rewrite Hd. by destruct cur.
  - destruct (delim ds b); [|apply IH]. destruct cur; cbn; [apply IH|f_equal; apply IH].
Qed.

Lemma words_app s t : tokens [SLASH] (s ++ SLASH :: t) = tokens [SLASH] s ++ tokens [SLASH] t.
Proof. by apply tok_split. Qed.

Lemma isabs_cons p : path_isabs p = true -> exists q, p = SLASH :: q /\ forallb valid_char p = true.
Proof.
  intros [[_ H]%andb_true_iff Hs]%andb_true_iff. destruct p as [|c p]; [done|]. apply Z.eqb_eq in Hs as ->. eauto.
Qed.

Lemma isabs_app p q : path_isabs p = true -> path_isvalid q = true -> path_isabs (p ++ q) = true.
Proof.
  intros Hp [_ Hq]%andb_true_iff. apply isabs_cons in Hp as (p' & -> & Hp).
  unfold path_isabs, path_isvalid. rewrite forallb_app, Hp, Hq. cbn. done.
Qed.

(** * Theorems *)

(** Normalizing an absolute path.  When there is memory, [path_normpath] of a
    valid absolute path is the path of the directory reached by following its
    components from the root, where "." stays, ".." goes up (and stays at the root),
    and repeated slashes count as one.  The result is a valid absolute path with no
    "." or ".." left in it, and normalizing it again changes nothing. *)
Theorem path_normpath_spec p :
  path_isabs p = true ->
  let r := render (resolve [] (tokens [SLASH] p)) in
  path_normpath (Some p) [] = Ok (Some r, []) /\ path_isabs r = true /\
  tokens [SLASH] r = resolve [] (tokens [SLASH] p) /\ Forall plain (tokens [SLASH] r) /\
  path_normpath (Some r) [] = Ok (Some r, []).
Proof.
  intros Hp r. subst r. pose proof Hp as Hv. unfold path_isabs in Hv. apply andb_true_iff in Hv as [Hv _].
  assert (Forall comp (resolve [] (tokens [SLASH] p))) as Hc by (apply resolve_comp; [done|by apply tokens_comp]).
  assert (Forall plain (resolve [] (tokens [SLASH] p))) as Hpl by (by apply resolve_plain).
  destruct (render_valid _ Hc) as [_ Ha]. pose proof (tokens_render _ Hc) as Ht.
  split_and!; [by apply path_normpath_run|done|done|by rewrite Ht|].
  rewrite (path_normpath_run _ Ha), Ht. by rewrite resolve_plain_id.
Qed.

(** "/a/../b/./c" *)
Definition demo_path : str := [47; 97; 47; 46; 46; 47; 98; 47; 46; 47; 99].

Lemma path_normpath_spec_witness : path_normpath (Some demo_path) [] = Ok (Some [47; 98; 47; 99], []).
Proof. apply (path_normpath_spec demo_path). reflexivity. Defined.

(** Directory and base name.  Of an absolute path with at least one component,
    [path_dirname] is the path without its last component, [path_basename] is that
    component, and [path_join2] puts them together again. *)
Theorem dirname_basename_join cs c :
  Forall comp cs -> comp c ->
  path_dirname (render (cs ++ [c])) [] = Ok (Some (render cs), []) /\
  path_basename (render (cs ++ [c])) [] = Ok (Some c, []) /\
  path_join2 (Some (render cs)) (Some c) [] = Ok (Some (render (cs ++ [c])), []).
Proof.
  intros Hcs Hc. assert (Forall comp (cs ++ [c])) as Ha by (by apply Forall_snoc). split_and!.
  - rewrite path_dirname_run by done. by rewrite removelast_last.
  - unfold path_basename. rewrite (run_bind _ _ [] true []) by done. cbn [negb].
    by rewrite tokens_render, last_snoc by done.
  - by apply join_render.
Qed.

Lemma comp_demo : comp [117; 115; 114] /\ comp [98; 105; 110].
Proof. split; (split; [done|]); repeat (apply Forall_cons; split; [done|]); by apply Forall_nil. Qed.

Lemma dirname_basename_join_witness :
  path_dirname [47; 117; 115; 114; 47; 98; 105; 110] [] = Ok (Some [47; 117; 115; 114], []).
Proof.
  destruct comp_demo as [H1 H2].
  exact (proj1 (dirname_basename_join [[117; 115; 114]] [98; 105; 110] (Forall_cons_2 _ _ _ H1 (Forall_nil_2 _)) H2)).
Defined.

(** Absolute paths.  From a working directory that is a valid absolute path,
    [path_abspath] of a valid path is the normalized path that is reached from the
    working directory, or from the root if the path is absolute. *)
Theorem path_abspath_spec cwd p :
  path_isabs cwd = true -> path_isvalid p = true ->
  path_abspath cwd (Some p) [] =
    Ok (Some (render (resolve [] (if path_isabs p then tokens [SLASH] p
                                  else tokens [SLASH] cwd ++ tokens [SLASH] p))), []).
Proof.
  intros Hc Hp. destruct (isabs_cons _ Hc) as (c & Hv). unfold path_abspath, path_join2.
  assert (path_isabs p = false -> exists j, path_join2 (Some cwd) (Some p) [] = Ok (Some j, []) /\
    path_isabs j = true /\ tokens [SLASH] j = tokens [SLASH] cwd ++ tokens [SLASH] p) as Hj.
  { intros E. unfold path_join2. rewrite (run_bind _ _ _ _ _ (run_assert true [] eq_refl)), E.
    destruct (last cwd) as [b|] eqn:El; [|apply last_None in El; by subst]. destruct (Z.eqb_spec b SLASH) as [->|Hne].
    - eexists. split; [done|]. split; [by apply isabs_app|].
      apply last_Some in El as [c' ->]. rewrite <- app_assoc. cbn [app]. by rewrite !words_app, app_nil_r.
    - eexists. split; [done|]. rewrite words_app. split; [|done].
      change (SLASH :: p) with ([SLASH] ++ p). rewrite app_assoc. apply isabs_app; [|done].
      by apply isabs_app. }
  destruct (path_isabs p) eqn:E.
  - rewrite (run_bind _ _ [] (Some p) []) by done. by rewrite path_normpath_run.
  - destruct (Hj eq_refl) as (j & H1 & H2 & H3). unfold path_join2 in H1. rewrite E in H1.
    rewrite (run_bind _ _ _ _ _ H1). by rewrite path_normpath_run, H3.
Qed.

Lemma path_abspath_spec_witness :
  path_abspath [47; 117] (Some [46; 46; 47; 98]) [] = Ok (Some [47; 98], []).
Proof. exact (path_abspath_spec [47; 117] [46; 46; 47; 98] eq_refl eq_refl). Defined.

(** The comment of [path_normpath] says that it collapses up-level references.  A
    relative path keeps a "." in front when an up-level reference cancels its first
    component, and loses all but the last of several leading up-level references:
    "a/../b" gives "./b", and "../../a" gives "./a". *)
Theorem path_normpath_relative :
  path_normpath (Some [97; 47; 46; 46; 47; 98]) [] = Ok (Some [46; 47; 98], []) /\
  path_normpath (Some [46; 46; 47; 46; 46; 47; 97]) [] = Ok (Some [46; 47; 97], []).
Proof. split; reflexivity. Qed.
