(* ===== verification/Inode.v ===== *)
(** The file system below file names: filesys/inode.c, filesys/free-map.c and
    filesys/file.c, on a device of 512-byte sectors.

    A routine is a function on the state of the file system.  The semaphores of
    inode.c serialize the routines, which are modelled one at a time; [intr_disable]
    around a list operation has no counterpart here. *)
From Stdlib Require Import ZArith Lia.
From stdpp Require Import base numbers sorting gmap list.
From S2P Require Import Prelude.
From S2P Require Import Bitmap.

Local Open Scope Z_scope.

(** * Data *)

Definition BLOCK_SECTOR_SIZE : Z := 512.
Definition INODE_MAGIC : Z := 0x494e4f44.
Definition NODE_CAPACITY : Z := 244.
Definition BYTE_CAPACITY : Z := BLOCK_SECTOR_SIZE * NODE_CAPACITY.
Definition FREE_MAP_SECTOR : Z := 0.
Definition ROOT_DIR_SECTOR : Z := 1.
Definition NULL : Z := 0.

(** -1 as a [block_sector_t]. *)
Definition NO_SECTOR : Z := 2 ^ 32 - 1.

(** On-disk inodes. *)
Record inode_disk := mkDisk {
  file_length : Z;
  prev_length : Z;
  node_length : Z;
  self : Z;
  magic : Z;
  doubleptr : Z;
  blockptrs : list Z
}.

Definition set_file_length (v : Z) (d : inode_disk) : inode_disk :=
  mkDisk v (prev_length d) (node_length d) (self d) (magic d) (doubleptr d) (blockptrs d).
Definition set_prev_length (v : Z) (d : inode_disk) : inode_disk :=
  mkDisk (file_length d) v (node_length d) (self d) (magic d) (doubleptr d) (blockptrs d).
Definition set_node_length (v : Z) (d : inode_disk) : inode_disk :=
  mkDisk (file_length d) (prev_length d) v (self d) (magic d) (doubleptr d) (blockptrs d).
Definition set_self (v : Z) (d : inode_disk) : inode_disk :=
  mkDisk (file_length d) (prev_length d) (node_length d) v (magic d) (doubleptr d) (blockptrs d).
Definition set_magic (v : Z) (d : inode_disk) : inode_disk :=
  mkDisk (file_length d) (prev_length d) (node_length d) (self d) v (doubleptr d) (blockptrs d).
Definition set_doubleptr (v : Z) (d : inode_disk) : inode_disk :=
  mkDisk (file_length d) (prev_length d) (node_length d) (self d) (magic d) v (blockptrs d).
Definition set_blockptrs (v : list Z) (d : inode_disk) : inode_disk :=
  mkDisk (file_length d) (prev_length d) (node_length d) (self d) (magic d) (doubleptr d) v.

(** Inodes in memory; [next] is a pointer, null for none. *)
Record inode := mkInode {
  sector : Z;
  open_cnt : Z;
  removed : bool;
  deny_write_cnt : Z;
  is_dir : bool;
  data : inode_disk;
  next : Z
}.

Definition set_sector (v : Z) (n : inode) : inode :=
  mkInode v (open_cnt n) (removed n) (deny_write_cnt n) (is_dir n) (data n) (next n).
Definition set_open_cnt (v : Z) (n : inode) : inode :=
  mkInode (sector n) v (removed n) (deny_write_cnt n) (is_dir n) (data n) (next n).
Definition set_removed (v : bool) (n : inode) : inode :=
  mkInode (sector n) (open_cnt n) v (deny_write_cnt n) (is_dir n) (data n) (next n).
Definition set_deny_write_cnt (v : Z) (n : inode) : inode :=
  mkInode (sector n) (open_cnt n) (removed n) v (is_dir n) (data n) (next n).
Definition set_is_dir (v : bool) (n : inode) : inode :=
  mkInode (sector n) (open_cnt n) (removed n) (deny_write_cnt n) v (data n) (next n).
Definition set_data (v : inode_disk) (n : inode) : inode :=
  mkInode (sector n) (open_cnt n) (removed n) (deny_write_cnt n) (is_dir n) v (next n).
Definition set_next (v : Z) (n : inode) : inode :=
  mkInode (sector n) (open_cnt n) (removed n) (deny_write_cnt n) (is_dir n) (data n) v.

(** Open files and directories. *)
Record file := mkFile {
  f_inode : Z;
  f_pos : Z;
  f_deny_write : bool
}.

Definition set_f_inode (v : Z) (f : file) : file :=
  mkFile v (f_pos f) (f_deny_write f).
Definition set_f_pos (v : Z) (f : file) : file :=
  mkFile (f_inode f) v (f_deny_write f).
Definition set_f_deny_write (v : bool) (f : file) : file :=
  mkFile (f_inode f) (f_pos f) v.

Record dir := mkDir {
  d_inode : Z;
  d_pos : Z
}.

Definition set_d_inode (v : Z) (d : dir) : dir :=
  mkDir v (d_pos d).
Definition set_d_pos (v : Z) (d : dir) : dir :=
  mkDir (d_inode d) v.

(** The state of the file system: the sectors of the device, the inodes in memory
    by address, the list of open ones, the free map and its file, the open files and
    directories by address, the next free address, and what the coming calls of
    [malloc] do: fail, or return memory, of which the bytes that are not written at
    once are given.  When the list is used up they succeed, with zeros.  The blocks
    of freed directories are kept, the last one freed first: the block allocator
    hands them out again in this order, which directory.c depends on. *)
Record fs := mkFs {
  disk : gmap Z (list Z);
  inodes : gmap Z inode;
  open_inodes : list Z;
  free_map : bitmap;
  free_map_file : Z;
  files : gmap Z file;
  dirs : gmap Z dir;
  brk : Z;
  mallocs : list (option (list Z * bool));
  dir_blocks : list Z
}.

Definition set_disk (v : gmap Z (list Z)) (s : fs) : fs :=
    mkFs v (inodes s) (open_inodes s) (free_map s) (free_map_file s) (files s) (dirs s) (brk s)
    (mallocs s) (dir_blocks s).
Definition set_inodes (v : gmap Z inode) (s : fs) : fs :=
    mkFs (disk s) v (open_inodes s) (free_map s) (free_map_file s) (files s) (dirs s) (brk s)
    (mallocs s) (dir_blocks s).
Definition set_open_inodes (v : list Z) (s : fs) : fs :=
    mkFs (disk s) (inodes s) v (free_map s) (free_map_file s) (files s) (dirs s) (brk s)
    (mallocs s) (dir_blocks s).
Definition set_free_map (v : bitmap) (s : fs) : fs :=
    mkFs (disk s) (inodes s) (open_inodes s) v (free_map_file s) (files s) (dirs s) (brk s)
    (mallocs s) (dir_blocks s).
Definition set_free_map_file (v : Z) (s : fs) : fs :=
  mkFs (disk s) (inodes s) (open_inodes s) (free_map s) v (files s) (dirs s) (brk s) (mallocs s) (dir_blocks s).
Definition set_files (v : gmap Z file) (s : fs) : fs :=
    mkFs (disk s) (inodes s) (open_inodes s) (free_map s) (free_map_file s) v (dirs s) (brk s)
    (mallocs s) (dir_blocks s).
Definition set_dirs (v : gmap Z dir) (s : fs) : fs :=
    mkFs (disk s) (inodes s) (open_inodes s) (free_map s) (free_map_file s) (files s) v (brk s)
    (mallocs s) (dir_blocks s).
Definition set_brk (v : Z) (s : fs) : fs :=
    mkFs (disk s) (inodes s) (open_inodes s) (free_map s) (free_map_file s) (files s) (dirs s) v
    (mallocs s) (dir_blocks s).
Definition set_mallocs (v : list (option (list Z * bool))) (s : fs) : fs :=
    mkFs (disk s) (inodes s) (open_inodes s) (free_map s) (free_map_file s) (files s) (dirs s)
    (brk s) v (dir_blocks s).
Definition set_dir_blocks (v : list Z) (s : fs) : fs :=
    mkFs (disk s) (inodes s) (open_inodes s) (free_map s) (free_map_file s) (files s) (dirs s)
    (brk s) (mallocs s) v.

Abbreviation fM := (st fs).

Definition modify (f : fs -> fs) : fM unit := fun s => Ok (tt, f s).
Definition gets {A} (f : fs -> A) : fM A := fun s => Ok (f s, s).
Definition lift {A} (r : res A) : fM A := fun s =>
  match r with
  | Ok a => Ok (a, s)
  | Err e => Err e
  end.

Definition get_inode (p : Z) : fM inode := fun s =>
  match inodes s !! p with
  | Some n => Ok (n, s)
  | None => Err EFault
  end.

Definition upd_inode (p : Z) (f : inode -> inode) : fM unit := fun s =>
  match inodes s !! p with
  | Some n => Ok (tt, set_inodes (<[p := f n]> (inodes s)) s)
  | None => Err EFault
  end.

Definition upd_data (p : Z) (f : inode_disk -> inode_disk) : fM unit :=
  upd_inode p (fun n => set_data (f (data n)) n).

(** [malloc]: the address, with the bytes found there, or null. *)
Definition alloc : fM (option (Z * (list Z * bool))) := fun s =>
  match mallocs s with
  | [] => Ok (Some (brk s, (replicate 244 0, false)), set_brk (brk s + 4096) s)
  | Some g :: o => Ok (Some (brk s, g), set_mallocs o (set_brk (brk s + 4096) s))
  | None :: o => Ok (None, set_mallocs o s)
  end.

(** * The device *)

Definition block_read (sec : Z) : fM (list Z) := fun s =>
  match disk s !! sec with
  | Some bs => Ok (bs, s)
  | None => Err EPanic
  end.

Definition block_write (sec : Z) (bs : list Z) : fM unit := fun s =>
  match disk s !! sec with
  | Some _ => Ok (tt, set_disk (<[sec := bs]> (disk s)) s)
  | None => Err EPanic
  end.

(** ** An inode as the bytes of a sector *)

Definition half_bytes (h : Z) : list Z := [h mod 256; (h / 2 ^ 8) mod 256].

(** The fields at their offsets; the two bytes of padding after [self] and at the end
    are never read. *)
Definition encode_inode (d : inode_disk) : list Z :=
  word_bytes (u32 (file_length d)) ++ word_bytes (u32 (prev_length d)) ++ word_bytes (u32 (node_length d)) ++
  half_bytes (self d) ++ [0; 0] ++ word_bytes (magic d) ++ half_bytes (doubleptr d) ++
  (blockptrs d ≫= half_bytes) ++ [0; 0].

Definition byte_at (bs : list Z) (i : nat) : Z := nth i bs 0.
Definition half_at (bs : list Z) (i : nat) : Z := byte_at bs i + byte_at bs (i + 1) * 2 ^ 8.
Definition word_at (bs : list Z) (i : nat) : Z := half_at bs i + half_at bs (i + 2) * 2 ^ 16.

Definition decode_inode (bs : list Z) : inode_disk :=
  {| file_length := s32 (word_at bs 0); prev_length := s32 (word_at bs 4); node_length := s32 (word_at bs 8);
     self := half_at bs 12; magic := word_at bs 16; doubleptr := half_at bs 20;
     blockptrs := (fun i => half_at bs (22 + 2 * i)) <$> seq 0 244 |}.

(** * Pointers to sectors *)

(** The low 14 bits are the address, the high two bits flags. *)
Definition ptr_create (sec : Z) : Z := u16 (Z.land sec 0x3FFF).
Definition ptr_get_address (ptr : Z) : Z := Z.land ptr 0x3FFF.
Definition ptr_set_exist (ptr : Z) : Z := u16 (Z.lor ptr 0x8000).
Definition ptr_exists (ptr : Z) : bool := negb (Z.land ptr 0x8000 =? 0).
Definition ptr_set_isdir (ptr : Z) : Z := u16 (Z.lor ptr 0x4000).
Definition ptr_isdir (ptr : Z) : bool := negb (Z.land ptr 0x4000 =? 0).

Definition inode_is_dir (ip : Z) : fM bool := n ← get_inode ip; mret (ptr_isdir (self (data n))).
Definition inode_is_file (ip : Z) : fM bool := n ← get_inode ip; mret (negb (ptr_isdir (self (data n)))).
Definition inode_mark_dir (ip : Z) : fM unit := upd_data ip (fun d => set_self (ptr_set_isdir (self d)) d).

(** * Allocation in memory *)

(** [disk_addr] is the allocation of a sector for the inode when [ON_DISK] is true,
    and [mret (Some 0)] when it is not. *)
Definition allocate_inode (disk_addr : fM (option Z)) : fM Z :=
  a ← disk_addr;
  match a with
  | None => mret NULL
  | Some data_addr =>
      r ← alloc;
      match r with
      | None => mret NULL
      | Some (p, (ptrs, dirbit)) =>
          modify (fun s => set_inodes (<[p :=
            {| sector := data_addr; open_cnt := 0; removed := false; deny_write_cnt := 0; is_dir := dirbit;
               data := {| file_length := 0; prev_length := 0; node_length := 0; self := ptr_create data_addr;
                          magic := INODE_MAGIC; doubleptr := 0; blockptrs := ptrs |};
               next := NULL |}]> (inodes s)) s);;
          mret p
      end
  end.

Definition no_disk : fM (option Z) := mret (Some 0).

Definition get_next_addr (node : Z) : fM Z :=
  n ← get_inode node;
  mret (if ptr_exists (doubleptr (data n)) then ptr_get_address (doubleptr (data n)) else NO_SECTOR).

Definition bytes_to_sectors (size : Z) : Z := DIV_ROUND_UP size BLOCK_SECTOR_SIZE.

(** * Opening *)

Definition inode_reopen (p : Z) : fM Z :=
  (if p =? NULL then mret tt else upd_inode p (fun n => set_open_cnt (s32 (open_cnt n + 1)) n));; mret p.

Definition inode_open (sec : Z) : fM Z :=
  l ← gets open_inodes;
  m ← gets inodes;
  match List.find (fun p => match m !! p with Some n => sector n =? sec | None => false end) l with
  | Some p => inode_reopen p
  | None =>
      p ← allocate_inode no_disk;
      if p =? NULL then mret NULL else
      modify (fun s => set_open_inodes (p :: open_inodes s) s);;
      upd_inode p (fun n => set_next NULL (set_removed false (set_deny_write_cnt 0 (set_open_cnt 1 (set_sector sec n)))));;
      bs ← block_read sec;
      upd_inode p (fun n => set_data (decode_inode bs) n);;
      mret p
  end.

Definition inode_get_inumber (p : Z) : fM Z := n ← get_inode p; mret (sector n).

(** * From a position to a sector *)

(** The recursion goes along the chain of inodes of a file, which are on different
    sectors of the device. *)
Fixpoint byte_to_inode (fuel : nat) (p pos : Z) : fM Z :=
  match fuel with
  | O => st_fail EFuel
  | S fuel =>
      if pos =? -1 then mret p else
      if p =? NULL then mret NULL else
      n ← get_inode p;
      if pos <? file_length (data n) then
        assert (prev_length (data n) <=? pos);;
        if s32 (pos - prev_length (data n)) <? BYTE_CAPACITY then mret p
        else if negb (next n =? NULL) then
          assert (negb (next n =? p));; byte_to_inode fuel (next n) pos
        else if ptr_exists (doubleptr (data n)) then
          assert (negb (sector n =? ptr_get_address (doubleptr (data n))));;
          q ← inode_open (ptr_get_address (doubleptr (data n)));
          upd_inode p (set_next q);;
          byte_to_inode fuel q pos
        else mret NULL
      else mret NULL
  end.

Definition chain_fuel (s : fs) : nat := S (size (disk s) + size (inodes s)).

Definition byte_to_sector (p pos : Z) : fM Z :=
  s ← st_get;
  node ← byte_to_inode (chain_fuel s) p pos;
  if node =? NULL then mret NO_SECTOR else
  n ← get_inode node;
  let local_pos := s32 (pos - prev_length (data n)) in
  match blockptrs (data n) !! Z.to_nat (Z.quot local_pos BLOCK_SECTOR_SIZE) with
  | Some addr => mret (if ptr_exists addr then ptr_get_address addr else NO_SECTOR)
  | None => st_fail EUndef
  end.

Definition inode_length (p : Z) : fM Z := n ← get_inode p; mret (file_length (data n)).

(** * Reading *)

(** The buffer [bounce] is allocated the first time it is needed; the loop ends when
    there is no memory for it. *)
Definition need_bounce (have : bool) : fM bool :=
  if have then mret true else r ← alloc; mret (match r with Some _ => true | None => false end).

(** The number of bytes to copy out of the sector of [offset], and where in it. *)
Definition chunk (size offset len : Z) : Z * Z :=
  let sector_ofs := Z.rem offset BLOCK_SECTOR_SIZE in
  let inode_left := s32 (len - offset) in
  let sector_left := BLOCK_SECTOR_SIZE - sector_ofs in
  let min_left := if inode_left <? sector_left then inode_left else sector_left in
  (sector_ofs, if size <? min_left then size else min_left).

(** What has been read is the bytes put into the buffer so far. *)
Definition read_body (p : Z) (a : Z * Z * list Z * bool) : fM (Z * Z * list Z * bool + list Z) :=
  let '(size, offset, buf, bounce) := a in
  if size <=? 0 then mret (inr buf) else
  sector_idx ← byte_to_sector p offset;
  len ← inode_length p;
  let '(sector_ofs, chunk_size) := chunk size offset len in
  if chunk_size <=? 0 then mret (inr buf) else
  if (sector_ofs =? 0) && (chunk_size =? BLOCK_SECTOR_SIZE) then
    bs ← block_read sector_idx;
    mret (inl (size - chunk_size, offset + chunk_size, buf ++ bs, bounce))
  else
    ok ← need_bounce bounce;
    if negb ok then mret (inr buf) else
    bs ← block_read sector_idx;
    mret (inl (size - chunk_size, offset + chunk_size,
               buf ++ take (Z.to_nat chunk_size) (drop (Z.to_nat sector_ofs) bs), true)).

(** Every round reads at least one byte. *)
Definition inode_read_at (p size offset : Z) : fM (list Z) :=
  get_inode p;;
  loop (S (Z.to_nat size)) (read_body p) (size, offset, [], false).

(** * Writing *)

(** [dst] with [src] copied over it at [ofs]. *)
Definition overwrite (dst : list Z) (ofs : Z) (src : list Z) : list Z :=
  take (Z.to_nat ofs) dst ++ src ++ drop (Z.to_nat ofs + length src) dst.

Definition zeros : list Z := replicate 512 0.

(** [buf] is what is left of the buffer to write. *)
Definition write_body (p : Z) (a : list Z * Z * Z * bool) : fM (list Z * Z * Z * bool + Z) :=
  let '(buf, offset, written, bounce) := a in
  if Zlen buf <=? 0 then mret (inr written) else
  sector_idx ← byte_to_sector p offset;
  len ← inode_length p;
  let '(sector_ofs, chunk_size) := chunk (Zlen buf) offset len in
  if chunk_size <=? 0 then mret (inr written) else
  let part := take (Z.to_nat chunk_size) buf in
  let rest := drop (Z.to_nat chunk_size) buf in
  if (sector_ofs =? 0) && (chunk_size =? BLOCK_SECTOR_SIZE) then
    block_write sector_idx part;;
    mret (inl (rest, offset + chunk_size, written + chunk_size, bounce))
  else
    ok ← need_bounce bounce;
    if negb ok then mret (inr written) else
    old ← (if (0 <? sector_ofs) || (chunk_size <? BLOCK_SECTOR_SIZE - sector_ofs)
           then block_read sector_idx else mret zeros);
    block_write sector_idx (overwrite old sector_ofs part);;
    mret (inl (rest, offset + chunk_size, written + chunk_size, true)).

(** [extend] is [inode_extend_link]. *)
Definition inode_write_with (extend : Z -> Z -> Z -> fM Z) (p : Z) (buf : list Z) (offset : Z) : fM Z :=
  n ← get_inode p;
  if negb (deny_write_cnt n =? 0) then mret 0 else
  let size := Zlen buf in
  ok ← (if file_length (data n) <? s32 (size + offset) then
          t ← extend p (u32 (s32 (size + offset) - file_length (data n))) (u32 (size + offset));
          mret (negb (t =? NULL))
        else mret true);
  if negb ok then mret 0 else
  loop (S (length buf)) (write_body p) (buf, offset, 0, false).

(** * The free map *)

Definition get_file (f : Z) : fM file := fun s =>
  match files s !! f with
  | Some fl => Ok (fl, s)
  | None => Err EFault
  end.

(** Writing the free map to its file calls [inode_write_at], which may call for a
    sector again when the file is too short.  The file is created as long as the map,
    so that this does not happen: it would be a recursion without end, which the
    model reports as [EFuel]. *)
Definition no_extend (p bytes_left length : Z) : fM Z := st_fail EFuel.

Definition free_map_write : fM bool :=
  b ← gets free_map;
  ff ← gets free_map_file;
  fl ← get_file ff;
  let size := byte_cnt (bit_cnt b) in
  n ← inode_write_with no_extend (f_inode fl) (take (Z.to_nat size) (bytes_of_words (bits b))) 0;
  mret (n =? size).

Definition free_map_allocate (cnt : Z) : fM (option Z) :=
  b ← gets free_map;
  r ← lift (bitmap_scan_and_flip b 0 cnt false);
  let '(sec, b') := r in
  modify (set_free_map b');;
  if sec =? BITMAP_ERROR then mret None else
  ff ← gets free_map_file;
  ok ← (if negb (ff =? NULL) then free_map_write else mret true);
  if ok : bool then mret (Some sec) else
  b2 ← lift (bitmap_set_multiple b' sec cnt false);
  modify (set_free_map b2);;
  mret None.

Definition free_map_release (sec cnt : Z) : fM unit :=
  b ← gets free_map;
  all ← lift (bitmap_all b sec cnt); assert all;;
  b' ← lift (bitmap_set_multiple b sec cnt false);
  modify (set_free_map b');;
  free_map_write;; mret tt.

(** * Growing *)

Definition fill_body (p : Z) (a : Z * Z) : fM (Z * Z + option Z) :=
  let '(sector_idx, bytes_left) := a in
  if (sector_idx <? NODE_CAPACITY) && (0 <? bytes_left) then
    r ← free_map_allocate 1;
    match r with
    | None => mret (inr None)
    | Some data_addr =>
        block_write data_addr zeros;;
        upd_data p (fun d => set_blockptrs
          (<[Z.to_nat sector_idx := ptr_set_exist (ptr_create data_addr)]> (blockptrs d)) d);;
        n ← get_inode p;
        let diff := u32 ((sector_idx + 1) * BLOCK_SECTOR_SIZE - node_length (data n)) in
        let add := if bytes_left <? diff then bytes_left else diff in
        upd_data p (fun d => set_node_length (s32 (node_length d + add)) d);;
        mret (inl (sector_idx + 1, bytes_left - add))
    end
  else mret (inr (Some bytes_left)).

(** What is left of [bytes_left], or [None] for false.  One round per pointer. *)
Definition inode_fill (p bytes_left length : Z) : fM (option Z) :=
  n ← get_inode p;
  let sector_idx := DIV_ROUND_UP (node_length (data n)) BLOCK_SECTOR_SIZE in
  r ← loop (S (Z.to_nat NODE_CAPACITY)) (fill_body p) (sector_idx, bytes_left);
  match r with
  | None => mret None
  | Some rest =>
      upd_data p (set_file_length (s32 length));;
      n ← get_inode p;
      block_write (sector n) (encode_inode (data n));;
      mret (Some rest)
  end.

Definition free_inode (p : Z) : fM unit := modify (fun s => set_inodes (delete p (inodes s)) s).

(** A node of the chain takes as many bytes as it has room for. *)
Fixpoint extend_link (fuel : nat) (prev bytes_left length : Z) : fM Z :=
  match fuel with
  | O => st_fail EFuel
  | S fuel =>
      r ← inode_fill prev bytes_left length;
      match r with
      | None => mret NULL
      | Some rest =>
          if rest <=? 0 then mret prev else
          node ← allocate_inode (free_map_allocate 1);
          if node =? NULL then mret NULL else
          assert (negb (node =? prev));;
          r ← inode_fill node rest length;
          match r with
          | None => free_inode node;; mret NULL
          | Some rest =>
              upd_inode prev (set_next node);;
              n ← get_inode node;
              upd_data prev (set_doubleptr (ptr_set_exist (ptr_create (sector n))));;
              t ← extend_link fuel node rest length;
              if t =? NULL then free_inode node;; mret NULL else
              pn ← get_inode prev;
              upd_data node (set_file_length (file_length (data pn)));;
              block_write (sector pn) (encode_inode (data pn));;
              n ← get_inode node;
              block_write (sector n) (encode_inode (data n));;
              mret node
          end
      end
  end.

Definition inode_extend_link (prev bytes_left length : Z) : fM Z :=
  extend_link (S (Z.to_nat (bytes_left / BYTE_CAPACITY + 1))) prev bytes_left length.

Definition inode_write_at (p : Z) (buf : list Z) (offset : Z) : fM Z :=
  inode_write_with inode_extend_link p buf offset.

Definition inode_create (sec length : Z) : fM bool :=
  assert (0 <=? length);;
  p ← allocate_inode no_disk;
  upd_inode p (fun n => set_data (set_file_length length (set_self (ptr_create sec) (data n))) (set_sector sec n));;
  t ← inode_extend_link p (u32 length) (u32 length);
  if t =? NULL then free_inode p;; mret false else
  n ← get_inode p;
  block_write sec (encode_inode (data n));;
  mret true.

(** * Closing and removing *)

(** An inode frees the rest of its chain before itself; every round of the recursion
    brings the count of another inode to 0. *)
Fixpoint close_chain (fuel : nat) (p : Z) : fM unit :=
  match fuel with
  | O => st_fail EFuel
  | S fuel =>
      if p =? NULL then mret tt else
      n ← get_inode p;
      assert (negb (next n =? p));;
      upd_inode p (fun n => set_open_cnt (s32 (open_cnt n - 1)) n);;
      if s32 (open_cnt n - 1) =? 0 then
        l ← gets open_inodes;
        (if bool_decide (p ∈ l) then modify (set_open_inodes (List.filter (fun q => negb (q =? p)) l))
         else st_fail EUndef);;
        (if removed n then free_map_release (sector n) 1 else mret tt);;
        n ← get_inode p;
        (if negb (next n =? NULL) && negb (next n =? p) then close_chain fuel (next n) else mret tt);;
        free_inode p
      else mret tt
  end.

Definition inode_close (p : Z) : fM unit := s ← st_get; close_chain (S (S (size (inodes s)))) p.

Definition inode_remove (p : Z) : fM unit := upd_inode p (set_removed true).

Definition inode_deny_write (p : Z) : fM unit :=
  upd_inode p (fun n => set_deny_write_cnt (s32 (deny_write_cnt n + 1)) n);;
  n ← get_inode p; assert (deny_write_cnt n <=? open_cnt n).

Definition inode_allow_write (p : Z) : fM unit :=
  n ← get_inode p;
  assert (0 <? deny_write_cnt n);; assert (deny_write_cnt n <=? open_cnt n);;
  upd_inode p (fun n => set_deny_write_cnt (s32 (deny_write_cnt n - 1)) n).

(** * Files *)

Definition file_open (ip : Z) : fM Z :=
  r ← alloc;
  match r with
  | Some (f, _) =>
      if ip =? NULL then inode_close ip;; mret NULL
      else
        modify (fun s => set_files (<[f := {| f_inode := ip; f_pos := 0; f_deny_write := false |}]> (files s)) s);;
        mret f
  | None => inode_close ip;; mret NULL
  end.

Definition upd_file (f : Z) (g : file -> file) : fM unit := fun s =>
  match files s !! f with
  | Some fl => Ok (tt, set_files (<[f := g fl]> (files s)) s)
  | None => Err EFault
  end.

Definition file_reopen (f : Z) : fM Z := fl ← get_file f; ip ← inode_reopen (f_inode fl); file_open ip.

Definition file_get_inode (f : Z) : fM Z := fl ← get_file f; mret (f_inode fl).

Definition file_read_at (f size ofs : Z) : fM (list Z) := fl ← get_file f; inode_read_at (f_inode fl) size ofs.

Definition file_read (f size : Z) : fM (list Z) :=
  fl ← get_file f;
  bs ← inode_read_at (f_inode fl) size (f_pos fl);
  upd_file f (fun fl => set_f_pos (s32 (f_pos fl + Zlen bs)) fl);;
  mret bs.

Definition file_write_at (f : Z) (buf : list Z) (ofs : Z) : fM Z :=
  fl ← get_file f; inode_write_at (f_inode fl) buf ofs.

Definition file_write (f : Z) (buf : list Z) : fM Z :=
  fl ← get_file f;
  n ← get_inode (f_inode fl);
  if is_dir n then mret (-1) else
  w ← inode_write_at (f_inode fl) buf (f_pos fl);
  upd_file f (fun fl => set_f_pos (s32 (f_pos fl + w)) fl);;
  mret w.

Definition file_deny_write (f : Z) : fM unit :=
  fl ← get_file f;
  if f_deny_write fl then mret tt
  else upd_file f (set_f_deny_write true);; inode_deny_write (f_inode fl).

Definition file_allow_write (f : Z) : fM unit :=
  fl ← get_file f;
  if f_deny_write fl then upd_file f (set_f_deny_write false);; inode_allow_write (f_inode fl)
  else mret tt.

Definition file_close (f : Z) : fM unit :=
  if f =? NULL then mret tt else
  file_allow_write f;;
  fl ← get_file f;
  inode_close (f_inode fl);;
  modify (fun s => set_files (delete f (files s)) s).

Definition file_length_of (f : Z) : fM Z := fl ← get_file f; inode_length (f_inode fl).

Definition file_seek (f new_pos : Z) : fM unit := assert (0 <=? new_pos);; upd_file f (set_f_pos new_pos).

Definition file_tell (f : Z) : fM Z := fl ← get_file f; mret (f_pos fl).

(** * Setting up the free map *)

Definition inode_init : fM unit := modify (set_open_inodes []).

(** [bitmap_create] of the size of the device, with its two allocations. *)
Definition free_map_init (size : Z) (mem : option (list Z)) : fM unit :=
  r ← lift (bitmap_create true mem size);
  match r with
  | None => st_fail EPanic
  | Some b =>
      b ← lift (bitmap_mark b FREE_MAP_SECTOR);
      b ← lift (bitmap_mark b ROOT_DIR_SECTOR);
      modify (set_free_map b)
  end.

(** [bitmap_read] of the bytes [file_read_at] returns. *)
#[export] Instance bytes_store : FileStore (list Z) :=
  {| file_read_at0 := fun f _ => f; file_write_at0 := fun f data => (Zlen data, data) |}.

Definition free_map_open : fM unit :=
  ip ← inode_open FREE_MAP_SECTOR;
  f ← file_open ip;
  modify (set_free_map_file f);;
  if f =? NULL then st_fail EPanic else
  b ← gets free_map;
  bs ← (if 0 <? bit_cnt b then file_read_at f (byte_cnt (bit_cnt b)) 0 else mret []);
  r ← lift (bitmap_read b bs);
  let '(success, b') := r in
  modify (set_free_map b');;
  if success : bool then mret tt else st_fail EPanic.

Definition free_map_close : fM unit := f ← gets free_map_file; file_close f.

Definition free_map_create : fM unit :=
  b ← gets free_map;
  ok ← inode_create FREE_MAP_SECTOR (bitmap_file_size b);
  if negb ok then st_fail EPanic else
  ip ← inode_open FREE_MAP_SECTOR;
  f ← file_open ip;
  modify (set_free_map_file f);;
  if f =? NULL then st_fail EPanic else
  ok ← free_map_write;
  if ok : bool then mret tt else st_fail EPanic.
