(* ===== verification/InodeFile.v ===== *)
(** Inodes as files: [inode_read_at] and [inode_write_at] implement a sequence of
    bytes. *)
From Stdlib Require Import ZArith Lia.
From stdpp Require Import base numbers sorting gmap list.
From S2P Require Import Prelude.
From S2P Require Import Bitmap.
From S2P Require Import Inode.

Local Open Scope Z_scope.

(** * Pieces of lists *)

Lemma overwrite_lookup l o src k :
  0 <= o -> (Z.to_nat o + length src <= length l)%nat ->
  overwrite l o src !! k =
    if decide (Z.to_nat o <= k < Z.to_nat o + length src)%nat then src !! (k - Z.to_nat o)%nat else l !! k.
Proof.
  intros Ho Hl. unfold overwrite. set (a := Z.to_nat o) in *.
  assert (length (take a l) = a) as Ha by (rewrite length_take; lia).
  case_decide as Hk.
  - rewrite lookup_app_r, Ha by lia. apply lookup_app_l. lia.
  - destruct (decide (k < a)%nat).
    + rewrite lookup_app_l by lia. by apply lookup_take_lt.
    + rewrite lookup_app_r, Ha, lookup_app_r, lookup_drop by lia. f_equal. lia.
Qed.

Lemma overwrite_length l o src :
  0 <= o -> (Z.to_nat o + length src <= length l)%nat -> length (overwrite l o src) = length l.
Proof. intros Ho Hl. unfold overwrite. rewrite !length_app, length_take, length_drop. lia. Qed.

Lemma overwrite_overwrite l o a b :
  0 <= o -> (Z.to_nat o + length a + length b <= length l)%nat ->
  overwrite (overwrite l o a) (o + Zlen a) b = overwrite l o (a ++ b).
Proof.
  intros Ho Hl. apply list_eq. intros k.
  rewrite overwrite_lookup by (rewrite ?overwrite_length; lia).
  rewrite !overwrite_lookup by (rewrite ?length_app; lia). rewrite length_app, Z2Nat.inj_add, Nat2Z.id by lia.
  repeat case_decide; try lia; try done.
  - rewrite lookup_app_r by lia. f_equal. lia.
  - by rewrite lookup_app_l by lia.
Qed.

Lemma overwrite_nil l o : 0 <= o -> (Z.to_nat o <= length l)%nat -> overwrite l o [] = l.
Proof. intros Ho Hl. unfold overwrite. cbn. rewrite Nat.add_0_r. apply take_drop. Qed.

Lemma concat_lookup (bss : list (list Z)) i j :
  Forall (fun bs => length bs = 512%nat) bss -> (j < 512)%nat ->
  concat bss !! (i * 512 + j)%nat = bss !! i ≫= fun bs => bs !! j.
Proof.
  intros H Hj. revert i. induction H as [|bs bss Hb H IH]; intros i; cbn [concat]; [done|].
  destruct i as [|i]; cbn.
  - by apply lookup_app_l; lia.
  - rewrite lookup_app_r by lia. rewrite <- IH. f_equal. lia.
Qed.

(** * A file in one inode *)

(** The number of sectors of [len] bytes. *)
Definition nsec (len : Z) : nat := Z.to_nat ((len + 511) / 512).

Definition addr_of (n : inode) (i : nat) : Z := ptr_get_address (nth i (blockptrs (data n)) 0).

(** The sectors of the file, and its bytes. *)
Definition sectors (s : fs) (n : inode) : list (list Z) :=
  (fun i => default [] (disk s !! addr_of n i)) <$> seq 0 (nsec (file_length (data n))).

Definition content (s : fs) (n : inode) : list Z :=
  take (Z.to_nat (file_length (data n))) (concat (sectors s n)).

(** An inode in memory whose file fits into it, with different sectors of the
    device. *)
Record file_ok (s : fs) (p : Z) (n : inode) : Prop := {
  fo_inode : inodes s !! p = Some n;
  fo_null : p <> NULL;
  fo_prev : prev_length (data n) = 0;
  fo_length : 0 <= file_length (data n) <= BYTE_CAPACITY;
  fo_ptrs : length (blockptrs (data n)) = 244%nat;
  fo_exists : forall i, (i < nsec (file_length (data n)))%nat -> ptr_exists (nth i (blockptrs (data n)) 0) = true;
  fo_disk : forall i, (i < nsec (file_length (data n)))%nat ->
    exists bs, disk s !! addr_of n i = Some bs /\ length bs = 512%nat;
  fo_distinct : forall i j, (i < nsec (file_length (data n)))%nat -> (j < nsec (file_length (data n)))%nat ->
    addr_of n i = addr_of n j -> i = j
}.

Section File.
Context (s : fs) (p : Z) (n : inode) (Hok : file_ok s p n).
Abbreviation L := (file_length (data n)).

Lemma sectors_512 : Forall (fun bs => length bs = 512%nat) (sectors s n).
Proof using Hok.
  apply Forall_forall. intros bs Hb. apply list_elem_of_fmap in Hb as (i & -> & Hi%elem_of_seq).
  destruct (fo_disk _ _ _ Hok i) as (bs & E & Hl); [lia|]. by rewrite E.
Qed.

Lemma sector_lookup i :
  (i < nsec L)%nat -> sectors s n !! i = Some (default [] (disk s !! addr_of n i)).
Proof using. intros Hi. unfold sectors. rewrite list_lookup_fmap, lookup_seq_lt by done. done. Qed.

Lemma nsec_bound k : 0 <= k < L -> (Z.to_nat (k / 512) < nsec L)%nat.
Proof using Hok.
  intros Hk. unfold nsec. pose proof (fo_length _ _ _ Hok). apply Z2Nat.inj_lt; [apply Z.div_pos; lia..|].
  apply Z.div_lt_upper_bound; [lia|]. pose proof (Z.mul_succ_div_gt (L + 511) 512). lia.
Qed.

Lemma content_length : length (content s n) = Z.to_nat L.
Proof using Hok.
  unfold content. rewrite length_take.
  assert (length (concat (sectors s n)) = nsec L * 512)%nat as ->.
  { pose proof sectors_512 as H. replace (nsec L) with (length (sectors s n)).
    - induction H as [|bs bss Hb H IH]; cbn; [done|]. rewrite length_app, IH, Hb. lia.
    - unfold sectors. by rewrite length_fmap, length_seq. }
  unfold nsec. pose proof (fo_length _ _ _ Hok).
  assert (L <= (L + 511) / 512 * 512) by (pose proof (Z.mul_succ_div_gt (L + 511) 512); lia).
  assert (0 <= (L + 511) / 512) by (apply Z.div_pos; lia). lia.
Qed.

(** The byte at position [k]. *)
Lemma content_lookup k :
  (k < Z.to_nat L)%nat ->
  content s n !! k = default [] (disk s !! addr_of n (k / 512)) !! (k mod 512)%nat.
Proof using Hok.
  intros Hk. unfold content. rewrite lookup_take_lt by done.
  pose proof (Nat.div_mod_eq k 512) as E. rewrite E at 1.
  replace (512 * (k / 512))%nat with (k / 512 * 512)%nat by lia.
  rewrite concat_lookup; [|apply sectors_512|by apply Nat.mod_upper_bound].
  rewrite sector_lookup; [done|].
  pose proof (nsec_bound (Z.of_nat k)) as Hn. pose proof (fo_length _ _ _ Hok).
  assert (Z.to_nat (Z.of_nat k / 512) = k / 512)%nat as <-; [|apply Hn; lia].
  change 512 with (Z.of_nat 512). rewrite <- Nat2Z.inj_div, Nat2Z.id. done.
Qed.

(** ** The sector of a position *)

Lemma get_inode_run : get_inode p s = Ok (n, s).
Proof using Hok. unfold get_inode. by rewrite (fo_inode _ _ _ Hok). Qed.

Lemma byte_to_sector_run pos :
  0 <= pos < L -> byte_to_sector p pos s = Ok (addr_of n (Z.to_nat (pos / 512)), s).
Proof using Hok.
  intros Hp. pose proof (fo_length _ _ _ Hok) as HL. pose proof (nsec_bound pos Hp) as Hn.
  assert (s32 (pos - prev_length (data n)) = pos) as E.
  { rewrite (fo_prev _ _ _ Hok), Z.sub_0_r. apply swrap_id; [lia|]. unfold in_s, BYTE_CAPACITY, BLOCK_SECTOR_SIZE, NODE_CAPACITY in *. cbn. lia. }
  assert (byte_to_inode (chain_fuel s) p pos s = Ok (p, s)) as Hi.
  { unfold chain_fuel. cbn [byte_to_inode]. destruct (Z.eqb_spec pos (-1)); [lia|].
    destruct (Z.eqb_spec p NULL); [by destruct (fo_null _ _ _ Hok)|].
    rewrite (run_bind _ _ _ _ _ get_inode_run). destruct (Z.ltb_spec pos L); [|lia].
    rewrite (run_bind _ _ _ tt s).
    - rewrite E. destruct (Z.ltb_spec pos BYTE_CAPACITY); [done|lia].
    - apply run_assert. rewrite (fo_prev _ _ _ Hok). apply Z.leb_le; lia. }
  unfold byte_to_sector. rewrite (run_bind _ _ _ _ _ (run_get s)), (run_bind _ _ _ _ _ Hi).
  destruct (Z.eqb_spec p NULL); [by destruct (fo_null _ _ _ Hok)|].
  rewrite (run_bind _ _ _ _ _ get_inode_run), E.
  assert (Z.quot pos BLOCK_SECTOR_SIZE = pos / 512) as -> by (apply Z.quot_div_nonneg; unfold BLOCK_SECTOR_SIZE; lia).
  assert (nsec L <= 244)%nat as Hc.
  { unfold nsec. unfold BYTE_CAPACITY, BLOCK_SECTOR_SIZE, NODE_CAPACITY in HL.
    assert ((L + 511) / 512 < 245) by (apply Z.div_lt_upper_bound; lia). lia. }
  destruct (lookup_lt_is_Some_2 (blockptrs (data n)) (Z.to_nat (pos / 512))) as [ptr Hptr].
  { rewrite (fo_ptrs _ _ _ Hok). lia. }
  rewrite Hptr. pose proof (fo_exists _ _ _ Hok _ Hn) as He. unfold addr_of.
  rewrite (nth_lookup_Some _ _ _ _ Hptr) in *. by rewrite He.
Qed.

(** Past the end there is none. *)
Lemma byte_to_sector_end pos : L <= pos -> byte_to_sector p pos s = Ok (NO_SECTOR, s).
Proof using Hok.
  intros Hp. pose proof (fo_length _ _ _ Hok) as HL.
  assert (byte_to_inode (chain_fuel s) p pos s = Ok (NULL, s)) as Hi.
  { unfold chain_fuel. cbn [byte_to_inode]. destruct (Z.eqb_spec pos (-1)); [lia|].
    destruct (Z.eqb_spec p NULL); [by destruct (fo_null _ _ _ Hok)|].
    rewrite (run_bind _ _ _ _ _ get_inode_run). by destruct (Z.ltb_spec pos L); [lia|]. }
  unfold byte_to_sector. by rewrite (run_bind _ _ _ _ _ (run_get s)), (run_bind _ _ _ _ _ Hi).
Qed.
End File.

(** * Reading *)

(** The bytes of one chunk: at [offset] in the file, at [ofs] in sector [i]. *)
Definition chunk_len (size offset len : Z) : Z := Z.min size (Z.min (len - offset) (512 - offset mod 512)).

Lemma chunk_run size offset len :
  0 <= offset -> 0 <= len <= BYTE_CAPACITY -> offset < 2 ^ 31 ->
  chunk size offset len = (offset mod 512, chunk_len size offset len).
Proof.
  intros Ho Hl Hb. unfold chunk, chunk_len. unfold BYTE_CAPACITY, NODE_CAPACITY, BLOCK_SECTOR_SIZE in *.
  rewrite Z.rem_mod_nonneg by lia. rewrite swrap_id; [|lia|unfold in_s; cbn in *; lia].
  f_equal. destruct (Z.ltb_spec (len - offset) (512 - offset mod 512)); case_match eqn:E;
    [apply Z.ltb_lt in E|apply Z.ltb_ge in E|apply Z.ltb_lt in E|apply Z.ltb_ge in E]; lia.
Qed.

Lemma chunk_pos size offset len : 0 < size -> 0 <= offset < len -> 0 < chunk_len size offset len.
Proof. intros Hs Ho. unfold chunk_len. pose proof (Z.mod_pos_bound offset 512). lia. Qed.

(** Same but for memory that was allocated. *)
Definition same (s s' : fs) : Prop := exists b, brk s <= b /\ s' = set_brk b s.

Lemma same_refl s : same s s.
Proof. exists (brk s). split; [done|]. by destruct s. Qed.

Lemma same_trans s s' s'' : same s s' -> same s' s'' -> same s s''.
Proof. intros (b & Hb & ->) (b' & Hb' & ->). exists b'. split; [cbn in Hb'; lia|done]. Qed.

Lemma same_ok s s' p n : same s s' -> file_ok s p n -> file_ok s' p n /\ content s' n = content s n.
Proof. intros (b & _ & ->) []. done. Qed.

Lemma need_bounce_run have s :
  mallocs s = [] -> exists s', need_bounce have s = Ok (true, s') /\ same s s' /\ mallocs s' = [].
Proof.
  intros Hm. unfold need_bounce. destruct have; [exists s; split; [done|]; split; [apply same_refl|done]|].
  exists (set_brk (brk s + 4096) s). unfold alloc, mbind, st_bind. rewrite Hm. split; [done|].
  split; [exists (brk s + 4096); split; [lia|done]|done].
Qed.

Section Read.
Context (s : fs) (p : Z) (n : inode) (Hok : file_ok s p n).
Abbreviation L := (file_length (data n)).

Lemma sector_read offset :
  0 <= offset < L -> exists bs, disk s !! addr_of n (Z.to_nat (offset / 512)) = Some bs /\ length bs = 512%nat.
Proof using Hok. intros Ho. apply (fo_disk _ _ _ Hok). by apply (nsec_bound _ _ _ Hok). Qed.

(** Part of a sector is part of the file. *)
Lemma sector_slice offset c bs :
  0 <= offset -> 0 <= c -> offset + c <= L -> offset mod 512 + c <= 512 -> 0 < c ->
  disk s !! addr_of n (Z.to_nat (offset / 512)) = Some bs ->
  take (Z.to_nat c) (drop (Z.to_nat (offset mod 512)) bs) =
  take (Z.to_nat c) (drop (Z.to_nat offset) (content s n)).
Proof using Hok.
  intros Ho Hc Hoc Hm Hpos Hd. apply list_eq. intros k.
  destruct (decide (k < Z.to_nat c)%nat) as [Hk|Hk]; [|by rewrite !lookup_take_ge by lia].
  rewrite !lookup_take_lt, !lookup_drop by done. rewrite (content_lookup _ _ _ Hok) by lia.
  pose proof (Z.mod_pos_bound offset 512 ltac:(lia)) as Hmod.
  pose proof (Z.div_mod offset 512 ltac:(lia)) as Hdm.
  assert (0 <= offset / 512) by (apply Z.div_pos; lia).
  assert (Z.to_nat offset + k = Z.to_nat (offset / 512) * 512 + (Z.to_nat (offset mod 512) + k))%nat as E by lia.
  assert ((Z.to_nat offset + k) / 512 = Z.to_nat (offset / 512))%nat as ->.
  { rewrite E, Nat.div_add_l by lia. rewrite (Nat.div_small (Z.to_nat (offset mod 512) + k)) by lia. lia. }
  assert ((Z.to_nat offset + k) mod 512 = Z.to_nat (offset mod 512) + k)%nat as ->.
  { rewrite E, Nat.add_comm, Nat.Div0.mod_add. apply Nat.mod_small. lia. }
  by rewrite Hd.
Qed.

Lemma drop_slice (l : list Z) (a c z : nat) :
  (c <= z)%nat -> take c (drop a l) ++ take (z - c) (drop (a + c) l) = take z (drop a l).
Proof using.
  intros H. rewrite <- drop_drop. rewrite <- (take_drop c (drop a l)) at 3.
  rewrite take_app, take_take, length_take. rewrite (Nat.min_r z c) by lia. f_equal.
  destruct (decide (c <= length (drop a l)))%nat.
  - by rewrite Nat.min_l by lia.
  - rewrite drop_ge by lia. by rewrite !take_nil.
Qed.
End Read.

Lemma read_loop_run p n s0 fuel :
  file_ok s0 p n -> forall size offset buf bounce s,
  same s0 s -> mallocs s = [] -> 0 <= offset -> offset + size < 2 ^ 31 -> 0 <= size -> (Z.to_nat size < fuel)%nat ->
  exists s', loop fuel (read_body p) (size, offset, buf, bounce) s =
    Ok (buf ++ take (Z.to_nat size) (drop (Z.to_nat offset) (content s0 n)), s') /\ same s0 s' /\ mallocs s' = [].
Proof.
  intros Hok0. induction fuel as [|fuel IH]; intros size offset buf bounce s Hs Hm Ho Hb Hsz Hf; [lia|].
  destruct (same_ok _ _ _ _ Hs Hok0) as [Hok Hc]. pose proof (fo_length _ _ _ Hok) as HL.
  destruct (decide (size = 0)) as [->|Hne].
  { exists s. split; [|done]. cbn. by rewrite app_nil_r. }
  destruct (decide (offset < file_length (data n))) as [Hlt|Hge].
  2: { exists s. split; [|done]. rewrite (loop_break _ _ _ buf s s).
       - rewrite drop_ge by (rewrite (content_length _ _ _ Hok0); lia). by rewrite take_nil, app_nil_r.
       - unfold read_body. destruct (Z.leb_spec size 0); [lia|].
         rewrite (run_bind _ _ _ _ _ (byte_to_sector_end _ _ _ Hok offset ltac:(lia))).
         rewrite (run_bind _ _ _ (file_length (data n)) s) by (by unfold inode_length; rewrite (run_bind _ _ _ _ _ (get_inode_run _ _ _ Hok))).
         rewrite chunk_run by lia. unfold chunk_len.
         destruct (Z.leb_spec (Z.min size (Z.min (file_length (data n) - offset) (512 - offset mod 512))) 0); [done|lia]. }
  set (c := chunk_len size offset (file_length (data n))).
  assert (0 < c) as Hcpos by (apply chunk_pos; lia).
  assert (c <= size /\ offset + c <= file_length (data n) /\ offset mod 512 + c <= 512) as (Hc1 & Hc2 & Hc3)
    by (unfold c, chunk_len; lia).
  destruct (sector_read _ _ _ Hok offset ltac:(lia)) as (bs & Hbs & Hlen).
  pose proof (sector_slice s p n Hok offset c bs Ho ltac:(lia) Hc2 Hc3 Hcpos Hbs) as Hsl. rewrite Hc in Hsl.
  assert (exists s1 b1, read_body p (size, offset, buf, bounce) s =
    Ok (inl (size - c, offset + c, buf ++ take (Z.to_nat c) (drop (Z.to_nat offset) (content s0 n)), b1), s1) /\
    same s0 s1 /\ mallocs s1 = []) as (s1 & b1 & Hbody & Hs1 & Hm1).
  { unfold read_body. destruct (Z.leb_spec size 0); [lia|].
    rewrite (run_bind _ _ _ _ _ (byte_to_sector_run _ _ _ Hok offset ltac:(lia))).
    rewrite (run_bind _ _ _ (file_length (data n)) s) by (by unfold inode_length; rewrite (run_bind _ _ _ _ _ (get_inode_run _ _ _ Hok))).
    rewrite chunk_run by lia. fold c. destruct (Z.leb_spec c 0); [lia|].
    rewrite <- Hsl. destruct ((offset mod 512 =? 0) && (c =? BLOCK_SECTOR_SIZE)) eqn:Efull.
    - apply andb_true_iff in Efull as [E1%Z.eqb_eq E2%Z.eqb_eq]. exists s, bounce.
      rewrite (run_bind _ _ _ bs s) by (unfold block_read; by rewrite Hbs). split; [|done].
      rewrite E1, E2. change (Z.to_nat 0) with O. rewrite drop_0, take_ge; [done|]. rewrite Hlen. done.
    - destruct (need_bounce_run bounce s Hm) as (s1 & Hn & Hsm & Hm1). pose proof Hsm as (b & _ & Hb1). exists s1, true.
      rewrite (run_bind _ _ _ _ _ Hn). cbn [negb]. subst s1.
      rewrite (run_bind _ _ _ bs (set_brk b s)) by (unfold block_read; cbn; by rewrite Hbs).
      split; [done|]. split; [|done]. by eapply same_trans. }
  rewrite (loop_continue _ _ _ _ _ _ Hbody).
  destruct (IH (size - c) (offset + c) (buf ++ take (Z.to_nat c) (drop (Z.to_nat offset) (content s0 n))) b1 s1)
    as (s' & Hl & Hs' & Hm'); try done; [lia..|].
  exists s'. split; [|done]. rewrite Hl, <- app_assoc. do 3 f_equal.
  rewrite Z2Nat.inj_sub, Z2Nat.inj_add by lia. apply drop_slice. lia.
Qed.

(** * Writing *)

(** [s'] is [s] but for the sectors of the file [n], and memory that was allocated. *)
Definition wrote (n : inode) (s s' : fs) : Prop :=
  exists d b, s' = set_brk b (set_disk d s) /\
    forall a, (forall i, (i < nsec (file_length (data n)))%nat -> addr_of n i <> a) -> d !! a = disk s !! a.

Lemma wrote_refl n s : wrote n s s.
Proof. exists (disk s), (brk s). split; [by destruct s|done]. Qed.

Lemma wrote_trans n s s' s'' : wrote n s s' -> wrote n s' s'' -> wrote n s s''.
Proof.
  intros (d & b & -> & H) (d' & b' & -> & H'). exists d', b'. split; [done|]. intros a Ha. rewrite H' by done. by apply H.
Qed.

Lemma same_wrote n s s' : same s s' -> wrote n s s'.
Proof. intros (b & _ & ->). exists (disk s), b. split; [by destruct s|done]. Qed.

(** Storing one sector of the file. *)
Lemma write_sector s p n i bs' :
  file_ok s p n -> (i < nsec (file_length (data n)))%nat -> length bs' = 512%nat ->
  let s' := set_disk (<[addr_of n i := bs']> (disk s)) s in
  block_write (addr_of n i) bs' s = Ok (tt, s') /\ file_ok s' p n /\ wrote n s s' /\
  forall k, (k < Z.to_nat (file_length (data n)))%nat ->
    content s' n !! k = if decide (k / 512 = i)%nat then bs' !! (k mod 512)%nat else content s n !! k.
Proof.
  intros Hok Hi Hl s'. pose proof (fo_disk _ _ _ Hok i Hi) as (bs & Hbs & _).
  assert (file_ok s' p n) as Hok'.
  { destruct Hok. split; try done. intros j Hj. unfold s'; cbn [disk set_disk]. destruct (decide (addr_of n i = addr_of n j)) as [E|E].
    - rewrite <- E, lookup_insert_eq. eauto.
    - rewrite lookup_insert_ne by done. by apply fo_disk0. }
  split_and!; [unfold block_write; by rewrite Hbs|done| |].
  - exists (<[addr_of n i := bs']> (disk s)), (brk s). split; [by destruct s|].
    intros a Ha. apply lookup_insert_ne. by apply Ha.
  - intros k Hk. rewrite (content_lookup _ _ _ Hok'), (content_lookup _ _ _ Hok) by done. unfold s'; cbn [disk set_disk].
    case_decide as E; [subst i; by rewrite lookup_insert_eq|].
    rewrite lookup_insert_ne; [done|]. intros Ea. apply E. symmetry.
    apply (fo_distinct _ _ _ Hok) in Ea; [done|done|].
    pose proof (nsec_bound _ _ _ Hok (Z.of_nat k)) as Hn. pose proof (fo_length _ _ _ Hok).
    assert (Z.to_nat (Z.of_nat k / 512) = k / 512)%nat as <-; [|apply Hn; lia].
    change 512 with (Z.of_nat 512). by rewrite <- Nat2Z.inj_div, Nat2Z.id.
Qed.

(** Storing a chunk into its sector overwrites that part of the file. *)
Lemma write_chunk s p n offset part bs :
  file_ok s p n -> 0 <= offset -> offset + Zlen part <= file_length (data n) ->
  offset mod 512 + Zlen part <= 512 -> 0 < Zlen part ->
  disk s !! addr_of n (Z.to_nat (offset / 512)) = Some bs -> length bs = 512%nat ->
  exists s', block_write (addr_of n (Z.to_nat (offset / 512))) (overwrite bs (offset mod 512) part) s = Ok (tt, s') /\
    file_ok s' p n /\ wrote n s s' /\ mallocs s' = mallocs s /\ content s' n = overwrite (content s n) offset part.
Proof.
  intros Hok Ho Hl Hm Hpos Hbs Hlen.
  pose proof (Z.mod_pos_bound offset 512 ltac:(lia)) as Hmod. pose proof (Z.div_mod offset 512 ltac:(lia)) as Hdm.
  assert (0 <= offset / 512) by (apply Z.div_pos; lia).
  destruct (write_sector s p n (Z.to_nat (offset / 512)) (overwrite bs (offset mod 512) part) Hok) as (H1 & H2 & H3 & H4).
  - apply (nsec_bound _ _ _ Hok). lia.
  - rewrite overwrite_length; lia.
  - eexists. split; [exact H1|]. split; [exact H2|]. split; [exact H3|]. split; [done|].
    apply list_eq. intros k. destruct (decide (k < Z.to_nat (file_length (data n)))%nat) as [Hk|Hk].
    2: { pose proof (content_length _ _ _ Hok). rewrite !lookup_ge_None_2; [done| |].
         - rewrite overwrite_length by lia. lia.
         - rewrite (content_length _ _ _ H2). lia. }
    rewrite (H4 k Hk), (overwrite_lookup (content s n)) by (rewrite ?(content_length _ _ _ Hok); lia).
    pose proof (Nat.div_mod_eq k 512) as Ek. pose proof (Nat.mod_upper_bound k 512 ltac:(lia)) as Ekm.
    destruct (decide (k / 512 = Z.to_nat (offset / 512))%nat) as [E|E].
    + rewrite overwrite_lookup by lia. repeat case_decide; try lia.
      * f_equal. lia.
      * rewrite (content_lookup _ _ _ Hok k Hk), E, Hbs. done.
    + case_decide; [|done]. exfalso. apply E. assert (Z.of_nat k / 512 = offset / 512) as Eq.
      { symmetry. apply (Z.div_unique _ _ _ (Z.of_nat k - 512 * (offset / 512))); lia. }
      rewrite <- Eq. change 512 with (Z.of_nat 512). by rewrite <- Nat2Z.inj_div, Nat2Z.id.
Qed.

Lemma overwrite_full bs part : length bs = 512%nat -> length part = 512%nat -> overwrite bs 0 part = part.
Proof.
  intros H1 H2. unfold overwrite. change (Z.to_nat 0) with O. rewrite take_0, drop_ge by lia. cbn. apply app_nil_r.
Qed.

Lemma inode_length_run s p n : file_ok s p n -> inode_length p s = Ok (file_length (data n), s).
Proof. intros Hok. unfold inode_length. by rewrite (run_bind _ _ _ _ _ (get_inode_run _ _ _ Hok)). Qed.

Lemma write_loop_run p n fuel : forall buf offset w bounce s,
  file_ok s p n -> mallocs s = [] -> 0 <= offset -> offset + Zlen buf <= file_length (data n) ->
  (length buf < fuel)%nat ->
  exists s', loop fuel (write_body p) (buf, offset, w, bounce) s = Ok (w + Zlen buf, s') /\
    file_ok s' p n /\ wrote n s s' /\ mallocs s' = [] /\ content s' n = overwrite (content s n) offset buf.
Proof.
  induction fuel as [|fuel IH]; intros buf offset w bounce s Hok Hm Ho Hl Hf; [lia|].
  pose proof (fo_length _ _ _ Hok) as HL. pose proof (content_length _ _ _ Hok) as HC.
  destruct (decide (buf = [])) as [->|Hne].
  { exists s. rewrite overwrite_nil by lia. cbn. rewrite Z.add_0_r. split_and!; try done. apply wrote_refl. }
  assert (0 < Zlen buf) as Hb by (destruct buf; [done|cbn; lia]).
  set (c := chunk_len (Zlen buf) offset (file_length (data n))).
  assert (0 < c) as Hcpos by (apply chunk_pos; lia).
  assert (c <= Zlen buf /\ offset + c <= file_length (data n) /\ offset mod 512 + c <= 512) as (Hc1 & Hc2 & Hc3)
    by (unfold c, chunk_len; lia).
  set (part := take (Z.to_nat c) buf). set (rest := drop (Z.to_nat c) buf).
  assert (Zlen part = c) as Hpl by (unfold part; rewrite length_take; lia).
  assert (Zlen rest = Zlen buf - c) as Hrl by (unfold rest; rewrite length_drop; lia).
  destruct (sector_read _ _ _ Hok offset ltac:(lia)) as (bs & Hbs & Hlen).
  assert (exists s1 b1, write_body p (buf, offset, w, bounce) s = Ok (inl (rest, offset + c, w + c, b1), s1) /\
    file_ok s1 p n /\ wrote n s s1 /\ mallocs s1 = [] /\ content s1 n = overwrite (content s n) offset part)
    as (s1 & b1 & Hbody & Hok1 & Hw1 & Hm1 & Hc1').
  { unfold write_body. destruct (Z.leb_spec (Zlen buf) 0); [lia|].
    rewrite (run_bind _ _ _ _ _ (byte_to_sector_run _ _ _ Hok offset ltac:(lia))), (run_bind _ _ _ _ _ (inode_length_run _ _ _ Hok)).
    rewrite chunk_run by (unfold BYTE_CAPACITY, NODE_CAPACITY, BLOCK_SECTOR_SIZE in *; lia). fold c.
    destruct (Z.leb_spec c 0); [lia|]. cbv zeta. fold part rest.
    destruct ((offset mod 512 =? 0) && (c =? BLOCK_SECTOR_SIZE)) eqn:Efull.
    - apply andb_true_iff in Efull as [E1%Z.eqb_eq E2%Z.eqb_eq].
      destruct (write_chunk s p n offset part bs) as (s1 & W1 & W2 & W3 & W4 & W5); try done; try lia.
      rewrite E1, overwrite_full in W1 by (done || unfold BLOCK_SECTOR_SIZE in *; lia).
      exists s1, bounce. rewrite (run_bind _ _ _ _ _ W1). split; [done|]. split_and!; try done. by rewrite W4.
    - destruct (need_bounce_run bounce s Hm) as (s1 & Hn & Hs1 & Hm1). rewrite (run_bind _ _ _ _ _ Hn). cbn [negb].
      assert ((0 <? offset mod 512) || (c <? BLOCK_SECTOR_SIZE - offset mod 512) = true) as ->.
      { apply andb_false_iff in Efull. apply orb_true_iff. pose proof (Z.mod_pos_bound offset 512 ltac:(lia)).
        unfold BLOCK_SECTOR_SIZE in *. rewrite !Z.ltb_lt. rewrite !Z.eqb_neq in Efull. lia. }
      destruct (same_ok _ _ _ _ Hs1 Hok) as [Hok1 Hc1']. pose proof Hs1 as (b & _ & Hb1).
      assert (disk s1 !! addr_of n (Z.to_nat (offset / 512)) = Some bs) as Hbs1 by (by subst s1).
      rewrite (run_bind _ _ _ bs s1) by (unfold block_read; by rewrite Hbs1).
      destruct (write_chunk s1 p n offset part bs) as (s2 & W1 & W2 & W3 & W4 & W5); try done; try lia.
      exists s2, true. rewrite (run_bind _ _ _ _ _ W1). split; [done|]. split_and!; [done| |by rewrite W4|by rewrite W5, Hc1'].
      eapply wrote_trans; [by apply same_wrote|done]. }
  rewrite (loop_continue _ _ _ _ _ _ Hbody).
  destruct (IH rest (offset + c) (w + c) b1 s1) as (s' & Hlp & Hok' & Hw' & Hm' & Hc'); [done|done|lia|lia|lia|].
  exists s'. split; [rewrite Hlp; do 2 f_equal; lia|]. split_and!; [done|by eapply wrote_trans|done|].
  rewrite Hc', Hc1', <- Hpl, overwrite_overwrite by lia. f_equal. apply take_drop.
Qed.

Lemma read_at_ok s p n size offset :
  file_ok s p n -> mallocs s = [] -> 0 <= offset -> 0 <= size -> offset + size < 2 ^ 31 ->
  exists s', inode_read_at p size offset s =
    Ok (take (Z.to_nat size) (drop (Z.to_nat offset) (content s n)), s') /\ same s s' /\ mallocs s' = [].
Proof.
  intros Hok Hm Ho Hs Hb. unfold inode_read_at. rewrite (run_bind _ _ _ _ _ (get_inode_run _ _ _ Hok)).
  destruct (read_loop_run p n s (S (Z.to_nat size)) Hok size offset [] false s) as (s' & H & H' & H''); try done; try lia.
  - apply same_refl.
  - by exists s'.
Qed.

Lemma write_at_ok s p n buf offset :
  file_ok s p n -> mallocs s = [] -> deny_write_cnt n = 0 -> 0 <= offset ->
  offset + Zlen buf <= file_length (data n) ->
  exists s', inode_write_at p buf offset s = Ok (Zlen buf, s') /\
    file_ok s' p n /\ wrote n s s' /\ mallocs s' = [] /\ content s' n = overwrite (content s n) offset buf.
Proof.
  intros Hok Hm Hd Ho Hl. unfold inode_write_at, inode_write_with.
  rewrite (run_bind _ _ _ _ _ (get_inode_run _ _ _ Hok)), Hd, Z.eqb_refl. cbn [negb].
  pose proof (fo_length _ _ _ Hok) as HL. unfold BYTE_CAPACITY, NODE_CAPACITY, BLOCK_SECTOR_SIZE in HL.
  rewrite swrap_id; [|lia|unfold in_s; cbn; lia]. destruct (Z.ltb_spec (file_length (data n)) (Zlen buf + offset)); [lia|].
  rewrite (run_bind _ _ s true s) by done. cbn [negb].
  destruct (write_loop_run p n (S (length buf)) buf offset 0 false s) as (s' & H1 & H2 & H3 & H4 & H5); try done; [lia|].
  by exists s'.
Qed.

(** * Theorems *)

(** C8: Reading a file.  For an inode in memory whose file fits into that one inode
    (at most 124928 bytes), and when [malloc] gives the bounce buffer,
    [inode_read_at] returns the bytes of the file from [offset] on, [size] of them or
    as many as there are before the end of the file, and changes nothing (but for the
    memory it allocates). *)
Theorem inode_read_spec s p n size offset :
  file_ok s p n -> mallocs s = [] -> 0 <= offset -> 0 <= size -> offset + size < 2 ^ 31 ->
  exists s', inode_read_at p size offset s =
    Ok (take (Z.to_nat size) (drop (Z.to_nat offset) (content s n)), s') /\ same s s'.
Proof.
  intros Hok Hm Ho Hs Hb. destruct (read_at_ok s p n size offset Hok Hm Ho Hs Hb) as (s' & H1 & H2 & _). by exists s'.
Qed.

(** C9: Writing within a file.  For an inode in memory whose file fits into that one
    inode (at most 124928 bytes: beyond the first inode the code does not find its
    sectors), when [malloc] gives the bounce buffer, writing is not denied and the
    bytes end before the end of the file, [inode_write_at] writes all of them: the content of the file
    is what it was with the bytes put in at [offset], so that reading them back gives
    what was written; no sector but those of the file changes, nor the free map, nor
    any inode. *)
Theorem inode_write_spec s p n buf offset :
  file_ok s p n -> mallocs s = [] -> deny_write_cnt n = 0 -> 0 <= offset ->
  offset + Zlen buf <= file_length (data n) ->
  exists s', inode_write_at p buf offset s = Ok (Zlen buf, s') /\
    file_ok s' p n /\ wrote n s s' /\ content s' n = overwrite (content s n) offset buf /\
    take (length buf) (drop (Z.to_nat offset) (content s' n)) = buf.
Proof.
  intros Hok Hm Hd Ho Hl. destruct (write_at_ok s p n buf offset Hok Hm Hd Ho Hl) as (s' & H1 & H2 & H3 & _ & H5).
  exists s'. split; [done|]. split_and!; try done. rewrite H5. pose proof (content_length _ _ _ Hok) as HC.
  apply list_eq. intros k. destruct (decide (k < length buf)%nat).
  - rewrite lookup_take_lt, lookup_drop, overwrite_lookup, decide_True by lia. f_equal. lia.
  - rewrite lookup_take_ge by lia. symmetry. apply lookup_ge_None_2. lia.
Qed.

Lemma file_read_run s f fl nd size :
  files s !! f = Some fl -> file_ok s (f_inode fl) nd -> mallocs s = [] -> 0 <= f_pos fl -> 0 <= size -> f_pos fl + size < 2 ^ 31 ->
  let bs := take (Z.to_nat size) (drop (Z.to_nat (f_pos fl)) (content s nd)) in
  exists b, brk s <= b /\ file_read f size s = Ok (bs, set_files (<[f := set_f_pos (f_pos fl + Zlen bs) fl]> (files s)) (set_brk b s)).
Proof.
  intros Hf Hok Hm Hp Hs Hb bs. destruct (read_at_ok s (f_inode fl) nd size (f_pos fl) Hok Hm Hp Hs Hb) as (s' & E & (b & Hbrk & ->) & _).
  exists b. split; [done|]. unfold file_read. rewrite (run_bind _ _ _ fl s) by (unfold get_file; by rewrite Hf). fold bs in E.
  rewrite (run_bind _ _ _ _ _ E). unfold upd_file. cbn [set_brk files].
  assert (s32 (f_pos fl + Zlen bs) = f_pos fl + Zlen bs) as Hs32.
  { apply s32_id. unfold bs. rewrite length_take. lia. }
  unfold mbind, st_bind. cbn. rewrite Hf. cbn. by rewrite Hs32.
Qed.

Lemma file_write_run s f fl nd buf :
  files s !! f = Some fl -> file_ok s (f_inode fl) nd -> mallocs s = [] -> is_dir nd = false -> deny_write_cnt nd = 0 ->
  0 <= f_pos fl -> f_pos fl + Zlen buf <= file_length (data nd) ->
  exists s', file_write f buf s = Ok (Zlen buf, set_files (<[f := set_f_pos (f_pos fl + Zlen buf) fl]> (files s')) s') /\
    file_ok s' (f_inode fl) nd /\ wrote nd s s' /\ content s' nd = overwrite (content s nd) (f_pos fl) buf.
Proof.
  intros Hf Hok Hm Hdir Hd Hp Hl. destruct (write_at_ok s (f_inode fl) nd buf (f_pos fl) Hok Hm Hd Hp Hl) as (s' & E & Hok' & Hw & _ & Hc).
  exists s'. split; [|done]. unfold file_write. rewrite (run_bind _ _ _ fl s) by (unfold get_file; by rewrite Hf).
  rewrite (run_bind _ _ _ _ _ (get_inode_run _ _ _ Hok)). rewrite Hdir. rewrite (run_bind _ _ _ _ _ E).
  assert (files s' !! f = Some fl) as Hf' by (by destruct Hw as (d & b & -> & _)).
  unfold upd_file, mbind, st_bind. rewrite Hf'. cbn. rewrite s32_id; [done|].
  pose proof (fo_length _ _ _ Hok) as HL. unfold BYTE_CAPACITY, NODE_CAPACITY, BLOCK_SECTOR_SIZE in HL. lia.
Qed.

(** A file of 600 bytes in sectors 5 and 9 of a device of 16 sectors. *)
Definition demo_node : inode :=
  {| sector := 3; open_cnt := 1; removed := false; deny_write_cnt := 0; is_dir := false;
     data := {| file_length := 600; prev_length := 0; node_length := 600; self := ptr_create 3; magic := INODE_MAGIC;
                doubleptr := 0;
                blockptrs := ptr_set_exist (ptr_create 5) :: ptr_set_exist (ptr_create 9) :: replicate 242 0 |};
     next := NULL |}.

Definition demo_fs : fs :=
  mkFs (list_to_map ((fun i => (Z.of_nat i, zeros)) <$> seq 0 16)) {[ 4096 := demo_node ]} [4096]
    {| bit_cnt := 16; bits := [555] |} NULL ∅ ∅ 8192 [] [].

Lemma demo_file_ok : file_ok demo_fs 4096 demo_node.
Proof.
  assert (addr_of demo_node 0 = 5 /\ addr_of demo_node 1 = 9) as [E0 E1] by (by split; vm_compute).
  split.
  - by vm_compute.
  - done.
  - done.
  - by vm_compute.
  - by vm_compute.
  - intros [|[|i]] Hi; [by vm_compute..|]. vm_compute in Hi. lia.
  - intros [|[|i]] Hi; [rewrite E0|rewrite E1|vm_compute in Hi; lia]; exists zeros; by split; vm_compute.
  - intros [|[|i]] [|[|j]] Hi Hj; rewrite ?E0, ?E1; try done; vm_compute in Hi, Hj; lia.
Qed.

Lemma inode_read_spec_witness :
  exists s', inode_read_at 4096 100 590 demo_fs =
    Ok (take 100 (drop 590 (content demo_fs demo_node)), s') /\ same demo_fs s'.
Proof. apply (inode_read_spec demo_fs 4096 demo_node 100 590 demo_file_ok eq_refl); lia. Defined.

Lemma inode_write_spec_witness :
  exists s', inode_write_at 4096 [7; 8; 9] 511 demo_fs = Ok (3, s') /\
    take 3 (drop 511 (content s' demo_node)) = [7; 8; 9].
Proof.
  destruct (inode_write_spec demo_fs 4096 demo_node [7; 8; 9] 511) as (s' & H1 & _ & _ & _ & H2).
  - apply demo_file_ok.
  - reflexivity.
  - reflexivity.
  - lia.
  - cbn. lia.
  - exists s'. exact (conj H1 H2).
Defined.

(** ** Pointers and inodes on disk *)

(** Sector pointers.  A sector number below 2^14 survives being made into a
    pointer, whatever flags are set on it, and the flags tell what was set. *)
Theorem ptr_roundtrip sec :
  0 <= sec < 2 ^ 14 ->
  let q := ptr_create sec in
  ptr_get_address q = sec /\ ptr_exists q = false /\ ptr_isdir q = false /\
  ptr_get_address (ptr_set_exist q) = sec /\ ptr_exists (ptr_set_exist q) = true /\ ptr_isdir (ptr_set_exist q) = false /\
  ptr_get_address (ptr_set_isdir q) = sec /\ ptr_isdir (ptr_set_isdir q) = true /\ ptr_exists (ptr_set_isdir q) = false.
Proof.
  intros Hs q. subst q.
  assert (Z.land sec 0x3FFF = sec) as E by (change 0x3FFF with (Z.ones 14); rewrite Z.land_ones by lia; by apply Z.mod_small).
  assert (forall z, u16 z = Z.land z 0xFFFF) as U by (intros z; change 0xFFFF with (Z.ones 16); by rewrite Z.land_ones by lia).
  unfold ptr_exists, ptr_isdir, ptr_get_address, ptr_set_exist, ptr_set_isdir, ptr_create. rewrite !U.
  rewrite !Z.land_lor_distr_l, <- !Z.land_assoc.
  repeat match goal with |- context [Z.land (Zpos ?a) (Zpos ?b)] =>
    let c := eval vm_compute in (Z.land (Zpos a) (Zpos b)) in change (Z.land (Zpos a) (Zpos b)) with c end.
  rewrite ?Z.land_0_r, ?Z.lor_0_r, ?Z.lor_0_l, E. by split_and!.
Qed.

Lemma ptr_roundtrip_witness : ptr_get_address (ptr_set_exist (ptr_create 16383)) = 16383.
Proof. apply (ptr_roundtrip 16383). lia. Defined.

Lemma half_at_app pre h post : in_u 16 h -> half_at (pre ++ half_bytes h ++ post) (length pre) = h.
Proof.
  intros Hh. unfold in_u in Hh. unfold half_at, byte_at. rewrite !(app_nth2 pre) by lia.
  rewrite Nat.sub_diag. replace (length pre + 1 - length pre)%nat with 1%nat by lia. cbn [half_bytes app nth].
  rewrite (Z.mod_small (h / 2 ^ 8)).
  - change (2 ^ 8) with 256. pose proof (Z.div_mod h 256 ltac:(lia)). lia.
  - split; [apply Z.div_pos; lia|apply Z.div_lt_upper_bound; lia].
Qed.

Lemma half_range w : in_u 32 w -> in_u 16 (w mod 2 ^ 16) /\ in_u 16 (w / 2 ^ 16).
Proof.
  unfold in_u. intros Hw. split; [apply Z.mod_pos_bound; lia|].
  split; [apply Z.div_pos; lia|apply Z.div_lt_upper_bound; lia].
Qed.

Lemma word_bytes_halves w : word_bytes w = half_bytes (w mod 2 ^ 16) ++ half_bytes (w / 2 ^ 16).
Proof.
  assert ((w mod 2 ^ 16) mod 256 = w mod 256) as E1 by (apply Z.mod_mod_divide; by exists 256).
  assert (((w mod 2 ^ 16) / 2 ^ 8) mod 256 = (w / 2 ^ 8) mod 256) as E2.
  { change (2 ^ 16) with (2 ^ 8 * 2 ^ 8). rewrite Z.rem_mul_r by lia. rewrite Z.add_comm, Z.mul_comm, Z.div_add_l by lia.
    rewrite (Z.div_small (w mod 2 ^ 8)) by (apply Z.mod_pos_bound; lia). rewrite Z.add_0_r. change 256 with (2 ^ 8).
    by rewrite Z.mod_mod by lia. }
  unfold word_bytes, half_bytes. cbn [app]. rewrite E1, E2, Z.div_div by lia. done.
Qed.

Lemma word_at_app pre w post : in_u 32 w -> word_at (pre ++ word_bytes w ++ post) (length pre) = w.
Proof.
  intros Hw. destruct (half_range w Hw) as [H1 H2]. unfold word_at. rewrite word_bytes_halves, <- app_assoc.
  rewrite half_at_app by done.
  replace (length pre + 2)%nat with (length (pre ++ half_bytes (w mod 2 ^ 16))) by (rewrite length_app; cbn; lia).
  rewrite (app_assoc pre), half_at_app by done. pose proof (Z.div_mod w (2 ^ 16) ltac:(lia)). lia.
Qed.

Lemma half_at_list pre hs post i :
  Forall (in_u 16) hs -> (i < length hs)%nat ->
  half_at (pre ++ (hs ≫= half_bytes) ++ post) (length pre + 2 * i) = nth i hs 0.
Proof.
  intros H. revert pre i. induction H as [|h hs Hh H IH]; intros pre i Hi; [cbn in Hi; lia|].
  rewrite bind_cons, <- app_assoc. destruct i as [|i].
  - rewrite Nat.mul_0_r, Nat.add_0_r. by apply half_at_app.
  - rewrite app_assoc. replace (length pre + 2 * S i)%nat with (length (pre ++ half_bytes h) + 2 * i)%nat
      by (rewrite length_app; cbn; lia). rewrite IH by (cbn in Hi; lia). done.
Qed.

(** The fields of an inode that fit into their types. *)
Record disk_wf (d : inode_disk) : Prop := {
  dw_file : in_s 32 (file_length d);
  dw_prev : in_s 32 (prev_length d);
  dw_node : in_s 32 (node_length d);
  dw_self : in_u 16 (self d);
  dw_magic : in_u 32 (magic d);
  dw_double : in_u 16 (doubleptr d);
  dw_ptrs : Forall (in_u 16) (blockptrs d);
  dw_count : length (blockptrs d) = 244%nat
}.

(** Inodes survive the disk.  The 512 bytes written for an inode, read back as an
    inode, give the same lengths, flags and pointers. *)
Theorem inode_disk_roundtrip d :
  disk_wf d -> length (encode_inode d) = 512%nat /\ decode_inode (encode_inode d) = d.
Proof.
  intros [H1 H2 H3 H4 H5 H6 H7 H8].
  assert (length (blockptrs d ≫= half_bytes) = 488%nat) as Hl.
  { assert (forall hs, length (hs ≫= half_bytes) = 2 * length hs)%nat as Hx.
    { induction hs as [|h hs IH]; [done|]. rewrite bind_cons, length_app, IH. cbn. lia. }
    by rewrite Hx, H8. }
  pose proof (uwrap_range 32 ltac:(lia)) as Hu. split.
  - unfold encode_inode. rewrite !length_app, Hl. done.
  - unfold decode_inode, encode_inode.
    set (w0 := word_bytes (u32 (file_length d))). set (w1 := word_bytes (u32 (prev_length d))).
    set (w2 := word_bytes (u32 (node_length d))). set (h0 := half_bytes (self d)).
    set (w3 := word_bytes (magic d)). set (h1 := half_bytes (doubleptr d)). set (hs := blockptrs d ≫= half_bytes) in *.
    set (bs := w0 ++ w1 ++ w2 ++ h0 ++ [0; 0] ++ w3 ++ h1 ++ hs ++ [0; 0]).
    assert (word_at bs 0 = u32 (file_length d)) as -> by (apply (word_at_app []), Hu).
    assert (word_at bs 4 = u32 (prev_length d)) as -> by (apply (word_at_app w0), Hu).
    assert (word_at bs 8 = u32 (node_length d)) as -> by (apply (word_at_app (w0 ++ w1)), Hu).
    assert (half_at bs 12 = self d) as -> by (by apply (half_at_app (w0 ++ w1 ++ w2))).
    assert (word_at bs 16 = magic d) as -> by (by apply (word_at_app (w0 ++ w1 ++ w2 ++ h0 ++ [0; 0]))).
    assert (half_at bs 20 = doubleptr d) as -> by (by apply (half_at_app (w0 ++ w1 ++ w2 ++ h0 ++ [0; 0] ++ w3))).
    rewrite !s32_u32 by done.
    assert (forall i, (i < 244)%nat -> half_at bs (22 + 2 * i) = nth i (blockptrs d) 0) as Hp.
    { intros i Hi. apply (half_at_list (w0 ++ w1 ++ w2 ++ h0 ++ [0; 0] ++ w3 ++ h1)); [done|lia]. }
    clearbody bs. clear w0 w1 w2 h0 w3 h1 hs Hl.
    destruct d as [a b c e f g h]. cbn [file_length prev_length node_length self magic doubleptr blockptrs] in *.
    f_equal. apply list_eq_same_length with 244%nat; [done|by rewrite length_fmap, length_seq|].
    intros i x y Hi Hx Hy. rewrite list_lookup_fmap, lookup_seq_lt in Hx by done. injection Hx as <-.
    rewrite <- (nth_lookup_Some _ _ 0 _ Hy). by apply Hp.
Qed.

Lemma inode_disk_roundtrip_witness : decode_inode (encode_inode (data demo_node)) = data demo_node.
Proof.
  apply (inode_disk_roundtrip (data demo_node)). split; try (by split; vm_compute).
  - do 2 (apply Forall_cons_2; [by split; vm_compute|]). apply Forall_replicate. by split; vm_compute.
Defined.

(** * Files of more than one inode *)

(** A device of 600 sectors, formatted, with a file of 125000 bytes, which needs a
    second inode. *)
Definition blank_fs (n : nat) : fs :=
  mkFs (list_to_map ((fun i => (Z.of_nat i, zeros)) <$> seq 0 n)) ∅ []
    {| bit_cnt := 0; bits := [] |} NULL ∅ ∅ 4096 [] [].

Definition long_file : fM Z :=
  inode_init;; free_map_init 600 (Some (replicate 19 0));; free_map_create;; free_map_close;; free_map_open;;
  inode_create 1 125000;; inode_open 1.

(** No routine of inode.c sets [prev_length], so that [byte_to_inode] takes the
    position in the file for the position in each inode of the chain and finds none
    for a position past the first inode.  The file has the length it was created with,
    but reading its byte 124928, the first of the second inode, stops the kernel with
    an access past the end of the device. *)
Theorem second_inode_unreadable :
  match long_file (blank_fs 600) with
  | Ok (p, s) => inode_length p s = Ok (125000, s) /\ inode_read_at p 1 124928 s = Err EPanic
  | Err _ => False
  end.
Proof.
  assert (match long_file (blank_fs 600) with
    | Ok (p, s) => (match inode_length p s with Ok (n, _) => n =? 125000 | Err _ => false end) &&
        (match inode_read_at p 1 124928 s with Err EPanic => true | _ => false end)
    | Err _ => false end = true) as H by (by vm_compute).
  destruct (long_file (blank_fs 600)) as [[p s]|e]; [|done].
  apply andb_true_iff in H as [H1 H2]. split.
  - unfold inode_length in *. unfold mbind, st_bind in *. destruct (get_inode p s) as [[n s']|e] eqn:E; [|done].
    unfold get_inode in E. destruct (inodes s !! p); [|done]. injection E as -> ->. cbn in *. apply Z.eqb_eq in H1. by rewrite H1.
  - by destruct (inode_read_at p 1 124928 s) as [|[]].
Qed.
