(* ===== verification/Directory.v ===== *)
(** File names: filesys/directory.c, the functions of filesys/path.c that walk
    directories, and filesys/filesys.c, over the inodes of Inode.v.

    A directory is a file of 24-byte entries.  An entry is kept as its bytes, since
    the code writes back bytes it does not set: those behind the end of a name, and
    the padding. *)
From Stdlib Require Import ZArith Lia.
From stdpp Require Import base numbers sorting gmap list.
From S2P Require Import Prelude.
From S2P Require Import Bitmap.
From S2P Require Import StringC.
From S2P Require Import Path.
From S2P Require Import Inode.

Local Open Scope Z_scope.

Definition NAME_MAX : Z := 14.
Definition PATH_MAX : Z := 256.

(** * Entries *)

(** [inode_sector] at 0, [name] at 4, [in_use] at 19, [is_dir] at 20, padding. *)
Definition SIZEOF_ENTRY : Z := 24.

Abbreviation dir_entry := (list Z).

(** The bytes before the terminating null. *)
Fixpoint cstring (bs : list Z) : str :=
  match bs with
  | b :: bs => if b =? 0 then [] else b :: cstring bs
  | [] => []
  end.

Definition e_inode_sector (e : dir_entry) : Z := word_at e 0.
Definition e_name (e : dir_entry) : str := cstring (drop 4 e).
Definition e_in_use (e : dir_entry) : bool := negb (byte_at e 19 =? 0).
Definition e_is_dir (e : dir_entry) : bool := negb (byte_at e 20 =? 0).

Definition set_in_use (v : bool) (e : dir_entry) : dir_entry := <[19%nat := if v then 1 else 0]> e.
Definition set_e_is_dir (v : bool) (e : dir_entry) : dir_entry := <[20%nat := if v then 1 else 0]> e.
Definition set_inode_sector (v : Z) (e : dir_entry) : dir_entry := overwrite e 0 (word_bytes (u32 v)).

(** [strlcpy (e.name, name, sizeof e.name)]. *)
Definition set_name (name : str) (e : dir_entry) : dir_entry := overwrite e 4 (take (Z.to_nat NAME_MAX) name ++ [0]).

(** * Calls *)

(** The functions on strings, which allocate memory. *)
Definition liftp {A} (m : Path.pM A) : fM A := fun s =>
  match m ((fun o => bool_decide (is_Some o)) <$> mallocs s) with
  | Ok (a, o) => Ok (a, set_mallocs (drop (length (mallocs s) - length o) (mallocs s)) s)
  | Err e => Err e
  end.

(** A string that must be there. *)
Definition need (r : option str) : fM str :=
  match r with
  | Some p => mret p
  | None => st_fail EAssert
  end.

(** [calloc] and [free] of a [struct dir]. *)
Definition calloc_dir : fM Z := fun s =>
  match mallocs s with
  | None :: o => Ok (NULL, set_mallocs o s)
  | o =>
      let s := set_mallocs (tail o) s in
      match dir_blocks s with
      | p :: l => Ok (p, set_dirs (<[p := mkDir NULL 0]> (dirs s)) (set_dir_blocks l s))
      | [] => Ok (brk s, set_dirs (<[brk s := mkDir NULL 0]> (dirs s)) (set_brk (brk s + 4096) s))
      end
  end.

Definition free_dir (p : Z) : fM unit :=
  if p =? NULL then mret tt
  else modify (fun s => set_dir_blocks (p :: dir_blocks s) (set_dirs (delete p (dirs s)) s)).

Definition get_dir (p : Z) : fM dir := fun s =>
  match dirs s !! p with
  | Some d => Ok (d, s)
  | None => Err EFault
  end.

Definition upd_dir (p : Z) (f : dir -> dir) : fM unit := fun s =>
  match dirs s !! p with
  | Some d => Ok (tt, set_dirs (<[p := f d]> (dirs s)) s)
  | None => Err EFault
  end.

(** * Opening and closing *)

Definition dir_create_root (sec : Z) : fM bool :=
  success ← inode_create sec BLOCK_SECTOR_SIZE;
  (if success : bool then
     node ← inode_open sec;
     inode_mark_dir node;;
     n ← get_inode node;
     block_write (sector n) (encode_inode (data n));;
     inode_close node
   else mret tt);;
  mret success.

Definition dir_open (ip : Z) : fM Z :=
  dir ← calloc_dir;
  if negb (ip =? NULL) && negb (dir =? NULL) then
    upd_dir dir (fun _ => mkDir ip 0);; mret dir
  else inode_close ip;; free_dir dir;; mret NULL.

Definition dir_open_root : fM Z := ip ← inode_open ROOT_DIR_SECTOR; dir_open ip.

Definition dir_reopen (dp : Z) : fM Z := d ← get_dir dp; ip ← inode_reopen (d_inode d); dir_open ip.

Definition dir_close (dp : Z) : fM unit :=
  if dp =? NULL then mret tt else
  d ← get_dir dp; inode_close (d_inode d);; free_dir dp.

Definition dir_get_inode (dp : Z) : fM Z := d ← get_dir dp; mret (d_inode d).

(** * Entries of a directory *)

(** [inode_read_at (node, &e, sizeof e, ofs) == sizeof e], with what it leaves in
    [e]. *)
Definition read_entry (ip : Z) (e : dir_entry) (ofs : Z) : fM (bool * dir_entry) :=
  bs ← inode_read_at ip SIZEOF_ENTRY ofs;
  mret (Zlen bs =? SIZEOF_ENTRY, bs ++ drop (length bs) e).

(** The loops over entries: from [ofs] on, the first entry that satisfies [p] with
    its offset, or [None], the offset behind the last one and what is in [e]. *)
Fixpoint scan_entries (fuel : nat) (ip : Z) (p : dir_entry -> bool) (e : dir_entry) (ofs : Z) : fM (bool * dir_entry * Z) :=
  match fuel with
  | O => st_fail EFuel
  | S fuel =>
      r ← read_entry ip e ofs;
      let '(full, e) := r in
      if negb full then mret (false, e, ofs)
      else if p e then mret (true, e, ofs)
      else scan_entries fuel ip p e (ofs + SIZEOF_ENTRY)
  end.

(** A file has fewer entries than bytes. *)
Definition entries_fuel (ip : Z) : fM nat := n ← get_inode ip; mret (S (Z.to_nat (file_length (data n)))).

Section stack.
(** What an uninitialized [struct dir_entry] on the stack holds. *)
Context (junk : list Z).

(** The entry and its offset. *)
Definition lookup (dp : Z) (name : str) : fM (option (dir_entry * Z)) :=
  if negb (path_isvalid name) then mret None else
  assert (negb (dp =? NULL));;
  d ← get_dir dp;
  fuel ← entries_fuel (d_inode d);
  r ← scan_entries fuel (d_inode d) (fun e => e_in_use e && bool_decide (name = e_name e)) junk 0;
  let '(found, e, ofs) := r in
  mret (if found : bool then Some (e, ofs) else None).

(** * Walking *)

(** [retdir] is a copy of the pointer: the block that is allocated is not passed
    back, but it is the one the caller has freed last. *)
Definition dir_child (current : Z) (child : str) : fM bool :=
  retdir ← calloc_dir;
  assert (negb (current =? NULL));;
  r ← lookup current child;
  match r with
  | None => mret false
  | Some (e, _) =>
      ip ← inode_open (e_inode_sector e);
      upd_dir retdir (set_d_inode ip);;
      mret (e_is_dir e)
  end.

(** The sector a directory is in. *)
Definition dir_sector (dp : Z) : fM Z := d ← get_dir dp; n ← get_inode (d_inode d); mret (sector n).

Fixpoint leaf_loop (name : str) (toks : list str) (tmpdir lastdir : Z) : fM (Z * Z + Z) :=
  match toks with
  | [] => mret (inl (tmpdir, lastdir))
  | token :: toks =>
      dir_close lastdir;;
      sec ← dir_sector tmpdir;
      ip ← inode_open sec;
      lastdir ← dir_open ip;
      dir_close tmpdir;;
      success ← dir_child lastdir token;
      if success : bool then leaf_loop name toks tmpdir lastdir
      else mret (inr (if bool_decide (token <> name) then lastdir else NULL))
  end.

Definition dir_get_leaf (name : str) : fM Z :=
  if negb (path_isvalid name) then mret NULL else
  if (Zlen name =? 1) && match name with c :: _ => c =? SLASH | [] => false end then dir_open_root else
  calloc_dir;;
  let enddir := match last name with Some c => c =? SLASH | None => false end in
  tmpdir ← dir_open_root;
  sec ← dir_sector tmpdir;
  ip ← inode_open sec;
  lastdir ← dir_open ip;
  r ← leaf_loop name (tokens [SLASH] name) tmpdir lastdir;
  match r with
  | inr dir => mret dir
  | inl (tmpdir, lastdir) =>
      if enddir then dir_close tmpdir;; mret lastdir
      else dir_close lastdir;; mret tmpdir
  end.

(** The [pwd] of the running thread. *)
Context (cwd : str).

(** The absolute path of [name], its directory and its last component. *)
Definition split_path (name : str) : fM (str * str * str) :=
  a ← liftp (path_abspath cwd (Some name)); abspath ← need a;
  b ← liftp (path_basename abspath); basename ← need b;
  d ← liftp (path_dirname abspath); dirname ← need d;
  mret (abspath, basename, dirname).

(** The inode, null if there is none; [None] when [inode] is not written. *)
Definition dir_lookup (name : str) : fM (option Z) :=
  r ← split_path name;
  let '(_, basename, dirname) := r in
  foo ← dir_get_leaf dirname;
  if foo =? NULL then mret None else
  r ← lookup foo basename;
  ip ← match r with
       | Some (e, _) =>
           ip ← inode_open (e_inode_sector e);
           upd_inode ip (set_is_dir (e_is_dir e));;
           mret ip
       | None => mret NULL
       end;
  dir_close foo;;
  mret (Some ip).

(** Entering a name into an open directory, for [dir_add] and [dir_create]. *)
Definition add_entry (dp : Z) (name : str) (sec : Z) (isdir : bool) : fM bool :=
  r ← lookup dp name;
  match r with
  | Some _ => mret false
  | None =>
      d ← get_dir dp;
      fuel ← entries_fuel (d_inode d);
      r ← scan_entries fuel (d_inode d) (fun e => negb (e_in_use e)) junk 0;
      let '(_, e, ofs) := r in
      let e := set_inode_sector sec (set_name name (set_e_is_dir isdir (set_in_use true e))) in
      n ← inode_write_at (d_inode d) e ofs;
      mret (n =? SIZEOF_ENTRY)
  end.

Definition dir_add (name : str) (sec : Z) : fM bool :=
  r ← split_path name;
  let '(_, basename, dirname) := r in
  dir ← dir_get_leaf dirname;
  if dir =? NULL then mret false else
  success ← add_entry dir basename sec false;
  dir_close dir;;
  mret success.

(** Creates the inode of the directory once more. *)
Definition dir_create (name : str) (sec : Z) : fM bool :=
  r ← split_path name;
  let '(_, basename, dirname) := r in
  foo ← dir_get_leaf dirname;
  if foo =? NULL then mret false else
  success ← add_entry foo basename sec true;
  success ← (if success : bool then
               success ← inode_create sec BLOCK_SECTOR_SIZE;
               node ← inode_open sec;
               inode_mark_dir node;;
               n ← get_inode node;
               block_write (sector n) (encode_inode (data n));;
               inode_close node;;
               mret success
             else mret false);
  dir_close foo;;
  mret success.

(** [strtok_r] returns null for a path of slashes only, which [strlen] refuses. *)
Definition is_path (name : str) : fM bool :=
  match tokens [SLASH] name with
  | [] => st_fail EAssert
  | t :: _ => mret (path_isvalid name && negb (Zlen t =? Zlen name))
  end.

(** The position of the last slash, -1 if there is none. *)
Fixpoint last_slash (name : str) (i pos : Z) : Z :=
  match name with
  | [] => pos
  | c :: name => last_slash name (i + 1) (if c =? SLASH then i else pos)
  end.

(** Erasing the entry of [name] in an open directory. *)
Definition remove_entry (dp : Z) (name : str) : fM (bool * Z) :=
  r ← lookup dp name;
  match r with
  | None => mret (false, NULL)
  | Some (e, ofs) =>
      ip ← inode_open (e_inode_sector e);
      if ip =? NULL then mret (false, NULL) else
      isdir ← inode_is_dir ip;
      n ← get_inode ip;
      if isdir && (1 <? open_cnt n) then mret (false, ip) else
      d ← get_dir dp;
      w ← inode_write_at (d_inode d) (set_in_use false e) ofs;
      if negb (w =? SIZEOF_ENTRY) then mret (false, ip) else
      inode_remove ip;;
      mret (true, ip)
  end.

(** [dp] is the root directory.  [strlcpy] of [strlen (name)] bytes drops the last
    character, which is behind the last slash. *)
Definition dir_remove (dp : Z) (name : str) : fM bool :=
  ispath ← is_path name;
  r ← (if ispath : bool then
         let index := last_slash name 0 (-1) in
         let pathname := take (Z.to_nat index) (removelast name) in
         foo ← (if Zlen pathname =? 0 then dir_open_root else dir_get_leaf pathname);
         mret (foo, default [] (last (tokens [SLASH] name)))
       else
         sec ← dir_sector dp;
         ip ← inode_open sec;
         foo ← dir_open ip;
         mret (foo, name));
  let '(foo, todelete) := r in
  if foo =? NULL then if ispath : bool then mret false else st_fail EAssert else
  r ← remove_entry foo todelete;
  let '(success, ip) := r in
  dir_close foo;;
  inode_close ip;;
  mret success.

(** The next name, with the position moved on. *)
Fixpoint readdir_loop (fuel : nat) (dp : Z) (e : dir_entry) : fM (option str) :=
  match fuel with
  | O => st_fail EFuel
  | S fuel =>
      d ← get_dir dp;
      r ← read_entry (d_inode d) e (d_pos d);
      let '(full, e) := r in
      if negb full then mret None else
      upd_dir dp (set_d_pos (s32 (d_pos d + SIZEOF_ENTRY)));;
      if e_in_use e then mret (Some (take (Z.to_nat NAME_MAX) (e_name e)))
      else readdir_loop fuel dp e
  end.

Definition dir_readdir (dp : Z) : fM (option str) :=
  d ← get_dir dp;
  fuel ← entries_fuel (d_inode d);
  readdir_loop fuel dp junk.

Definition dir_is_empty (name : str) : fM bool :=
  if negb (path_isvalid name) then mret false else
  a ← liftp (path_abspath cwd (Some name)); abspath ← need a;
  dir ← dir_get_leaf abspath;
  assert (negb (dir =? NULL));;
  d ← get_dir dir;
  fuel ← entries_fuel (d_inode d);
  r ← scan_entries fuel (d_inode d) e_in_use junk 0;
  let '(found, _, _) := r in
  dir_close dir;;
  mret (negb found).

(** * Whether a path exists *)

(** The rest of the path from the open directory [dp] on; [ok] tests the last
    entry. *)
Fixpoint path_walk (ok : dir_entry -> bool) (toks : list str) (dp : Z) : fM bool :=
  match toks with
  | [] => mret true
  | token :: toks' =>
      r ← lookup dp token;
      (match r with Some (_, ofs) => upd_dir dp (set_d_pos ofs) | None => mret tt end : fM unit);;
      dir_close dp;;
      match r, toks' with
      | None, _ => mret false
      | Some (e, _), [] => mret (ok e)
      | Some (e, _), _ =>
          if e_is_dir e then
            ip ← inode_open (e_inode_sector e);
            dp ← dir_open ip;
            if dp =? NULL then mret false else path_walk ok toks' dp
          else mret false
      end
  end.

Definition path_test (ok : dir_entry -> bool) (root : bool) (path : str) : fM bool :=
  if negb (path_isvalid path) then mret false else
  a ← liftp (path_abspath cwd (Some path));
  match a with
  | None => mret false
  | Some abspath =>
      dp ← dir_open_root;
      match tokens [SLASH] abspath with
      | [] => mret root
      | toks => path_walk ok toks dp
      end
  end.

Definition path_exists : str -> fM bool := path_test (fun _ => true) true.
Definition path_isfile : str -> fM bool := path_test (fun e => negb (e_is_dir e)) false.
Definition path_isdir : str -> fM bool := path_test e_is_dir true.

(** Success, and the new [pwd]. *)
Definition dir_changedir (name : str) : fM (bool * str) :=
  a ← liftp (path_abspath cwd (Some name)); abspath ← need a;
  if negb (path_isvalid name) then mret (false, cwd) else
  ok ← path_exists abspath;
  mret (if ok : bool then (true, take (Z.to_nat (PATH_MAX - 1)) abspath) else (false, cwd)).

(** * The front end *)

(** A sector for a new inode, given back when [rest] fails; [dir] is the root. *)
Definition with_sector (rest : Z -> fM bool) : fM bool :=
  dir ← dir_open_root;
  r ← (if dir =? NULL then mret (false, 0) else
       a ← free_map_allocate 1;
       match a with
       | None => mret (false, 0)
       | Some sec => ok ← rest sec; mret (ok, sec)
       end);
  let '(success, sec) := r in
  (if negb success && negb (sec =? 0) then free_map_release sec 1 else mret tt);;
  dir_close dir;;
  mret success.

Definition filesys_create (name : str) (initial_size : Z) : fM bool :=
  if NAME_MAX <? Zlen name then mret false else
  with_sector (fun sec => ok ← inode_create sec initial_size; if ok : bool then dir_add name sec else mret false).

Definition filesys_mkdir (name : str) : fM bool :=
  with_sector (fun sec => ok ← inode_create sec BLOCK_SECTOR_SIZE; if ok : bool then dir_create name sec else mret false).

Definition filesys_open (name : str) : fM Z :=
  dir ← dir_open_root;
  ip ← (if path_isroot name then d ← get_dir dir; mret (d_inode d)
        else if negb (dir =? NULL) then r ← dir_lookup name; mret (default NULL r)
        else mret NULL);
  dir_close dir;;
  file_open ip.

Definition filesys_remove (name : str) : fM bool :=
  dir ← dir_open_root;
  success ← (if dir =? NULL then mret false else dir_remove dir name);
  dir_close dir;;
  mret success.

Definition do_format : fM unit :=
  free_map_create;;
  ok ← dir_create_root ROOT_DIR_SECTOR;
  (if ok : bool then mret tt else st_fail EPanic);;
  free_map_close.

(** [size] is the number of sectors of the device, [mem] the memory for the map. *)
Definition filesys_init (size : Z) (mem : option (list Z)) (format : bool) : fM unit :=
  inode_init;;
  free_map_init size mem;;
  (if format then do_format else mret tt);;
  free_map_open.

Definition filesys_done : fM unit := free_map_close.

End stack.
