(* ===== verification/DirEntries.v ===== *)
(** The entries of an open directory: looking up, adding, erasing and listing names,
    as operations on the list of the slots of the file. *)
From Stdlib Require Import ZArith Lia.
From stdpp Require Import base numbers sorting gmap list.
From S2P Require Import Prelude.
From S2P Require Import Bitmap.
From S2P Require Import StringC.
From S2P Require Import Path.
From S2P Require Import Inode.
From S2P Require Import InodeFile.
From S2P Require Import Directory.

Local Open Scope Z_scope.

(** * Slots *)

(** The whole entries of a file. *)
Definition slots (c : list Z) : list dir_entry :=
  (fun k => take 24 (drop (24 * k) c)) <$> seq 0 (length c / 24).

Lemma length_slots c : length (slots c) = (length c / 24)%nat.
Proof. unfold slots. by rewrite length_fmap, length_seq. Qed.

Lemma slots_lookup c k :
  slots c !! k = if decide (24 * k + 24 <= length c)%nat then Some (take 24 (drop (24 * k) c)) else None.
Proof.
  unfold slots. rewrite list_lookup_fmap. pose proof (Nat.div_mod_eq (length c) 24) as E.
  pose proof (Nat.mod_upper_bound (length c) 24 ltac:(lia)) as Hr. case_decide as D.
  - rewrite lookup_seq_lt by lia. done.
  - by rewrite lookup_seq_ge by lia.
Qed.

Lemma slot_length c k e : slots c !! k = Some e -> length e = 24%nat.
Proof. rewrite slots_lookup. case_decide; [|done]. intros [= <-]. rewrite length_take, length_drop. lia. Qed.

(** Writing one slot. *)
Lemma slots_write c k e :
  (24 * k + 24 <= length c)%nat -> length e = 24%nat -> slots (overwrite c (24 * Z.of_nat k) e) = <[k := e]> (slots c).
Proof.
  intros Hk He. assert (length (overwrite c (24 * Z.of_nat k) e) = length c) as Hl by (apply overwrite_length; lia).
  apply list_eq. intros j. rewrite slots_lookup, Hl.
  destruct (decide (j = k)) as [->|Hne].
  - rewrite decide_True by done. rewrite list_lookup_insert_eq.
    2:{ rewrite length_slots. apply Nat.div_le_lower_bound; lia. }
    f_equal. apply list_eq. intros i. destruct (decide (i < 24)%nat).
    + rewrite lookup_take_lt, lookup_drop, overwrite_lookup, decide_True by lia. f_equal. lia.
    + rewrite !lookup_ge_None_2; [done|lia|rewrite length_take; lia].
  - rewrite list_lookup_insert_ne by done. rewrite slots_lookup. case_decide; [|done]. f_equal.
    apply list_eq. intros i. destruct (decide (i < 24)%nat).
    + rewrite !lookup_take_lt, !lookup_drop by lia. rewrite overwrite_lookup, decide_False by lia. done.
    + rewrite !lookup_ge_None_2; [done|rewrite length_take; lia|rewrite length_take; lia].
Qed.

(** The first element that satisfies a predicate, with its index. *)
Fixpoint find_slot (p : dir_entry -> bool) (k : nat) (es : list dir_entry) : option (nat * dir_entry) :=
  match es with
  | [] => None
  | e :: es => if p e then Some (k, e) else find_slot p (S k) es
  end.

Lemma find_slot_spec p es : forall k,
  match find_slot p k es with
  | Some (i, e) => (k <= i)%nat /\ es !! (i - k)%nat = Some e /\ p e = true /\
      forall j e', (j < i - k)%nat -> es !! j = Some e' -> p e' = false
  | None => forall e, e ∈ es -> p e = false
  end.
Proof.
  induction es as [|e es IH]; intros k; cbn [find_slot]; [intros e He; by apply not_elem_of_nil in He|].
  destruct (p e) eqn:E.
  - split; [lia|]. rewrite Nat.sub_diag. split; [done|]. split; [done|]. intros; lia.
  - specialize (IH (S k)). destruct (find_slot p (S k) es) as [[i e1]|].
    + destruct IH as (H1 & H2 & H3 & H4). split; [lia|]. replace (i - k)%nat with (S (i - S k)) by lia.
      split; [done|]. split; [done|]. intros [|j] e' Hj; cbn; [by intros [= <-]|]. apply H4. lia.
    + intros e' [-> |He]%elem_of_cons; [done|]. by apply IH.
Qed.

Lemma find_slot_insert p es i e0 e : forall k,
  es !! i = Some e0 -> p e0 = false -> p e = false -> find_slot p k (<[i := e]> es) = find_slot p k es.
Proof.
  revert i. induction es as [|e' es IH]; intros i k Hi H0 H1; [done|]. destruct i as [|i]; cbn in *.
  - injection Hi as ->. by rewrite H0, H1.
  - destruct (p e'); [done|]. by apply IH.
Qed.

(** * Runs of the loops *)

Section directory.
Context (s0 : fs) (p : Z) (n : inode) (Hok : file_ok s0 p n).
Abbreviation c := (content s0 n).

Lemma read_entry_run s e ofs :
  same s0 s -> mallocs s = [] -> 0 <= ofs -> ofs < 2 ^ 30 ->
  exists s', read_entry p e ofs s =
      Ok (bool_decide (Z.to_nat ofs + 24 <= length c)%nat,
          take 24 (drop (Z.to_nat ofs) c) ++ drop (length (take 24 (drop (Z.to_nat ofs) c))) e, s') /\
    same s0 s' /\ mallocs s' = [].
Proof using Hok.
  intros Hs Hm H0 Hb. destruct (same_ok _ _ _ _ Hs Hok) as [Hok' Hc].
  destruct (read_at_ok s p n 24 ofs Hok' Hm H0 ltac:(lia) ltac:(lia)) as (s' & Hr & Hs' & Hm').
  exists s'. split; [|split; [by eapply same_trans|done]]. unfold read_entry, SIZEOF_ENTRY. rewrite Hc in Hr.
  rewrite (run_bind _ _ _ _ _ Hr). change (Z.to_nat 24) with 24%nat. unfold mret, st_ret. do 3 f_equal.
  rewrite length_take, length_drop. case_bool_decide; [apply Z.eqb_eq|apply Z.eqb_neq]; lia.
Qed.

(** What is left in the buffer when no entry is found is not more than a buffer. *)
Lemma scan_run pr fuel : forall k e s,
  same s0 s -> mallocs s = [] -> (24 * k <= length c)%nat -> (length c < 24 * (k + fuel))%nat -> length e = 24%nat ->
  exists s' e', scan_entries fuel p pr e (24 * Z.of_nat k) s =
      Ok (match find_slot pr k (drop k (slots c)) with
          | Some (i, ei) => (true, ei, 24 * Z.of_nat i)
          | None => (false, e', 24 * Zlen (slots c))
          end, s') /\ length e' = 24%nat /\ same s0 s' /\ mallocs s' = [].
Proof using Hok.
  pose proof (fo_length _ _ _ Hok) as HL. unfold BYTE_CAPACITY, NODE_CAPACITY, BLOCK_SECTOR_SIZE in HL.
  pose proof (content_length _ _ _ Hok) as HC.
  induction fuel as [|fuel IH]; intros k e s Hs Hm Hk Hf He; [lia|]. cbn [scan_entries].
  destruct (read_entry_run s e (24 * Z.of_nat k) Hs Hm ltac:(lia) ltac:(lia)) as (s1 & Hr & Hs1 & Hm1).
  rewrite (run_bind _ _ _ _ _ Hr). replace (Z.to_nat (24 * Z.of_nat k)) with (24 * k)%nat by lia.
  pose proof (slots_lookup c k) as Hsl. destruct (decide (24 * k + 24 <= length c)%nat) as [Hfull|Hfull];
    [rewrite bool_decide_true by done|rewrite bool_decide_false by done]; cbn [negb].
  - set (ek := take 24 (drop (24 * k) c)) in *.
    assert (length ek = 24%nat) as Hek by (unfold ek; rewrite length_take, length_drop; lia).
    assert (ek ++ drop (length ek) e = ek) as -> by (rewrite Hek, drop_ge by lia; apply app_nil_r).
    rewrite (drop_S (slots c) ek k Hsl). cbn [find_slot]. destruct (pr ek).
    + exists s1, e. done.
    + destruct (IH (S k) ek s1 Hs1 Hm1 ltac:(lia) ltac:(lia) Hek) as (s2 & e2 & H2 & He2 & Hs2 & Hm2).
      replace (24 * Z.of_nat k + SIZEOF_ENTRY) with (24 * Z.of_nat (S k)) by (unfold SIZEOF_ENTRY; lia).
      rewrite H2. by exists s2, e2.
  - assert (length (slots c) = k) as Hlen.
    { rewrite length_slots. symmetry. apply Nat.div_unique with (r := (length c - 24 * k)%nat); lia. }
    rewrite (drop_ge (slots c)) by lia. cbn [find_slot]. eexists s1, _. rewrite Hlen. split; [done|].
    split; [|done]. rewrite length_app, length_drop, length_take, length_drop. lia.
Qed.

Lemma entries_fuel_run s : same s0 s -> entries_fuel p s = Ok (S (length c), s).
Proof using Hok.
  intros Hs. destruct (same_ok _ _ _ _ Hs Hok) as [Hok' Hc]. unfold entries_fuel.
  rewrite (run_bind _ _ _ _ _ (get_inode_run _ _ _ Hok')). rewrite <- (content_length _ _ _ Hok). done.
Qed.
End directory.

(** * An open directory *)

(** [dp] is open on the inode [n] at [p], to which writing is allowed. *)
Record dir_ok (s : fs) (dp p : Z) (n : inode) : Prop := {
  do_file : file_ok s p n;
  do_null : dp <> NULL;
  do_dir : exists d, dirs s !! dp = Some d /\ d_inode d = p;
  do_malloc : mallocs s = [];
  do_write : deny_write_cnt n = 0
}.

(** What [lookup] is to find. *)
Definition is_entry (name : str) (e : dir_entry) : bool := e_in_use e && bool_decide (name = e_name e).

Definition find_name (name : str) (c : list Z) : option (nat * dir_entry) := find_slot (is_entry name) 0 (slots c).

Lemma same_dir s s' dp p n :
  dir_ok s dp p n -> same s s' -> mallocs s' = [] -> dir_ok s' dp p n /\ content s' n = content s n.
Proof.
  intros [H1 H2 H3 H4 H5] Hs Hm. destruct (same_ok _ _ _ _ Hs H1) as [H1' Hc]. split; [|done].
  destruct Hs as (b & _ & ->). split; done.
Qed.

Lemma lookup_run junk s dp p n name :
  dir_ok s dp p n -> path_isvalid name = true -> length junk = 24%nat ->
  exists s', lookup junk dp name s =
      Ok ((fun '(i, e) => (e, 24 * Z.of_nat i)) <$> find_name name (content s n), s') /\
    same s s' /\ mallocs s' = [].
Proof.
  intros [Hok Hn (d & Hd & <-) Hm _] Hv Hj. unfold lookup. rewrite Hv. cbn [negb].
  rewrite (run_bind _ _ _ tt s) by (apply run_assert; by apply Z.eqb_neq in Hn as ->).
  rewrite (run_bind _ _ _ d s) by (unfold get_dir; by rewrite Hd).
  rewrite (run_bind _ _ _ _ _ (entries_fuel_run s (d_inode d) n Hok s (same_refl s))).
  destruct (scan_run s (d_inode d) n Hok (is_entry name) (S (length (content s n))) 0 junk s) as (s' & e' & Hr & _ & Hs & Hm');
    [apply same_refl|done|lia|lia|done|].
  exists s'. split; [|done]. change (24 * Z.of_nat 0) with 0 in Hr. rewrite (run_bind _ _ _ _ _ Hr).
  rewrite drop_0. unfold find_name. by destruct (find_slot _ _ _) as [[i e]|].
Qed.

(** * New entries *)

Lemma cstring_app name bs : Forall (fun b => b <> 0) name -> cstring (name ++ 0 :: bs) = name.
Proof.
  induction 1 as [|b name Hb Hn IH]; [done|]. cbn. apply Z.eqb_neq in Hb as ->. by rewrite IH.
Qed.

Lemma byte_at_insert e i j v :
  (i < length e)%nat -> byte_at (<[i := v]> e) j = if decide (j = i) then v else byte_at e j.
Proof.
  intros Hi. unfold byte_at. rewrite !nth_lookup. case_decide as E.
  - subst. by rewrite list_lookup_insert_eq.
  - by rewrite list_lookup_insert_ne.
Qed.

Lemma byte_at_overwrite e o src j :
  (Z.to_nat o + length src <= length e)%nat -> 0 <= o -> ~ (Z.to_nat o <= j < Z.to_nat o + length src)%nat ->
  byte_at (overwrite e o src) j = byte_at e j.
Proof. intros H1 H2 H3. unfold byte_at. by rewrite !nth_lookup, overwrite_lookup, decide_False. Qed.

Definition new_entry (name : str) (sec : Z) (isdir : bool) (e : dir_entry) : dir_entry :=
  set_inode_sector sec (set_name name (set_e_is_dir isdir (set_in_use true e))).

Record entry_of (name : str) (sec : Z) (isdir : bool) (e : dir_entry) : Prop := {
  eo_length : length e = 24%nat;
  eo_in_use : e_in_use e = true;
  eo_is_dir : e_is_dir e = isdir;
  eo_name : e_name e = name;
  eo_sector : e_inode_sector e = u32 sec
}.

Lemma new_entry_ok name sec isdir e :
  length e = 24%nat -> Forall (fun b => b <> 0) name -> entry_of (take 14 name) sec isdir (new_entry name sec isdir e).
Proof.
  intros He Hn. unfold new_entry, set_name. change (Z.to_nat NAME_MAX) with 14%nat.
  set (e1 := set_e_is_dir isdir (set_in_use true e)).
  assert (length e1 = 24%nat) as H1 by (unfold e1, set_e_is_dir, set_in_use; by rewrite !length_insert).
  set (nm := take 14 name ++ [0]). assert (length nm <= 15)%nat as Hnm.
  { unfold nm. rewrite length_app, length_take. change (length [0]) with 1%nat. lia. }
  set (e2 := overwrite e1 4 nm). assert (length e2 = 24%nat) as H2 by (unfold e2; rewrite overwrite_length; lia).
  assert (length (word_bytes (u32 sec)) = 4%nat) as Hw by done.
  assert (forall j, (19 <= j)%nat -> byte_at (set_inode_sector sec e2) j = byte_at e1 j) as Hb.
  { intros j Hj. unfold set_inode_sector. rewrite byte_at_overwrite by (rewrite ?Hw; lia).
    unfold e2. rewrite byte_at_overwrite by lia. done. }
  split.
  - unfold set_inode_sector. rewrite overwrite_length by (rewrite ?Hw; lia). done.
  - unfold e_in_use. rewrite Hb by lia. unfold e1, set_e_is_dir, set_in_use.
    rewrite !byte_at_insert by (rewrite ?length_insert; lia). done.
  - unfold e_is_dir. rewrite Hb by lia. unfold e1, set_e_is_dir, set_in_use.
    rewrite byte_at_insert by (rewrite ?length_insert; lia). by destruct isdir.
  - unfold e_name. assert (drop 4 (set_inode_sector sec e2) = nm ++ drop (4 + length nm) e1) as ->.
    { unfold set_inode_sector, overwrite at 1. change (Z.to_nat 0) with O. rewrite take_0, Hw. cbn [app Nat.add].
      change 4%nat with (length (word_bytes (u32 sec))) at 1. rewrite drop_app_length. unfold e2, overwrite.
      change (Z.to_nat 4) with 4%nat. rewrite drop_app_length'; [done|]. rewrite length_take. lia. }
    unfold nm. rewrite <- app_assoc. apply cstring_app. by apply Forall_take.
  - unfold e_inode_sector, set_inode_sector, overwrite. change (Z.to_nat 0) with O. rewrite take_0.
    apply (word_at_app []). apply (uwrap_range 32). lia.
Qed.

Lemma valid_nonzero name : path_isvalid name = true -> Forall (fun b => b <> 0) name.
Proof.
  intros [_ H]%andb_true_iff. rewrite forallb_forall in H. apply Forall_forall. intros b Hb ->.
  by specialize (H 0 (proj1 (list_elem_of_In _ _) Hb)).
Qed.

(** The first free slot. *)
Definition find_free (c : list Z) : option (nat * dir_entry) := find_slot (fun e => negb (e_in_use e)) 0 (slots c).

(** Entering a name when there is a free slot. *)
Lemma add_entry_run junk s dp p n name sec isdir i e0 :
  dir_ok s dp p n -> path_isvalid name = true -> length junk = 24%nat ->
  find_name name (content s n) = None -> find_free (content s n) = Some (i, e0) ->
  exists s', add_entry junk dp name sec isdir s = Ok (true, s') /\ dir_ok s' dp p n /\ wrote n s s' /\
    slots (content s' n) = <[i := new_entry name sec isdir e0]> (slots (content s n)).
Proof.
  intros Hd Hv Hj Hno Hfree. unfold add_entry.
  destruct (lookup_run junk s dp p n name Hd Hv Hj) as (s1 & Hl & Hs1 & Hm1). rewrite Hno in Hl.
  rewrite (run_bind _ _ _ _ _ Hl). cbn [fmap option_fmap option_map].
  destruct (same_dir _ _ _ _ _ Hd Hs1 Hm1) as [Hd1 Hc1]. pose proof Hd1 as [Hok1 _ (d & Hdd & Edd) _ Hwr].
  rewrite (run_bind _ _ _ d s1) by (unfold get_dir; by rewrite Hdd). rewrite Edd.
  rewrite (run_bind _ _ _ _ _ (entries_fuel_run s1 p n Hok1 s1 (same_refl s1))).
  destruct (scan_run s1 p n Hok1 (fun e => negb (e_in_use e)) (S (length (content s1 n))) 0 junk s1) as (s2 & e' & Hr & _ & Hs2 & Hm2);
    [apply same_refl|done|lia|lia|done|].
  rewrite drop_0, Hc1 in Hr. unfold find_free in Hfree. rewrite Hfree in Hr. change (24 * Z.of_nat 0) with 0 in Hr.
  rewrite Hc1, (run_bind _ _ _ _ _ Hr).
  destruct (same_dir _ _ _ _ _ Hd1 Hs2 Hm2) as [Hd2 Hc2]. rewrite Hc1 in Hc2. pose proof (do_file _ _ _ _ Hd2) as Hok2.
  pose proof (find_slot_spec (fun e => negb (e_in_use e)) (slots (content s n)) 0) as Hsp. rewrite Hfree in Hsp.
  destruct Hsp as (_ & Hi & _). rewrite Nat.sub_0_r in Hi. pose proof (slot_length _ _ _ Hi) as He0.
  rewrite slots_lookup in Hi. destruct (decide (24 * i + 24 <= length (content s n))%nat) as [Hfit|]; [|done].
  fold (new_entry name sec isdir e0). set (en := new_entry name sec isdir e0).
  assert (length en = 24%nat) as Hen by (by eapply eo_length, new_entry_ok; [|apply valid_nonzero]).
  pose proof (content_length _ _ _ Hok2) as HC2. rewrite Hc2 in HC2.
  destruct (write_at_ok s2 p n en (24 * Z.of_nat i) Hok2 Hm2 Hwr ltac:(lia)) as (s3 & Hw & Hok3 & Hwr3 & Hm3 & Hc3).
  { pose proof (fo_length _ _ _ Hok2). lia. }
  exists s3. rewrite (run_bind _ _ _ _ _ Hw). split; [by rewrite Hen|].
  assert (dirs s3 = dirs s2) as Hdirs by (by destruct Hwr3 as (dk & b & -> & _)).
  split; [|split].
  - destruct Hd2 as [D1 D2 D3 D4 D5]. split; [done|done|by rewrite Hdirs|done|done].
  - eapply wrote_trans; [|done]. eapply wrote_trans; by apply same_wrote.
  - rewrite Hc3, Hc2. by apply slots_write.
Qed.

(** * Opening inodes *)

(** Memory that is handed out next is free, and open inodes are in memory. *)
Record heap_ok (s : fs) : Prop := {
  ho_brk : 0 < brk s;
  ho_fresh : forall q, is_Some (inodes s !! q) -> q < brk s;
  ho_open : forall q, q ∈ open_inodes s -> q <> NULL /\ is_Some (inodes s !! q)
}.

Lemma same_heap s s' : heap_ok s -> same s s' -> heap_ok s'.
Proof.
  intros [H1 H2 H3] (b & Hb & ->). split; cbn; [lia| |done]. intros q Hq. specialize (H2 q Hq). lia.
Qed.

(** The inode at [sec] is in memory and that of a directory, so that opening it once
    more makes it a directory that somebody else has open. *)
Definition open_elsewhere (s : fs) (sec : Z) : bool :=
  match List.find (fun p => match inodes s !! p with Some n => sector n =? sec | None => false end) (open_inodes s) with
  | Some p =>
      match inodes s !! p with
      | Some n => ptr_isdir (self (data n)) && (1 <? s32 (open_cnt n + 1))
      | None => false
      end
  | None => false
  end.

Lemma inode_open_ok s sec bs :
  heap_ok s -> mallocs s = [] -> disk s !! sec = Some bs ->
  exists q nq s', inode_open sec s = Ok (q, s') /\ q <> NULL /\ sector nq = sec /\
    (ptr_isdir (self (data nq)) && (1 <? open_cnt nq)) = open_elsewhere s sec /\
    (forall n0, inodes s !! q = Some n0 -> sector n0 = sec) /\
    inodes s' = <[q := nq]> (inodes s) /\ disk s' = disk s /\ dirs s' = dirs s /\ mallocs s' = [].
Proof.
  intros [Hb0 Hfr Ho] Hm Hd. assert (brk s <> NULL) as Hb by (unfold NULL; lia).
  unfold inode_open, open_elsewhere. rewrite (run_bind _ _ _ (open_inodes s) s) by done.
  rewrite (run_bind _ _ _ (inodes s) s) by done.
  destruct (List.find _ (open_inodes s)) as [q|] eqn:E.
  - apply find_some in E as [Hq E]. apply list_elem_of_In, Ho in Hq as [Hqn [nq Hnq]]. rewrite Hnq in E. apply Z.eqb_eq in E.
    rewrite Hnq. unfold inode_reopen. apply Z.eqb_neq in Hqn as Hqn'. rewrite Hqn'.
    eexists q, (set_open_cnt (s32 (open_cnt nq + 1)) nq), _. split.
    + rewrite (run_bind _ _ _ tt (set_inodes (<[q := set_open_cnt (s32 (open_cnt nq + 1)) nq]> (inodes s)) s)).
      * done.
      * unfold upd_inode. by rewrite Hnq.
    + split; [done|]. split; [done|]. split; [done|]. split; [|done]. intros n0. rewrite Hnq. by intros [= <-].
  - unfold allocate_inode. rewrite (run_bind _ _ _ (brk s) (set_inodes (<[brk s :=
      {| sector := 0; open_cnt := 0; removed := false; deny_write_cnt := 0; is_dir := false;
         data := {| file_length := 0; prev_length := 0; node_length := 0; self := ptr_create 0;
                    magic := INODE_MAGIC; doubleptr := 0; blockptrs := replicate 244 0 |}; next := NULL |}]> (inodes s)) (set_brk (brk s + 4096) s))).
    2:{ rewrite (run_bind _ _ _ (Some 0) s) by done.
        rewrite (run_bind _ _ _ (Some (brk s, (replicate 244 0, false))) (set_brk (brk s + 4096) s)).
        - done.
        - unfold alloc. by rewrite Hm. }
    apply Z.eqb_neq in Hb as Hb'. rewrite Hb'. set (n0 := {| sector := 0 |}). set (s1 := set_inodes _ _).
    set (s2 := set_open_inodes (brk s :: open_inodes s1) s1). rewrite (run_bind _ _ _ tt s2) by done.
    set (n1 := set_next NULL (set_removed false (set_deny_write_cnt 0 (set_open_cnt 1 (set_sector sec n0))))).
    set (s3 := set_inodes (<[brk s := n1]> (inodes s2)) s2).
    rewrite (run_bind _ _ _ tt s3).
    2:{ unfold upd_inode. cbn [inodes s2 s1 set_open_inodes set_inodes]. by rewrite lookup_insert_eq. }
    rewrite (run_bind _ _ _ bs s3) by (unfold block_read; cbn [disk s3 s2 s1 set_open_inodes set_inodes set_brk]; by rewrite Hd).
    set (n2 := set_data (decode_inode bs) n1). set (s4 := set_inodes (<[brk s := n2]> (inodes s3)) s3).
    rewrite (run_bind _ _ _ tt s4).
    2:{ unfold upd_inode. cbn [inodes s3 set_inodes]. by rewrite lookup_insert_eq. }
    exists (brk s), n2, s4. split; [done|]. split; [done|]. split; [done|]. split; [apply andb_false_r|].
    split; [intros n' Hn'; specialize (Hfr (brk s) (ex_intro _ _ Hn')); lia|]. split; [|done].
    cbn [inodes s4 s3 s2 s1 set_inodes set_open_inodes]. by rewrite !insert_insert_eq.
Qed.

(** Another inode in memory does not matter to a file. *)
Lemma file_ok_other s s' p n q nq :
  file_ok s p n -> q <> p -> inodes s' = <[q := nq]> (inodes s) -> disk s' = disk s ->
  file_ok s' p n /\ content s' n = content s n.
Proof.
  intros [H1 H2 H3 H4 H5 H6 H7 H8] Hq Hi Hd. split.
  - split; try done; [by rewrite Hi, lookup_insert_ne|]. by rewrite Hd.
  - unfold content, sectors. by rewrite Hd.
Qed.

(** Erasing an entry: done, or refused for an open directory. *)
Lemma remove_entry_run junk s dp p n name i e bs :
  dir_ok s dp p n -> heap_ok s -> path_isvalid name = true -> length junk = 24%nat ->
  find_name name (content s n) = Some (i, e) -> e_inode_sector e <> sector n -> disk s !! e_inode_sector e = Some bs ->
  exists q nq s', remove_entry junk dp name s = Ok ((negb (open_elsewhere s (e_inode_sector e)), q), s') /\
    q <> p /\ inodes s' !! q = Some nq /\ sector nq = e_inode_sector e /\ dir_ok s' dp p n /\
    if open_elsewhere s (e_inode_sector e) then content s' n = content s n
    else removed nq = true /\ slots (content s' n) = <[i := set_in_use false e]> (slots (content s n)).
Proof.
  intros Hd Hh Hv Hj Hfind Hsec Hdisk. unfold remove_entry.
  destruct (lookup_run junk s dp p n name Hd Hv Hj) as (s1 & Hl & Hs1 & Hm1). rewrite Hfind in Hl. cbn in Hl.
  rewrite (run_bind _ _ _ _ _ Hl). destruct (same_dir _ _ _ _ _ Hd Hs1 Hm1) as [Hd1 Hc1].
  assert (disk s1 !! e_inode_sector e = Some bs) as Hdisk1 by (by destruct Hs1 as (b & _ & ->)).
  destruct (inode_open_ok s1 _ bs (same_heap _ _ Hh Hs1) Hm1 Hdisk1) as (q & nq & s2 & Ho & Hqn & Hqs & Helse & Hold & Hi2 & Hk2 & Hdr2 & Hm2).
  rewrite (run_bind _ _ _ _ _ Ho). apply Z.eqb_neq in Hqn as Hqn'. rewrite Hqn'.
  pose proof Hd1 as [Hok1 Hn1 (d & Hdd & Edd) _ Hwr].
  assert (inodes s2 !! q = Some nq) as Hq2 by (by rewrite Hi2, lookup_insert_eq).
  assert (q <> p) as Hqp.
  { intros ->. apply Hsec. symmetry. apply Hold, (fo_inode _ _ _ Hok1). }
  destruct (file_ok_other s1 s2 p n q nq Hok1 Hqp Hi2 Hk2) as [Hok2 Hc2].
  assert (get_inode q s2 = Ok (nq, s2)) as Hget by (unfold get_inode; by rewrite Hq2).
  rewrite (run_bind _ _ _ (ptr_isdir (self (data nq))) s2) by (unfold inode_is_dir; by rewrite (run_bind _ _ _ _ _ Hget)).
  rewrite (run_bind _ _ _ _ _ Hget).
  assert (dir_ok s2 dp p n) as Hd2 by (split; [done|done|rewrite Hdr2; by exists d|done|done]).
  assert (open_elsewhere s1 (e_inode_sector e) = open_elsewhere s (e_inode_sector e)) as Hel
    by (by destruct Hs1 as (b & _ & ->)).
  rewrite Helse, Hel. destruct (open_elsewhere s (e_inode_sector e)) eqn:Eopen.
  - exists q, nq, s2. split_and!; try done. by rewrite Hc2, Hc1.
  - rewrite (run_bind _ _ _ d s2) by (unfold get_dir; by rewrite Hdr2, Hdd). rewrite Edd.
    pose proof (find_slot_spec (is_entry name) (slots (content s n)) 0) as Hsp. unfold find_name in Hfind. rewrite Hfind in Hsp.
    destruct Hsp as (_ & Hi & _). rewrite Nat.sub_0_r in Hi. pose proof (slot_length _ _ _ Hi) as He0.
    rewrite slots_lookup in Hi. destruct (decide (24 * i + 24 <= length (content s n))%nat) as [Hfit|]; [|done].
    assert (length (set_in_use false e) = 24%nat) as Hen by (unfold set_in_use; by rewrite length_insert).
    pose proof (content_length _ _ _ Hok2) as HC2. rewrite Hc2, Hc1 in HC2.
    destruct (write_at_ok s2 p n (set_in_use false e) (24 * Z.of_nat i) Hok2 Hm2 Hwr ltac:(lia)) as (s3 & Hw & Hok3 & Hwr3 & Hm3 & Hc3).
    { pose proof (fo_length _ _ _ Hok2). lia. }
    rewrite (run_bind _ _ _ _ _ Hw), Hen. change (negb (Z.of_nat 24 =? SIZEOF_ENTRY)) with false.
    assert (dirs s3 = dirs s2 /\ inodes s3 = inodes s2) as [Hdirs Hino] by (by destruct Hwr3 as (dk & b & -> & _)).
    assert (inodes s3 !! q = Some nq) as Hq3 by (by rewrite Hino).
    set (s4 := set_inodes (<[q := set_removed true nq]> (inodes s3)) s3).
    assert (inode_remove q s3 = Ok (tt, s4)) as Hrm by (unfold inode_remove, upd_inode; by rewrite Hq3).
    rewrite (run_bind _ _ _ _ _ Hrm).
    destruct (file_ok_other s3 s4 p n q (set_removed true nq) Hok3 Hqp eq_refl eq_refl) as [Hok4 Hc4].
    exists q, (set_removed true nq), s4. split; [done|]. split; [done|]. split; [cbn; by rewrite lookup_insert_eq|].
    split; [done|]. split; [|split; [done|]].
    + split; [done|done|cbn; rewrite Hdirs, Hdr2; by exists d|done|done].
    + rewrite Hc4, Hc3, Hc2, Hc1. by apply slots_write.
Qed.

(** * A directory as a map of names *)

(** The inode a name stands for, and whether it is a directory. *)
Definition binding (name : str) (c : list Z) : option (Z * bool) :=
  (fun '(_, e) => (e_inode_sector e, e_is_dir e)) <$> find_name name c.

(** No name is used twice. *)
Definition unique (es : list dir_entry) : Prop :=
  forall i j ei ej, es !! i = Some ei -> es !! j = Some ej -> e_in_use ei = true -> e_in_use ej = true ->
    e_name ei = e_name ej -> i = j.

Lemma find_slot_new p es i e : forall k,
  (forall e', e' ∈ es -> p e' = false) -> p e = true -> (i < length es)%nat ->
  find_slot p k (<[i := e]> es) = Some ((k + i)%nat, e).
Proof.
  revert i. induction es as [|e0 es IH]; intros i k Hno He Hi; cbn in Hi; [lia|]. destruct i as [|i]; cbn.
  - rewrite He. by rewrite Nat.add_0_r.
  - rewrite Hno by apply list_elem_of_here. rewrite IH; [f_equal; f_equal; lia|intros e' H; apply Hno; by apply list_elem_of_further|done|lia].
Qed.

Lemma find_slot_none p es k : (forall e, e ∈ es -> p e = false) -> find_slot p k es = None.
Proof.
  intros H. pose proof (find_slot_spec p es k) as Hs. destruct (find_slot p k es) as [[i e]|]; [|done].
  destruct Hs as (_ & Hi & He & _). rewrite H in He; [done|]. by eapply list_elem_of_lookup_2.
Qed.

Lemma is_entry_true name e : is_entry name e = true <-> e_in_use e = true /\ e_name e = name.
Proof. unfold is_entry. rewrite andb_true_iff, bool_decide_eq_true. naive_solver. Qed.

Lemma is_entry_other name name' e : e_name e = name -> name' <> name -> is_entry name' e = false.
Proof. intros <- Hne. unfold is_entry. rewrite bool_decide_false by done. apply andb_false_r. Qed.

Lemma is_entry_free name e : e_in_use e = false -> is_entry name e = false.
Proof. intros H. unfold is_entry. by rewrite H. Qed.

(** The map after a slot has been filled, and after one has been freed. *)
Lemma binding_add c c' name sec isdir i e0 e :
  find_name name c = None -> find_free c = Some (i, e0) -> entry_of name sec isdir e -> unique (slots c) ->
  slots c' = <[i := e]> (slots c) ->
  unique (slots c') /\
  forall name', binding name' c' = if decide (name' = name) then Some (u32 sec, isdir) else binding name' c.
Proof.
  intros Hno Hfree [_ E2 E3 E4 E5] Hu Hc. unfold binding, find_name in *. rewrite Hc.
  pose proof (find_slot_spec (is_entry name) (slots c) 0) as Hnone. rewrite Hno in Hnone.
  pose proof (find_slot_spec (fun e => negb (e_in_use e)) (slots c) 0) as Hsp. unfold find_free in Hfree. rewrite Hfree in Hsp.
  destruct Hsp as (_ & Hi & Hfr & _). rewrite Nat.sub_0_r in Hi. apply negb_true_iff in Hfr.
  pose proof (lookup_lt_Some _ _ _ Hi) as Hil. split.
  - assert (forall k ek, slots c !! k = Some ek -> e_in_use ek = true -> e_name ek <> name) as Hother.
    { intros k ek Hk Hek E. specialize (Hnone ek (list_elem_of_lookup_2 _ _ _ Hk)).
      assert (is_entry name ek = true) by (by apply is_entry_true). congruence. }
    intros a b ea eb Ha Hb Hae Hbe En. destruct (decide (a = i)) as [->|Hai], (decide (b = i)) as [->|Hbi]; [done|..].
    + rewrite list_lookup_insert_eq in Ha by done. injection Ha as <-. rewrite list_lookup_insert_ne in Hb by done.
      destruct (Hother b eb Hb Hbe). congruence.
    + rewrite list_lookup_insert_eq in Hb by done. injection Hb as <-. rewrite list_lookup_insert_ne in Ha by done.
      destruct (Hother a ea Ha Hae). congruence.
    + rewrite !list_lookup_insert_ne in Ha, Hb by done. by apply (Hu a b ea eb).
  - intros name'. case_decide as En.
    + rewrite En. rewrite (find_slot_new _ _ _ e) by (done || by apply is_entry_true). cbn. by rewrite E3, E5.
    + rewrite (find_slot_insert _ _ i e0 e); [done|done|by apply is_entry_free|by eapply is_entry_other].
Qed.

Lemma free_entry e : length e = 24%nat -> e_in_use (set_in_use false e) = false.
Proof. intros He. unfold e_in_use, set_in_use. by rewrite byte_at_insert by lia. Qed.

Lemma binding_remove c c' name i e :
  find_name name c = Some (i, e) -> unique (slots c) -> slots c' = <[i := set_in_use false e]> (slots c) ->
  unique (slots c') /\ forall name', binding name' c' = if decide (name' = name) then None else binding name' c.
Proof.
  intros Hfind Hu Hc. unfold binding, find_name in *. rewrite Hc.
  pose proof (find_slot_spec (is_entry name) (slots c) 0) as Hsp. rewrite Hfind in Hsp.
  destruct Hsp as (_ & Hi & He & _). rewrite Nat.sub_0_r in Hi. apply is_entry_true in He as [He1 He2].
  pose proof (slot_length _ _ _ Hi) as Hel. pose proof (lookup_lt_Some _ _ _ Hi) as Hil. pose proof (free_entry e Hel) as Hfree.
  assert (forall a ea, <[i := set_in_use false e]> (slots c) !! a = Some ea -> e_in_use ea = true ->
    a <> i /\ slots c !! a = Some ea) as Hold.
  { intros a ea Ha Hae. destruct (decide (a = i)) as [->|Hai].
    - rewrite list_lookup_insert_eq in Ha by done. injection Ha as <-. congruence.
    - rewrite list_lookup_insert_ne in Ha by done. done. }
  split.
  - intros a b ea eb Ha Hb Hae Hbe. apply (Hu a b ea eb); [by apply Hold|by apply Hold|done|done].
  - intros name'. case_decide as En.
    + subst. rewrite find_slot_none; [done|]. intros ea [a Ha]%list_elem_of_lookup.
      destruct (is_entry (e_name e) ea) eqn:Eis; [|done]. apply is_entry_true in Eis as [Hea Een].
      destruct (Hold a ea Ha Hea) as [Hai Ha']. destruct Hai. by apply (Hu a i ea e).
    + rewrite (find_slot_insert _ _ i e); [done|done|by eapply is_entry_other|by apply is_entry_free].
Qed.

(** C17: An open directory whose names are unique implements a map from names to
    inodes.  [lookup] reads the map.  Adding a name that is bound returns false and
    changes nothing; adding a new name of at most 14 characters when a slot is free
    returns true and binds exactly this name.  Erasing a name that is not bound
    returns false.  Erasing a bound name returns true, unbinds exactly this name and
    marks its inode as removed, unless the inode is that of a directory that is open
    already: then it returns false and the directory keeps its entries.  Names stay
    unique.  (No allocation fails, and the entries fit one inode.) *)
Theorem directory_spec junk s dp p n name :
  dir_ok s dp p n -> unique (slots (content s n)) -> path_isvalid name = true -> length junk = 24%nat ->
  (exists r s', lookup junk dp name s = Ok (r, s') /\ same s s' /\
     binding name (content s n) = (fun '(e, _) => (e_inode_sector e, e_is_dir e)) <$> r) /\
  (forall sec isdir, binding name (content s n) <> None ->
     exists s', add_entry junk dp name sec isdir s = Ok (false, s') /\ same s s') /\
  (forall sec isdir, binding name (content s n) = None -> find_free (content s n) <> None -> Zlen name <= NAME_MAX ->
     exists s', add_entry junk dp name sec isdir s = Ok (true, s') /\ dir_ok s' dp p n /\ unique (slots (content s' n)) /\
       forall name', binding name' (content s' n) =
         if decide (name' = name) then Some (u32 sec, isdir) else binding name' (content s n)) /\
  (forall sec isdir bs, heap_ok s -> binding name (content s n) = Some (sec, isdir) -> sec <> sector n -> disk s !! sec = Some bs ->
     exists q nq s', remove_entry junk dp name s = Ok ((negb (open_elsewhere s sec), q), s') /\ dir_ok s' dp p n /\
       inodes s' !! q = Some nq /\ sector nq = sec /\
       if open_elsewhere s sec then content s' n = content s n
       else removed nq = true /\ unique (slots (content s' n)) /\
         forall name', binding name' (content s' n) = if decide (name' = name) then None else binding name' (content s n)) /\
  (binding name (content s n) = None -> exists s', remove_entry junk dp name s = Ok ((false, NULL), s') /\ same s s').
Proof.
  intros Hd Hu Hv Hj. destruct (lookup_run junk s dp p n name Hd Hv Hj) as (s1 & Hl & Hs1 & Hm1).
  split; [|split; [|split; [|split]]].
  - eexists _, s1. split; [done|]. split; [done|]. unfold binding. by destruct (find_name name (content s n)) as [[i e]|].
  - intros sec isdir Hb. exists s1. split; [|done]. unfold add_entry. rewrite (run_bind _ _ _ _ _ Hl).
    unfold binding in Hb. by destruct (find_name name (content s n)) as [[i e]|].
  - intros sec isdir Hb Hfree Hlen. destruct (find_free (content s n)) as [[i e0]|] eqn:Ef; [|done].
    assert (find_name name (content s n) = None) as Hno by (unfold binding in Hb; by destruct (find_name name (content s n)) as [[]|]).
    destruct (add_entry_run junk s dp p n name sec isdir i e0 Hd Hv Hj Hno Ef) as (s' & Hr & Hd' & _ & Hs').
    exists s'. split; [done|]. split; [done|]. eapply binding_add; [done|done| |done|done].
    pose proof (find_slot_spec (fun e => negb (e_in_use e)) (slots (content s n)) 0) as Hsp. unfold find_free in Ef. rewrite Ef in Hsp.
    destruct Hsp as (_ & Hi & _). rewrite <- (take_ge name 14) at 1; [|unfold NAME_MAX in Hlen; lia].
    apply new_entry_ok; [by eapply slot_length|by apply valid_nonzero].
  - intros sec isdir bs Hh Hb Hne Hdisk. unfold binding in Hb.
    destruct (find_name name (content s n)) as [[i e]|] eqn:Ef; [|done]. injection Hb as <- <-.
    destruct (remove_entry_run junk s dp p n name i e bs Hd Hh Hv Hj Ef Hne Hdisk)
      as (q & nq & s' & Hr & Hq & Hnq & Hsq & Hd' & Hres).
    exists q, nq, s'. do 4 (split; [done|]). destruct (open_elsewhere s (e_inode_sector e)); [done|].
    destruct Hres as [Hrm Hres]. split; [done|]. by eapply binding_remove.
  - intros Hb. exists s1. split; [|done]. unfold remove_entry. rewrite (run_bind _ _ _ _ _ Hl).
    unfold binding in Hb. by destruct (find_name name (content s n)) as [[i e]|].
Qed.

(** An empty directory of 600 bytes. *)
Definition demo_dir_fs : fs := set_dirs {[ 12288 := mkDir 4096 0 ]} demo_fs.

Lemma demo_dir_ok : dir_ok demo_dir_fs 12288 4096 demo_node.
Proof.
  split; [|done| |done|done].
  - destruct demo_file_ok as [H1 H2 H3 H4 H5 H6 H7 H8]. by split.
  - exists (mkDir 4096 0). by split; vm_compute.
Qed.

Lemma demo_dir_unique : unique (slots (content demo_dir_fs demo_node)).
Proof.
  assert (forallb (fun e => negb (e_in_use e)) (slots (content demo_dir_fs demo_node)) = true) as H by (by vm_compute).
  rewrite forallb_forall in H. intros i j ei ej Hi _ Hu. exfalso.
  specialize (H ei (proj1 (list_elem_of_In _ _) (list_elem_of_lookup_2 _ _ _ Hi))). by rewrite Hu in H.
Qed.

Lemma directory_spec_witness :
  exists s', add_entry (replicate 24 170) 12288 [97; 98] 7 true demo_dir_fs = Ok (true, s') /\
    dir_ok s' 12288 4096 demo_node /\ binding [97; 98] (content s' demo_node) = Some (7, true).
Proof.
  destruct (directory_spec (replicate 24 170) demo_dir_fs 12288 4096 demo_node [97; 98]) as (_ & _ & H & _).
  - apply demo_dir_ok.
  - apply demo_dir_unique.
  - by vm_compute.
  - by vm_compute.
  - destruct (H 7 true) as (s' & H1 & H2 & _ & H3).
    + by vm_compute.
    + assert ((match find_free (content demo_dir_fs demo_node) with Some _ => true | None => false end) = true) as Hf by (by vm_compute).
      intros E. rewrite E in Hf. discriminate Hf.
    + by vm_compute.
    + exists s'. split; [exact H1|]. split; [exact H2|]. rewrite H3, decide_True by reflexivity. reflexivity.
Defined.

(** A name of more than 14 characters is cut: the caller is told that it was added,
    but it is not found. *)
Theorem long_name_lost junk s dp p n name sec isdir :
  dir_ok s dp p n -> path_isvalid name = true -> length junk = 24%nat -> NAME_MAX < Zlen name ->
  binding name (content s n) = None -> find_free (content s n) <> None ->
  exists s', add_entry junk dp name sec isdir s = Ok (true, s') /\ binding name (content s' n) = None.
Proof.
  intros Hd Hv Hj Hlen Hb Hfree. destruct (find_free (content s n)) as [[i e0]|] eqn:Ef; [|done].
  assert (find_name name (content s n) = None) as Hno by (unfold binding in Hb; by destruct (find_name name (content s n)) as [[]|]).
  destruct (add_entry_run junk s dp p n name sec isdir i e0 Hd Hv Hj Hno Ef) as (s' & Hr & _ & _ & Hs').
  exists s'. split; [done|]. unfold binding, find_name in *. rewrite Hs'.
  pose proof (find_slot_spec (fun e => negb (e_in_use e)) (slots (content s n)) 0) as Hsp. unfold find_free in Ef. rewrite Ef in Hsp.
  destruct Hsp as (_ & Hi & Hfr & _). rewrite Nat.sub_0_r in Hi. apply negb_true_iff in Hfr.
  destruct (new_entry_ok name sec isdir e0) as [_ _ _ E4 _]; [by eapply slot_length|by apply valid_nonzero|].
  rewrite (find_slot_insert _ _ i e0); [by rewrite Hno|done|by apply is_entry_free|].
  eapply is_entry_other; [done|]. intros E. rewrite E, length_take in Hlen. unfold NAME_MAX in Hlen. lia.
Qed.

(** * Listing *)



Lemma readdir_run p n dp k fuel : forall s e d,
  dir_ok s dp p n -> dirs s !! dp = Some d -> d_pos d = 24 * Z.of_nat k -> length e = 24%nat ->
  (24 * k <= length (content s n))%nat -> (length (content s n) < 24 * (k + fuel))%nat ->
  exists s' d', readdir_loop fuel dp e s =
      Ok ((fun '(_, e) => take 14 (e_name e)) <$> find_slot e_in_use k (drop k (slots (content s n))), s') /\
    dir_ok s' dp p n /\ content s' n = content s n /\ dirs s' !! dp = Some d' /\
    d_pos d' = 24 * match find_slot e_in_use k (drop k (slots (content s n))) with
                    | Some (i, _) => Z.of_nat (S i)
                    | None => Zlen (slots (content s n))
                    end.
Proof using.
  revert k. induction fuel as [|fuel IH]; intros k s e d Hd Hdd Hpos He Hk Hf; [lia|]. cbn [readdir_loop].
  pose proof Hd as [Hok Hn (d0 & Hd0 & Ed0) Hm Hwr]. assert (d0 = d) as -> by congruence.
  rewrite (run_bind _ _ _ d s) by (unfold get_dir; by rewrite Hdd). rewrite Ed0.
  pose proof (fo_length _ _ _ Hok) as HL. unfold BYTE_CAPACITY, NODE_CAPACITY, BLOCK_SECTOR_SIZE in HL.
  pose proof (content_length _ _ _ Hok) as HC.
  destruct (read_entry_run s p n Hok s e (d_pos d) (same_refl s) Hm) as (s1 & Hr & Hs1 & Hm1); [lia|lia|].
  rewrite (run_bind _ _ _ _ _ Hr), Hpos. replace (Z.to_nat (24 * Z.of_nat k)) with (24 * k)%nat by lia.
  destruct (same_dir _ _ _ _ _ Hd Hs1 Hm1) as [Hd1 Hc1].
  assert (dirs s1 !! dp = Some d) as Hdd1 by (by destruct Hs1 as (b & _ & ->)).
  pose proof (slots_lookup (content s n) k) as Hsl. destruct (decide (24 * k + 24 <= length (content s n))%nat) as [Hfull|Hfull];
    [rewrite bool_decide_true by done|rewrite bool_decide_false by done]; cbn [negb].
  - set (ek := take 24 (drop (24 * k) (content s n))) in *.
    assert (length ek = 24%nat) as Hek by (unfold ek; rewrite length_take, length_drop; lia).
    assert (ek ++ drop (length ek) e = ek) as -> by (rewrite Hek, drop_ge by lia; apply app_nil_r).
    assert (s32 (24 * Z.of_nat k + SIZEOF_ENTRY) = 24 * Z.of_nat (S k)) as Ep.
    { unfold SIZEOF_ENTRY. rewrite (swrap_id 32 ltac:(lia)); [lia|]. unfold in_s. lia. }
    rewrite Ep. set (d1 := set_d_pos (24 * Z.of_nat (S k)) d). set (s2 := set_dirs (<[dp := d1]> (dirs s1)) s1).
    rewrite (run_bind _ _ _ tt s2) by (unfold upd_dir; by rewrite Hdd1).
    assert (dir_ok s2 dp p n) as Hd2.
    { destruct Hd1 as [[F1 F2 F3 F4 F5 F6 F7 F8] D2 D3 D4 D5]. split; [by split|done| |done|done].
      exists d1. cbn. by rewrite lookup_insert_eq. }
    assert (content s2 n = content s n) as Hc2 by (by rewrite <- Hc1).
    assert (dirs s2 !! dp = Some d1) as Hdd2 by (cbn; by rewrite lookup_insert_eq).
    rewrite (drop_S (slots (content s n)) ek k Hsl). cbn [find_slot]. destruct (e_in_use ek).
    + exists s2, d1. done.
    + destruct (IH (S k) s2 ek d1 Hd2 Hdd2 eq_refl Hek) as (s3 & d3 & H3 & Hd3 & Hc3 & Hdd3 & Hp3); [rewrite Hc2; lia..|].
      rewrite Hc2 in *. exists s3, d3. done.
  - assert (length (slots (content s n)) = k) as Hlen.
    { rewrite length_slots. symmetry. apply Nat.div_unique with (r := (length (content s n) - 24 * k)%nat); lia. }
    rewrite (drop_ge (slots (content s n))) by lia. cbn [find_slot]. exists s1, d. rewrite Hlen. done.
Qed.

(** Calling [dir_readdir] until it returns false. *)
Fixpoint list_dir (fuel : nat) (junk : list Z) (dp : Z) : fM (list str) :=
  match fuel with
  | O => st_fail EFuel
  | S fuel =>
      r ← dir_readdir junk dp;
      match r with
      | Some name => l ← list_dir fuel junk dp; mret (name :: l)
      | None => mret []
      end
  end.

Definition names_from (k : nat) (c : list Z) : list str :=
  (fun e => take 14 (e_name e)) <$> filter (fun e => e_in_use e = true) (drop k (slots c)).

Lemma names_step k c :
  names_from k c = match find_slot e_in_use k (drop k (slots c)) with
                   | Some (i, e) => take 14 (e_name e) :: names_from (S i) c
                   | None => []
                   end.
Proof.
  unfold names_from. remember (drop k (slots c)) as es eqn:E. revert k E. induction es as [|e es IH]; intros k E; [done|].
  cbn [find_slot]. assert (es = drop (S k) (slots c)) as E'.
  { rewrite <- Nat.add_1_r, <- drop_drop, <- E. done. }
  destruct (e_in_use e) eqn:Eu.
  - rewrite filter_cons_True by done. cbn [fmap list_fmap]. by rewrite <- E'.
  - rewrite filter_cons_False by (by rewrite Eu). by apply IH.
Qed.

Lemma list_dir_run junk p n dp : length junk = 24%nat -> forall fuel k s d,
  dir_ok s dp p n -> dirs s !! dp = Some d -> d_pos d = 24 * Z.of_nat k ->
  (k <= length (slots (content s n)))%nat -> (length (slots (content s n)) < k + fuel)%nat ->
  exists s', list_dir fuel junk dp s = Ok (names_from k (content s n), s') /\ dir_ok s' dp p n /\ content s' n = content s n.
Proof.
  intros Hj fuel. induction fuel as [|fuel IH]; intros k s d Hd Hdd Hpos Hk Hf; [lia|]. cbn [list_dir].
  pose proof (do_file _ _ _ _ Hd) as Hok. rewrite length_slots in Hk, Hf.
  pose proof (Nat.div_mod_eq (length (content s n)) 24). pose proof (Nat.mod_upper_bound (length (content s n)) 24 ltac:(lia)).
  assert (d_inode d = p) as Edp by (destruct (do_dir _ _ _ _ Hd) as (d0 & Hd0 & <-); congruence).
  destruct (readdir_run p n dp k (S (length (content s n))) s junk d Hd Hdd Hpos Hj) as (s1 & d1 & Hr & Hd1 & Hc1 & Hdd1 & Hp1); [lia|lia|].
  assert (dir_readdir junk dp s = Ok ((fun '(_, e) => take 14 (e_name e)) <$> find_slot e_in_use k (drop k (slots (content s n))), s1)) as Hrd.
  { unfold dir_readdir. rewrite (run_bind _ _ _ d s) by (unfold get_dir; by rewrite Hdd). rewrite Edp.
    by rewrite (run_bind _ _ _ _ _ (entries_fuel_run s p n Hok s (same_refl s))). }
  rewrite (run_bind _ _ _ _ _ Hrd), names_step.
  pose proof (find_slot_spec e_in_use (drop k (slots (content s n))) k) as Hsp.
  destruct (find_slot e_in_use k (drop k (slots (content s n)))) as [[i e]|]; cbn [fmap option_fmap option_map].
  - destruct Hsp as (Hki & Hi & _). apply lookup_lt_Some in Hi. rewrite length_drop, length_slots in Hi.
    destruct (IH (S i) s1 d1 Hd1 Hdd1 Hp1) as (s2 & H2 & Hd2 & Hc2); [rewrite Hc1, length_slots; lia..|].
    rewrite Hc1 in *. exists s2. by rewrite (run_bind _ _ _ _ _ H2).
  - exists s1. done.
Qed.

(** C18: Listing a directory.  From position 0 on, calling [dir_readdir] until it
    returns false terminates and returns the name of every entry in use exactly
    once, in the order of the slots, and none but these; the file is not changed. *)
Theorem readdir_complete junk s dp p n :
  dir_ok s dp p n -> length junk = 24%nat -> (exists d, dirs s !! dp = Some d /\ d_pos d = 0) ->
  exists s', list_dir (S (length (slots (content s n)))) junk dp s =
      Ok ((fun e => take 14 (e_name e)) <$> filter (fun e => e_in_use e = true) (slots (content s n)), s') /\
    dir_ok s' dp p n /\ content s' n = content s n.
Proof.
  intros Hd Hj (d & Hdd & Hp). destruct (list_dir_run junk p n dp Hj (S (length (slots (content s n)))) 0 s d Hd Hdd) as (s' & H); [lia..|].
  by exists s'.
Qed.

(** The same directory with two names. *)
Definition demo_named_fs : fs :=
  set_disk (<[addr_of demo_node 0 :=
    new_entry [97; 98] 7 true (replicate 24 0) ++ replicate 24 0 ++ new_entry [99] 8 false (replicate 24 0) ++ replicate 440 0]>
    (disk demo_dir_fs)) demo_dir_fs.

Lemma demo_named_ok : dir_ok demo_named_fs 12288 4096 demo_node.
Proof.
  pose proof demo_dir_ok as [H1 H2 H3 H4 H5]. split; [|done|done|done|done].
  apply (write_sector demo_dir_fs 4096 demo_node 0); [done|vm_compute; lia|by vm_compute].
Qed.

Lemma readdir_complete_witness :
  exists s', list_dir 26 (replicate 24 170) 12288 demo_named_fs = Ok ([[97; 98]; [99]], s') /\
    dir_ok s' 12288 4096 demo_node.
Proof.
  destruct (readdir_complete (replicate 24 170) demo_named_fs 12288 4096 demo_node) as (s' & H1 & H2 & _).
  - apply demo_named_ok.
  - by vm_compute.
  - exists (mkDir 4096 0). by split; vm_compute.
  - exists s'. split; [|exact H2].
    assert (length (slots (content demo_named_fs demo_node)) = 25%nat) as E by (by vm_compute).
    assert ((fun e => take 14 (e_name e)) <$> filter (fun e => e_in_use e = true) (slots (content demo_named_fs demo_node)) =
      [[97; 98]; [99]]) as E2 by (by vm_compute).
    rewrite E, E2 in H1. exact H1.
Defined.

(** * Paths *)

(** A file [x] in the root directory of a new file system, and whether [/n] exists. *)
Definition demo_file_x : res (bool * fs) :=
  (filesys_init 100 (Some (replicate 4 0)) true;;
   filesys_create (replicate 24 0) [47] [120] 10;;
   path_exists (replicate 24 0) [47] [47; 110]) (blank_fs 100).

(** [dir_get_leaf] returns the last directory it has reached when the next component
    is not there, so that a path through a directory that does not exist is resolved
    as if the rest of it were relative to that directory: the path [/n/x] is opened
    as [/x] although there is no directory [n]. *)
Theorem missing_directory_ignored :
  match demo_file_x with
  | Ok (exists_n, s) => exists_n = false /\
      match filesys_open (replicate 24 0) [47] [47; 110; 47; 120] s with
      | Ok (f, _) => f <> NULL
      | Err _ => False
      end
  | Err _ => False
  end.
Proof.
  assert (match demo_file_x with
    | Ok (exists_n, s) => negb exists_n &&
        match filesys_open (replicate 24 0) [47] [47; 110; 47; 120] s with Ok (f, _) => negb (f =? NULL) | Err _ => false end
    | Err _ => false end = true) as H by (by vm_compute).
  destruct demo_file_x as [[b s]|]; [|done]. apply andb_true_iff in H as [H1 H2]. split; [by destruct b|].
  destruct (filesys_open _ _ _ s) as [[f s']|]; [|done]. by apply negb_true_iff, Z.eqb_neq in H2.
Qed.
