(* ===== verification/Vm.v ===== *)
(** Virtual memory: vm/frame.c, vm/page.c and vm/swap.c.

    The structures are in tables by address; pointers to them are addresses, 0 for
    null, and the lists through them are lists of addresses.  Pages of memory and
    page directories are those of PageDir.v, files those of Inode.v.  The routines
    run one at a time: [clock_sema], [paging_sema] and [filesys_sema] serialize
    them. *)
From Stdlib Require Import ZArith Lia.
From stdpp Require Import base numbers sorting gmap list.
From S2P Require Import Prelude.
From S2P Require Import Bitmap.
From S2P Require Import Inode.
From S2P Require Import Palloc.
From S2P Require Import PageDir.

Local Open Scope Z_scope.

(** * Data *)

Record frame := mkFrame {
  fr_tid : Z;
  fr_upage : Z;
  fr_kpage : Z;
  fr_pinned : bool;
  fr_async_write : bool
}.

Definition set_fr_tid (v : Z) (f : frame) : frame :=
  mkFrame v (fr_upage f) (fr_kpage f) (fr_pinned f) (fr_async_write f).
Definition set_fr_upage (v : Z) (f : frame) : frame :=
  mkFrame (fr_tid f) v (fr_kpage f) (fr_pinned f) (fr_async_write f).
Definition set_fr_kpage (v : Z) (f : frame) : frame :=
  mkFrame (fr_tid f) (fr_upage f) v (fr_pinned f) (fr_async_write f).
Definition set_fr_pinned (v : bool) (f : frame) : frame :=
  mkFrame (fr_tid f) (fr_upage f) (fr_kpage f) v (fr_async_write f).
Definition set_fr_async_write (v : bool) (f : frame) : frame :=
  mkFrame (fr_tid f) (fr_upage f) (fr_kpage f) (fr_pinned f) v.

Record page_entry := mkEntry {
  pe_tid : Z;
  pe_uaddr : Z;
  pe_writable : bool;
  pe_frame : Z;
  pe_swap : Z;
  pe_file : Z;
  pe_offset : Z;
  pe_read_bytes : Z
}.

Definition set_pe_tid (v : Z) (e : page_entry) : page_entry :=
    mkEntry v (pe_uaddr e) (pe_writable e) (pe_frame e) (pe_swap e) (pe_file e) (pe_offset e)
    (pe_read_bytes e).
Definition set_pe_uaddr (v : Z) (e : page_entry) : page_entry :=
    mkEntry (pe_tid e) v (pe_writable e) (pe_frame e) (pe_swap e) (pe_file e) (pe_offset e)
    (pe_read_bytes e).
Definition set_pe_writable (v : bool) (e : page_entry) : page_entry :=
    mkEntry (pe_tid e) (pe_uaddr e) v (pe_frame e) (pe_swap e) (pe_file e) (pe_offset e)
    (pe_read_bytes e).
Definition set_pe_frame (v : Z) (e : page_entry) : page_entry :=
    mkEntry (pe_tid e) (pe_uaddr e) (pe_writable e) v (pe_swap e) (pe_file e) (pe_offset e)
    (pe_read_bytes e).
Definition set_pe_swap (v : Z) (e : page_entry) : page_entry :=
    mkEntry (pe_tid e) (pe_uaddr e) (pe_writable e) (pe_frame e) v (pe_file e) (pe_offset e)
    (pe_read_bytes e).
Definition set_pe_file (v : Z) (e : page_entry) : page_entry :=
    mkEntry (pe_tid e) (pe_uaddr e) (pe_writable e) (pe_frame e) (pe_swap e) v (pe_offset e)
    (pe_read_bytes e).
Definition set_pe_offset (v : Z) (e : page_entry) : page_entry :=
    mkEntry (pe_tid e) (pe_uaddr e) (pe_writable e) (pe_frame e) (pe_swap e) (pe_file e) v
    (pe_read_bytes e).
Definition set_pe_read_bytes (v : Z) (e : page_entry) : page_entry :=
    mkEntry (pe_tid e) (pe_uaddr e) (pe_writable e) (pe_frame e) (pe_swap e) (pe_file e)
    (pe_offset e) v.

Record swap_slot := mkSlot {
  sl_tid : Z;
  sl_sector : Z;
  sl_upage : Z
}.

Definition set_sl_tid (v : Z) (l : swap_slot) : swap_slot :=
  mkSlot v (sl_sector l) (sl_upage l).
Definition set_sl_sector (v : Z) (l : swap_slot) : swap_slot :=
  mkSlot (sl_tid l) v (sl_upage l).
Definition set_sl_upage (v : Z) (l : swap_slot) : swap_slot :=
  mkSlot (sl_tid l) (sl_sector l) v.

(** The frame table with the clock hand, [None] for null or the end of the list;
    the page entries, and the page table of each thread; the swap slots, their list,
    and the sectors of the swap device, each of 128 words; the running thread, the
    page directory of each thread; the next free address. *)
Record vm := mkVM {
  mem : vmem;
  frames : gmap Z frame;
  all_frames : list Z;
  clockhand : option Z;
  entries : gmap Z page_entry;
  tables : gmap Z (list Z);
  slots : gmap Z swap_slot;
  swap_list : list Z;
  swap_disk : gmap Z (list Z);
  swap_size : Z;
  next_sector : Z;
  current : Z;
  pagedirs : gmap Z Z;
  vbrk : Z;
  fsys : fs
}.

Definition set_mem (v : vmem) (s : vm) : vm :=
    mkVM v (frames s) (all_frames s) (clockhand s) (entries s) (tables s) (slots s) (swap_list
    s) (swap_disk s) (swap_size s) (next_sector s) (current s) (pagedirs s) (vbrk s) (fsys s).
Definition set_frames (v : gmap Z frame) (s : vm) : vm :=
    mkVM (mem s) v (all_frames s) (clockhand s) (entries s) (tables s) (slots s) (swap_list s)
    (swap_disk s) (swap_size s) (next_sector s) (current s) (pagedirs s) (vbrk s) (fsys s).
Definition set_all_frames (v : list Z) (s : vm) : vm :=
    mkVM (mem s) (frames s) v (clockhand s) (entries s) (tables s) (slots s) (swap_list s)
    (swap_disk s) (swap_size s) (next_sector s) (current s) (pagedirs s) (vbrk s) (fsys s).
Definition set_clockhand (v : option Z) (s : vm) : vm :=
    mkVM (mem s) (frames s) (all_frames s) v (entries s) (tables s) (slots s) (swap_list s)
    (swap_disk s) (swap_size s) (next_sector s) (current s) (pagedirs s) (vbrk s) (fsys s).
Definition set_entries (v : gmap Z page_entry) (s : vm) : vm :=
    mkVM (mem s) (frames s) (all_frames s) (clockhand s) v (tables s) (slots s) (swap_list s)
    (swap_disk s) (swap_size s) (next_sector s) (current s) (pagedirs s) (vbrk s) (fsys s).
Definition set_tables (v : gmap Z (list Z)) (s : vm) : vm :=
    mkVM (mem s) (frames s) (all_frames s) (clockhand s) (entries s) v (slots s) (swap_list s)
    (swap_disk s) (swap_size s) (next_sector s) (current s) (pagedirs s) (vbrk s) (fsys s).
Definition set_slots (v : gmap Z swap_slot) (s : vm) : vm :=
    mkVM (mem s) (frames s) (all_frames s) (clockhand s) (entries s) (tables s) v (swap_list s)
    (swap_disk s) (swap_size s) (next_sector s) (current s) (pagedirs s) (vbrk s) (fsys s).
Definition set_swap_list (v : list Z) (s : vm) : vm :=
    mkVM (mem s) (frames s) (all_frames s) (clockhand s) (entries s) (tables s) (slots s) v
    (swap_disk s) (swap_size s) (next_sector s) (current s) (pagedirs s) (vbrk s) (fsys s).
Definition set_swap_disk (v : gmap Z (list Z)) (s : vm) : vm :=
    mkVM (mem s) (frames s) (all_frames s) (clockhand s) (entries s) (tables s) (slots s)
    (swap_list s) v (swap_size s) (next_sector s) (current s) (pagedirs s) (vbrk s) (fsys s).
Definition set_swap_size (v : Z) (s : vm) : vm :=
    mkVM (mem s) (frames s) (all_frames s) (clockhand s) (entries s) (tables s) (slots s)
    (swap_list s) (swap_disk s) v (next_sector s) (current s) (pagedirs s) (vbrk s) (fsys s).
Definition set_next_sector (v : Z) (s : vm) : vm :=
    mkVM (mem s) (frames s) (all_frames s) (clockhand s) (entries s) (tables s) (slots s)
    (swap_list s) (swap_disk s) (swap_size s) v (current s) (pagedirs s) (vbrk s) (fsys s).
Definition set_current (v : Z) (s : vm) : vm :=
    mkVM (mem s) (frames s) (all_frames s) (clockhand s) (entries s) (tables s) (slots s)
    (swap_list s) (swap_disk s) (swap_size s) (next_sector s) v (pagedirs s) (vbrk s) (fsys s).
Definition set_pagedirs (v : gmap Z Z) (s : vm) : vm :=
    mkVM (mem s) (frames s) (all_frames s) (clockhand s) (entries s) (tables s) (slots s)
    (swap_list s) (swap_disk s) (swap_size s) (next_sector s) (current s) v (vbrk s) (fsys s).
Definition set_vbrk (v : Z) (s : vm) : vm :=
    mkVM (mem s) (frames s) (all_frames s) (clockhand s) (entries s) (tables s) (slots s)
    (swap_list s) (swap_disk s) (swap_size s) (next_sector s) (current s) (pagedirs s) v (fsys
    s).
Definition set_fsys (v : fs) (s : vm) : vm :=
    mkVM (mem s) (frames s) (all_frames s) (clockhand s) (entries s) (tables s) (slots s)
    (swap_list s) (swap_disk s) (swap_size s) (next_sector s) (current s) (pagedirs s) (vbrk s)
    v.
Abbreviation vmM := (st vm).

Definition modify (f : vm -> vm) : vmM unit := fun s => Ok (tt, f s).
Definition gets {A} (f : vm -> A) : vmM A := fun s => Ok (f s, s).

(** Routines on memory and page directories, and on files. *)
Definition liftv {A} (m : PageDir.vM A) : vmM A := fun s =>
  match m (mem s) with
  | Ok (a, v) => Ok (a, set_mem v s)
  | Err e => Err e
  end.

Definition liftf {A} (m : Inode.fM A) : vmM A := fun s =>
  match m (fsys s) with
  | Ok (a, f) => Ok (a, set_fsys f s)
  | Err e => Err e
  end.

Definition get_frame (p : Z) : vmM frame := fun s =>
  match frames s !! p with Some f => Ok (f, s) | None => Err EFault end.
Definition upd_frame (p : Z) (g : frame -> frame) : vmM unit := fun s =>
  match frames s !! p with Some f => Ok (tt, set_frames (<[p := g f]> (frames s)) s) | None => Err EFault end.
Definition get_entry (p : Z) : vmM page_entry := fun s =>
  match entries s !! p with Some e => Ok (e, s) | None => Err EFault end.
Definition upd_entry (p : Z) (g : page_entry -> page_entry) : vmM unit := fun s =>
  match entries s !! p with Some e => Ok (tt, set_entries (<[p := g e]> (entries s)) s) | None => Err EFault end.
Definition get_slot (p : Z) : vmM swap_slot := fun s =>
  match slots s !! p with Some l => Ok (l, s) | None => Err EFault end.
Definition upd_slot (p : Z) (g : swap_slot -> swap_slot) : vmM unit := fun s =>
  match slots s !! p with Some l => Ok (tt, set_slots (<[p := g l]> (slots s)) s) | None => Err EFault end.

(** [malloc] of a structure; here it does not fail. *)
Definition alloc : vmM Z := fun s => Ok (vbrk s, set_vbrk (vbrk s + 64) s).

(** [thread_by_tid (tid)->pagedir], [None] for no such thread. *)
Definition pagedir_of (tid : Z) : vmM (option Z) := gets (fun s => pagedirs s !! tid).

Definition current_pagedir : vmM Z :=
  t ← gets current; r ← pagedir_of t;
  match r with Some pd => mret pd | None => st_fail EFault end.

(** [list_remove] of an element of a list, and the element behind one. *)
Definition remove_elem (p : Z) (l : list Z) : list Z := filter (fun q => q <> p) l.

Fixpoint next_elem (p : Z) (l : list Z) : option Z :=
  match l with
  | a :: l => if a =? p then head l else next_elem p l
  | [] => None
  end.

(** * The words of a page and of a sector *)

Definition SECTORS_PER_PAGE : nat := 8.

Definition page_words (k : Z) : vmM (list Z) := fun s =>
  match pages (phys (mem s)) !! k with
  | Some ws => Ok (ws, s)
  | None => Err EFault
  end.

Definition set_page_words (k : Z) (ws : list Z) : vmM unit :=
  modify (fun s => set_mem (with_pages (insert k ws) (mem s)) s).

Definition swap_read (sec : Z) : vmM (list Z) := fun s =>
  match swap_disk s !! sec with Some ws => Ok (ws, s) | None => Err EPanic end.

Definition swap_write (sec : Z) (ws : list Z) : vmM unit := fun s =>
  match swap_disk s !! sec with
  | Some _ => Ok (tt, set_swap_disk (<[sec := ws]> (swap_disk s)) s)
  | None => Err EPanic
  end.

(** The processor's part in an access to a kernel address: the accessed and dirty
    bits of the entry it goes through, where the active directory has one. *)
Definition touch (write : bool) (ka : Z) : vmM unit :=
  pd ← liftv active_pd;
  pte ← liftv (lookup_page pd ka false);
  if pte =? NULL then mret tt else
  w ← liftv (load pte);
  liftv (store pte (Z.lor w (Z.lor PTE_A (if write then PTE_D else 0)))).

(** * Swap *)

(** [block_size (swap_block)] is 0 when there is no swap device. *)
Definition swap_init (size : Z) : vmM unit :=
  modify (fun s => set_swap_list [] (set_next_sector 0 (set_swap_size size s))).

(** A slot for sectors that no slot has yet; its [malloc] does not fail here. *)
Definition new_slot : vmM Z :=
  s ← st_get;
  if next_sector s <? swap_size s then
    p ← alloc;
    modify (fun s => set_slots (<[p := mkSlot 0 (next_sector s) 0]> (slots s)) s);;
    modify (fun s => set_next_sector (u32 (next_sector s + PGSIZE / 512)) s);;
    mret p
  else mret NULL.

Definition get_free_slot : vmM Z :=
  l ← gets swap_list;
  reuse ← (match last l with
           | Some e => slot ← get_slot e; mret (if sl_upage slot =? NULL then Some e else None)
           | None => mret None
           end);
  match reuse with
  | Some e => modify (set_swap_list (removelast l));; mret e
  | None => new_slot
  end.

(** The frame of the page a slot is for. *)
Definition slot_kpage (slot : swap_slot) : vmM Z :=
  e ← get_entry (sl_upage slot); f ← get_frame (pe_frame e); mret (fr_kpage f).

(** [i] counts up to 8. *)
Fixpoint read_sectors (n : nat) (sec kpage : Z) (i : nat) : vmM unit :=
  match n with
  | O => mret tt
  | S n =>
      ws ← swap_read (sec + Z.of_nat i);
      old ← page_words kpage;
      set_page_words kpage (take (128 * i) old ++ ws ++ drop (128 * i + 128) old);;
      read_sectors n sec kpage (S i)
  end.

Fixpoint write_sectors (n : nat) (sec kpage : Z) (i : nat) : vmM unit :=
  match n with
  | O => mret tt
  | S n =>
      ws ← page_words kpage;
      swap_write (sec + Z.of_nat i) (take 128 (drop (128 * i) ws));;
      write_sectors n sec kpage (S i)
  end.

Definition read_swap (p : Z) : vmM unit :=
  slot ← get_slot p; kpage ← slot_kpage slot; read_sectors SECTORS_PER_PAGE (sl_sector slot) kpage 0;; touch true kpage.

Definition write_swap (p : Z) : vmM unit :=
  slot ← get_slot p; kpage ← slot_kpage slot; write_sectors SECTORS_PER_PAGE (sl_sector slot) kpage 0;; touch false kpage.

Definition push_to_swap (fp : Z) : vmM bool :=
  assert (negb (fp =? NULL));;
  f ← get_frame fp;
  assert (negb (fr_upage f =? NULL));;
  slot ← get_free_slot;
  if negb (slot =? NULL) then
    upd_slot slot (set_sl_upage (fr_upage f));;
    upd_entry (fr_upage f) (set_pe_swap slot);;
    e ← get_entry (fr_upage f);
    upd_slot slot (set_sl_tid (pe_tid e));;
    write_swap slot;;
    modify (fun s => set_swap_list (slot :: swap_list s) s);;
    mret true
  else mret false.

Fixpoint find_slot_of (l : list Z) (upage : Z) : vmM Z :=
  match l with
  | [] => mret NULL
  | p :: l =>
      slot ← get_slot p;
      if negb (sl_upage slot =? NULL) && (sl_upage slot =? upage) then mret p else find_slot_of l upage
  end.

Definition get_swapped_page (upage : Z) : vmM Z := l ← gets swap_list; find_slot_of l upage.

(** The slot without its page goes to the end of the list. *)
Definition rotate_slot (p : Z) : vmM unit :=
  modify (fun s => set_swap_list (remove_elem p (swap_list s) ++ [p]) s).

Definition pull_from_swap (upage : Z) : vmM bool :=
  assert (negb (upage =? NULL));;
  p ← get_swapped_page upage;
  if negb (p =? NULL) then
    read_swap p;;
    slot ← get_slot p;
    upd_entry (sl_upage slot) (set_pe_swap NULL);;
    upd_slot p (set_sl_upage NULL);;
    rotate_slot p;;
    mret true
  else mret false.

Definition free_swap (p : Z) : vmM unit :=
  assert (negb (p =? NULL));;
  slot ← get_slot p;
  assert (negb (sl_upage slot =? NULL));;
  e ← get_entry (sl_upage slot);
  assert (negb (pe_swap e =? NULL));;
  upd_entry (sl_upage slot) (set_pe_swap NULL);;
  upd_slot p (set_sl_upage NULL);;
  rotate_slot p.

(** The loop goes on from where the slot was moved to: [list_next] of a slot moved
    to the end is the end. *)
Fixpoint clean_loop (l : list Z) (tid : Z) : vmM unit :=
  match l with
  | [] => mret tt
  | p :: l =>
      slot ← get_slot p;
      if negb (sl_upage slot =? NULL) && (sl_tid slot =? tid) then
        upd_slot p (fun s => set_sl_upage NULL (set_sl_tid 0 s));;
        rotate_slot p
      else clean_loop l tid
  end.

Definition clean_swap (tid : Z) : vmM bool := l ← gets swap_list; clean_loop l tid;; mret true.

(** * Frames *)

Definition orM (a b : vmM bool) : vmM bool := x ← a; if x : bool then mret true else b.
Definition andM (a b : vmM bool) : vmM bool := x ← a; if x : bool then b else mret false.
Definition notM (a : vmM bool) : vmM bool := x ← a; mret (negb x).

Definition is_free (fp : Z) : vmM bool :=
  assert (negb (fp =? NULL));; f ← get_frame fp; mret (fr_upage f =? NULL).

(** The frame and the page in it. *)
Definition frame_page (fp : Z) : vmM (frame * page_entry) :=
  assert (negb (fp =? NULL));;
  free ← is_free fp; assert (negb free);;
  f ← get_frame fp; e ← get_entry (fr_upage f); mret (f, e).

Definition is_present (p : Z) : vmM bool := assert (negb (p =? NULL));; e ← get_entry p; mret (negb (pe_frame e =? NULL)).
Definition is_swapped (p : Z) : vmM bool := assert (negb (p =? NULL));; e ← get_entry p; mret (negb (pe_swap e =? NULL)).
Definition is_in_fs (p : Z) : vmM bool := assert (negb (p =? NULL));; e ← get_entry p; mret (negb (pe_file e =? NULL)).

Section boot.
(** [init_page_dir] and [init_ram_pages]. *)
Context (ipd ram : Z).

Definition is_dirty (fp : Z) : vmM bool :=
  r ← frame_page fp;
  pd ← current_pagedir;
  orM (liftv (pagedir_is_dirty pd (pe_uaddr r.2))) (liftv (pagedir_is_dirty pd (fr_kpage r.1))).

Definition is_accessed (fp : Z) : vmM bool :=
  r ← frame_page fp;
  pd ← current_pagedir;
  orM (liftv (pagedir_is_accessed pd (pe_uaddr r.2))) (liftv (pagedir_is_accessed pd (fr_kpage r.1))).

Definition set_dirty (fp : Z) (v : bool) : vmM unit :=
  r ← frame_page fp;
  pd ← current_pagedir;
  liftv (pagedir_set_dirty ipd pd (pe_uaddr r.2) v);;
  liftv (pagedir_set_dirty ipd pd (fr_kpage r.1) v).

Definition set_accessed (fp : Z) (v : bool) : vmM unit :=
  r ← frame_page fp;
  pd ← current_pagedir;
  liftv (pagedir_set_accessed ipd pd (pe_uaddr r.2) v);;
  liftv (pagedir_set_accessed ipd pd (fr_kpage r.1) v).

Definition is_readonly (fp : Z) : vmM bool := r ← frame_page fp; mret (negb (pe_writable r.2)).

Definition is_pinned (fp : Z) : vmM bool := assert (negb (fp =? NULL));; f ← get_frame fp; mret (fr_pinned f).
Definition pin_frame (fp : Z) : vmM unit := assert (negb (fp =? NULL));; upd_frame fp (set_fr_pinned true).
Definition unpin_frame (fp : Z) : vmM unit := assert (negb (fp =? NULL));; upd_frame fp (set_fr_pinned false).

Definition frame_init : vmM unit := modify (set_all_frames []).

(** Whether a frame is to be evicted, by the number of revolutions so far. *)
Definition suitable (revolution fp : Z) : vmM bool :=
  if revolution =? 0 then
    andM (notM (is_pinned fp))
      (orM (is_free fp) (orM (is_readonly fp) (andM (notM (is_accessed fp)) (notM (is_dirty fp)))))
  else if revolution =? 1 then
    andM (notM (is_pinned fp)) (orM (is_free fp) (orM (is_readonly fp) (notM (is_dirty fp))))
  else notM (is_pinned fp).

(** One round of the loop: the revolutions so far, and whether [fp] was found. *)
Definition clock_round (old : option Z) (a : Z * bool * Z) : vmM (Z * bool * Z + bool * Z) :=
  let '(revolution, found, fp) := a in
  if (revolution <? 3) && negb found then
    hand ← gets clockhand;
    match hand with
    | None => st_fail EAssert
    | Some fp =>
        found ← suitable revolution fp;
        set_accessed fp false;;
        dirty ← is_dirty fp;
        (if dirty : bool then set_dirty fp false;; upd_frame fp (set_fr_async_write true) else mret tt);;
        l ← gets all_frames;
        (if bool_decide (fp ∈ l) then mret tt else st_fail EFault);;
        let hand := match next_elem fp l with Some q => Some q | None => head l end in
        modify (set_clockhand hand);;
        mret (inl (if bool_decide (hand = old) then revolution + 1 else revolution, found, fp))
    end
  else mret (inr (found, fp)).

(** At most three revolutions. *)
Definition evict_frame : vmM Z :=
  l ← gets all_frames;
  h ← gets clockhand;
  (match h with None => modify (set_clockhand (head l)) | Some _ => mret tt end : vmM unit);;
  old ← gets clockhand;
  r ← loop (S (3 * length l)) (clock_round old) (0, false, NULL);
  let '(found, fp) := r in
  assert found;;
  assert (negb (fp =? NULL));;
  f ← get_frame fp;
  assert (negb (fr_kpage f =? NULL));;
  assert (negb (fr_pinned f));;
  pin_frame fp;;
  (if negb (fr_upage f =? NULL) then
     r ← pagedir_of (fr_tid f);
     pd ← (match r with Some pd => mret pd | None => st_fail EFault end : vmM Z);
     e ← get_entry (fr_upage f);
     liftv (pagedir_clear_page ipd pd (pe_uaddr e));;
     write ← orM (is_dirty fp) (f ← get_frame fp; mret (fr_async_write f));
     (if write : bool then push_to_swap fp;; upd_frame fp (set_fr_async_write false) else mret tt);;
     set_page_words (fr_kpage f) (replicate 1024 0);;
     touch true (fr_kpage f);;
     upd_entry (fr_upage f) (set_pe_frame NULL);;
     upd_frame fp (set_fr_upage NULL)
   else mret tt);;
  unpin_frame fp;;
  mret fp.

Definition allocate_frame (upage : Z) : vmM Z :=
  assert (negb (upage =? NULL));;
  e ← get_entry upage;
  assert (negb (pe_uaddr e =? NULL));;
  assert (pg_ofs (pe_uaddr e) =? 0);;
  assert (pe_frame e =? NULL);;
  kpage ← liftv (PageDir.liftp (palloc_get_page (Z.lor PAL_USER PAL_ZERO)));
  fp ← (if kpage =? NULL then evict_frame
        else
          touch true kpage;;
          fp ← alloc;
          modify (fun s => set_frames (<[fp := mkFrame 0 0 kpage false false]> (frames s)) s);;
          modify (fun s => set_all_frames (all_frames s ++ [fp]) s);;
          mret fp);
  upd_frame fp (fun f => set_fr_tid (pe_tid e) (set_fr_upage upage f));;
  upd_entry upage (set_pe_frame fp);;
  set_dirty fp false;;
  f ← get_frame fp;
  assert (negb (fr_async_write f));;
  assert (negb (fr_kpage f =? NULL));;
  assert (negb (fr_pinned f));;
  mret fp.

(** The clock hand is not looked at. *)
Definition free_frame (fp : Z) : vmM unit :=
  assert (negb (fp =? NULL));;
  f ← get_frame fp;
  assert (negb (fr_upage f =? NULL));;
  e ← get_entry (fr_upage f);
  assert (negb (pe_frame e =? NULL));;
  assert (negb (pe_uaddr e =? NULL));;
  r ← pagedir_of (fr_tid f);
  pd ← (match r with Some pd => mret pd | None => st_fail EAssert end : vmM Z);
  k ← liftv (pagedir_get_page pd (pe_uaddr e));
  (if negb (k =? NULL) then liftv (pagedir_clear_page ipd pd (pe_uaddr e)) else mret tt);;
  upd_entry (fr_upage f) (set_pe_frame NULL);;
  upd_frame fp (set_fr_upage NULL);;
  liftv (PageDir.liftp (palloc_free_page (fr_kpage f)));;
  modify (fun s => set_all_frames (remove_elem fp (all_frames s)) s);;
  modify (fun s => set_frames (delete fp (frames s)) s).

Definition install_frame (fp : Z) (writable : bool) : vmM bool :=
  assert (negb (fp =? NULL));;
  f ← get_frame fp;
  assert (negb (fr_upage f =? NULL));;
  e ← get_entry (fr_upage f);
  assert (negb (pe_uaddr e =? NULL));;
  t ← gets current;
  assert (fr_tid f =? t);;
  pd ← current_pagedir;
  k ← liftv (pagedir_get_page pd (pe_uaddr e));
  ok ← (if k =? NULL then liftv (pagedir_set_page ipd ram pd (pe_uaddr e) (fr_kpage f) writable) else mret false);
  if ok : bool then
    k ← liftv (pagedir_get_page pd (pe_uaddr e)); assert (negb (k =? NULL));;
    p ← is_present (fr_upage f); assert p;;
    mret true
  else
    free_frame fp;;
    k ← liftv (pagedir_get_page pd (pe_uaddr e)); assert (k =? NULL);;
    f ← get_frame fp;
    p ← is_present (fr_upage f); assert (negb p);;
    mret false.

(** * Page tables *)

(** The elements of the list [pages] of the running thread. *)
Definition current_table : vmM (list Z) :=
  t ← gets current;
  s ← st_get;
  match tables s !! t with Some l => mret l | None => st_fail EFault end.

Definition page_addr (uaddr : Z) : Z := uaddr / PGSIZE * PGSIZE.

Fixpoint find_entry (l : list Z) (uaddr : Z) : vmM Z :=
  match l with
  | [] => mret NULL
  | p :: l => e ← get_entry p; if pe_uaddr e =? uaddr then mret p else find_entry l uaddr
  end.

Definition get_page_entry (uaddr : Z) : vmM Z := l ← current_table; find_entry l (page_addr uaddr).

Definition page_table_init (t : Z) : vmM unit := modify (fun s => set_tables (<[t := []]> (tables s)) s).

Definition allocate_page (uaddr : Z) : vmM Z :=
  t ← gets current;
  p ← get_page_entry uaddr;
  if negb (p =? NULL) then e ← get_entry p; mret (if negb (pe_tid e =? t) then NULL else p)
  else if negb (is_user_vaddr uaddr) || (uaddr =? NULL) then mret NULL
  else
    p ← alloc;
    modify (fun s => set_entries (<[p := mkEntry t (page_addr uaddr) true 0 0 0 0 0]> (entries s)) s);;
    l ← current_table;
    modify (fun s => set_tables (<[t := l ++ [p]]> (tables s)) s);;
    mret p.

Definition free_page_entry (p : Z) : vmM unit :=
  if p =? NULL then mret tt else
  e ← get_entry p;
  (if negb (pe_frame e =? NULL) then free_frame (pe_frame e) else mret tt);;
  e ← get_entry p;
  (if negb (pe_swap e =? NULL) then free_swap (pe_swap e) else mret tt);;
  modify (fun s => set_entries (delete p (entries s)) s).

Definition free_page (uaddr : Z) : vmM unit :=
  p ← get_page_entry uaddr;
  if p =? NULL then mret tt else
  t ← gets current;
  l ← current_table;
  modify (fun s => set_tables (<[t := remove_elem p l]> (tables s)) s);;
  free_page_entry p.

(** The elements are taken from the front of the list. *)
Fixpoint destroy_loop (t : Z) (l : list Z) : vmM unit :=
  match l with
  | [] => mret tt
  | p :: l => modify (fun s => set_tables (<[t := l]> (tables s)) s);; free_page_entry p;; destroy_loop t l
  end.

Definition page_table_destroy (t : Z) : vmM unit :=
  s ← st_get;
  match tables s !! t with Some l => destroy_loop t l | None => st_fail EFault end.

(** Bytes read from a file go to the front of the page. *)
Definition put_bytes (kpage : Z) (bs : list Z) : vmM unit :=
  match bs with
  | [] => mret tt
  | _ =>
      ws ← page_words kpage;
      set_page_words kpage (words_of_bytes (bs ++ drop (length bs) (bytes_of_words ws)));;
      touch true kpage
  end.

Definition load_page_entry (p : Z) : vmM bool :=
  if p =? NULL then mret false else
  present ← is_present p; assert (negb present);;
  fp ← allocate_frame p;
  assert (negb (fp =? NULL));;
  pin_frame fp;;
  e ← get_entry p;
  f ← get_frame fp;
  swapped ← is_swapped p;
  infs ← is_in_fs p;
  success ←
    (if swapped : bool then pull_from_swap p;; install_frame fp (pe_writable e)
     else if infs : bool then
       if 0 <? pe_read_bytes e then
         liftf (file_seek (pe_file e) (s32 (pe_offset e)));;
         bs ← liftf (file_read (pe_file e) (s32 (pe_read_bytes e)));
         put_bytes (fr_kpage f) bs;;
         if negb (Zlen bs =? pe_read_bytes e) then free_frame fp;; mret false
         else install_frame fp (pe_writable e)
       else install_frame fp (pe_writable e)
     else install_frame fp (pe_writable e));
  unpin_frame fp;;
  mret success.

Definition load_page (uaddr : Z) : vmM bool :=
  p ← get_page_entry uaddr;
  if p =? NULL then mret false else load_page_entry p.

End boot.
