(* ===== verification/VmSwap.v ===== *)
(** Swap: the swap device keeps the contents of pages that were pushed to it. *)
From Stdlib Require Import ZArith Lia.
From stdpp Require Import base numbers sorting gmap list.
From S2P Require Import Prelude.
From S2P Require Import Bitmap.
From S2P Require Import InodeFile.
From S2P Require Import Palloc.
From S2P Require Import PageDir.
From S2P Require Import Vm.

Local Open Scope Z_scope.

(** * Sectors *)

Definition page_part (ws : list Z) (i : nat) : list Z := take 128 (drop (128 * i) ws).

Lemma put_part (old ws : list Z) i :
  length old = 1024%nat -> length ws = 1024%nat -> (i < 8)%nat -> take (128 * i) old = take (128 * i) ws ->
  let new := take (128 * i) old ++ page_part ws i ++ drop (128 * i + 128) old in
  length new = 1024%nat /\ take (128 * S i) new = take (128 * S i) ws.
Proof.
  intros Ho Hw Hi Hpre new. assert (length (page_part ws i) = 128%nat) as Hp.
  { unfold page_part. rewrite length_take, length_drop. lia. }
  assert (length (take (128 * i) old) = 128 * i)%nat as Ht by (rewrite length_take; lia). split.
  - unfold new. rewrite !length_app, Ht, Hp, length_drop. lia.
  - unfold new. rewrite app_assoc. rewrite take_app_le by (rewrite length_app; lia).
    rewrite take_ge by (rewrite length_app; lia). rewrite Hpre. unfold page_part.
    replace (128 * S i)%nat with (128 * i + 128)%nat by lia. by rewrite take_take_drop.
Qed.

(** The state after writing a page of memory. *)
Definition put_page (k : Z) (ws : list Z) (s : vm) : vm := set_mem (with_pages (insert k ws) (mem s)) s.

Lemma put_put k ws ws' s : put_page k ws' (put_page k ws s) = put_page k ws' s.
Proof.
  unfold put_page, with_pages. destruct s as [[[kp up pg] c] fr al ch en tb sl sw sd sz ns cu pd br fs]. cbn.
  by rewrite insert_insert_eq.
Qed.

Lemma page_words_put k ws s : page_words k (put_page k ws s) = Ok (ws, put_page k ws s).
Proof. unfold page_words. cbn. by rewrite lookup_insert_eq. Qed.

Lemma read_sectors_run sec k ws n : forall i s old,
  (i + n = 8)%nat -> (forall j, (j < 8)%nat -> swap_disk s !! (sec + Z.of_nat j) = Some (page_part ws j)) ->
  length ws = 1024%nat -> length old = 1024%nat -> take (128 * i) old = take (128 * i) ws ->
  pages (phys (mem s)) !! k = Some old -> put_page k old s = s ->
  read_sectors n sec k i s = Ok (tt, put_page k ws s).
Proof.
  induction n as [|n IH]; intros i s old Hn Hd Hw Ho Hpre Hk Hid; cbn [read_sectors].
  { replace i with 8%nat in Hpre by lia. rewrite !take_ge in Hpre by lia. subst old. unfold mret, st_ret. by rewrite Hid. }
  rewrite (run_bind _ _ _ (page_part ws i) s) by (unfold swap_read; by rewrite Hd by lia).
  rewrite (run_bind _ _ _ old s) by (unfold page_words; by rewrite Hk).
  destruct (put_part old ws i Ho Hw ltac:(lia) Hpre) as [Hl Hpre']. set (new := _ ++ _) in *.
  rewrite (run_bind _ _ _ tt (put_page k new s)) by done.
  rewrite (IH (S i) (put_page k new s) new); [by rewrite put_put|lia|done|done|done|done| |apply put_put].
  cbn. by rewrite lookup_insert_eq.
Qed.

Definition set_sectors (sec : Z) (ws : list Z) (s : vm) (d : gmap Z (list Z)) : Prop :=
  (forall j, (j < 8)%nat -> d !! (sec + Z.of_nat j) = Some (page_part ws j)) /\
  (forall a, a < sec \/ sec + 8 <= a -> d !! a = swap_disk s !! a) /\
  (forall a, is_Some (swap_disk s !! a) -> is_Some (d !! a)).

Lemma write_sectors_run sec k ws n : forall i s,
  (i + n = 8)%nat -> pages (phys (mem s)) !! k = Some ws ->
  (forall j, (j < 8)%nat -> is_Some (swap_disk s !! (sec + Z.of_nat j))) ->
  (forall j, (j < i)%nat -> swap_disk s !! (sec + Z.of_nat j) = Some (page_part ws j)) ->
  exists d, write_sectors n sec k i s = Ok (tt, set_swap_disk d s) /\ set_sectors sec ws s d.
Proof.
  induction n as [|n IH]; intros i s Hn Hk Hd Hw; cbn [write_sectors].
  { exists (swap_disk s). split; [by destruct s|]. split; [intros j Hj; apply Hw; lia|done]. }
  rewrite (run_bind _ _ _ ws s) by (unfold page_words; by rewrite Hk).
  set (s1 := set_swap_disk (<[sec + Z.of_nat i := page_part ws i]> (swap_disk s)) s).
  rewrite (run_bind _ _ _ tt s1).
  2:{ unfold swap_write. destruct (Hd i ltac:(lia)) as [x Hx]. by rewrite Hx. }
  destruct (IH (S i) s1) as (d & Hr & Hd1 & Hd2 & Hd3); [lia|done| | |].
  - intros j Hj. cbn. rewrite lookup_insert. case_decide; [by eexists|]. by apply Hd.
  - intros j Hj. cbn. rewrite lookup_insert. case_decide as E.
    + by replace j with i by lia.
    + apply Hw. lia.
  - exists d. split; [by rewrite Hr|]. split; [done|]. split.
    + intros a Ha. rewrite Hd2 by done. cbn. by rewrite lookup_insert_ne by lia.
    + intros a Ha. apply Hd3. cbn. rewrite lookup_insert. case_decide; [by eexists|done].
Qed.

(** * The active page directory *)

(** The base register holds a well-formed directory. *)
Definition active (s : vm) (pd : Z) : Prop := pd_ok (phys (mem s)) pd /\ cr3 (mem s) = pd - PHYS_BASE.

(** A page in use that is not part of the directory. *)
Definition data_page (m : pmem) (pd k : Z) : Prop :=
  used m k /\ k <> pd /\ forall i w, 0 <= i < 1024 -> word (pages m) (pd + 4 * i) = Some w -> w <> 0 -> tab w <> k.

(** A change to the directory or to pages that are not in use. *)
Record data_kept (pd : Z) (v v' : vmem) : Prop := {
  dk_ok : pd_ok (phys v') pd;
  dk_cr3 : cr3 v' = cr3 v;
  dk_data : forall k, data_page (phys v) pd k -> data_page (phys v') pd k;
  dk_pages : forall k, data_page (phys v) pd k -> pages (phys v') !! k = pages (phys v) !! k
}.

Lemma data_kept_refl pd v : pd_ok (phys v) pd -> data_kept pd v v.
Proof. by split. Qed.

Lemma data_kept_trans pd v1 v2 v3 : data_kept pd v1 v2 -> data_kept pd v2 v3 -> data_kept pd v1 v3.
Proof.
  intros [A1 A2 A3 A4] [B1 B2 B3 B4]. split; [done|congruence|by eauto|]. intros k Hk. rewrite B4 by auto. by apply A4.
Qed.

Lemma updated_data pd va x v v' : updated pd va x v v' -> data_kept pd v v'.
Proof.
  intros [U1 U2 (F1 & F2 & F3) _]. split; [done|done| |].
  - intros k (Hu & Hne & Ht). split; [by apply F1|]. split; [done|]. intros i w Hi Hw Hnz Etab.
    destruct (F3 i w Hi Hw Hnz) as [H|H]; [by apply (Ht i w)|]. by rewrite Etab in H.
  - intros k (Hu & Hne & Ht). by apply F2.
Qed.

Lemma active_pd_run s pd : active s pd -> active_pd (mem s) = Ok (pd, mem s).
Proof.
  intros [Hok Hc]. destruct (used_aligned _ pd (po_mem _ _ Hok) (po_used _ _ Hok)) as [_ Hr].
  unfold active_pd. apply lift_run_v. rewrite Hc. unfold ptov, rassert, PHYS_BASE in *.
  rewrite (proj2 (Z.ltb_lt _ _)) by lia. cbn [mbind res_bind]. f_equal.
  replace (pd - 3221225472 + 3221225472) with pd by lia. apply uwrap_id; unfold in_u; lia.
Qed.

Lemma kept_active s s' pd : active s pd -> data_kept pd (mem s) (mem s') -> active s' pd.
Proof. intros [_ Hc] [D1 D2 _ _]. split; [done|]. by rewrite D2. Qed.

Lemma pte_same_page pg pd va va' : va / PGSIZE = va' / PGSIZE -> pte_of pg pd va = pte_of pg pd va'.
Proof.
  intros E. unfold pte_of. assert (pd_no va = pd_no va' /\ pt_no va = pt_no va') as [-> ->]; [|done].
  pose proof (pt_no_range va). pose proof (pt_no_range va'). rewrite !page_indices in E. lia.
Qed.

Lemma mapping_same_page m pd va va' : va / PGSIZE = va' / PGSIZE -> mapping m pd va = mapping m pd va'.
Proof. intros E. unfold mapping. by rewrite (pte_same_page _ _ va va' E). Qed.

(** The same pages are in use. *)
Definition pools_kept (v v' : vmem) : Prop :=
  kernel_pool (phys v') = kernel_pool (phys v) /\ user_pool (phys v') = user_pool (phys v).

Lemma store_pools a x v v' : store a x v = Ok (tt, v') -> pools_kept v v'.
Proof. unfold store. destruct (word (pages (phys v)) a); [|done]. by intros [= <-]. Qed.

(** A change to the flags of entries. *)
Record space_kept (pd : Z) (s s' : vm) : Prop := {
  sk_data : data_kept pd (mem s) (mem s');
  sk_map : forall va, 0 <= va < 2 ^ 32 -> mapping (phys (mem s')) pd va = mapping (phys (mem s)) pd va;
  sk_pools : pools_kept (mem s) (mem s')
}.

Lemma space_kept_refl pd s : active s pd -> space_kept pd s s.
Proof. intros [Hok _]. split; [by apply data_kept_refl|done|done]. Qed.

Lemma space_kept_trans pd s1 s2 s3 : space_kept pd s1 s2 -> space_kept pd s2 s3 -> space_kept pd s1 s3.
Proof. intros [A1 A2 [A3 A4]] [B1 B2 [B3 B4]]. split; [by eapply data_kept_trans| |split; congruence]. intros va Hva. rewrite B2, A2; done. Qed.

(** The processor sets the accessed and dirty bits of an entry. *)
Lemma set_flags s pd va a wr :
  active s pd -> 0 <= va < 2 ^ 32 -> entry_at (phys (mem s)) pd va a ->
  exists v, store a (Z.lor (pte_of (pages (phys (mem s))) pd va) (Z.lor PTE_A (if wr : bool then PTE_D else 0))) (mem s) = Ok (tt, v) /\
    space_kept pd s (set_mem v s).
Proof.
  intros [Hok _] [H0 H1] He. destruct (entry_at_word _ pd va a Hok H0 H1 He) as (_ & _ & Hxr). set (x := pte_of (pages (phys (mem s))) pd va) in *.
  set (f := Z.lor PTE_A (if wr then PTE_D else 0)). assert (0 <= f < 4096) as Hfl by (unfold f; destruct wr; cbv; split; done).
  assert (in_u 32 (Z.lor x f)) as Hy by (by apply entry_range).
  assert (forall j, 0 <= j -> j <> 5 -> j <> 6 -> Z.testbit (Z.lor x f) j = Z.testbit x j) as Hbits.
  { intros j Hj H5 H6. rewrite Z.lor_spec. assert (Z.testbit f j = false) as ->; [|apply orb_false_r].
    unfold f. change PTE_A with (2 ^ 5). change PTE_D with (2 ^ 6). rewrite Z.lor_spec, Z.pow2_bits_false by lia.
    destruct wr; [rewrite Z.pow2_bits_false by lia; done|by rewrite Z.bits_0]. }
  assert (tab (Z.lor x f) = tab x) as Hty.
  { unfold tab. f_equal. rewrite !land_addr by done. unfold PGSIZE. change 4096 with (2 ^ 12). f_equal. rewrite <- !Z.shiftr_div_pow2 by lia.
    apply Z.bits_inj'. intros j Hj. rewrite !Z.shiftr_spec by lia. apply Hbits; lia. }
  destruct (store_entry (mem s) pd va a _ Hok H0 H1 He Hy) as (v & Hs & Hup). exists v. split; [done|].
  split; [by eapply updated_data| |by eapply store_pools].
  intros va' [H0' H1']. cbn. unfold mapping. rewrite (up_pte _ _ _ _ _ Hup) by done. case_decide as Ep; [|done].
  rewrite (pte_same_page (pages (phys (mem s))) pd va' va Ep). fold x. rewrite Hty, !Hbits by lia. done.
Qed.

Lemma touch_space wr ka s pd :
  active s pd -> 0 <= ka < 2 ^ 32 -> exists v, touch wr ka s = Ok (tt, set_mem v s) /\ space_kept pd s (set_mem v s).
Proof.
  intros Ha Hka. pose proof Ha as [Hok Hc]. unfold touch.
  rewrite (run_bind _ _ _ pd s) by (unfold liftv; rewrite (active_pd_run s pd Ha); by destruct s).
  destruct (lookup_page_ok (mem s) pd ka Hok ltac:(lia) ltac:(lia)) as (a & Hl & Hcase).
  rewrite (run_bind _ _ _ a s) by (unfold liftv; rewrite Hl; by destruct s). destruct Hcase as [[-> _]|He].
  { exists (mem s). split; [by destruct s|]. replace (set_mem (mem s) s) with s by (by destruct s). by apply space_kept_refl. }
  destruct (entry_at_word _ pd ka a Hok ltac:(lia) ltac:(lia) He) as (Hn & Hw & Hx). apply Z.eqb_neq in Hn as ->.
  rewrite (run_bind _ _ _ _ s) by (unfold liftv; rewrite (word_load_run _ _ _ Hw); by destruct s).
  destruct (set_flags s pd ka a wr Ha Hka He) as (v & Hs & Hk). exists v. split; [unfold liftv; by rewrite Hs|done].
Qed.

(** Writing a page of data. *)
Lemma put_page_kept pd k ws s :
  active s pd -> data_page (phys (mem s)) pd k ->
  active (put_page k ws s) pd /\
  (forall b, data_page (phys (mem s)) pd b <-> data_page (phys (mem (put_page k ws s))) pd b) /\
  (forall b, b <> k -> pages (phys (mem (put_page k ws s))) !! b = pages (phys (mem s)) !! b).
Proof.
  intros [Hok Hc] (Hu & Hne & Ht). pose proof (po_mem _ _ Hok) as Hm.
  assert (forall b i, b <> k -> used (phys (mem s)) b -> 0 <= i < 1024 ->
    word (<[k := ws]> (pages (phys (mem s)))) (b + 4 * i) = word (pages (phys (mem s))) (b + 4 * i)) as Hw.
  { intros b i Hb Hub Hi. destruct (used_aligned _ b Hm Hub) as [Hal _]. rewrite !word_at by done. by rewrite lookup_insert_ne. }
  assert (forall i, 0 <= i < 1024 -> word (<[k := ws]> (pages (phys (mem s)))) (pd + 4 * i) = word (pages (phys (mem s))) (pd + 4 * i)) as Hpd.
  { intros i Hi. apply Hw; [done|apply (po_used _ _ Hok)|done]. }
  assert (forall b, b <> k -> PageDir.entries (pages (phys (mem s))) b -> PageDir.entries (<[k := ws]> (pages (phys (mem s)))) b) as Hent.
  { intros b Hb (w & E & Hrest). exists w. by rewrite lookup_insert_ne. }
  split; [split; [|done]|split].
  - split; cbn.
    + by apply mem_ok_pages.
    + apply (po_used _ _ Hok).
    + apply Hent; [done|apply (po_entries _ _ Hok)].
    + intros i w Hi. rewrite Hpd by done. intros Hwi Hnz. destruct (po_tables _ _ Hok i w Hi Hwi Hnz) as [T1 T2 T3 T4].
      split; [done|done|done|]. apply Hent; [by apply (Ht i w)|done].
    + intros i j wi wj Hi Hj. rewrite !Hpd by done. by apply (po_distinct _ _ Hok).
  - intros b. unfold data_page. cbn. split; intros (B1 & B2 & B3); (split; [done|split; [done|]]);
      intros i w Hi; [rewrite Hpd by done|rewrite <- Hpd by done]; by apply B3.
  - intros b Hb. cbn. by rewrite lookup_insert_ne.
Qed.

(** * The swap table *)

(** The part of the state that swap keeps. *)
Record swap_state := mkSwap {
  w_slots : gmap Z swap_slot;
  w_list : list Z;
  w_disk : gmap Z (list Z);
  w_size : Z;
  w_next : Z;
  w_brk : Z
}.

Definition swap_of (s : vm) : swap_state :=
  mkSwap (slots s) (swap_list s) (swap_disk s) (swap_size s) (next_sector s) (vbrk s).

Definition slot_used (w : swap_state) (b : bool) (p : Z) : Prop :=
  exists l, w_slots w !! p = Some l /\ negb (sl_upage l =? NULL) = b.

Record slot_ok (w : swap_state) (p : Z) (l : swap_slot) : Prop := {
  so_addr : 0 < p < w_brk w;
  so_sector : 0 <= sl_sector l /\ sl_sector l mod 8 = 0 /\ sl_sector l + 8 <= w_next w
}.

(** Every sector below [next_sector] belongs to one slot of the list, the slots in use
    come first, and no two of them are for the same page. *)
Record swap_inv (w : swap_state) : Prop := {
  wi_nodup : NoDup (w_list w);
  wi_slot : forall p, p ∈ w_list w -> exists l, w_slots w !! p = Some l /\ slot_ok w p l;
  wi_sector : forall p q l m, p ∈ w_list w -> q ∈ w_list w -> w_slots w !! p = Some l -> w_slots w !! q = Some m ->
    sl_sector l = sl_sector m -> p = q;
  wi_page : forall p q l m, p ∈ w_list w -> q ∈ w_list w -> w_slots w !! p = Some l -> w_slots w !! q = Some m ->
    sl_upage l <> NULL -> sl_upage l = sl_upage m -> p = q;
  wi_order : exists used free, w_list w = used ++ free /\ Forall (slot_used w true) used /\ Forall (slot_used w false) free;
  wi_count : 8 * Zlen (w_list w) = w_next w;
  wi_size : w_next w <= w_size w /\ w_size w mod 8 = 0 /\ w_size w < 2 ^ 32;
  wi_disk : forall a, 0 <= a < w_size w -> is_Some (w_disk w !! a);
  wi_brk : 0 < w_brk w
}.

(** The contents of a page are in swap. *)
Definition stored (w : swap_state) (u : Z) (ws : list Z) : Prop :=
  exists p l, p ∈ w_list w /\ w_slots w !! p = Some l /\ sl_upage l = u /\ u <> NULL /\
    length ws = 1024%nat /\ forall j, (j < 8)%nat -> w_disk w !! (sl_sector l + Z.of_nat j) = Some (page_part ws j).

(** Swap as a map from pages to their contents. *)
Definition swap_abs (w : swap_state) (m : gmap Z (list Z)) : Prop :=
  (forall u ws, m !! u = Some ws -> stored w u ws) /\
  (forall p l, p ∈ w_list w -> w_slots w !! p = Some l -> sl_upage l <> NULL -> is_Some (m !! sl_upage l)).

(** The swap without a page's slot: it moves to the end of the list. *)
Definition released (p : Z) (l : swap_slot) (w : swap_state) : swap_state :=
  mkSwap (<[p := l]> (w_slots w)) (remove_elem p (w_list w) ++ [p]) (w_disk w) (w_size w) (w_next w) (w_brk w).

Lemma remove_elem_elem p q l : q ∈ remove_elem p l <-> q <> p /\ q ∈ l.
Proof. unfold remove_elem. rewrite list_elem_of_filter. done. Qed.

Lemma remove_elem_id p l : p ∉ l -> remove_elem p l = l.
Proof.
  induction l as [|a l IH]; [done|]. intros [Ha Hl]%not_elem_of_cons. unfold remove_elem in *.
  rewrite filter_cons_True by done. by rewrite IH.
Qed.

Lemma remove_elem_perm p l : NoDup l -> p ∈ l -> remove_elem p l ++ [p] ≡ₚ l.
Proof.
  intros Hnd Hp. apply NoDup_Permutation; [|done|].
  - apply NoDup_app. split; [by apply NoDup_filter|]. split; [|apply NoDup_singleton].
    intros x Hx ->%list_elem_of_singleton. by apply remove_elem_elem in Hx as [? _].
  - intros x. rewrite elem_of_app, list_elem_of_singleton, remove_elem_elem. destruct (decide (x = p)); naive_solver.
Qed.

Lemma released_inv w p l l' :
  swap_inv w -> p ∈ w_list w -> w_slots w !! p = Some l -> sl_upage l <> NULL ->
  sl_upage l' = NULL -> sl_sector l' = sl_sector l -> swap_inv (released p l' w).
Proof.
  intros Hi Hp Hl Hu Hl' Hs. pose proof (remove_elem_perm p _ (wi_nodup _ Hi) Hp) as Hperm.
  assert (forall q, q ∈ w_list (released p l' w) <-> q ∈ w_list w) as Hin by (intros q; cbn; by rewrite Hperm).
  assert (forall q m, w_slots (released p l' w) !! q = Some m -> exists m', w_slots w !! q = Some m' /\ sl_sector m = sl_sector m'
          /\ (sl_upage m <> NULL -> m = m')) as Hback.
  { intros q m. cbn. rewrite lookup_insert. case_decide as E; intros Hm; [|by exists m].
    subst q. injection Hm as <-. exists l. done. }
  destruct (wi_order _ Hi) as (us & fr & Hlist & Hus & Hfr). rewrite Forall_forall in Hus, Hfr.
  assert (p ∉ fr) as Hpf.
  { intros Hpf. destruct (Hfr p Hpf) as (m & Hm & Hb). rewrite Hl in Hm. injection Hm as <-.
    apply negb_false_iff, Z.eqb_eq in Hb. done. }
  constructor.
  - cbn. rewrite Hperm. apply (wi_nodup _ Hi).
  - intros q Hq. apply Hin in Hq. destruct (wi_slot _ Hi q Hq) as (m & Hm & [Ha Hb]). cbn. rewrite lookup_insert.
    case_decide as E; [subst q|by exists m]. rewrite Hl in Hm. injection Hm as <-. exists l'. split; [done|].
    constructor; [done|]. by rewrite Hs.
  - intros q r m n Hq Hr Hm Hn He. apply Hin in Hq, Hr. apply Hback in Hm as (m' & Hm & E1 & _), Hn as (n' & Hn & E2 & _).
    apply (wi_sector _ Hi q r m' n'); congruence.
  - intros q r m n Hq Hr Hm Hn Hnz He. apply Hin in Hq, Hr.
    apply Hback in Hm as (m' & Hm & _ & E1), Hn as (n' & Hn & _ & E2).
    rewrite <- E1 in Hm by done. rewrite <- E2 in Hn by congruence. apply (wi_page _ Hi q r m n); done.
  - exists (remove_elem p us), (fr ++ [p]). split; [|split; apply Forall_forall].
    + cbn. rewrite Hlist, app_assoc. f_equal. unfold remove_elem. rewrite filter_app. f_equal.
      apply remove_elem_id. done.
    + intros q (Hne & Hq)%remove_elem_elem. destruct (Hus q Hq) as (m & Hm & Hb). exists m. cbn. by rewrite lookup_insert_ne.
    + intros q [Hq| ->%list_elem_of_singleton]%elem_of_app.
      * destruct (Hfr q Hq) as (m & Hm & Hb). exists m. cbn. rewrite lookup_insert_ne; [done|by intros <-].
      * exists l'. cbn. rewrite lookup_insert_eq, Hl'. done.
  - transitivity (8 * Zlen (w_list w)); [|apply (wi_count _ Hi)]. cbn [released w_list]. by rewrite Hperm.
  - apply (wi_size _ Hi).
  - apply (wi_disk _ Hi).
  - apply (wi_brk _ Hi).
Qed.

Lemma released_abs w p l l' m :
  swap_inv w -> p ∈ w_list w -> w_slots w !! p = Some l -> sl_upage l <> NULL -> sl_upage l' = NULL ->
  swap_abs w m -> swap_abs (released p l' w) (delete (sl_upage l) m).
Proof.
  intros Hi Hp Hl Hu Hl' [Ha Hb]. pose proof (remove_elem_perm p _ (wi_nodup _ Hi) Hp) as Hperm. split.
  - intros u ws (Hne & Hm)%lookup_delete_Some. destruct (Ha u ws Hm) as (q & n & Hq & Hn & Hun & Hrest).
    exists q, n. cbn. rewrite Hperm. split; [done|]. split; [|done].
    rewrite lookup_insert_ne; [done|]. intros <-. congruence.
  - intros q n. cbn. rewrite Hperm. intros Hq Hn Hz. apply lookup_insert_Some in Hn as [[<- <-]|[Hne Hn]]; [done|].
    rewrite lookup_delete_ne; [by apply (Hb q n)|]. intros He. apply Hne. by apply (wi_page _ Hi p q l n).
Qed.

(** A new slot behind the others. *)
Definition fresh_slot (w : swap_state) : swap_state :=
  mkSwap (<[w_brk w := mkSlot 0 (w_next w) 0]> (w_slots w)) (w_list w ++ [w_brk w]) (w_disk w) (w_size w)
    (w_next w + 8) (w_brk w + 64).

Lemma fresh_lookup w p : swap_inv w -> p ∈ w_list w -> w_slots (fresh_slot w) !! p = w_slots w !! p.
Proof.
  intros Hi Hp. destruct (wi_slot _ Hi p Hp) as (l & _ & [Ha _]). cbn. rewrite lookup_insert_ne; [done|lia].
Qed.

Lemma fresh_next w : swap_inv w -> w_next w < w_size w -> w_next w + 8 <= w_size w.
Proof.
  intros Hi Hlt. destruct (wi_size _ Hi) as (_ & Hm & _). pose proof (wi_count _ Hi) as Hc.
  pose proof (Z.div_mod (w_size w) 8 ltac:(lia)). lia.
Qed.

Lemma fresh_inv w : swap_inv w -> w_next w < w_size w -> swap_inv (fresh_slot w).
Proof.
  intros Hi Hlt. pose proof (fresh_next w Hi Hlt) as Hfit. pose proof (wi_brk _ Hi) as Hbrk.
  assert (w_brk w ∉ w_list w) as Hnew by (intros Hin; destruct (wi_slot _ Hi _ Hin) as (l & _ & [Ha _]); lia).
  pose proof (wi_count _ Hi) as Hc. assert (0 <= Zlen (w_list w)) as Hlen by apply Nat2Z.is_nonneg.
  assert (forall q m, q ∈ w_list (fresh_slot w) -> w_slots (fresh_slot w) !! q = Some m ->
            (q ∈ w_list w /\ w_slots w !! q = Some m /\ sl_sector m < w_next w) \/
            (q = w_brk w /\ sl_sector m = w_next w /\ sl_upage m = NULL)) as Hcase.
  { intros q m [Hq| ->%list_elem_of_singleton]%elem_of_app Hm.
    - left. rewrite fresh_lookup in Hm by done. destruct (wi_slot _ Hi q Hq) as (l & Hl & [_ Hs]).
      rewrite Hl in Hm. injection Hm as <-. split; [done|]. split; [done|lia].
    - right. cbn in Hm. rewrite lookup_insert_eq in Hm. injection Hm as <-. done. }
  assert (forall b q, slot_used w b q -> q ∈ w_list w -> slot_used (fresh_slot w) b q) as Hkeep.
  { intros b q (l & Hl & Hb) Hq. exists l. by rewrite fresh_lookup. }
  constructor.
  - cbn. apply NoDup_app. split; [apply (wi_nodup _ Hi)|]. split; [|apply NoDup_singleton].
    intros x Hx ->%list_elem_of_singleton. done.
  - intros q [Hq| ->%list_elem_of_singleton]%elem_of_app.
    + destruct (wi_slot _ Hi q Hq) as (l & Hl & [Ha Hs]). exists l. rewrite fresh_lookup by done. split; [done|].
      constructor; cbn; lia.
    + eexists. cbn. rewrite lookup_insert_eq. split; [done|]. constructor; cbn; [lia|].
      split; [lia|]. split; [|lia]. rewrite <- Hc, Z.mul_comm. apply Z_mod_mult.
  - intros q r m n Hq Hr Hm Hn He. destruct (Hcase q m Hq Hm) as [(? & ? & ?)|(? & ? & ?)],
      (Hcase r n Hr Hn) as [(? & ? & ?)|(? & ? & ?)]; [by apply (wi_sector _ Hi q r m n)|lia|lia|congruence].
  - intros q r m n Hq Hr Hm Hn Hz He. destruct (Hcase q m Hq Hm) as [(? & ? & ?)|(? & ? & ?)],
      (Hcase r n Hr Hn) as [(? & ? & ?)|(? & ? & ?)]; [by apply (wi_page _ Hi q r m n)|congruence..].
  - destruct (wi_order _ Hi) as (us & fr & Hl & Hus & Hfr). exists us, (fr ++ [w_brk w]). rewrite Forall_forall in Hus, Hfr.
    split; [cbn; by rewrite Hl, app_assoc|]. split; apply Forall_forall.
    + intros q Hq. apply Hkeep; [by apply Hus|]. rewrite Hl. apply elem_of_app. by left.
    + intros q [Hq| ->%list_elem_of_singleton]%elem_of_app; [apply Hkeep; [by apply Hfr|rewrite Hl; apply elem_of_app; by right]|].
      eexists. cbn. by rewrite lookup_insert_eq.
  - cbn. rewrite length_app. cbn. lia.
  - destruct (wi_size _ Hi) as (_ & Hm & Hsz). cbn. lia.
  - apply (wi_disk _ Hi).
  - cbn. lia.
Qed.

Lemma fresh_abs w m : swap_inv w -> swap_abs w m -> swap_abs (fresh_slot w) m.
Proof.
  intros Hi [Ha Hb]. split.
  - intros u ws Hm. destruct (Ha u ws Hm) as (p & l & Hp & Hl & Hrest). exists p, l.
    rewrite fresh_lookup by done. cbn. rewrite elem_of_app. eauto.
  - intros p l [Hp| ->%list_elem_of_singleton]%elem_of_app Hl Hz.
    + rewrite fresh_lookup in Hl by done. by apply (Hb p l).
    + cbn in Hl. rewrite lookup_insert_eq in Hl. by injection Hl as <-.
Qed.

(** The last slot of the list taken for a page. *)
Definition occupied (p : Z) (l : swap_slot) (rest : list Z) (d : gmap Z (list Z)) (w : swap_state) : swap_state :=
  mkSwap (<[p := l]> (w_slots w)) (p :: rest) d (w_size w) (w_next w) (w_brk w).

Section occupy.
Context (w : swap_state) (p : Z) (l l' : swap_slot) (rest : list Z) (d : gmap Z (list Z)) (m : gmap Z (list Z)) (ws : list Z).
Context (Hi : swap_inv w) (Hlist : w_list w = rest ++ [p]) (Hl : w_slots w !! p = Some l) (Hfree : sl_upage l = NULL).
Context (Hsec : sl_sector l' = sl_sector l) (Hu : sl_upage l' <> NULL) (Habs : swap_abs w m) (Hnew : m !! sl_upage l' = None).
Context (Hd1 : forall j, (j < 8)%nat -> d !! (sl_sector l + Z.of_nat j) = Some (page_part ws j)).
Context (Hd2 : forall a, a < sl_sector l \/ sl_sector l + 8 <= a -> d !! a = w_disk w !! a).
Context (Hd3 : forall a, is_Some (w_disk w !! a) -> is_Some (d !! a)).

Lemma occupied_elem q : q ∈ w_list (occupied p l' rest d w) <-> q ∈ w_list w.
Proof. rewrite Hlist. cbn. rewrite elem_of_cons, elem_of_app, list_elem_of_singleton. tauto. Qed.

Lemma occupied_last : p ∈ w_list w /\ p ∉ rest.
Proof.
  pose proof (wi_nodup _ Hi) as Hnd. rewrite Hlist in Hnd |- *. apply NoDup_app in Hnd as (_ & Hnd & _).
  split; [apply elem_of_app; right; by apply list_elem_of_singleton|].
  intros Hr. apply (Hnd p Hr). by apply list_elem_of_singleton.
Qed.

Lemma occupied_lookup q n : w_slots (occupied p l' rest d w) !! q = Some n ->
  (q = p /\ n = l') \/ (q <> p /\ w_slots w !! q = Some n).
Proof. cbn. intros [[<- <-]|[Hne Hn]]%lookup_insert_Some; [by left|right]. done. Qed.

Lemma occupied_new q n : q ∈ w_list w -> w_slots w !! q = Some n -> sl_upage n <> sl_upage l'.
Proof.
  intros Hq Hn He. destruct Habs as [_ Hb]. destruct (Hb q n Hq Hn) as [x Hx]; [congruence|]. congruence.
Qed.

Lemma occupied_inv : swap_inv (occupied p l' rest d w).
Proof.
  destruct occupied_last as [Hp Hpr]. constructor.
  - cbn. pose proof (wi_nodup _ Hi) as Hnd. rewrite Hlist in Hnd. apply NoDup_app in Hnd as (Hnd & _). by constructor.
  - intros q Hq. apply occupied_elem in Hq. destruct (wi_slot _ Hi q Hq) as (n & Hn & [Ha Hb]). cbn. rewrite lookup_insert.
    case_decide as E; [subst q|by exists n]. exists l'. split; [done|]. rewrite Hl in Hn. injection Hn as <-.
    constructor; [done|]. by rewrite Hsec.
  - intros q r n n' Hq Hr Hn Hn' He. apply occupied_elem in Hq, Hr.
    apply occupied_lookup in Hn as [[-> ->]|[? Hn]], Hn' as [[-> ->]|[? Hn']]; [done| | |].
    + apply (wi_sector _ Hi p r l n'); congruence.
    + apply (wi_sector _ Hi q p n l); congruence.
    + by apply (wi_sector _ Hi q r n n').
  - intros q r n n' Hq Hr Hn Hn' Hz He. apply occupied_elem in Hq, Hr.
    apply occupied_lookup in Hn as [[-> ->]|[? Hn]], Hn' as [[-> ->]|[? Hn']]; [done| | |].
    + by destruct (occupied_new r n' Hr Hn').
    + by destruct (occupied_new q n Hq Hn).
    + by apply (wi_page _ Hi q r n n').
  - destruct (wi_order _ Hi) as (us & fr & E & Hus & Hfr). rewrite Forall_forall in Hus, Hfr.
    assert (exists fr', fr = fr' ++ [p] /\ rest = us ++ fr') as (fr' & -> & ->).
    { destruct fr as [|x fr _] using rev_ind.
      - rewrite app_nil_r in E. destruct (Hus p) as (n & Hn & Hb); [by rewrite <- E|]. rewrite Hl in Hn. injection Hn as <-.
        by rewrite Hfree in Hb.
      - rewrite Hlist, app_assoc in E. apply app_inj_tail in E as [-> <-]. by exists fr. }
    exists (p :: us), fr'. split; [done|]. split; apply Forall_forall.
    + intros q [->|Hq]%elem_of_cons.
      * exists l'. cbn. rewrite lookup_insert_eq. split; [done|]. by apply negb_true_iff, Z.eqb_neq.
      * destruct (Hus q Hq) as (n & Hn & Hb). exists n. cbn. rewrite lookup_insert_ne; [done|]. intros <-. apply Hpr.
        apply elem_of_app. by left.
    + intros q Hq. destruct (Hfr q) as (n & Hn & Hb); [apply elem_of_app; by left|]. exists n. cbn.
      rewrite lookup_insert_ne; [done|]. intros <-. apply Hpr. apply elem_of_app. by right.
  - transitivity (8 * Zlen (w_list w)); [|apply (wi_count _ Hi)]. rewrite Hlist. cbn. rewrite length_app. cbn. lia.
  - apply (wi_size _ Hi).
  - intros a Ha. apply Hd3. by apply (wi_disk _ Hi).
  - apply (wi_brk _ Hi).
Qed.

(** Two slots do not share sectors. *)
Lemma sectors_apart q n j : q ∈ w_list w -> q <> p -> w_slots w !! q = Some n -> (j < 8)%nat ->
  sl_sector n + Z.of_nat j < sl_sector l \/ sl_sector l + 8 <= sl_sector n + Z.of_nat j.
Proof.
  destruct occupied_last as [Hp _]. intros Hq Hne Hn Hj.
  destruct (wi_slot _ Hi q Hq) as (n' & Hn' & [_ (? & Hm & _)]), (wi_slot _ Hi p Hp) as (k & Hk & [_ (? & Hm' & _)]).
  assert (n' = n) as -> by congruence. assert (k = l) as -> by congruence.
  assert (sl_sector n <> sl_sector l) by (intros He; apply Hne; by apply (wi_sector _ Hi q p n l)).
  pose proof (Z.div_mod (sl_sector n) 8 ltac:(lia)). pose proof (Z.div_mod (sl_sector l) 8 ltac:(lia)). lia.
Qed.

Lemma occupied_abs : length ws = 1024%nat -> swap_abs (occupied p l' rest d w) (<[sl_upage l' := ws]> m).
Proof.
  intros Hws. destruct occupied_last as [Hp Hpr]. destruct Habs as [Ha Hb]. split.
  - intros u xs [[<- <-]|[Hne Hm]]%lookup_insert_Some.
    + exists p, l'. rewrite occupied_elem, Hsec. cbn. rewrite lookup_insert_eq. done.
    + destruct (Ha u xs Hm) as (q & n & Hq & Hn & Hun & Hnz & Hlen & Hdk). exists q, n. rewrite occupied_elem. cbn.
      assert (q <> p) as Hqp by (intros ->; congruence).
      rewrite lookup_insert_ne by done. split; [done|]. split; [done|]. split; [done|]. split; [done|]. split; [done|].
      intros j Hj. rewrite Hd2 by (by apply (sectors_apart q)). by apply Hdk.
  - intros q n Hq Hn Hz. apply occupied_elem in Hq. rewrite lookup_insert_is_Some.
    apply occupied_lookup in Hn as [[-> ->]|[Hne Hn]]; [by left|]. destruct (decide (sl_upage l' = sl_upage n)); [by left|right].
    split; [done|]. by apply (Hb q n).
Qed.

End occupy.

(** * The operations *)

Lemma last_snoc_inv {A} (l : list A) x : last l = Some x -> exists l', l = l' ++ [x] /\ removelast l = l'.
Proof.
  destruct l as [|y l _] using rev_ind; [done|]. rewrite last_snoc. intros [= ->]. exists l. split; [done|]. apply removelast_last.
Qed.

Definition swap_full (w : swap_state) : Prop := 8 * Zlen (w_list w) = w_size w /\ Forall (slot_used w true) (w_list w).

Lemma no_free_used w : swap_inv w -> (forall e, last (w_list w) = Some e -> slot_used w true e) -> Forall (slot_used w true) (w_list w).
Proof.
  intros Hi Hlast. destruct (wi_order _ Hi) as (us & fr & El & Hus & Hfr). rewrite El in *.
  destruct fr as [|x fr _] using rev_ind; [by rewrite app_nil_r|]. exfalso. rewrite app_assoc, last_snoc in Hlast.
  destruct (Hlast x eq_refl) as (l & Hl & Hb). apply Forall_app in Hfr as [_ Hfr]. apply Forall_singleton in Hfr as (l' & Hl' & Hb').
  congruence.
Qed.

(** A routine that takes a free slot out of the list, or finds that there is none. *)
Definition takes_slot (c : vmM Z) (s : vm) (m : gmap Z (list Z)) : Prop :=
  (c s = Ok (NULL, s) /\ swap_full (swap_of s)) \/
  exists p l rest w s', c s = Ok (p, s') /\ p <> NULL /\ swap_inv w /\ swap_abs w m /\ w_list w = rest ++ [p] /\
    w_slots w !! p = Some l /\ sl_upage l = NULL /\
    swap_of s' = mkSwap (w_slots w) rest (w_disk w) (w_size w) (w_next w) (w_brk w) /\
    mem s' = mem s /\ frames s' = frames s /\ entries s' = entries s /\ w_disk w = swap_disk s.

Lemma new_slot_run s m :
  swap_inv (swap_of s) -> swap_abs (swap_of s) m -> (forall e, last (swap_list s) = Some e -> slot_used (swap_of s) true e) ->
  takes_slot new_slot s m.
Proof.
  intros Hi Ha Hused. unfold takes_slot, new_slot. rewrite (run_bind _ _ _ s s) by done.
  destruct (next_sector s <? swap_size s) eqn:Hlt.
  - apply Z.ltb_lt in Hlt. right. exists (vbrk s), (mkSlot 0 (next_sector s) 0), (swap_list s), (fresh_slot (swap_of s)).
    pose proof (fresh_next _ Hi Hlt) as Hfit. destruct (wi_size _ Hi) as (_ & _ & Hsz). pose proof (wi_count _ Hi) as Hc.
    cbn [swap_of w_next w_size w_list] in Hfit, Hsz, Hc. assert (u32 (next_sector s + PGSIZE / 512) = next_sector s + 8) as Hnext.
    { change (PGSIZE / 512) with 8. apply (uwrap_id 32 ltac:(lia)). unfold in_u. lia. }
    pose proof (wi_brk _ Hi) as Hb. cbn in Hb.
    eexists. split; [reflexivity|]. split; [unfold NULL; lia|].
    split; [by apply fresh_inv|]. split; [by apply fresh_abs|]. split; [done|].
    split; [apply lookup_insert_eq|]. split; [done|]. split; [|done]. unfold swap_of. cbn -[u32]. by rewrite Hnext.
  - apply Z.ltb_ge in Hlt. left. split; [done|]. split; [|by apply no_free_used].
    destruct (wi_size _ Hi) as (Hle & _). pose proof (wi_count _ Hi). cbn [swap_of w_next w_size w_list] in *. lia.
Qed.

Lemma get_free_slot_run s m :
  swap_inv (swap_of s) -> swap_abs (swap_of s) m -> takes_slot get_free_slot s m.
Proof.
  intros Hi Ha. unfold takes_slot, get_free_slot. rewrite !(run_bind (gets swap_list) _ s (swap_list s) s) by done.
  destruct (last (swap_list s)) as [e|] eqn:He.
  2:{ rewrite !(run_bind (mret None) _ s None s) by done. apply new_slot_run; [done..|]. by rewrite He. }
  pose proof (last_snoc_inv _ _ He) as (rest & Hr & Hrm).
  destruct (wi_slot _ Hi e) as (l & Hl & [Hb _]).
  { cbn. rewrite Hr. apply elem_of_app. right. by apply list_elem_of_singleton. }
  assert (get_slot e s = Ok (l, s)) as Hget by (unfold get_slot; change (slots s !! e = Some l) in Hl; by rewrite Hl).
  rewrite !(run_bind _ _ s (if sl_upage l =? NULL then Some e else None) s) by (by rewrite (run_bind _ _ _ l s)).
  destruct (sl_upage l =? NULL) eqn:Hf.
  - right. apply Z.eqb_eq in Hf. exists e, l, rest, (swap_of s). eexists. split; [reflexivity|]. rewrite Hrm.
    split; [unfold NULL; lia|]. done.
  - apply new_slot_run; [done..|]. rewrite He. intros e' [= <-]. exists l. split; [done|]. by rewrite Hf.
Qed.

Lemma slot_run p l s : slots s !! p = Some l -> get_slot p s = Ok (l, s).
Proof. unfold get_slot. by intros ->. Qed.
Lemma entry_run p e s : entries s !! p = Some e -> get_entry p s = Ok (e, s).
Proof. unfold get_entry. by intros ->. Qed.
Lemma frame_run p f s : frames s !! p = Some f -> get_frame p s = Ok (f, s).
Proof. unfold get_frame. by intros ->. Qed.
Lemma upd_slot_run p l g s : slots s !! p = Some l -> upd_slot p g s = Ok (tt, set_slots (<[p := g l]> (slots s)) s).
Proof. unfold upd_slot. by intros ->. Qed.
Lemma upd_entry_run p e g s : entries s !! p = Some e -> upd_entry p g s = Ok (tt, set_entries (<[p := g e]> (entries s)) s).
Proof. unfold upd_entry. by intros ->. Qed.
Lemma upd_frame_run p f g s : frames s !! p = Some f -> upd_frame p g s = Ok (tt, set_frames (<[p := g f]> (frames s)) s).
Proof. unfold upd_frame. by intros ->. Qed.

(** A page in a frame. *)
Record resident (s : vm) (fp : Z) (f : frame) (e : page_entry) (ws : list Z) : Prop := {
  re_frame : frames s !! fp = Some f;
  re_nonnull : fp <> NULL /\ fr_upage f <> NULL;
  re_entry : entries s !! fr_upage f = Some e;
  re_link : pe_frame e = fp;
  re_words : pages (phys (mem s)) !! fr_kpage f = Some ws;
  re_length : length ws = 1024%nat
}.

Lemma push_run s pd m fp f e ws :
  active s pd -> data_page (phys (mem s)) pd (fr_kpage f) ->
  swap_inv (swap_of s) -> swap_abs (swap_of s) m -> resident s fp f e ws -> m !! fr_upage f = None ->
  (push_to_swap fp s = Ok (false, s) /\ swap_full (swap_of s)) \/
  exists slot s', push_to_swap fp s = Ok (true, s') /\ slot <> NULL /\
    swap_inv (swap_of s') /\ swap_abs (swap_of s') (<[fr_upage f := ws]> m) /\
    data_kept pd (mem s) (mem s') /\ frames s' = frames s /\ entries s' = <[fr_upage f := set_pe_swap slot e]> (entries s).
Proof.
  intros Hact Hdp Hi Ha [Hf [Hn Hu] He Hlink Hw Hlen] Hm.
  unfold push_to_swap. rewrite !(run_bind (assert (negb (fp =? NULL))) _ s tt s) by (apply Z.eqb_neq in Hn; by rewrite Hn).
  rewrite !(run_bind (get_frame fp) _ s f s) by by apply frame_run.
  rewrite !(run_bind (assert (negb (fr_upage f =? NULL))) _ s tt s) by (apply Z.eqb_neq in Hu; by rewrite Hu).
  destruct (get_free_slot_run s m Hi Ha) as [[Hr Hfull]|(p & l & rest & w & s1 & Hr & Hp & Hwi & Hwa & Hlist & Hl & Hfree & Hs1 & Hmem & Hfr & Hen & Hdk)].
  { left. split; [|done]. by rewrite (run_bind _ _ _ NULL s). }
  right. rewrite !(run_bind _ _ s p s1) by done. apply Z.eqb_neq in Hp as Hpb. rewrite Hpb. cbn [negb].
  injection Hs1 as Hsl Hswl Hsd Hsz Hnx Hbr. set (u := fr_upage f) in *.
  set (l1 := set_sl_upage u l). set (s2 := set_slots (<[p := l1]> (slots s1)) s1).
  rewrite !(run_bind _ _ s1 tt s2) by (apply upd_slot_run; by rewrite Hsl).
  set (e' := set_pe_swap p e). set (s3 := set_entries (<[u := e']> (entries s2)) s2).
  rewrite !(run_bind _ _ s2 tt s3) by (apply upd_entry_run; cbn; by rewrite Hen).
  rewrite !(run_bind _ _ s3 e' s3) by (apply entry_run, lookup_insert_eq).
  set (l2 := set_sl_tid (pe_tid e') l1). set (s4 := set_slots (<[p := l2]> (slots s3)) s3).
  rewrite !(run_bind _ _ s3 tt s4) by (apply upd_slot_run, lookup_insert_eq).
  destruct (occupied_last w p rest Hwi Hlist) as [Hpw _].
  destruct (wi_slot _ Hwi p Hpw) as (l0 & Hl0 & [_ Hsec]). assert (l0 = l) as -> by congruence.
  destruct (write_sectors_run (sl_sector l2) (fr_kpage f) ws 8 0 s4) as (d & Hwr & Hd1 & Hd2 & Hd3).
  - done.
  - change (pages (phys (mem s1)) !! fr_kpage f = Some ws). by rewrite Hmem.
  - intros j Hj. change (is_Some (swap_disk s1 !! (sl_sector l + Z.of_nat j))). rewrite Hsd. apply (wi_disk _ Hwi).
    destruct (wi_size _ Hwi) as (? & _). lia.
  - lia.
  - destruct (touch_space false (fr_kpage f) (set_swap_disk d s4) pd) as (v & Htouch & [Hkept _ _]).
    { unfold active. change (mem (set_swap_disk d s4)) with (mem s1). by rewrite Hmem. }
    { destruct Hact as [Hpo _]. destruct (used_aligned _ _ (po_mem _ _ Hpo) (proj1 Hdp)) as [_ ?]. unfold PHYS_BASE in *. lia. }
    change (mem (set_swap_disk d s4)) with (mem s1) in Hkept. rewrite Hmem in Hkept.
    exists p, (set_swap_list (p :: swap_list s1) (set_mem v (set_swap_disk d s4))).
    change (swap_disk s4) with (swap_disk s1) in Hd2, Hd3. rewrite Hsd in Hd2, Hd3.
    assert (swap_of (set_swap_list (p :: swap_list s1) (set_mem v (set_swap_disk d s4))) = occupied p l2 rest d w) as Hof.
    { unfold swap_of, occupied. cbn. by rewrite insert_insert_eq, Hsl, Hswl, Hsz, Hnx, Hbr. }
    split; [|split; [done|rewrite Hof; split; [|split; [|split; [|split]]]]].
    + rewrite (run_bind _ _ s4 tt (set_mem v (set_swap_disk d s4))); [done|]. unfold write_swap.
      rewrite (run_bind _ _ s4 l2 s4) by (apply slot_run, lookup_insert_eq).
      rewrite (run_bind _ _ s4 (fr_kpage f) s4).
      * by rewrite (run_bind _ _ _ _ _ Hwr).
      * unfold slot_kpage. rewrite (run_bind _ _ s4 e' s4) by (apply entry_run, lookup_insert_eq).
        rewrite (run_bind _ _ s4 f s4); [done|]. apply frame_run. change (frames s1 !! pe_frame e = Some f). by rewrite Hfr, Hlink.
    + by apply (occupied_inv w p l l2 rest d m).
    + by apply (occupied_abs w p l l2 rest d m ws).
    + done.
    + done.
    + cbn. by rewrite Hen.
Qed.

Lemma find_slot_of_run w s u p l : forall ls,
  slots s = w_slots w -> u <> NULL -> (forall q, q ∈ ls -> is_Some (w_slots w !! q)) ->
  (forall q n, q ∈ ls -> w_slots w !! q = Some n -> sl_upage n = u -> q = p) ->
  p ∈ ls -> w_slots w !! p = Some l -> sl_upage l = u -> find_slot_of ls u s = Ok (p, s).
Proof.
  intros ls Hs Hu. induction ls as [|q ls IH]; intros Hsome Huniq Hp Hl Hlu; [by apply not_elem_of_nil in Hp|].
  cbn [find_slot_of]. destruct (Hsome q) as [n Hn]; [apply list_elem_of_here|].
  rewrite (run_bind _ _ _ n s) by (apply slot_run; by rewrite Hs).
  destruct (decide (sl_upage n = u)) as [E|E].
  - assert (q = p) as -> by (apply (Huniq q n); [apply list_elem_of_here|done|done]). rewrite E, Z.eqb_refl.
    apply Z.eqb_neq in Hu. by rewrite Hu.
  - apply Z.eqb_neq in E as E'. rewrite E', andb_false_r. apply IH; [..|done|done].
    + intros r Hr. apply Hsome. by apply list_elem_of_further.
    + intros r k Hr. apply Huniq. by apply list_elem_of_further.
    + apply elem_of_cons in Hp as [->|Hp]; [congruence|done].
Qed.

Lemma put_same k ws s : pages (phys (mem s)) !! k = Some ws -> put_page k ws s = s.
Proof.
  intros Hk. unfold put_page, with_pages. destruct s as [[[kp up pg] c] fr al ch en tb sl sw sd sz ns cu pd br fs]. cbn in *.
  by rewrite insert_id.
Qed.

Lemma pull_run s pd m u e f ws old :
  active s pd -> data_page (phys (mem s)) pd (fr_kpage f) ->
  swap_inv (swap_of s) -> swap_abs (swap_of s) m -> m !! u = Some ws ->
  entries s !! u = Some e -> frames s !! pe_frame e = Some f ->
  pages (phys (mem s)) !! fr_kpage f = Some old -> length old = 1024%nat ->
  exists s', pull_from_swap u s = Ok (true, s') /\
    swap_inv (swap_of s') /\ swap_abs (swap_of s') (delete u m) /\
    space_kept pd (put_page (fr_kpage f) ws s) s' /\ frames s' = frames s /\
    entries s' = <[u := set_pe_swap NULL e]> (entries s) /\ current s' = current s /\ pagedirs s' = pagedirs s /\
    tables s' = tables s.
Proof.
  intros Hact Hdp Hi Ha Hm He Hf Hold Hlen. destruct (put_page_kept pd (fr_kpage f) ws s Hact Hdp) as (Hact1 & _ & _).
  destruct (touch_space true (fr_kpage f) (put_page (fr_kpage f) ws s) pd Hact1) as (v & Htouch & Hkept).
  { destruct Hact as [Hpo _]. destruct (used_aligned _ _ (po_mem _ _ Hpo) (proj1 Hdp)) as [_ ?]. unfold PHYS_BASE in *. lia. }
  pose proof Ha as [Ha1 _]. destruct (Ha1 u ws Hm) as (p & l & Hp & Hl & Hlu & Hu & Hlw & Hd).
  destruct (wi_slot _ Hi p Hp) as (l0 & Hl0 & [Haddr _]). assert (p <> NULL) as Hpn by (unfold NULL; lia).
  unfold pull_from_swap. rewrite (run_bind _ _ _ tt s) by (apply Z.eqb_neq in Hu; by rewrite Hu).
  rewrite (run_bind _ _ _ p s).
  2:{ unfold get_swapped_page. rewrite (run_bind _ _ _ (swap_list s) s) by done.
      apply (find_slot_of_run (swap_of s) s u p l); [done|done| | |done|done|done].
      - intros q Hq. destruct (wi_slot _ Hi q Hq) as (n & Hn & _). by exists n.
      - intros q n Hq Hn Hnu. symmetry. apply (wi_page _ Hi p q l n); by rewrite ?Hlu. }
  apply Z.eqb_neq in Hpn. rewrite Hpn. cbn [negb]. cbn [swap_of w_slots w_list w_disk] in Hp, Hl, Hd.
  set (s1 := set_mem v (put_page (fr_kpage f) ws s)).
  rewrite (run_bind _ _ _ tt s1).
  2:{ unfold read_swap. rewrite (run_bind _ _ _ l s) by by apply slot_run.
      rewrite (run_bind _ _ _ (fr_kpage f) s).
      - rewrite (run_bind _ _ _ tt (put_page (fr_kpage f) ws s)); [done|].
        apply (read_sectors_run _ _ _ 8 0 s old); [done|done|done|done|done|done|by apply put_same].
      - unfold slot_kpage. rewrite Hlu. rewrite (run_bind _ _ _ e s) by by apply entry_run.
        by rewrite (run_bind _ _ _ f s) by by apply frame_run. }
  rewrite (run_bind _ _ _ l s1) by by apply slot_run. rewrite Hlu.
  rewrite (run_bind _ _ _ tt (set_entries (<[u := set_pe_swap NULL e]> (entries s1)) s1)) by by apply upd_entry_run.
  set (s2 := set_entries _ s1).
  rewrite (run_bind _ _ _ tt (set_slots (<[p := set_sl_upage NULL l]> (slots s2)) s2)) by by apply upd_slot_run.
  eexists. split; [reflexivity|].
  assert (sl_upage l <> NULL) as Hlz by congruence.
  split; [by apply (released_inv (swap_of s) p l (set_sl_upage NULL l))|].
  split; [subst u; by apply (released_abs (swap_of s) p l (set_sl_upage NULL l))|].
  split; [|done]. destruct Hkept as [K1 K2 K3]. by split.
Qed.

Lemma swap_free_run s m p l e ws :
  swap_inv (swap_of s) -> swap_abs (swap_of s) m -> p ∈ swap_list s -> slots s !! p = Some l ->
  m !! sl_upage l = Some ws -> entries s !! sl_upage l = Some e -> pe_swap e = p ->
  exists s', free_swap p s = Ok (tt, s') /\
    swap_inv (swap_of s') /\ swap_abs (swap_of s') (delete (sl_upage l) m) /\
    mem s' = mem s /\ frames s' = frames s /\ entries s' = <[sl_upage l := set_pe_swap NULL e]> (entries s).
Proof.
  intros Hi Ha Hp Hl Hm He Hlink. pose proof Ha as [Ha1 _]. destruct (Ha1 _ _ Hm) as (_ & _ & _ & _ & _ & Hu & _).
  destruct (wi_slot _ Hi p Hp) as (l0 & Hl0 & [Haddr _]). assert (p <> NULL) as Hpn by (unfold NULL; lia).
  unfold free_swap. rewrite (run_bind _ _ _ tt s) by (apply Z.eqb_neq in Hpn; by rewrite Hpn).
  rewrite (run_bind _ _ _ l s) by by apply slot_run.
  rewrite (run_bind _ _ _ tt s) by (apply Z.eqb_neq in Hu; by rewrite Hu).
  rewrite (run_bind _ _ _ e s) by by apply entry_run.
  rewrite (run_bind _ _ _ tt s) by (apply Z.eqb_neq in Hpn; by rewrite Hlink, Hpn).
  rewrite (run_bind _ _ _ tt (set_entries (<[sl_upage l := set_pe_swap NULL e]> (entries s)) s)) by by apply upd_entry_run.
  set (s2 := set_entries _ s).
  rewrite (run_bind _ _ _ tt (set_slots (<[p := set_sl_upage NULL l]> (slots s2)) s2)) by by apply upd_slot_run.
  eexists. split; [reflexivity|].
  split; [by apply (released_inv (swap_of s) p l (set_sl_upage NULL l))|].
  split; [|done]. by apply (released_abs (swap_of s) p l (set_sl_upage NULL l)).
Qed.

(** * Swap is a map from pages to contents *)

(** Whether a page's contents are pushed, pulled or dropped. *)
Inductive swap_op := Push (fp : Z) | Pull (u : Z) | Drop_slot (p : Z).

(** What an operation needs of the rest of the system. *)
Definition swap_ready (s : vm) (pd : Z) (m : gmap Z (list Z)) (o : swap_op) : Prop :=
  match o with
  | Push fp => exists f e ws, resident s fp f e ws /\ data_page (phys (mem s)) pd (fr_kpage f) /\ m !! fr_upage f = None
  | Pull u => is_Some (m !! u) /\ exists e f old, entries s !! u = Some e /\ frames s !! pe_frame e = Some f /\
                data_page (phys (mem s)) pd (fr_kpage f) /\
                pages (phys (mem s)) !! fr_kpage f = Some old /\ length old = 1024%nat
  | Drop_slot p => p ∈ swap_list s /\ exists l e, slots s !! p = Some l /\ is_Some (m !! sl_upage l) /\
                entries s !! sl_upage l = Some e /\ pe_swap e = p
  end.

Definition swap_step (o : swap_op) : vmM bool :=
  match o with
  | Push fp => push_to_swap fp
  | Pull u => pull_from_swap u
  | Drop_slot p => free_swap p;; mret true
  end.

(** The same on the map; the frame of the page gets the contents that are pulled.  The other pages of data stay as
    they are. *)
Definition swap_result (s : vm) (pd : Z) (m : gmap Z (list Z)) (o : swap_op) (r : bool) (s' : vm) (m' : gmap Z (list Z)) : Prop :=
  match o with
  | Push fp =>
      exists f e ws, resident s fp f e ws /\ data_kept pd (mem s) (mem s') /\
        (r = true /\ m' = <[fr_upage f := ws]> m \/ r = false /\ m' = m /\ s' = s /\ swap_full (swap_of s))
  | Pull u =>
      exists e f ws, r = true /\ entries s !! u = Some e /\ frames s !! pe_frame e = Some f /\ m !! u = Some ws /\
        m' = delete u m /\ pages (phys (mem s')) !! fr_kpage f = Some ws /\
        forall k, data_page (phys (mem s)) pd k -> k <> fr_kpage f -> pages (phys (mem s')) !! k = pages (phys (mem s)) !! k
  | Drop_slot p => exists l, r = true /\ slots s !! p = Some l /\ m' = delete (sl_upage l) m /\ mem s' = mem s
  end.

(** C19: swap is a map from pages to their contents: pushing a page stores all 1024 words of its frame, or fails and
    changes nothing, which happens only when the device has no sectors left and every slot is in use (the comments say
    that the kernel panics then; it does not); pulling a page copies the stored words to the page's frame and removes the
    page; freeing a slot removes its page; every other page keeps its contents, and the slots stay disjoint.  The size of
    the swap device is a multiple of the 8 sectors of a page, and [malloc] gives every slot it is asked for. *)
Theorem swap_refines s pd m o :
  active s pd -> swap_inv (swap_of s) -> swap_abs (swap_of s) m -> swap_ready s pd m o ->
  exists r s' m', swap_step o s = Ok (r, s') /\ swap_result s pd m o r s' m' /\
    active s' pd /\ swap_inv (swap_of s') /\ swap_abs (swap_of s') m' /\ frames s' = frames s.
Proof.
  intros Hact Hi Ha. destruct o as [fp|u|p]; cbn [swap_ready swap_step swap_result].
  - intros (f & e & ws & Hre & Hdp & Hm). destruct (push_run s pd m fp f e ws Hact Hdp Hi Ha Hre Hm) as
      [[Hr Hfull]|(slot & s' & Hr & _ & Hi' & Ha' & Hmem & Hfr & _)].
    + exists false, s, m. split; [done|]. split; [|done]. exists f, e, ws. split; [done|].
      split; [by apply data_kept_refl, Hact|]. by right.
    + exists true, s', (<[fr_upage f := ws]> m). split; [done|]. split; [|split; [by apply (kept_active s)|done]].
      exists f, e, ws. split; [done|]. split; [done|]. by left.
  - intros ([ws Hm] & e & f & old & He & Hf & Hdp & Hold & Hlen).
    destruct (pull_run s pd m u e f ws old Hact Hdp Hi Ha Hm He Hf Hold Hlen) as (s' & Hr & Hi' & Ha' & [Hmem _ _] & Hfr & _).
    destruct (put_page_kept pd (fr_kpage f) ws s Hact Hdp) as (Hact1 & Hdata & Hpages).
    exists true, s', (delete u m). split; [done|]. split; [|split; [by apply (kept_active (put_page (fr_kpage f) ws s))|done]].
    exists e, f, ws. split; [done|]. split; [done|]. split; [done|]. split; [done|]. split; [done|]. split.
    + rewrite (dk_pages _ _ _ Hmem) by by apply Hdata. apply lookup_insert_eq.
    + intros k Hk Hne. rewrite (dk_pages _ _ _ Hmem) by by apply Hdata. by apply Hpages.
  - intros (Hp & l & e & Hl & [ws Hm] & He & Hlink).
    destruct (swap_free_run s m p l e ws Hi Ha Hp Hl Hm He Hlink) as (s' & Hr & Hi' & Ha' & Hmem & Hfr & _).
    exists true, s', (delete (sl_upage l) m). split; [by rewrite (run_bind _ _ _ tt s')|]. split; [by exists l|].
    split; [|done]. unfold active. by rewrite Hmem.
Qed.

(** A slot in use by a thread. *)
Definition slot_of (w : swap_state) (tid p : Z) (l : swap_slot) : Prop :=
  w_slots w !! p = Some l /\ sl_upage l <> NULL /\ sl_tid l = tid.

Lemma clean_loop_run w tid : forall ls s,
  slots s = w_slots w -> (forall p, p ∈ ls -> is_Some (w_slots w !! p)) ->
  (clean_loop ls tid s = Ok (tt, s) /\ forall p l, p ∈ ls -> ~ slot_of w tid p l) \/
  exists p l, p ∈ ls /\ slot_of w tid p l /\
    clean_loop ls tid s = rotate_slot p (set_slots (<[p := set_sl_upage NULL (set_sl_tid 0 l)]> (slots s)) s).
Proof.
  induction ls as [|q ls IH]; intros s Hs Hsome; [left; split; [done|by intros p l Hp%not_elem_of_nil]|].
  cbn [clean_loop]. destruct (Hsome q) as [n Hn]; [apply list_elem_of_here|].
  rewrite !(run_bind (get_slot q) _ s n s) by (apply slot_run; by rewrite Hs).
  destruct (decide (sl_upage n <> NULL /\ sl_tid n = tid)) as [[Hu Ht]|Hno].
  - right. exists q, n. split; [apply list_elem_of_here|]. split; [done|]. apply Z.eqb_neq in Hu as ->.
    rewrite Ht, Z.eqb_refl. cbn [negb andb]. rewrite (run_bind _ _ _ _ _ (upd_slot_run q n _ s ltac:(by rewrite Hs))). done.
  - assert (negb (sl_upage n =? NULL) && (sl_tid n =? tid) = false) as ->.
    { apply andb_false_iff. destruct (Z.eqb_spec (sl_upage n) NULL); [by left|right]. apply Z.eqb_neq. naive_solver. }
    destruct (IH s Hs) as [[Hr Hnone]|(p & l & Hp & Hpl & Hr)]; [intros p Hp; apply Hsome; by apply list_elem_of_further| |].
    + left. split; [done|]. intros p l [->|Hp]%elem_of_cons (Hl & Hpl); [|by apply (Hnone p l)]. rewrite Hn in Hl.
      injection Hl as <-. done.
    + right. exists p, l. split; [by apply list_elem_of_further|]. done.
Qed.

(** [clean_swap] frees one slot of the thread, not all of them: if the thread has pages in swap, exactly one of
    them is dropped, and with two or more the others are still there. *)
Theorem clean_swap_drops_one s m tid :
  swap_inv (swap_of s) -> swap_abs (swap_of s) m ->
  exists s' m', clean_swap tid s = Ok (true, s') /\ swap_inv (swap_of s') /\ swap_abs (swap_of s') m' /\
    ((m' = m /\ forall p l, p ∈ swap_list s -> ~ slot_of (swap_of s) tid p l) \/
     exists p l, p ∈ swap_list s /\ slot_of (swap_of s) tid p l /\ m' = delete (sl_upage l) m /\
       forall q n, q ∈ swap_list s -> q <> p -> slot_of (swap_of s) tid q n -> is_Some (m' !! sl_upage n)).
Proof.
  intros Hi Ha. unfold clean_swap. destruct (clean_loop_run (swap_of s) tid (swap_list s) s) as
    [[Hr Hnone]|(p & l & Hp & (Hl & Hu & Ht) & Hr)]; [done| | |].
  - intros p Hp. destruct (wi_slot _ Hi p Hp) as (l & Hl & _). by exists l.
  - exists s, m. rewrite (run_bind _ _ _ (swap_list s) s), (run_bind _ _ _ tt s) by done. split; [done|]. split; [done|]. split; [done|]. by left.
  - eexists _, (delete (sl_upage l) m). rewrite (run_bind _ _ _ (swap_list s) s), (run_bind _ _ _ _ _ Hr) by done.
    split; [done|]. split; [by apply (released_inv (swap_of s) p l)|]. split; [by apply (released_abs (swap_of s) p l)|].
    right. exists p, l. split; [done|]. split; [done|]. split; [done|]. intros q n Hq Hne (Hn & Hnu & _).
    rewrite lookup_delete_ne; [|intros E; apply Hne; by apply (wi_page _ Hi q p n l)]. destruct Ha as [_ Hb]. by apply (Hb q n).
Qed.

(** The table after [swap_init]. *)
Lemma swap_init_inv n s :
  0 <= n -> n mod 8 = 0 -> n < 2 ^ 32 -> (forall a, 0 <= a < n -> is_Some (swap_disk s !! a)) -> 0 < vbrk s ->
  exists s', swap_init n s = Ok (tt, s') /\ swap_inv (swap_of s') /\ swap_abs (swap_of s') ∅.
Proof.
  intros H0 Hn Hsz Hd Hb. eexists. split; [reflexivity|]. split.
  - constructor; cbn; try done.
    + apply NoDup_nil_2.
    + by intros p Hp%not_elem_of_nil.
    + by intros p q l m Hp%not_elem_of_nil.
    + by intros p q l m Hp%not_elem_of_nil.
    + by exists [], [].
  - split; [done|]. by intros p l Hp%not_elem_of_nil.
Qed.

(** A directory with one page table. *)
Lemma pd_ok_single m pd j w :
  mem_ok m -> used m pd -> (j < 1024)%nat -> in_u 32 w -> pages m !! pd = Some (<[j := w]> (replicate 1024 0)) ->
  table_ok m pd w -> pd_ok m pd.
Proof.
  intros Hm Hu Hj Hw Hp Ht. destruct (used_aligned m pd Hm Hu) as [Ha _].
  assert (forall i x, 0 <= i < 1024 -> word (pages m) (pd + 4 * i) = Some x -> x <> 0 -> i = Z.of_nat j /\ x = w) as Hone.
  { intros i x Hi. rewrite word_at, Hp by done. cbn [mbind option_bind]. destruct (decide (Z.to_nat i = j)) as [Ei|Ei].
    - rewrite Ei, list_lookup_insert_eq by (rewrite length_replicate; lia). intros [= <-] _. split; [lia|done].
    - rewrite list_lookup_insert_ne by lia. intros [-> _]%lookup_replicate. done. }
  split; [done|done| | |].
  - eexists. split; [done|]. split; [by rewrite length_insert, length_replicate|]. apply Forall_insert; [|done].
    apply Forall_replicate. unfold in_u. lia.
  - intros i x Hi Hx Hnz. by destruct (Hone i x Hi Hx Hnz) as [_ ->].
  - intros i1 i2 w1 w2 H1 H2 E1 E2 N1 N2 _. destruct (Hone i1 w1 H1 E1 N1) as [-> _], (Hone i2 w2 H2 E2 N2) as [-> _]. done.
Qed.

(** Two pages in frames, mapped in a directory, and a swap device of two pages. *)
Definition demo_page : list Z := replicate 256 5 ++ replicate 768 6.
Definition demo_page2 : list Z := replicate 1024 8.

Definition demo_pool : pmem :=
  match (palloc_get_page PAL_ZERO;; palloc_get_page PAL_ZERO;; palloc_get_page PAL_USER;; palloc_get_page PAL_USER) demo_mem with
  | Ok (_, m) => m
  | Err _ => demo_mem
  end.

Definition demo_paged : pmem :=
  set_pages (<[0xc0101000 := <[32%nat := 0x102007]> (replicate 1024 0)]>
            (<[0xc0102000 := <[72%nat := 0x121007]> (<[73%nat := 0x122007]> (replicate 1024 0))]>
            (<[0xc0121000 := demo_page]> (<[0xc0122000 := demo_page2]> ∅)))) demo_pool.

Definition demo_vm : vm :=
  mkVM (mkVm demo_paged 0x101000)
    {[ 128 := mkFrame 3 64 0xc0121000 false false; 192 := mkFrame 3 96 0xc0122000 true false ]} [128; 192] None
    {[ 64 := mkEntry 3 0x8048000 true 128 0 0 0 0; 96 := mkEntry 3 0x8049000 true 192 0 0 0 0 ]} {[ 3 := [64; 96] ]} ∅ []
    (list_to_map (zip (seqZ 0 16) (replicate 16 (replicate 128 0)))) 16 0 3 {[ 3 := 0xc0101000 ]} 256 demo_fs.

Lemma demo_paged_ok : mem_ok demo_paged.
Proof.
  split; [split|split|]; try (by vm_compute).
  - split; [by vm_compute..|]. unfold in_u. apply (bool_decide_unpack _). by vm_compute.
  - split; [by vm_compute..|]. unfold in_u. apply (bool_decide_unpack _). by vm_compute.
Qed.

Lemma demo_active : active demo_vm 0xc0101000.
Proof.
  split; [|reflexivity]. apply (pd_ok_single _ _ 32 0x102007).
  - apply demo_paged_ok.
  - apply usedb_used. vm_compute. reflexivity.
  - lia.
  - unfold in_u. lia.
  - apply lookup_insert_eq.
  - split; [reflexivity|apply usedb_used; vm_compute; reflexivity|vm_compute; discriminate|].
    exists (<[72%nat := 0x121007]> (<[73%nat := 0x122007]> (replicate 1024 0))). split; [|split].
    + change (tab 0x102007) with 0xc0102000. etransitivity; [apply lookup_insert_ne; lia|apply lookup_insert_eq].
    + vm_compute. reflexivity.
    + apply Forall_insert; [apply Forall_insert; [apply Forall_replicate; unfold in_u; lia|unfold in_u; lia]|unfold in_u; lia].
Qed.

Lemma demo_data k : k = 0xc0121000 \/ k = 0xc0122000 -> data_page (phys (mem demo_vm)) 0xc0101000 k.
Proof.
  intros Hk. split; [|split].
  - apply usedb_used. destruct Hk as [-> | ->]; vm_compute; reflexivity.
  - destruct Hk as [-> | ->]; lia.
  - intros i w Hi. rewrite word_at by (lia || (vm_compute; reflexivity)). cbn [demo_vm mem phys demo_paged set_pages pages].
    rewrite lookup_insert_eq. cbn [mbind option_bind]. destruct (decide (Z.to_nat i = 32%nat)) as [-> |Hne].
    + rewrite list_lookup_insert_eq by (rewrite length_replicate; lia). intros [= <-] _. destruct Hk as [-> | ->]; vm_compute; discriminate.
    + rewrite list_lookup_insert_ne by lia. intros [-> _]%lookup_replicate Hz. congruence.
Qed.

Lemma demo_vm_inv : swap_inv (swap_of demo_vm) /\ swap_abs (swap_of demo_vm) ∅.
Proof.
  destruct (swap_init_inv 16 demo_vm) as (s' & Hr & Hi & Ha); [lia|reflexivity|lia| |cbn; lia|].
  - intros a Ha. assert (Forall (fun a => is_Some (swap_disk demo_vm !! a)) (seqZ 0 16)) as Hall.
    { apply (bool_decide_unpack _). by vm_compute. }
    rewrite Forall_forall in Hall. apply Hall, elem_of_seqZ. lia.
  - injection Hr as <-. split; [exact Hi|exact Ha].
Qed.

Lemma demo_resident : resident demo_vm 128 (mkFrame 3 64 0xc0121000 false false) (mkEntry 3 0x8048000 true 128 0 0 0 0) demo_page.
Proof.
  split; [reflexivity|unfold NULL; cbn; lia|reflexivity|reflexivity| |vm_compute; reflexivity].
  cbn [demo_vm mem phys demo_paged set_pages pages fr_kpage]. rewrite !lookup_insert_ne by lia. apply lookup_insert_eq.
Qed.

Lemma swap_refines_witness :
  exists s' m', push_to_swap 128 demo_vm = Ok (true, s') /\ swap_abs (swap_of s') m' /\ m' !! 64 = Some demo_page.
Proof.
  destruct demo_vm_inv as [Hi Ha].
  destruct (swap_refines demo_vm 0xc0101000 ∅ (Push 128) demo_active Hi Ha) as (r & s' & m' & Hr & Hres & _ & _ & Ha' & _).
  - eexists _, _, _. split; [exact demo_resident|]. split; [apply demo_data; left; reflexivity|]. apply lookup_empty.
  - exists s', m'. destruct Hres as (f & e & ws & Hre & _ & [[-> ->]|(_ & _ & _ & Hfull & _)]); [|vm_compute in Hfull; discriminate Hfull].
    split; [exact Hr|]. split; [exact Ha'|]. destruct Hre as [Hf _ _ _ Hw _], demo_resident as [Hf' _ _ _ Hw' _].
    rewrite Hf in Hf'. injection Hf' as ->. rewrite Hw in Hw'. injection Hw' as ->. apply lookup_insert_eq.
Defined.

(** Both pages in swap. *)
Lemma demo_swapped :
  exists s m, (push_to_swap 128;; push_to_swap 192) demo_vm = Ok (true, s) /\
    swap_inv (swap_of s) /\ swap_abs (swap_of s) m /\ is_Some (m !! 64) /\ is_Some (m !! 96).
Proof.
  destruct demo_vm_inv as [Hi Ha]. pose proof (demo_data 0xc0122000 ltac:(right; reflexivity)) as Hd2.
  destruct (push_run demo_vm 0xc0101000 ∅ 128 (mkFrame 3 64 0xc0121000 false false) _ _ demo_active (demo_data 0xc0121000 ltac:(left; reflexivity)) Hi Ha demo_resident)
    as [[_ [Hf _]]|(sl & s1 & Hr & _ & Hi1 & Ha1 & Hm1 & Hf1 & He1)];
    [apply lookup_empty|vm_compute in Hf; discriminate Hf|]. rewrite (run_bind _ _ _ _ _ Hr).
  destruct (push_run s1 0xc0101000 _ 192 (mkFrame 3 96 0xc0122000 true false) (mkEntry 3 0x8049000 true 192 0 0 0 0) demo_page2
    (kept_active demo_vm s1 _ demo_active Hm1) (dk_data _ _ _ Hm1 _ Hd2) Hi1 Ha1)
    as [[Hr2 _]|(sl2 & s2 & Hr2 & _ & Hi2 & Ha2 & _)].
  - split; [rewrite Hf1; vm_compute; reflexivity|unfold NULL; cbn; lia|rewrite He1|reflexivity| |vm_compute; reflexivity].
    + rewrite lookup_insert_ne by (cbn; lia). vm_compute. reflexivity.
    + cbn [fr_kpage]. rewrite (dk_pages _ _ _ Hm1) by exact Hd2. cbn [demo_vm mem phys demo_paged set_pages pages].
      rewrite !lookup_insert_ne by lia. apply lookup_insert_eq.
  - rewrite lookup_insert_ne by (cbn; lia). apply lookup_empty.
  - exfalso. assert (fst <$> (push_to_swap 128;; push_to_swap 192) demo_vm = Ok false) as Hc
      by (rewrite (run_bind _ _ _ _ _ Hr), Hr2; reflexivity). vm_compute in Hc. discriminate Hc.
  - eexists _, _. split; [exact Hr2|]. split; [exact Hi2|]. split; [exact Ha2|]. cbn [fr_upage]. split.
    + rewrite lookup_insert_ne, lookup_insert_eq by lia. eexists. reflexivity.
    + rewrite lookup_insert_eq. eexists. reflexivity.
Qed.

Lemma clean_swap_drops_one_witness :
  exists s' m', (push_to_swap 128;; push_to_swap 192;; clean_swap 3) demo_vm = Ok (true, s') /\
    swap_abs (swap_of s') m' /\ (is_Some (m' !! 64) \/ is_Some (m' !! 96)).
Proof.
  destruct demo_swapped as (s & m & Hr & Hi & Ha & H64 & H96).
  destruct (clean_swap_drops_one s m 3 Hi Ha) as (s' & m' & Hc & _ & Ha' & Hm'). exists s', m'. split; [|split; [exact Ha'|]].
  - apply run_bind_inv in Hr as (b & s1 & H1 & H2). rewrite (run_bind _ _ _ _ _ H1), (run_bind _ _ _ _ _ H2). exact Hc.
  - destruct Hm' as [[-> _]|(p & l & _ & _ & -> & _)]; [by left|]. destruct (decide (sl_upage l = 64)) as [->|E].
    + right. by rewrite lookup_delete_ne.
    + left. by rewrite lookup_delete_ne.
Defined.
