(* ===== verification/Fault.v ===== *)
(** Page faults: [page_fault] and [extend_stack] of userprog/exception.c, and the
    accesses to memory that cause them.

    An access goes through the page directory in the base register, as the processor
    makes it, sets the accessed and dirty bits, and raises a page fault when the page
    is not present or may not be accessed; the instruction is repeated when the
    handler returns.  The error code is given by its three bits.  The handler returns
    [true] when it returns to the instruction, and [false] when it kills the process. *)
From Stdlib Require Import ZArith Lia.
From stdpp Require Import base numbers sorting gmap list.
From S2P Require Import Prelude.
From S2P Require Import Inode.
From S2P Require Import Palloc.
From S2P Require Import PageDir.
From S2P Require Import Vm.

Local Open Scope Z_scope.

Definition PF_P : Z := 0x1.
Definition PF_W : Z := 0x2.
Definition PF_U : Z := 0x4.

Section boot.
Context (ipd ram : Z).

(** * The handler *)

(** The loop of [extend_stack]: whether a page has been loaded.  There are [n] pages
    left up to that of the frame pointer. *)
Fixpoint extend_loop (n : nat) (addr : Z) (success : bool) : vmM bool :=
  match n with
  | O => mret success
  | S n =>
      entry ← allocate_page addr;
      ok ← load_page_entry ipd ram entry;
      if negb ok then mret success else extend_loop n (addr + PGSIZE) true
  end.

Definition extend_stack (frame_pointer fault_addr : Z) : vmM bool :=
  assert (negb (frame_pointer =? NULL));;
  let bottom := fault_addr / PGSIZE * PGSIZE in
  let top := frame_pointer / PGSIZE * PGSIZE in
  extend_loop (Z.to_nat ((top - bottom) / PGSIZE)) bottom false.

Definition page_fault (error_code frame_pointer fault_addr : Z) : vmM bool :=
  let not_present := Z.land error_code PF_P =? 0 in
  let write := negb (Z.land error_code PF_W =? 0) in
  let user := negb (Z.land error_code PF_U =? 0) in
  if not_present && write && negb user then
    ok ← load_page ipd ram fault_addr; if ok : bool then mret true else extend_stack frame_pointer fault_addr
  else if not_present && write && user then
    ok ← load_page ipd ram fault_addr; if ok : bool then mret true else extend_stack frame_pointer fault_addr
  else if not_present && negb write && negb user then load_page ipd ram fault_addr
  else if not_present && negb write && user then load_page ipd ram fault_addr
  else if negb not_present && negb write && user then load_page ipd ram fault_addr
  else if negb not_present && write && user then mret false
  else mret false.

(** * Accesses *)

(** The kernel address of a byte, or the error code of the page fault.  The kernel
    runs with write protection. *)
Definition translate (write user : bool) (va : Z) : vmM (Z + Z) :=
  let bits := Z.lor (if write then PF_W else 0) (if user then PF_U else 0) in
  pd ← liftv active_pd;
  pte ← liftv (lookup_page pd va false);
  if pte =? NULL then mret (inr bits) else
  w ← liftv (load pte);
  if Z.land w PTE_P =? 0 then mret (inr bits) else
  if (write && (Z.land w PTE_W =? 0)) || (user && (Z.land w PTE_U =? 0)) then mret (inr (Z.lor bits PF_P)) else
  liftv (store pte (Z.lor w (Z.lor PTE_A (if write then PTE_D else 0))));;
  page ← liftv (liftr (pte_get_page w));
  mret (inl (page + pg_ofs va)).

(** An access with its page faults; [None] when the process is killed. *)
Fixpoint access (fuel : nat) (write user : bool) (frame_pointer va : Z) : vmM (option Z) :=
  match fuel with
  | O => st_fail EFuel
  | S fuel =>
      r ← translate write user va;
      match r with
      | inl ka => mret (Some ka)
      | inr code =>
          ok ← page_fault code frame_pointer va;
          if ok : bool then access fuel write user frame_pointer va else mret None
      end
  end.

Definition byte_of (w i : Z) : Z := Z.land (Z.shiftr w (8 * i)) 255.
Definition set_byte (w i b : Z) : Z := Z.lor (Z.ldiff w (Z.shiftl 255 (8 * i))) (Z.shiftl b (8 * i)).

Definition load_byte (ka : Z) : vmM Z := w ← liftv (load ka); mret (byte_of w (ka mod 4)).
Definition store_byte (ka b : Z) : vmM unit := w ← liftv (load ka); liftv (store ka (set_byte w (ka mod 4) b)).

(** A fault is followed by at most one more, on the page that was loaded. *)
Definition ACCESS_FUEL : nat := 3.

Definition read_byte (user : bool) (frame_pointer va : Z) : vmM (option Z) :=
  r ← access ACCESS_FUEL false user frame_pointer va;
  match r with
  | Some ka => b ← load_byte ka; mret (Some b)
  | None => mret None
  end.

Definition write_byte (user : bool) (frame_pointer va b : Z) : vmM bool :=
  r ← access ACCESS_FUEL true user frame_pointer va;
  match r with
  | Some ka => store_byte ka b;; mret true
  | None => mret false
  end.

End boot.
