(* ===== verification/ArgStack.v ===== *)
(** The arguments of a new process on its stack: the second half of [load] in
    userprog/process.c.

    The code writes below the stack pointer at user addresses.  What it needs of the
    memory of the process is the interface [ByteMemory]: bytes in a range can be
    written.  The theorem is proved against it; UserMem.v has the instance for the
    memory of a process, and the finite map of bytes at the end is another. *)
From Stdlib Require Import ZArith Lia.
From stdpp Require Import base numbers sorting gmap list.
From S2P Require Import Prelude.
From S2P Require Import Bitmap.

Local Open Scope Z_scope.

(** * The code *)

Section push.
(** Writing a byte at a user address; [false] when the process is killed by the
    page fault that it causes. *)
Context {S : Type} (put : Z -> Z -> st S bool).

(** A step after which the thread may be gone. *)
Definition alive {A B} (c : st S (option A)) (k : A -> st S (option B)) : st S (option B) :=
  r ← c; match r with Some a => k a | None => mret None end.

Fixpoint put_list (a : Z) (bs : list Z) : st S (option unit) :=
  match bs with
  | [] => mret (Some tt)
  | b :: bs => ok ← put a b; if ok : bool then put_list (a + 1) bs else mret None
  end.

(** The tokens, the last one first: the new stack pointer and [token_addr]. *)
Fixpoint push_tokens (toks : list (list Z)) (esp : Z) (addrs : list Z) : st S (option (Z * list Z)) :=
  match toks with
  | [] => mret (Some (esp, addrs))
  | token :: toks =>
      let esp := esp - (Zlen token + 1) in
      alive (put_list esp (token ++ [0])) (fun _ => push_tokens toks esp (esp :: addrs))
  end.

(** At most three bytes. *)
Fixpoint align_stack (n : nat) (esp : Z) : st S (option Z) :=
  match n with
  | O => mret (Some esp)
  | Datatypes.S n =>
      if negb (esp mod 4 =? 0) then alive (put_list (esp - 1) [0]) (fun _ => align_stack n (esp - 1)) else mret (Some esp)
  end.

Definition push_word (w esp : Z) : st S (option Z) :=
  alive (put_list (esp - 4) (word_bytes (u32 w))) (fun _ => mret (Some (esp - 4))).

(** The addresses, the last one first. *)
Fixpoint push_addrs (addrs : list Z) (esp : Z) : st S (option Z) :=
  match addrs with
  | [] => mret (Some esp)
  | a :: addrs => alive (push_word a esp) (push_addrs addrs)
  end.

Definition push_arguments (toks : list (list Z)) (esp : Z) : st S (option Z) :=
  alive (push_tokens (rev toks) esp []) (fun '(esp, addrs) =>
  alive (align_stack 3 esp) (fun esp =>
  alive (push_word 0 esp) (fun esp =>
  alive (push_addrs (rev addrs) esp) (fun esp =>
  alive (push_word esp esp) (fun esp =>
  alive (push_word (Zlen toks) esp) (fun esp =>
  push_word 0 esp)))))).

(** * Memory that can be written *)

(** Bytes from [lo] up to [hi] can be written while [Inv] holds. *)
Class ByteMemory (view : S -> Z -> option Z) (Inv : S -> Prop) (lo hi : Z) : Prop :=
  byte_law : forall s a b, Inv s -> lo <= a < hi -> 0 <= b < 256 ->
    exists s', put a b s = Ok (true, s') /\ Inv s' /\ view s' a = Some b /\
      forall x, lo <= x < hi -> x <> a -> view s' x = view s x.

Section layout.
Context (view : S -> Z -> option Z) (Inv : S -> Prop) (lo hi : Z) {HM : ByteMemory view Inv lo hi}.

(** The memory from [a] on up to [hi] holds the bytes [img]. *)
Definition region (s : S) (a : Z) (img : list Z) : Prop :=
  a + Zlen img = hi /\ forall i b, img !! i = Some b -> view s (a + Z.of_nat i) = Some b.

Abbreviation is_bytes := (Forall (fun b => 0 <= b < 256)).

Lemma put_list_run bs : forall s a img,
  Inv s -> lo <= a -> is_bytes bs ->
  (forall i b, img !! i = Some b -> view s (a + Zlen bs + Z.of_nat i) = Some b) -> a + Zlen bs + Zlen img = hi ->
  exists s', put_list a bs s = Ok (Some tt, s') /\ Inv s' /\ region s' a (bs ++ img) /\
    forall x, lo <= x < a -> view s' x = view s x.
Proof using All.
  induction bs as [|b bs IH]; intros s a img Hs Ha Hb Himg Hlen; cbn [put_list].
  - exists s. split; [done|]. split; [done|]. split; [|done]. split; [cbn [app length] in *; lia|].
    intros i c Hi. specialize (Himg i c Hi). cbn in Himg. by rewrite Z.add_0_r in Himg.
  - apply Forall_cons in Hb as [Hb0 Hb]. cbn [length] in Hlen, Himg.
    destruct (HM s a b Hs ltac:(lia) Hb0) as (s1 & E & Hs1 & Hv & Hk). rewrite (run_bind _ _ _ true s1) by done.
    destruct (IH s1 (a + 1) img Hs1 ltac:(lia) Hb) as (s2 & E2 & Hs2 & [_ Hreg] & Hkeep).
    + intros i c Hi. rewrite Hk; [|pose proof (lookup_lt_Some _ _ _ Hi); lia|lia]. rewrite <- (Himg i c Hi). f_equal. lia.
    + lia.
    + exists s2. split; [done|]. split; [done|]. split.
      * split; [cbn [app length]; rewrite length_app; lia|]. intros [|i] c Hi; cbn in Hi.
        -- injection Hi as <-. rewrite Z.add_0_r, Hkeep by lia. done.
        -- specialize (Hreg i c Hi). rewrite <- Hreg. f_equal. lia.
      * intros x Hx. rewrite Hkeep by lia. apply Hk; lia.
Qed.

(** Putting bytes below what is there. *)
Lemma push_list_run s a img bs :
  Inv s -> region s a img -> is_bytes bs -> lo <= a - Zlen bs ->
  exists s', put_list (a - Zlen bs) bs s = Ok (Some tt, s') /\ Inv s' /\ region s' (a - Zlen bs) (bs ++ img).
Proof using All.
  intros Hs [Hlen Himg] Hb Hlo. destruct (put_list_run bs s (a - Zlen bs) img Hs Hlo Hb) as (s' & E & Hs' & Hr & _).
  - intros i b Hi. replace (a - Zlen bs + Zlen bs) with a by lia. by apply Himg.
  - lia.
  - by exists s'.
Qed.

Lemma word_bytes_ok w : is_bytes (word_bytes (u32 w)) /\ length (word_bytes (u32 w)) = 4%nat.
Proof using All. split; [|done]. unfold word_bytes. repeat (apply Forall_cons; split; [apply Z.mod_pos_bound; lia|]). by apply Forall_nil. Qed.

Lemma push_word_run s a img w :
  Inv s -> region s a img -> lo <= a - 4 ->
  exists s', push_word w a s = Ok (Some (a - 4), s') /\ Inv s' /\ region s' (a - 4) (word_bytes (u32 w) ++ img).
Proof using All.
  intros Hs Hr Hlo. destruct (word_bytes_ok w) as [Hb Hl].
  destruct (push_list_run s a img (word_bytes (u32 w)) Hs Hr Hb) as (s' & E & Hs' & Hr'); rewrite Hl in *; [done|].
  exists s'. split; [|done]. unfold push_word, alive. by rewrite (run_bind _ _ _ (Some tt) s').
Qed.

(** The bytes of the strings, and the address of each. *)
Definition strings (toks : list (list Z)) : list Z := toks ≫= (fun t => t ++ [0]).

Definition token_addr (toks : list (list Z)) (i : nat) : Z := hi - Zlen (strings (drop i toks)).

Definition token_addrs (toks : list (list Z)) : list Z := token_addr toks <$> seq 0 (length toks).

Lemma strings_snoc toks t : strings (toks ++ [t]) = strings toks ++ t ++ [0].
Proof using All. unfold strings. rewrite bind_app. cbn. by rewrite app_nil_r. Qed.

Definition is_string (t : list Z) : Prop := Forall (fun b => 0 < b < 256) t.

Lemma string_bytes t : is_string t -> is_bytes (t ++ [0]).
Proof using All.
  intros Ht. apply Forall_app. split; [eapply Forall_impl; [done|]; cbn; lia|]. apply Forall_singleton. lia.
Qed.

Lemma push_tokens_run pre : forall post s esp,
  Forall is_string pre -> Inv s -> region s esp (strings post) -> lo <= hi - Zlen (strings (pre ++ post)) ->
  exists s' esp', push_tokens (rev pre) esp (token_addr (pre ++ post) <$> seq (length pre) (length post)) s =
      Ok (Some (esp', token_addrs (pre ++ post)), s') /\
    Inv s' /\ region s' esp' (strings (pre ++ post)).
Proof using All.
  induction pre as [|t pre IH] using rev_ind; intros post s esp Hstr Hs Hr Hlo.
  { exists s, esp. done. }
  rewrite rev_unit. cbn [push_tokens]. apply Forall_app in Hstr as [Hpre Ht]. rewrite Forall_singleton in Ht.
  rewrite <- !app_assoc in *. cbn [app] in *. destruct Hr as [Hlen Himg].
  assert (Zlen (t ++ [0]) = Zlen t + 1) as Hl by (rewrite length_app; cbn [length]; lia).
  assert (strings (pre ++ t :: post) = strings pre ++ (t ++ [0]) ++ strings post) as Hsplit.
  { unfold strings. rewrite bind_app. by rewrite bind_cons. }
  rewrite Hsplit, !length_app in Hlo.
  destruct (push_list_run s esp (strings post) (t ++ [0]) Hs ltac:(by split) (string_bytes t Ht)) as (s1 & E1 & Hs1 & Hr1); [rewrite length_app; lia|].
  rewrite Hl in E1, Hr1. unfold alive at 1. rewrite (run_bind _ _ _ _ _ E1).
  destruct (IH (t :: post) s1 (esp - (Zlen t + 1)) Hpre Hs1) as (s2 & esp2 & E2 & Hs2 & Hr2).
  - unfold strings at 1. by rewrite bind_cons.
  - rewrite Hsplit, !length_app. lia.
  - exists s2, esp2. split; [|done]. rewrite <- E2. f_equal. rewrite length_app. cbn [length]. rewrite Nat.add_1_r.
    cbn [seq fmap list_fmap]. f_equal. unfold token_addr. rewrite drop_app_length. unfold strings at 1. rewrite bind_cons. fold (strings post).
    rewrite length_app, Nat2Z.inj_add, Hl. lia.
Qed.

Lemma align_stack_run n : forall s esp img,
  Inv s -> region s esp img -> lo <= esp - esp mod 4 -> esp mod 4 <= Z.of_nat n ->
  exists s', align_stack n esp s = Ok (Some (esp - esp mod 4), s') /\ Inv s' /\
    region s' (esp - esp mod 4) (replicate (Z.to_nat (esp mod 4)) 0 ++ img).
Proof using All.
  induction n as [|n IH]; intros s esp img Hs Hr Hlo Hn; cbn [align_stack]; pose proof (Z.mod_pos_bound esp 4 ltac:(lia)) as Hm.
  - assert (esp mod 4 = 0) as Hz by lia. rewrite Hz, Z.sub_0_r. by exists s.
  - destruct (Z.eqb_spec (esp mod 4) 0) as [Hz|Hz]; cbn [negb].
    + rewrite Hz, Z.sub_0_r. by exists s.
    + assert ((esp - 1) mod 4 = esp mod 4 - 1) as Hm1.
      { pose proof (Z.div_mod esp 4 ltac:(lia)). symmetry. apply Z.mod_unique with (q := esp / 4); lia. }
      destruct (push_list_run s esp img [0] Hs Hr) as (s1 & E1 & Hs1 & Hr1); [apply Forall_singleton; lia|cbn; lia|].
      change (Zlen [0]) with 1 in E1, Hr1. unfold alive. rewrite (run_bind _ _ _ _ _ E1).
      destruct (IH s1 (esp - 1) ([0] ++ img) Hs1 Hr1) as (s2 & E2 & Hs2 & Hr2); [lia|lia|]. rewrite Hm1 in E2, Hr2.
      replace (esp - 1 - (esp mod 4 - 1)) with (esp - esp mod 4) in E2, Hr2 by lia. exists s2. split; [done|]. split; [done|].
      replace (Z.to_nat (esp mod 4)) with (Datatypes.S (Z.to_nat (esp mod 4 - 1))) by lia.
      rewrite replicate_S_end, <- app_assoc. done.
Qed.

Lemma push_addrs_run addrs : forall s esp img,
  Inv s -> region s esp img -> lo <= esp - 4 * Zlen addrs ->
  exists s', push_addrs (rev addrs) esp s = Ok (Some (esp - 4 * Zlen addrs), s') /\ Inv s' /\
    region s' (esp - 4 * Zlen addrs) (bytes_of_words (u32 <$> addrs) ++ img).
Proof using All.
  induction addrs as [|a addrs IH] using rev_ind; intros s esp img Hs Hr Hlo.
  - cbn. rewrite Z.sub_0_r. by exists s.
  - rewrite rev_unit. cbn [push_addrs]. rewrite length_app in *. cbn [length] in *.
    destruct (push_word_run s esp img a Hs Hr) as (s1 & E1 & Hs1 & Hr1); [lia|]. unfold alive. rewrite (run_bind _ _ _ _ _ E1).
    destruct (IH s1 (esp - 4) _ Hs1 Hr1) as (s2 & E2 & Hs2 & Hr2); [lia|].
    replace (esp - 4 - 4 * Zlen addrs) with (esp - 4 * Z.of_nat (length addrs + 1)) in E2, Hr2 by lia.
    exists s2. split; [done|]. split; [done|]. rewrite fmap_app. unfold bytes_of_words in *. rewrite bind_app, <- app_assoc.
    cbn [fmap list_fmap]. rewrite bind_cons. cbn [mbind list_bind]. rewrite app_nil_r. done.
Qed.

(** The stack, from the return address up to [hi]. *)
Definition pad (toks : list (list Z)) : Z := (hi - Zlen (strings toks)) mod 4.
Definition argv_of (toks : list (list Z)) : Z := hi - Zlen (strings toks) - pad toks - 4 * (Zlen toks + 1).
Definition stack_image (toks : list (list Z)) : list Z :=
  bytes_of_words (0 :: Zlen toks :: argv_of toks :: token_addrs toks ++ [0]) ++ replicate (Z.to_nat (pad toks)) 0 ++ strings toks.

Lemma strings_length_pos toks : 0 <= Zlen (strings toks).
Proof using All. lia. Qed.

(** Every argument is where its address says. *)
Lemma strings_at toks i t s :
  region s (hi - Zlen (strings toks)) (strings toks) -> toks !! i = Some t ->
  forall j b, (t ++ [0]) !! j = Some b -> view s (token_addr toks i + Z.of_nat j) = Some b.
Proof using All.
  intros [_ Hr] Ht j b Hb. assert (strings toks = strings (take i toks) ++ strings (drop i toks)) as Hs.
  { unfold strings. rewrite <- bind_app. by rewrite take_drop. }
  rewrite <- (Hr (length (strings (take i toks)) + j)%nat b).
  - f_equal. unfold token_addr. rewrite Hs at 1. rewrite length_app. lia.
  - rewrite Hs, lookup_app_r by lia. replace (length (strings (take i toks)) + j - length (strings (take i toks)))%nat with j by lia.
    rewrite (drop_S toks t i Ht). unfold strings. rewrite bind_cons. by rewrite lookup_app_l by (by apply lookup_lt_Some in Hb).
Qed.

Lemma region_suffix s a pre img : region s a (pre ++ img) -> region s (a + Zlen pre) img.
Proof using All.
  intros [Hl Hr]. rewrite length_app in Hl. split; [lia|]. intros i b Hi. rewrite <- (Hr (length pre + i)%nat b).
  - f_equal. lia.
  - rewrite lookup_app_r by lia. by replace (length pre + i - length pre)%nat with i by lia.
Qed.

Lemma token_addr_range toks i : 0 <= lo -> hi <= 2 ^ 32 -> lo <= hi - Zlen (strings toks) -> (i < length toks)%nat ->
  in_u 32 (token_addr toks i).
Proof using All.
  intros H0 Hhi Hlo Hi. unfold token_addr, in_u. assert (Zlen (strings (drop i toks)) <= Zlen (strings toks)) as Hle.
  { rewrite <- (take_drop i toks) at 2. unfold strings. rewrite bind_app, length_app. lia. }
  destruct (lookup_lt_is_Some_2 toks i Hi) as [t Ht]. rewrite (drop_S toks t i Ht) in *. unfold strings in *. rewrite bind_cons, !length_app in *.
  cbn [length] in *. lia.
Qed.

Lemma push_arguments_run toks s :
  0 <= lo -> hi <= 2 ^ 32 -> Forall is_string toks -> Inv s -> lo <= argv_of toks - 12 -> Zlen toks < 2 ^ 31 ->
  exists s', push_arguments toks hi s = Ok (Some (argv_of toks - 12), s') /\ Inv s' /\
    region s' (argv_of toks - 12) (stack_image toks).
Proof using All.
  intros H0 Hhi Hstr Hs Hlo Hcnt. unfold argv_of, pad in Hlo. set (a0 := hi - Zlen (strings toks)) in *.
  pose proof (Z.mod_pos_bound a0 4 ltac:(lia)) as Hm.
  destruct (push_tokens_run toks [] s hi Hstr Hs) as (s1 & esp1 & E1 & Hs1 & Hr1); rewrite ?app_nil_r in *.
  { split; [cbn; lia|done]. }
  { fold a0. lia. }
  assert (esp1 = a0) as -> by (destruct Hr1 as [Hl _]; unfold a0; lia).
  unfold push_arguments, alive at 1. cbn [seq length fmap list_fmap] in E1. rewrite (run_bind _ _ _ _ _ E1).
  destruct (align_stack_run 3 s1 a0 (strings toks) Hs1 Hr1) as (s2 & E2 & Hs2 & Hr2); [lia|lia|].
  unfold alive at 1. rewrite (run_bind _ _ _ _ _ E2).
  destruct (push_word_run s2 (a0 - a0 mod 4) _ 0 Hs2 Hr2) as (s3 & E3 & Hs3 & Hr3); [lia|].
  unfold alive at 1. rewrite (run_bind _ _ _ _ _ E3).
  assert (Zlen (token_addrs toks) = Zlen toks) as Hla by (unfold token_addrs; by rewrite length_fmap, length_seq).
  destruct (push_addrs_run (token_addrs toks) s3 (a0 - a0 mod 4 - 4) _ Hs3 Hr3) as (s4 & E4 & Hs4 & Hr4); [rewrite Hla; lia|].
  rewrite Hla in E4, Hr4. unfold alive at 1. rewrite (run_bind _ _ _ _ _ E4).
  replace (a0 - a0 mod 4 - 4 - 4 * Zlen toks) with (argv_of toks) in * by (unfold argv_of, pad; fold a0; lia).
  assert (argv_of toks = a0 - a0 mod 4 - 4 * (Zlen toks + 1)) as Hargv by done.
  destruct (push_word_run s4 (argv_of toks) _ (argv_of toks) Hs4 Hr4) as (s5 & E5 & Hs5 & Hr5); [lia|].
  unfold alive at 1. rewrite (run_bind _ _ _ _ _ E5).
  destruct (push_word_run s5 (argv_of toks - 4) _ (Zlen toks) Hs5 Hr5) as (s6 & E6 & Hs6 & Hr6); [lia|].
  unfold alive at 1. rewrite (run_bind _ _ _ _ _ E6).
  destruct (push_word_run s6 (argv_of toks - 4 - 4) _ 0 Hs6 Hr6) as (s7 & E7 & Hs7 & Hr7); [lia|].
  replace (argv_of toks - 4 - 4 - 4) with (argv_of toks - 12) in * by lia. exists s7. split; [done|]. split; [done|].
  assert (stack_image toks = word_bytes (u32 0) ++ word_bytes (u32 (Zlen toks)) ++ word_bytes (u32 (argv_of toks)) ++
    bytes_of_words (u32 <$> token_addrs toks) ++ word_bytes (u32 0) ++ replicate (Z.to_nat (a0 mod 4)) 0 ++ strings toks) as ->; [|done].
  unfold stack_image, bytes_of_words. rewrite !bind_cons, bind_app, bind_cons. cbn [mbind list_bind]. rewrite app_nil_r, <- !app_assoc.
  assert (u32 0 = 0) as -> by done. rewrite !(uwrap_id 32 ltac:(lia)); [|unfold in_u, a0 in *; lia|unfold in_u; lia].
  assert (u32 <$> token_addrs toks = token_addrs toks) as ->; [|done].
  unfold token_addrs. rewrite <- list_fmap_compose. apply list_fmap_ext. intros i k Hk.
  apply lookup_seq in Hk as [-> Hi]. cbn. apply (uwrap_id 32 ltac:(lia)). apply token_addr_range; [done|done|unfold a0 in *; lia|lia].
Qed.

(** Argument passing.  With room for them below the top of the stack, the arguments of a program are pushed so
    that from the new stack pointer on, which is a multiple of 4, memory holds a null return address, [argc], the
    address of [argv], the pointers [argv[0]] to [argv[argc - 1]] and a null pointer, up to three bytes of padding, and
    the strings; each pointer is the address of its null-terminated argument. *)
Theorem push_arguments_spec toks s :
  0 <= lo -> hi <= 2 ^ 32 -> Forall is_string toks -> Inv s -> lo <= argv_of toks - 12 -> Zlen toks < 2 ^ 31 ->
  exists esp s', push_arguments toks hi s = Ok (Some esp, s') /\ Inv s' /\ esp mod 4 = 0 /\ esp = argv_of toks - 12 /\
    region s' esp (bytes_of_words (0 :: Zlen toks :: esp + 12 :: token_addrs toks ++ [0]) ++
                   replicate (Z.to_nat (pad toks)) 0 ++ strings toks) /\
    forall i t, toks !! i = Some t ->
      token_addrs toks !! i = Some (token_addr toks i) /\
      forall j b, (t ++ [0]) !! j = Some b -> view s' (token_addr toks i + Z.of_nat j) = Some b.
Proof using All.
  intros H0 Hhi Hstr Hs Hlo Hcnt. destruct (push_arguments_run toks s H0 Hhi Hstr Hs Hlo Hcnt) as (s' & E & Hs' & Hr).
  exists (argv_of toks - 12), s'. split; [done|]. split; [done|]. split; [|split; [done|split]].
  - unfold argv_of, pad. set (a0 := hi - Zlen (strings toks)). pose proof (Z.div_mod a0 4 ltac:(lia)) as Hd.
    symmetry. apply Z.mod_unique with (q := a0 / 4 - (Zlen toks + 1) - 3); lia.
  - by replace (argv_of toks - 12 + 12) with (argv_of toks) by lia.
  - intros i t Ht. assert (i < length toks)%nat as Hi by by eapply lookup_lt_Some. split.
    + unfold token_addrs. rewrite list_lookup_fmap, lookup_seq_lt by done. done.
    + apply strings_at; [|done]. unfold stack_image in Hr. apply region_suffix, region_suffix in Hr as Hr'.
      destruct Hr' as [Hl Hv]. split; [lia|]. intros k b Hk. rewrite <- (Hv k b Hk). f_equal. lia.
Qed.

End layout.
End push.

(** * Bytes in a finite map *)

Definition map_put (a b : Z) : st (gmap Z Z) bool := fun m => Ok (true, <[a := b]> m).

#[export] Instance map_memory lo hi : ByteMemory map_put (fun m a => m !! a) (fun _ => True) lo hi.
Proof.
  intros m a b _ Ha Hb. eexists. split; [reflexivity|]. split; [done|]. split; [apply lookup_insert_eq|].
  intros x _ Hx. by rewrite lookup_insert_ne.
Qed.

(** [echo x y] *)
Definition demo_args : list (list Z) := [[101; 99; 104; 111]; [120]; [121]].

Lemma push_arguments_spec_witness :
  exists s', push_arguments map_put demo_args 0xc0000000 ∅ = Ok (Some 0xbfffffd8, s') /\
    region (fun m a => m !! a) 0xc0000000 s' 0xbfffffd8
      (bytes_of_words [0; 3; 0xbfffffe4; 0xbffffff7; 0xbffffffc; 0xbffffffe; 0] ++ replicate 3 0 ++
       [101; 99; 104; 111; 0; 120; 0; 121; 0]).
Proof.
  destruct (push_arguments_spec map_put (fun m a => m !! a) (fun _ => True) 0xbffff000 0xc0000000 demo_args ∅)
    as (esp & s' & E & _ & _ & -> & Hr & _).
  - lia.
  - lia.
  - repeat constructor; lia.
  - exact I.
  - vm_compute. discriminate.
  - vm_compute. reflexivity.
  - exists s'. split; [exact E|exact Hr].
Defined.
