(* ===== verification/UserMem.v ===== *)
(** User memory: writing through the page directory to a page that is present, and
    the stack of a new process as an instance of the interface of ArgStack.v. *)
From Stdlib Require Import ZArith Lia.
From stdpp Require Import base numbers sorting gmap list.
From S2P Require Import Prelude.
From S2P Require Import Bitmap.
From S2P Require Import Inode.
From S2P Require Import InodeFile.
From S2P Require Import Palloc.
From S2P Require Import PageDir.
From S2P Require Import Vm.
From S2P Require Import VmSwap.
From S2P Require Import Fault.
From S2P Require Import ArgStack.

Local Open Scope Z_scope.

(** * Bytes of a word *)

Lemma byte_of_bits w i n : 0 <= i < 4 -> 0 <= n -> Z.testbit (byte_of w i) n = (n <? 8) && Z.testbit w (n + 8 * i).
Proof.
  intros Hi Hn. unfold byte_of. change 255 with (Z.ones 8). rewrite Z.land_spec, Z.shiftr_spec by lia.
  destruct (Z.ltb_spec n 8).
  - rewrite Z.ones_spec_low by lia. by rewrite andb_true_r.
  - rewrite Z.ones_spec_high by lia. by rewrite andb_false_r.
Qed.

Lemma set_byte_bits w i b n : 0 <= i < 4 -> 0 <= b < 256 -> 0 <= n ->
  Z.testbit (set_byte w i b) n = if decide (8 * i <= n < 8 * i + 8) then Z.testbit b (n - 8 * i) else Z.testbit w n.
Proof.
  intros Hi Hb Hn. unfold set_byte. rewrite Z.lor_spec, Z.ldiff_spec, !Z.shiftl_spec by lia.
  change 255 with (Z.ones 8). case_decide.
  - rewrite Z.ones_spec_low by lia. cbn [negb]. by rewrite andb_false_r.
  - destruct (Z.lt_ge_cases n (8 * i)).
    + rewrite !(Z.testbit_neg_r _ (n - 8 * i)) by lia. cbn [negb]. by rewrite andb_true_r, orb_false_r.
    + rewrite Z.ones_spec_high by lia. rewrite (in_u_bits 8 b) by (unfold in_u; lia). cbn [negb]. by rewrite andb_true_r, orb_false_r.
Qed.

Lemma byte_set_byte w i j b : 0 <= i < 4 -> 0 <= j < 4 -> 0 <= b < 256 ->
  byte_of (set_byte w i b) j = if decide (i = j) then b else byte_of w j.
Proof.
  intros Hi Hj Hb. apply Z.bits_inj'. intros n Hn. rewrite byte_of_bits, set_byte_bits by lia. destruct (decide (i = j)) as [<-|E].
  - destruct (Z.ltb_spec n 8).
    + rewrite decide_True by lia. cbn [andb]. f_equal. lia.
    + cbn [andb]. symmetry. apply (in_u_bits 8 b); [lia|unfold in_u; lia|lia].
  - rewrite byte_of_bits by lia. destruct (Z.ltb_spec n 8); [|done]. rewrite decide_False by lia. done.
Qed.

Lemma set_byte_range w i b : in_u 32 w -> 0 <= i < 4 -> 0 <= b < 256 -> in_u 32 (set_byte w i b).
Proof.
  intros Hw Hi Hb. assert (0 <= set_byte w i b) as Hpos.
  { unfold set_byte, in_u in *. apply Z.lor_nonneg. split; [|apply Z.shiftl_nonneg; lia]. apply Z.ldiff_nonneg. lia. }
  apply in_u_testbit; [lia|done|]. intros n Hn. rewrite set_byte_bits by lia. rewrite decide_False by lia. apply (in_u_bits 32 w); [lia|done|lia].
Qed.

(** * The address space *)

(** Where user addresses are mapped in the active directory: every page that is mapped
    is a page of data, and different pages are mapped to different ones. *)
Record space_ok (s : vm) (pd : Z) : Prop := {
  so_active : active s pd;
  so_data : forall va k w, 0 <= va < PHYS_BASE -> mapping (phys (mem s)) pd va = Some (k, w) ->
    data_page (phys (mem s)) pd k /\ PageDir.entries (pages (phys (mem s))) k;
  so_inj : forall va va' k w w', 0 <= va < PHYS_BASE -> 0 <= va' < PHYS_BASE ->
    mapping (phys (mem s)) pd va = Some (k, w) -> mapping (phys (mem s)) pd va' = Some (k, w') -> va / PGSIZE = va' / PGSIZE;
  so_window : forall va k w, 0 <= va < 2 ^ 32 -> mapping (phys (mem s)) pd va = Some (k, w) -> k < 2 ^ 32
}.

Lemma space_mem s s' pd : mem s' = mem s -> space_ok s pd -> space_ok s' pd.
Proof. intros E [S1 S2 S3 S4]. split; [|by rewrite E..]. destruct S1 as [A B]. split; by rewrite E. Qed.

(** The byte at an address, and whether it may be written. *)
Definition page_byte (pg : gmap Z (list Z)) (k x : Z) : option Z :=
  ws ← pg !! k; w ← ws !! Z.to_nat (x / 4); Some (byte_of w (x mod 4)).

Definition user_view (pd : Z) (s : vm) (va : Z) : option Z :=
  match mapping (phys (mem s)) pd va with
  | Some (k, _) => page_byte (pages (phys (mem s))) k (va mod PGSIZE)
  | None => None
  end.

Definition writable (pd : Z) (s : vm) (va : Z) : Prop := exists k, mapping (phys (mem s)) pd va = Some (k, true).

Lemma kept_space pd s s' : space_ok s pd -> space_kept pd s s' -> space_ok s' pd.
Proof.
  intros [S1 S2 S3 S4] [K1 K2 _]. assert (forall va, 0 <= va < PHYS_BASE -> 0 <= va < 2 ^ 32) as Hr by (unfold PHYS_BASE; lia). split.
  - by eapply kept_active.
  - intros va k w Hva. rewrite K2 by auto. intros Hm. destruct (S2 va k w Hva Hm) as [Hd (ws & Hw & Hrest)].
    split; [by apply (dk_data _ _ _ K1)|]. exists ws. by rewrite (dk_pages _ _ _ K1).
  - intros va va' k w w' Hva Hva'. rewrite !K2 by auto. by apply S3.
  - intros va k w Hva. rewrite K2 by done. by apply S4.
Qed.

Lemma kept_view pd s s' va : space_ok s pd -> space_kept pd s s' -> 0 <= va < PHYS_BASE -> user_view pd s' va = user_view pd s va.
Proof.
  intros Hs [K1 K2 _] Hva. unfold user_view. rewrite K2 by (unfold PHYS_BASE in *; lia).
  destruct (mapping (phys (mem s)) pd va) as [[k w]|] eqn:Hm; [|done].
  unfold page_byte. rewrite (dk_pages _ _ _ K1); [done|]. by apply (so_data _ _ Hs va k w Hva).
Qed.

(** An access to a page that is mapped finds it. *)
Lemma translate_run s pd va k w wr :
  space_ok s pd -> 0 <= va < PHYS_BASE -> mapping (phys (mem s)) pd va = Some (k, w) -> (wr = true -> w = true) ->
  exists v, translate wr false va s = Ok (inl (k + va mod PGSIZE), set_mem v s) /\ space_kept pd s (set_mem v s).
Proof.
  intros Hs Hva Hmap Hwr. pose proof (so_active _ _ Hs) as Hact. pose proof Hact as [Hok Hc]. destruct (so_data _ _ Hs va k w Hva Hmap) as [[Hu _] _].
  assert (0 <= va < 2 ^ 32) as Hva32 by (unfold PHYS_BASE in *; lia). pose proof Hva32 as [H0 H1].
  unfold translate. rewrite (run_bind _ _ _ pd s) by (unfold liftv; rewrite (active_pd_run s pd Hact); by destruct s).
  destruct (lookup_page_ok (mem s) pd va Hok H0 H1) as (a & El & Hcase).
  rewrite (run_bind _ _ _ a s) by (unfold liftv; rewrite El; by destruct s).
  destruct (Z.testbit (pte_of (pages (phys (mem s))) pd va) 0) eqn:Hx0; unfold mapping in Hmap; rewrite Hx0 in Hmap; [|done].
  assert (tab (pte_of (pages (phys (mem s))) pd va) = k /\ Z.testbit (pte_of (pages (phys (mem s))) pd va) 1 = w) as [Htab Hx1] by (split; congruence).
  destruct Hcase as [[_ Hz]|He]; [rewrite Hz in Hx0; done|].
  destruct (entry_at_word _ pd va a Hok H0 H1 He) as (Hn & Hwa & _). apply Z.eqb_neq in Hn as ->.
  destruct (set_flags s pd va a wr Hact Hva32 He) as (v & Hst & Hk). set (x := pte_of _ pd va) in *.
  rewrite (run_bind _ _ _ x s) by (unfold liftv; rewrite (word_load_run _ _ _ Hwa); by destruct s).
  assert ((Z.land x PTE_P =? 0) = false) as -> by (change PTE_P with (2 ^ 0); rewrite <- (negb_involutive (_ =? 0)), flag_test, Hx0 by lia; done).
  assert (wr && (Z.land x PTE_W =? 0) = false) as ->.
  { destruct wr; [|done]. change PTE_W with (2 ^ 1). rewrite <- (negb_involutive (_ =? 0)), flag_test, Hx1, Hwr by (done || lia). done. }
  cbn [andb orb]. exists v. split; [|done]. rewrite (run_bind _ _ _ tt (set_mem v s)) by (unfold liftv; by rewrite Hst).
  rewrite (run_bind _ _ _ k (set_mem v s)); [by rewrite pg_ofs_mod|]. unfold liftv. rewrite (lift_run_v _ k); [by destruct s|].
  unfold pte_get_page. rewrite <- Htab. apply (ptov_tab (phys (mem s))); [apply (po_mem _ _ Hok)|]. by rewrite Htab.
Qed.

(** * Loading and storing bytes *)

Lemma kernel_byte m k x : mem_ok m -> used m k -> 0 <= x < PGSIZE -> (k + x) mod PGSIZE = x /\ (k + x) mod 4 = x mod 4.
Proof.
  intros Hm Hu Hx. destruct (used_aligned m k Hm Hu) as [Hka _]. unfold PGSIZE in *. split.
  - rewrite <- Z.add_mod_idemp_l, Hka by lia. apply Z.mod_small. lia.
  - rewrite <- Z.add_mod_idemp_l by lia. pose proof (Z.div_mod k 4096 ltac:(lia)).
    assert (k mod 4 = 0) as -> by (symmetry; apply Z.mod_unique with (q := 1024 * (k / 4096)); lia). done.
Qed.

Lemma word_index x : 0 <= x < PGSIZE -> (Z.to_nat (x / 4) < 1024)%nat.
Proof. intros Hx. unfold PGSIZE in Hx. assert (x / 4 < 1024) by (apply Z.div_lt_upper_bound; lia). assert (0 <= x / 4) by (apply Z.div_pos; lia). lia. Qed.

(** The word that holds a byte. *)
Lemma page_word s pd k x :
  active s pd -> data_page (phys (mem s)) pd k -> PageDir.entries (pages (phys (mem s))) k -> 0 <= x < PGSIZE ->
  exists ws w, pages (phys (mem s)) !! k = Some ws /\ length ws = 1024%nat /\ Forall (in_u 32) ws /\ ws !! Z.to_nat (x / 4) = Some w /\
    word (pages (phys (mem s))) (k + x) = Some w /\ in_u 32 w.
Proof.
  intros [Hok _] [Hu _] (ws & Hw & Hl & Hf) Hx. destruct (lookup_lt_is_Some_2 ws (Z.to_nat (x / 4))) as [w Hwi]; [rewrite Hl; by apply word_index|].
  exists ws, w. do 4 (split; [done|]). split; [|by apply (Forall_lookup_1 _ _ _ _ Hf Hwi)].
  unfold word. rewrite (proj1 (kernel_byte _ k x (po_mem _ _ Hok) Hu Hx)). replace (k + x - x) with k by lia. by rewrite Hw.
Qed.

(** A byte at a user address is read. *)
Lemma read_byte_run ipd ram kfp s pd va b :
  space_ok s pd -> 0 <= va < PHYS_BASE -> user_view pd s va = Some b ->
  exists v, read_byte ipd ram false kfp va s = Ok (Some b, set_mem v s) /\ space_kept pd s (set_mem v s).
Proof.
  intros Hs Hva Hv. pose proof (Z.mod_pos_bound va PGSIZE ltac:(unfold PGSIZE; lia)) as Hx. unfold user_view in Hv.
  destruct (mapping (phys (mem s)) pd va) as [[k w]|] eqn:Hm; [|done].
  destruct (translate_run s pd va k w false Hs Hva Hm ltac:(done)) as (v & E & Hk). exists v. split; [|done].
  pose proof (kept_space _ _ _ Hs Hk) as Hs'. destruct (so_data _ _ Hs va k w Hva Hm) as [Hd He].
  rewrite <- (sk_map _ _ _ Hk) in Hm by (unfold PHYS_BASE in *; lia). destruct (so_data _ _ Hs' va k w Hva Hm) as [Hd' He'].
  destruct (page_word _ pd k (va mod PGSIZE) (so_active _ _ Hs') Hd' He' Hx) as (ws & wd & Hws & _ & _ & Hwi & Hword & _).
  unfold read_byte. rewrite (run_bind _ _ _ (Some (k + va mod PGSIZE)) (set_mem v s)).
  - assert (load_byte (k + va mod PGSIZE) (set_mem v s) = Ok (b, set_mem v s)) as Hlb; [|by rewrite (run_bind _ _ _ _ _ Hlb)].
    unfold load_byte. rewrite (run_bind _ _ _ wd (set_mem v s)) by (unfold liftv; rewrite (word_load_run _ _ _ Hword); by destruct s).
    destruct Hd as [Hu _]. destruct (so_active _ _ Hs) as [Hok _]. rewrite (proj2 (kernel_byte _ k _ (po_mem _ _ Hok) Hu Hx)).
    unfold page_byte in Hv. rewrite <- (dk_pages _ _ _ (sk_data _ _ _ Hk)) in Hv by (apply (so_data _ _ Hs va k w Hva); rewrite <- Hm; symmetry; apply (sk_map _ _ _ Hk); unfold PHYS_BASE in *; lia).
    rewrite Hws in Hv. cbn [mbind option_bind] in Hv. rewrite Hwi in Hv. cbn in Hv. injection Hv as <-. done.
  - unfold ACCESS_FUEL. cbn [access]. by rewrite (run_bind _ _ _ _ _ E).
Qed.

(** The same page with one byte changed. *)
Definition poke (ws : list Z) (x b : Z) : list Z := alter (fun w => set_byte w (x mod 4) b) (Z.to_nat (x / 4)) ws.

Lemma poke_entries ws x b : 0 <= b < 256 -> length ws = 1024%nat -> Forall (in_u 32) ws -> length (poke ws x b) = 1024%nat /\ Forall (in_u 32) (poke ws x b).
Proof.
  intros Hb Hl Hf. unfold poke. split; [by rewrite length_alter|]. apply Forall_lookup. intros j y Hj.
  destruct (decide (j = Z.to_nat (x / 4))) as [->|Hne].
  - rewrite list_lookup_alter_eq in Hj. destruct (ws !! Z.to_nat (x / 4)) as [w|] eqn:Hw; [|done]. cbn in Hj. injection Hj as <-.
    apply set_byte_range; [by apply (Forall_lookup_1 _ _ _ _ Hf Hw)|apply Z.mod_pos_bound; lia|done].
  - rewrite list_lookup_alter_ne in Hj by done. by apply (Forall_lookup_1 _ _ _ _ Hf Hj).
Qed.

Lemma poke_byte (pg : gmap Z (list Z)) k ws x b y :
  pg !! k = Some ws -> length ws = 1024%nat -> 0 <= b < 256 -> 0 <= x < PGSIZE -> 0 <= y < PGSIZE ->
  page_byte (<[k := poke ws x b]> pg) k y = if decide (y = x) then Some b else page_byte pg k y.
Proof.
  intros Hk Hl Hb Hx Hy. unfold page_byte. rewrite lookup_insert_eq, Hk. cbn [mbind option_bind]. unfold poke.
  pose proof (word_index x Hx). pose proof (word_index y Hy). pose proof (Z.mod_pos_bound x 4 ltac:(lia)). pose proof (Z.mod_pos_bound y 4 ltac:(lia)).
  pose proof (Z.div_mod x 4 ltac:(lia)). pose proof (Z.div_mod y 4 ltac:(lia)). unfold PGSIZE in *.
  assert (0 <= x / 4) by (apply Z.div_pos; lia). assert (0 <= y / 4) by (apply Z.div_pos; lia).
  destruct (lookup_lt_is_Some_2 ws (Z.to_nat (x / 4))) as [w Hw]; [lia|].
  destruct (decide (Z.to_nat (y / 4) = Z.to_nat (x / 4))) as [E|E].
  - rewrite E, list_lookup_alter_eq, Hw. cbn. rewrite byte_set_byte by done. case_decide as E1; case_decide as E2; [done|lia|lia|done].
  - rewrite list_lookup_alter_ne by done. rewrite decide_False by congruence. done.
Qed.

(** A page of data is not a part of the directory. *)
Lemma put_page_mapping pd k ws s va :
  active s pd -> data_page (phys (mem s)) pd k -> 0 <= va < 2 ^ 32 ->
  mapping (phys (mem (put_page k ws s))) pd va = mapping (phys (mem s)) pd va.
Proof.
  intros [Hok _] (_ & Hne & Ht) [H0 H1]. pose proof (pd_no_range va H0 H1) as Hpn.
  destruct (used_aligned _ pd (po_mem _ _ Hok) (po_used _ _ Hok)) as [Hpa _].
  assert (pte_of (pages (phys (mem (put_page k ws s)))) pd va = pte_of (pages (phys (mem s))) pd va) as Hp; [|unfold mapping; by rewrite Hp].
  unfold pte_of. cbn [put_page set_mem mem with_pages phys pages set_pages]. rewrite !word_at by done. rewrite lookup_insert_ne by done.
  destruct (pd_word _ pd (pd_no va) Hok Hpn) as (e & He & _). rewrite word_at in He by done. rewrite He.
  destruct (Z.eqb_spec e 0) as [|Hnz]; [done|]. rewrite <- word_at in He by done.
  pose proof (po_tables _ _ Hok _ _ Hpn He Hnz) as Htab. destruct (used_aligned _ _ (po_mem _ _ Hok) (to_used _ _ _ Htab)) as [Hta _].
  rewrite !word_at by (done || apply pt_no_range). rewrite lookup_insert_ne; [done|]. intros E. by apply (Ht _ _ Hpn He Hnz).
Qed.

(** Storing in a page of data keeps the address space. *)
Lemma put_page_space pd k ws s :
  space_ok s pd -> data_page (phys (mem s)) pd k -> length ws = 1024%nat -> Forall (in_u 32) ws -> space_ok (put_page k ws s) pd.
Proof.
  intros Hs Hd Hl Hf. pose proof (so_active _ _ Hs) as Hact. destruct (put_page_kept pd k ws s Hact Hd) as (Hact' & Hdp & Hother).
  assert (forall va, 0 <= va < PHYS_BASE -> 0 <= va < 2 ^ 32) as Hr by (unfold PHYS_BASE; lia). split; [done| | |].
  - intros va k' w Hva. rewrite put_page_mapping by auto. intros Hm. destruct (so_data _ _ Hs va k' w Hva Hm) as [Hd' (ws' & Hw & Hrest)].
    split; [by apply Hdp|]. destruct (decide (k' = k)) as [->|Hne]; [exists ws; split; [apply lookup_insert_eq|done]|].
    exists ws'. by rewrite Hother.
  - intros va va' k' w w' Hva Hva'. rewrite !put_page_mapping by auto. by apply (so_inj _ _ Hs).
  - intros va k' w Hva. rewrite put_page_mapping by done. by apply (so_window _ _ Hs).
Qed.

Lemma store_byte_run s pd k ws x b :
  active s pd -> data_page (phys (mem s)) pd k -> pages (phys (mem s)) !! k = Some ws -> length ws = 1024%nat -> Forall (in_u 32) ws ->
  0 <= x < PGSIZE -> store_byte (k + x) b s = Ok (tt, put_page k (poke ws x b) s).
Proof.
  intros Hact Hd Hw Hl Hf Hx. destruct (page_word s pd k x Hact Hd ltac:(by exists ws) Hx) as (ws' & w & Hw' & _ & _ & Hwi & Hword & Hwr).
  rewrite Hw in Hw'. injection Hw' as <-. destruct Hact as [Hok _]. destruct (kernel_byte _ k x (po_mem _ _ Hok) (proj1 Hd) Hx) as [Hofs H4].
  unfold store_byte. rewrite (run_bind _ _ _ w s) by (unfold liftv; rewrite (word_load_run _ _ _ Hword); by destruct s).
  unfold liftv. rewrite (word_store_run _ _ _ _ Hword). unfold put_page, with_pages, set_pages, poke. do 5 f_equal. rewrite H4. unfold set_word.
  rewrite Hofs. replace (k + x - x) with k by lia. apply map_eq. intros a. destruct (decide (a = k)) as [->|Hne].
  - rewrite lookup_alter_eq, lookup_insert_eq, Hw. cbn. f_equal. apply list_eq. intros j. pose proof (word_index x Hx).
    destruct (decide (j = Z.to_nat (x / 4))) as [->|Hj].
    + rewrite list_lookup_insert_eq by lia. by rewrite list_lookup_alter_eq, Hwi.
    + by rewrite list_lookup_insert_ne, list_lookup_alter_ne by done.
  - by rewrite lookup_alter_ne, lookup_insert_ne by done.
Qed.

(** A byte at an address that may be written is written, and nothing else. *)
Lemma write_byte_run ipd ram kfp s pd va b :
  space_ok s pd -> 0 <= va < PHYS_BASE -> writable pd s va -> 0 <= b < 256 ->
  exists s', write_byte ipd ram false kfp va b s = Ok (true, s') /\ (exists v, s' = set_mem v s) /\ space_ok s' pd /\
    (forall x, 0 <= x < PHYS_BASE -> writable pd s x -> writable pd s' x) /\ user_view pd s' va = Some b /\
    forall x, 0 <= x < PHYS_BASE -> x <> va -> user_view pd s' x = user_view pd s x.
Proof.
  intros Hs Hva [k Hm] Hb. pose proof (Z.mod_pos_bound va PGSIZE ltac:(unfold PGSIZE; lia)) as Hx.
  assert (forall x, 0 <= x < PHYS_BASE -> 0 <= x < 2 ^ 32) as Hr by (unfold PHYS_BASE; lia).
  destruct (translate_run s pd va k true true Hs Hva Hm ltac:(done)) as (v & E & Hk). set (s1 := set_mem v s) in *.
  pose proof (kept_space _ _ _ Hs Hk) as Hs1. assert (mapping (phys (mem s1)) pd va = Some (k, true)) as Hm1 by (rewrite (sk_map _ _ _ Hk) by auto; done).
  destruct (so_data _ _ Hs1 va k true Hva Hm1) as [Hd (ws & Hw & Hl & Hf)]. pose proof (so_active _ _ Hs1) as Hact.
  pose proof (store_byte_run s1 pd k ws (va mod PGSIZE) b Hact Hd Hw Hl Hf Hx) as E2.
  set (s2 := put_page k (poke ws (va mod PGSIZE) b) s1) in *. destruct (poke_entries ws (va mod PGSIZE) b Hb Hl Hf) as [Hl' Hf'].
  assert (forall x, 0 <= x < PHYS_BASE -> mapping (phys (mem s2)) pd x = mapping (phys (mem s)) pd x) as Hmap.
  { intros x Hx'. unfold s2. rewrite put_page_mapping by auto. apply (sk_map _ _ _ Hk). auto. }
  exists s2. split; [|split; [eexists; reflexivity|split; [by apply put_page_space|split; [|split]]]].
  - unfold write_byte. rewrite (run_bind _ _ _ (Some (k + va mod PGSIZE)) s1); [by rewrite (run_bind _ _ _ _ _ E2)|].
    unfold ACCESS_FUEL. cbn [access]. by rewrite (run_bind _ _ _ _ _ E).
  - intros x Hx' [k' Hk']. exists k'. by rewrite Hmap.
  - unfold user_view. rewrite Hmap, Hm by done. cbn [s2 put_page set_mem mem with_pages phys pages set_pages].
    rewrite (poke_byte _ k ws) by done. by rewrite decide_True.
  - intros x Hx' Hne. rewrite <- (kept_view _ _ _ x Hs Hk Hx'). unfold user_view. rewrite Hmap, (sk_map _ _ _ Hk) by auto.
    destruct (mapping (phys (mem s)) pd x) as [[k' w']|] eqn:Hmx; [|done]. cbn [s2 put_page set_mem mem with_pages phys pages set_pages].
    pose proof (Z.mod_pos_bound x PGSIZE ltac:(unfold PGSIZE; lia)) as Hx''. destruct (decide (k' = k)) as [->|Hkk].
    + rewrite (poke_byte _ k ws) by done. rewrite decide_False; [done|]. intros Em.
      pose proof (so_inj _ _ Hs x va k w' true Hx' Hva Hmx Hm) as Ed. apply Hne.
      rewrite (Z.div_mod x PGSIZE), (Z.div_mod va PGSIZE) by (unfold PGSIZE; lia). by rewrite Ed, Em.
    + unfold page_byte. by rewrite lookup_insert_ne by done.
Qed.

(** Addresses that may be written are a memory of bytes. *)
#[export] Instance user_memory ipd ram kfp pd lo hi :
  0 <= lo -> hi <= PHYS_BASE ->
  ByteMemory (write_byte ipd ram false kfp) (user_view pd)
    (fun s => space_ok s pd /\ forall va, lo <= va < hi -> writable pd s va) lo hi.
Proof.
  intros Hlo Hhi s a b [Hs Hw] Ha Hb. destruct (write_byte_run ipd ram kfp s pd a b Hs ltac:(lia) (Hw a Ha) Hb) as (s' & E & _ & Hs' & Hw' & Hv & Ho).
  exists s'. split; [done|]. split; [split; [done|]|split; [done|]].
  - intros va Hva. apply Hw'; [lia|by apply Hw].
  - intros x Hx. apply Ho. lia.
Qed.

(** * The stack of a new process *)


(** A process that has the page below [PHYS_BASE], with the words [ws]. *)
Definition demo_stack (ws : list Z) : vm :=
  mkVM (mkVm (set_pages (<[0xc0101000 := <[767%nat := 0x102007]> (replicate 1024 0)]>
                        (<[0xc0102000 := <[1023%nat := 0x121007]> (replicate 1024 0)]> (<[0xc0121000 := ws]> ∅))) demo_pool) 0x101000)
    ∅ [] None ∅ {[ 3 := [] ]} ∅ [] ∅ 0 0 3 {[ 3 := 0xc0101000 ]} 256 demo_fs.

Lemma demo_stack_ok ws : pd_ok (phys (mem (demo_stack ws))) 0xc0101000.
Proof.
  assert (mem_ok demo_pool) as Hp.
  { split; [split|split|]; try (by vm_compute).
    - split; [by vm_compute..|]. unfold in_u. apply (bool_decide_unpack _). by vm_compute.
    - split; [by vm_compute..|]. unfold in_u. apply (bool_decide_unpack _). by vm_compute. }
  apply (pd_ok_single _ _ 767 0x102007).
  - by apply mem_ok_pages.
  - apply (usedb_used demo_pool). by vm_compute.
  - lia.
  - unfold in_u. lia.
  - apply lookup_insert_eq.
  - split; [done|apply (usedb_used demo_pool); by vm_compute|by vm_compute|]. exists (<[1023%nat := 0x121007]> (replicate 1024 0)).
    change (tab 0x102007) with 0xc0102000. split; [etransitivity; [apply lookup_insert_ne; lia|apply lookup_insert_eq]|]. split; [by vm_compute|].
    apply Forall_insert; [apply Forall_replicate|]; unfold in_u; lia.
Qed.

Lemma demo_stack_pte ws va : 0 <= va < 2 ^ 32 ->
  pte_of (pages (phys (mem (demo_stack ws)))) 0xc0101000 va = if decide (va / PGSIZE = 0xbffff) then 0x121007 else 0.
Proof.
  intros [H0 H1]. pose proof (pd_no_range va H0 H1) as Hp. pose proof (pt_no_range va) as Ht. rewrite page_indices. unfold pte_of.
  rewrite word_at by (done || lia). cbn [demo_stack mem phys pages set_pages]. rewrite lookup_insert_eq. cbn [mbind option_bind].
  destruct (decide (Z.to_nat (pd_no va) = 767%nat)) as [E|E].
  - rewrite E, list_lookup_insert_eq by (rewrite length_replicate; lia). cbn [Z.eqb]. change (tab 0x102007) with 0xc0102000.
    rewrite word_at by (done || lia). rewrite lookup_insert_ne, lookup_insert_eq by lia. cbn [mbind option_bind].
    destruct (decide (Z.to_nat (pt_no va) = 1023%nat)) as [E'|E'].
    + rewrite E', list_lookup_insert_eq by (rewrite length_replicate; lia). rewrite decide_True by lia. done.
    + rewrite list_lookup_insert_ne by lia. rewrite lookup_replicate_2 by lia. rewrite decide_False by lia. done.
  - rewrite list_lookup_insert_ne by lia. rewrite lookup_replicate_2 by lia. rewrite decide_False by lia. done.
Qed.

Lemma demo_stack_space ws : length ws = 1024%nat -> Forall (in_u 32) ws ->
  space_ok (demo_stack ws) 0xc0101000 /\ forall va, 0xbffff000 <= va < PHYS_BASE -> writable 0xc0101000 (demo_stack ws) va.
Proof.
  intros Hl Hf. pose proof (demo_stack_ok ws) as Hok.
  assert (forall va, 0 <= va < 2 ^ 32 -> mapping (phys (mem (demo_stack ws))) 0xc0101000 va =
    if decide (va / PGSIZE = 0xbffff) then Some (0xc0121000, true) else None) as Hm.
  { intros va Hva. unfold mapping. rewrite demo_stack_pte by done. case_decide; [reflexivity|reflexivity]. }
  assert (forall va, 0 <= va < PHYS_BASE -> 0 <= va < 2 ^ 32) as Hr by (unfold PHYS_BASE; lia).
  split; [split; [split; [done|reflexivity]| | |]|].
  - intros va k w Hva. rewrite Hm by auto. case_decide; [|done]. intros [= <- <-]. split.
    + split; [apply (usedb_used demo_pool); by vm_compute|]. split; [done|]. intros i e Hi. rewrite word_at by (done || lia).
      cbn [demo_stack mem phys pages set_pages]. rewrite lookup_insert_eq. cbn [mbind option_bind]. destruct (decide (Z.to_nat i = 767%nat)) as [-> |Hne].
      * rewrite list_lookup_insert_eq by (rewrite length_replicate; lia). intros [= <-] _. by vm_compute.
      * rewrite list_lookup_insert_ne by lia. intros [-> _]%lookup_replicate Hz. congruence.
    + exists ws. split; [|done]. cbn [demo_stack mem phys pages set_pages]. rewrite !lookup_insert_ne by lia. apply lookup_insert_eq.
  - intros va va' k w w' Hva Hva'. rewrite !Hm by auto. case_decide as E; [|done]. case_decide as E'; [|done]. intros _ _. by rewrite E, E'.
  - intros va k w Hva. rewrite Hm by done. case_decide; [|done]. by intros [= <- _].
  - intros va Hva. exists 0xc0121000. rewrite Hm by (unfold PHYS_BASE in *; lia). rewrite decide_True; [done|].
    unfold PHYS_BASE, PGSIZE in *. symmetry. apply Z.div_unique with (r := va - 0xbffff000); lia.
Qed.

