(* ===== verification/Process.v ===== *)
(** Processes: userprog/process.c, as built with virtual memory.

    The state is that of the kernel's threads (Thread.v), of virtual memory with the
    file system (Vm.v), and what a thread has besides: its working directory, its
    name and its executable; the bytes that programs have written to the console,
    and the keys pressed that have not been read.  The tables of Vm.v are by tid.  A routine that waits
    for a semaphore of another thread is given in parts, up to the wait and from
    there on.  Messages of the kernel are left out. *)
From Stdlib Require Import ZArith Lia.
From stdpp Require Import base numbers sorting gmap list.
From S2P Require Import Prelude.
From S2P Require Import Bitmap.
From S2P Require Import StringC.
From S2P Require Import Path.
From S2P Require Import Inode.
From S2P Require Import Directory.
From S2P Require Import Thread.
From S2P Require Import Palloc.
From S2P Require Import PageDir.
From S2P Require Import Vm.
From S2P Require Import Fault.
From S2P Require Import ArgStack.

Local Open Scope Z_scope.

(** * State *)

Record sys := mkSys {
  kern : kstate;
  vms : vm;
  pwds : gmap Z str;
  names : gmap Z str;
  ownfiles : gmap Z Z;
  console : list Z;
  keys : list Z
}.

Definition set_kern (v : kstate) (s : sys) : sys :=
  mkSys v (vms s) (pwds s) (names s) (ownfiles s) (console s) (keys s).
Definition set_vms (v : vm) (s : sys) : sys :=
  mkSys (kern s) v (pwds s) (names s) (ownfiles s) (console s) (keys s).
Definition set_pwds (v : gmap Z str) (s : sys) : sys :=
  mkSys (kern s) (vms s) v (names s) (ownfiles s) (console s) (keys s).
Definition set_names (v : gmap Z str) (s : sys) : sys :=
  mkSys (kern s) (vms s) (pwds s) v (ownfiles s) (console s) (keys s).
Definition set_ownfiles (v : gmap Z Z) (s : sys) : sys :=
  mkSys (kern s) (vms s) (pwds s) (names s) v (console s) (keys s).
Definition set_console (v : list Z) (s : sys) : sys :=
  mkSys (kern s) (vms s) (pwds s) (names s) (ownfiles s) v (keys s).
Definition set_keys (v : list Z) (s : sys) : sys :=
  mkSys (kern s) (vms s) (pwds s) (names s) (ownfiles s) (console s) v.

Abbreviation sysM := (st sys).

Definition smodify (f : sys -> sys) : sysM unit := fun s => Ok (tt, f s).
Definition sgets {A} (f : sys -> A) : sysM A := fun s => Ok (f s, s).

Definition liftK {A} (m : kM A) : sysM A := fun s =>
  match m (kern s) with Ok (a, k) => Ok (a, set_kern k s) | Err e => Err e end.
Definition liftV {A} (m : vmM A) : sysM A := fun s =>
  match m (vms s) with Ok (a, v) => Ok (a, set_vms v s) | Err e => Err e end.
Definition liftF {A} (m : fM A) : sysM A := liftV (liftf m).
Definition liftD {A} (m : PageDir.vM A) : sysM A := liftV (liftv m).
Definition liftP {A} (m : Palloc.pM A) : sysM A := liftD (PageDir.liftp m).

(** The tid and the working directory of the running thread. *)
Definition cur_tid : sysM Z := liftK (t ← thread_current; th ← get_thread t; mret (tid th)).
Definition cur_pwd : sysM str := t ← liftK thread_current; s ← st_get; mret (default [] (pwds s !! t)).

(** * ELF files *)

Record Elf32_Ehdr := mkEhdr {
  e_ident : list Z;
  e_type : Z;
  e_machine : Z;
  e_version : Z;
  e_entry : Z;
  e_phoff : Z;
  e_phentsize : Z;
  e_phnum : Z
}.

Definition SIZEOF_EHDR : Z := 52.

Definition decode_ehdr (bs : list Z) : Elf32_Ehdr :=
  mkEhdr (take 16 bs) (half_at bs 16) (half_at bs 18) (Inode.word_at bs 20) (Inode.word_at bs 24) (Inode.word_at bs 28) (half_at bs 42) (half_at bs 44).

Record Elf32_Phdr := mkPhdr {
  p_type : Z;
  p_offset : Z;
  p_vaddr : Z;
  p_paddr : Z;
  p_filesz : Z;
  p_memsz : Z;
  p_flags : Z;
  p_align : Z
}.

Definition SIZEOF_PHDR : Z := 32.

Definition decode_phdr (bs : list Z) : Elf32_Phdr :=
  mkPhdr (Inode.word_at bs 0) (Inode.word_at bs 4) (Inode.word_at bs 8) (Inode.word_at bs 12) (Inode.word_at bs 16) (Inode.word_at bs 20)
    (Inode.word_at bs 24) (Inode.word_at bs 28).

Definition PT_NULL : Z := 0.
Definition PT_LOAD : Z := 1.
Definition PT_DYNAMIC : Z := 2.
Definition PT_INTERP : Z := 3.
Definition PT_NOTE : Z := 4.
Definition PT_SHLIB : Z := 5.
Definition PT_PHDR : Z := 6.
Definition PT_STACK : Z := 0x6474e551.

Definition PF_X : Z := 1.
Definition PF_W : Z := 2.
Definition PF_R : Z := 4.

(** The test of the executable header. *)
Definition ELF_MAGIC : list Z := [127; 69; 76; 70; 1; 1; 1].

Definition ehdr_ok (e : Elf32_Ehdr) : bool :=
  bool_decide (take 7 (e_ident e) = ELF_MAGIC) && (e_type e =? 2) && (e_machine e =? 3) && (e_version e =? 1) &&
  (e_phentsize e =? SIZEOF_PHDR) && (e_phnum e <=? 1024).

(** [length] is [file_length (file)]. *)
Definition validate_segment (phdr : Elf32_Phdr) (length : Z) : bool :=
  if negb (Z.land (p_offset phdr) PGMASK =? Z.land (p_vaddr phdr) PGMASK) then false
  else if u32 length <? p_offset phdr then false
  else if p_memsz phdr <? p_filesz phdr then false
  else if p_memsz phdr =? 0 then false
  else if negb (is_user_vaddr (p_vaddr phdr)) then false
  else if negb (is_user_vaddr (u32 (p_vaddr phdr + p_memsz phdr))) then false
  else if u32 (p_vaddr phdr + p_memsz phdr) <? p_vaddr phdr then false
  else if p_vaddr phdr <? PGSIZE then false
  else true.

(** ROUND_UP of lib/round.h, on [uint32_t]. *)
Definition ROUND_UP (x step : Z) : Z := u32 (u32 (u32 (x + step) - 1) / step * step).

(** The bytes of a segment to read and to clear. *)
Definition segment_sizes (phdr : Elf32_Phdr) : Z * Z :=
  let page_offset := Z.land (p_vaddr phdr) PGMASK in
  if 0 <? p_filesz phdr then
    let read_bytes := u32 (page_offset + p_filesz phdr) in
    (read_bytes, u32 (ROUND_UP (u32 (page_offset + p_memsz phdr)) PGSIZE - read_bytes))
  else (0, ROUND_UP (u32 (page_offset + p_memsz phdr)) PGSIZE).

Section boot.
(** [init_page_dir] and [init_ram_pages]; the contents of the stack where a local
    directory entry is; a frame pointer of the kernel. *)
Context (ipd ram : Z) (junk : list Z) (kfp : Z).

(** The loop of [load_segment]. *)
Fixpoint segment_loop (n : nat) (file ofs upage read_bytes zero_bytes page_offset : Z) (writable : bool) : vmM bool :=
  if negb ((0 <? read_bytes) || (0 <? zero_bytes)) then mret true else
  match n with
  | O => st_fail EFuel
  | S n =>
      let page_read_bytes := if read_bytes <? PGSIZE then read_bytes else PGSIZE in
      let page_zero_bytes := PGSIZE - page_read_bytes in
      entry ← allocate_page upage;
      if entry =? NULL then mret false else
      upd_entry entry (fun e =>
        set_pe_file file (set_pe_offset (u64 (ofs + page_offset)) (set_pe_read_bytes page_read_bytes (set_pe_writable writable e))));;
      segment_loop n file ofs (u32 (upage + PGSIZE)) (u32 (read_bytes - page_read_bytes)) (u32 (zero_bytes - page_zero_bytes))
        (page_offset + PGSIZE) writable
  end.

Definition load_segment (file ofs upage read_bytes zero_bytes : Z) (writable : bool) : vmM bool :=
  assert (u32 (read_bytes + zero_bytes) mod PGSIZE =? 0);;
  assert (pg_ofs upage =? 0);;
  assert (Z.rem ofs PGSIZE =? 0);;
  liftf (file_seek file ofs);;
  segment_loop (S (Z.to_nat (u32 (read_bytes + zero_bytes) / PGSIZE))) file ofs upage read_bytes zero_bytes 0 writable.

(** The new stack pointer. *)
Definition setup_stack : vmM (option Z) :=
  entry ← allocate_page (PHYS_BASE - PGSIZE);
  success ← load_page_entry ipd ram entry;
  mret (if success : bool then Some PHYS_BASE else None).

(** One program header; [false] to go to [done]. *)
Definition load_phdr (file : Z) (phdr : Elf32_Phdr) : vmM bool :=
  let t := p_type phdr in
  if (t =? PT_DYNAMIC) || (t =? PT_INTERP) || (t =? PT_SHLIB) then mret false
  else if t =? PT_LOAD then
    len ← liftf (file_length_of file);
    if validate_segment phdr len then
      let writable := negb (Z.land (p_flags phdr) PF_W =? 0) in
      let file_page := Z.land (p_offset phdr) (u32 (Z.lnot PGMASK)) in
      let mem_page := Z.land (p_vaddr phdr) (u32 (Z.lnot PGMASK)) in
      let '(read_bytes, zero_bytes) := segment_sizes phdr in
      load_segment file (s32 file_page) mem_page read_bytes zero_bytes writable
    else mret false
  else mret true.

Fixpoint phdr_loop (n : nat) (file file_ofs : Z) : vmM bool :=
  match n with
  | O => mret true
  | S n =>
      len ← liftf (file_length_of file);
      if (file_ofs <? 0) || (len <? file_ofs) then mret false else
      liftf (file_seek file file_ofs);;
      bs ← liftf (file_read file SIZEOF_PHDR);
      if negb (Zlen bs =? SIZEOF_PHDR) then mret false else
      ok ← load_phdr file (decode_phdr bs);
      if negb ok then mret false else phdr_loop n file (s32 (file_ofs + SIZEOF_PHDR))
  end.

(** What becomes of [load]: it returns true with [eip] and [esp], or false, or the
    thread waits for its own semaphore for ever, or it is killed by a page fault. *)
Inductive loaded :=
| Loaded (eip esp : Z)
| Failed
| Stuck
| Killed.

Definition SPACE : Z := 32.

(** [load] from the executable header on: the outcome before [done]. *)
Definition load_image (file : Z) (argv : list str) : vmM loaded :=
  bs ← liftf (file_read file SIZEOF_EHDR);
  let ehdr := decode_ehdr bs in
  if negb (Zlen bs =? SIZEOF_EHDR) || negb (ehdr_ok ehdr) then mret Stuck else
  ok ← phdr_loop (Z.to_nat (e_phnum ehdr)) file (s32 (e_phoff ehdr));
  if negb ok then mret Failed else
  r ← setup_stack;
  match r with
  | None => mret Failed
  | Some esp =>
      r ← push_arguments (write_byte ipd ram false kfp) argv esp;
      mret (match r with Some esp => Loaded (e_entry ehdr) esp | None => Killed end)
  end.

(** The code at [done], for an open file.  [s] is down when the executable header was
    not good, and nobody else can raise it. *)
Definition load_done (file : Z) (argv : list str) (r : loaded) : sysM unit :=
  match r with
  | Loaded _ _ =>
      t ← liftK thread_current;
      smodify (fun s => set_ownfiles (<[t := file]> (ownfiles s)) (set_names (<[t := take 15 (default [] (head argv))]> (names s)) s));;
      liftF (file_deny_write file)
  | Failed => liftF (file_close file)
  | Stuck | Killed => mret tt
  end.

Definition load (file_name : str) : sysM loaded :=
  n ← cur_tid;
  t ← liftK thread_current;
  pd ← liftD (pagedir_create ipd);
  (* [fn_copy] has no value at [done] *)
  if pd =? NULL then st_fail EUndef else
  liftK (upd_thread t (set_has_pagedir true));;
  liftV (Vm.modify (fun v => set_pagedirs (<[n := pd]> (pagedirs v)) v));;
  liftD (pagedir_activate ipd pd);;
  fn_copy ← liftP (palloc_get_page 0);
  (* [TID_ERROR] as a [bool] is true *)
  if fn_copy =? NULL then mret (Loaded 0 0) else
  let argv := tokens [SPACE] (take (Z.to_nat (PGSIZE - 1)) file_name) in
  (* [argv] has 128 elements *)
  if 128 <? Zlen argv then st_fail EUndef else
  match argv with
  | [] => st_fail EUndef
  | prog :: _ =>
      pwd ← cur_pwd;
      file ← liftF (filesys_open junk pwd prog);
      if file =? NULL then liftP (palloc_free_page fn_copy);; mret Failed else
      r ← liftV (load_image file argv);
      load_done file argv r;;
      match r with
      | Loaded _ _ | Failed => liftP (palloc_free_page fn_copy);; mret r
      | Stuck | Killed => mret r
      end
  end.

(** * Starting, waiting and exiting *)

(** [process_execute] up to [thread_create]: the page with the command line, or null. *)
Definition exec_prepare (file_name : str) : sysM Z :=
  fn_copy ← liftP (palloc_get_page 0);
  if fn_copy =? NULL then mret NULL else
  match tokens [SPACE] (take 15 file_name) with
  | [] => st_fail EUndef
  | prog :: _ =>
      pwd ← cur_pwd;
      file ← liftF (filesys_open junk pwd prog);
      if file =? NULL then mret NULL else
      liftF (file_close file);; mret fn_copy
  end.

(** From there on, with the result of [thread_create]: the semaphore to wait for, or
    the result when there is nothing to wait for. *)
Definition exec_child (fn_copy n : Z) : sysM (Z + sema_id) :=
  if n =? TID_ERROR then liftP (palloc_free_page fn_copy);; mret (inl TID_ERROR) else
  child ← liftK (thread_by_tid n);
  if child =? NULL then mret (inl n) else
  pwd ← cur_pwd;
  smodify (fun s => set_pwds (<[child := pwd]> (pwds s)) s);;
  mret (inr (ExecSema child)).

Definition status_of (es : Z) : kM Z :=
  ex ← Thread.gets exits; match ex !! es with Some e => mret (es_status e) | None => st_fail EFault end.

Definition exec_result (n : Z) : sysM Z :=
  es ← liftK (thread_get_exit_status n); st ← liftK (status_of es); mret (if st =? -1 then TID_ERROR else n).

(** [start_process]: what the thread does next, with the registers of the new process
    if there is one. *)
Definition start_process (file_name : str) (page : Z) : sysM (loaded * list cmd) :=
  r ← load file_name;
  match r with
  | Stuck | Killed => mret (r, [])
  | Loaded _ _ =>
      liftP (palloc_free_page page);;
      t ← liftK thread_current; cs ← liftK (sema_up (ExecSema t)); mret (r, cs)
  | Failed =>
      liftP (palloc_free_page page);;
      n ← cur_tid;
      liftK (thread_set_exit_status n (-1));;
      t ← liftK thread_current; cs ← liftK (sema_up (ExecSema t)); mret (r, cs ++ [CExit])
  end.

(** [process_wait] up to its [sema_down]: the result, or the child to wait for, null
    if it is gone. *)
Definition wait_check (child_tid : Z) : kM (Z + Z) :=
  child ← thread_is_child child_tid;
  if negb child then mret (inl (-1)) else
  waited ← thread_has_waited child_tid;
  if waited : bool then mret (inl (-1)) else
  tp ← thread_by_tid child_tid; mret (inr tp).

(** From there on. *)
Definition wait_result (child_tid : Z) : kM Z :=
  es ← thread_get_exit_status child_tid;
  thread_mark_waited es;;
  status_of es.

Fixpoint close_files (hs : list fileHandle) : fM unit :=
  match hs with
  | [] => mret tt
  | h :: hs => file_close (fh_file h);; close_files hs
  end.

Fixpoint free_statuses (l : list Z) : kM unit :=
  match l with
  | [] => mret tt
  | es :: l => Thread.modify (fun k => set_exits (delete es (exits k)) k);; free_statuses l
  end.

(** The exit status is read for the message.  Of a handle the file is closed, which is
    null for a directory. *)
Definition process_exit : sysM (list cmd) :=
  c ← liftK thread_current;
  n ← cur_tid;
  es ← liftK (thread_get_exit_status n); liftK (status_of es);;
  s ← st_get;
  liftF (file_close (default NULL (ownfiles s !! c)));;
  th ← liftK (get_thread c);
  liftF (close_files (handles th));;
  liftK (upd_thread c (set_handles []));;
  liftK (free_statuses (wait_list th));;
  liftK (upd_thread c (set_wait_list []));;
  liftV (page_table_destroy ipd n);;
  cs ← liftK (sema_up (WaitSema c));
  s ← st_get;
  (match pagedirs (vms s) !! n with
   | Some pd =>
       liftV (Vm.modify (fun v => set_pagedirs (delete n (pagedirs v)) v));;
       liftK (upd_thread c (set_has_pagedir false));;
       liftD (pagedir_activate ipd NULL);;
       liftD (pagedir_destroy ipd pd)
   | None => mret tt
   end : sysM unit);;
  liftK (thread_clear_child_exit_status c);;
  mret cs.

(** [pd] is the directory of the thread that runs, null for a kernel thread. *)
Definition process_activate : sysM unit :=
  n ← cur_tid; s ← st_get; liftD (pagedir_activate ipd (default NULL (pagedirs (vms s) !! n))).

End boot.
