(* ===== verification/Syscall.v ===== *)
(** System calls: userprog/syscall.c.

    A handler is given the stack pointer and the register [eax] of the process, and
    gives back [eax].  It ends early with a [reply]: the thread exits, the machine is
    turned off, or it goes on in a part of process.c after a wait.  The accesses to
    the memory of the process are those of Fault.v, in kernel mode: a page fault that
    cannot be handled kills the process.  A file is read before the bytes are stored
    in the buffer, and the bytes that a file takes are loaded from the buffer before
    the file is written. *)
From Stdlib Require Import ZArith Lia.
From stdpp Require Import base numbers sorting gmap list.
From S2P Require Import Prelude.
From S2P Require Import Bitmap.
From S2P Require Import StringC.
From S2P Require Import Path.
From S2P Require Import Inode.
From S2P Require Import Directory.
From S2P Require Import Thread.
From S2P Require Import Palloc.
From S2P Require Import PageDir.
From S2P Require Import Vm.
From S2P Require Import Fault.
From S2P Require Import ArgStack.
From S2P Require Import Process.

Local Open Scope Z_scope.

(** * Calls that may not return *)

(** Where a call goes on: in user mode, with [eax]; in [thread_exit]; nowhere; in
    [thread_create] of [process_execute], with its copy of the command line; in
    [process_wait], after the wait for the child; in [input_getc], for a key that
    goes to [buffer]. *)
Inductive reply :=
| Resume (eax : Z)
| Exit
| PowerOff
| Create (fn_copy : Z) (cmdline : str)
| Await (child_tid child : Z)
| AwaitKey (buffer : Z).

Definition scM (A : Type) : Type := sys -> res ((A + reply) * sys).

#[export] Instance sc_ret : MRet scM := fun A a s => Ok (inl a, s).
#[export] Instance sc_bind : MBind scM := fun A B k m s =>
  match m s with
  | Ok (inl a, s) => k a s
  | Ok (inr r, s) => Ok (inr r, s)
  | Err e => Err e
  end.

Definition run {A} (m : sysM A) : scM A := fun s =>
  match m s with Ok (a, s) => Ok (inl a, s) | Err e => Err e end.
Definition leave {A} (r : reply) : scM A := fun s => Ok (inr r, s).

(** [ASSERT(false)]. *)
Definition not_reached {A} : scM A := run (st_fail EAssert).

(** A [bool] as [eax]. *)
Definition of_bool (b : bool) : Z := if b then 1 else 0.

Definition terminate_thread {A} : scM A :=
  n ← run cur_tid; run (liftK (thread_set_exit_status n (-1)));; leave Exit.

(** What [page_fault] does in the end. *)
Definition kill_process {A} : scM A :=
  n ← run cur_tid; run (liftK (thread_set_exit_status n (-1)));; leave Exit.

(** The first handle with a descriptor. *)
Fixpoint find_handle (fd : Z) (hs : list fileHandle) : option fileHandle :=
  match hs with
  | [] => None
  | h :: hs => if fh_fd h =? fd then Some h else find_handle fd hs
  end.

Definition get_handle (fd : Z) : scM (option fileHandle) :=
  run (liftK (t ← thread_current; th ← get_thread t; mret (find_handle fd (handles th)))).

Section boot.
(** As in Process.v; [limit] bounds the length of the strings that are read. *)
Context (ipd ram : Z) (junk : list Z) (kfp : Z) (limit : nat).

(** * User memory *)

Definition user_byte (va : Z) : scM Z :=
  r ← run (liftV (read_byte ipd ram false kfp (u32 va)));
  match r with Some b => mret b | None => kill_process end.

Definition put_byte (va b : Z) : scM unit :=
  r ← run (liftV (write_byte ipd ram false kfp (u32 va) b));
  if r : bool then mret tt else kill_process.

Fixpoint user_bytes (n : nat) (va : Z) : scM (list Z) :=
  match n with
  | O => mret []
  | S n => b ← user_byte va; bs ← user_bytes n (va + 1); mret (b :: bs)
  end.

Fixpoint put_bytes (va : Z) (bs : list Z) : scM unit :=
  match bs with
  | [] => mret tt
  | b :: bs => put_byte va b;; put_bytes (va + 1) bs
  end.

Definition user_word (va : Z) : scM Z := bs ← user_bytes 4 va; mret (Inode.word_at bs 0).

(** The string at an address that is not null. *)
Fixpoint string_loop (n : nat) (va : Z) : scM str :=
  match n with
  | O => run (st_fail EFuel)
  | S n => b ← user_byte va; if b =? 0 then mret [] else s ← string_loop n (va + 1); mret (b :: s)
  end.

Definition user_string (va : Z) : scM str :=
  run (assert (negb (va =? NULL)));; string_loop limit va.

(** The word at [uaddr]: the page fault handler kills the process where there is none. *)
Definition get_user (uaddr : Z) : scM Z :=
  if uaddr <? PHYS_BASE then w ← user_word uaddr; mret (s32 w) else mret (-1).

Definition put_user (udst byte : Z) : scM bool :=
  if udst <? PHYS_BASE then put_byte udst byte;; mret true else mret false.

(** The word, and the new stack pointer. *)
Definition pop_stack (esp : Z) : scM (Z * Z) :=
  if (esp <? PHYS_BASE) && negb (esp =? NULL) then w ← user_word esp; mret (w, u32 (esp + 4))
  else terminate_thread.

(** * Processes *)

Definition syshalt_handler : scM Z := leave PowerOff.

Definition sysexit_handler (esp : Z) : scM Z :=
  '(exitValue, _) ← pop_stack esp;
  n ← run cur_tid;
  run (liftK (thread_set_exit_status n (s32 exitValue)));;
  leave Exit.

Definition sysexec_handler (esp eax : Z) : scM Z :=
  '(cmdline, _) ← pop_stack esp;
  if negb (cmdline =? NULL) then
    name ← user_string cmdline;
    page ← run (exec_prepare junk name);
    if page =? NULL then mret (u32 TID_ERROR) else leave (Create page (take (Z.to_nat (PGSIZE - 1)) name))
  else mret eax.

Definition syswait_handler (esp : Z) : scM Z :=
  '(child, _) ← pop_stack esp;
  r ← run (liftK (wait_check (s32 child)));
  match r with
  | inl v => mret (u32 v)
  | inr tp => leave (Await (s32 child) tp)
  end.

(** * Files *)

Definition pwd : scM str := run cur_pwd.

Definition syscreate_handler (esp : Z) : scM Z :=
  '(filename, esp) ← pop_stack esp;
  '(filesize, _) ← pop_stack esp;
  x ← get_user filename;
  (if x =? -1 then terminate_thread else mret tt);;
  (if filename =? NULL then terminate_thread else mret tt);;
  name ← user_string filename;
  (if (Zlen name <=? 0) || (s32 filesize <? 0) then terminate_thread else mret tt);;
  cwd ← pwd;
  abspath ← run (liftF (Directory.liftp (path_abspath cwd (Some name))));
  match abspath with
  | None => mret 0
  | Some _ => ok ← run (liftF (filesys_create junk cwd name (s32 filesize))); mret (of_bool ok)
  end.

(** [&&] and [||] of conditions that are computed. *)
Definition and_then (a b : scM bool) : scM bool := x ← a; if x : bool then b else mret false.
Definition or_else (a b : scM bool) : scM bool := x ← a; if x : bool then mret true else b.

Definition sysremove_handler (esp : Z) : scM Z :=
  '(filename, _) ← pop_stack esp;
  cwd ← pwd;
  path ← (if filename =? NULL then mret None else s ← user_string filename; mret (Some s) : scM (option str));
  abspath ← run (liftF (Directory.liftp (path_abspath cwd path)));
  match abspath with
  | None => mret 0
  | Some abspath =>
      name ← run (liftF (need path));
      keep ← or_else (mret (path_isroot name))
        (or_else (and_then (run (liftF (path_isdir junk cwd name))) (e ← run (liftF (dir_is_empty junk cwd name)); mret (negb e)))
          (mret (bool_decide (abspath = cwd))));
      if keep : bool then mret 0 else ok ← run (liftF (filesys_remove junk name)); mret (of_bool ok)
  end.

Definition sysopen_handler (esp eax : Z) : scM Z :=
  '(p, _) ← pop_stack esp;
  if p =? NULL then mret (u32 (-1)) else
  path ← user_string p;
  if Zlen path =? 0 then mret (u32 (-1)) else
  cwd ← pwd;
  file ← run (liftF (filesys_open junk cwd path));
  if file =? NULL then mret (u32 (-1)) else
  isfile ← run (liftF (path_isfile junk cwd path));
  if isfile : bool then fd ← run (liftK (thread_add_file_handler file)); mret (u32 fd) else
  isdir ← run (liftF (path_isdir junk cwd path));
  if isdir : bool then
    dir ← run (liftF (ip ← file_get_inode file; n ← get_inode ip; ip ← inode_open (sector n); dir_open ip));
    run (liftF (file_close file));;
    fd ← run (liftK (thread_add_dir_handler dir)); mret (u32 fd)
  else mret eax.

Definition sysfilesize_handler (esp : Z) : scM Z :=
  '(fd, _) ← pop_stack esp;
  fhp ← get_handle (s32 fd);
  match fhp with
  | Some h =>
      if negb (fh_file h =? NULL) then n ← run (liftF (file_length_of (fh_file h))); mret (u32 n)
      else if negb (fh_dir h =? NULL) then n ← run (liftF (ip ← dir_get_inode (fh_dir h); inode_length ip)); mret (u32 n)
      else not_reached
  | None => mret (u32 (-1))
  end.

(** [input_getc], and from there on. *)
Definition read_key (buffer : Z) : scM Z :=
  s ← run st_get;
  match keys s with
  | [] => leave (AwaitKey buffer)
  | c :: cs => run (smodify (set_keys cs));; put_byte buffer c;; mret 1
  end.

Definition sysread_handler (esp : Z) : scM Z :=
  '(fd, esp) ← pop_stack esp;
  '(buffer, esp) ← pop_stack esp;
  '(size, _) ← pop_stack esp;
  let fd := s32 fd in
  let size := s32 size in
  if fd =? 0 then read_key buffer
  else if (fd =? 1) || (size <? 0) then mret (u32 (-1))
  else if size =? 0 then mret 0
  else
    x ← get_user buffer;
    (if x =? -1 then terminate_thread else mret tt);;
    ok ← put_user buffer 0x1;
    (if negb ok then terminate_thread else mret tt);;
    fhp ← get_handle fd;
    match fhp with
    | Some h =>
        if negb (fh_file h =? NULL) then
          bs ← run (liftF (file_read (fh_file h) size)); put_bytes buffer bs;; mret (u32 (Zlen bs))
        else mret (u32 (-1))
    | None => mret (u32 (-1))
    end.

(** How many bytes [file_write] takes from a buffer of [n]. *)
Definition bytes_taken (f : Z) (n : nat) : fM nat := fun s =>
  match file_write f (replicate n 0) s with
  | Ok (w, _) => Ok (Z.to_nat w, s)
  | Err e => Err e
  end.

Definition write_buffer (f buffer size : Z) : scM Z :=
  let n := Z.to_nat size in
  k ← run (liftF (bytes_taken f n));
  bs ← user_bytes k buffer;
  w ← run (liftF (file_write f (bs ++ replicate (n - k) 0)));
  mret (u32 w).

Definition syswrite_handler (esp : Z) : scM Z :=
  '(fdnum, esp) ← pop_stack esp;
  '(buffer, esp) ← pop_stack esp;
  '(bufferSize, _) ← pop_stack esp;
  let fdnum := s32 fdnum in
  if fdnum =? 1 then
    bs ← user_bytes (Z.to_nat bufferSize) buffer;
    run (smodify (fun s => set_console (console s ++ bs) s));;
    mret bufferSize
  else if 1 <? fdnum then
    fhp ← get_handle fdnum;
    match fhp with
    | Some h => if negb (fh_file h =? NULL) then write_buffer (fh_file h) buffer (s32 bufferSize) else mret (u32 (-1))
    | None => mret (u32 (-1))
    end
  else mret (u32 (-1)).

Definition sysseek_handler (esp eax : Z) : scM Z :=
  '(fd, esp) ← pop_stack esp;
  '(newpos, _) ← pop_stack esp;
  fhp ← get_handle (s32 fd);
  match fhp with
  | Some h => if negb (fh_file h =? NULL) then run (liftF (file_seek (fh_file h) (s32 newpos)));; mret eax else mret eax
  | None => mret eax
  end.

Definition systell_handler (esp : Z) : scM Z :=
  '(fd, _) ← pop_stack esp;
  fhp ← get_handle (s32 fd);
  match fhp with
  | Some h => if negb (fh_file h =? NULL) then n ← run (liftF (file_tell (fh_file h))); mret (u32 n) else mret (u32 (-1))
  | None => mret (u32 (-1))
  end.

(** The file or the directory of the handle is closed with it. *)
Definition close_fd (fd : Z) : sysM unit :=
  r ← liftK (thread_close_handler fd);
  match r with
  | Some h =>
      liftF (if negb (fh_file h =? NULL) then file_close (fh_file h) else mret tt);;
      liftF (if negb (fh_dir h =? NULL) then dir_close (fh_dir h) else mret tt)
  | None => mret tt
  end.

Definition sysclose_handler (esp eax : Z) : scM Z :=
  '(fd, _) ← pop_stack esp; run (close_fd (s32 fd));; mret eax.

Definition sysmmap_handler (esp : Z) : scM Z :=
  '(fd, esp) ← pop_stack esp;
  '(addr, _) ← pop_stack esp;
  mret (u32 (-1)).

Definition sysmunmap_handler (esp eax : Z) : scM Z :=
  '(mapid, _) ← pop_stack esp; mret eax.

(** * Directories *)

Definition syschdir_handler (esp : Z) : scM Z :=
  '(p, _) ← pop_stack esp;
  dir ← user_string p;
  cwd ← pwd;
  '(success, cwd') ← run (liftF (dir_changedir junk cwd dir));
  t ← run (liftK thread_current);
  (if success : bool then run (smodify (fun s => set_pwds (<[t := cwd']> (pwds s)) s)) else mret tt);;
  mret (of_bool success).

(** The parent of the directory, null for none. *)
Definition parent_path (cwd dir : str) : fM (option str) :=
  Directory.liftp (a ← path_abspath cwd (Some dir); match a with Some p => path_dirname p | None => mret None end).

Definition sysmkdir_handler (esp : Z) : scM Z :=
  '(p, _) ← pop_stack esp;
  dir ← user_string p;
  cwd ← pwd;
  success ← and_then (mret (path_isvalid dir))
    (and_then (d ← run (liftF (path_isdir junk cwd dir)); mret (negb d))
      (parent ← run (liftF (parent_path cwd dir));
       match parent with Some q => run (liftF (path_isdir junk cwd q)) | None => mret false end));
  if success : bool then ok ← run (liftF (filesys_mkdir junk cwd dir)); mret (of_bool ok) else mret 0.

Definition sysreaddir_handler (esp : Z) : scM Z :=
  '(fd, esp) ← pop_stack esp;
  '(name, _) ← pop_stack esp;
  fhp ← get_handle (s32 fd);
  match fhp with
  | Some h =>
      if negb (fh_dir h =? NULL) then
        r ← run (liftF (dir_readdir junk (fh_dir h)));
        match r with
        | Some s => put_bytes name (s ++ [0]);; mret 1
        | None => mret 0
        end
      else mret 0
  | None => mret (u32 (-1))
  end.

Definition sysisdir_handler (esp : Z) : scM Z :=
  '(fd, _) ← pop_stack esp;
  fhp ← get_handle (s32 fd);
  match fhp with
  | Some h =>
      if negb (fh_file h =? NULL) then mret 0
      else if negb (fh_dir h =? NULL) then mret 1
      else not_reached
  | None => mret (u32 (-1))
  end.

Definition sysinumber_handler (esp : Z) : scM Z :=
  '(fd, _) ← pop_stack esp;
  fhp ← get_handle (s32 fd);
  match fhp with
  | Some h =>
      if negb (fh_file h =? NULL) then n ← run (liftF (ip ← file_get_inode (fh_file h); inode_get_inumber ip)); mret (u32 n)
      else if negb (fh_dir h =? NULL) then n ← run (liftF (ip ← dir_get_inode (fh_dir h); inode_get_inumber ip)); mret (u32 n)
      else not_reached
  | None => mret (u32 (-1))
  end.

(** * The handler *)

(** The numbers of lib/syscall-nr.h, from 0 on. *)
Inductive syscall_nr :=
| SYS_HALT | SYS_EXIT | SYS_EXEC | SYS_WAIT | SYS_CREATE | SYS_REMOVE | SYS_OPEN | SYS_FILESIZE | SYS_READ | SYS_WRITE
| SYS_SEEK | SYS_TELL | SYS_CLOSE | SYS_MMAP | SYS_MUNMAP | SYS_CHDIR | SYS_MKDIR | SYS_READDIR | SYS_ISDIR | SYS_INUMBER.

Definition syscall_numbers : list syscall_nr :=
  [SYS_HALT; SYS_EXIT; SYS_EXEC; SYS_WAIT; SYS_CREATE; SYS_REMOVE; SYS_OPEN; SYS_FILESIZE; SYS_READ; SYS_WRITE;
   SYS_SEEK; SYS_TELL; SYS_CLOSE; SYS_MMAP; SYS_MUNMAP; SYS_CHDIR; SYS_MKDIR; SYS_READDIR; SYS_ISDIR; SYS_INUMBER].

Definition syscall_of (n : Z) : option syscall_nr :=
  if n <? 0 then None else syscall_numbers !! Z.to_nat n.

Definition dispatch (nr : syscall_nr) (esp eax : Z) : scM Z :=
  match nr with
  | SYS_HALT => syshalt_handler
  | SYS_EXIT => sysexit_handler esp
  | SYS_EXEC => sysexec_handler esp eax
  | SYS_WAIT => syswait_handler esp
  | SYS_CREATE => syscreate_handler esp
  | SYS_REMOVE => sysremove_handler esp
  | SYS_OPEN => sysopen_handler esp eax
  | SYS_FILESIZE => sysfilesize_handler esp
  | SYS_READ => sysread_handler esp
  | SYS_WRITE => syswrite_handler esp
  | SYS_SEEK => sysseek_handler esp eax
  | SYS_TELL => systell_handler esp
  | SYS_CLOSE => sysclose_handler esp eax
  | SYS_MMAP => sysmmap_handler esp
  | SYS_MUNMAP => sysmunmap_handler esp eax
  | SYS_CHDIR => syschdir_handler esp
  | SYS_MKDIR => sysmkdir_handler esp
  | SYS_READDIR => sysreaddir_handler esp
  | SYS_ISDIR => sysisdir_handler esp
  | SYS_INUMBER => sysinumber_handler esp
  end.

Definition syscall (esp eax : Z) : scM Z :=
  '(syscall_number, esp) ← pop_stack esp;
  match syscall_of (s32 syscall_number) with
  | Some nr => dispatch nr esp eax
  | None => mret eax
  end.

(** The stack pointer of the process is as it was. *)
Definition syscall_handler (esp eax : Z) : sysM reply := fun s =>
  match syscall esp eax s with
  | Ok (inl eax, s) => Ok (Resume eax, s)
  | Ok (inr r, s) => Ok (r, s)
  | Err e => Err e
  end.

End boot.
