(* ===== verification/SysIO.v ===== *)
(** Input and output through system calls: what a process sees of read and write, with
    its arguments and its buffer in its own memory, and what becomes of bad arguments. *)
From Stdlib Require Import ZArith Lia.
From stdpp Require Import base numbers sorting gmap list.
From S2P Require Import Prelude.
From S2P Require Import Bitmap.
From S2P Require Import StringC.
From S2P Require Import Inode.
From S2P Require Import InodeFile.
From S2P Require Import Thread.
From S2P Require Import Palloc.
From S2P Require Import PageDir.
From S2P Require Import Vm.
From S2P Require Import VmSwap.
From S2P Require Import Fault.
From S2P Require Import ArgStack.
From S2P Require Import UserMem.
From S2P Require Import Process.
From S2P Require Import Syscall.

Local Open Scope Z_scope.

(** * Running calls *)

Lemma sc_bind_run {A B} (m : scM A) (k : A -> scM B) s a s' : m s = Ok (inl a, s') -> (m ≫= k) s = k a s'.
Proof. intros H. unfold mbind, sc_bind. by rewrite H. Qed.

Lemma sc_bind_leave {A B} (m : scM A) (k : A -> scM B) s r s' : m s = Ok (inr r, s') -> (m ≫= k) s = Ok (inr r, s').
Proof. intros H. unfold mbind, sc_bind. by rewrite H. Qed.

Lemma run_run {A} (m : sysM A) s a s' : m s = Ok (a, s') -> run m s = Ok (inl a, s').
Proof. intros H. unfold run. by rewrite H. Qed.

Lemma liftK_run {A} (m : kM A) s a k : m (kern s) = Ok (a, k) -> liftK m s = Ok (a, set_kern k s).
Proof. intros H. unfold liftK. by rewrite H. Qed.

Lemma liftV_run {A} (m : vmM A) s a v : m (vms s) = Ok (a, v) -> liftV m s = Ok (a, set_vms v s).
Proof. intros H. unfold liftV. by rewrite H. Qed.

(** The files of the system. *)
Definition files_of (s : sys) : fs := fsys (vms s).
Definition set_files_of (f : fs) (s : sys) : sys := set_vms (set_fsys f (vms s)) s.

Lemma liftF_run {A} (m : fM A) s a f : m (files_of s) = Ok (a, f) -> run (liftF m) s = Ok (inl a, set_files_of f s).
Proof. unfold files_of. intros H. apply run_run, liftV_run. unfold liftf. by rewrite H. Qed.

(** * What a call may do to memory *)

(** Only the flags of page table entries have changed. *)
Definition quiet (pd : Z) (s s' : sys) : Prop :=
  (exists v, s' = set_vms (set_mem v (vms s)) s) /\ space_kept pd (vms s) (vms s').

Lemma quiet_refl pd s : space_ok (vms s) pd -> quiet pd s s.
Proof. intros Hs. split; [exists (mem (vms s)); by destruct s as [? []]|]. apply space_kept_refl, Hs. Qed.

Lemma quiet_trans pd s1 s2 s3 : quiet pd s1 s2 -> quiet pd s2 s3 -> quiet pd s1 s3.
Proof.
  intros [[v1 ->] H1] [[v2 ->] H2]. split; [exists v2; done|]. by eapply space_kept_trans.
Qed.

Lemma quiet_space pd s s' : space_ok (vms s) pd -> quiet pd s s' -> space_ok (vms s') pd.
Proof. intros Hs [_ Hk]. by eapply kept_space. Qed.

Lemma quiet_user_view pd s s' va : space_ok (vms s) pd -> quiet pd s s' -> 0 <= va < PHYS_BASE -> user_view pd (vms s') va = user_view pd (vms s) va.
Proof. intros Hs [_ Hk]. by eapply kept_view. Qed.

Lemma quiet_writable pd s s' va : quiet pd s s' -> 0 <= va < PHYS_BASE -> writable pd (vms s) va -> writable pd (vms s') va.
Proof. intros [_ [_ Hm _]] Hva [k Hk]. exists k. rewrite Hm; [done|]. unfold PHYS_BASE in *. lia. Qed.

Lemma quiet_rest pd s s' : quiet pd s s' ->
  kern s' = kern s /\ files_of s' = files_of s /\ pwds s' = pwds s /\ ownfiles s' = ownfiles s /\ console s' = console s /\ keys s' = keys s.
Proof. by intros [[v ->] _]. Qed.

(** The bytes from an address on. *)
Definition holds (pd : Z) (s : sys) (va : Z) (bs : list Z) : Prop :=
  0 <= va /\ va + Zlen bs <= PHYS_BASE /\ forall i b, bs !! i = Some b -> user_view pd (vms s) (va + Z.of_nat i) = Some b.

Lemma holds_cons pd s va b bs : holds pd s va (b :: bs) <-> 0 <= va < PHYS_BASE /\ user_view pd (vms s) va = Some b /\ holds pd s (va + 1) bs.
Proof.
  unfold holds. cbn [length]. split.
  - intros (H1 & H2 & H3). split; [lia|]. split; [rewrite <- (H3 0%nat b eq_refl); f_equal; lia|]. split; [lia|]. split; [lia|].
    intros i c Hi. rewrite <- (H3 (S i) c Hi). f_equal. lia.
  - intros (H1 & H2 & H3 & H4 & H5). split; [lia|]. split; [lia|]. intros [|i] c Hi; cbn in Hi.
    + injection Hi as <-. by rewrite Z.add_0_r.
    + rewrite <- (H5 i c Hi). f_equal. lia.
Qed.

Lemma holds_app pd s va bs bs' : holds pd s va (bs ++ bs') <-> holds pd s va bs /\ holds pd s (va + Zlen bs) bs'.
Proof.
  unfold holds. rewrite length_app. split.
  - intros (H1 & H2 & H3). split; (split; [lia|split; [lia|]]); intros i b Hi.
    + apply H3. by apply lookup_app_l_Some.
    + rewrite <- (H3 (length bs + i)%nat b); [f_equal; lia|]. rewrite lookup_app_r by lia. by replace (length bs + i - length bs)%nat with i by lia.
  - intros ((H1 & H2 & H3) & H4 & H5 & H6). split; [lia|]. split; [lia|]. intros i b [Hi|[Hl Hi]]%lookup_app_Some; [by apply H3|].
    rewrite <- (H6 _ _ Hi). f_equal. lia.
Qed.

Lemma quiet_holds pd s s' va bs : space_ok (vms s) pd -> quiet pd s s' -> holds pd s va bs -> holds pd s' va bs.
Proof.
  intros Hs Hq (H1 & H2 & H3). split; [done|]. split; [done|]. intros i b Hi. rewrite (quiet_user_view pd s s'); [by apply H3|done|done|].
  apply lookup_lt_Some in Hi. lia.
Qed.

Section memory.
Context (ipd ram : Z) (junk : list Z) (kfp : Z) (limit : nat) (pd : Z).

Lemma user_byte_run s va b :
  space_ok (vms s) pd -> 0 <= va < PHYS_BASE -> user_view pd (vms s) va = Some b ->
  exists s', user_byte ipd ram kfp va s = Ok (inl b, s') /\ quiet pd s s'.
Proof.
  intros Hs Hva Hv. destruct (read_byte_run ipd ram kfp (vms s) pd va b Hs Hva Hv) as (v & E & Hk).
  exists (set_vms (set_mem v (vms s)) s). split; [|split; [by exists v|done]]. unfold user_byte.
  assert (u32 va = va) as -> by (apply uwrap_id; [lia|unfold in_u, PHYS_BASE in *; lia]).
  rewrite (sc_bind_run _ _ _ (Some b) (set_vms (set_mem v (vms s)) s)); [done|]. by apply run_run, liftV_run.
Qed.

Lemma user_bytes_run bs : forall s va, space_ok (vms s) pd -> holds pd s va bs ->
  exists s', user_bytes ipd ram kfp (length bs) va s = Ok (inl bs, s') /\ quiet pd s s'.
Proof.
  induction bs as [|b bs IH]; intros s va Hs Hh; cbn [length user_bytes]; [exists s; split; [done|by apply quiet_refl]|].
  apply holds_cons in Hh as (Hva & Hb & Hh). destruct (user_byte_run s va b Hs Hva Hb) as (s1 & E1 & Q1). rewrite (sc_bind_run _ _ _ _ _ E1).
  destruct (IH s1 (va + 1)) as (s2 & E2 & Q2); [by eapply quiet_space|by eapply quiet_holds|]. rewrite (sc_bind_run _ _ _ _ _ E2).
  exists s2. split; [done|]. by eapply quiet_trans.
Qed.

Lemma user_word_run s va w :
  space_ok (vms s) pd -> in_u 32 w -> holds pd s va (word_bytes w) ->
  exists s', user_word ipd ram kfp va s = Ok (inl w, s') /\ quiet pd s s'.
Proof.
  intros Hs Hw Hh. destruct (user_bytes_run (word_bytes w) s va Hs Hh) as (s' & E & Q). exists s'. split; [|done].
  unfold user_word. change 4%nat with (length (word_bytes w)). rewrite (sc_bind_run _ _ _ _ _ E). unfold mret, sc_ret. do 3 f_equal.
  pose proof (word_at_app [] w [] Hw) as Ha. cbn [app] in Ha. by rewrite app_nil_r in Ha.
Qed.

(** The arguments of a call from the stack pointer on, above address 0. *)
Definition stacked (s : sys) (esp : Z) (ws : list Z) : Prop :=
  0 < esp /\ Forall (in_u 32) ws /\ holds pd s esp (bytes_of_words ws).

Lemma pop_stack_run s esp w ws :
  space_ok (vms s) pd -> stacked s esp (w :: ws) ->
  exists s', pop_stack ipd ram kfp esp s = Ok (inl (w, esp + 4), s') /\ quiet pd s s' /\ stacked s' (esp + 4) ws.
Proof.
  intros Hs (Hesp & Hf & Hh). apply Forall_cons in Hf as [Hw Hf]. unfold bytes_of_words in Hh. rewrite bind_cons in Hh. apply holds_app in Hh as [Hh1 Hh2].
  destruct (user_word_run s esp w Hs Hw Hh1) as (s' & E & Q). exists s'. destruct Hh1 as (_ & Hb & _). change (Zlen (word_bytes w)) with 4 in *.
  assert (u32 (esp + 4) = esp + 4) as Hu by (apply uwrap_id; [lia|unfold in_u, PHYS_BASE in *; lia]). split; [|split; [done|]].
  - unfold pop_stack. rewrite (proj2 (Z.ltb_lt _ _)) by lia. rewrite (proj2 (Z.eqb_neq _ _)) by (unfold NULL; lia). cbn [negb andb].
    rewrite (sc_bind_run _ _ _ _ _ E). by rewrite Hu.
  - split; [lia|]. split; [done|]. by eapply quiet_holds.
Qed.

Lemma put_byte_run s va b :
  space_ok (vms s) pd -> 0 <= va < PHYS_BASE -> writable pd (vms s) va -> 0 <= b < 256 ->
  exists v, put_byte ipd ram kfp va b s = Ok (inl tt, set_vms v s) /\ (exists m, v = set_mem m (vms s)) /\ space_ok v pd /\
    (forall x, 0 <= x < PHYS_BASE -> writable pd (vms s) x -> writable pd v x) /\ user_view pd v va = Some b /\
    (forall x, 0 <= x < PHYS_BASE -> x <> va -> user_view pd v x = user_view pd (vms s) x).
Proof.
  intros Hs Hva Hw Hb. destruct (write_byte_run ipd ram kfp (vms s) pd va b Hs Hva Hw Hb) as (v & E & H). exists v. split; [|done].
  unfold put_byte. assert (u32 va = va) as -> by (apply uwrap_id; [lia|unfold in_u, PHYS_BASE in *; lia]).
  rewrite (sc_bind_run _ _ _ true (set_vms v s)); [done|]. by apply run_run, liftV_run.
Qed.

(** The bytes [bs] have been stored from [va] on, and nothing else. *)
Record stores (va : Z) (bs : list Z) (s s' : sys) : Prop := {
  ss_rest : exists m, s' = set_vms (set_mem m (vms s)) s;
  ss_space : space_ok (vms s') pd;
  ss_writable : forall x, 0 <= x < PHYS_BASE -> writable pd (vms s) x -> writable pd (vms s') x;
  ss_view : forall x, 0 <= x < PHYS_BASE ->
    user_view pd (vms s') x = if decide (va <= x < va + Zlen bs) then bs !! Z.to_nat (x - va) else user_view pd (vms s) x
}.

Lemma quiet_stores va s s' : space_ok (vms s) pd -> quiet pd s s' -> stores va [] s s'.
Proof.
  intros Hs Hq. split; [apply Hq|by eapply quiet_space|intros x Hx; by apply quiet_writable|].
  intros x Hx. rewrite decide_False by (cbn; lia). by apply quiet_user_view.
Qed.

(** Storing again from the same address on, at least as many bytes. *)
Lemma stores_again va bs bs' s1 s2 s3 :
  stores va bs s1 s2 -> stores va bs' s2 s3 -> (length bs <= length bs')%nat \/ bs' = [] ->
  stores va (match bs' with [] => bs | _ => bs' end) s1 s3.
Proof.
  intros [[m1 ->] A2 A3 A4] [[m2 ->] B2 B3 B4] Hl. split; [by exists m2|done|auto|]. intros x Hx. rewrite B4, A4 by done.
  destruct bs' as [|b bs']; [destruct (decide (va <= x < va + Zlen (@nil Z))) as [H|H]; [cbn in H; lia|done]|]. destruct Hl as [Hl|]; [|done].
  destruct (decide (va <= x < va + Zlen (b :: bs'))); [done|]. rewrite decide_False; [done|]. lia.
Qed.

Lemma put_bytes_run bs : forall s va,
  space_ok (vms s) pd -> 0 <= va -> va + Zlen bs <= PHYS_BASE -> Forall (fun b => 0 <= b < 256) bs ->
  (forall x, va <= x < va + Zlen bs -> writable pd (vms s) x) ->
  exists s', put_bytes ipd ram kfp va bs s = Ok (inl tt, s') /\ stores va bs s s'.
Proof.
  induction bs as [|b bs IH]; intros s va Hs H0 H1 Hb Hw; cbn [put_bytes].
  - exists s. split; [done|]. apply quiet_stores; [done|by apply quiet_refl].
  - apply Forall_cons in Hb as [Hb Hbs]. cbn [length] in *.
    destruct (put_byte_run s va b Hs ltac:(lia) (Hw va ltac:(lia)) Hb) as (v & E & [m ->] & Hv1 & Hv2 & Hv3 & Hv4).
    rewrite (sc_bind_run _ _ _ _ _ E). set (s1 := set_vms (set_mem m (vms s)) s) in *.
    destruct (IH s1 (va + 1)) as (s2 & E2 & [[m2 ->] R2 R3 R4]); [done|lia|lia|done| |].
    { intros x Hx. apply Hv2; [lia|]. apply Hw. lia. }
    eexists. split; [exact E2|]. split; [by exists m2|done|auto|]. intros x Hx. rewrite R4 by done. cbn [length].
    destruct (decide (x = va)) as [->|Hne].
    + rewrite decide_False by lia. rewrite decide_True by lia. replace (va - va) with 0 by lia. done.
    + destruct (decide (va + 1 <= x < va + 1 + Zlen bs)).
      * rewrite decide_True by lia. by replace (Z.to_nat (x - va)) with (S (Z.to_nat (x - (va + 1)))) by lia.
      * rewrite decide_False by lia. by apply Hv4.
Qed.

(** A descriptor of the running thread. *)
Definition has_fd (s : sys) (fd : Z) (r : option fileHandle) : Prop :=
  exists t th, thread_current (kern s) = Ok (t, kern s) /\ threads (kern s) !! t = Some th /\ find_handle fd (handles th) = r.

Lemma get_handle_run s fd r : has_fd s fd r -> get_handle fd s = Ok (inl r, s).
Proof.
  intros (t & th & Ht & Hth & <-). apply run_run. rewrite (liftK_run _ _ (find_handle fd (handles th)) (kern s)); [by destruct s|].
  rewrite (run_bind _ _ _ _ _ Ht). by rewrite (run_bind _ _ _ th (kern s)) by (unfold get_thread; by rewrite Hth).
Qed.

(** The descriptor of an open file, at position [pos] of an ordinary file. *)
Record open_file (s : sys) (fd f : Z) (fl : file) (nd : inode) : Prop := {
  of_handle : exists h, has_fd s fd (Some h) /\ fh_file h = f;
  of_null : f <> NULL;
  of_file : files (files_of s) !! f = Some fl;
  of_ok : file_ok (files_of s) (f_inode fl) nd;
  of_mallocs : mallocs (files_of s) = [];
  of_pos : 0 <= f_pos fl
}.

Lemma stacked_head s esp ws : stacked s esp ws -> 0 < esp /\ Forall (in_u 32) ws.
Proof. by intros (H1 & H2 & _). Qed.

(** Three arguments behind the number of the call. *)
Lemma syscall_run s esp eax n nr ws :
  space_ok (vms s) pd -> stacked s esp (n :: ws) -> 0 <= n < 2 ^ 31 -> syscall_of n = Some nr ->
  exists s', quiet pd s s' /\ stacked s' (esp + 4) ws /\ syscall ipd ram junk kfp limit esp eax s = dispatch ipd ram junk kfp limit nr (esp + 4) eax s'.
Proof.
  intros Hs Hst Hn Hnr. destruct (pop_stack_run s esp n ws Hs Hst) as (s' & E & Q & Hst'). exists s'. split; [done|]. split; [done|].
  unfold syscall. rewrite (sc_bind_run _ _ _ _ _ E). rewrite s32_id by lia. by rewrite Hnr.
Qed.

Lemma pop3_run s esp a b c ws :
  space_ok (vms s) pd -> stacked s esp (a :: b :: c :: ws) ->
  exists s', quiet pd s s' /\
    forall (k : Z -> Z -> Z -> scM Z),
      ('(a', e) ← pop_stack ipd ram kfp esp; '(b', e) ← pop_stack ipd ram kfp e; '(c', _) ← pop_stack ipd ram kfp e; k a' b' c') s = k a b c s'.
Proof.
  intros Hs Hst. destruct (pop_stack_run s esp _ _ Hs Hst) as (s1 & E1 & Q1 & Hst1). pose proof (quiet_space _ _ _ Hs Q1) as Hs1.
  destruct (pop_stack_run s1 _ _ _ Hs1 Hst1) as (s2 & E2 & Q2 & Hst2). pose proof (quiet_space _ _ _ Hs1 Q2) as Hs2.
  destruct (pop_stack_run s2 _ _ _ Hs2 Hst2) as (s3 & E3 & Q3 & _). exists s3. split; [by do 2 (eapply quiet_trans; [done|])|].
  intros k. rewrite (sc_bind_run _ _ _ _ _ E1), (sc_bind_run _ _ _ _ _ E2), (sc_bind_run _ _ _ _ _ E3). done.
Qed.

Lemma quiet_open s s' fd f fl nd : quiet pd s s' -> open_file s fd f fl nd -> open_file s' fd f fl nd.
Proof.
  intros Hq [(h & (t & th & T1 & T2 & T3) & Hh) H2 H3 H4 H5 H6]. destruct (quiet_rest _ _ _ Hq) as (K1 & K2 & _).
  split; rewrite ?K2; try done. exists h. split; [|done]. exists t, th. by rewrite K1.
Qed.

End memory.

Section calls.
Context (ipd ram : Z) (junk : list Z) (kfp : Z) (limit : nat) (pd : Z).

Lemma handler_run esp eax s r s' :
  syscall ipd ram junk kfp limit esp eax s = Ok (inl r, s') -> syscall_handler ipd ram junk kfp limit esp eax s = Ok (Resume r, s').
Proof. intros H. unfold syscall_handler. by rewrite H. Qed.

(** The two accesses to the buffer before a file is read. *)
Lemma probe_run s buf w :
  space_ok (vms s) pd -> in_u 32 w -> w <> 2 ^ 32 - 1 -> holds pd s buf (word_bytes w) -> writable pd (vms s) buf ->
  exists s', stores pd buf [1] s s' /\
    forall (k : scM Z), (x ← get_user ipd ram kfp buf; (if x =? -1 then terminate_thread else mret tt);;
                         ok ← put_user ipd ram kfp buf 1; (if negb ok then terminate_thread else mret tt);; k) s = k s'.
Proof.
  intros Hs Hw Hne Hh Hwr. destruct (user_word_run ipd ram kfp pd s buf w Hs Hw Hh) as (s1 & E1 & Q1). pose proof (quiet_space _ _ _ Hs Q1) as Hs1.
  destruct Hh as (H0 & H1 & _). change (Zlen (word_bytes w)) with 4 in H1. assert (0 <= buf < PHYS_BASE) as Hb by lia.
  destruct (put_byte_run ipd ram kfp pd s1 buf 1 Hs1 Hb (quiet_writable _ _ _ _ Q1 Hb Hwr) ltac:(lia)) as (v & E2 & [m ->] & V1 & V2 & V3 & V4).
  exists (set_vms (set_mem m (vms s1)) s1). split.
  - destruct Q1 as [[m1 ->] Q1]. split; [by exists m|done| |].
    + intros x Hx Hxw. apply V2; [done|]. by apply (quiet_writable pd s (set_vms (set_mem m1 (vms s)) s)); [split; [by exists m1|]|..].
    + intros x Hx. cbn [length]. case_decide as E.
      * assert (x = buf) as -> by lia. replace (buf - buf) with 0 by lia. exact V3.
      * etransitivity; [apply V4; [done|lia]|]. by apply (quiet_user_view pd s (set_vms (set_mem m1 (vms s)) s)); [|split; [by exists m1|]|].
  - intros k. rewrite (sc_bind_run _ _ _ (s32 w) s1).
    2:{ unfold get_user. rewrite (proj2 (Z.ltb_lt _ _)) by lia. by rewrite (sc_bind_run _ _ _ _ _ E1). }
    assert (s32 w <> -1) as Hs32.
    { unfold s32, swrap. change (2 ^ (32 - 1)) with (2 ^ 31). intros E. unfold in_u in Hw.
      assert ((w + 2 ^ 31) mod 2 ^ 32 = 2 ^ 31 - 1) as Em by lia.
      assert (w < 2 ^ 31 \/ 2 ^ 31 <= w) as [Hc|Hc] by lia.
      - rewrite Z.mod_small in Em by lia. lia.
      - rewrite <- (Z.mod_add _ (-1)), Z.mod_small in Em by lia. lia. }
    apply Z.eqb_neq in Hs32 as ->. rewrite (sc_bind_run _ _ _ tt s1) by done.
    rewrite (sc_bind_run _ _ _ true (set_vms (set_mem m (vms s1)) s1)).
    2:{ unfold put_user. rewrite (proj2 (Z.ltb_lt _ _)) by lia. by rewrite (sc_bind_run _ _ _ _ _ E2). }
    by rewrite (sc_bind_run _ _ _ tt (set_vms (set_mem m (vms s1)) s1)) by done.
Qed.

(** C23: Reading a file through the system call.  A process that has on its stack the number of read, the descriptor of an
    open ordinary file that fits into one inode (at most 124928 bytes), the address of a buffer all of whose pages are present
    and writable, and a size of at least 1, and whose buffer does not start with the word [0xffffffff], gets, when [malloc]
    gives the bounce buffer, the bytes of the file from its position on, as many as it asked for or as there are, in the buffer;
    the call returns how many, the position of the descriptor moves on by that many, and nothing else changes, except that
    at the end of the file the first byte of the buffer becomes 1. *)
Theorem sys_read_spec s esp eax fd buf n f fl nd w :
  space_ok (vms s) pd -> stacked pd s esp [8; fd; buf; n] -> 2 <= fd < 2 ^ 31 -> 0 < n < 2 ^ 31 -> buf + n <= PHYS_BASE ->
  (forall x, buf <= x < buf + n -> writable pd (vms s) x) -> in_u 32 w -> w <> 2 ^ 32 - 1 -> holds pd s buf (word_bytes w) ->
  open_file s fd f fl nd -> f_pos fl + n < 2 ^ 31 -> Forall (fun b => 0 <= b < 256) (content (files_of s) nd) ->
  let bs := take (Z.to_nat n) (drop (Z.to_nat (f_pos fl)) (content (files_of s) nd)) in
  exists s' b, syscall_handler ipd ram junk kfp limit esp eax s = Ok (Resume (Zlen bs), s') /\
    stores pd buf (match bs with [] => [1] | _ => bs end)
      (set_files_of (set_files (<[f := set_f_pos (f_pos fl + Zlen bs) fl]> (files (files_of s))) (set_brk b (files_of s))) s) s'.
Proof.
  intros Hs Hst Hfd Hn Hbuf Hwr Hw Hwn Hh Hopen Hpos Hbytes bs.
  assert (0 <= buf) as Hb0 by apply Hh. assert (forall x, buf <= x < buf + n -> 0 <= x < PHYS_BASE) as Hr by lia.
  destruct (syscall_run ipd ram junk kfp limit pd s esp eax 8 SYS_READ _ Hs Hst ltac:(lia) eq_refl) as (s1 & Q1 & Hst1 & E1).
  destruct (pop3_run ipd ram kfp pd s1 (esp + 4) fd buf n [] (quiet_space _ _ _ Hs Q1) Hst1) as (s2 & Q2' & Hpop).
  pose proof (quiet_trans _ _ _ _ Q1 Q2') as Q2. pose proof (quiet_space _ _ _ Hs Q2) as Hs2.
  destruct (probe_run s2 buf w Hs2 Hw Hwn (quiet_holds _ _ _ _ _ Hs Q2 Hh)) as (s3 & St3 & Hprobe).
  { apply (quiet_writable pd s); [done|apply Hr; lia|apply Hwr; lia]. }
  pose proof (quiet_open pd _ _ _ _ _ _ Q2 Hopen) as [(h & Hfdh & Hfh) O2 O3 O4 O5 O6]. destruct (quiet_rest _ _ _ Q2) as (K1 & K2 & _).
  pose proof St3 as [[m3 Em3] Sp3 Sw3 _]. subst s3. set (s3 := set_vms (set_mem m3 (vms s2)) s2) in *.
  assert (has_fd s3 fd (Some h)) as Hfd3 by exact Hfdh.
  destruct (file_read_run (files_of s3) f fl nd n O3 O4 O5 O6 ltac:(lia) Hpos) as (b & _ & Er).
  change (files_of s3) with (files_of s2) in Er. rewrite K2 in Er. fold bs in Er. set (f' := set_files _ _) in Er.
  pose proof (liftF_run (file_read f n) s3 bs f') as Er'. change (files_of s3) with (files_of s2) in Er'. rewrite K2 in Er'. specialize (Er' Er).
  assert (Zlen bs <= n) as Hlen by (unfold bs; rewrite length_take; lia).
  destruct (put_bytes_run ipd ram kfp pd bs (set_files_of f' s3) buf) as (s4 & E4 & St4); [by apply (space_mem (vms s3))|lia|lia| | |].
  { unfold bs. by apply Forall_take, Forall_drop. }
  { intros x Hx. apply (Sw3 x); [apply Hr; lia|]. apply (quiet_writable pd s); [done|apply Hr; lia|apply Hwr; lia]. }
  exists s4, b. split.
  - apply handler_run. rewrite E1. cbn [dispatch]. unfold sysread_handler. rewrite Hpop. rewrite !s32_id by lia.
    rewrite (proj2 (Z.eqb_neq fd 0)), (proj2 (Z.eqb_neq fd 1)), (proj2 (Z.ltb_ge n 0)), (proj2 (Z.eqb_neq n 0)) by lia. cbn [orb].
    rewrite Hprobe. rewrite (sc_bind_run _ _ _ _ _ (get_handle_run _ _ _ Hfd3)). rewrite Hfh. rewrite (proj2 (Z.eqb_neq f NULL)) by done. cbn [negb].
    rewrite (sc_bind_run _ _ _ _ _ Er'), (sc_bind_run _ _ _ _ _ E4). unfold mret, sc_ret. do 3 f_equal. apply uwrap_id; [lia|]. unfold in_u. lia.
  - apply (stores_again pd buf [1] bs _ (set_files_of f' s3)); [|done|destruct bs; [by right|left; cbn; lia]].
    destruct Q2 as [[m2 ->] Q2]. destruct St3 as [_ _ _ Sv3]. split; [by exists m3|by apply (space_mem (vms s3))| |].
    + intros x Hx Hxw. apply (Sw3 x Hx). apply (quiet_writable pd s (set_vms (set_mem m2 (vms s)) s)); [split; [by exists m2|done]|done|exact Hxw].
    + intros x Hx. etransitivity; [exact (Sv3 x Hx)|]. case_decide; [done|].
      apply (quiet_user_view pd s (set_vms (set_mem m2 (vms s)) s)); [done|split; [by exists m2|done]|done].
Qed.

(** A write that fits takes all the bytes of the buffer. *)
Lemma bytes_taken_run s f fl nd n :
  files s !! f = Some fl -> file_ok s (f_inode fl) nd -> mallocs s = [] -> is_dir nd = false -> deny_write_cnt nd = 0 ->
  0 <= f_pos fl -> f_pos fl + Z.of_nat n <= file_length (data nd) -> bytes_taken f n s = Ok (n, s).
Proof.
  intros Hf Hok Hm Hdir Hd Hp Hl. destruct (file_write_run s f fl nd (replicate n 0) Hf Hok Hm Hdir Hd Hp) as (s' & E & _); [by rewrite length_replicate|].
  unfold bytes_taken. rewrite E. by rewrite length_replicate, Nat2Z.id.
Qed.

(** C24: Writing a file through the system call.  A process that has on its stack the number of write, the descriptor of an
    open ordinary file that may be written and fits into one inode (at most 124928 bytes), the address of a buffer all of
    whose pages are present and the size of it, and the bytes fit before the end of the file, writes them, when [malloc]
    gives the bounce buffer: the call returns how many, the content of the file is what it was with the bytes of
    the buffer put in at the position of the descriptor, which moves on, no sector but those of the file changes, and
    neither does the memory of the process. *)
Theorem sys_write_spec s esp eax fd buf bs f fl nd :
  space_ok (vms s) pd -> stacked pd s esp [9; fd; buf; Zlen bs] -> 2 <= fd < 2 ^ 31 -> holds pd s buf bs ->
  open_file s fd f fl nd -> is_dir nd = false -> deny_write_cnt nd = 0 -> f_pos fl + Zlen bs <= file_length (data nd) ->
  exists s' f', syscall_handler ipd ram junk kfp limit esp eax s = Ok (Resume (Zlen bs), s') /\
    file_ok f' (f_inode fl) nd /\ wrote nd (files_of s) f' /\ content f' nd = overwrite (content (files_of s) nd) (f_pos fl) bs /\
    quiet pd (set_files_of (set_files (<[f := set_f_pos (f_pos fl + Zlen bs) fl]> (files f')) f') s) s'.
Proof.
  intros Hs Hst Hfd Hh Hopen Hdir Hdeny Hlen. assert (Zlen bs < 2 ^ 31) as Hn.
  { pose proof (fo_length _ _ _ (of_ok _ _ _ _ _ Hopen)) as HL. unfold BYTE_CAPACITY, NODE_CAPACITY, BLOCK_SECTOR_SIZE in HL.
    pose proof (of_pos _ _ _ _ _ Hopen). lia. }
  destruct (syscall_run ipd ram junk kfp limit pd s esp eax 9 SYS_WRITE _ Hs Hst ltac:(lia) eq_refl) as (s1 & Q1 & Hst1 & E1).
  destruct (pop3_run ipd ram kfp pd s1 (esp + 4) fd buf (Zlen bs) [] (quiet_space _ _ _ Hs Q1) Hst1) as (s2 & Q2' & Hpop).
  pose proof (quiet_trans _ _ _ _ Q1 Q2') as Q2. pose proof (quiet_space _ _ _ Hs Q2) as Hs2.
  destruct (user_bytes_run ipd ram kfp pd bs s2 buf Hs2 (quiet_holds _ _ _ _ _ Hs Q2 Hh)) as (s3 & E3 & Q3).
  pose proof (quiet_open pd _ _ _ _ _ _ Q2 Hopen) as [(h & Hfdh & Hfh) O2 O3 O4 O5 O6].
  pose proof (bytes_taken_run (files_of s2) f fl nd (length bs) O3 O4 O5 Hdir Hdeny O6 Hlen) as Eb.
  apply liftF_run in Eb. replace (set_files_of (files_of s2) s2) with s2 in Eb by (by destruct s2 as [? []]).
  pose proof (quiet_trans _ _ _ _ Q2 Q3) as Q4. pose proof (quiet_open pd _ _ _ _ _ _ Q4 Hopen) as [_ _ P3 P4 P5 P6].
  destruct (file_write_run (files_of s3) f fl nd bs P3 P4 P5 Hdir Hdeny P6 Hlen) as (f' & Ew & Hok' & Hwr & Hc). apply liftF_run in Ew.
  destruct (quiet_rest _ _ _ Q4) as (K1 & K2 & _). rewrite K2 in Hwr, Hc.
  eexists _, f'. split; [|split; [exact Hok'|split; [exact Hwr|split; [exact Hc|]]]].
  - apply handler_run. rewrite E1. cbn [dispatch]. unfold syswrite_handler. rewrite Hpop. rewrite !s32_id by lia.
    rewrite (proj2 (Z.eqb_neq fd 1)), (proj2 (Z.ltb_lt 1 fd)) by lia.
    rewrite (sc_bind_run _ _ _ _ _ (get_handle_run _ _ _ Hfdh)). rewrite Hfh, (proj2 (Z.eqb_neq f NULL)) by done. cbn [negb].
    unfold write_buffer. rewrite Nat2Z.id. rewrite (sc_bind_run _ _ _ _ _ Eb), (sc_bind_run _ _ _ _ _ E3).
    rewrite Nat.sub_diag, app_nil_r. rewrite (sc_bind_run _ _ _ _ _ Ew). unfold mret, sc_ret. do 3 f_equal. apply uwrap_id; [lia|]. unfold in_u. lia.
  - destruct Q4 as [[m ->] Q4]. split; [by exists m|]. destruct Q4 as [Q5 Q6]. by split.
Qed.

(** The system calls that take a descriptor, and what they return for one that is not open. *)
Definition unknown_fd (nr : syscall_nr) (eax : Z) : option Z :=
  match nr with
  | SYS_FILESIZE | SYS_WRITE | SYS_TELL | SYS_READDIR | SYS_ISDIR | SYS_INUMBER => Some (2 ^ 32 - 1)
  | SYS_SEEK | SYS_CLOSE => Some eax
  | _ => None
  end.

Lemma close_unknown fd hs : find_handle fd hs = None -> close_handle fd hs = (None, hs).
Proof.
  induction hs as [|h hs IH]; [done|]. cbn. destruct (fh_fd h =? fd); [done|]. intros H. by rewrite (IH H).
Qed.

(** Descriptors that are not open.  A call of filesize, write, tell, readdir, isdir or inumber with a descriptor that
    the process has not open, and is not 1 for write, returns -1; seek and close leave the result register as it is; nothing
    changes but accessed bits: no file is touched, and the table of descriptors is the same. *)
Theorem sys_unknown_fd s esp eax n nr fd a b r :
  space_ok (vms s) pd -> stacked pd s esp [n; fd; a; b] -> 0 <= n < 2 ^ 31 -> syscall_of n = Some nr -> unknown_fd nr eax = Some r ->
  s32 fd <> 1 -> has_fd s (s32 fd) None ->
  exists s', syscall_handler ipd ram junk kfp limit esp eax s = Ok (Resume r, s') /\ quiet pd s s'.
Proof.
  intros Hs Hst Hn Hnr Hr Hfd1 Hfd. destruct (syscall_run ipd ram junk kfp limit pd s esp eax n nr _ Hs Hst Hn Hnr) as (s1 & Q1 & Hst1 & E1).
  pose proof (quiet_space _ _ _ Hs Q1) as Hs1. destruct (pop_stack_run ipd ram kfp pd s1 (esp + 4) fd [a; b] Hs1 Hst1) as (s2 & E2 & Q2 & Hst2).
  pose proof (quiet_space _ _ _ Hs1 Q2) as Hs2. pose proof (quiet_trans _ _ _ _ Q1 Q2) as Q12.
  destruct (pop_stack_run ipd ram kfp pd s2 _ a [b] Hs2 Hst2) as (s3 & E3 & Q3 & Hst3). pose proof (quiet_space _ _ _ Hs2 Q3) as Hs3.
  pose proof (quiet_trans _ _ _ _ Q12 Q3) as Q13.
  destruct (pop_stack_run ipd ram kfp pd s3 _ b [] Hs3 Hst3) as (s4 & E4 & Q4 & _). pose proof (quiet_trans _ _ _ _ Q13 Q4) as Q14.
  assert (forall s', quiet pd s s' -> get_handle (s32 fd) s' = Ok (inl None, s')) as Hget.
  { intros s' Q. apply get_handle_run. destruct Hfd as (t & th & T1 & T2 & T3). exists t, th. destruct (quiet_rest _ _ _ Q) as (-> & _). done. }
  assert (u32 (-1) = 2 ^ 32 - 1) as Hm1 by done.
  assert (exists s', dispatch ipd ram junk kfp limit nr (esp + 4) eax s1 = Ok (inl r, s') /\ quiet pd s s') as (s' & E & Q).
  2:{ exists s'. split; [|done]. apply handler_run. by rewrite E1. }
  destruct nr; cbn [unknown_fd] in Hr; try done; injection Hr as <-; cbn [dispatch].
  - exists s2. split; [|done]. unfold sysfilesize_handler. rewrite (sc_bind_run _ _ _ _ _ E2), (sc_bind_run _ _ _ _ _ (Hget s2 Q12)). done.
  - unfold syswrite_handler. rewrite (sc_bind_run _ _ _ _ _ E2), (sc_bind_run _ _ _ _ _ E3), (sc_bind_run _ _ _ _ _ E4).
    exists s4. split; [|done]. apply Z.eqb_neq in Hfd1 as ->. destruct (1 <? s32 fd); [|done]. by rewrite (sc_bind_run _ _ _ _ _ (Hget s4 Q14)).
  - exists s3. split; [|done]. unfold sysseek_handler.
    rewrite (sc_bind_run _ _ _ _ _ E2), (sc_bind_run _ _ _ _ _ E3), (sc_bind_run _ _ _ _ _ (Hget s3 Q13)). done.
  - exists s2. split; [|done]. unfold systell_handler. rewrite (sc_bind_run _ _ _ _ _ E2), (sc_bind_run _ _ _ _ _ (Hget s2 Q12)). done.
  - exists s2. split; [|done]. unfold sysclose_handler. rewrite (sc_bind_run _ _ _ _ _ E2). destruct Hfd as (t & th & T1 & T2 & T3).
    destruct (quiet_rest _ _ _ Q12) as (K & _). rewrite (sc_bind_run _ _ _ tt s2); [done|]. apply run_run. unfold close_fd.
    rewrite (run_bind _ _ _ None s2); [done|]. rewrite (liftK_run _ _ None (kern s2)); [by destruct s2|]. unfold thread_close_handler. rewrite K.
    rewrite (run_bind _ _ _ _ _ T1). rewrite (run_bind _ _ _ th (kern s)) by (unfold get_thread; by rewrite T2).
    rewrite (close_unknown _ _ T3). rewrite (run_bind _ _ _ tt (kern s)); [done|]. unfold upd_thread. rewrite T2. do 2 f_equal.
    replace (set_handles (handles th) th) with th by (by destruct th). rewrite insert_id by done. by destruct (kern s).
  - exists s3. split; [|done]. unfold sysreaddir_handler.
    rewrite (sc_bind_run _ _ _ _ _ E2), (sc_bind_run _ _ _ _ _ E3), (sc_bind_run _ _ _ _ _ (Hget s3 Q13)). done.
  - exists s2. split; [|done]. unfold sysisdir_handler. rewrite (sc_bind_run _ _ _ _ _ E2), (sc_bind_run _ _ _ _ _ (Hget s2 Q12)). done.
  - exists s2. split; [|done]. unfold sysinumber_handler. rewrite (sc_bind_run _ _ _ _ _ E2), (sc_bind_run _ _ _ _ _ (Hget s2 Q12)). done.
Qed.

End calls.

(** * A process with an open file *)

Lemma holds_check pd s va bs :
  0 <= va -> va + Zlen bs <= PHYS_BASE ->
  (fun i => user_view pd (vms s) (va + Z.of_nat i)) <$> seq 0 (length bs) = Some <$> bs -> holds pd s va bs.
Proof.
  intros H0 H1 E. split; [done|]. split; [done|]. intros i b Hi. pose proof (lookup_lt_Some _ _ _ Hi).
  apply (f_equal (fun l => l !! i)) in E. rewrite !list_lookup_fmap, Hi, lookup_seq_lt in E by done. cbn in E. by injection E.
Qed.

(** Thread 3 has descriptor 2 for the file of [demo_fs], at position [pos], and children 5 and 7 that have exited; its stack
    pointer is [0xbfffff00], where it has [args]; the rest of the page is 0. *)
Definition demo_thread : thread :=
  mkThread 3 THREAD_RUNNING 31 31 0 0 0 [] no_donation [{| fh_file := 8448; fh_dir := NULL; fh_fd := 2 |}] [704] [640; 704] 3 true.

Definition demo_kern : kstate :=
  mkK {[ 4096 := demo_thread ]} [] [4096] [576; 640]
    {[ 576 := {| es_tid := 3; es_status := 0 |}; 640 := {| es_tid := 5; es_status := 81 |}; 704 := {| es_tid := 7; es_status := 0 |} ]}
    8192 4096 0 0 0 0 false 0 1 8 4096 true false false 0 [] ∅ ∅ ∅.

Definition demo_words (args : list Z) : list Z := replicate 960 0 ++ args ++ replicate (64 - length args) 0.

Definition demo_sys (pos : Z) (args : list Z) : sys :=
  mkSys demo_kern (set_fsys (set_files {[ 8448 := mkFile 4096 pos false ]} demo_fs) (demo_stack (demo_words args)))
    {[ 4096 := [47] ]} ∅ ∅ [] [].

Lemma demo_sys_space pos args : (length args <= 64)%nat -> Forall (in_u 32) args ->
  space_ok (vms (demo_sys pos args)) 0xc0101000 /\ forall va, 0xbffff000 <= va < PHYS_BASE -> writable 0xc0101000 (vms (demo_sys pos args)) va.
Proof.
  intros Hl Hf. destruct (demo_stack_space (demo_words args)) as [Hs Hw].
  - unfold demo_words. rewrite !length_app, !length_replicate. lia.
  - assert (forall n, Forall (in_u 32) (replicate n 0)) as Hz by (intros n; apply Forall_replicate; unfold in_u; lia).
    apply Forall_app. split; [apply Hz|]. apply Forall_app. split; [done|apply Hz].
  - split; [by apply (space_mem (demo_stack (demo_words args)))|exact Hw].
Qed.

Lemma demo_sys_open pos args : 0 <= pos -> open_file (demo_sys pos args) 2 8448 (mkFile 4096 pos false) demo_node.
Proof.
  intros Hp. split; [|unfold NULL; lia|reflexivity| |reflexivity|exact Hp].
  - exists {| fh_file := 8448; fh_dir := NULL; fh_fd := 2 |}. split; [|reflexivity]. exists 4096, demo_thread. split; [reflexivity|]. split; [reflexivity|]. reflexivity.
  - destruct demo_file_ok as [F1 F2 F3 F4 F5 F6 F7 F8]. by split.
Qed.

Lemma sys_read_spec_witness :
  exists s', syscall_handler 0xc0050000 320 [] 0 100 0xbfffff00 0 (demo_sys 590 [8; 2; 0xbffff800; 100]) = Ok (Resume 10, s') /\
    user_view 0xc0101000 (vms s') 0xbffff809 = Some 0.
Proof.
  destruct (demo_sys_space 590 [8; 2; 0xbffff800; 100]) as [Hs Hw]; [cbn; lia|repeat constructor; unfold in_u; lia|].
  destruct (sys_read_spec 0xc0050000 320 [] 0 100 0xc0101000 (demo_sys 590 [8; 2; 0xbffff800; 100]) 0xbfffff00 0 2 0xbffff800 100
    8448 (mkFile 4096 590 false) demo_node 0) as (s' & b & E & [_ _ _ Hv]).
  - exact Hs.
  - split; [lia|]. split; [repeat constructor; unfold in_u; lia|]. apply holds_check; [lia|vm_compute; discriminate|vm_compute; reflexivity].
  - lia.
  - lia.
  - unfold PHYS_BASE. lia.
  - intros x Hx. apply Hw. unfold PHYS_BASE. lia.
  - unfold in_u. lia.
  - lia.
  - apply holds_check; [lia|vm_compute; discriminate|vm_compute; reflexivity].
  - apply demo_sys_open. lia.
  - cbn. lia.
  - apply (bool_decide_unpack _). vm_compute. reflexivity.
  - exists s'. split; [exact E|]. rewrite Hv by (unfold PHYS_BASE; lia). vm_compute. reflexivity.
Defined.

Lemma sys_write_spec_witness :
  exists s' f', syscall_handler 0xc0050000 320 [] 0 100 0xbfffff00 0 (demo_sys 511 [9; 2; 0xbfffff10; 8; 7; 8]) = Ok (Resume 8, s') /\
    content f' demo_node = overwrite (content demo_fs demo_node) 511 [7; 0; 0; 0; 8; 0; 0; 0].
Proof.
  destruct (demo_sys_space 511 [9; 2; 0xbfffff10; 8; 7; 8]) as [Hs _]; [cbn; lia|repeat constructor; unfold in_u; lia|].
  destruct (sys_write_spec 0xc0050000 320 [] 0 100 0xc0101000 (demo_sys 511 [9; 2; 0xbfffff10; 8; 7; 8]) 0xbfffff00 0 2 0xbfffff10
    [7; 0; 0; 0; 8; 0; 0; 0] 8448 (mkFile 4096 511 false) demo_node) as (s' & f' & E & _ & _ & Hc & _).
  - exact Hs.
  - split; [lia|]. split; [repeat constructor; unfold in_u; lia|]. apply holds_check; [lia|vm_compute; discriminate|vm_compute; reflexivity].
  - lia.
  - apply holds_check; [lia|vm_compute; discriminate|vm_compute; reflexivity].
  - apply demo_sys_open. lia.
  - reflexivity.
  - reflexivity.
  - cbn. lia.
  - exists s', f'. split; [exact E|exact Hc].
Defined.

Lemma sys_unknown_fd_witness :
  exists s', syscall_handler 0xc0050000 320 [] 0 100 0xbfffff00 0 (demo_sys 0 [7; 9; 0; 0]) = Ok (Resume (2 ^ 32 - 1), s') /\
    quiet 0xc0101000 (demo_sys 0 [7; 9; 0; 0]) s'.
Proof.
  destruct (demo_sys_space 0 [7; 9; 0; 0]) as [Hs _]; [cbn; lia|repeat constructor; unfold in_u; lia|].
  apply (sys_unknown_fd 0xc0050000 320 [] 0 100 0xc0101000 (demo_sys 0 [7; 9; 0; 0]) 0xbfffff00 0 7 SYS_FILESIZE 9 0 0 (2 ^ 32 - 1)).
  - exact Hs.
  - split; [lia|]. split; [repeat constructor; unfold in_u; lia|]. apply holds_check; [lia|vm_compute; discriminate|vm_compute; reflexivity].
  - lia.
  - reflexivity.
  - reflexivity.
  - vm_compute. discriminate.
  - exists 4096, demo_thread. split; [reflexivity|]. split; [reflexivity|]. reflexivity.
Defined.
