(* ===== verification/ExitWait.v ===== *)
(** Exit statuses: what a process leaves behind when it exits or is killed for a bad
    stack pointer, and what its parent gets from wait. *)
From Stdlib Require Import ZArith Lia.
From stdpp Require Import base numbers sorting gmap list.
From S2P Require Import Prelude.
From S2P Require Import Thread.
From S2P Require Import Palloc.
From S2P Require Import Vm.
From S2P Require Import UserMem.
From S2P Require Import Process.
From S2P Require Import Syscall.
From S2P Require Import SysIO.

Local Open Scope Z_scope.

(** * The table of statuses *)

(** The status of thread [n] on the global list is [v], in the structure at [es]. *)
Definition status_is (k : kstate) (n es v : Z) : Prop :=
  List.find (es_has_tid k n) (exit_list k) = Some es /\ exits k !! es = Some {| es_tid := n; es_status := v |}.

(** The running thread has the tid [n]. *)
Definition running_tid (k : kstate) (n : Z) : Prop :=
  exists t th, thread_current k = Ok (t, k) /\ threads k !! t = Some th /\ tid th = n.

Definition with_status (n es v : Z) (k : kstate) : kstate :=
  set_exits (<[es := {| es_tid := n; es_status := v |}]> (exits k)) k.

Lemma find_ext {A} (p q : A -> bool) l : (forall x, p x = q x) -> List.find p l = List.find q l.
Proof. intros H. induction l as [|x l IH]; [done|]. cbn. by rewrite H, IH. Qed.

Lemma with_status_tid n es v v0 k m x :
  exits k !! es = Some {| es_tid := n; es_status := v0 |} -> es_has_tid (with_status n es v k) m x = es_has_tid k m x.
Proof.
  intros He. unfold es_has_tid, with_status. cbn. destruct (decide (x = es)) as [->|Hne].
  - by rewrite lookup_insert_eq, He.
  - by rewrite lookup_insert_ne.
Qed.

Lemma set_status_run k n es v0 v :
  status_is k n es v0 -> thread_set_exit_status n v k = Ok (tt, with_status n es v k) /\ status_is (with_status n es v k) n es v.
Proof.
  intros [Hf He]. split.
  - unfold thread_set_exit_status. rewrite (run_bind _ _ _ es k).
    + rewrite (run_bind _ _ _ (exits k) k) by done. by rewrite He.
    + unfold thread_get_exit_status. rewrite (run_bind _ _ _ (exit_list k) k) by done. rewrite (run_bind _ _ _ k k) by done. by rewrite Hf.
  - split; [|apply lookup_insert_eq]. rewrite <- Hf. apply find_ext. intros x. by eapply with_status_tid.
Qed.

Lemma tid_run s n : running_tid (kern s) n -> run cur_tid s = Ok (inl n, s).
Proof.
  intros (t & th & H1 & H2 & H3). apply run_run. unfold cur_tid. rewrite (liftK_run _ _ n (kern s)); [by destruct s|].
  rewrite (run_bind _ _ _ _ _ H1). rewrite (run_bind _ _ _ th (kern s)) by (unfold get_thread; by rewrite H2). by rewrite H3.
Qed.

(** Both ways to end a process set its status and go to [thread_exit]. *)
Lemma leave_run s n es v0 v :
  running_tid (kern s) n -> status_is (kern s) n es v0 ->
  (n ← run cur_tid; run (liftK (thread_set_exit_status n v));; leave Exit : scM Z) s =
    Ok (inr Exit, set_kern (with_status n es v (kern s)) s).
Proof.
  intros Ht Hst. rewrite (sc_bind_run _ _ _ _ _ (tid_run s n Ht)). destruct (set_status_run (kern s) n es v0 v Hst) as [E _].
  rewrite (sc_bind_run _ _ _ tt (set_kern (with_status n es v (kern s)) s)); [done|]. by apply run_run, liftK_run.
Qed.

(** * Exit *)

Section calls.
Context (ipd ram : Z) (junk : list Z) (kfp : Z) (limit : nat) (pd : Z).

(** C25: How a process ends by a system call.  With exit and a status on its stack, that status is in the table for its
    parent; with a stack pointer that is null or above user memory, whatever call was meant, the status is -1, nothing
    is read from memory and no call is made.  Nothing else changes, and the thread goes on in [thread_exit]. *)
Theorem sys_exit_spec s esp eax n es v0 :
  running_tid (kern s) n -> status_is (kern s) n es v0 ->
  (forall v, space_ok (vms s) pd -> stacked pd s esp [1; v] ->
     exists s', syscall_handler ipd ram junk kfp limit esp eax s = Ok (Exit, s') /\ status_is (kern s') n es (s32 v) /\
       quiet pd (set_kern (with_status n es (s32 v) (kern s)) s) s') /\
  (esp = NULL \/ PHYS_BASE <= esp ->
     syscall_handler ipd ram junk kfp limit esp eax s = Ok (Exit, set_kern (with_status n es (-1) (kern s)) s) /\
     status_is (with_status n es (-1) (kern s)) n es (-1)).
Proof.
  intros Ht Hst. split.
  - intros v Hs Hstk. destruct (syscall_run ipd ram junk kfp limit pd s esp eax 1 SYS_EXIT _ Hs Hstk ltac:(lia) eq_refl) as (s1 & Q1 & Hst1 & E1).
    destruct (pop_stack_run ipd ram kfp pd s1 (esp + 4) v [] (quiet_space _ _ _ Hs Q1) Hst1) as (s2 & E2 & Q2 & _).
    pose proof (quiet_trans _ _ _ _ Q1 Q2) as Q. destruct (quiet_rest _ _ _ Q) as (K & _).
    pose proof (leave_run s2 n es v0 (s32 v) ltac:(by rewrite K) ltac:(by rewrite K)) as El.
    eexists. split; [|split].
    + unfold syscall_handler. rewrite E1. cbn [dispatch]. unfold sysexit_handler. rewrite (sc_bind_run _ _ _ _ _ E2). by rewrite El.
    + cbn. rewrite K. by eapply set_status_run.
    + rewrite K. destruct Q as [[m ->] Q]. split; [by exists m|done].
  - intros Hesp. destruct (set_status_run (kern s) n es v0 (-1) Hst) as [_ Hst']. split; [|done].
    assert (pop_stack ipd ram kfp esp s = Ok (inr Exit, set_kern (with_status n es (-1) (kern s)) s)) as Ep.
    { unfold pop_stack. assert ((esp <? PHYS_BASE) && negb (esp =? NULL) = false) as ->.
      { destruct Hesp as [->|He]; [done|]. by rewrite (proj2 (Z.ltb_ge _ _) He). }
      unfold terminate_thread. rewrite (sc_bind_run _ _ _ _ _ (tid_run s n Ht)). destruct (set_status_run (kern s) n es v0 (-1) Hst) as [E _].
      rewrite (sc_bind_run _ _ _ tt (set_kern (with_status n es (-1) (kern s)) s)); [done|]. by apply run_run, liftK_run. }
    unfold syscall_handler, syscall. by rewrite (sc_bind_leave _ _ _ _ _ Ep).
Qed.

End calls.

(** * Wait *)

(** A list of statuses that has one for [n]. *)
Definition lists_tid (k : kstate) (n : Z) (l : list Z) : bool := existsb (es_has_tid k n) l.

Lemma check_run k t th n : thread_current k = Ok (t, k) -> threads k !! t = Some th ->
  wait_check n k = (if lists_tid k n (child_list th) && negb (lists_tid k n (wait_list th)) then tp ← thread_by_tid n; mret (inr tp)
                    else mret (inl (-1))) k.
Proof.
  intros Ht Hth. assert (get_thread t k = Ok (th, k)) as Hg by (unfold get_thread; by rewrite Hth). unfold wait_check.
  rewrite (run_bind _ _ _ (lists_tid k n (child_list th)) k).
  2:{ unfold thread_is_child. rewrite (run_bind _ _ _ _ _ Ht), (run_bind _ _ _ _ _ Hg). by rewrite (run_bind _ _ _ k k) by done. }
  destruct (lists_tid k n (child_list th)); cbn [negb andb]; [|done].
  rewrite (run_bind _ _ _ (lists_tid k n (wait_list th)) k).
  2:{ unfold thread_has_waited. rewrite (run_bind _ _ _ _ _ Ht), (run_bind _ _ _ _ _ Hg). by rewrite (run_bind _ _ _ k k) by done. }
  by destruct (lists_tid k n (wait_list th)).
Qed.

(** The state behind a wait: the status is on the parent's own list. *)
Definition waited (t es : Z) (th : thread) (k : kstate) : kstate :=
  set_threads (<[t := set_wait_list (es :: wait_list th) th]> (threads k)) (set_exit_list (remove_one es (exit_list k)) k).

Lemma waited_current t es th k : thread_current k = Ok (t, k) -> threads k !! t = Some th ->
  thread_current (waited t es th k) = Ok (t, waited t es th k).
Proof.
  intros Ht Hth. unfold thread_current in *.
  rewrite (run_bind _ _ _ (cur k) k) in Ht by done. rewrite (run_bind _ _ _ k k) in Ht by done.
  apply run_bind_inv in Ht as ([] & s1 & Ha & Ht). unfold assert in Ha. destruct (is_thread k (cur k)) eqn:Hi; [|done]. injection Ha as <-.
  apply run_bind_inv in Ht as (th' & s2 & Hg & Ht). unfold get_thread in Hg. destruct (threads k !! cur k) as [th0|] eqn:Hc; [|done].
  injection Hg as <- <-. apply run_bind_inv in Ht as ([] & s3 & Ha & Ht). unfold assert in Ha.
  destruct (bool_decide (status th0 = THREAD_RUNNING)) eqn:Hr; [|done]. injection Ha as <-. injection Ht as Ht. subst t.
  rewrite Hth in Hc. injection Hc as ->.
  rewrite (run_bind _ _ _ (cur k) (waited (cur k) es th0 k)) by done. rewrite (run_bind _ _ _ (waited (cur k) es th0 k) _) by done.
  assert (is_thread (waited (cur k) es th0 k) (cur k) = true) as ->.
  { unfold is_thread in *. cbn. apply andb_true_iff in Hi as [-> _]. cbn. apply bool_decide_eq_true. rewrite lookup_insert_eq. by eexists. }
  rewrite (run_bind _ _ _ tt (waited (cur k) es th0 k)) by done.
  rewrite (run_bind _ _ _ (set_wait_list (es :: wait_list th0) th0) (waited (cur k) es th0 k)).
  2:{ unfold get_thread. cbn. by rewrite lookup_insert_eq. }
  cbn [status set_wait_list]. rewrite Hr. done.
Qed.

(** C26: Waiting for a child.  For a child whose status is on the global list and that has not been waited for, wait goes on
    to wait for the thread; behind that it returns the status that the child left, takes the structure off the global
    list, and a second wait for the same child returns -1 at once; so does a wait for a thread that is not a child. *)
Theorem wait_spec k t th n es v :
  thread_current k = Ok (t, k) -> threads k !! t = Some th ->
  (lists_tid k n (child_list th) = false -> wait_check n k = Ok (inl (-1), k)) /\
  (status_is k n es v -> es ∈ child_list th -> lists_tid k n (wait_list th) = false ->
   (exists tp, thread_by_tid n k = Ok (tp, k) /\ wait_check n k = Ok (inr tp, k)) /\
   exists k', wait_result n k = Ok (v, k') /\ k' = waited t es th k /\ wait_check n k' = Ok (inl (-1), k')).
Proof.
  intros Ht Hth. split.
  - intros Hl. rewrite (check_run k t th n Ht Hth), Hl. done.
  - intros [Hf He] Hc Hw. assert (es_has_tid k n es = true) as Hes by (unfold es_has_tid; rewrite He; apply Z.eqb_refl).
    assert (lists_tid k n (child_list th) = true) as Hcl.
    { apply existsb_exists. exists es. split; [by apply list_elem_of_In|done]. }
    assert (exists tp, thread_by_tid n k = Ok (tp, k)) as [tp Htp] by (eexists; reflexivity).
    split.
    + exists tp. split; [done|]. rewrite (check_run k t th n Ht Hth), Hcl, Hw. cbn [negb andb]. by rewrite (run_bind _ _ _ _ _ Htp).
    + exists (waited t es th k). split; [|split; [done|]].
      * unfold wait_result. rewrite (run_bind _ _ _ es k).
        2:{ unfold thread_get_exit_status. rewrite (run_bind _ _ _ (exit_list k) k) by done. rewrite (run_bind _ _ _ k k) by done. by rewrite Hf. }
        rewrite (run_bind _ _ _ tt (waited t es th k)).
        { unfold status_of. rewrite (run_bind _ _ _ (exits k) (waited t es th k)) by done. by rewrite He. }
        unfold thread_mark_waited. rewrite (run_bind _ _ _ _ _ Ht). rewrite (run_bind _ _ _ (exit_list k) k) by done.
        rewrite (run_bind _ _ _ (remove_one es (exit_list k)) k).
        2:{ unfold unlink. rewrite bool_decide_eq_true_2; [done|]. apply list_elem_of_In. by apply find_some in Hf as [? _]. }
        rewrite (run_bind _ _ _ tt (set_exit_list (remove_one es (exit_list k)) k)) by done. unfold upd_thread. cbn. by rewrite Hth.
      * rewrite (check_run (waited t es th k) t (set_wait_list (es :: wait_list th) th) n).
        -- cbn [child_list wait_list set_wait_list]. unfold lists_tid at 2. cbn [existsb].
           change (es_has_tid (waited t es th k) n es) with (es_has_tid k n es). rewrite Hes. cbn [negb orb]. by rewrite andb_false_r.
        -- by apply waited_current.
        -- apply lookup_insert_eq.
Qed.

(** * A parent and its children *)

Lemma sys_exit_spec_witness :
  syscall_handler 0xc0050000 320 [] 0 100 0xc0000000 0 (demo_sys 0 []) =
    Ok (Exit, set_kern (with_status 3 576 (-1) demo_kern) (demo_sys 0 [])) /\
  exists s', syscall_handler 0xc0050000 320 [] 0 100 0xbfffff00 0 (demo_sys 0 [1; 7]) = Ok (Exit, s') /\ status_is (kern s') 3 576 7.
Proof.
  assert (forall args, running_tid (kern (demo_sys 0 args)) 3) as Hr.
  { intros args. exists 4096, demo_thread. split; [reflexivity|]. split; reflexivity. }
  assert (forall args, status_is (kern (demo_sys 0 args)) 3 576 0) as Hst by (intros args; split; reflexivity).
  destruct (demo_sys_space 0 [1; 7]) as [Hs _]; [cbn; lia|repeat constructor; unfold in_u; lia|]. split.
  - apply (sys_exit_spec 0xc0050000 320 [] 0 100 0xc0101000 (demo_sys 0 []) 0xc0000000 0 3 576 0); [apply Hr|apply Hst|].
    right. unfold PHYS_BASE. lia.
  - destruct (sys_exit_spec 0xc0050000 320 [] 0 100 0xc0101000 (demo_sys 0 [1; 7]) 0xbfffff00 0 3 576 0 (Hr _) (Hst _)) as [H _].
    destruct (H 7 Hs) as (s' & E & H' & _).
    + split; [lia|]. split; [repeat constructor; unfold in_u; lia|]. apply holds_check; [lia|vm_compute; discriminate|vm_compute; reflexivity].
    + exists s'. split; [exact E|exact H'].
Defined.

Lemma wait_spec_witness :
  wait_check 7 demo_kern = Ok (inl (-1), demo_kern) /\
  exists k', wait_result 5 demo_kern = Ok (81, k') /\ wait_check 5 k' = Ok (inl (-1), k').
Proof.
  split; [reflexivity|]. destruct (wait_spec demo_kern 4096 demo_thread 5 640 81) as [_ H]; [reflexivity|reflexivity|].
  destruct H as (_ & k' & H1 & _ & H2).
  - split; reflexivity.
  - cbn. left.
  - reflexivity.
  - exists k'. split; [exact H1|exact H2].
Defined.
