(* ===== verification/FdTable.v ===== *)
(** File descriptors: the list of handles of a thread as a map from descriptors to
    open files and directories. *)
From Stdlib Require Import ZArith Lia.
From stdpp Require Import base numbers sorting gmap list.
From S2P Require Import Prelude.
From S2P Require Import Thread.
From S2P Require Import Process.
From S2P Require Import Syscall.

Local Open Scope Z_scope.

Definition fd_entry (h : fileHandle) : Z * (Z * Z) := (fh_fd h, (fh_file h, fh_dir h)).
Definition fd_map (th : thread) : gmap Z (Z * Z) := list_to_map (fd_entry <$> handles th).

(** Descriptors are different, and lie from 2, the first that is not the console's, up to the next one. *)
Record fd_inv (th : thread) : Prop := {
  fi_next : 2 <= nextFD th;
  fi_nodup : NoDup (fh_fd <$> handles th);
  fi_range : Forall (fun h => 2 <= fh_fd h < nextFD th) (handles th)
}.

Lemma entries_fst hs : (fd_entry <$> hs).*1 = fh_fd <$> hs.
Proof. rewrite <- list_fmap_compose. done. Qed.

Lemma find_handle_map hs fd :
  (fun h => (fh_file h, fh_dir h)) <$> find_handle fd hs = (list_to_map (fd_entry <$> hs) : gmap Z (Z * Z)) !! fd.
Proof.
  induction hs as [|h hs IH]; [done|]. cbn. destruct (Z.eqb_spec (fh_fd h) fd) as [<-|Hne].
  - by rewrite lookup_insert_eq.
  - by rewrite lookup_insert_ne, IH by done.
Qed.

Lemma close_handle_find fd hs : fst (close_handle fd hs) = find_handle fd hs.
Proof. induction hs as [|h hs IH]; [done|]. cbn. destruct (fh_fd h =? fd); [done|]. destruct (close_handle fd hs). exact IH. Qed.

Lemma close_handle_sub fd hs : sublist (snd (close_handle fd hs)) hs.
Proof.
  induction hs as [|h hs IH]; cbn; [constructor|]. destruct (fh_fd h =? fd); [by apply sublist_cons|].
  destruct (close_handle fd hs) as [r hs']. cbn in *. by apply sublist_skip.
Qed.

Lemma close_handle_map fd hs : NoDup (fh_fd <$> hs) ->
  (list_to_map (fd_entry <$> snd (close_handle fd hs)) : gmap Z (Z * Z)) = delete fd (list_to_map (fd_entry <$> hs)).
Proof.
  induction hs as [|h hs IH]; [intros _; cbn; by rewrite delete_empty|]. cbn. intros [Hni Hnd]%NoDup_cons.
  destruct (Z.eqb_spec (fh_fd h) fd) as [<-|Hne]; cbn.
  - rewrite delete_insert_eq. symmetry. apply delete_id. apply not_elem_of_list_to_map_1. by rewrite entries_fst.
  - destruct (close_handle fd hs) as [r hs'] eqn:E. cbn. rewrite delete_insert_ne by done. cbn in IH. by rewrite IH.
Qed.

(** The thread [th] becomes [th'] in the list of threads. *)
Definition put_thread (t : Z) (th : thread) (k : kstate) : kstate := set_threads (<[t := th]> (threads k)) k.

(** C27: The descriptors of a thread are a map to files and directories.  Looking a descriptor up is a lookup in the map;
    opening a file or directory adds an entry at a descriptor that is at least 2 and not in use; closing a
    descriptor removes its entry and returns what it was for, and does nothing for one that is not open.  The descriptors
    stay different and below the next one, and no other thread changes. *)
Theorem fd_table_refines k t th fd :
  thread_current k = Ok (t, k) -> threads k !! t = Some th -> fd_inv th -> nextFD th < 2 ^ 31 - 1 ->
  (fun h => (fh_file h, fh_dir h)) <$> find_handle fd (handles th) = fd_map th !! fd /\
  (forall file dir, exists th',
     thread_add_handler file dir k = Ok (nextFD th, put_thread t th' k) /\ fd_inv th' /\ 2 <= nextFD th /\
     fd_map th !! nextFD th = None /\ fd_map th' = <[nextFD th := (file, dir)]> (fd_map th)) /\
  exists th', thread_close_handler fd k = Ok (find_handle fd (handles th), put_thread t th' k) /\ fd_inv th' /\
     fd_map th' = delete fd (fd_map th).
Proof.
  intros Ht Hth [I1 I2 I3] Hmax. assert (get_thread t k = Ok (th, k)) as Hg by (unfold get_thread; by rewrite Hth).
  assert (s32 (nextFD th + 1) = nextFD th + 1) as Hs by (apply swrap_id; [lia|unfold in_s; lia]).
  assert (nextFD th ∉ fh_fd <$> handles th) as Hfresh.
  { intros (h & E & Hh)%list_elem_of_fmap. rewrite Forall_forall in I3. specialize (I3 h Hh). lia. }
  assert (fd_map th !! nextFD th = None) as Hnone by (apply not_elem_of_list_to_map_1; by rewrite entries_fst).
  split; [apply find_handle_map|]. split.
  - intros file dir. unfold thread_add_handler. rewrite (run_bind _ _ _ _ _ Ht), (run_bind _ _ _ _ _ Hg).
    eexists. split; [unfold upd_thread; by rewrite (run_bind _ _ _ tt _) by (by rewrite Hth)|]. cbn [handles nextFD set_handles set_nextFD].
    split; [|split; [done|split; [done|]]].
    + split; cbn; rewrite ?Hs; [lia| |].
      * rewrite fmap_app. apply NoDup_app. split; [done|]. split; [|apply NoDup_singleton]. cbn. intros x Hx ->%list_elem_of_singleton. done.
      * apply Forall_app. split; [eapply Forall_impl; [done|]; cbn; lia|]. apply Forall_singleton. cbn. lia.
    + unfold fd_map at 1. cbn [handles set_handles set_nextFD]. rewrite fmap_app. cbn [fmap list_fmap fd_entry fh_fd fh_file fh_dir].
      apply (list_to_map_snoc (M := gmap Z)). by rewrite entries_fst.
  - unfold thread_close_handler. rewrite (run_bind _ _ _ _ _ Ht), (run_bind _ _ _ _ _ Hg).
    pose proof (close_handle_find fd (handles th)) as Hcf. pose proof (close_handle_sub fd (handles th)) as Hsub.
    pose proof (close_handle_map fd (handles th) I2) as Hcm. destruct (close_handle fd (handles th)) as [r hs] eqn:E. cbn in Hcf, Hsub, Hcm. subst r.
    exists (set_handles hs th). split; [unfold upd_thread; by rewrite (run_bind _ _ _ tt _) by (by rewrite Hth)|]. split; [|exact Hcm].
    split; cbn; [done| |].
    + eapply sublist_NoDup; [exact I2|]. by apply fmap_sublist.
    + rewrite Forall_forall in *. intros h Hh. apply I3. by eapply elem_of_sublist.
Qed.

(** A thread with a file open as 2 and a directory as 3. *)
Definition demo_fd_thread : thread :=
  mkThread 3 THREAD_RUNNING 31 31 0 0 0 [] no_donation
    [{| fh_file := 8256; fh_dir := NULL; fh_fd := 2 |}; {| fh_file := NULL; fh_dir := 12288; fh_fd := 3 |}] [] [] 4 true.

Definition demo_fds : kstate :=
  mkK {[ 4096 := demo_fd_thread ]} [] [4096] [] ∅ 8192 4096 0 0 0 0 false 0 1 8 4096 true false false 0 [] ∅ ∅ ∅.

Lemma fd_table_refines_witness :
  exists th', thread_add_handler 8448 NULL demo_fds = Ok (4, put_thread 4096 th' demo_fds) /\
    fd_map th' = <[4 := (8448, NULL)]> (fd_map demo_fd_thread).
Proof.
  destruct (fd_table_refines demo_fds 4096 demo_fd_thread 3) as (_ & H & _); [reflexivity|reflexivity| |cbn; lia|].
  - split; [cbn; lia| |].
    + apply (bool_decide_unpack _). vm_compute. reflexivity.
    + repeat constructor; cbn; lia.
  - destruct (H 8448 NULL) as (th' & E & _ & _ & _ & Hm). exists th'. split; [exact E|exact Hm].
Defined.
