(* ===== verification/Segment.v ===== *)
(** Segments of an executable in the page table: the pages of a process as a map from
    addresses, and what [load_segment] of userprog/process.c enters there. *)
From Stdlib Require Import ZArith Lia.
From stdpp Require Import base numbers sorting gmap list.
From S2P Require Import Prelude.
From S2P Require Import Bitmap.
From S2P Require Import Inode.
From S2P Require Import InodeFile.
From S2P Require Import Palloc.
From S2P Require Import PageDir.
From S2P Require Import Vm.
From S2P Require Import VmSwap.
From S2P Require Import Fault.
From S2P Require Import ArgStack.
From S2P Require Import UserMem.
From S2P Require Import Process.

Local Open Scope Z_scope.

(** * The page table of the running thread *)

(** The list [l] of the running thread: entries of its own, one for an address, none of them null or at an address that
    will be allocated. *)
Record table_inv (s : vm) (l : list Z) : Prop := {
  tk_table : tables s !! current s = Some l;
  tk_entries : forall p, p ∈ l -> p <> NULL /\ exists e, entries s !! p = Some e /\ pe_tid e = current s;
  tk_distinct : forall p q e e', p ∈ l -> q ∈ l -> entries s !! p = Some e -> entries s !! q = Some e' -> pe_uaddr e = pe_uaddr e' -> p = q;
  tk_fresh : forall p e, entries s !! p = Some e -> p < vbrk s;
  tk_brk : 0 < vbrk s
}.

(** The page of the thread at the address [u] is the entry [e] at [p]. *)
Definition page_at (s : vm) (u p : Z) (e : page_entry) : Prop :=
  exists l, tables s !! current s = Some l /\ p ∈ l /\ entries s !! p = Some e /\ pe_uaddr e = u.

(** Only entries and page tables differ. *)
Definition table_only (s s' : vm) : Prop := exists b t e, s' = set_vbrk b (set_tables t (set_entries e s)).

Lemma table_only_refl s : table_only s s.
Proof. exists (vbrk s), (tables s), (entries s). by destruct s. Qed.

Lemma table_only_trans s1 s2 s3 : table_only s1 s2 -> table_only s2 s3 -> table_only s1 s3.
Proof. intros (b & t & e & ->) (b' & t' & e' & ->). by exists b', t', e'. Qed.

Lemma find_entry_run s u : forall l, (forall p, p ∈ l -> p <> NULL /\ exists e, entries s !! p = Some e /\ pe_tid e = current s) ->
  (find_entry l u s = Ok (NULL, s) /\ forall p e, p ∈ l -> entries s !! p = Some e -> pe_uaddr e <> u) \/
  (exists p e, find_entry l u s = Ok (p, s) /\ p ∈ l /\ p <> NULL /\ entries s !! p = Some e /\ pe_uaddr e = u /\ pe_tid e = current s).
Proof.
  induction l as [|q l IH]; intros Hl; cbn [find_entry].
  - left. split; [done|]. intros p e Hp. by apply not_elem_of_nil in Hp.
  - destruct (Hl q ltac:(left)) as (Hq & e & He & Ht). rewrite (run_bind _ _ _ e s) by by apply entry_run.
    destruct (Z.eqb_spec (pe_uaddr e) u) as [Hu|Hu].
    + right. exists q, e. do 2 (split; [done || left|]). done.
    + destruct IH as [[E Hno]|(p & e' & E & Hp & H)]; [intros p Hp; apply Hl; by right| |].
      * left. split; [done|]. intros p e' [->|Hp]%elem_of_cons He'; [congruence|by eauto].
      * right. exists p, e'. split; [done|]. split; [by right|done].
Qed.

Lemma page_addr_id u : u mod PGSIZE = 0 -> page_addr u = u.
Proof. intros H. unfold page_addr. pose proof (Z.div_mod u PGSIZE ltac:(unfold PGSIZE; lia)). lia. Qed.

Lemma table_run s l : table_inv s l -> current_table s = Ok (l, s).
Proof. intros Ht. unfold current_table. rewrite (run_bind _ _ _ (current s) s) by done. rewrite (run_bind _ _ _ s s) by done. by rewrite (tk_table _ _ Ht). Qed.

(** A page for an address: the one that is there, or a new one. *)
Lemma allocate_page_run s l u :
  table_inv s l -> u mod PGSIZE = 0 -> 0 < u < PHYS_BASE ->
  exists p e s' l', allocate_page u s = Ok (p, s') /\ p <> NULL /\ table_inv s' l' /\ page_at s' u p e /\ pe_tid e = current s /\ table_only s s' /\
    current s' = current s /\ forall u' q e', u' <> u -> page_at s' u' q e' <-> page_at s u' q e'.
Proof.
  intros Ht Hu Hr. pose proof Ht as [T1 T2 T3 T4 T5]. unfold allocate_page. rewrite (run_bind _ _ _ (current s) s) by done.
  destruct (find_entry_run s u l T2) as [[E Hno]|(p & e & E & Hp & Hn & He & Hua & Hti)].
  - rewrite (run_bind _ _ _ NULL s) by (unfold get_page_entry; rewrite (run_bind _ _ _ _ _ (table_run _ _ Ht)), page_addr_id by done; done).
    change (NULL =? NULL) with true. cbn [negb]. unfold is_user_vaddr. rewrite (proj2 (Z.ltb_lt _ _)), (proj2 (Z.eqb_neq u NULL)) by (unfold NULL; lia).
    cbn [negb orb]. set (p := vbrk s). set (e := mkEntry (current s) (page_addr u) true 0 0 0 0 0).
    rewrite (run_bind _ _ _ p (set_vbrk (p + 64) s)) by done. set (s1 := set_entries (<[p := e]> (entries s)) (set_vbrk (p + 64) s)).
    rewrite (run_bind _ _ _ tt s1) by done. rewrite (run_bind _ _ _ l s1).
    2:{ unfold current_table. rewrite (run_bind _ _ _ (current s) s1) by done. rewrite (run_bind _ _ _ s1 s1) by done. unfold s1. cbn. by rewrite T1. }
    set (s2 := set_tables (<[current s := l ++ [p]]> (tables s1)) s1). exists p, e, s2, (l ++ [p]).
    assert (forall q, q ∈ l -> q <> p) as Hne.
    { intros q Hq ->. destruct (T2 p Hq) as (_ & e' & He' & _). specialize (T4 _ _ He'). unfold p in T4. lia. }
    assert (pe_uaddr e = u) as Heu by (cbn; by apply page_addr_id). split; [done|]. split; [unfold p, NULL; lia|]. split; [|split; [|split; [done|split; [|split; [done|]]]]].
    + split; cbn.
      * by rewrite lookup_insert_eq.
      * intros q [Hq| ->%list_elem_of_singleton]%elem_of_app.
        -- rewrite lookup_insert_ne by (by apply not_eq_sym, Hne). by apply T2.
        -- split; [unfold p, NULL; lia|]. exists e. by rewrite lookup_insert_eq.
      * intros q q' x x' [Hq| ->%list_elem_of_singleton]%elem_of_app [Hq'| ->%list_elem_of_singleton]%elem_of_app.
        -- rewrite !lookup_insert_ne by (by apply not_eq_sym, Hne). by apply T3.
        -- rewrite lookup_insert_ne, lookup_insert_eq by (by apply not_eq_sym, Hne). intros Hx [= <-]. rewrite Heu. intros Hxx. by destruct (Hno q x Hq Hx).
        -- rewrite lookup_insert_eq, lookup_insert_ne by (by apply not_eq_sym, Hne). intros [= <-] Hx. rewrite Heu. intros Hxx. by destruct (Hno q' x' Hq' Hx).
        -- done.
      * intros q x Hq. destruct (decide (q = p)) as [->|Hqp]; [lia|]. rewrite lookup_insert_ne in Hq by done. specialize (T4 _ _ Hq). lia.
      * lia.
    + exists (l ++ [p]). cbn. rewrite !lookup_insert_eq. split; [done|]. split; [set_solver|]. done.
    + by exists (p + 64), (<[current s := l ++ [p]]> (tables s)), (<[p := e]> (entries s)).
    + intros u' q x Hu'. unfold page_at. cbn. rewrite lookup_insert_eq. split.
      * intros (l' & [= <-] & Hq & Hx & Hxu). apply elem_of_app in Hq as [Hq| ->%list_elem_of_singleton].
        -- rewrite lookup_insert_ne in Hx by (by apply not_eq_sym, Hne). by exists l.
        -- rewrite lookup_insert_eq in Hx. injection Hx as <-. congruence.
      * intros (l' & Hl' & Hq & Hx & Hxu). rewrite T1 in Hl'. injection Hl' as <-. exists (l ++ [p]). split; [done|]. split; [set_solver|].
        by rewrite lookup_insert_ne by (by apply not_eq_sym, Hne).
  - rewrite (run_bind _ _ _ p s) by (unfold get_page_entry; rewrite (run_bind _ _ _ _ _ (table_run _ _ Ht)), page_addr_id by done; done).
    apply Z.eqb_neq in Hn as Hn'. rewrite Hn'. cbn [negb]. exists p, e, s, l.
    split; [rewrite (run_bind _ _ _ e s) by (by apply entry_run); by rewrite Hti, Z.eqb_refl|].
    split; [done|]. split; [done|]. split; [by exists l|]. split; [done|]. split; [apply table_only_refl|]. done.
Qed.

(** Changing what an entry says of its page, but not whose it is. *)
Lemma upd_page_run s l u p e g :
  table_inv s l -> page_at s u p e -> pe_uaddr (g e) = pe_uaddr e -> pe_tid (g e) = pe_tid e ->
  exists s', upd_entry p g s = Ok (tt, s') /\ table_inv s' l /\ page_at s' u p (g e) /\ table_only s s' /\ current s' = current s /\
    forall u' q e', u' <> u -> page_at s' u' q e' <-> page_at s u' q e'.
Proof.
  intros [T1 T2 T3 T4 T5] (l' & Hl & Hp & He & Hu) Hgu Hgt. rewrite T1 in Hl. injection Hl as <-.
  exists (set_entries (<[p := g e]> (entries s)) s). split; [by apply upd_entry_run|].
  assert (forall q x, <[p := g e]> (entries s) !! q = Some x ->
    exists y, entries s !! q = Some y /\ pe_uaddr x = pe_uaddr y /\ pe_tid x = pe_tid y /\ (q <> p -> x = y)) as Hback.
  { intros q x. destruct (decide (q = p)) as [->|Hne].
    - rewrite lookup_insert_eq. intros [= <-]. by exists e.
    - rewrite lookup_insert_ne by done. intros Hq. by exists x. }
  split; [split; cbn|split; [|split; [|split; [done|]]]].
  - done.
  - intros q Hq. destruct (T2 q Hq) as (Hn & x & Hx & Hxt). split; [done|]. destruct (decide (q = p)) as [->|Hne].
    + exists (g e). rewrite lookup_insert_eq. split; [done|]. congruence.
    + exists x. by rewrite lookup_insert_ne.
  - intros q q' x x' Hq Hq' Hx Hx' Hxx. destruct (Hback _ _ Hx) as (y & Hy & Eu & _), (Hback _ _ Hx') as (y' & Hy' & Eu' & _).
    apply (T3 q q' y y'); [done..|congruence].
  - intros q x Hx. destruct (Hback _ _ Hx) as (y & Hy & _). by eapply T4.
  - done.
  - exists l. cbn. rewrite lookup_insert_eq. by split_and!; try congruence.
  - exists (vbrk s), (tables s), (<[p := g e]> (entries s)). by destruct s.
  - intros u' q x Hu'. unfold page_at. cbn. split; intros (l' & Hl & Hq & Hx & Hxu); exists l'; (split; [done|]); (split; [done|]).
    + destruct (Hback _ _ Hx) as (y & Hy & Eu & _ & Heq). destruct (decide (q = p)) as [->|Hne].
      * exfalso. rewrite He in Hy. injection Hy as <-. congruence.
      * by rewrite (Heq Hne) in *.
    + rewrite lookup_insert_ne; [done|]. intros <-. rewrite He in Hx. injection Hx as <-. congruence.
Qed.

(** * Loading a segment *)

(** What the entry of page [i] of a segment says: [r] bytes of the segment come from the file, from [ofs] on. *)
Definition segment_page (file ofs r : Z) (w : bool) (i : Z) (e : page_entry) : Prop :=
  pe_file e = file /\ pe_offset e = u64 (ofs + i * PGSIZE) /\ pe_read_bytes e = Z.min PGSIZE (Z.max 0 (r - i * PGSIZE)) /\ pe_writable e = w.

Lemma segment_loop_run np : forall n s l file ofs upage r z po w,
  table_inv s l -> 0 <= r -> 0 <= z -> r + z = Z.of_nat np * PGSIZE -> upage mod PGSIZE = 0 -> 0 < upage ->
  upage + Z.of_nat np * PGSIZE <= PHYS_BASE -> (np < n)%nat ->
  exists s' l', segment_loop n file ofs upage r z po w s = Ok (true, s') /\ table_inv s' l' /\ table_only s s' /\
    (forall i, 0 <= i < Z.of_nat np -> exists p e, page_at s' (upage + i * PGSIZE) p e /\ segment_page file (ofs + po) r w i e) /\
    (forall u p e, (u < upage \/ upage + Z.of_nat np * PGSIZE <= u) -> page_at s' u p e <-> page_at s u p e).
Proof.
  induction np as [|np IH]; intros n s l file ofs upage r z po w Ht Hr Hz Hsum Hua Hup Hend Hn; destruct n as [|n]; [lia| |lia|]; cbn [segment_loop].
  - assert (r = 0 /\ z = 0) as [-> ->] by lia. exists s, l. split; [done|]. split; [done|]. split; [apply table_only_refl|]. split; [lia|done].
  - rewrite Nat2Z.inj_succ in *. unfold Z.succ in *. unfold PGSIZE in Hsum, Hend.
    assert ((0 <? r) || (0 <? z) = true) as ->.
    { apply orb_true_iff. destruct (Z.eq_dec r 0); [right|left]; apply Z.ltb_lt; lia. }
    cbn [negb]. set (pr := if r <? PGSIZE then r else PGSIZE).
    assert (pr = Z.min PGSIZE r) as Hpr by (unfold pr; destruct (Z.ltb_spec r PGSIZE); lia).
    destruct (allocate_page_run s l upage Ht Hua) as (p & e & s1 & l1 & E1 & Hpn & Ht1 & Hp1 & Hti & On1 & Hc1 & Ho1); [unfold PHYS_BASE in *; lia|].
    rewrite (run_bind _ _ _ _ _ E1). apply Z.eqb_neq in Hpn as ->. set (g := fun e => set_pe_file _ _).
    destruct (upd_page_run s1 l1 upage p e g Ht1 Hp1 eq_refl eq_refl) as (s2 & E2 & Ht2 & Hp2 & On2 & Hc2 & Ho2).
    rewrite (run_bind _ _ _ _ _ E2).
    destruct (decide (np = O)) as [->|Hnp].
    + (* the last page *)
      unfold PGSIZE in *. assert (u32 (r - pr) = 0 /\ u32 (z - (4096 - pr)) = 0) as [-> ->] by (rewrite !u32_id by lia; lia).
      exists s2, l1. split; [by destruct n|]. split; [done|]. split; [by eapply table_only_trans|]. split.
      * intros i Hi. assert (i = 0) as -> by lia. exists p, (g e). split; [by rewrite Z.add_0_r|].
        unfold segment_page, PGSIZE. cbn. split; [done|]. split; [f_equal; lia|]. split; [lia|done].
      * intros u q x Hu. rewrite Ho2, Ho1 by lia. done.
    + assert (upage + PGSIZE < PHYS_BASE) as Hlt by (unfold PGSIZE, PHYS_BASE in *; lia).
      destruct (IH n s2 l1 file ofs (u32 (upage + PGSIZE)) (u32 (r - pr)) (u32 (z - (PGSIZE - pr))) (po + PGSIZE) w)
        as (s3 & l3 & E3 & Ht3 & On3 & Hpages & Hother);
        rewrite ?u32_id in * by (unfold PGSIZE, PHYS_BASE in *; lia); try (unfold PGSIZE, PHYS_BASE in *; lia); [done| |].
      { unfold PGSIZE in *. rewrite <- Z.add_mod_idemp_l by lia. by rewrite Hua. }
      exists s3, l3. split; [done|]. split; [done|]. split; [by eapply table_only_trans; [eapply table_only_trans|]|]. split.
      * intros i Hi. destruct (decide (i = 0)) as [->|Hi0].
        -- exists p, (g e). split; [apply Hother; [unfold PGSIZE; lia|by rewrite Z.add_0_r]|].
           unfold segment_page, PGSIZE in *. cbn. split; [done|]. split; [f_equal; lia|]. split; [lia|done].
        -- destruct (Hpages (i - 1) ltac:(lia)) as (q & x & Hq & S1 & S2 & S3 & S4). exists q, x.
           split; [by replace (upage + i * PGSIZE) with (upage + PGSIZE + (i - 1) * PGSIZE) by lia|].
           unfold segment_page, PGSIZE in *. split; [done|]. split; [rewrite S2; f_equal; lia|]. split; [lia|done].
      * intros u q x Hu. rewrite Hother by (unfold PGSIZE in *; lia). rewrite Ho2, Ho1 by (unfold PGSIZE in *; lia). done.
Qed.

Lemma mask_mod x : Z.land x PGMASK = x mod PGSIZE.
Proof. unfold PGMASK, PGSIZE. change 4095 with (Z.ones 12). rewrite Z.land_ones by lia. done. Qed.

Lemma mask_page x : in_u 32 x -> Z.land x (u32 (Z.lnot PGMASK)) = x - x mod PGSIZE.
Proof.
  intros Hx. change (u32 (Z.lnot PGMASK)) with PTE_ADDR. rewrite land_addr by done.
  pose proof (Z.div_mod x PGSIZE ltac:(unfold PGSIZE; lia)). lia.
Qed.

Lemma round_up_run x : 0 < x -> x + PGSIZE <= 2 ^ 32 ->
  exists np, ROUND_UP x PGSIZE = Z.of_nat np * PGSIZE /\ x <= Z.of_nat np * PGSIZE < x + PGSIZE.
Proof.
  intros Hx Hb. unfold PGSIZE in *. exists (Z.to_nat ((x + 4096 - 1) / 4096)).
  pose proof (Z.div_mod (x + 4096 - 1) 4096 ltac:(lia)). pose proof (Z.mod_pos_bound (x + 4096 - 1) 4096 ltac:(lia)).
  assert (0 <= (x + 4096 - 1) / 4096) by (apply Z.div_pos; lia). rewrite Z2Nat.id by done. split; [|lia].
  unfold ROUND_UP. assert (u32 (u32 (x + 4096) - 1) = x + 4096 - 1) as ->; [|rewrite u32_id by lia; lia].
  destruct (decide (x + 4096 = 2 ^ 32)) as [E|E]; [rewrite E; reflexivity|]. rewrite (u32_id (x + 4096)), u32_id by lia. done.
Qed.

(** What the tests on a segment ensure. *)
Record segment_ok (phdr : Elf32_Phdr) (len : Z) : Prop := {
  so_offset : p_offset phdr mod PGSIZE = p_vaddr phdr mod PGSIZE;
  so_file : p_offset phdr <= len;
  so_sizes : p_filesz phdr <= p_memsz phdr;
  so_some : 0 < p_memsz phdr;
  so_low : PGSIZE <= p_vaddr phdr;
  so_high : p_vaddr phdr + p_memsz phdr < PHYS_BASE
}.

Definition phdr_range (phdr : Elf32_Phdr) : Prop :=
  in_u 32 (p_offset phdr) /\ in_u 32 (p_vaddr phdr) /\ in_u 32 (p_filesz phdr) /\ in_u 32 (p_memsz phdr).

Lemma validate_segment_run phdr len :
  phdr_range phdr -> 0 <= len < 2 ^ 31 -> validate_segment phdr len = true <-> segment_ok phdr len.
Proof.
  intros (R1 & R2 & R3 & R4) Hlen. unfold in_u in *. unfold validate_segment. rewrite !mask_mod, u32_id by lia. unfold is_user_vaddr. split.
  - destruct (Z.eqb_spec (p_offset phdr mod PGSIZE) (p_vaddr phdr mod PGSIZE)); [|done]. cbn [negb].
    destruct (Z.ltb_spec len (p_offset phdr)); [done|]. destruct (Z.ltb_spec (p_memsz phdr) (p_filesz phdr)); [done|].
    destruct (Z.eqb_spec (p_memsz phdr) 0); [done|]. destruct (Z.ltb_spec (p_vaddr phdr) PHYS_BASE); [|done]. cbn [negb].
    destruct (Z.ltb_spec (u32 (p_vaddr phdr + p_memsz phdr)) PHYS_BASE); [|done]. cbn [negb].
    destruct (Z.ltb_spec (u32 (p_vaddr phdr + p_memsz phdr)) (p_vaddr phdr)); [done|].
    destruct (Z.ltb_spec (p_vaddr phdr) PGSIZE); [done|]. intros _. split; [done|lia|lia|lia|lia|]. unfold PHYS_BASE in *.
    assert (p_vaddr phdr + p_memsz phdr < 2 ^ 32 \/ 2 ^ 32 <= p_vaddr phdr + p_memsz phdr) as [Hc|Hc] by lia.
    + rewrite u32_id in * by lia. lia.
    + exfalso. unfold u32, uwrap in *. rewrite <- (Z.mod_add _ (-1)), Z.mod_small in * by lia. lia.
  - intros [S1 S2 S3 S4 S5 S6]. unfold PHYS_BASE, PGSIZE in *. rewrite S1, Z.eqb_refl. cbn [negb]. rewrite u32_id by lia.
    rewrite (proj2 (Z.ltb_ge _ _)), (proj2 (Z.ltb_ge _ _)) by lia. rewrite (proj2 (Z.eqb_neq _ _)) by lia.
    rewrite (proj2 (Z.ltb_lt _ _)), (proj2 (Z.ltb_lt _ _)) by lia. cbn [negb]. rewrite (proj2 (Z.ltb_ge _ _)), (proj2 (Z.ltb_ge _ _)) by lia. done.
Qed.

(** The sizes fill whole pages. *)
Lemma segment_sizes_run phdr len :
  phdr_range phdr -> segment_ok phdr len ->
  exists np z, segment_sizes phdr = (if 0 <? p_filesz phdr then p_vaddr phdr mod PGSIZE + p_filesz phdr else 0, z) /\ 0 <= z /\
    (if 0 <? p_filesz phdr then p_vaddr phdr mod PGSIZE + p_filesz phdr else 0) + z = Z.of_nat np * PGSIZE /\
    p_vaddr phdr mod PGSIZE + p_memsz phdr <= Z.of_nat np * PGSIZE < p_vaddr phdr mod PGSIZE + p_memsz phdr + PGSIZE.
Proof.
  intros (R1 & R2 & R3 & R4) [S1 S2 S3 S4 S5 S6]. unfold in_u in *. pose proof (Z.mod_pos_bound (p_vaddr phdr) PGSIZE ltac:(unfold PGSIZE; lia)) as Hm.
  pose proof (Z.mod_le (p_vaddr phdr) PGSIZE ltac:(lia) ltac:(unfold PGSIZE; lia)) as Hle.
  destruct (round_up_run (p_vaddr phdr mod PGSIZE + p_memsz phdr)) as (np & E & Hnp); [lia|unfold PGSIZE, PHYS_BASE in *; lia|].
  exists np. unfold segment_sizes. rewrite !mask_mod. unfold PHYS_BASE, PGSIZE in *.
  rewrite (u32_id (p_vaddr phdr mod 4096 + p_memsz phdr)) by lia. rewrite E. destruct (Z.ltb_spec 0 (p_filesz phdr)).
  - exists (Z.of_nat np * 4096 - (p_vaddr phdr mod 4096 + p_filesz phdr)). rewrite !u32_id by lia. split; [done|]. lia.
  - exists (Z.of_nat np * 4096). split; [done|]. lia.
Qed.

(** The assertions of [load_segment] hold for whole pages, and the file is left at the start of the segment's first page. *)
Lemma load_segment_run s file fl ofs upage r z w np : files (fsys s) !! file = Some fl -> r + z = Z.of_nat np * PGSIZE ->
  Z.of_nat np * PGSIZE < 2 ^ 32 -> upage mod PGSIZE = 0 -> 0 <= ofs -> ofs mod PGSIZE = 0 ->
  load_segment file ofs upage r z w s =
  segment_loop (S np) file ofs upage r z 0 w (set_fsys (set_files (<[file := set_f_pos ofs fl]> (files (fsys s))) (fsys s)) s).
Proof.
  intros Hf Hsum Hnp Hu H0 Hofs. assert (u32 (r + z) = Z.of_nat np * PGSIZE) as Hu32 by (rewrite Hsum; apply u32_id; unfold PGSIZE in *; lia).
  unfold load_segment. rewrite Hu32, Z.div_mul, Nat2Z.id by (unfold PGSIZE; lia).
  rewrite (run_bind _ _ _ tt s) by (apply run_assert; by rewrite Z.mod_mul by (unfold PGSIZE; lia)).
  rewrite (run_bind _ _ _ tt s) by (apply run_assert; by rewrite pg_ofs_mod, Hu).
  rewrite (run_bind _ _ _ tt s) by (apply run_assert; rewrite Z.rem_mod_nonneg by (unfold PGSIZE; lia); by rewrite Hofs).
  erewrite run_bind; [reflexivity|]. unfold liftf, file_seek. rewrite (run_bind _ _ _ tt (fsys s)); [unfold upd_file; by rewrite Hf|].
  apply run_assert. by apply Z.leb_le.
Qed.

(** C22: Loading a segment of an executable.  A program header of type [PT_LOAD] that fails a test of [validate_segment]
    ends loading and changes nothing; one that passes them lies between page 1 and [PHYS_BASE] without wrapping
    around, and then the page table has an entry for every address of the segment: below [p_filesz] the entry
    says that the byte comes from the file, at the offset that the header gives it; from there up to [p_memsz] the
    byte is beyond those that the entry has read from the file when the page is loaded.  The pages are writable as the header says, and no page
    outside of the segment changes. *)
Theorem load_segment_spec s l file fl nd phdr :
  table_inv s l -> files (fsys s) !! file = Some fl -> file_ok (fsys s) (f_inode fl) nd -> p_type phdr = PT_LOAD -> phdr_range phdr ->
  p_offset phdr + p_filesz phdr < 2 ^ 32 ->
  (~ segment_ok phdr (file_length (data nd)) -> load_phdr file phdr s = Ok (false, s)) /\
  (segment_ok phdr (file_length (data nd)) ->
   exists s' l', load_phdr file phdr s = Ok (true, s') /\ table_inv s' l' /\
    (forall va, p_vaddr phdr <= va < p_vaddr phdr + p_memsz phdr -> exists p e,
       page_at s' (page_addr va) p e /\ pe_file e = file /\ pe_writable e = Z.testbit (p_flags phdr) 1 /\
       (va < p_vaddr phdr + p_filesz phdr ->
          va mod PGSIZE < pe_read_bytes e /\ pe_offset e + va mod PGSIZE = p_offset phdr + (va - p_vaddr phdr)) /\
       (p_vaddr phdr + p_filesz phdr <= va -> pe_read_bytes e <= va mod PGSIZE)) /\
    (forall u p e, u mod PGSIZE = 0 -> u + PGSIZE <= p_vaddr phdr \/ p_vaddr phdr + p_memsz phdr <= u -> page_at s' u p e <-> page_at s u p e)).
Proof.
  intros Ht Hf Hok Hty Hrange Hoff. pose proof (fo_length _ _ _ Hok) as HL. unfold BYTE_CAPACITY, NODE_CAPACITY, BLOCK_SECTOR_SIZE in HL.
  assert (liftf (file_length_of file) s = Ok (file_length (data nd), s)) as El.
  { unfold liftf, file_length_of. rewrite (run_bind _ _ _ fl (fsys s)) by (unfold get_file; by rewrite Hf).
    rewrite (inode_length_run _ _ _ Hok). by destruct s. }
  pose proof (validate_segment_run phdr (file_length (data nd)) Hrange ltac:(lia)) as Hval.
  unfold load_phdr. rewrite Hty. change ((PT_LOAD =? PT_DYNAMIC) || (PT_LOAD =? PT_INTERP) || (PT_LOAD =? PT_SHLIB)) with false.
  rewrite Z.eqb_refl. rewrite (run_bind _ _ _ _ _ El). split.
  { intros Hno. destruct (validate_segment phdr _); [|done]. by destruct Hno; apply Hval. }
  intros Hseg. rewrite (proj2 Hval Hseg). destruct (segment_sizes_run phdr _ Hrange Hseg) as (np & z & -> & Hz & Hsum & Hnp).
  destruct Hseg as [S1 S2 S3 S4 S5 S6], Hrange as (R1 & R2 & R3 & R4). set (r := if 0 <? p_filesz phdr then _ else 0) in *.
  set (po := p_vaddr phdr mod PGSIZE) in *. pose proof (Z.mod_pos_bound (p_vaddr phdr) PGSIZE ltac:(unfold PGSIZE; lia)) as Hpo. fold po in Hpo.
  assert (0 <= r /\ (0 < p_filesz phdr -> r = po + p_filesz phdr) /\ (p_filesz phdr <= 0 -> r = 0)) as (Hr0 & Hr1 & Hr2).
  { unfold r. destruct (Z.ltb_spec 0 (p_filesz phdr)); unfold in_u in *; lia. }
  rewrite !mask_page by done. rewrite S1. fold po. unfold in_u in R1, R2, R3, R4.
  pose proof (Z.div_mod (p_vaddr phdr) PGSIZE ltac:(unfold PGSIZE; lia)) as Hdv. pose proof (Z.div_mod (p_offset phdr) PGSIZE ltac:(unfold PGSIZE; lia)) as Hdo.
  rewrite S1 in Hdo. fold po in Hdv, Hdo. set (V := p_vaddr phdr / PGSIZE) in *. set (O := p_offset phdr / PGSIZE) in *.
  assert (0 <= O) as HO by (unfold O; apply Z.div_pos; unfold PGSIZE; lia).
  assert (s32 (p_offset phdr - po) = p_offset phdr - po) as -> by (apply swrap_id; [lia|unfold in_s, PGSIZE in *; lia]).
  assert (Z.of_nat np * PGSIZE < 2 ^ 32) as Hnp32 by (unfold PGSIZE, PHYS_BASE in *; lia).
  set (s1 := set_fsys (set_files (<[file := set_f_pos (p_offset phdr - po) fl]> (files (fsys s))) (fsys s)) s).
  assert (table_inv s1 l) as Ht1 by (by destruct Ht).
  assert ((p_vaddr phdr - po) mod PGSIZE = 0) as Hupage by (replace (p_vaddr phdr - po) with (V * PGSIZE) by lia; apply Z.mod_mul; unfold PGSIZE; lia).
  destruct (segment_loop_run np (S np) s1 l file (p_offset phdr - po) (p_vaddr phdr - po) r z 0
    (negb (Z.land (p_flags phdr) PF_W =? 0))) as (s' & l' & E & Ht' & _ & Hpages & Hother); try (done || (unfold PGSIZE, PHYS_BASE in *; lia)).
  exists s', l'. split; [|split; [done|split]].
  - rewrite (load_segment_run s file fl _ _ _ _ _ np); [done|done|done|done|done|unfold PGSIZE in *; lia|].
    replace (p_offset phdr - po) with (O * PGSIZE) by lia. apply Z.mod_mul. unfold PGSIZE. lia.
  - intros va Hva. pose proof (Z.div_mod va PGSIZE ltac:(unfold PGSIZE; lia)) as Hdva. pose proof (Z.mod_pos_bound va PGSIZE ltac:(unfold PGSIZE; lia)) as Hmva.
    assert (0 <= va / PGSIZE - V < Z.of_nat np) as Hi by (unfold PGSIZE in *; nia).
    destruct (Hpages (va / PGSIZE - V) Hi) as (p & e & Hp & P1 & P2 & P3 & P4). exists p, e.
    split; [by replace (page_addr va) with (p_vaddr phdr - po + (va / PGSIZE - V) * PGSIZE) by (unfold page_addr; lia)|].
    split; [done|]. split; [rewrite P4; change PF_W with (2 ^ 1); by rewrite flag_test|]. unfold PGSIZE in *. split.
    + intros Hlt. rewrite Hr1 in P3 by lia. split; [lia|]. rewrite P2, uwrap_id by (unfold in_u; lia). lia.
    + intros Hge. destruct (Z.eq_dec (p_filesz phdr) 0) as [E0|E0]; [rewrite Hr2 in P3 by lia; lia|]. rewrite Hr1 in P3 by lia. lia.
  - intros u p e Hu Hout. rewrite Hother; [done|]. pose proof (Z.div_mod u PGSIZE ltac:(unfold PGSIZE; lia)). unfold PGSIZE in *. lia.
Qed.

(** A writable segment of 500 bytes from offset 52 of the file of [demo_fs], and 4500 bytes of zeros. *)
Definition demo_phdr : Elf32_Phdr := mkPhdr PT_LOAD 52 0x8048034 0x8048034 500 5000 6 4096.

Definition demo_exec : vm := set_fsys (set_files {[ 8448 := mkFile 4096 0 false ]} demo_fs) (demo_stack (replicate 1024 0)).

Lemma demo_exec_table : table_inv demo_exec [].
Proof.
  split; [reflexivity| | | |cbn; lia].
  - intros p Hp. by apply not_elem_of_nil in Hp.
  - intros p q e e' Hp. by apply not_elem_of_nil in Hp.
  - intros p e Hp. change (entries demo_exec) with (∅ : gmap Z page_entry) in Hp. by rewrite lookup_empty in Hp.
Qed.

Lemma load_segment_spec_witness :
  exists s' p e, load_phdr 8448 demo_phdr demo_exec = Ok (true, s') /\ page_at s' 0x8048000 p e /\
    pe_file e = 8448 /\ pe_writable e = true /\ pe_offset e + 0x34 = 52.
Proof.
  destruct (load_segment_spec demo_exec [] 8448 (mkFile 4096 0 false) demo_node demo_phdr demo_exec_table) as [_ H].
  - reflexivity.
  - destruct demo_file_ok as [F1 F2 F3 F4 F5 F6 F7 F8]. by split.
  - reflexivity.
  - unfold phdr_range, in_u. cbn. lia.
  - cbn. lia.
  - destruct H as (s' & l' & E & _ & Hp & _).
    + split; [reflexivity|vm_compute; discriminate|vm_compute; discriminate|cbn; lia|vm_compute; discriminate|vm_compute; reflexivity].
    + destruct (Hp 0x8048034) as (p & e & H1 & H2 & H3 & H4 & _); [cbn; lia|].
      destruct (H4 ltac:(cbn; lia)) as [_ Ho]. exists s', p, e. split; [exact E|]. split; [exact H1|]. split; [exact H2|]. split; [exact H3|].
      exact Ho.
Defined.
