(* ===== verification/Paging.v ===== *)
(** Demand paging: what [load_page_entry] of vm/page.c does for a page that has no frame,
    when there is a free page of memory for it. *)
From Stdlib Require Import ZArith Lia.
From stdpp Require Import base numbers sorting gmap list.
From S2P Require Import Prelude.
From S2P Require Import Bitmap.
From S2P Require Import Inode.
From S2P Require Import InodeFile.
From S2P Require Import Palloc.
From S2P Require Import PageDir.
From S2P Require Import Vm.
From S2P Require Import VmSwap.
From S2P Require Import Fault.
From S2P Require Import ArgStack.
From S2P Require Import UserMem.

Local Open Scope Z_scope.

(** * The address space under the routines of page directories *)

Lemma space_pd_inv s pd : space_ok s pd -> pd_inv (mem s) pd.
Proof.
  intros [[Hok Hc] _ _ Hw]. destruct (used_aligned _ pd (po_mem _ _ Hok) (po_used _ _ Hok)) as [_ Hr].
  split; [done|rewrite Hc; unfold PHYS_BASE in *; lia|]. intros va k w H0 H1. by apply Hw.
Qed.

Lemma set_flag_pools ipd f pd va b v v' : pd_ok (phys v) pd -> 0 <= va < 2 ^ 32 -> set_flag ipd f pd va b v = Ok (tt, v') -> pools_kept v v'.
Proof.
  intros Hok [H0 H1]. unfold set_flag. destruct (lookup_page_ok v pd va Hok H0 H1) as (a & El & _). rewrite (run_bind _ _ _ _ _ El).
  destruct (a =? NULL); [by intros [= <-]|]. intros (w & v1 & E1 & E)%run_bind_inv. unfold load in E1.
  destruct (word (pages (phys v)) a) as [w'|]; [|done]. injection E1 as <- <-. destruct b; [by eapply store_pools|].
  apply run_bind_inv in E as ([] & v2 & E2 & E). apply store_pools in E2. unfold invalidate_pagedir in E.
  apply run_bind_inv in E as (x & v3 & E3 & E). unfold active_pd, liftr in E3. destruct (ptov (cr3 v2)) as [y|]; [|done].
  injection E3 as <- <-. destruct (y =? pd); [|by injection E as <-].
  unfold pagedir_activate in E. apply run_bind_inv in E as (z & v4 & E4 & E). unfold liftr in E4. destruct (vtop _) as [q|]; [|done].
  injection E4 as <- <-. by injection E as <-.
Qed.

Lemma set_flag_space ipd k s pd va b :
  space_ok s pd -> 0 <= va < 2 ^ 32 -> k = 5 \/ k = 6 ->
  exists v, set_flag ipd (2 ^ k) pd va b (mem s) = Ok (tt, v) /\ space_kept pd s (set_mem v s).
Proof.
  intros Hs Hva Hk. pose proof (space_pd_inv s pd Hs) as Hinv. pose proof Hva as [H0 H1].
  destruct (set_flag_keeps ipd k pd va b (mem s) Hinv Hva Hk) as (v & E & _ & Ho & Hm & _).
  destruct (set_flag_ok ipd k pd va b (mem s) (pi_ok _ _ Hinv) (pi_cr3 _ _ Hinv) H0 H1 ltac:(lia)) as (v' & E' & Hup).
  rewrite E in E'. injection E' as <-. exists v. split; [done|]. split.
  - destruct Hup as [[-> _]|Hup]; [apply data_kept_refl, Hinv|by eapply updated_data].
  - intros va' [H0' H1']. cbn. destruct (decide (va' / PGSIZE = va / PGSIZE)) as [Ed|Ed].
    + rewrite !(mapping_same_page _ _ va' va Ed). done.
    + by apply (Ho va').
  - cbn. eapply set_flag_pools; [apply Hinv|done|done].
Qed.

(** A page of memory from the user pool: it is zeroed, is not mapped and was not in use. *)
Lemma palloc_kernel flags cnt m a m' : user_flag flags = true -> palloc_get_multiple flags cnt m = Ok (a, m') -> kernel_pool m' = kernel_pool m.
Proof.
  intros Hu. unfold palloc_get_multiple. destruct (cnt =? 0); [by intros [= _ <-]|]. unfold user_flag in Hu. rewrite Hu.
  rewrite (run_bind _ _ _ m m) by done. intros ([i b] & m1 & E1 & E)%run_bind_inv. unfold Palloc.lift in E1.
  destruct (bitmap_scan_and_flip _ _ _ _) as [x|]; [|done]. injection E1 as -> <-.
  apply run_bind_inv in E as ([] & m2 & E2 & E). injection E2 as <-. apply run_bind_inv in E as ([] & m3 & E3 & E). injection E as _ <-.
  assert (kernel_pool m3 = kernel_pool (set_pool true {| used_map := b; base := base (get_pool true m) |} m)) as ->; [|done].
  destruct (negb (_ =? NULL)) in E3.
  - destruct (negb (Z.land flags PAL_ZERO =? 0)); [|by injection E3 as <-]. unfold memset_pages in E3. by injection E3 as <-.
  - destruct (negb (Z.land flags PAL_ASSERT =? 0)); [done|]. by injection E3 as <-.
Qed.

Definition FRAME_FLAGS : Z := Z.lor PAL_USER PAL_ZERO.

Lemma palloc_space s pd :
  space_ok s pd -> ~ no_room (user_pool (phys (mem s))) 1 ->
  exists k m, palloc_get_page FRAME_FLAGS (phys (mem s)) = Ok (k, m) /\ k <> NULL /\ k mod PGSIZE = 0 /\ in_pool (user_pool (phys (mem s))) k /\
    ~ used (phys (mem s)) k /\ data_page m pd k /\ pages m !! k = Some (replicate 1024 0) /\ kernel_pool m = kernel_pool (phys (mem s)) /\
    data_kept pd (mem s) (mkVm m (cr3 (mem s))) /\ space_ok (set_mem (mkVm m (cr3 (mem s))) s) pd /\
    forall va, 0 <= va < 2 ^ 32 -> mapping m pd va = mapping (phys (mem s)) pd va.
Proof.
  intros Hs Hroom. pose proof (so_active _ _ Hs) as [Hok Hc]. pose proof (po_mem _ _ Hok) as Hm.
  destruct (palloc_get_ok FRAME_FLAGS 1 (phys (mem s)) Hm ltac:(lia)) as [(k & m & E & Hm' & Hn & Ha & Hfree & Hused & _ & Hz)|[Hno _]]; [|by destruct Hroom].
  destruct (Hfree k ltac:(by apply group_one)) as [Hin Hnu]. cbn in Hz, Hin.
  assert (forall b, used (phys (mem s)) b -> pages m !! b = pages (phys (mem s)) !! b) as Hp.
  { intros b Hb. apply Hz. rewrite group_one. by intros ->. }
  assert (forall b, used (phys (mem s)) b -> used m b) as Hu by (intros b Hb; apply Hused; by left).
  destruct (pd_ok_frame (phys (mem s)) m pd Hok Hm' Hu Hp) as [Hok' Hpte].
  assert (forall i, 0 <= i < 1024 -> word (pages m) (pd + 4 * i) = word (pages (phys (mem s))) (pd + 4 * i)) as Hw.
  { intros i Hi. destruct (used_aligned _ pd Hm (po_used _ _ Hok)) as [Hpa _]. rewrite !word_at by done. by rewrite Hp by apply (po_used _ _ Hok). }
  assert (forall va, 0 <= va < 2 ^ 32 -> mapping m pd va = mapping (phys (mem s)) pd va) as Hmap.
  { intros va [H0 H1]. unfold mapping. by rewrite (proj2 (Hpte va H0 H1)). }
  assert (data_kept pd (mem s) (mkVm m (cr3 (mem s)))) as Hkept.
  { split; [done|done| |].
    - intros b (B1 & B2 & B3). split; [by apply Hu|]. split; [done|]. intros i w Hi. cbn. rewrite Hw by done. by apply B3.
    - intros b (B1 & _). by apply Hp. }
  exists k, m. split; [done|]. split; [done|]. split; [done|]. split; [done|]. split; [done|]. split; [|split; [|split; [|split; [done|split; [|done]]]]].
  - split; [apply Hused; right; by apply group_one|]. split; [intros ->; by apply Hnu, (po_used _ _ Hok)|].
    intros i w Hi. rewrite Hw by done. intros Hwi Hnz Ht. apply Hnu. rewrite <- Ht. by apply (po_tables _ _ Hok i w Hi Hwi Hnz).
  - apply Hz. by apply group_one.
  - exact (palloc_kernel FRAME_FLAGS 1 _ _ _ eq_refl E).
  - destruct Hs as [S1 S2 S3 S4]. assert (forall va, 0 <= va < PHYS_BASE -> 0 <= va < 2 ^ 32) as Hr by (unfold PHYS_BASE; lia). split.
    + split; [exact Hok'|exact Hc].
    + intros va k' w Hva. cbn. rewrite Hmap by auto. intros Hk. destruct (S2 va k' w Hva Hk) as [Hd (ws & Hws & Hrest)].
      split; [by apply (dk_data _ _ _ Hkept)|]. exists ws. by rewrite Hp by apply Hd.
    + intros va va' k' w w' Hva Hva'. cbn. rewrite !Hmap by auto. by apply S3.
    + intros va k' w Hva. cbn. rewrite Hmap by done. by apply S4.
Qed.

(** Mapping a page of data that is not mapped yet at an address that is not. *)
Lemma install_space ipd ram s pd u k w :
  space_ok s pd -> set_page_pre ipd ram pd u k -> mapping (phys (mem s)) pd u = None ->
  data_page (phys (mem s)) pd k -> PageDir.entries (pages (phys (mem s))) k ->
  (forall va w', 0 <= va < PHYS_BASE -> mapping (phys (mem s)) pd va <> Some (k, w')) -> ~ no_room (kernel_pool (phys (mem s))) 1 ->
  exists v, pagedir_set_page ipd ram pd u k w (mem s) = Ok (true, v) /\ space_ok (set_mem v s) pd /\ data_kept pd (mem s) v /\
    (forall va, 0 <= va < 2 ^ 32 -> mapping (phys v) pd va = if decide (va / PGSIZE = u / PGSIZE) then Some (k, w) else mapping (phys (mem s)) pd va).
Proof.
  intros Hs Hpre Hnone Hd He Hfresh Hroom. pose proof (space_pd_inv s pd Hs) as Hinv. pose proof (pagedir_set_page_ok ipd ram (mem s) pd u k w Hinv Hpre) as H.
  rewrite Hnone in H. destruct H as [(v & e & E & Hinv' & Hup & Ht & Hb0 & Hb1 & _)|[_ Hno]]; [|done].
  assert (forall va, 0 <= va < 2 ^ 32 -> mapping (phys v) pd va = if decide (va / PGSIZE = u / PGSIZE) then Some (k, w) else mapping (phys (mem s)) pd va) as Hmap.
  { intros va [H0 H1]. unfold mapping at 1. rewrite (up_pte _ _ _ _ _ Hup) by done. case_decide; [|done]. by rewrite Hb0, Ht, Hb1. }
  pose proof (updated_data _ _ _ _ _ Hup) as Hkept. exists v. split; [done|]. split; [|done].
  assert (forall va, 0 <= va < PHYS_BASE -> 0 <= va < 2 ^ 32) as Hr by (unfold PHYS_BASE; lia).
  assert (forall b, data_page (phys (mem s)) pd b -> PageDir.entries (pages (phys (mem s))) b -> data_page (phys v) pd b /\ PageDir.entries (pages (phys v)) b) as Hdata.
  { intros b Hb (ws & Hws & Hrest). split; [by apply (dk_data _ _ _ Hkept)|]. exists ws. by rewrite (dk_pages _ _ _ Hkept). }
  destruct Hs as [S1 S2 S3 S4]. split.
  - split; [apply Hinv'|]. cbn. rewrite (up_cr3 _ _ _ _ _ Hup). apply S1.
  - intros va k' w' Hva. cbn. rewrite Hmap by auto. case_decide; [intros [= <- <-]; by apply Hdata|]. intros Hm. by apply Hdata; apply (S2 va k' w').
  - intros va va' k' w1 w2 Hva Hva'. cbn. rewrite !Hmap by auto. destruct (decide (va / PGSIZE = u / PGSIZE)), (decide (va' / PGSIZE = u / PGSIZE)).
    + congruence.
    + intros [= <- <-] Hm. by apply Hfresh in Hm.
    + intros Hm [= <- <-]. by apply Hfresh in Hm.
    + by apply S3.
  - intros va k' w' Hva. cbn. rewrite Hmap by done. case_decide; [|by apply S4]. intros [= <- _]. apply Hpre.
Qed.

(** * A frame for a page *)

(** What a page needs to be loaded: it is a page of the running thread that is not mapped and has no frame, and there are a
    free page of memory and one for a page table. *)
Record loadable (ipd ram : Z) (s : vm) (pd p : Z) (e : page_entry) : Prop := {
  ld_space : space_ok s pd;
  ld_dir : pagedirs s !! current s = Some pd;
  ld_ipd : pd <> ipd;
  ld_page : p <> NULL;
  ld_entry : entries s !! p = Some e;
  ld_tid : pe_tid e = current s;
  ld_addr : pe_uaddr e mod PGSIZE = 0 /\ 0 < pe_uaddr e < PHYS_BASE;
  ld_frame : pe_frame e = NULL;
  ld_map : mapping (phys (mem s)) pd (pe_uaddr e) = None;
  ld_user : ~ no_room (user_pool (phys (mem s))) 1;
  ld_kernel : ~ no_room (kernel_pool (phys (mem s))) 1;
  ld_ram : forall k, in_pool (user_pool (phys (mem s))) k -> (k - PHYS_BASE) / PGSIZE < ram;
  ld_brk : 0 < vbrk s
}.

(** The memory [v] is that of [s] with one more page of data, [k], which holds [ws] and is not mapped. *)
Record new_page (s : vm) (pd k : Z) (ws : list Z) (v : vmem) : Prop := {
  np_space : space_ok (set_mem v s) pd;
  np_map : forall va, 0 <= va < 2 ^ 32 -> mapping (phys v) pd va = mapping (phys (mem s)) pd va;
  np_kept : data_kept pd (mem s) v;
  np_data : data_page (phys v) pd k;
  np_words : pages (phys v) !! k = Some ws;
  np_length : length ws = 1024%nat;
  np_range : Forall (in_u 32) ws;
  np_unused : ~ used (phys (mem s)) k;
  np_kernel : kernel_pool (phys v) = kernel_pool (phys (mem s))
}.

Lemma new_page_unmapped s pd k ws v va w : space_ok s pd -> new_page s pd k ws v -> 0 <= va < PHYS_BASE -> mapping (phys v) pd va <> Some (k, w).
Proof.
  intros Hs Hn Hva. rewrite (np_map _ _ _ _ _ Hn) by (unfold PHYS_BASE in *; lia). intros Hm. destruct (so_data _ _ Hs va k w Hva Hm) as [[Hu _] _].
  by apply (np_unused _ _ _ _ _ Hn).
Qed.

Lemma new_page_kept s pd k ws v v' : new_page s pd k ws v -> space_kept pd (set_mem v s) (set_mem v' s) -> new_page s pd k ws v'.
Proof.
  intros [N1 N2 N3 N4 N5 N6 N7 N8 N9] Hk. pose proof Hk as [K1 K2 [K3 _]]. split; [by eapply kept_space| | | | |done|done|done|].
  - intros va Hva. rewrite <- N2 by done. by apply K2.
  - by eapply data_kept_trans.
  - by apply (dk_data _ _ _ K1).
  - rewrite <- N5. by apply (dk_pages _ _ _ K1).
  - rewrite <- N9. exact K3.
Qed.

Lemma new_page_put s pd k ws ws' v :
  new_page s pd k ws v -> length ws' = 1024%nat -> Forall (in_u 32) ws' -> new_page s pd k ws' (with_pages (insert k ws') v).
Proof.
  intros [N1 N2 N3 N4 N5 N6 N7 N8 N9] Hl Hf. pose proof (so_active _ _ N1) as Hact.
  destruct (put_page_kept pd k ws' (set_mem v s) Hact N4) as (Hact' & Hdp & Hother). split; [| | | | |done|done|done|done].
  - by apply (put_page_space pd k ws' (set_mem v s)).
  - intros va Hva. rewrite <- N2 by done. by apply (put_page_mapping pd k ws' (set_mem v s)).
  - destruct N3 as [D1 D2 D3 D4]. split; [apply Hact'|done| |].
    + intros b Hb. apply Hdp. by apply D3.
    + intros b Hb. rewrite <- D4 by done. apply Hother. intros ->. by apply N8, Hb.
  - by apply Hdp.
  - apply lookup_insert_eq.
Qed.

Lemma new_page_view s pd k ws v va : space_ok s pd -> new_page s pd k ws v -> 0 <= va < PHYS_BASE ->
  user_view pd (set_mem v s) va = user_view pd s va.
Proof.
  intros Hs Hn Hva. unfold user_view. cbn. rewrite (np_map _ _ _ _ _ Hn) by (unfold PHYS_BASE in *; lia).
  destruct (mapping (phys (mem s)) pd va) as [[k' w]|] eqn:Hm; [|done]. unfold page_byte.
  by rewrite (dk_pages _ _ _ (np_kept _ _ _ _ _ Hn)) by apply (so_data _ _ Hs va k' w Hva Hm).
Qed.

Lemma page_range s pd k : space_ok s pd -> data_page (phys (mem s)) pd k -> k mod PGSIZE = 0 /\ PHYS_BASE <= k < 2 ^ 32.
Proof. intros Hs [Hu _]. apply (used_aligned (phys (mem s))); [|done]. apply (po_mem _ pd). apply Hs. Qed.

(** * Bytes and words of a page *)

Abbreviation is_bytes := (Forall (fun b => 0 <= b < 256)).

Lemma bytes_words_inv n : forall bs, length bs = (4 * n)%nat -> is_bytes bs ->
  bytes_of_words (words_of_bytes bs) = bs /\ length (words_of_bytes bs) = n /\ Forall (in_u 32) (words_of_bytes bs).
Proof.
  induction n as [|n IH]; intros bs Hl Hb; [destruct bs; [done|cbn in Hl; lia]|].
  destruct bs as [|b0 [|b1 [|b2 [|b3 bs]]]]; cbn in Hl; try lia.
  apply Forall_cons in Hb as [H0 Hb]. apply Forall_cons in Hb as [H1 Hb]. apply Forall_cons in Hb as [H2 Hb]. apply Forall_cons in Hb as [H3 Hb].
  destruct (IH bs ltac:(lia) Hb) as (I1 & I2 & I3). cbn [words_of_bytes]. set (w := b0 + _ + _ + _).
  change (bytes_of_words (w :: words_of_bytes bs)) with (word_bytes w ++ bytes_of_words (words_of_bytes bs)). rewrite I1.
  split; [|split; [cbn; lia|constructor; [unfold in_u, w; lia|done]]]. unfold word_bytes. cbn [app].
  assert (w / 2 ^ 8 = b1 + b2 * 2 ^ 8 + b3 * 2 ^ 16) as -> by (symmetry; apply Z.div_unique with (r := b0); unfold w; lia).
  assert (w / 2 ^ 16 = b2 + b3 * 2 ^ 8) as -> by (symmetry; apply Z.div_unique with (r := b0 + b1 * 2 ^ 8); unfold w; lia).
  assert (w / 2 ^ 24 = b3) as -> by (symmetry; apply Z.div_unique with (r := b0 + b1 * 2 ^ 8 + b2 * 2 ^ 16); unfold w; lia).
  repeat f_equal; symmetry.
  - apply Z.mod_unique with (q := b1 + b2 * 2 ^ 8 + b3 * 2 ^ 16); unfold w; lia.
  - apply Z.mod_unique with (q := b2 + b3 * 2 ^ 8); lia.
  - apply Z.mod_unique with (q := b3); lia.
  - apply Z.mod_unique with (q := 0); lia.
Qed.

Lemma word_bytes_byte_of w i : 0 <= i < 4 -> word_bytes w !! Z.to_nat i = Some (byte_of w i).
Proof.
  intros Hi. unfold byte_of. change 255 with (Z.ones 8). rewrite Z.land_ones, Z.shiftr_div_pow2 by lia.
  assert (i = 0 \/ i = 1 \/ i = 2 \/ i = 3) as [-> |[-> |[-> | ->]]] by lia; cbn; by rewrite ?Z.div_1_r.
Qed.

Lemma bytes_of_words_lookup ws x : 0 <= x ->
  bytes_of_words ws !! Z.to_nat x = (w ← ws !! Z.to_nat (x / 4); Some (byte_of w (x mod 4))).
Proof.
  revert x. induction ws as [|w ws IH]; intros x Hx; [done|].
  change (bytes_of_words (w :: ws)) with (word_bytes w ++ bytes_of_words ws). destruct (Z.lt_ge_cases x 4).
  - rewrite lookup_app_l by (cbn; lia). rewrite Z.div_small, Z.mod_small by lia. cbn [Z.to_nat lookup list_lookup mbind option_bind].
    by apply word_bytes_byte_of.
  - rewrite lookup_app_r by (cbn; lia). change (length (word_bytes w)) with 4%nat. replace (Z.to_nat x - 4)%nat with (Z.to_nat (x - 4)) by lia.
    rewrite IH by lia.
    assert (x / 4 = (x - 4) / 4 + 1) as -> by (rewrite <- Z.div_add by lia; f_equal; lia).
    assert (x mod 4 = (x - 4) mod 4) as -> by (rewrite <- (Z_mod_plus_full (x - 4) 1 4); f_equal; lia).
    assert (0 <= (x - 4) / 4) by (apply Z.div_pos; lia). replace (Z.to_nat ((x - 4) / 4 + 1)) with (S (Z.to_nat ((x - 4) / 4))) by lia. done.
Qed.

Lemma page_byte_lookup (pg : gmap Z (list Z)) k ws x : pg !! k = Some ws -> 0 <= x -> page_byte pg k x = bytes_of_words ws !! Z.to_nat x.
Proof. intros Hk Hx. unfold page_byte. rewrite Hk. by rewrite bytes_of_words_lookup. Qed.

Lemma bytes_of_zeros n : bytes_of_words (replicate n 0) = replicate (4 * n) 0.
Proof.
  induction n as [|n IH]; [done|]. replace (4 * S n)%nat with (4 + 4 * n)%nat by lia. rewrite replicate_add, <- IH. done.
Qed.

(** The state behind [allocate_frame]: frame [fp] is for page [p]. *)
Definition framed (fp k p : Z) (e : page_entry) (v : vmem) (s : vm) : vm :=
  set_vbrk (vbrk s + 64) (set_entries (<[p := set_pe_frame fp e]> (entries s))
    (set_all_frames (all_frames s ++ [fp]) (set_frames (<[fp := mkFrame (pe_tid e) p k false false]> (frames s)) (set_mem v s)))).

Lemma space_framed fp k p e v s pd : space_ok (set_mem v s) pd <-> space_ok (framed fp k p e v s) pd.
Proof. split; by apply space_mem. Qed.

Section load.
Context (ipd ram : Z) (s : vm) (pd p : Z) (e : page_entry) (HL : loadable ipd ram s pd p e).
Let u := pe_uaddr e.
Let fp := vbrk s.

Lemma liftv_run {A} (c : PageDir.vM A) (t : vm) a v : c (mem t) = Ok (a, v) -> liftv c t = Ok (a, set_mem v t).
Proof. intros H. unfold liftv. by rewrite H. Qed.

Lemma liftf_run {A} (c : fM A) (t : vm) a f : c (fsys t) = Ok (a, f) -> liftf c t = Ok (a, set_fsys f t).
Proof. intros H. unfold liftf. by rewrite H. Qed.

Lemma set_dirty_run k ws v : new_page s pd k ws v ->
  exists v', set_dirty ipd fp false (framed fp k p e v s) = Ok (tt, framed fp k p e v' s) /\ new_page s pd k ws v'.
Proof using HL.
  intros Hn. destruct HL as [L1 L2 L3 L4 L5 L6 [L7 L8] L9 L10 L11 L12 L13 L14]. set (t := framed fp k p e v s).
  assert (fp <> NULL) as Hfp by (unfold fp, NULL; lia). assert (frames t !! fp = Some (mkFrame (pe_tid e) p k false false)) as Hf by apply lookup_insert_eq.
  assert (entries t !! p = Some (set_pe_frame fp e)) as He by apply lookup_insert_eq. unfold set_dirty.
  rewrite (run_bind _ _ _ (mkFrame (pe_tid e) p k false false, set_pe_frame fp e) t).
  2:{ unfold frame_page. rewrite (run_bind _ _ _ tt t) by (apply run_assert; by apply Z.eqb_neq in Hfp as ->).
      rewrite (run_bind _ _ _ false t).
      2:{ unfold is_free. rewrite (run_bind _ _ _ tt t) by (apply run_assert; by apply Z.eqb_neq in Hfp as ->).
          rewrite (run_bind _ _ _ _ _ (frame_run _ _ _ Hf)). cbn [fr_upage]. by apply Z.eqb_neq in L4 as ->. }
      rewrite (run_bind _ _ _ tt t) by done. rewrite (run_bind _ _ _ _ _ (frame_run _ _ _ Hf)). cbn [fr_upage].
      by rewrite (run_bind _ _ _ _ _ (entry_run _ _ _ He)). }
  rewrite (run_bind _ _ _ pd t).
  2:{ unfold current_pagedir. rewrite (run_bind _ _ _ (current s) t) by done. rewrite (run_bind _ _ _ (Some pd) t); [done|].
      unfold pagedir_of, gets. change (pagedirs t) with (pagedirs s). by rewrite L2. }
  cbn [fst snd pe_uaddr set_pe_frame fr_kpage].
  destruct (set_flag_space ipd 6 (set_mem v s) pd u false (np_space _ _ _ _ _ Hn)) as (v1 & E1 & K1); [unfold u, PHYS_BASE in *; lia|by right|].
  pose proof (new_page_kept _ _ _ _ _ _ Hn K1) as Hn1. destruct (page_range _ pd k (np_space _ _ _ _ _ Hn1) (np_data _ _ _ _ _ Hn1)) as [_ Hkr].
  destruct (set_flag_space ipd 6 (set_mem v1 s) pd k false (np_space _ _ _ _ _ Hn1)) as (v2 & E2 & K2); [unfold PHYS_BASE in *; lia|by right|].
  exists v2. split; [|by eapply new_page_kept].
  rewrite (run_bind _ _ _ tt (framed fp k p e v1 s)) by (exact (liftv_run (set_flag ipd (2 ^ 6) pd u false) t tt v1 E1)).
  exact (liftv_run (set_flag ipd (2 ^ 6) pd k false) (framed fp k p e v1 s) tt v2 E2).
Qed.

Lemma allocate_frame_run :
  exists k v, allocate_frame ipd p s = Ok (fp, framed fp k p e v s) /\ new_page s pd k (replicate 1024 0) v /\ in_pool (user_pool (phys (mem s))) k.
Proof using HL.
  pose proof HL as [L1 L2 L3 L4 L5 L6 [L7 L8] L9 L10 L11 L12 L13 L14].
  destruct (palloc_space s pd L1 L11) as (k & m & E & Hkn & Hka & Hin & Hnu & Hdp & Hz & Hkp & Hkept & Hs1 & Hmap).
  set (v0 := mkVm m (cr3 (mem s))) in *. assert (new_page s pd k (replicate 1024 0) v0) as N0.
  { split; try done. apply Forall_replicate. unfold in_u. lia. }
  destruct (page_range _ pd k Hs1 Hdp) as [_ Hkr].
  destruct (touch_space true k (set_mem v0 s) pd (so_active _ _ Hs1)) as (v1 & Et & K1); [unfold PHYS_BASE in *; lia|].
  pose proof (new_page_kept _ _ _ _ _ _ N0 K1) as N1. destruct (set_dirty_run k _ v1 N1) as (v2 & Ed & N2).
  exists k, v2. split; [|done]. unfold allocate_frame.
  rewrite (run_bind _ _ _ tt s) by (apply run_assert; by apply Z.eqb_neq in L4 as ->). rewrite (run_bind _ _ _ _ _ (entry_run _ _ _ L5)).
  rewrite (run_bind _ _ _ tt s) by (apply run_assert; rewrite (proj2 (Z.eqb_neq _ _)) by (unfold NULL; lia); done).
  rewrite (run_bind _ _ _ tt s) by (apply run_assert; rewrite pg_ofs_mod, L7; done).
  rewrite (run_bind _ _ _ tt s) by (apply run_assert; by rewrite L9).
  rewrite (run_bind _ _ _ k (set_mem v0 s)).
  2:{ apply liftv_run. unfold PageDir.liftp. change (Z.lor PAL_USER PAL_ZERO) with FRAME_FLAGS. by rewrite E. }
  apply Z.eqb_neq in Hkn as ->.
  set (f0 := mkFrame 0 0 k false false). set (t0 := set_all_frames (all_frames s ++ [fp]) (set_frames (<[fp := f0]> (frames s)) (set_vbrk (fp + 64) (set_mem v1 s)))).
  rewrite (run_bind _ _ _ fp t0).
  2:{ rewrite (run_bind _ _ _ _ _ Et). rewrite (run_bind _ _ _ fp (set_vbrk (fp + 64) (set_mem v1 s))) by done.
      rewrite (run_bind _ _ _ tt (set_frames (<[fp := f0]> (frames s)) (set_vbrk (fp + 64) (set_mem v1 s)))) by done. by rewrite (run_bind _ _ _ tt t0) by done. }
  rewrite (run_bind _ _ _ tt (set_frames (<[fp := mkFrame (pe_tid e) p k false false]> (frames s)) t0)).
  2:{ unfold upd_frame, t0. cbn [frames set_frames set_all_frames]. rewrite lookup_insert_eq. by rewrite insert_insert_eq. }
  rewrite (run_bind _ _ _ tt (framed fp k p e v1 s)).
  2:{ unfold upd_entry. cbn [entries set_frames t0 set_all_frames set_vbrk set_mem]. by rewrite L5. }
  rewrite (run_bind _ _ _ _ _ Ed). rewrite (run_bind _ _ _ (mkFrame (pe_tid e) p k false false) (framed fp k p e v2 s)) by (apply frame_run, lookup_insert_eq).
  cbn [fr_async_write fr_kpage fr_pinned]. rewrite (run_bind _ _ _ tt (framed fp k p e v2 s)) by done.
  rewrite (run_bind _ _ _ tt (framed fp k p e v2 s)); [by rewrite (run_bind _ _ _ tt (framed fp k p e v2 s)) by done|].
  apply run_assert. rewrite (proj2 (Z.eqb_neq _ _)); [done|]. unfold NULL, PHYS_BASE in *. lia.
Qed.

(** The frame is for the page, holds [ws] and is not mapped yet. *)
Record filled (k : Z) (ws : list Z) (t : vm) : Prop := {
  fi_new : new_page s pd k ws (mem t);
  fi_entries : entries t = <[p := set_pe_swap NULL (set_pe_frame fp e)]> (entries s);
  fi_frames : frames t = <[fp := mkFrame (pe_tid e) p k true false]> (frames s);
  fi_current : current t = current s;
  fi_dirs : pagedirs t = pagedirs s;
  fi_tables : tables t = tables s
}.

Lemma install_frame_run k ws t :
  filled k ws t -> in_pool (user_pool (phys (mem s))) k ->
  exists v, install_frame ipd ram fp (pe_writable e) t = Ok (true, set_mem v t) /\ space_ok (set_mem v t) pd /\
    (forall b, data_page (phys (mem t)) pd b -> pages (phys v) !! b = pages (phys (mem t)) !! b) /\
    forall va, 0 <= va < 2 ^ 32 -> mapping (phys v) pd va =
      if decide (va / PGSIZE = pe_uaddr e / PGSIZE) then Some (k, pe_writable e) else mapping (phys (mem s)) pd va.
Proof using HL.
  intros [Hn He Hf Hc Hd _] Hin. pose proof HL as [L1 L2 L3 L4 L5 L6 [L7 L8] L9 L10 L11 L12 L13 L14].
  pose proof (np_space _ _ _ _ _ Hn) as Hsm. assert (space_ok t pd) as Hs by (by apply (space_mem (set_mem (mem t) s))).
  assert (0 <= pe_uaddr e < 2 ^ 32) as Hu by (unfold PHYS_BASE in *; lia). assert (is_user_vaddr (pe_uaddr e) = true) as Huv by (apply Z.ltb_lt; lia).
  destruct (page_range _ pd k Hs (np_data _ _ _ _ _ Hn)) as [Hka Hkr].
  destruct (install_space ipd ram t pd (pe_uaddr e) k (pe_writable e) Hs) as (v & E & Hs' & Hkept & Hmap).
  { split; [done|lia|done|lia|by apply L13|done]. }
  { by rewrite (np_map _ _ _ _ _ Hn). }
  { exact (np_data _ _ _ _ _ Hn). }
  { exists ws. destruct Hn. by repeat split. }
  { intros va w' Hva. by apply (new_page_unmapped s pd k ws). }
  { by rewrite (np_kernel _ _ _ _ _ Hn). }
  exists v. split; [|split; [done|split; [by apply (dk_pages _ _ _ Hkept)|]]].
  2:{ intros va Hva. rewrite Hmap by done. case_decide; [done|]. by apply (np_map _ _ _ _ _ Hn). }
  unfold install_frame. rewrite (run_bind _ _ _ tt t) by (apply run_assert; rewrite (proj2 (Z.eqb_neq _ _)) by (unfold fp, NULL; lia); done).
  rewrite (run_bind _ _ _ (mkFrame (pe_tid e) p k true false) t) by (apply frame_run; rewrite Hf; apply lookup_insert_eq). cbn [fr_upage fr_tid fr_kpage].
  rewrite (run_bind _ _ _ tt t) by (apply run_assert; by apply Z.eqb_neq in L4 as ->).
  rewrite (run_bind _ _ _ (set_pe_swap NULL (set_pe_frame fp e)) t) by (apply entry_run; rewrite He; apply lookup_insert_eq).
  cbn [pe_uaddr set_pe_swap set_pe_frame].
  rewrite (run_bind _ _ _ tt t) by (apply run_assert; rewrite (proj2 (Z.eqb_neq _ _)) by (unfold NULL; lia); done).
  rewrite (run_bind _ _ _ (current s) t) by (unfold gets; by rewrite Hc). rewrite (run_bind _ _ _ tt t) by (apply run_assert; apply Z.eqb_eq; done).
  rewrite (run_bind _ _ _ pd t).
  2:{ unfold current_pagedir. rewrite (run_bind _ _ _ (current s) t) by (unfold gets; by rewrite Hc).
      rewrite (run_bind _ _ _ (Some pd) t); [done|]. unfold pagedir_of, gets. by rewrite Hd, L2. }
  rewrite (run_bind _ _ _ NULL t).
  2:{ unfold liftv. rewrite (pagedir_get_page_ok _ _ _ (space_pd_inv _ _ Hs)) by (done || lia). rewrite (np_map _ _ _ _ _ Hn), L10 by done. by destruct t. }
  rewrite Z.eqb_refl. rewrite (run_bind _ _ _ true (set_mem v t)) by (by apply liftv_run).
  rewrite (run_bind _ _ _ (k + pe_uaddr e mod PGSIZE) (set_mem v t)).
  2:{ unfold liftv. rewrite (pagedir_get_page_ok _ _ _ (space_pd_inv _ _ Hs')) by (done || lia). cbn [mem set_mem]. rewrite Hmap, decide_True by done. by destruct t. }
  rewrite (run_bind _ _ _ tt (set_mem v t)) by (apply run_assert; rewrite L7, (proj2 (Z.eqb_neq _ _)) by (unfold NULL, PHYS_BASE in *; lia); done).
  rewrite (run_bind _ _ _ true (set_mem v t)); [by rewrite (run_bind _ _ _ tt (set_mem v t)) by done|].
  unfold is_present. rewrite (run_bind _ _ _ tt (set_mem v t)) by (apply run_assert; by apply Z.eqb_neq in L4 as ->).
  rewrite (run_bind _ _ _ (set_pe_swap NULL (set_pe_frame fp e)) (set_mem v t)) by (apply entry_run; cbn [entries set_mem]; rewrite He; apply lookup_insert_eq).
  cbn [pe_frame set_pe_swap set_pe_frame]. by rewrite (proj2 (Z.eqb_neq _ _)) by (unfold fp, NULL; lia).
Qed.

(** What a page holds before it is loaded, the swap device before the file, and the file before zeros. *)
Inductive page_source : list Z -> Prop :=
| source_swap m ws :
    pe_swap e <> NULL -> swap_inv (swap_of s) -> swap_abs (swap_of s) m -> m !! p = Some ws -> length ws = 1024%nat -> Forall (in_u 32) ws ->
    page_source (bytes_of_words ws)
| source_file fl nd :
    pe_swap e = NULL -> pe_file e <> NULL -> files (fsys s) !! pe_file e = Some fl -> file_ok (fsys s) (f_inode fl) nd -> mallocs (fsys s) = [] ->
    is_bytes (content (fsys s) nd) -> 0 <= pe_offset e -> 0 <= pe_read_bytes e <= PGSIZE -> pe_offset e + pe_read_bytes e <= file_length (data nd) ->
    page_source (take (Z.to_nat (pe_read_bytes e)) (drop (Z.to_nat (pe_offset e)) (content (fsys s) nd)) ++
                 replicate (Z.to_nat (PGSIZE - pe_read_bytes e)) 0)
| source_zero : pe_swap e = NULL -> pe_file e = NULL -> page_source (replicate (Z.to_nat PGSIZE) 0).

(** The frame that [allocate_frame] gave, pinned. *)
Definition pinned_at (k : Z) (v : vmem) : vm :=
  set_frames (<[fp := mkFrame (pe_tid e) p k true false]> (frames s)) (framed fp k p e v s).

Lemma pinned_filled k ws v : new_page s pd k ws v -> pe_swap e = NULL -> filled k ws (pinned_at k v).
Proof. intros Hn He. split; [done| |done..]. unfold pinned_at, framed. cbn. do 2 f_equal. destruct e; cbn in *. by subst. Qed.

(** The bytes of the file are put at the start of a page of zeros. *)
Lemma put_bytes_page k v bs (t : vm) :
  new_page s pd k (replicate 1024 0) v -> is_bytes bs -> (length bs <= 4096)%nat -> mem t = v ->
  exists v' ws, put_bytes k bs t = Ok (tt, set_mem v' t) /\ new_page s pd k ws v' /\ bytes_of_words ws = bs ++ replicate (4096 - length bs) 0.
Proof.
  intros Hn Hb Hl Ht. pose proof (np_words _ _ _ _ _ Hn) as Hw. destruct bs as [|b bs]; [|set (bb := b :: bs) in *].
  { exists v, (replicate 1024 0). split; [subst v; by destruct t|]. split; [done|apply bytes_of_zeros]. }
  assert (bb ++ drop (length bb) (bytes_of_words (replicate 1024 0)) = bb ++ replicate (4096 - length bb) 0) as Hbs by (by rewrite bytes_of_zeros, drop_replicate).
  destruct (bytes_words_inv 1024 (bb ++ replicate (4096 - length bb) 0)) as (W1 & W2 & W3).
  { rewrite length_app, length_replicate. lia. }
  { apply Forall_app. split; [done|]. apply Forall_replicate. lia. }
  set (ws := words_of_bytes (bb ++ replicate (4096 - length bb) 0)) in *. pose proof (new_page_put _ _ _ _ ws _ Hn W2 W3) as Hn1.
  destruct (page_range _ pd k (np_space _ _ _ _ _ Hn1) (np_data _ _ _ _ _ Hn1)) as [_ Hkr].
  set (t1 := set_mem (with_pages (insert k ws) v) t).
  destruct (touch_space true k t1 pd) as (v' & E & K); [apply (space_mem (set_mem (mem t1) s)); [done|apply Hn1]|unfold PHYS_BASE in *; lia|].
  exists v', ws. split; [|split; [|done]].
  - unfold put_bytes. fold bb. change (match bb with [] => _ | _ => ?c end) with c.
    rewrite (run_bind _ _ _ (replicate 1024 0) t) by (unfold page_words; by rewrite Ht, Hw). rewrite Hbs. fold ws.
    rewrite (run_bind _ _ _ tt t1); [exact E|]. unfold set_page_words, modify. by rewrite Ht.
  - eapply new_page_kept; [exact Hn1|]. by destruct K.
Qed.

(** The part of [load_page_entry] between pinning the frame and unpinning it. *)
Definition fill_step (k : Z) (swapped infs : bool) : vmM bool :=
  if swapped then pull_from_swap p;; install_frame ipd ram fp (pe_writable e)
  else if infs then
    if 0 <? pe_read_bytes e then
      liftf (file_seek (pe_file e) (s32 (pe_offset e)));;
      bs ← liftf (file_read (pe_file e) (s32 (pe_read_bytes e)));
      put_bytes k bs;;
      if negb (Zlen bs =? pe_read_bytes e) then free_frame ipd fp;; mret false
      else install_frame ipd ram fp (pe_writable e)
    else install_frame ipd ram fp (pe_writable e)
  else install_frame ipd ram fp (pe_writable e).

Lemma fill_swap m ws k v :
  new_page s pd k (replicate 1024 0) v -> swap_inv (swap_of s) -> swap_abs (swap_of s) m -> m !! p = Some ws -> length ws = 1024%nat -> Forall (in_u 32) ws ->
  exists t, filled k ws t /\ pull_from_swap p (pinned_at k v) = Ok (true, t).
Proof using HL.
  intros Hn Hi Ha Hm Hl Hf. pose proof HL as [L1 L2 L3 L4 L5 L6 [L7 L8] L9 L10 L11 L12 L13 L14]. set (t := pinned_at k v).
  destruct (pull_run t pd m p (set_pe_frame fp e) (mkFrame (pe_tid e) p k true false) ws (replicate 1024 0)) as (t' & E & _ & _ & Hk & Hfr & He & Hc & Hd & Ht).
  - apply (space_mem (set_mem v s)); [done|apply Hn].
  - apply (np_data _ _ _ _ _ Hn).
  - destruct Hi as [I1 I2 I3 I4 I5 I6 I7 I8 I9]. split; try done; [|cbn; lia]. intros q Hq. destruct (I2 q Hq) as (l & Hl' & [A B]).
    exists l. split; [done|]. split; [cbn in *; lia|done].
  - exact Ha.
  - done.
  - apply lookup_insert_eq.
  - apply lookup_insert_eq.
  - apply (np_words _ _ _ _ _ Hn).
  - done.
  - exists t'. split; [|done]. split; [|rewrite He; apply insert_insert_eq|by rewrite Hfr|done|done|done].
    eapply new_page_kept; [exact (new_page_put _ _ _ _ ws _ Hn Hl Hf)|]. by destruct Hk.
Qed.

Lemma fill_file fl nd k v :
  new_page s pd k (replicate 1024 0) v -> pe_swap e = NULL -> files (fsys s) !! pe_file e = Some fl -> file_ok (fsys s) (f_inode fl) nd -> mallocs (fsys s) = [] ->
  is_bytes (content (fsys s) nd) -> 0 <= pe_offset e -> 0 < pe_read_bytes e <= PGSIZE -> pe_offset e + pe_read_bytes e <= file_length (data nd) ->
  exists t ws, filled k ws t /\
    bytes_of_words ws = take (Z.to_nat (pe_read_bytes e)) (drop (Z.to_nat (pe_offset e)) (content (fsys s) nd)) ++
                        replicate (Z.to_nat (PGSIZE - pe_read_bytes e)) 0 /\
    fill_step k false true (pinned_at k v) = install_frame ipd ram fp (pe_writable e) t.
Proof using HL.
  intros Hn Hsw Hf Hok Hmal Hb Ho Hr Hlen. pose proof (fo_length _ _ _ Hok) as HL'. unfold BYTE_CAPACITY, NODE_CAPACITY, BLOCK_SECTOR_SIZE in HL'.
  pose proof (content_length _ _ _ Hok) as Hcl. set (bs := take _ (drop _ _)).
  assert (length bs = Z.to_nat (pe_read_bytes e)) as Hbl by (unfold bs; rewrite length_take, length_drop; lia).
  set (fl1 := set_f_pos (pe_offset e) fl). set (g := set_files (<[pe_file e := fl1]> (files (fsys s))) (fsys s)).
  destruct (file_read_run g (pe_file e) fl1 nd (pe_read_bytes e)) as (b & _ & Er); [apply lookup_insert_eq|by destruct Hok|done|done|lia|cbn; lia|].
  change (content g nd) with (content (fsys s) nd) in Er. cbn [fl1 f_pos set_f_pos] in Er. fold bs in Er. set (g' := set_files _ (set_brk _ _)) in Er.
  set (t1 := set_fsys g' (pinned_at k v)).
  destruct (put_bytes_page k v bs t1) as (v' & ws & Ep & Hn' & Hws); [done|unfold bs; by apply Forall_take, Forall_drop|unfold PGSIZE in Hr; lia|done|].
  exists (set_mem v' t1), ws. split; [|split].
  - pose proof (pinned_filled k ws v' Hn' Hsw) as [F1 F2 F3 F4 F5 F6]. by split.
  - rewrite Hws, Hbl. do 2 f_equal. unfold PGSIZE. lia.
  - unfold fill_step. rewrite (proj2 (Z.ltb_lt 0 _)) by lia. rewrite !s32_id by (unfold PGSIZE in Hr; lia).
    rewrite (run_bind _ _ _ tt (set_fsys g (pinned_at k v))).
    2:{ unfold liftf, file_seek. rewrite (run_bind _ _ _ tt (fsys (pinned_at k v))) by (apply run_assert; by apply Z.leb_le).
        unfold upd_file. cbn [fsys pinned_at framed set_frames set_vbrk set_entries set_all_frames set_mem]. by rewrite Hf. }
    rewrite (run_bind _ _ _ bs t1) by exact (liftf_run (file_read (pe_file e) (pe_read_bytes e)) (set_fsys g (pinned_at k v)) bs g' Er). rewrite (run_bind _ _ _ _ _ Ep).
    rewrite Hbl, Z2Nat.id, Z.eqb_refl by lia. done.
Qed.

Lemma fill_run bs k v :
  page_source bs -> new_page s pd k (replicate 1024 0) v ->
  exists t ws, filled k ws t /\ bytes_of_words ws = bs /\
    fill_step k (negb (pe_swap e =? NULL)) (negb (pe_file e =? NULL)) (pinned_at k v) = install_frame ipd ram fp (pe_writable e) t.
Proof using HL.
  intros [m ws S1 S2 S3 S4 S5 S6|fl nd S1 S2 S3 S4 S5 S6 S7 S8 S9|S1 S2] Hn.
  - destruct (fill_swap m ws k v) as (t & Ht & E); try done. exists t, ws. split; [done|]. split; [done|].
    apply Z.eqb_neq in S1 as ->. unfold fill_step. cbn [negb]. by rewrite (run_bind _ _ _ _ _ E).
  - rewrite S1, (proj2 (Z.eqb_neq (pe_file e) NULL)) by done. cbn [Z.eqb negb]. destruct (Z.eq_dec (pe_read_bytes e) 0) as [Hz|Hz].
    + exists (pinned_at k v), (replicate 1024 0). split; [by apply pinned_filled|]. rewrite Hz. split; [apply bytes_of_zeros|].
      unfold fill_step. by rewrite Hz.
    + apply (fill_file fl nd); try done. lia.
  - rewrite S1, S2. exists (pinned_at k v), (replicate 1024 0). split; [by apply pinned_filled|]. split; [apply bytes_of_zeros|done].
Qed.

(** The steps of [load_page_entry], put together. *)
Lemma load_entry_run k v t v' :
  allocate_frame ipd p s = Ok (fp, framed fp k p e v s) -> frames t = <[fp := mkFrame (pe_tid e) p k true false]> (frames s) ->
  fill_step k (negb (pe_swap e =? NULL)) (negb (pe_file e =? NULL)) (pinned_at k v) = install_frame ipd ram fp (pe_writable e) t ->
  install_frame ipd ram fp (pe_writable e) t = Ok (true, set_mem v' t) ->
  load_page_entry ipd ram p s = Ok (true, set_frames (<[fp := mkFrame (pe_tid e) p k false false]> (frames t)) (set_mem v' t)).
Proof using HL.
  intros Ea Hf Ef Ei. pose proof HL as [L1 L2 L3 L4 L5 L6 [L7 L8] L9 L10 L11 L12 L13 L14].
  set (s' := set_frames _ (set_mem v' t)).
  assert (fp <> NULL) as Hfp by (unfold fp, NULL; lia). apply Z.eqb_neq in Hfp as Hfb. apply Z.eqb_neq in L4 as Hpb.
  unfold load_page_entry. rewrite Hpb.
  rewrite (run_bind _ _ _ false s).
  2:{ unfold is_present. rewrite (run_bind _ _ _ tt s) by (apply run_assert; by rewrite Hpb). rewrite (run_bind _ _ _ _ _ (entry_run _ _ _ L5)). by rewrite L9. }
  rewrite (run_bind _ _ _ tt s) by done. rewrite (run_bind _ _ _ _ _ Ea). rewrite (run_bind _ _ _ tt (framed (fp) k p e v s)) by (apply run_assert; by rewrite Hfb).
  set (t0 := pinned_at k v). assert (entries t0 !! p = Some (set_pe_frame (fp) e)) as Het by apply lookup_insert_eq.
  rewrite (run_bind _ _ _ tt t0).
  2:{ unfold pin_frame. rewrite (run_bind _ _ _ tt (framed (fp) k p e v s)) by (apply run_assert; by rewrite Hfb).
      rewrite (upd_frame_run _ (mkFrame (pe_tid e) p k false false)) by apply lookup_insert_eq. unfold t0, pinned_at, framed.
      cbn [frames set_vbrk set_entries set_all_frames set_frames]. by rewrite insert_insert_eq. }
  rewrite (run_bind _ _ _ _ _ (entry_run _ _ _ Het)).
  rewrite (run_bind _ _ _ (mkFrame (pe_tid e) p k true false) t0) by (apply frame_run, lookup_insert_eq).
  rewrite (run_bind _ _ _ (negb (pe_swap e =? NULL)) t0).
  2:{ unfold is_swapped. rewrite (run_bind _ _ _ tt t0) by (apply run_assert; by rewrite Hpb). by rewrite (run_bind _ _ _ _ _ (entry_run _ _ _ Het)). }
  rewrite (run_bind _ _ _ (negb (pe_file e =? NULL)) t0).
  2:{ unfold is_in_fs. rewrite (run_bind _ _ _ tt t0) by (apply run_assert; by rewrite Hpb). by rewrite (run_bind _ _ _ _ _ (entry_run _ _ _ Het)). }
  rewrite (run_bind _ _ _ true (set_mem v' t)) by (rewrite <- Ei; exact Ef).
  rewrite (run_bind _ _ _ tt s'); [done|]. unfold unpin_frame. rewrite (run_bind _ _ _ tt (set_mem v' t)) by (apply run_assert; by rewrite Hfb).
  by rewrite (upd_frame_run _ (mkFrame (pe_tid e) p k true false)) by (cbn [frames set_mem]; rewrite Hf; apply lookup_insert_eq).
Qed.

End load.

(** C21: Demand paging.  When a page of the running process that is not present is loaded, there are a free page in the user
    pool and one in the kernel pool for a page table, [malloc] gives the structures it is asked for, and the file the page comes
    from, if it does, fits into one inode (at most 124928 bytes), loading succeeds: the page holds what the swap device has for it, if it
    was swapped out, else the bytes of its file from its offset on, followed by zeros, else zeros; it may be written exactly
    when its entry says so; its entry has the new frame, which is not pinned, and is not in swap any more.  Every other user
    address has the same byte and the same permissions, and the address space is still well formed. *)
Theorem load_page_spec ipd ram s pd p e bs :
  loadable ipd ram s pd p e -> page_source s p e bs ->
  exists s' k, load_page_entry ipd ram p s = Ok (true, s') /\ space_ok s' pd /\ length bs = Z.to_nat PGSIZE /\
    (forall i, 0 <= i < PGSIZE -> user_view pd s' (pe_uaddr e + i) = bs !! Z.to_nat i /\
       mapping (phys (mem s')) pd (pe_uaddr e + i) = Some (k, pe_writable e)) /\
    (forall va, 0 <= va < PHYS_BASE -> va / PGSIZE <> pe_uaddr e / PGSIZE ->
       user_view pd s' va = user_view pd s va /\ mapping (phys (mem s')) pd va = mapping (phys (mem s)) pd va) /\
    entries s' = <[p := set_pe_swap NULL (set_pe_frame (vbrk s) e)]> (entries s) /\
    frames s' = <[vbrk s := mkFrame (pe_tid e) p k false false]> (frames s).
Proof.
  intros HL Hsrc. pose proof HL as [L1 L2 L3 L4 L5 L6 [L7 L8] L9 L10 L11 L12 L13 L14].
  destruct (allocate_frame_run ipd ram s pd p e HL) as (k & v & Ea & Hn & Hin).
  destruct (fill_run ipd ram s pd p e HL bs k v Hsrc Hn) as (t & ws & Hfill & Hws & Ef).
  destruct (install_frame_run ipd ram s pd p e HL k ws t Hfill Hin) as (v' & Ei & Hs' & Hpg & Hmap).
  destruct Hfill as [Hn' He Hf Hc Hd Ht]. assert (forall va, 0 <= va < PHYS_BASE -> 0 <= va < 2 ^ 32) as Hr by (unfold PHYS_BASE; lia).
  set (fr := mkFrame (pe_tid e) p k false false). set (s' := set_frames (<[vbrk s := fr]> (frames t)) (set_mem v' t)).
  exists s', k. split; [|split; [by apply (space_mem (set_mem v' t))|split; [|split; [|split; [|split; [done|]]]]]].
  - exact (load_entry_run ipd ram s pd p e HL k v t v' Ea Hf Ef Ei).
  - rewrite <- Hws, bytes_of_words_length. rewrite (np_length _ _ _ _ _ Hn'). done.
  - intros i Hi. assert (pe_uaddr e / PGSIZE * PGSIZE = pe_uaddr e) as Hu by (pose proof (Z.div_mod (pe_uaddr e) PGSIZE ltac:(unfold PGSIZE; lia)); lia).
    assert ((pe_uaddr e + i) / PGSIZE = pe_uaddr e / PGSIZE /\ (pe_uaddr e + i) mod PGSIZE = i) as [Hd1 Hm1].
    { rewrite <- Hu at 1 3. rewrite Z.add_comm, Z.div_add, Z_mod_plus_full by (unfold PGSIZE; lia). rewrite Z.div_small, Z.mod_small by done. done. }
    assert (mapping (phys (mem s')) pd (pe_uaddr e + i) = Some (k, pe_writable e)) as Hm.
    { cbn [mem s' set_frames set_mem]. rewrite Hmap by (unfold PHYS_BASE, PGSIZE in *; lia). by rewrite decide_True. }
    split; [|done]. unfold user_view. rewrite Hm, Hm1. rewrite <- Hws. apply page_byte_lookup; [|lia].
    cbn [mem s' set_frames set_mem]. rewrite Hpg by apply (np_data _ _ _ _ _ Hn'). apply (np_words _ _ _ _ _ Hn').
  - intros va Hva Hne. assert (mapping (phys (mem s')) pd va = mapping (phys (mem s)) pd va) as Hm.
    { cbn [mem s' set_frames set_mem]. rewrite Hmap by auto. by rewrite decide_False. }
    split; [|done]. rewrite <- (new_page_view s pd k ws (mem t) va L1 Hn' Hva). unfold user_view. rewrite Hm. cbn [mem set_mem].
    rewrite (np_map _ _ _ _ _ Hn') by auto. destruct (mapping (phys (mem s)) pd va) as [[k' w]|] eqn:Hk; [|done]. unfold page_byte.
    cbn [mem s' set_frames set_mem]. rewrite Hpg; [done|]. apply (dk_data _ _ _ (np_kept _ _ _ _ _ Hn')). by apply (so_data _ _ L1 va k' w Hva).
  - cbn [frames s' set_frames]. rewrite Hf. apply insert_insert_eq.
Qed.

(** The page at 0x8048000 of the process of [demo_stack], from the file of [demo_fs]. *)
Definition demo_paging : vm :=
  set_entries {[ 64 := mkEntry 3 0x8048000 true 0 0 8448 52 500 ]}
    (set_fsys (set_files {[ 8448 := mkFile 4096 0 false ]} demo_fs) (demo_stack (replicate 1024 0))).

Lemma has_room p k : 0 <= k < bit_cnt (used_map p) -> bget (used_map p) k = false -> ~ no_room p 1.
Proof. intros Hk Hf H. destruct (H k ltac:(lia) ltac:(lia)) as (i & Hi & Hb). replace i with k in Hb by lia. congruence. Qed.

Lemma demo_paging_loadable : loadable 0xc0050000 320 demo_paging 0xc0101000 64 (mkEntry 3 0x8048000 true 0 0 8448 52 500).
Proof.
  destruct (demo_stack_space (replicate 1024 0)) as [Hs _]; [reflexivity|apply Forall_replicate; unfold in_u; lia|].
  split; [by apply (space_mem (demo_stack (replicate 1024 0)))|reflexivity|done|done|apply lookup_insert_eq|reflexivity| |reflexivity| | | | |done].
  - split; [reflexivity|]. by vm_compute.
  - change (mem demo_paging) with (mem (demo_stack (replicate 1024 0))). unfold mapping. cbn [pe_uaddr].
    rewrite demo_stack_pte by lia. reflexivity.
  - apply (has_room _ 2); [by vm_compute|by vm_compute].
  - apply (has_room _ 2); [by vm_compute|by vm_compute].
  - intros k [_ Hk]. cbn [demo_paging mem phys set_entries set_fsys demo_stack set_pages user_pool] in Hk.
    assert (base (user_pool demo_pool) + PGSIZE * bit_cnt (used_map (user_pool demo_pool)) <= PHYS_BASE + 320 * PGSIZE) by (by vm_compute).
    apply Z.div_lt_upper_bound; [unfold PGSIZE; lia|]. unfold PGSIZE, PHYS_BASE in *. lia.
Qed.

Lemma load_page_spec_witness :
  exists s' k, load_page_entry 0xc0050000 320 64 demo_paging = Ok (true, s') /\
    user_view 0xc0101000 s' 0x8048000 = content demo_fs demo_node !! 52%nat /\ user_view 0xc0101000 s' 0x8048fff = Some 0 /\
    mapping (phys (mem s')) 0xc0101000 0x8048000 = Some (k, true).
Proof.
  destruct (load_page_spec 0xc0050000 320 demo_paging 0xc0101000 64 _ _ demo_paging_loadable
    (source_file demo_paging 64 (mkEntry 3 0x8048000 true 0 0 8448 52 500) (mkFile 4096 0 false) demo_node eq_refl ltac:(unfold NULL; cbn; lia) eq_refl
      ltac:(destruct demo_file_ok; by split) eq_refl ltac:(apply (bool_decide_unpack _); by vm_compute) ltac:(cbn; lia) ltac:(cbn; unfold PGSIZE; lia)
      ltac:(vm_compute; discriminate)))
    as (s' & k & E & _ & _ & Hv & _).
  destruct (Hv 0 ltac:(unfold PGSIZE; lia)) as [V0 M0]. destruct (Hv 0xfff ltac:(unfold PGSIZE; lia)) as [V1 _].
  exists s', k. split; [exact E|]. split; [rewrite Z.add_0_r in V0; cbn [pe_uaddr] in V0; rewrite V0; by vm_compute|].
  split; [refine (eq_trans V1 _); by vm_compute|exact M0].
Defined.
