(* ===== verification/Random.v ===== *)
(** The pseudo-random numbers of lib/random.c: the RC4 generator on its three static
    variables, and what holds of its state whatever the seed is. *)
From Stdlib Require Import ZArith Lia.
From stdpp Require Import base numbers list sorting.
From S2P Require Import Prelude.
From S2P Require Import Bitmap.

Local Open Scope Z_scope.

(** * The generator *)

(** The static variables: the array [s], the indices [s_i] and [s_j], and [inited]. *)
Record rng := mkRng {
  rs : list Z;
  s_i : Z;
  s_j : Z;
  inited : bool
}.

(** The variables before the first call: static storage is zero. *)
Definition rng_boot : rng := mkRng (replicate 256 0) 0 0 false.

(** Element [i] of an array, for an index that is in it. *)
Definition at_byte (l : list Z) (i : Z) : Z := default 0 (l !! Z.to_nat i).

Definition swap_byte (a b : Z) (l : list Z) : list Z :=
  <[Z.to_nat b := at_byte l a]> (<[Z.to_nat a := at_byte l b]> l).

(** The first loop of [random_init], with [n] steps to go from [i] on. *)
Fixpoint fill_loop (n : nat) (i : Z) (l : list Z) : list Z :=
  match n with
  | O => l
  | S n => fill_loop n (i + 1) (<[Z.to_nat i := u8 i]> l)
  end.

(** The second loop. *)
Fixpoint init_loop (seedp : list Z) (n : nat) (i j : Z) (l : list Z) : list Z :=
  match n with
  | O => l
  | S n =>
      let j' := u8 (j + (at_byte l i + at_byte seedp (i mod 4))) in
      init_loop seedp n (i + 1) j' (swap_byte i j' l)
  end.

Definition set_rs (v : list Z) (g : rng) : rng := mkRng v (s_i g) (s_j g) (inited g).
Definition set_s_i (v : Z) (g : rng) : rng := mkRng (rs g) v (s_j g) (inited g).
Definition set_s_j (v : Z) (g : rng) : rng := mkRng (rs g) (s_i g) v (inited g).
Definition set_inited (v : bool) (g : rng) : rng := mkRng (rs g) (s_i g) (s_j g) v.

Definition random_init (seed : Z) (g : rng) : rng :=
  let g := set_rs (fill_loop 256 0 (rs g)) g in
  let g := set_rs (init_loop (word_bytes seed) 256 0 0 (rs g)) g in
  let g := set_s_j 0 g in
  let g := set_s_i (s_j g) g in
  set_inited true g.

(** One pass of the loop of [random_bytes]. *)
Definition random_step (g : rng) : Z * rng :=
  let i := u8 (s_i g + 1) in
  let j := u8 (s_j g + at_byte (rs g) i) in
  let l := swap_byte i j (rs g) in
  let s_k := u8 (at_byte l i + at_byte l j) in
  (at_byte l s_k, mkRng l i j true).

Fixpoint bytes_loop (size : nat) (g : rng) : list Z * rng :=
  match size with
  | O => ([], g)
  | S size =>
      let (b, g1) := random_step g in
      let (bs, g2) := bytes_loop size g1 in
      (b :: bs, g2)
  end.

Definition random_bytes (size : nat) (g : rng) : list Z * rng :=
  bytes_loop size (if inited g then g else random_init 0 g).

(** The four bytes are a word, least significant byte first. *)
Definition random_ulong (g : rng) : Z * rng :=
  let (bs, g') := random_bytes 4 g in (default 0 (head (words_of_bytes bs)), g').

(** * The state *)

(** Once it is initialized, the array is a permutation of the bytes, and the indices are bytes. *)
Record rng_ok (g : rng) : Prop := {
  ro_perm : rs g ≡ₚ seqZ 0 256;
  ro_i : in_u 8 (s_i g);
  ro_j : in_u 8 (s_j g);
  ro_inited : inited g = true
}.

Lemma at_byte_lookup l i : 0 <= i < Zlen l -> l !! Z.to_nat i = Some (at_byte l i).
Proof. intros Hi. unfold at_byte. destruct (lookup_lt_is_Some_2 l (Z.to_nat i)) as [x Hx]; [lia|]. by rewrite Hx. Qed.

Lemma swap_perm a b l : 0 <= a < Zlen l -> 0 <= b < Zlen l -> swap_byte a b l ≡ₚ l.
Proof.
  intros Ha Hb. unfold swap_byte. pose proof (at_byte_lookup l a Ha) as La. pose proof (at_byte_lookup l b Hb) as Lb.
  destruct (decide (a = b)) as [<-|Hne].
  - rewrite list_insert_insert_eq, list_insert_id by done. done.
  - apply Permutation_inj. split; [by rewrite !length_insert|]. set (A := Z.to_nat a) in *. set (B := Z.to_nat b) in *.
    assert (A <> B) as HAB by lia. assert (A < length l)%nat by lia. assert (B < length l)%nat by lia.
    exists (fun n => if decide (n = A) then B else if decide (n = B) then A else n). split.
    + intros x y. repeat case_decide; congruence.
    + intros n. destruct (decide (n = A)) as [->|HnA].
      * rewrite list_lookup_insert_ne, list_lookup_insert_eq by (done || lia). done.
      * destruct (decide (n = B)) as [->|HnB]; [by rewrite list_lookup_insert_eq by (rewrite length_insert; lia)|].
        by rewrite !list_lookup_insert_ne by done.
Qed.

Lemma perm_length l : l ≡ₚ seqZ 0 256 -> Zlen l = 256.
Proof. intros H. by rewrite H. Qed.

Lemma u8_range z : in_u 8 (u8 z).
Proof. by apply uwrap_range. Qed.

Lemma perm_byte l i : l ≡ₚ seqZ 0 256 -> in_u 8 i -> in_u 8 (at_byte l i).
Proof.
  intros Hl Hi. pose proof (perm_length l Hl) as Hn. unfold in_u in Hi. pose proof (at_byte_lookup l i ltac:(lia)) as Hx.
  apply list_elem_of_lookup_2 in Hx. set (x := at_byte l i) in *. clearbody x. rewrite Hl in Hx. apply elem_of_seqZ in Hx. unfold in_u. lia.
Qed.

Lemma init_loop_perm seedp n : forall i j l, 0 <= i -> i + Z.of_nat n <= 256 -> l ≡ₚ seqZ 0 256 -> init_loop seedp n i j l ≡ₚ seqZ 0 256.
Proof.
  induction n as [|n IH]; intros i j l Hi Hn Hl; [done|]. cbn [init_loop]. pose proof (perm_length l Hl).
  apply IH; [lia|lia|]. rewrite swap_perm; [done|lia|]. pose proof (u8_range (j + (at_byte l i + at_byte seedp (i mod 4)))) as Hr. unfold in_u in Hr. lia.
Qed.

Lemma u8_small i : 0 <= i < 256 -> u8 i = i.
Proof. intros Hi. by apply uwrap_id. Qed.

(** The first loop overwrites the whole array. *)
Lemma fill_loop_ok n : forall i l, 0 <= i -> i + Z.of_nat n = 256 -> Zlen l = 256 ->
  take (Z.to_nat i) l = seqZ 0 i -> fill_loop n i l = seqZ 0 256.
Proof.
  induction n as [|n IH]; intros i l Hi Hn Hl Ht; cbn [fill_loop].
  - replace i with 256 in Ht by lia. by rewrite take_ge in Ht by lia.
  - apply IH; [lia|lia|by rewrite length_insert|]. 
    replace (Z.to_nat (i + 1)) with (S (Z.to_nat i)) by lia.
    rewrite (take_S_r _ _ i) by (rewrite list_lookup_insert_eq by lia; by rewrite u8_small by lia).
    rewrite take_insert_ge by lia. rewrite Ht, seqZ_app by lia. done.
Qed.

(** Whatever the state was, only the seed counts. *)
Lemma random_init_eq seed g :
  Zlen (rs g) = 256 -> random_init seed g = mkRng (init_loop (word_bytes seed) 256 0 0 (seqZ 0 256)) 0 0 true.
Proof.
  intros Hl. unfold random_init. cbn [rs set_rs]. by rewrite (fill_loop_ok 256 0 (rs g)).
Qed.

Lemma random_init_ok seed g : Zlen (rs g) = 256 -> rng_ok (random_init seed g).
Proof.
  intros Hl. rewrite random_init_eq by done.
  split; [apply init_loop_perm; [lia|lia|done]|unfold in_u; cbn; lia|unfold in_u; cbn; lia|done].
Qed.

Lemma rng_ok_length g : rng_ok g \/ g = rng_boot -> Zlen (rs g) = 256.
Proof. intros [Hg| ->]; [by apply perm_length, Hg|done]. Qed.

Lemma random_step_ok g : rng_ok g -> in_u 8 (random_step g).1 /\ rng_ok (random_step g).2.
Proof.
  intros [H1 H2 H3 H4]. unfold random_step. set (i := u8 (s_i g + 1)). set (j := u8 _). pose proof (u8_range (s_i g + 1)) as Hi. fold i in Hi.
  pose proof (u8_range (s_j g + at_byte (rs g) i)) as Hj. fold j in Hj. pose proof (perm_length _ H1).
  assert (swap_byte i j (rs g) ≡ₚ seqZ 0 256) as Hp by (rewrite swap_perm; unfold in_u in *; [done|lia|lia]).
  cbn [fst snd]. split; [apply perm_byte; [done|apply u8_range]|by split].
Qed.

Lemma bytes_loop_ok n : forall g, rng_ok g -> length (bytes_loop n g).1 = n /\ Forall (in_u 8) (bytes_loop n g).1 /\ rng_ok (bytes_loop n g).2.
Proof.
  induction n as [|n IH]; intros g Hg; [done|]. cbn [bytes_loop]. destruct (random_step_ok g Hg) as [Hb Hg1]. destruct (random_step g) as [b g1]. cbn in Hb, Hg1.
  destruct (IH g1 Hg1) as (H1 & H2 & H3). destruct (bytes_loop n g1) as [bs g2]. cbn in *. split; [by rewrite H1|]. split; [by constructor|done].
Qed.

Lemma bytes_loop_add n m : forall g,
  bytes_loop (n + m) g = ((bytes_loop n g).1 ++ (bytes_loop m (bytes_loop n g).2).1, (bytes_loop m (bytes_loop n g).2).2).
Proof.
  induction n as [|n IH]; intros g; cbn [bytes_loop Nat.add fst snd app]; [by destruct (bytes_loop m g)|].
  destruct (random_step g) as [b g1]. rewrite IH. by destruct (bytes_loop n g1).
Qed.

Lemma random_start_ok g : rng_ok g \/ g = rng_boot -> rng_ok (if inited g then g else random_init 0 g).
Proof. intros [Hg| ->]; [by rewrite (ro_inited _ Hg)|by apply random_init_ok]. Qed.

(** The state of the generator is well formed after every sequence of calls, from the static initial values on. *)
Inductive rng_reachable : rng -> Prop :=
| reach_boot : rng_reachable rng_boot
| reach_init seed g : rng_reachable g -> rng_reachable (random_init seed g)
| reach_bytes n g : rng_reachable g -> rng_reachable (random_bytes n g).2
| reach_ulong g : rng_reachable g -> rng_reachable (random_ulong g).2.

Lemma random_ulong_bytes g : (random_ulong g).2 = (random_bytes 4 g).2.
Proof. unfold random_ulong. by destruct (random_bytes 4 g). Qed.

Lemma rng_reachable_ok g : rng_reachable g -> rng_ok g \/ g = rng_boot.
Proof.
  induction 1 as [|seed g _ IH|n g _ IH|g _ IH]; [by right|left; by apply random_init_ok, rng_ok_length|left|left].
  - by apply bytes_loop_ok, random_start_ok.
  - rewrite random_ulong_bytes. by apply bytes_loop_ok, random_start_ok.
Qed.

(** Initializing after any sequence of calls forgets what was before. *)
Lemma random_init_seed seed g : rng_reachable g -> random_init seed g = random_init seed rng_boot.
Proof.
  intros Hg. rewrite (random_init_eq seed g (rng_ok_length g (rng_reachable_ok g Hg))).
  rewrite (random_init_eq seed rng_boot (rng_ok_length rng_boot (or_intror eq_refl))). reflexivity.
Qed.

(** C33: Random numbers.  After any sequence of calls the generator gives as many bytes as it is asked for and a word of 32
    bits, and its array is a permutation of the bytes 0 to 255, so that no index leaves it; asking for [n] bytes
    and then for [m] gives the bytes that asking for [n + m] gives; and initializing it with a seed after any sequence of
    calls leaves the same state, so that what it gives from then on depends only on the seed. *)
Theorem random_spec g n m :
  rng_reachable g ->
  let r := random_bytes n g in
  length r.1 = n /\ Forall (in_u 8) r.1 /\ (rng_ok r.2) /\ in_u 32 (random_ulong g).1 /\
  random_bytes (n + m) g = (r.1 ++ (random_bytes m r.2).1, (random_bytes m r.2).2) /\
  (forall seed g', rng_reachable g' -> random_init seed g' = random_init seed g).
Proof.
  intros Hr r. pose proof (rng_reachable_ok _ Hr) as Hg%random_start_ok. unfold r, random_bytes at 1 2 3 4. destruct (bytes_loop_ok n _ Hg) as (H1 & H2 & H3). split; [done|]. split; [done|]. split; [done|]. split; [|split].
  - unfold random_ulong, random_bytes. destruct (bytes_loop_ok 4 _ Hg) as (L1 & L2 & _). destruct (bytes_loop 4 _) as [bs g']. cbn [fst] in *.
    destruct bs as [|b0 [|b1 [|b2 [|b3 [|]]]]]; try done. repeat (apply Forall_cons in L2 as [? L2]). unfold in_u in *. cbn. lia.
  - rewrite bytes_loop_add. unfold r, random_bytes. by rewrite (ro_inited _ H3).
  - intros seed g' Hg'. rewrite (random_init_seed seed g' Hg'), (random_init_seed seed g Hr). reflexivity.
Qed.

Lemma random_spec_witness :
  let g := random_init 42 rng_boot in let r := random_bytes 3 g in
  Forall (in_u 8) r.1 /\ random_bytes 5 g = (r.1 ++ (random_bytes 2 r.2).1, (random_bytes 2 r.2).2) /\
  random_init 7 rng_boot = random_init 7 g.
Proof.
  destruct (random_spec (random_init 42 rng_boot) 3 2 (reach_init 42 _ reach_boot)) as (_ & H & _ & _ & H' & H2).
  split; [exact H|]. split; [exact H'|exact (H2 7 _ reach_boot)].
Defined.
