(* ===== verification/Gdt.v ===== *)
(** The descriptor tables of userprog/gdt.c and the task-state segment of
    userprog/tss.c: the descriptors that the processor reads have the fields they are
    made from. *)
From Stdlib Require Import ZArith Lia.
From stdpp Require Import base numbers list.
From S2P Require Import Prelude.
From S2P Require Import Bitmap.
From S2P Require Import Palloc.

Local Open Scope Z_scope.

(** * Descriptors *)

(** userprog/gdt.h and threads/loader.h *)
Definition SEL_NULL : Z := 0x00.
Definition SEL_KCSEG : Z := 0x08.
Definition SEL_KDSEG : Z := 0x10.
Definition SEL_UCSEG : Z := 0x1B.
Definition SEL_UDSEG : Z := 0x23.
Definition SEL_TSS : Z := 0x28.
Definition SEL_CNT : Z := 6.

Inductive seg_class := CLS_SYSTEM | CLS_CODE_DATA.
Inductive seg_granularity := GRAN_BYTE | GRAN_PAGE.

Definition class_bit (c : seg_class) : Z := match c with CLS_SYSTEM => 0 | CLS_CODE_DATA => 1 end.
Definition gran_bit (g : seg_granularity) : Z := match g with GRAN_BYTE => 0 | GRAN_PAGE => 1 end.

Definition seg_e0 (base limit : Z) : Z := Z.lor (Z.land limit 0xffff) (u32 (Z.shiftl base 16)).

Definition seg_e1 (base limit : Z) (class : seg_class) (type dpl : Z) (granularity : seg_granularity) : Z :=
  Z.lor (Z.lor (Z.lor (Z.lor (Z.lor (Z.lor (Z.lor (Z.lor
    (Z.land (Z.shiftr base 16) 0xff)
    (Z.shiftl type 8))
    (Z.shiftl (class_bit class) 12))
    (Z.shiftl dpl 13))
    (Z.shiftl 1 15))
    (Z.land limit 0xf0000))
    (Z.shiftl 1 22))
    (Z.shiftl (gran_bit granularity) 23))
    (Z.land base 0xff000000).

Definition make_seg_desc (base limit : Z) (class : seg_class) (type dpl : Z) (granularity : seg_granularity) : res Z :=
  if negb (limit <=? 0xfffff) then Err EAssert else
  if negb ((0 <=? type) && (type <=? 15)) then Err EAssert else
  if negb ((0 <=? dpl) && (dpl <=? 3)) then Err EAssert else
  Ok (Z.lor (seg_e0 base limit) (Z.shiftl (seg_e1 base limit class type dpl granularity) 32)).

Definition make_code_desc (dpl : Z) : res Z := make_seg_desc 0 0xfffff CLS_CODE_DATA 10 dpl GRAN_PAGE.
Definition make_data_desc (dpl : Z) : res Z := make_seg_desc 0 0xfffff CLS_CODE_DATA 2 dpl GRAN_PAGE.
Definition make_tss_desc (laddr : Z) : res Z := make_seg_desc laddr 0x67 CLS_SYSTEM 9 0 GRAN_BYTE.
Definition make_gdtr_operand (limit base : Z) : Z := Z.lor limit (Z.shiftl base 16).

(** What the processor reads in a descriptor: Intel's manual, volume 3a, figure 3-8. *)
Definition desc_base (d : Z) : Z := Z.lor (Z.land (Z.shiftr d 16) 0xffffff) (Z.shiftl (Z.land (Z.shiftr d 56) 0xff) 24).
Definition desc_limit (d : Z) : Z := Z.lor (Z.land d 0xffff) (Z.shiftl (Z.land (Z.shiftr d 48) 0xf) 16).
Definition desc_type (d : Z) : Z := Z.land (Z.shiftr d 40) 0xf.
Definition desc_class (d : Z) : bool := Z.testbit d 44.
Definition desc_dpl (d : Z) : Z := Z.land (Z.shiftr d 45) 3.
Definition desc_present (d : Z) : bool := Z.testbit d 47.
Definition desc_big (d : Z) : bool := Z.testbit d 54.
Definition desc_gran (d : Z) : bool := Z.testbit d 55.

(** ** Bits *)

Lemma testbit_ones_cmp n i : 0 <= n -> Z.testbit (Z.ones n) i = (0 <=? i) && (i <? n).
Proof.
  intros Hn. destruct (Z.leb_spec 0 i); [|by rewrite Z.testbit_neg_r]. destruct (Z.ltb_spec i n); [by apply Z.ones_spec_low|by apply Z.ones_spec_high].
Qed.

Lemma testbit_shiftl_cmp a n i : 0 <= n -> 0 <= i -> Z.testbit (Z.shiftl a n) i = (n <=? i) && Z.testbit a (i - n).
Proof. intros Hn Hi. rewrite Z.shiftl_spec by done. destruct (Z.leb_spec n i); [done|]. by rewrite Z.testbit_neg_r by lia. Qed.

Lemma testbit_cut w a i : 0 < w -> in_u w a -> Z.testbit a i = (i <? w) && Z.testbit a i.
Proof. intros Hw Ha. destruct (Z.ltb_spec i w); [done|]. rewrite <- (uwrap_id w Hw a Ha). unfold uwrap. rewrite Z.mod_pow2_bits_high by lia. done. Qed.

(** Compares the bits of two expressions made of fields: every comparison of the number of the bit is decided. *)
Ltac bit_compare :=
  repeat match goal with
  | |- context [?a <? ?b] => destruct (Z.ltb_spec a b); cbn [andb orb]; try (exfalso; lia)
  | |- context [?a <=? ?b] => destruct (Z.leb_spec a b); cbn [andb orb]; try (exfalso; lia)
  end.

Ltac bit_close :=
  bit_compare; rewrite ?andb_true_r, ?andb_false_r, ?orb_false_r, ?orb_true_r; cbn [andb orb]; try done; f_equal; lia.

Ltac bit_spec :=
  repeat first
  [ rewrite Z.lor_spec | rewrite Z.land_spec | rewrite testbit_ones_cmp by lia | rewrite Z.shiftr_spec by lia
  | rewrite testbit_shiftl_cmp by lia ].

Definition seg_desc (base limit : Z) (class : seg_class) (type dpl : Z) (g : seg_granularity) : Z :=
  Z.lor (seg_e0 base limit) (Z.shiftl (seg_e1 base limit class type dpl g) 32).

Lemma class_range c : in_u 1 (class_bit c).
Proof. unfold in_u. destruct c; cbn; lia. Qed.
Lemma gran_range g : in_u 1 (gran_bit g).
Proof. unfold in_u. destruct g; cbn; lia. Qed.

(** Each bit of a descriptor is a bit of one field. *)
Lemma desc_bit base limit class type dpl g n :
  in_u 32 base -> in_u 20 limit -> in_u 4 type -> in_u 2 dpl -> 0 <= n ->
  Z.testbit (seg_desc base limit class type dpl g) n =
    if n <? 16 then Z.testbit limit n else if n <? 40 then Z.testbit base (n - 16) else if n <? 44 then Z.testbit type (n - 40)
    else if n <? 45 then Z.testbit (class_bit class) (n - 44) else if n <? 47 then Z.testbit dpl (n - 45) else if n <? 48 then true
    else if n <? 52 then Z.testbit limit (n - 32) else if n <? 54 then false else if n <? 55 then true
    else if n <? 56 then Z.testbit (gran_bit g) (n - 55) else if n <? 64 then Z.testbit base (n - 32) else false.
Proof.
  intros Hb Hl Ht Hd Hn. pose proof (class_range class) as Hc. pose proof (gran_range g) as Hg.
  unfold seg_desc, seg_e0, seg_e1, uwrap. rewrite <- Z.land_ones by lia.
  change 0xffff with (Z.ones 16). change 0xff with (Z.ones 8). change 0xf0000 with (Z.shiftl (Z.ones 4) 16).
  change 0xff000000 with (Z.shiftl (Z.ones 8) 24). change 1 with (Z.ones 1). rewrite Z.lor_spec.
  rewrite testbit_shiftl_cmp by lia. destruct (Z.leb_spec 32 n); cbn [andb].
  - bit_spec. rewrite (testbit_cut 4 type), (testbit_cut 2 dpl), (testbit_cut 1 (class_bit class)), (testbit_cut 1 (gran_bit g)) by (done || lia).
    bit_close.
  - bit_spec. bit_close.
Qed.

(** ** The fields of a descriptor *)

Lemma testbit_shiftr_cmp a n i : 0 <= n -> Z.testbit (Z.shiftr a n) i = (0 <=? i) && Z.testbit a (i + n).
Proof. intros Hn. destruct (Z.leb_spec 0 i); [by rewrite Z.shiftr_spec|by rewrite Z.testbit_neg_r by lia]. Qed.

Record desc_is (d base limit : Z) (class : seg_class) (type dpl : Z) (g : seg_granularity) : Prop := {
  di_range : in_u 64 d;
  di_base : desc_base d = base;
  di_limit : desc_limit d = limit;
  di_type : desc_type d = type;
  di_class : desc_class d = Z.testbit (class_bit class) 0;
  di_dpl : desc_dpl d = dpl;
  di_present : desc_present d = true;
  di_big : desc_big d = true;
  di_gran : desc_gran d = Z.testbit (gran_bit g) 0
}.

Lemma seg_desc_fields base limit class type dpl g :
  in_u 32 base -> in_u 20 limit -> in_u 4 type -> in_u 2 dpl -> desc_is (seg_desc base limit class type dpl g) base limit class type dpl g.
Proof.
  intros Hb Hl Ht Hd. pose proof (fun n => desc_bit base limit class type dpl g n Hb Hl Ht Hd) as Hbit. set (d := seg_desc _ _ _ _ _ _) in *.
  assert (0 <= d) as Hpos.
  { unfold d, seg_desc, seg_e0, seg_e1, in_u in *. pose proof (class_range class). pose proof (gran_range g). unfold in_u in *.
    repeat (rewrite Z.lor_nonneg || rewrite Z.shiftl_nonneg || rewrite Z.land_nonneg || rewrite Z.shiftr_nonneg).
    pose proof (uwrap_range 32 ltac:(lia) (Z.shiftl base 16)) as Hr. unfold in_u in Hr. lia. }
  split; [apply in_u_testbit; [lia|done|]; intros n Hn; rewrite Hbit by lia; by bit_compare|..];
    unfold desc_base, desc_limit, desc_type, desc_class, desc_dpl, desc_present, desc_big, desc_gran; try (by rewrite Hbit by lia).
  - change 0xffffff with (Z.ones 24). change 0xff with (Z.ones 8). apply Z.bits_inj'. intros n Hn.
    rewrite Z.lor_spec, testbit_shiftl_cmp, !Z.land_spec, !testbit_ones_cmp, !testbit_shiftr_cmp, !Hbit, (testbit_cut 32 base n) by (done || lia).
    bit_close.
  - change 0xffff with (Z.ones 16). change 0xf with (Z.ones 4). apply Z.bits_inj'. intros n Hn.
    rewrite Z.lor_spec, testbit_shiftl_cmp, !Z.land_spec, !testbit_ones_cmp, !testbit_shiftr_cmp, !Hbit, (testbit_cut 20 limit n) by (done || lia).
    bit_close.
  - change 0xf with (Z.ones 4). apply Z.bits_inj'. intros n Hn.
    rewrite Z.land_spec, testbit_ones_cmp, testbit_shiftr_cmp, Hbit, (testbit_cut 4 type n) by (done || lia).
    bit_close.
  - change 3 with (Z.ones 2). apply Z.bits_inj'. intros n Hn.
    rewrite Z.land_spec, testbit_ones_cmp, testbit_shiftr_cmp, Hbit, (testbit_cut 2 dpl n) by (done || lia).
    bit_close.
Qed.

(** * The descriptor table *)

(** What gdt.c and tss.c keep: the table, the address of the task-state segment with the fields that are set, and the two
    registers of the processor that refer to them. *)
Record tss := mkTss { esp0 : Z; ss0 : Z; io_bitmap : Z }.

Record segs := mkSegs {
  gdt : list Z;
  tss_addr : Z;
  tss_data : tss;
  gdtr : Z;
  task_reg : Z
}.

Definition NULL : Z := 0.

(** [tss_update] for the running thread, whose structure is at the start of its page. *)
Definition tss_update (thread_current : Z) (s : segs) : res segs :=
  if tss_addr s =? NULL then Err EAssert else
  Ok (mkSegs (gdt s) (tss_addr s) (mkTss (u32 (thread_current + PGSIZE)) (ss0 (tss_data s)) (io_bitmap (tss_data s))) (gdtr s) (task_reg s)).

Definition tss_init (thread_current : Z) (s : segs) (m : pmem) : res (segs * pmem) :=
  '(a, m') ← palloc_get_page (Z.lor PAL_ASSERT PAL_ZERO) m;
  s' ← tss_update thread_current (mkSegs (gdt s) a (mkTss 0 SEL_KDSEG 0xdfff) (gdtr s) (task_reg s));
  Ok (s', m').

Definition tss_get (s : segs) : res Z := if tss_addr s =? NULL then Err EAssert else Ok (tss_addr s).

(** [gdt_init], the table being at address [gdt_addr]. *)
Definition gdt_init (gdt_addr : Z) (s : segs) : res segs :=
  kc ← make_code_desc 0;
  kd ← make_data_desc 0;
  uc ← make_code_desc 3;
  ud ← make_data_desc 3;
  t ← tss_get s;
  td ← make_tss_desc t;
  let g := <[Z.to_nat (SEL_TSS / 8) := td]> (<[Z.to_nat (SEL_UDSEG / 8) := ud]> (<[Z.to_nat (SEL_UCSEG / 8) := uc]>
    (<[Z.to_nat (SEL_KDSEG / 8) := kd]> (<[Z.to_nat (SEL_KCSEG / 8) := kc]> (<[Z.to_nat (SEL_NULL / 8) := 0]> (gdt s)))))) in
  Ok (mkSegs g (tss_addr s) (tss_data s) (make_gdtr_operand (SEL_CNT * 8 - 1) gdt_addr) SEL_TSS).

Lemma make_seg_desc_run base limit class type dpl g :
  in_u 20 limit -> in_u 4 type -> in_u 2 dpl -> make_seg_desc base limit class type dpl g = Ok (seg_desc base limit class type dpl g).
Proof.
  intros Hl Ht Hd. unfold in_u in *. unfold make_seg_desc. rewrite (proj2 (Z.leb_le limit _)), (proj2 (Z.leb_le 0 type)), (proj2 (Z.leb_le type _)),
    (proj2 (Z.leb_le 0 dpl)), (proj2 (Z.leb_le dpl _)) by lia. done.
Qed.

(** The descriptor table.  When the task-state segment has been set up, [gdt_init] succeeds, and what the processor reads at
    each selector is what the code means: at the selectors of the kernel and of user programs, code and data segments from 0 to 4 GB
    with the privilege that the low bits of the selector ask for, at the selector of the task-state segment a system descriptor of its 104
    bytes, and nothing at the null selector; the table register has the address of the table and its last byte. *)
Theorem gdt_spec gdt_addr s :
  length (gdt s) = 6%nat -> tss_addr s <> NULL -> in_u 32 (tss_addr s) -> in_u 32 gdt_addr ->
  exists s', gdt_init gdt_addr s = Ok s' /\ length (gdt s') = 6%nat /\
    gdt s' !! Z.to_nat (SEL_NULL / 8) = Some 0 /\
    (forall sel type, (sel, type) ∈ [(SEL_KCSEG, 10); (SEL_KDSEG, 2); (SEL_UCSEG, 10); (SEL_UDSEG, 2)] ->
       exists d, gdt s' !! Z.to_nat (sel / 8) = Some d /\ desc_is d 0 0xfffff CLS_CODE_DATA type (sel mod 4) GRAN_PAGE) /\
    (exists d, gdt s' !! Z.to_nat (SEL_TSS / 8) = Some d /\ desc_is d (tss_addr s) 0x67 CLS_SYSTEM 9 0 GRAN_BYTE) /\
    gdtr s' mod 2 ^ 16 = 6 * 8 - 1 /\ gdtr s' / 2 ^ 16 = gdt_addr /\ task_reg s' = SEL_TSS.
Proof.
  intros Hlen Ht Htr Ha. destruct (gdt s) as [|d0 [|d1 [|d2 [|d3 [|d4 [|d5 [|]]]]]]] eqn:Hg; try done.
  assert (forall sel type, (sel, type) ∈ [(SEL_KCSEG, 10); (SEL_KDSEG, 2); (SEL_UCSEG, 10); (SEL_UDSEG, 2)] ->
    desc_is (seg_desc 0 0xfffff CLS_CODE_DATA type (sel mod 4) GRAN_PAGE) 0 0xfffff CLS_CODE_DATA type (sel mod 4) GRAN_PAGE) as Hcd.
  { intros sel type H. apply seg_desc_fields; [unfold in_u; lia|unfold in_u; lia| |].
    - unfold in_u. rewrite !elem_of_cons in H. destruct H as [[= _ ->]|[[= _ ->]|[[= _ ->]|[[= _ ->]|H%elem_of_nil]]]]; lia || done.
    - unfold in_u. pose proof (Z.mod_pos_bound sel 4 ltac:(lia)). lia. }
  unfold gdt_init, make_code_desc, make_data_desc, make_tss_desc. rewrite !make_seg_desc_run by (unfold in_u; lia). cbn [mbind res_bind].
  unfold tss_get. apply Z.eqb_neq in Ht. rewrite Ht. cbn [mbind res_bind]. rewrite make_seg_desc_run by (unfold in_u; lia). cbn [mbind res_bind].
  eexists. split; [reflexivity|]. cbn [gdt gdtr task_reg]. rewrite Hg. split; [done|]. split; [done|]. split; [|split].
  - intros sel type H. eexists. split; [|by apply (Hcd sel type)]. rewrite !elem_of_cons in H.
    destruct H as [[= -> ->]|[[= -> ->]|[[= -> ->]|[[= -> ->]|H%elem_of_nil]]]]; done.
  - eexists. split; [reflexivity|]. by apply seg_desc_fields; unfold in_u in *; try lia.
  - split; [|split; [|done]].
    + unfold make_gdtr_operand. rewrite <- Z.land_ones, Z.land_lor_distr_l, !Z.land_ones, Z.shiftl_mul_pow2, Z.mod_mul by lia. by rewrite Z.lor_0_r.
    + unfold make_gdtr_operand. rewrite <- Z.shiftr_div_pow2, Z.shiftr_lor, Z.shiftr_shiftl_l by lia. by rewrite Z.shiftl_0_r.
Qed.

Lemma gdt_spec_witness :
  exists s', gdt_init 0xc0030000 (mkSegs (replicate 6 0) 0xc0110000 (mkTss 0xc0010000 SEL_KDSEG 0xdfff) 0 0) = Ok s' /\
    exists d, gdt s' !! Z.to_nat (SEL_UCSEG / 8) = Some d /\ desc_dpl d = 3 /\ desc_base d = 0.
Proof.
  destruct (gdt_spec 0xc0030000 (mkSegs (replicate 6 0) 0xc0110000 (mkTss 0xc0010000 SEL_KDSEG 0xdfff) 0 0))
    as (s' & E & _ & _ & H & _); [reflexivity|cbn; unfold NULL; lia|unfold in_u; cbn; lia|unfold in_u; lia|].
  exists s'. split; [exact E|]. destruct (H SEL_UCSEG 10) as (d & Hd & F); [apply (bool_decide_unpack _); by vm_compute|].
  exists d. split; [exact Hd|]. destruct F. by split.
Defined.
