(* ===== verification/Intq.v ===== *)
(** The interrupt queue of devices/intq.c: a ring of bytes between interrupt handlers
    and threads, over the scheduler of Thread.v.  It is a first-in, first-out queue
    of at most 63 bytes, and a thread that waits for a byte is woken by the first one.
    A second thread that waits for a byte at the same time fails an assertion. *)
From Stdlib Require Import ZArith Lia.
From stdpp Require Import base numbers sorting gmap list relations.
From S2P Require Import Prelude.
From S2P Require Import Thread.
From S2P Require Import Machine.
From S2P Require Import Sched.
From S2P Require Import Sleep.

Local Open Scope Z_scope.

(** * The queue *)

Definition INTQ_BUFSIZE : Z := 64.

Record intq := mkQ {
  q_lock : Z;
  not_full : Z;
  not_empty : Z;
  buf : list Z;
  head : Z;
  tail : Z
}.

(** Which of the two members the address of a waiter is. *)
Inductive waiter := NotFull | NotEmpty.

Definition waiter_of (w : waiter) (q : intq) : Z := match w with NotFull => not_full q | NotEmpty => not_empty q end.

Definition set_waiter (w : waiter) (t : Z) (q : intq) : intq :=
  match w with
  | NotFull => mkQ (q_lock q) t (not_empty q) (buf q) (head q) (tail q)
  | NotEmpty => mkQ (q_lock q) (not_full q) t (buf q) (head q) (tail q)
  end.

(** A queue and the kernel. *)
Abbreviation qM := (st (kstate * intq)).

Definition liftk {A} (c : kM A) : qM A := fun s =>
  match c s.1 with
  | Ok (a, k') => Ok (a, (k', s.2))
  | Err e => Err e
  end.

Definition get_q : qM intq := fun s => Ok (s.2, s).
Definition put_q (q : intq) : qM unit := fun s => Ok (tt, (s.1, q)).

Definition next (pos : Z) : Z := s32 (pos + 1) mod INTQ_BUFSIZE.

(** The lock of the queue is at address [l]. *)
Definition intq_init (l : Z) : qM unit :=
  liftk (lock_init l);;
  q ← get_q;
  put_q (mkQ l NULL NULL (buf q) 0 0).

Definition interrupts_off : qM unit := on ← liftk (gets intr_on); assert (negb on).

Definition intq_empty : qM bool := interrupts_off;; q ← get_q; mret (head q =? tail q).
Definition intq_full : qM bool := interrupts_off;; q ← get_q; mret (next (head q) =? tail q).

(** What a thread that has to wait goes on with. *)
Inductive qcmd :=
| QKernel (c : cmd)
| QWait (w : waiter)
| QGetc
| QPutc (byte : Z).

Definition not_in_interrupt : qM unit := ext ← liftk (gets in_external_intr); assert (negb ext).

(** The condition that [wait] and [signal] assert. *)
Definition condition (w : waiter) : qM bool :=
  match w with
  | NotEmpty => b ← intq_empty; mret (negb b)
  | NotFull => b ← intq_full; mret (negb b)
  end.

Definition wait (w : waiter) : qM unit :=
  not_in_interrupt;;
  interrupts_off;;
  c ← condition w; assert (negb c);;
  t ← liftk thread_current;
  q ← get_q; put_q (set_waiter w t q);;
  liftk thread_block.

Definition signal (w : waiter) : qM unit :=
  interrupts_off;;
  c ← condition w; assert c;;
  q ← get_q;
  if negb (waiter_of w q =? NULL) then
    liftk (thread_unblock (waiter_of w q));;
    q ← get_q; put_q (set_waiter w NULL q)
  else mret tt.

(** What the loops of [intq_getc] and [intq_putc] do before they test again. *)
Definition wait_cmds (l : Z) (w : waiter) (again : qcmd) : list qcmd :=
  [QKernel (CLockAcquire l); QWait w; QKernel (CLockRelease l); again].

(** The byte, or what is left to do to get one. *)
Definition intq_getc : qM (Z + list qcmd) :=
  e ← intq_empty;
  if e : bool then
    not_in_interrupt;; q ← get_q; mret (inr (wait_cmds (q_lock q) NotEmpty QGetc))
  else
    q ← get_q;
    let byte := default 0 (buf q !! Z.to_nat (tail q)) in
    put_q (mkQ (q_lock q) (not_full q) (not_empty q) (buf q) (head q) (next (tail q)));;
    signal NotFull;;
    mret (inl byte).

Definition intq_putc (byte : Z) : qM (list qcmd) :=
  f ← intq_full;
  if f : bool then
    not_in_interrupt;; q ← get_q; mret (wait_cmds (q_lock q) NotFull (QPutc byte))
  else
    q ← get_q;
    put_q (mkQ (q_lock q) (not_full q) (not_empty q) (<[Z.to_nat (head q) := byte]> (buf q)) (next (head q)) (tail q));;
    signal NotEmpty;;
    mret [].

(** * The bytes in the queue *)

Definition count (q : intq) : Z := (head q - tail q) mod INTQ_BUFSIZE.

Definition slot (q : intq) (i : Z) : Z := default 0 (buf q !! Z.to_nat ((tail q + i) mod INTQ_BUFSIZE)).

(** From the tail, where bytes are taken, to the head. *)
Definition contents (q : intq) : list Z := slot q <$> seqZ 0 (count q).

Record q_ok (q : intq) : Prop := {
  qo_buf : Zlen (buf q) = INTQ_BUFSIZE;
  qo_head : 0 <= head q < INTQ_BUFSIZE;
  qo_tail : 0 <= tail q < INTQ_BUFSIZE
}.

Lemma next_run p : 0 <= p < INTQ_BUFSIZE -> next p = (p + 1) mod INTQ_BUFSIZE /\ 0 <= next p < INTQ_BUFSIZE.
Proof.
  intros Hp. unfold next. rewrite s32_id by (unfold INTQ_BUFSIZE in Hp; lia). split; [done|]. apply Z.mod_pos_bound. unfold INTQ_BUFSIZE. lia.
Qed.

Lemma count_range q : 0 <= count q < INTQ_BUFSIZE.
Proof. apply Z.mod_pos_bound. unfold INTQ_BUFSIZE. lia. Qed.

Lemma contents_length q : Zlen (contents q) = count q.
Proof. unfold contents. rewrite length_fmap, length_seqZ. pose proof (count_range q). lia. Qed.

Lemma empty_count q : q_ok q -> (head q =? tail q) = (count q =? 0).
Proof.
  intros [_ H1 H2]. unfold count. destruct (Z.eqb_spec (head q) (tail q)) as [->|Hne]; [by rewrite Z.sub_diag|].
  symmetry. apply Z.eqb_neq. unfold INTQ_BUFSIZE in *. intros E. apply Z.mod_divide in E as [z Hz]; lia.
Qed.

Lemma full_count q : q_ok q -> (next (head q) =? tail q) = (count q =? INTQ_BUFSIZE - 1).
Proof.
  intros [_ H1 H2]. destruct (next_run _ H1) as [-> _]. unfold count, INTQ_BUFSIZE in *.
  destruct (Z.ltb_spec (head q) (tail q)).
  - assert ((head q - tail q) mod 64 = head q - tail q + 64) as -> by (symmetry; apply Z.mod_unique with (q := -1); lia).
    assert ((head q + 1) mod 64 = head q + 1) as -> by (apply Z.mod_small; lia).
    destruct (Z.eqb_spec (head q + 1) (tail q)), (Z.eqb_spec (head q - tail q + 64) (64 - 1)); lia || done.
  - rewrite (Z.mod_small (head q - tail q)) by lia. destruct (Z.eq_dec (head q) 63) as [E|E].
    + rewrite E. change ((63 + 1) mod 64) with 0. destruct (Z.eqb_spec 0 (tail q)), (Z.eqb_spec (63 - tail q) (64 - 1)); lia || done.
    + rewrite (Z.mod_small (head q + 1)) by lia. destruct (Z.eqb_spec (head q + 1) (tail q)), (Z.eqb_spec (head q - tail q) (64 - 1)); lia || done.
Qed.

(** The queue after a byte has been taken, and after one has been put in. *)
Definition popped (q : intq) : intq := mkQ (q_lock q) (not_full q) (not_empty q) (buf q) (head q) (next (tail q)).
Definition pushed (b : Z) (q : intq) : intq :=
  mkQ (q_lock q) (not_full q) (not_empty q) (<[Z.to_nat (head q) := b]> (buf q)) (next (head q)) (tail q).

Lemma popped_ok q : q_ok q -> q_ok (popped q).
Proof. intros [H1 H2 H3]. split; [done|done|]. by apply next_run. Qed.

Lemma pushed_ok b q : q_ok q -> q_ok (pushed b q).
Proof. intros [H1 H2 H3]. split; [cbn; by rewrite length_insert| |done]. by apply next_run. Qed.

Lemma popped_contents q : q_ok q -> count q <> 0 -> contents q = slot q 0 :: contents (popped q).
Proof.
  intros Hq Hc. pose proof (count_range q) as Hr. pose proof (qo_tail _ Hq) as Ht. destruct (next_run _ Ht) as [Hn _].
  assert (count (popped q) = count q - 1) as Hcp.
  { unfold count at 1. cbn [popped head tail]. rewrite Hn, Zminus_mod_idemp_r. replace (head q - (tail q + 1)) with (head q - tail q - 1) by lia.
    rewrite <- Zminus_mod_idemp_l. fold (count q). apply Z.mod_small. lia. }
  unfold contents. rewrite Hcp. replace (count q) with (1 + (count q - 1)) at 1 by lia. rewrite seqZ_app by lia. rewrite fmap_app. cbn [seqZ fmap list_fmap app Z.add].
  f_equal. apply list_eq. intros n. rewrite !list_lookup_fmap.
  destruct (decide (Z.of_nat n < count q - 1)).
  - rewrite !lookup_seqZ_lt by lia. cbn. f_equal. unfold slot. cbn [popped tail buf]. rewrite Hn, Zplus_mod_idemp_l. do 3 f_equal. f_equal. lia.
  - by rewrite !lookup_seqZ_ge by lia.
Qed.

Lemma pushed_contents b q : q_ok q -> count q <> INTQ_BUFSIZE - 1 -> contents (pushed b q) = contents q ++ [b].
Proof.
  intros Hq Hc. pose proof (count_range q) as Hr. destruct Hq as [Hb Hh Ht]. destruct (next_run _ Hh) as [Hn _].
  assert (count (pushed b q) = count q + 1) as Hcp.
  { unfold count at 1. cbn [pushed head tail]. rewrite Hn, Zminus_mod_idemp_l. replace (head q + 1 - tail q) with (head q - tail q + 1) by lia.
    rewrite <- Zplus_mod_idemp_l. fold (count q). apply Z.mod_small. lia. }
  assert (forall i, 0 <= i <= count q -> slot (pushed b q) i = if decide (i = count q) then b else slot q i) as Hs.
  { intros i Hi. unfold slot. cbn [pushed tail buf]. assert ((tail q + count q) mod INTQ_BUFSIZE = head q) as Hend.
    { unfold count. rewrite Zplus_mod_idemp_r. replace (tail q + (head q - tail q)) with (head q) by lia. by apply Z.mod_small. }
    pose proof (Z.mod_pos_bound (tail q + i) INTQ_BUFSIZE ltac:(unfold INTQ_BUFSIZE; lia)) as Hm. case_decide as E.
    - rewrite E, Hend, list_lookup_insert_eq by lia. done.
    - rewrite list_lookup_insert_ne; [done|]. intros Eq. apply E. assert ((tail q + i) mod INTQ_BUFSIZE = (tail q + count q) mod INTQ_BUFSIZE) as Em by lia.
      assert ((count q - i) mod INTQ_BUFSIZE = 0) as Ez.
      { replace (count q - i) with (tail q + count q - (tail q + i)) by lia. rewrite Zminus_mod, Em, Z.sub_diag. done. }
      rewrite Z.mod_small in Ez by lia. lia. }
  unfold contents. rewrite Hcp, seqZ_app by lia. rewrite fmap_app. cbn [seqZ Z.add]. f_equal.
  - apply list_eq. intros n. rewrite !list_lookup_fmap. destruct (decide (Z.of_nat n < count q)).
    + rewrite !lookup_seqZ_lt by lia. cbn. rewrite Hs by lia. by rewrite decide_False by lia.
    + by rewrite !lookup_seqZ_ge by lia.
  - rewrite seqZ_cons by lia. change (seqZ (Z.succ (count q)) (Z.pred 1)) with (@nil Z). cbn [fmap list_fmap]. rewrite Hs by lia. by rewrite decide_True.
Qed.

(** * First in, first out *)

(** The bytes of the queue and its lock, without the waiters. *)
Definition ring (q : intq) : Z * list Z * Z * Z := (q_lock q, buf q, head q, tail q).

Lemma ring_contents q q' : ring q' = ring q -> contents q' = contents q.
Proof. unfold ring. intros [= E1 E2 E3 E4]. unfold contents, count, slot. by rewrite E2, E3, E4. Qed.

Lemma ring_ok q q' : ring q' = ring q -> q_ok q -> q_ok q'.
Proof. unfold ring. intros [= E1 E2 E3 E4] [H1 H2 H3]. split; by rewrite ?E2, ?E3, ?E4. Qed.

Lemma liftk_inv {A} (c : kM A) s a s' : liftk c s = Ok (a, s') -> exists k', c s.1 = Ok (a, k') /\ s' = (k', s.2).
Proof. unfold liftk. destruct (c s.1) as [[a' k']|]; [|done]. intros [= <- <-]. by exists k'. Qed.

Lemma interrupts_off_inv s a s' : interrupts_off s = Ok (a, s') -> s' = s /\ intr_on s.1 = false.
Proof.
  unfold interrupts_off. intros (on & s1 & (k1 & [= <- <-] & ->)%liftk_inv & [H ->]%assert_inv)%run_bind_inv.
  split; [by destruct s|]. by apply negb_true_iff.
Qed.

Lemma condition_inv w s b s' : condition w s = Ok (b, s') ->
  s' = s /\ b = negb (match w with NotEmpty => head s.2 =? tail s.2 | NotFull => next (head s.2) =? tail s.2 end).
Proof.
  destruct w; unfold condition, intq_full, intq_empty; intros (x & s1 & ([] & s2 & [-> _]%interrupts_off_inv & E)%run_bind_inv & [= <- <-])%run_bind_inv;
    by injection E as <- <-.
Qed.

Lemma signal_inv w s a s' : signal w s = Ok (a, s') -> ring s'.2 = ring s.2.
Proof.
  unfold signal. intros ([] & s1 & [-> _]%interrupts_off_inv & E)%run_bind_inv. apply run_bind_inv in E as (c & s1 & [-> _]%condition_inv & E).
  apply run_bind_inv in E as ([] & s1 & [_ ->]%assert_inv & E). apply run_bind_inv in E as (q & s1 & [= <- <-] & E).
  destruct (negb _); [|by injection E as _ <-]. apply run_bind_inv in E as ([] & s1 & (k' & _ & ->)%liftk_inv & E).
  apply run_bind_inv in E as (q & s2 & [= <- <-] & E). injection E as _ <-. by destruct w.
Qed.

Lemma wait_inv w s a s' : wait w s = Ok (a, s') -> ring s'.2 = ring s.2.
Proof.
  unfold wait, not_in_interrupt. intros ([] & s1 & (x & s0 & (k0 & [= <- <-] & ->)%liftk_inv & [_ ->]%assert_inv)%run_bind_inv & E)%run_bind_inv.
  apply run_bind_inv in E as ([] & s1 & [-> _]%interrupts_off_inv & E).
  apply run_bind_inv in E as (c & s1 & [-> _]%condition_inv & E). apply run_bind_inv in E as ([] & s1 & [_ ->]%assert_inv & E).
  apply run_bind_inv in E as (t & s1 & (k1 & _ & ->)%liftk_inv & E). apply run_bind_inv in E as (q & s1 & [= <- <-] & E).
  apply run_bind_inv in E as ([] & s1 & [= <-] & E). apply liftk_inv in E as (k2 & _ & ->). by destruct w.
Qed.

Lemma putc_inv b s cs s' : q_ok s.2 -> intq_putc b s = Ok (cs, s') ->
  (count s.2 = INTQ_BUFSIZE - 1 /\ cs = wait_cmds (q_lock s.2) NotFull (QPutc b) /\ s'.2 = s.2) \/
  (count s.2 <> INTQ_BUFSIZE - 1 /\ cs = [] /\ ring s'.2 = ring (pushed b s.2)).
Proof.
  intros Hq. unfold intq_putc, intq_full. intros (f & s1 & ([] & s0 & [-> _]%interrupts_off_inv & [= <- <-])%run_bind_inv & E)%run_bind_inv.
  rewrite full_count in E by done. destruct (Z.eqb_spec (count s.2) (INTQ_BUFSIZE - 1)) as [Hc|Hc]; [left|right].
  - apply run_bind_inv in E as ([] & s1 & (x & s0 & (k0 & [= <- <-] & ->)%liftk_inv & [_ ->]%assert_inv)%run_bind_inv & E).
    apply run_bind_inv in E as (q & s1 & [= <- <-] & [= <- <-]). done.
  - apply run_bind_inv in E as (q & s1 & [= <- <-] & E). apply run_bind_inv in E as ([] & s1 & [= <-] & E).
    apply run_bind_inv in E as ([] & s1 & H%signal_inv & [= <- <-]). done.
Qed.

Lemma getc_inv s r s' : q_ok s.2 -> intq_getc s = Ok (r, s') ->
  (count s.2 = 0 /\ r = inr (wait_cmds (q_lock s.2) NotEmpty QGetc) /\ s'.2 = s.2) \/
  (count s.2 <> 0 /\ r = inl (slot s.2 0) /\ ring s'.2 = ring (popped s.2)).
Proof.
  intros Hq. unfold intq_getc, intq_empty. intros (f & s1 & ([] & s0 & [-> _]%interrupts_off_inv & [= <- <-])%run_bind_inv & E)%run_bind_inv.
  rewrite empty_count in E by done. destruct (Z.eqb_spec (count s.2) 0) as [Hc|Hc]; [left|right].
  - apply run_bind_inv in E as ([] & s1 & (x & s0 & (k0 & [= <- <-] & ->)%liftk_inv & [_ ->]%assert_inv)%run_bind_inv & E).
    apply run_bind_inv in E as (q & s1 & [= <- <-] & [= <- <-]). done.
  - apply run_bind_inv in E as (q & s1 & [= <- <-] & E). apply run_bind_inv in E as ([] & s1 & [= <-] & E).
    apply run_bind_inv in E as ([] & s1 & H%signal_inv & [= <- <-]). split; [done|]. split; [|done].
    unfold slot. rewrite Z.add_0_r, Z.mod_small by apply Hq. done.
Qed.

(** Any sequence of bytes put in and taken out, by threads and by interrupt handlers; in between threads wait for the
    queue, and the kernel does anything that leaves the queue alone. *)
Inductive queue_run : list Z -> list Z -> kstate * intq -> Prop :=
| run_init l k q s : Zlen (buf q) = INTQ_BUFSIZE -> intq_init l (k, q) = Ok (tt, s) -> queue_run [] [] s
| run_put put got s b s' : queue_run put got s -> intq_putc b s = Ok ([], s') -> queue_run (put ++ [b]) got s'
| run_get put got s b s' : queue_run put got s -> intq_getc s = Ok (inl b, s') -> queue_run put (got ++ [b]) s'
| run_wait put got s w s' : queue_run put got s -> wait w s = Ok (tt, s') -> queue_run put got s'
| run_kernel put got k q k' : queue_run put got (k, q) -> queue_run put got (k', q).

(** Interrupt queues are first in, first out.  In every run, the bytes taken out so far, followed by the bytes in the queue,
    are the bytes put in, in their order; the queue has at most 63 bytes, and neither index leaves the buffer. *)
Theorem intq_fifo put got s :
  queue_run put got s -> q_ok s.2 /\ put = got ++ contents s.2 /\ Zlen (contents s.2) < INTQ_BUFSIZE.
Proof.
  intros H. assert (q_ok s.2 /\ put = got ++ contents s.2) as [H1 H2].
  { induction H as [l k q s Hb E|put got s b s' _ [Hq IH] E|put got s b s' _ [Hq IH] E|put got s w s' _ [Hq IH] E|put got k q k' _ IH].
    - unfold intq_init in E. apply run_bind_inv in E as ([] & s1 & (k1 & _ & ->)%liftk_inv & E). apply run_bind_inv in E as (q' & s2 & [= <- <-] & [= <-]).
      cbn. split; [|done]. split; unfold INTQ_BUFSIZE; cbn; lia || done.
    - destruct (putc_inv b s [] s' Hq E) as [(_ & Hw & _)|(Hc & _ & Hr)]; [done|]. split; [by eapply ring_ok, pushed_ok|].
      rewrite (ring_contents _ _ Hr), pushed_contents, IH by done. by rewrite app_assoc.
    - destruct (getc_inv s _ s' Hq E) as [(_ & Hw & _)|(Hc & [= ->] & Hr)]; [done|]. split; [by eapply ring_ok, popped_ok|].
      rewrite (ring_contents _ _ Hr), IH, (popped_contents s.2) by done. by rewrite <- app_assoc.
    - apply wait_inv in E. split; [by eapply ring_ok|]. by rewrite (ring_contents _ _ E).
    - exact IH. }
  split; [done|]. split; [done|]. rewrite contents_length. apply count_range.
Qed.

(** The state behind a routine that succeeds. *)
Definition after {A} (r : res (A * (kstate * intq))) : kstate * intq :=
  match r with Ok (_, s) => s | Err _ => (zero_k, mkQ 0 0 0 [] 0 0) end.

Definition demo_q0 : kstate * intq := after (intq_init 80 (set_intr_on false (fst boot), mkQ 0 0 0 (replicate 64 0) 0 0)).
Definition demo_q1 : kstate * intq := after (intq_putc 65 demo_q0).
Definition demo_q2 : kstate * intq := after (intq_putc 66 demo_q1).
Definition demo_q3 : kstate * intq := after (intq_getc demo_q2).

Lemma intq_fifo_witness : queue_run [65; 66] [65] demo_q3 /\ [65; 66] = [65] ++ contents demo_q3.2.
Proof.
  assert (queue_run [65; 66] [65] demo_q3) as H; [|split; [exact H|apply (intq_fifo _ _ _ H)]].
  apply (run_get [65; 66] [] demo_q2 65); [|by vm_compute]. apply (run_put [65] [] demo_q1 66); [|by vm_compute].
  apply (run_put [] [] demo_q0 65); [|by vm_compute].
  apply (run_init 80 (set_intr_on false (fst boot)) (mkQ 0 0 0 (replicate 64 0) 0 0)); [reflexivity|by vm_compute].
Defined.

(** * Waiting *)

(** Waking a blocked thread, with interrupts off. *)
Definition woken (t : Z) (th : thread) (k : kstate) : kstate :=
  set_threads (<[t := set_status THREAD_READY th]> (threads k))
    (set_ready_threads (s32 (ready_threads k + 1)) (set_ready_list (unblock_insert k t (ready_list k)) k)).

Lemma thread_unblock_run k t th :
  intr_on k = false -> t <> NULL -> threads k !! t = Some th -> status th = THREAD_BLOCKED -> thread_unblock t k = Ok (tt, woken t th k).
Proof.
  intros Hoff Hn Ht Hs. unfold thread_unblock. rewrite (run_bind _ _ _ k k) by done.
  rewrite (run_bind _ _ _ tt k).
  2:{ apply run_assert. unfold is_thread. rewrite (proj2 (Z.eqb_neq _ _)) by done. rewrite bool_decide_eq_true_2; [done|]. by exists th. }
  assert (set_intr_on false k = k) as Hk by (destruct k; cbn in *; by subst).
  rewrite (run_bind _ _ _ false k) by (unfold intr_disable, gets, modify, mbind, st_bind; by rewrite Hoff, Hk).
  rewrite (run_bind _ _ _ th k) by (unfold get_thread; by rewrite Ht).
  rewrite (run_bind _ _ _ tt k) by (apply run_assert; by rewrite bool_decide_eq_true_2).
  rewrite (run_bind _ _ _ (ready_list k) k) by done. set (k1 := set_ready_list (unblock_insert k t (ready_list k)) k).
  rewrite (run_bind _ _ _ tt k1) by done. rewrite (run_bind _ _ _ (ready_threads k) k1) by done.
  set (k2 := set_ready_threads (s32 (ready_threads k + 1)) k1). rewrite (run_bind _ _ _ tt k2) by done.
  rewrite (run_bind _ _ _ tt (woken t th k)) by (unfold upd_thread; change (threads k2) with (threads k); by rewrite Ht).
  unfold intr_set_level, intr_disable, gets, modify, mbind, st_bind. unfold mret, st_ret. do 2 f_equal. destruct k; cbn in *. by subst.
Qed.

(** A thread that waits for the queue is blocked. *)
Definition blocked (k : kstate) (t : Z) : Prop := exists th, threads k !! t = Some th /\ status th = THREAD_BLOCKED.

Lemma interrupts_off_run s : intr_on s.1 = false -> interrupts_off s = Ok (tt, s).
Proof. intros H. unfold interrupts_off, liftk, gets, mbind, st_bind. destruct s as [k q]. cbn in *. by rewrite H. Qed.

Lemma empty_run s : intr_on s.1 = false -> q_ok s.2 -> intq_empty s = Ok (count s.2 =? 0, s).
Proof.
  intros H Hq. unfold intq_empty. rewrite (run_bind _ _ _ tt s) by (by apply interrupts_off_run).
  rewrite (run_bind _ _ _ s.2 s) by done. by rewrite empty_count.
Qed.

Lemma full_run s : intr_on s.1 = false -> q_ok s.2 -> intq_full s = Ok (count s.2 =? INTQ_BUFSIZE - 1, s).
Proof.
  intros H Hq. unfold intq_full. rewrite (run_bind _ _ _ tt s) by (by apply interrupts_off_run).
  rewrite (run_bind _ _ _ s.2 s) by done. by rewrite full_count.
Qed.

Lemma condition_run w s : intr_on s.1 = false -> q_ok s.2 ->
  condition w s = Ok (negb (count s.2 =? match w with NotEmpty => 0 | NotFull => INTQ_BUFSIZE - 1 end), s).
Proof.
  intros H Hq. destruct w; unfold condition.
  - by rewrite (run_bind _ _ _ _ _ (full_run s H Hq)).
  - by rewrite (run_bind _ _ _ _ _ (empty_run s H Hq)).
Qed.

(** [signal] wakes the thread that waits, if there is one. *)
Lemma signal_run w k q :
  intr_on k = false -> q_ok q -> count q <> match w with NotEmpty => 0 | NotFull => INTQ_BUFSIZE - 1 end ->
  (waiter_of w q = NULL -> signal w (k, q) = Ok (tt, (k, q))) /\
  (forall th, waiter_of w q <> NULL -> threads k !! waiter_of w q = Some th -> status th = THREAD_BLOCKED ->
     signal w (k, q) = Ok (tt, (woken (waiter_of w q) th k, set_waiter w NULL q))).
Proof.
  intros Hoff Hq Hc. apply Z.eqb_neq in Hc. unfold signal.
  assert (forall (f : qM unit), (interrupts_off;; c ← condition w; assert c;; f) (k, q) = f (k, q)) as Hpre.
  { intros f. rewrite (run_bind _ _ _ tt (k, q)) by (by apply interrupts_off_run). rewrite (run_bind _ _ _ _ _ (condition_run w (k, q) Hoff Hq)).
    cbn [snd]. rewrite Hc. cbn [negb]. by rewrite (run_bind _ _ _ tt (k, q)) by done. }
  rewrite !Hpre. split.
  - intros Hn. rewrite (run_bind _ _ _ q (k, q)) by done. by rewrite Hn.
  - intros th Hn Hth Hs. rewrite (run_bind _ _ _ q (k, q)) by done. rewrite (proj2 (Z.eqb_neq _ _)) by done. cbn [negb].
    rewrite (run_bind _ _ _ tt (woken (waiter_of w q) th k, q)); [done|]. unfold liftk. cbn [fst snd]. by rewrite (thread_unblock_run k _ th).
Qed.

(** A byte is taken, and a writer that waits for room is woken. *)
Lemma getc_run k q :
  intr_on k = false -> q_ok q -> count q <> 0 -> (not_full q <> NULL -> blocked k (not_full q)) ->
  exists k' q', intq_getc (k, q) = Ok (inl (slot q 0), (k', q')) /\ ring q' = ring (popped q) /\ not_full q' = NULL /\ not_empty q' = not_empty q.
Proof.
  intros Hoff Hq Hc Hw. pose proof (count_range q) as Hr. unfold intq_getc. rewrite (run_bind _ _ _ _ _ (empty_run (k, q) Hoff Hq)). cbn [snd].
  rewrite (proj2 (Z.eqb_neq _ _)) by done. rewrite (run_bind _ _ _ q (k, q)) by done. rewrite (run_bind _ _ _ tt (k, popped q)) by done.
  assert (default 0 (buf q !! Z.to_nat (tail q)) = slot q 0) as -> by (unfold slot; rewrite Z.add_0_r, Z.mod_small by apply Hq; done).
  pose proof (popped_contents q Hq Hc) as Hp. apply (f_equal length) in Hp. cbn [length] in Hp.
  pose proof (contents_length q). pose proof (contents_length (popped q)).
  destruct (signal_run NotFull k (popped q) Hoff (popped_ok q Hq)) as [S1 S2]; [lia|]. cbn [waiter_of popped not_full] in S1, S2.
  destruct (decide (not_full q = NULL)) as [Hn|Hn].
  - exists k, (popped q). split; [|done]. by rewrite (run_bind _ _ _ _ _ (S1 Hn)).
  - destruct (Hw Hn) as (th & Hth & Hs). eexists _, _. split; [by rewrite (run_bind _ _ _ _ _ (S2 th Hn Hth Hs))|]. done.
Qed.

(** What may happen from one state to another while nobody takes a byte: the bytes of the list are put in, writers wait
    for room, and the kernel does anything that leaves the queue alone. *)
Inductive meanwhile (s : kstate * intq) : list Z -> kstate * intq -> Prop :=
| mw_start : meanwhile s [] s
| mw_put bs s1 b s' : meanwhile s bs s1 -> intq_putc b s1 = Ok ([], s') -> meanwhile s (bs ++ [b]) s'
| mw_wait bs s1 w s' : meanwhile s bs s1 -> wait w s1 = Ok (tt, s') -> meanwhile s bs s'
| mw_kernel bs k q k' : meanwhile s bs (k, q) -> meanwhile s bs (k', q).

Lemma meanwhile_contents s bs s' : meanwhile s bs s' -> q_ok s.2 -> q_ok s'.2 /\ contents s'.2 = contents s.2 ++ bs.
Proof.
  intros H Hq. induction H as [|bs s1 b s' _ [Hq1 IH] E|bs s1 w s' _ [Hq1 IH] E|bs k q k' _ IH].
  - by rewrite app_nil_r.
  - destruct (putc_inv b s1 [] s' Hq1 E) as [(_ & Hw & _)|(Hc & _ & Hr)]; [done|]. split; [by eapply ring_ok, pushed_ok|].
    rewrite (ring_contents _ _ Hr), pushed_contents, IH by done. by rewrite app_assoc.
  - apply wait_inv in E. split; [by eapply ring_ok|]. by rewrite (ring_contents _ _ E).
  - exact IH.
Qed.

(** C29: A byte that arrives wakes the thread that waits for it.  When a thread is blocked in [intq_getc] on an empty queue, and a byte
    is put in, by another thread or in an interrupt handler, then the thread is made ready and entered in the ready list, which
    stays consistent, and nothing refers to it as a waiter any more; and whatever happens until the thread looks at the queue again,
    further bytes and writers that wait for room included, if no one else takes a byte, its [intq_getc] returns the byte, and
    leaves those that came after it. *)
Theorem intq_wakeup k q b :
  intr_on k = false -> sched_inv k -> q_ok q -> contents q = [] -> not_empty q <> NULL -> blocked k (not_empty q) -> not_full q = NULL ->
  exists k' q', intq_putc b (k, q) = Ok ([], (k', q')) /\ sched_inv k' /\ not_empty q' = NULL /\
    stat k' !! not_empty q = Some THREAD_READY /\ not_empty q ∈ ready_list k' /\
    forall bs k2 q2, meanwhile (k', q') bs (k2, q2) -> intr_on k2 = false -> (not_full q2 <> NULL -> blocked k2 (not_full q2)) ->
      exists k3 q3, intq_getc (k2, q2) = Ok (inl b, (k3, q3)) /\ contents q3 = bs.
Proof.
  intros Hoff Hi Hq He Hn (th & Hth & Hs) Hnf. pose proof (contents_length q) as Hc. rewrite He in Hc. cbn [length] in Hc.
  set (q1 := pushed b q). pose proof (pushed_ok b q Hq) as Hq1. fold q1 in Hq1.
  pose proof (pushed_contents b q Hq ltac:(unfold INTQ_BUFSIZE; lia)) as Hp. fold q1 in Hp. rewrite He in Hp. cbn [app] in Hp.
  pose proof (contents_length q1) as Hc1. rewrite Hp in Hc1. cbn [length] in Hc1.
  destruct (signal_run NotEmpty k q1 Hoff Hq1) as [_ S2]; [lia|]. specialize (S2 th Hn Hth Hs). cbn [waiter_of q1 pushed not_empty] in S2.
  set (t := not_empty q) in *. set (k' := woken t th k) in *. set (q' := set_waiter NotEmpty NULL q1) in *.
  assert (ring q' = ring q1) as Hring by done. pose proof (ring_ok _ _ Hring Hq1) as Hq'.
  destruct (thread_unblock_inv t k tt k' (thread_unblock_run k t th Hoff Hn Hth Hs) Hi) as (Hi' & _ & _ & Hready).
  exists k', q'. split; [|split; [done|split; [done|split; [|split]]]].
  - unfold intq_putc. rewrite (run_bind _ _ _ _ _ (full_run (k, q) Hoff Hq)). cbn [snd]. rewrite (proj2 (Z.eqb_neq _ _)) by (unfold INTQ_BUFSIZE; lia).
    rewrite (run_bind _ _ _ q (k, q)) by done. rewrite (run_bind _ _ _ tt (k, q1)) by done. fold t. by rewrite (run_bind _ _ _ _ _ S2).
  - unfold stat, k', woken. cbn [threads set_threads]. rewrite lookup_fmap, lookup_insert_eq. done.
  - rewrite Hready. rewrite unblock_insert_perm. apply list_elem_of_here.
  - intros bs k2 q2 Hm Hoff2 Hw. destruct (meanwhile_contents _ _ _ Hm Hq') as [Hq2 Hc2]. cbn [snd] in Hq2, Hc2.
    rewrite (ring_contents _ _ Hring), Hp in Hc2. cbn [app] in Hc2.
    assert (count q2 <> 0) as Hne by (rewrite <- contents_length, Hc2; cbn [length]; lia).
    destruct (getc_run k2 q2 Hoff2 Hq2 Hne Hw) as (k3 & q3 & E & Hr3 & _).
    exists k3, q3. rewrite (popped_contents q2 Hq2 Hne) in Hc2. injection Hc2 as Hb Hrest.
    split; [by rewrite E, Hb|]. by rewrite (ring_contents _ _ Hr3).
Qed.

(** The main thread of [sleepers] as the thread that waits. *)
Definition demo_waiting : intq := mkQ 80 NULL 4096 (replicate 64 0) 63 63.

Lemma intq_wakeup_witness :
  let k := fst (default boot (acts sleepers boot)) in
  exists k' q', intq_putc 65 (k, demo_waiting) = Ok ([], (k', q')) /\ stat k' !! 4096 = Some THREAD_READY /\
    exists k3 q3, intq_getc (after (intq_putc 66 (k', q'))) = Ok (inl 65, (k3, q3)) /\ contents q3 = [66].
Proof.
  intros k. destruct (intq_wakeup k demo_waiting 65) as (k' & q' & E & _ & _ & Hs & _ & Hg).
  - by vm_compute.
  - apply sleepers_inv.
  - split; [reflexivity|cbn; unfold INTQ_BUFSIZE; lia|cbn; unfold INTQ_BUFSIZE; lia].
  - reflexivity.
  - cbn. unfold NULL. lia.
  - eexists. split; [by vm_compute|by vm_compute].
  - reflexivity.
  - exists k', q'. split; [exact E|]. split; [exact Hs|].
    assert ((k', q') = after (intq_putc 65 (k, demo_waiting))) as Ea by (by rewrite E).
    rewrite Ea in *. clear E Hs. set (s2 := after (intq_putc 66 _)).
    destruct (Hg [66] s2.1 s2.2) as (k3 & q3 & H1 & H2).
    + rewrite <- surjective_pairing. apply (mw_put _ [] _ 66 _ (mw_start _)). by vm_compute.
    + by vm_compute.
    + intros H. destruct H. by vm_compute.
    + exists k3, q3. rewrite <- surjective_pairing in H1. by split.
Defined.

(** * Two readers *)

Definition qexec (c : qcmd) : qM (list qcmd) :=
  match c with
  | QKernel c => cs ← liftk (exec c); mret (QKernel <$> cs)
  | QWait w => wait w;; mret []
  | QGetc => r ← intq_getc; mret (match r with inl _ => [] | inr cs => cs end)
  | QPutc b => intq_putc b
  end.

(** The handler of an interrupt that puts a byte in the queue. *)
Definition handler_putc (b : Z) : qM (list qcmd) :=
  on ← liftk (gets intr_on);
  liftk (modify (set_intr_on false));;
  liftk (modify (set_in_external_intr true));;
  cs ← intq_putc b;
  liftk (modify (set_in_external_intr false));;
  mret (cs ++ [QKernel (CSetLevel on)]).

Abbreviation qmachine := ((kstate * intq) * gmap Z (list qcmd))%type.

(** Whether a thread is in its own code. *)
Definition own_code (cs : list qcmd) : bool := match cs with [] | [QKernel CExit] => true | _ => false end.

(** The running thread goes on with what it has to do, calls a routine of the kernel, calls [intq_getc] with interrupts off as [input_getc] does, or is
    interrupted by a device that has a byte. *)
Inductive qstep : qmachine -> qmachine -> Prop :=
| qstep_exec s code c cs cs' s' :
    code !! cur s.1 = Some (c :: cs) -> qexec c s = Ok (cs', s') -> qstep (s, code) (s', <[cur s.1 := cs' ++ cs]> code)
| qstep_call s code c cs :
    code !! cur s.1 = Some cs -> own_code cs = true -> callable c = true -> qstep (s, code) (s, <[cur s.1 := QKernel c :: cs]> code)
| qstep_getc s code cs :
    code !! cur s.1 = Some cs -> own_code cs = true ->
    qstep (s, code) (s, <[cur s.1 := QKernel (CSetLevel false) :: QGetc :: QKernel (CSetLevel true) :: cs]> code)
| qstep_intr s code b cs cs' s' :
    code !! cur s.1 = Some cs -> intr_on s.1 = true -> handler_putc b s = Ok (cs', s') -> qstep (s, code) (s', <[cur s.1 := cs' ++ cs]> code).

Inductive qaction := QaExec | QaCall (c : cmd) | QaGetc | QaIntr (b : Z).

Definition qact (a : qaction) (m : qmachine) : option qmachine :=
  let '(s, code) := m in
  cs ← code !! cur s.1;
  match a with
  | QaExec =>
      match cs with
      | [] => None
      | c :: cs => match qexec c s with Ok (cs', s') => Some (s', <[cur s.1 := cs' ++ cs]> code) | Err _ => None end
      end
  | QaCall c => if own_code cs && callable c then Some (s, <[cur s.1 := QKernel c :: cs]> code) else None
  | QaGetc => if own_code cs then Some (s, <[cur s.1 := QKernel (CSetLevel false) :: QGetc :: QKernel (CSetLevel true) :: cs]> code) else None
  | QaIntr b =>
      if intr_on s.1 then match handler_putc b s with Ok (cs', s') => Some (s', <[cur s.1 := cs' ++ cs]> code) | Err _ => None end else None
  end.

Fixpoint qacts (l : list qaction) (m : qmachine) : option qmachine :=
  match l with [] => Some m | a :: l => m' ← qact a m; qacts l m' end.

Lemma qact_step a m m' : qact a m = Some m' -> qstep m m'.
Proof.
  destruct m as [s code]. unfold qact. destruct (code !! cur s.1) as [cs|] eqn:Hc; [|done]. cbn [mbind option_bind]. destruct a.
  - destruct cs as [|c cs]; [done|]. destruct (qexec c s) as [[cs' s']|] eqn:E; [|done]. intros [= <-]. by eapply qstep_exec.
  - destruct (own_code cs && callable c) eqn:E; [|done]. apply andb_true_iff in E as [E1 E2]. intros [= <-]. by eapply qstep_call.
  - destruct (own_code cs) eqn:E; [|done]. intros [= <-]. by eapply qstep_getc.
  - destruct (intr_on s.1) eqn:Hi; [|done]. destruct (handler_putc b s) as [[cs' s']|] eqn:E; [|done]. intros [= <-]. by eapply qstep_intr.
Qed.

Lemma qacts_step l : forall m m', qacts l m = Some m' -> rtc qstep m m'.
Proof.
  induction l as [|a l IH]; intros m m'; [by intros [= <-]|]. cbn. destruct (qact a m) as [m1|] eqn:E; [|done]. intros H.
  eapply rtc_l; [by eapply qact_step|by apply IH].
Qed.

(** Two threads of priority 31 next to the main thread, which has dropped to 10: all are in their own code, or about to return
    to it. *)
Definition two_threads : machine :=
  default boot (acts (create 31 8192 500 ++ create 31 12288 508 ++ [ACall (CSetPriority 10 0); AExec; AExec]) boot).

Definition readers_start : qmachine :=
  (after (intq_init 80 (fst two_threads, mkQ 0 0 0 (replicate 64 0) 0 0)), (fmap (M := gmap Z) (map QKernel) (snd two_threads : gmap Z (list cmd)))).

Definition two_readers : list qaction :=
  [QaExec; QaGetc; QaExec; QaExec; QaExec; QaExec; QaExec; QaExec; QaExec;  (* a thread takes the lock and waits *)
   QaExec; QaGetc; QaExec; QaExec; QaExec; QaExec; QaExec;                  (* the other one waits for the lock *)
   QaExec; QaIntr 65; QaExec; QaCall CYield; QaExec;                        (* a byte wakes the first one, *)
   QaExec; QaExec; QaExec;                                                  (* which releases the lock and yields to the other *)
   QaExec; QaExec].                                                         (* before it takes the byte *)

(** Two threads that read from a queue at once stop the kernel: the second one waits for the lock inside of [intq_getc]; when
    it gets it, the queue is not empty any more, and [wait] asserts that it is. *)
Theorem two_readers_fail :
  exists s code cs, rtc qstep readers_start (s, code) /\ code !! cur s.1 = Some (QWait NotEmpty :: cs) /\
    q_ok s.2 /\ contents s.2 = [65] /\ qexec (QWait NotEmpty) s = Err EAssert.
Proof.
  pose (m := default readers_start (qacts two_readers readers_start)).
  exists (fst m), (snd m). eexists. split; [apply (qacts_step two_readers); by vm_compute|]. split; [by vm_compute|].
  split; [by split; vm_compute|]. split; by vm_compute.
Qed.
