(* ===== verification/Ports.v ===== *)
(** Port input and output, threads/io.h: what the drivers see of the hardware.  The
    hardware is a parameter, a function from the history of the accesses and a port to
    the value that is read there. *)
From Stdlib Require Import ZArith Lia.
From stdpp Require Import base numbers gmap list.
From S2P Require Import Prelude.
From S2P Require Import Thread.

Local Open Scope Z_scope.

Inductive io_event :=
| IoIn (port value : Z)
| IoOut (port value : Z)
| IoWait (** the thread sleeps until an interrupt wakes it *).

#[export] Instance io_event_eq_dec : EqDecision io_event.
Proof. solve_decision. Defined.

(** The history, the last access first. *)
Abbreviation history := (list io_event).

Section ports.
Context (hw : history -> Z -> Z) {S : Type}.

(** The state of a driver with the history of its accesses. *)
Abbreviation pM := (st (S * history)).

Definition inb (port : Z) : pM Z := fun s =>
  let v := u8 (hw s.2 port) in Ok (v, (s.1, IoIn port v :: s.2)).
Definition inw (port : Z) : pM Z := fun s =>
  let v := u16 (hw s.2 port) in Ok (v, (s.1, IoIn port v :: s.2)).
Definition outb (port data : Z) : pM unit := fun s => Ok (tt, (s.1, IoOut port (u8 data) :: s.2)).
Definition outw (port data : Z) : pM unit := fun s => Ok (tt, (s.1, IoOut port (u16 data) :: s.2)).
Definition wait_irq : pM unit := fun s => Ok (tt, (s.1, IoWait :: s.2)).

(** The rest of the state. *)
Definition getp {A} (f : S -> A) : pM A := fun s => Ok (f s.1, s).
Definition modifyp (f : S -> S) : pM unit := fun s => Ok (tt, (f s.1, s.2)).
End ports.

(** The values written to a port, the first one first. *)
Fixpoint written (port : Z) (h : history) : list Z :=
  match h with
  | [] => []
  | IoOut p v :: h => written port h ++ if p =? port then [v] else []
  | _ :: h => written port h
  end.

(** The values read from a port, the first one first. *)
Fixpoint received (port : Z) (h : history) : list Z :=
  match h with
  | [] => []
  | IoIn p v :: h => received port h ++ if p =? port then [v] else []
  | _ :: h => received port h
  end.

(** A routine that turned interrupts off restores the level. *)
Lemma level_restored k :
  (intr_on k = true -> in_external_intr k = false) -> intr_set_level (intr_on k) (set_intr_on false k) = Ok (false, k).
Proof.
  intros Hk. unfold intr_set_level. destruct (intr_on k) eqn:Hon.
  - unfold intr_enable, gets, modify, assert, mbind, st_bind. cbn [in_external_intr set_intr_on intr_on]. rewrite Hk by done. cbn. do 2 f_equal.
    destruct k; cbn in *. by subst.
  - unfold intr_disable, gets, modify, mbind, st_bind. cbn. do 2 f_equal. destruct k; cbn in *. by subst.
Qed.
