(* ===== verification/Serial.v ===== *)
(** The serial port and the input buffer: devices/serial.c and devices/input.c, over the
    interrupt queues of Intq.v and the ports of Ports.v. *)
From Stdlib Require Import ZArith Lia.
From stdpp Require Import base numbers sorting gmap list relations.
From S2P Require Import Prelude.
From S2P Require Import Thread.
From S2P Require Import Machine.
From S2P Require Import Sched.
From S2P Require Import Sleep.
From S2P Require Import Intq.
From S2P Require Import Ports.

Local Open Scope Z_scope.

(** * Registers of the 16550A *)

Definition IO_BASE : Z := 0x3f8.
Definition RBR_REG : Z := IO_BASE + 0.
Definition THR_REG : Z := IO_BASE + 0.
Definition IER_REG : Z := IO_BASE + 1.
Definition LS_REG : Z := IO_BASE + 0.
Definition MS_REG : Z := IO_BASE + 1.
Definition IIR_REG : Z := IO_BASE + 2.
Definition FCR_REG : Z := IO_BASE + 2.
Definition LCR_REG : Z := IO_BASE + 3.
Definition MCR_REG : Z := IO_BASE + 4.
Definition LSR_REG : Z := IO_BASE + 5.
Definition IER_RECV : Z := 0x01.
Definition IER_XMIT : Z := 0x02.
Definition LCR_N81 : Z := 0x03.
Definition LCR_DLAB : Z := 0x80.
Definition MCR_OUT2 : Z := 0x08.
Definition LSR_DR : Z := 0x01.
Definition LSR_THRE : Z := 0x20.

(** * The state *)

Inductive serial_mode := UNINIT | POLL | QUEUE.

#[export] Instance serial_mode_eq_dec : EqDecision serial_mode.
Proof. solve_decision. Defined.

(** The kernel, the mode and the transmit queue of serial.c and the buffer of input.c. *)
Record dev := mkDev {
  kern : kstate;
  mode : serial_mode;
  txq : intq;
  buffer : intq
}.

Definition set_kern (k : kstate) (d : dev) : dev := mkDev k (mode d) (txq d) (buffer d).
Definition set_mode (m : serial_mode) (d : dev) : dev := mkDev (kern d) m (txq d) (buffer d).

(** Which queue. *)
Inductive qname := TX | INPUT.

Definition queue (n : qname) (d : dev) : intq := match n with TX => txq d | INPUT => buffer d end.
Definition set_queue (n : qname) (q : intq) (d : dev) : dev :=
  match n with
  | TX => mkDev (kern d) (mode d) q (buffer d)
  | INPUT => mkDev (kern d) (mode d) (txq d) q
  end.

Abbreviation dM := (st (dev * history)).

Definition liftq {A} (n : qname) (c : st (kstate * intq) A) : dM A := fun s =>
  match c (kern s.1, queue n s.1) with
  | Ok (a, (k', q')) => Ok (a, (set_queue n q' (set_kern k' s.1), s.2))
  | Err e => Err e
  end.

Definition liftd {A} (c : kM A) : dM A := fun s =>
  match c (kern s.1) with
  | Ok (a, k') => Ok (a, (set_kern k' s.1, s.2))
  | Err e => Err e
  end.

Definition off : dM unit := on ← liftd (gets intr_on); assert (negb on).

(** What a routine that has to wait goes on with. *)
Inductive dcmd :=
| DQueue (n : qname) (c : qcmd)
| DWriteIer
| DNotify
| DLevel (on : bool).

(** Where the locks of the two queues are. *)
Definition txq_lock : Z := 96.
Definition input_lock : Z := 100.

Section serial.
(** The hardware, and how often a busy wait looks at the port. *)
Context (hw : history -> Z -> Z) (polls : nat).

(** ** Input buffer *)

Definition input_init : dM unit := liftq INPUT (intq_init input_lock).
Definition input_full : dM bool := off;; liftq INPUT intq_full.

(** ** Serial port *)

Definition set_serial (bps : Z) : dM unit :=
  let base_rate := 1843200 / 16 in
  let divisor := u16 (Z.quot base_rate bps) in
  assert ((300 <=? bps) && (bps <=? 115200));;
  outb LCR_REG (Z.lor LCR_N81 LCR_DLAB);;
  outb LS_REG (Z.land divisor 0xff);;
  outb MS_REG (Z.shiftr divisor 8);;
  outb LCR_REG LCR_N81.

Definition write_ier : dM unit :=
  off;;
  e ← liftq TX intq_empty;
  let ier := if negb e then IER_XMIT else 0 in
  f ← input_full;
  let ier := if negb f then Z.lor ier IER_RECV else ier in
  outb IER_REG ier.

Definition serial_notify : dM unit :=
  off;; m ← getp mode; if bool_decide (m = QUEUE) then write_ier else mret tt.

Definition putc_poll (byte : Z) : dM unit :=
  off;;
  loop polls (fun _ : unit => v ← inb hw LSR_REG; mret (if Z.land v LSR_THRE =? 0 then inl tt else inr tt)) tt;;
  outb THR_REG byte.

Definition init_poll : dM unit :=
  m ← getp mode; assert (bool_decide (m = UNINIT));;
  outb IER_REG 0;;
  outb FCR_REG 0;;
  set_serial 9600;;
  outb MCR_REG MCR_OUT2;;
  liftq TX (intq_init txq_lock);;
  modifyp (set_mode POLL).

(** [serial_init_queue], without the registration of the handler. *)
Definition serial_init_queue : dM unit :=
  m ← getp mode;
  (if bool_decide (m = UNINIT) then init_poll else mret tt);;
  m ← getp mode; assert (bool_decide (m = POLL));;
  modifyp (set_mode QUEUE);;
  old ← liftd intr_disable;
  write_ier;;
  liftd (intr_set_level old);; mret tt.

(** Taking a byte from a queue that has one. *)
Definition take_byte (n : qname) : dM Z :=
  r ← liftq n intq_getc;
  match r with inl b => mret b | inr _ => st_fail EUndef end.

Definition serial_putc (byte : Z) : dM (list dcmd) :=
  old ← liftd intr_disable;
  m ← getp mode;
  if negb (bool_decide (m = QUEUE)) then
    (if bool_decide (m = UNINIT) then init_poll else mret tt);;
    putc_poll byte;;
    liftd (intr_set_level old);; mret []
  else
    (if negb old then
       f ← liftq TX intq_full;
       if f : bool then b ← take_byte TX; putc_poll b else mret tt
     else mret tt);;
    cs ← liftq TX (intq_putc byte);
    match cs with
    | [] => write_ier;; liftd (intr_set_level old);; mret []
    | _ => mret ((DQueue TX <$> cs) ++ [DWriteIer; DLevel old])
    end.

(** One pass of the loop of [serial_flush]: it ends when the queue is empty. *)
Definition flush_body (_ : unit) : dM (unit + unit) :=
  e ← liftq TX intq_empty;
  if e : bool then mret (inr tt) else b ← take_byte TX; putc_poll b;; mret (inl tt).

Definition serial_flush : dM unit :=
  old ← liftd intr_disable;
  loop (Z.to_nat INTQ_BUFSIZE) flush_body tt;;
  liftd (intr_set_level old);; mret tt.

(** ** The routines of input.c that use the serial port *)

Definition input_putc (key : Z) : dM (list dcmd) :=
  off;;
  f ← liftq INPUT intq_full; assert (negb f);;
  cs ← liftq INPUT (intq_putc key);
  match cs with
  | [] => serial_notify;; mret []
  | _ => mret ((DQueue INPUT <$> cs) ++ [DNotify])
  end.

(** The key, or what is left to do to get one. *)
Definition input_getc : dM (Z + list dcmd) :=
  old ← liftd intr_disable;
  r ← liftq INPUT intq_getc;
  match r with
  | inl key => serial_notify;; liftd (intr_set_level old);; mret (inl key)
  | inr cs => mret (inr ((DQueue INPUT <$> cs) ++ [DNotify; DLevel old]))
  end.

(** ** The interrupt handler *)

Definition receive_body (_ : unit) : dM (unit + unit) :=
  f ← input_full;
  if f : bool then mret (inr tt) else
  v ← inb hw LSR_REG;
  if Z.land v LSR_DR =? 0 then mret (inr tt) else
  b ← inb hw RBR_REG;
  cs ← input_putc b;
  match cs with [] => mret (inl tt) | _ => st_fail EUndef end.

Definition transmit_body (_ : unit) : dM (unit + unit) :=
  e ← liftq TX intq_empty;
  if e : bool then mret (inr tt) else
  v ← inb hw LSR_REG;
  if Z.land v LSR_THRE =? 0 then mret (inr tt) else
  b ← take_byte TX;
  outb THR_REG b;;
  mret (inl tt).

Definition serial_interrupt : dM unit :=
  inb hw IIR_REG;;
  loop (Z.to_nat INTQ_BUFSIZE) receive_body tt;;
  loop (Z.to_nat INTQ_BUFSIZE) transmit_body tt;;
  write_ier.

End serial.

(** * What the routines rely on *)

(** Interrupts are off, the queues are well formed, and the threads that wait for input and for room in the transmit
    queue are blocked and different. *)
Record dev_ok (d : dev) : Prop := {
  do_off : intr_on (kern d) = false;
  do_tx : q_ok (txq d);
  do_in : q_ok (buffer d);
  do_bytes : Forall (in_u 8) (contents (txq d));
  do_reader : not_empty (buffer d) <> NULL -> blocked (kern d) (not_empty (buffer d));
  do_writer : not_full (txq d) <> NULL -> blocked (kern d) (not_full (txq d));
  do_distinct : not_full (txq d) <> NULL -> not_full (txq d) <> not_empty (buffer d)
}.

(** What belongs in the interrupt enable register. *)
Definition ier (d : dev) : Z :=
  (if count (txq d) =? 0 then 0 else IER_XMIT) + (if count (buffer d) =? INTQ_BUFSIZE - 1 then 0 else IER_RECV).

Lemma liftq_same {A} n (c : st (kstate * intq) A) a d h :
  c (kern d, queue n d) = Ok (a, (kern d, queue n d)) -> liftq n c (d, h) = Ok (a, (d, h)).
Proof. intros H. unfold liftq. cbn [fst snd]. rewrite H. by destruct n, d. Qed.

Lemma liftq_run {A} n (c : st (kstate * intq) A) a d h k q :
  c (kern d, queue n d) = Ok (a, (k, q)) -> liftq n c (d, h) = Ok (a, (set_queue n q (set_kern k d), h)).
Proof. intros H. unfold liftq. cbn [fst snd]. by rewrite H. Qed.

Lemma off_run d h : dev_ok d -> off (d, h) = Ok (tt, (d, h)).
Proof. intros Hd. unfold off, liftd, gets, mbind, st_bind. cbn. rewrite (do_off _ Hd). by destruct d. Qed.

Lemma tx_empty_run d h : dev_ok d -> liftq TX intq_empty (d, h) = Ok (count (txq d) =? 0, (d, h)).
Proof. intros Hd. apply liftq_same. apply (empty_run (kern d, txq d)); apply Hd. Qed.

Lemma input_full_run d h : dev_ok d -> liftq INPUT intq_full (d, h) = Ok (count (buffer d) =? INTQ_BUFSIZE - 1, (d, h)).
Proof. intros Hd. apply liftq_same. apply (full_run (kern d, buffer d)); apply Hd. Qed.

Lemma write_ier_run d h : dev_ok d -> write_ier (d, h) = Ok (tt, (d, IoOut IER_REG (ier d) :: h)).
Proof.
  intros Hd. unfold write_ier. rewrite (run_bind _ _ _ tt (d, h)) by (by apply off_run). rewrite (run_bind _ _ _ _ _ (tx_empty_run d h Hd)).
  unfold input_full. rewrite (run_bind _ _ _ (count (buffer d) =? INTQ_BUFSIZE - 1) (d, h)).
  - unfold outb, ier. cbn [fst snd]. by destruct (count (txq d) =? 0), (count (buffer d) =? INTQ_BUFSIZE - 1).
  - rewrite (run_bind _ _ _ tt (d, h)) by (by apply off_run). by apply input_full_run.
Qed.

Lemma notify_run d h : dev_ok d ->
  serial_notify (d, h) = Ok (tt, (d, if bool_decide (mode d = QUEUE) then IoOut IER_REG (ier d) :: h else h)).
Proof.
  intros Hd. unfold serial_notify. rewrite (run_bind _ _ _ tt (d, h)) by (by apply off_run). rewrite (run_bind _ _ _ (mode d) (d, h)) by done.
  case_bool_decide; [by apply write_ier_run|done].
Qed.

Lemma blocked_woken k t th t' : t <> t' -> blocked k t' -> blocked (woken t th k) t'.
Proof. intros Hne (th' & H & Hs). exists th'. split; [|done]. cbn [woken threads set_threads]. by rewrite lookup_insert_ne. Qed.

(** A byte is put in the input buffer, and the thread that waits for one is woken. *)
Lemma input_put_run d h b :
  dev_ok d -> count (buffer d) <> INTQ_BUFSIZE - 1 ->
  exists d', liftq INPUT (intq_putc b) (d, h) = Ok ([], (d', h)) /\ dev_ok d' /\ txq d' = txq d /\ mode d' = mode d /\
    contents (buffer d') = contents (buffer d) ++ [b].
Proof.
  intros [D1 D2 D3 D0 D4 D5 D6] Hc. set (q1 := pushed b (buffer d)). pose proof (pushed_ok b _ D3) as Hq1. fold q1 in Hq1.
  pose proof (pushed_contents b _ D3 Hc) as Hp. fold q1 in Hp.
  assert (count q1 <> 0) as Hc1 by (rewrite <- contents_length, Hp, length_app; cbn; lia).
  destruct (signal_run NotEmpty (kern d) q1 D1 Hq1 Hc1) as [S1 S2]. cbn [waiter_of] in S1, S2. change (not_empty q1) with (not_empty (buffer d)) in S1, S2.
  assert (forall k q, signal NotEmpty (kern d, q1) = Ok (tt, (k, q)) -> liftq INPUT (intq_putc b) (d, h) = Ok ([], (set_queue INPUT q (set_kern k d), h))) as Hrun.
  { intros k q Hs. apply liftq_run. unfold intq_putc. rewrite (run_bind _ _ _ _ _ (full_run (kern d, queue INPUT d) D1 D3)). cbn [snd queue].
    rewrite (proj2 (Z.eqb_neq _ _)) by done. rewrite (run_bind _ _ _ (buffer d) (kern d, buffer d)) by done.
    rewrite (run_bind _ _ _ tt (kern d, q1)) by done. by rewrite (run_bind _ _ _ _ _ Hs). }
  destruct (decide (not_empty (buffer d) = NULL)) as [Hn|Hn].
  - eexists. split; [apply (Hrun _ _ (S1 Hn))|]. split; [|done]. by split.
  - destruct (D4 Hn) as (th & Hth & Hst). eexists. split; [apply (Hrun _ _ (S2 th Hn Hth Hst))|]. split; [|done].
    split; cbn [set_queue set_kern kern txq buffer set_waiter not_empty]; try done; [by apply (ring_ok q1)|].
    intros Hw. apply blocked_woken; [|by apply D5]. intros E. by apply (D6 Hw).
Qed.

Lemma input_putc_run d h b :
  dev_ok d -> count (buffer d) <> INTQ_BUFSIZE - 1 ->
  exists d', input_putc b (d, h) = Ok ([], (d', if bool_decide (mode d = QUEUE) then IoOut IER_REG (ier d') :: h else h)) /\ dev_ok d' /\
    txq d' = txq d /\ mode d' = mode d /\ contents (buffer d') = contents (buffer d) ++ [b].
Proof.
  intros Hd Hc. destruct (input_put_run d h b Hd Hc) as (d' & E & Hd' & Ht & Hm & Hb). exists d'. split; [|done].
  unfold input_putc. rewrite (run_bind _ _ _ tt (d, h)) by (by apply off_run). rewrite (run_bind _ _ _ _ _ (input_full_run d h Hd)).
  rewrite (proj2 (Z.eqb_neq _ _)) by done. rewrite (run_bind _ _ _ tt (d, h)) by done. rewrite (run_bind _ _ _ _ _ E).
  rewrite (run_bind _ _ _ _ _ (notify_run d' h Hd')). by rewrite Hm.
Qed.

(** A byte is taken from the transmit queue, and the thread that waits for room is woken. *)
Lemma take_tx_run d h :
  dev_ok d -> count (txq d) <> 0 ->
  exists d' b, take_byte TX (d, h) = Ok (b, (d', h)) /\ dev_ok d' /\ buffer d' = buffer d /\ mode d' = mode d /\
    contents (txq d) = b :: contents (txq d').
Proof.
  intros [D1 D2 D3 D0 D4 D5 D6] Hc. set (q1 := popped (txq d)). pose proof (popped_ok _ D2) as Hq1. fold q1 in Hq1.
  pose proof (popped_contents _ D2 Hc) as Hp. fold q1 in Hp. pose proof (count_range (txq d)) as Hr.
  assert (count q1 <> INTQ_BUFSIZE - 1) as Hc1.
  { apply (f_equal length) in Hp. cbn [length] in Hp. pose proof (contents_length (txq d)). pose proof (contents_length q1). lia. }
  destruct (signal_run NotFull (kern d) q1 D1 Hq1 Hc1) as [S1 S2]. cbn [waiter_of] in S1, S2. change (not_full q1) with (not_full (txq d)) in S1, S2.
  assert (forall k q, signal NotFull (kern d, q1) = Ok (tt, (k, q)) ->
    take_byte TX (d, h) = Ok (slot (txq d) 0, (set_queue TX q (set_kern k d), h))) as Hrun.
  { intros k q Hs. unfold take_byte. rewrite (run_bind _ _ _ (inl (slot (txq d) 0)) (set_queue TX q (set_kern k d), h)); [done|]. apply liftq_run.
    unfold intq_getc. rewrite (run_bind _ _ _ _ _ (empty_run (kern d, queue TX d) D1 D2)). cbn [snd queue].
    rewrite (proj2 (Z.eqb_neq _ _)) by done. rewrite (run_bind _ _ _ (txq d) (kern d, txq d)) by done.
    rewrite (run_bind _ _ _ tt (kern d, q1)) by done. rewrite (run_bind _ _ _ _ _ Hs).
    unfold slot. by rewrite Z.add_0_r, Z.mod_small by apply D2. }
  destruct (decide (not_full (txq d) = NULL)) as [Hn|Hn].
  - eexists _, _. split; [apply (Hrun _ _ (S1 Hn))|]. split; [|done]. split; try done. rewrite Hp in D0. by apply Forall_cons in D0 as [_ D0].
  - destruct (D5 Hn) as (th & Hth & Hst). eexists _, _. split; [apply (Hrun _ _ (S2 th Hn Hth Hst))|]. split; [|done].
    split; cbn [set_queue set_kern kern txq buffer set_waiter not_full]; try done; [by apply (ring_ok q1)| |].
    { rewrite Hp in D0. apply Forall_cons in D0 as [_ D0]. by rewrite (ring_contents q1). }
    intros Hw. apply blocked_woken; [by apply D6|by apply D4].
Qed.

(** * The interrupt handler *)

(** What a part of the handler does: bytes [rx] come in from the port, and bytes [tx] go out. *)
Record moved (d : dev) (h : history) (d' : dev) (h' : history) (rx tx : list Z) : Prop := {
  mv_ok : dev_ok d';
  mv_mode : mode d' = mode d;
  mv_in : contents (buffer d') = contents (buffer d) ++ rx;
  mv_out : contents (txq d) = tx ++ contents (txq d');
  mv_received : received RBR_REG h' = received RBR_REG h ++ rx;
  mv_written : written THR_REG h' = written THR_REG h ++ tx
}.

Lemma serial_moved_trans d h d1 h1 d2 h2 rx1 tx1 rx2 tx2 :
  moved d h d1 h1 rx1 tx1 -> moved d1 h1 d2 h2 rx2 tx2 -> moved d h d2 h2 (rx1 ++ rx2) (tx1 ++ tx2).
Proof.
  intros [A1 A2 A3 A4 A5 A6] [B1 B2 B3 B4 B5 B6]. split; [done|congruence|by rewrite B3, A3, app_assoc|by rewrite A4, B4, app_assoc| |].
  - by rewrite B5, A5, app_assoc.
  - by rewrite B6, A6, app_assoc.
Qed.

Lemma serial_moved_refl d h h' : dev_ok d -> received RBR_REG h' = received RBR_REG h -> written THR_REG h' = written THR_REG h -> moved d h d h' [] [].
Proof. intros Hd H1 H2. split; rewrite ?app_nil_r; done. Qed.

Section handler.
Context (hw : history -> Z -> Z).

Lemma inb_run port (d : dev) h : inb hw port (d, h) = Ok (u8 (hw h port), (d, IoIn port (u8 (hw h port)) :: h)).
Proof. done. Qed.

Lemma receive_body_run d h : dev_ok d ->
  exists d' h' rx, receive_body hw tt (d, h) = Ok (match rx with [] => inr tt | _ => inl tt end, (d', h')) /\ moved d h d' h' rx [] /\
    (length rx <= 1)%nat.
Proof.
  intros Hd. unfold receive_body, input_full. rewrite (run_bind _ _ _ (count (buffer d) =? INTQ_BUFSIZE - 1) (d, h)).
  2:{ rewrite (run_bind _ _ _ tt (d, h)) by (by apply off_run). by apply input_full_run. }
  destruct (Z.eqb_spec (count (buffer d)) (INTQ_BUFSIZE - 1)) as [Hf|Hf]; [exists d, h, []; split; [done|]; split; [by apply serial_moved_refl|cbn; lia]|].
  rewrite (run_bind _ _ _ _ _ (inb_run LSR_REG d h)). set (v := u8 (hw h LSR_REG)). set (h1 := IoIn LSR_REG v :: h).
  assert (received RBR_REG h1 = received RBR_REG h) as Hr1 by (cbn; apply app_nil_r).
  destruct (Z.land v LSR_DR =? 0); [exists d, h1, []; split; [done|]; split; [by apply serial_moved_refl|cbn; lia]|].
  rewrite (run_bind _ _ _ _ _ (inb_run RBR_REG d h1)). set (b := u8 (hw h1 RBR_REG)). set (h2 := IoIn RBR_REG b :: h1).
  destruct (input_putc_run d h2 b Hd Hf) as (d' & E & Hd' & Ht & Hm & Hb). rewrite (run_bind _ _ _ _ _ E). eexists d', _, [b]. split; [done|]. split; [|done].
  split; [done|done|done|by rewrite Ht| |].
  - rewrite <- Hr1. case_bool_decide; done.
  - rewrite app_nil_r. case_bool_decide; [|done]. cbn [written]. rewrite (proj2 (Z.eqb_neq _ _)), app_nil_r by done. done.
Qed.

Lemma transmit_body_run d h : dev_ok d ->
  exists d' h' tx, transmit_body hw tt (d, h) = Ok (match tx with [] => inr tt | _ => inl tt end, (d', h')) /\ moved d h d' h' [] tx /\
    (length tx <= 1)%nat.
Proof.
  intros Hd. unfold transmit_body. rewrite (run_bind _ _ _ _ _ (tx_empty_run d h Hd)).
  destruct (Z.eqb_spec (count (txq d)) 0) as [Hf|Hf]; [exists d, h, []; split; [done|]; split; [by apply serial_moved_refl|cbn; lia]|].
  rewrite (run_bind _ _ _ _ _ (inb_run LSR_REG d h)). set (v := u8 (hw h LSR_REG)). set (h1 := IoIn LSR_REG v :: h).
  assert (received RBR_REG h1 = received RBR_REG h) as Hr1 by (cbn; apply app_nil_r).
  destruct (Z.land v LSR_THRE =? 0); [exists d, h1, []; split; [done|]; split; [by apply serial_moved_refl|cbn; lia]|].
  destruct (take_tx_run d h1 Hd Hf) as (d' & b & E & Hd' & Hb & Hm & Hc). rewrite (run_bind _ _ _ _ _ E).
  exists d', (IoOut THR_REG b :: h1), [b]. split; [|split; [|done]].
  - assert (u8 b = b) as Hb8; [|rewrite (run_bind _ _ _ tt (d', IoOut THR_REG b :: h1)); [done|unfold outb; cbn [fst snd]; by rewrite Hb8]].
    apply uwrap_id; [lia|]. pose proof (do_bytes _ Hd) as HB. rewrite Hc in HB. by apply Forall_cons in HB as [HB _].
  - split; [done|done|by rewrite Hb, app_nil_r|done|by rewrite app_nil_r|done].
Qed.

(** A loop whose body moves at most one byte at a time and ends when it moves none, with room for [n] more bytes. *)
Lemma moves_loop (body : unit -> dM (unit + unit)) (room : dev -> nat) :
  (forall d h, dev_ok d -> exists d' h' rx tx, body tt (d, h) = Ok (match rx ++ tx with [] => inr tt | _ => inl tt end, (d', h')) /\
     moved d h d' h' rx tx /\ (length (rx ++ tx) + room d' <= room d)%nat) ->
  forall n d h, dev_ok d -> (room d < n)%nat -> exists d' h' rx tx, loop n body tt (d, h) = Ok (tt, (d', h')) /\ moved d h d' h' rx tx.
Proof.
  intros Hbody. induction n as [|n IH]; intros d h Hd Hn; [lia|]. cbn [loop].
  destruct (Hbody d h Hd) as (d1 & h1 & rx1 & tx1 & E1 & M1 & L1). rewrite (run_bind _ _ _ _ _ E1). destruct (rx1 ++ tx1) eqn:Eb.
  - exists d1, h1, rx1, tx1. done.
  - cbn [length] in L1. destruct (IH d1 h1 (mv_ok _ _ _ _ _ _ M1) ltac:(lia)) as (d2 & h2 & rx2 & tx2 & E2 & M2).
    exists d2, h2, (rx1 ++ rx2), (tx1 ++ tx2). split; [done|]. by eapply serial_moved_trans.
Qed.

Definition room_in (d : dev) : nat := Z.to_nat (INTQ_BUFSIZE - 1 - count (buffer d)).
Definition room_out (d : dev) : nat := Z.to_nat (count (txq d)).

Lemma receive_loop_run d h : dev_ok d ->
  exists d' h' rx tx, loop (Z.to_nat INTQ_BUFSIZE) (receive_body hw) tt (d, h) = Ok (tt, (d', h')) /\ moved d h d' h' rx tx.
Proof.
  intros Hd. apply (moves_loop (receive_body hw) room_in); [|done|].
  - intros d0 h0 Hd0. destruct (receive_body_run d0 h0 Hd0) as (d1 & h1 & rx & E & M & L). exists d1, h1, rx, []. rewrite app_nil_r.
    split; [done|]. split; [done|]. unfold room_in.
    pose proof (contents_length (buffer d1)) as H1. rewrite (mv_in _ _ _ _ _ _ M), length_app in H1. pose proof (contents_length (buffer d0)).
    pose proof (count_range (buffer d1)). lia.
  - unfold room_in. pose proof (count_range (buffer d)). unfold INTQ_BUFSIZE in *. lia.
Qed.

Lemma transmit_loop_run d h : dev_ok d ->
  exists d' h' rx tx, loop (Z.to_nat INTQ_BUFSIZE) (transmit_body hw) tt (d, h) = Ok (tt, (d', h')) /\ moved d h d' h' rx tx.
Proof.
  intros Hd. apply (moves_loop (transmit_body hw) room_out); [|done|].
  - intros d0 h0 Hd0. destruct (transmit_body_run d0 h0 Hd0) as (d1 & h1 & tx & E & M & L). exists d1, h1, [], tx. split; [done|]. split; [done|].
    unfold room_out. cbn [app].
    pose proof (contents_length (txq d0)) as H1. rewrite (mv_out _ _ _ _ _ _ M), length_app in H1. pose proof (contents_length (txq d1)). lia.
  - unfold room_out. pose proof (count_range (txq d)). lia.
Qed.

(** C30: The interrupt handler of the serial port.  Whatever the hardware answers, the handler ends without a failed assertion and
    without waiting: the bytes that it reads from the port are put at the end of the input buffer, in order and none dropped; the
    bytes that it writes to the port are the first ones of the transmit queue, in order, and leave it; and the last value that
    it writes to the interrupt enable register asks for a transmit interrupt exactly when there are bytes left to transmit, and
    for a receive interrupt exactly when there is room for another byte. *)
Theorem serial_interrupt_spec d h :
  dev_ok d ->
  exists d' h' rx tx, serial_interrupt hw (d, h) = Ok (tt, (d', IoOut IER_REG (ier d') :: h')) /\ dev_ok d' /\ mode d' = mode d /\
    contents (buffer d') = contents (buffer d) ++ rx /\ contents (txq d) = tx ++ contents (txq d') /\
    received RBR_REG h' = received RBR_REG h ++ rx /\ written THR_REG h' = written THR_REG h ++ tx /\
    (Z.testbit (ier d') 1 = true <-> contents (txq d') <> []) /\ (Z.testbit (ier d') 0 = true <-> Zlen (contents (buffer d')) < INTQ_BUFSIZE - 1).
Proof.
  intros Hd. unfold serial_interrupt. rewrite (run_bind _ _ _ _ _ (inb_run IIR_REG d h)). set (h1 := IoIn IIR_REG _ :: h).
  assert (moved d h d h1 [] []) as M1 by (apply serial_moved_refl; [done|cbn; by rewrite app_nil_r|done]).
  destruct (receive_loop_run d h1 Hd) as (d2 & h2 & rx2 & tx2 & E2 & M2). rewrite (run_bind _ _ _ _ _ E2).
  destruct (transmit_loop_run d2 h2 (mv_ok _ _ _ _ _ _ M2)) as (d3 & h3 & rx3 & tx3 & E3 & M3). rewrite (run_bind _ _ _ _ _ E3).
  destruct (serial_moved_trans _ _ _ _ _ _ _ _ _ _ (serial_moved_trans _ _ _ _ _ _ _ _ _ _ M1 M2) M3) as [A1 A2 A3 A4 A5 A6].
  eexists d3, h3, _, _. split; [by apply write_ier_run|]. do 6 (split; [done|]).
  pose proof (contents_length (txq d3)) as Ht. pose proof (contents_length (buffer d3)) as Hb. pose proof (count_range (buffer d3)) as Hc.
  rewrite Hb. unfold ier, IER_XMIT, IER_RECV. destruct (Z.eqb_spec (count (txq d3)) 0), (Z.eqb_spec (count (buffer d3)) (INTQ_BUFSIZE - 1)); cbn [Z.add Z.testbit];
    (split; [destruct (contents (txq d3)); cbn in Ht; split; (done || lia)|split; (done || lia)]).
Qed.
End handler.

(** A port that always has a byte 65 and always takes one, and two bytes to transmit. *)
Definition demo_hw (h : history) (port : Z) : Z := if port =? LSR_REG then 0x21 else 65.

Definition demo_dev : dev :=
  mkDev (set_intr_on false (fst boot)) QUEUE (mkQ txq_lock NULL NULL (<[62%nat := 7]> (<[63%nat := 8]> (replicate 64 0))) 0 62)
    (mkQ input_lock NULL NULL (replicate 64 0) 60 0).

Lemma demo_dev_ok : dev_ok demo_dev.
Proof.
  split; [by vm_compute|split; [reflexivity|cbn; unfold INTQ_BUFSIZE; lia..]|split; [reflexivity|cbn; unfold INTQ_BUFSIZE; lia..]| |done|done|done].
  apply (bool_decide_unpack _). by vm_compute.
Qed.

Lemma serial_interrupt_spec_witness :
  exists d' h' rx tx, serial_interrupt demo_hw (demo_dev, []) = Ok (tt, (d', IoOut IER_REG (ier d') :: h')) /\
    contents (buffer d') = contents (buffer demo_dev) ++ rx /\ [7; 8] = tx ++ contents (txq d') /\ written THR_REG h' = tx.
Proof.
  destruct (serial_interrupt_spec demo_hw demo_dev [] demo_dev_ok) as (d' & h' & rx & tx & E & _ & _ & H1 & H2 & _ & H3 & _).
  exists d', h', rx, tx. split; [exact E|]. split; [exact H1|]. split; [exact H2|exact H3].
Defined.
