(* ===== verification/Kbd.v ===== *)
(** The keyboard, devices/kbd.c: scancodes, the state of the shift keys, and the
    characters that go to the input buffer. *)
From Stdlib Require Import ZArith Lia String.
From stdpp Require Import base numbers sorting gmap list relations.
From S2P Require Import Prelude.
From S2P Require Import Thread.
From S2P Require Import Intq.
From S2P Require Import Ports.
From S2P Require Import Serial.

Local Open Scope Z_scope.

Definition DATA_REG : Z := 0x60.

(** [isupper] and [tolower] of lib/ctype.h. *)
Definition isupper (c : Z) : bool := (65 <=? c) && (c <=? 90).
Definition tolower (c : Z) : Z := if isupper c then c - 65 + 97 else c.

(** * Tables *)

(** The characters of a string literal. *)
Definition chars_of (s : string) : list Z := (fun c => Z.of_nat (Ascii.nat_of_ascii c)) <$> list_ascii_of_string s.

Record keymap := { first_scancode : Z; chars : list Z }.

Definition invariant_keymap : list keymap :=
  [ {| first_scancode := 0x01; chars := [27] |};
    {| first_scancode := 0x0e; chars := [8] |};
    {| first_scancode := 0x0f; chars := 9 :: chars_of "QWERTYUIOP" |};
    {| first_scancode := 0x1c; chars := [13] |};
    {| first_scancode := 0x1e; chars := chars_of "ASDFGHJKL" |};
    {| first_scancode := 0x2c; chars := chars_of "ZXCVBNM" |};
    {| first_scancode := 0x37; chars := chars_of "*" |};
    {| first_scancode := 0x39; chars := chars_of " " |};
    {| first_scancode := 0x53; chars := [127] |} ].

Definition unshifted_keymap : list keymap :=
  [ {| first_scancode := 0x02; chars := chars_of "1234567890-=" |};
    {| first_scancode := 0x1a; chars := chars_of "[]" |};
    {| first_scancode := 0x27; chars := chars_of ";'`" |};
    {| first_scancode := 0x2b; chars := [92] |};
    {| first_scancode := 0x33; chars := chars_of ",./" |} ].

Definition shifted_keymap : list keymap :=
  [ {| first_scancode := 0x02; chars := chars_of "!@#$%^&*()_+" |};
    {| first_scancode := 0x1a; chars := chars_of "{}" |};
    {| first_scancode := 0x27; chars := [58; 34; 126] |};
    {| first_scancode := 0x2b; chars := chars_of "|" |};
    {| first_scancode := 0x33; chars := chars_of "<>?" |} ].

(** The entry of scancode 0 that ends a table is the end of the list. *)
Fixpoint map_key (k : list keymap) (scancode : Z) : option Z :=
  match k with
  | [] => None
  | e :: k =>
      if (first_scancode e <=? scancode) && (scancode <? first_scancode e + Zlen (chars e))
      then chars e !! Z.to_nat (scancode - first_scancode e)
      else map_key k scancode
  end.

(** * The state *)

Record kbd := mkKbd {
  left_shift : bool; right_shift : bool;
  left_alt : bool; right_alt : bool;
  left_ctrl : bool; right_ctrl : bool;
  caps_lock : bool;
  key_cnt : Z
}.

Definition set_caps (b : bool) (k : kbd) : kbd :=
  mkKbd (left_shift k) (right_shift k) (left_alt k) (right_alt k) (left_ctrl k) (right_ctrl k) b (key_cnt k).
Definition set_key_cnt (n : Z) (k : kbd) : kbd :=
  mkKbd (left_shift k) (right_shift k) (left_alt k) (right_alt k) (left_ctrl k) (right_ctrl k) (caps_lock k) n.

(** The table of the shift keys. *)
Definition shift_key (code : Z) (down : bool) (k : kbd) : kbd :=
  if code =? 0x2a then mkKbd down (right_shift k) (left_alt k) (right_alt k) (left_ctrl k) (right_ctrl k) (caps_lock k) (key_cnt k)
  else if code =? 0x36 then mkKbd (left_shift k) down (left_alt k) (right_alt k) (left_ctrl k) (right_ctrl k) (caps_lock k) (key_cnt k)
  else if code =? 0x38 then mkKbd (left_shift k) (right_shift k) down (right_alt k) (left_ctrl k) (right_ctrl k) (caps_lock k) (key_cnt k)
  else if code =? 0xe038 then mkKbd (left_shift k) (right_shift k) (left_alt k) down (left_ctrl k) (right_ctrl k) (caps_lock k) (key_cnt k)
  else if code =? 0x1d then mkKbd (left_shift k) (right_shift k) (left_alt k) (right_alt k) down (right_ctrl k) (caps_lock k) (key_cnt k)
  else if code =? 0xe01d then mkKbd (left_shift k) (right_shift k) (left_alt k) (right_alt k) (left_ctrl k) down (caps_lock k) (key_cnt k)
  else k.

(** How the handler ends: it returns, or [shutdown_reboot] resets the machine. *)
Inductive kbd_end := KReturn | KReboot.

Abbreviation kbM := (st (kbd * (dev * history))).

Definition liftx {A} (c : st (dev * history) A) : kbM A := fun s =>
  match c s.2 with
  | Ok (a, s') => Ok (a, (s.1, s'))
  | Err e => Err e
  end.

Definition modifyk (f : kbd -> kbd) : kbM unit := fun s => Ok (tt, (f s.1, s.2)).

(** The character of an ordinary key that is pressed. *)
Definition key_char (shift alt ctrl caps : bool) (c : Z) : Z :=
  let c := if ctrl && (0x40 <=? c) && (c <? 0x60) then u8 (c - 0x40)
           else if Bool.eqb shift caps then u8 (tolower c) else c in
  if alt then u8 (c + 0x80) else c.

Section keyboard.
Context (hw : history -> Z -> Z).

(** The scancode, with its prefix. *)
Definition read_scancode : kbM Z :=
  code ← liftx (inb hw DATA_REG);
  if code =? 0xe0 then c ← liftx (inb hw DATA_REG); mret (Z.lor (Z.shiftl code 8) c) else mret code.

Definition keyboard_interrupt : kbM kbd_end :=
  s ← st_get;
  let k := s.1 in
  let shift := left_shift k || right_shift k in
  let alt := left_alt k || right_alt k in
  let ctrl := left_ctrl k || right_ctrl k in
  code ← read_scancode;
  let release := negb (Z.land code 0x80 =? 0) in
  let code := Z.land code (Z.lnot 0x80) in
  if code =? 0x3a then
    (if negb release then modifyk (set_caps (negb (caps_lock k))) else mret tt);; mret KReturn
  else
    match (match map_key invariant_keymap code with
           | Some c => Some c
           | None => if negb shift then map_key unshifted_keymap code else map_key shifted_keymap code
           end) with
    | Some c =>
        if release then mret KReturn
        else if (c =? 127) && ctrl && alt then mret KReboot
        else
          let c := key_char shift alt ctrl (caps_lock k) c in
          f ← liftx input_full;
          (if negb f then
             modifyk (fun k => set_key_cnt (s64 (key_cnt k + 1)) k);;
             cs ← liftx (input_putc c);
             match cs with [] => mret tt | _ => st_fail EUndef end
           else mret tt);;
          mret KReturn
    | None => modifyk (shift_key code (negb release));; mret KReturn
    end.

End keyboard.

(** * Letters *)

(** The scancodes of the letters on the keyboard. *)
Definition letter_keys : list (Z * Z) :=
  zip (seqZ 0x10 10) (chars_of "QWERTYUIOP") ++ zip (seqZ 0x1e 9) (chars_of "ASDFGHJKL") ++ zip (seqZ 0x2c 7) (chars_of "ZXCVBNM").

(** What a letter key gives: a control character with a control key, else a capital or a small letter; the highest bit set with
    an alt key. *)
Definition letter (shift alt ctrl caps : bool) (c : Z) : Z :=
  (if ctrl then c - 64 else if xorb shift caps then c else c + 32) + if alt then 128 else 0.

Lemma letter_key_char :
  Forall (fun kc : Z * Z => map_key invariant_keymap kc.1 = Some kc.2 /\ in_u 7 kc.1 /\ kc.1 <> 0x3a /\ kc.2 <> 127 /\
    forall shift alt ctrl caps, key_char shift alt ctrl caps kc.2 = letter shift alt ctrl caps kc.2) letter_keys.
Proof.
  unfold letter_keys, in_u. repeat constructor; try lia; try (by intros [] [] [] []); done.
Qed.

Section letters.
Context (hw : history -> Z -> Z).

(** The state of the shift keys when an interrupt comes. *)
Definition shift_of (k : kbd) : bool := left_shift k || right_shift k.
Definition alt_of (k : kbd) : bool := left_alt k || right_alt k.
Definition ctrl_of (k : kbd) : bool := left_ctrl k || right_ctrl k.

(** Pressing a letter key puts one character at the end of the input buffer, the letter that the shift keys and caps lock ask for, if
    there is room, and else nothing; no shift key changes. *)
Theorem keyboard_letter k d h code c :
  dev_ok d -> (code, c) ∈ letter_keys -> u8 (hw h DATA_REG) = code ->
  exists d' h', contents (txq d') = contents (txq d) /\
    keyboard_interrupt hw (k, (d, h)) =
      Ok (KReturn, (if count (buffer d) =? INTQ_BUFSIZE - 1 then k else set_key_cnt (s64 (key_cnt k + 1)) k, (d', h'))) /\ dev_ok d' /\
    contents (buffer d') = contents (buffer d) ++
      if count (buffer d) =? INTQ_BUFSIZE - 1 then [] else [letter (shift_of k) (alt_of k) (ctrl_of k) (caps_lock k) c].
Proof.
  intros Hd Hin Hhw. pose proof letter_key_char as HF. rewrite Forall_forall in HF. destruct (HF _ Hin) as (Hmap & Hc & H3a & H127 & Hkey). cbn [fst snd] in *.
  unfold in_u in Hc. set (h1 := IoIn DATA_REG code :: h). unfold keyboard_interrupt. rewrite (run_bind _ _ _ (k, (d, h)) (k, (d, h))) by done. cbn [fst].
  rewrite (run_bind _ _ _ code (k, (d, h1))).
  2:{ unfold read_scancode. rewrite (run_bind _ _ _ code (k, (d, h1))) by (unfold liftx, inb; cbn [fst snd]; by rewrite Hhw).
      by rewrite (proj2 (Z.eqb_neq _ _)) by lia. }
  assert (Z.land code 0x80 = 0) as Hr.
  { change 0x80 with (2 ^ 7). apply Z.bits_inj'. intros n Hn. rewrite Z.land_spec, Z.bits_0. destruct (decide (n = 7)) as [->|Hne].
    - rewrite <- (Z.mod_small code (2 ^ 7)) by lia. by rewrite Z.mod_pow2_bits_high by lia.
    - by rewrite Z.pow2_bits_false, andb_false_r by lia. }
  assert (Z.land code (Z.lnot 0x80) = code) as Hl by (rewrite <- Z.ldiff_land; rewrite <- (Z.lor_ldiff_and code 0x80) at 2; by rewrite Hr, Z.lor_0_r).
  rewrite Hr, Hl. cbn [Z.eqb negb]. rewrite (proj2 (Z.eqb_neq code 0x3a)) by done. rewrite Hmap, (proj2 (Z.eqb_neq c 127)) by done. cbn [andb].
  rewrite Hkey. fold (shift_of k) (alt_of k) (ctrl_of k). rewrite (run_bind _ _ _ (count (buffer d) =? INTQ_BUFSIZE - 1) (k, (d, h1))).
  2:{ unfold liftx, input_full. cbn [snd fst]. rewrite (run_bind _ _ _ tt (d, h1)) by (by apply off_run). by rewrite input_full_run. }
  destruct (Z.eqb_spec (count (buffer d)) (INTQ_BUFSIZE - 1)) as [Hf|Hf]; cbn [negb].
  - exists d, h1. rewrite (run_bind _ _ _ tt (k, (d, h1))) by done. by rewrite app_nil_r.
  - destruct (input_putc_run d h1 (letter (shift_of k) (alt_of k) (ctrl_of k) (caps_lock k) c) Hd Hf) as (d' & E & Hd' & Ht & _ & Hb).
    eexists d', _. split; [by rewrite Ht|]. split; [|done]. set (k' := set_key_cnt _ k).
    rewrite (run_bind _ _ _ tt (k', (d', if bool_decide (mode d = QUEUE) then IoOut IER_REG (ier d') :: h1 else h1))); [done|].
    rewrite (run_bind _ _ _ tt (k', (d, h1))) by done.
    by rewrite (run_bind _ _ _ [] (k', (d', if bool_decide (mode d = QUEUE) then IoOut IER_REG (ier d') :: h1 else h1))) by (unfold liftx; cbn [snd fst]; by rewrite E).
Qed.
End letters.
