(* ===== verification/Vga.v ===== *)
(** The text display, devices/vga.c: the frame buffer, the cursor and scrolling, and the
    proof that the screen is a window on a sheet of paper that is written line by
    line. *)
From Stdlib Require Import ZArith Lia.
From stdpp Require Import base numbers sorting gmap list relations.
From S2P Require Import Prelude.
From S2P Require Import Thread.
From S2P Require Import Ports.

Local Open Scope Z_scope.

(** * The display *)

Definition COL_CNT : Z := 80.
Definition ROW_CNT : Z := 25.
Definition GRAY_ON_BLACK : Z := 0x07.

(** A character and its attribute. *)
Abbreviation cell := (Z * Z)%type.

(** The frame buffer, row by row, the position of the cursor and [inited]. *)
Record vga := mkVga {
  fb : list (list cell);
  cx : Z;
  cy : Z;
  vinited : bool
}.

Definition set_cx (v : Z) (s : vga) : vga := mkVga (fb s) v (cy s) (vinited s).
Definition set_cy (v : Z) (s : vga) : vga := mkVga (fb s) (cx s) v (vinited s).
Definition set_fb (v : list (list cell)) (s : vga) : vga := mkVga v (cx s) (cy s) (vinited s).

(** The display, the kernel and the ports. *)
Abbreviation vM := (st ((vga * kstate) * history)).

Definition getv {A} (f : vga -> A) : vM A := fun s => Ok (f s.1.1, s).
Definition modifyv (f : vga -> vga) : vM unit := fun s => Ok (tt, ((f s.1.1, s.1.2), s.2)).
Definition liftk {A} (c : kM A) : vM A := fun s =>
  match c s.1.2 with
  | Ok (a, k') => Ok (a, ((s.1.1, k'), s.2))
  | Err e => Err e
  end.

(** [fb[y][x] = c]: a store outside of the frame buffer is a fault. *)
Definition put_cell (y x : Z) (c : cell) : vM unit :=
  f ← getv fb;
  match f !! Z.to_nat y with
  | Some row => if x <? Zlen row then modifyv (set_fb (<[Z.to_nat y := <[Z.to_nat x := c]> row]> f)) else st_fail EFault
  | None => st_fail EFault
  end.

(** A row of spaces. *)
Definition blank_row : list cell := replicate (Z.to_nat COL_CNT) (32, GRAY_ON_BLACK).

(** The loop of [clear_row] from column [x] on, with [n] columns to go. *)
Fixpoint clear_loop (n : nat) (y x : Z) : vM unit :=
  match n with
  | O => mret tt
  | S n => put_cell y x (32, GRAY_ON_BLACK);; clear_loop n y (x + 1)
  end.

Definition clear_row (y : Z) : vM unit := clear_loop (Z.to_nat COL_CNT) y 0.

(** [memmove (&fb[0], &fb[1], sizeof fb[0] * (ROW_CNT - 1))] *)
Definition scroll (f : list (list cell)) : list (list cell) :=
  take (Z.to_nat (ROW_CNT - 1)) (drop 1 f) ++ drop (Z.to_nat (ROW_CNT - 1)) f.

Definition newline : vM unit :=
  modifyv (set_cx 0);;
  y ← getv cy;
  modifyv (set_cy (y + 1));;
  if ROW_CNT <=? y + 1 then
    modifyv (set_cy (ROW_CNT - 1));;
    f ← getv fb;
    modifyv (set_fb (scroll f));;
    clear_row (ROW_CNT - 1)
  else mret tt.

Definition move_cursor : vM unit :=
  x ← getv cx; y ← getv cy;
  let cp := u16 (x + COL_CNT * y) in
  outw 0x3d4 (Z.lor 0x0e (Z.land cp 0xff00));;
  outw 0x3d4 (Z.lor 0x0f (Z.shiftl cp 8)).

Fixpoint cls_loop (n : nat) (y : Z) : vM unit :=
  match n with
  | O => mret tt
  | S n => clear_row y;; cls_loop n (y + 1)
  end.

Definition cls : vM unit :=
  cls_loop (Z.to_nat ROW_CNT) 0;;
  modifyv (set_cx 0);; modifyv (set_cy 0);;
  move_cursor.

(** What is left to do after a bell: [speaker_beep] waits. *)
Inductive vcmd := VBeep | VDisable | VMoveCursor | VLevel (on : bool).

Section display.
Context (hw : history -> Z -> Z).

Definition find_cursor : vM (Z * Z) :=
  outb 0x3d4 0x0e;;
  hi ← inb hw 0x3d5;
  outb 0x3d4 0x0f;;
  lo ← inb hw 0x3d5;
  let cp := Z.lor (u16 (Z.shiftl hi 8)) lo in
  mret (cp mod COL_CNT, cp / COL_CNT).

Definition init : vM unit :=
  i ← getv vinited;
  if i : bool then mret tt else
  '(x, y) ← find_cursor;
  modifyv (fun s => mkVga (fb s) x y true).

Definition ROUND_UP (x step : Z) : Z := (x + step - 1) / step * step.

(** What [vga_putc] does for a character but for the bell. *)
Definition putc_char (c : Z) : vM unit :=
  x ← getv cx; y ← getv cy;
  if c =? 10 then newline
  else if c =? 12 then cls
  else if c =? 8 then if 0 <? x then modifyv (set_cx (x - 1)) else mret tt
  else if c =? 13 then modifyv (set_cx 0)
  else if c =? 9 then
    modifyv (set_cx (ROUND_UP (x + 1) 8));;
    if COL_CNT <=? ROUND_UP (x + 1) 8 then newline else mret tt
  else
    put_cell y x (u8 c, GRAY_ON_BLACK);;
    modifyv (set_cx (x + 1));;
    if COL_CNT <=? x + 1 then newline else mret tt.

Definition vga_putc (c : Z) : vM (list vcmd) :=
  old ← liftk intr_disable;
  init;;
  if c =? 7 then liftk (intr_set_level old);; mret [VBeep; VDisable; VMoveCursor; VLevel old]
  else
    putc_char c;;
    move_cursor;;
    liftk (intr_set_level old);; mret [].

End display.

(** * The sheet of paper *)

(** Rows from the top of the sheet on, and where the next character goes.  A row is added when it is needed. *)
Record paper := mkPaper { rows : list (list cell); prow : nat; pcol : Z }.

Definition paper_newline (p : paper) : paper :=
  mkPaper (if decide (S (prow p) = length (rows p)) then rows p ++ [blank_row] else rows p) (S (prow p)) 0.

Definition paper_advance (col : Z) (p : paper) : paper :=
  if COL_CNT <=? col then paper_newline p else mkPaper (rows p) (prow p) col.

Definition paper_putc (c : Z) (p : paper) : paper :=
  if c =? 10 then paper_newline p
  else if c =? 12 then mkPaper (rows p ++ replicate (Z.to_nat ROW_CNT) blank_row) (length (rows p)) 0
  else if c =? 8 then mkPaper (rows p) (prow p) (Z.max 0 (pcol p - 1))
  else if c =? 13 then mkPaper (rows p) (prow p) 0
  else if c =? 9 then paper_advance ((pcol p + 8) / 8 * 8) p
  else paper_advance (pcol p + 1)
    (mkPaper (alter (fun r => <[Z.to_nat (pcol p) := (u8 c, GRAY_ON_BLACK)]> r) (prow p) (rows p)) (prow p) (pcol p)).

(** The screen shows the last 25 rows. *)
Record shows (v : vga) (p : paper) : Prop := {
  sh_rows : (25 <= length (rows p))%nat;
  sh_width : Forall (fun r => length r = 80%nat) (rows p);
  sh_fb : fb v = drop (length (rows p) - 25) (rows p);
  sh_row : (length (rows p) - 25 <= prow p < length (rows p))%nat;
  sh_cy : cy v = Z.of_nat (prow p) - (Zlen (rows p) - 25);
  sh_cx : cx v = pcol p;
  sh_col : 0 <= pcol p < 80;
  sh_inited : vinited v = true
}.

Lemma put_cell_run v k h y x c row :
  0 <= y -> fb v !! Z.to_nat y = Some row -> 0 <= x < Zlen row ->
  put_cell y x c ((v, k), h) = Ok (tt, ((set_fb (<[Z.to_nat y := <[Z.to_nat x := c]> row]> (fb v)) v, k), h)).
Proof.
  intros Hy Hr Hx. unfold put_cell. rewrite (run_bind _ _ _ (fb v) ((v, k), h)) by done. rewrite Hr. by rewrite (proj2 (Z.ltb_lt _ _)) by lia.
Qed.

Lemma clear_loop_run n : forall v k h y row m,
  0 <= y -> fb v !! Z.to_nat y = Some (replicate m (32, GRAY_ON_BLACK) ++ row) -> length row = n ->
  clear_loop n y (Z.of_nat m) ((v, k), h) = Ok (tt, ((set_fb (<[Z.to_nat y := replicate (m + n) (32, GRAY_ON_BLACK)]> (fb v)) v, k), h)).
Proof.
  induction n as [|n IH]; intros v k h y row m Hy Hr Hl; cbn [clear_loop].
  - destruct row; [|done]. rewrite app_nil_r in Hr. rewrite Nat.add_0_r, list_insert_id by done. by destruct v.
  - destruct row as [|c row]; [done|]. injection Hl as Hl.
    rewrite (run_bind _ _ _ _ _ (put_cell_run v k h y (Z.of_nat m) (32, GRAY_ON_BLACK) _ Hy Hr ltac:(rewrite length_app, length_replicate; cbn; lia))).
    replace (Z.of_nat m + 1) with (Z.of_nat (S m)) by lia. pose proof (lookup_lt_Some _ _ _ Hr).
    rewrite (IH _ k h y row (S m)); [|done| |done].
    + cbn [set_fb fb]. rewrite list_insert_insert_eq. by replace (S m + n)%nat with (m + S n)%nat by lia.
    + cbn [set_fb fb]. rewrite list_lookup_insert_eq by lia. f_equal. rewrite Nat2Z.id.
      rewrite insert_app_r_alt by (rewrite length_replicate; lia). rewrite length_replicate, Nat.sub_diag. cbn.
      change ((32, GRAY_ON_BLACK) :: row) with ([(32, GRAY_ON_BLACK)] ++ row). by rewrite app_assoc, <- replicate_S_end.
Qed.

Lemma clear_row_run v k h y row :
  0 <= y -> fb v !! Z.to_nat y = Some row -> length row = 80%nat ->
  clear_row y ((v, k), h) = Ok (tt, ((set_fb (<[Z.to_nat y := blank_row]> (fb v)) v, k), h)).
Proof. intros Hy Hr Hl. exact (clear_loop_run 80 v k h y row 0 Hy Hr Hl). Qed.

Lemma scroll_run (f : list (list cell)) r0 f' : f = r0 :: f' -> length f = 25%nat -> <[24%nat := blank_row]> (scroll f) = f' ++ [blank_row].
Proof.
  intros -> Hl. cbn in Hl. injection Hl as Hl. unfold scroll. change (drop 1 (r0 :: f')) with f'. rewrite (take_ge f') by (rewrite Hl; change (Z.to_nat (ROW_CNT - 1)) with 24%nat; lia).
  change (Z.to_nat (ROW_CNT - 1)) with (S 23). cbn [drop]. destruct (drop 23 f') as [|r l] eqn:E.
  - apply (f_equal length) in E. rewrite length_drop in E. cbn in E. lia.
  - rewrite insert_app_r_alt by lia. rewrite Hl. cbn. destruct l; [done|]. apply (f_equal length) in E. rewrite length_drop in E. cbn in E. lia.
Qed.

(** ** Each step of the code is a step on the paper *)

Lemma shows_fb v p : shows v p -> length (fb v) = 25%nat /\ Forall (fun r => length r = 80%nat) (fb v).
Proof. intros Hs. rewrite (sh_fb _ _ Hs), length_drop. destruct Hs. split; [lia|by apply Forall_drop]. Qed.

Lemma newline_run v k h p : shows v p -> exists v', newline ((v, k), h) = Ok (tt, ((v', k), h)) /\ shows v' (paper_newline p).
Proof.
  intros Hs. destruct (shows_fb v p Hs) as [Hfl Hfw]. destruct Hs as [H1 H2 H3 H4 H5 H6 H7 H8]. unfold newline, paper_newline.
  rewrite (run_bind _ _ _ tt ((set_cx 0 v, k), h)) by done. rewrite (run_bind _ _ _ (cy v) ((set_cx 0 v, k), h)) by done.
  rewrite (run_bind _ _ _ tt ((set_cy (cy v + 1) (set_cx 0 v), k), h)) by done. case_decide as Hend.
  - rewrite (proj2 (Z.leb_le _ _)) by (unfold ROW_CNT; lia). set (v1 := set_cy (ROW_CNT - 1) (set_cy (cy v + 1) (set_cx 0 v))).
    rewrite (run_bind _ _ _ tt ((v1, k), h)) by done. rewrite (run_bind _ _ _ (fb v) ((v1, k), h)) by done.
    rewrite (run_bind _ _ _ tt ((set_fb (scroll (fb v)) v1, k), h)) by done.
    destruct (fb v) as [|r0 f'] eqn:Ef; [done|]. pose proof (scroll_run (r0 :: f') r0 f' eq_refl Hfl) as Hsc.
    assert (exists r, scroll (r0 :: f') !! 24%nat = Some r /\ length r = 80%nat) as (r & Hr & Hrl).
    { unfold scroll. change (Z.to_nat (ROW_CNT - 1)) with 24%nat. rewrite lookup_app_r by (rewrite length_take, length_drop; lia).
      rewrite length_take, length_drop, Hfl. change (24 - 24 `min` (25 - 1))%nat with 0%nat. rewrite lookup_drop.
      destruct (lookup_lt_is_Some_2 (r0 :: f') (24 + 0)) as [r Hr]; [lia|]. exists r. split; [done|]. by apply (Forall_lookup_1 _ _ _ _ Hfw Hr). }
    eexists. split; [apply (clear_row_run _ k h (ROW_CNT - 1) r); [done|exact Hr|done]|].
    cbn [set_fb fb]. change (Z.to_nat (ROW_CNT - 1)) with 24%nat. rewrite Hsc.
    split; cbn [rows prow pcol fb cx cy vinited set_fb]; rewrite ?length_app; cbn [length].
    + lia.
    + apply Forall_app. split; [done|]. by constructor.
    + rewrite drop_app_le by lia. f_equal. replace (length (rows p) + 1 - 25)%nat with (S (length (rows p) - 25)) by lia.
      change f' with (drop 1 (r0 :: f')). rewrite H3, drop_drop. f_equal. lia.
    + lia.
    + cbn. unfold ROW_CNT. lia.
    + done.
    + lia.
    + done.
  - rewrite (proj2 (Z.leb_gt _ _)) by (unfold ROW_CNT; lia). eexists. split; [reflexivity|]. split; cbn [rows prow pcol]; try done; cbn; lia.
Qed.

Lemma advance_run v k h p col : shows v p -> 0 <= col ->
  exists v', (modifyv (set_cx col);; if COL_CNT <=? col then newline else mret tt) ((v, k), h) = Ok (tt, ((v', k), h)) /\ shows v' (paper_advance col p).
Proof.
  intros Hs Hc. rewrite (run_bind _ _ _ tt ((set_cx col v, k), h)) by done. unfold paper_advance. destruct (Z.leb_spec COL_CNT col) as [H|H].
  - destruct (newline_run (set_cx 0 v) k h (mkPaper (rows p) (prow p) 0)) as (v' & E & Hs').
    + destruct Hs. split; cbn; done || lia.
    + exists v'. split; [exact E|]. exact Hs'.
  - eexists. split; [reflexivity|]. unfold COL_CNT in H. destruct Hs. split; cbn; try done.
Qed.

(** The cell that a character is put in. *)
Lemma put_char_run v k h p c : shows v p ->
  exists v', put_cell (cy v) (cx v) c ((v, k), h) = Ok (tt, ((v', k), h)) /\ cx v' = cx v /\
    shows v' (mkPaper (alter (fun r => <[Z.to_nat (pcol p) := c]> r) (prow p) (rows p)) (prow p) (pcol p)).
Proof.
  intros Hs. destruct (shows_fb v p Hs) as [Hfl Hfw]. destruct Hs as [H1 H2 H3 H4 H5 H6 H7 H8].
  destruct (lookup_lt_is_Some_2 (rows p) (prow p)) as [r Hr]; [lia|]. pose proof (Forall_lookup_1 _ _ _ _ H2 Hr) as Hrl. cbn in Hrl.
  assert (fb v !! Z.to_nat (cy v) = Some r) as Hfr by (rewrite H3, lookup_drop, <- Hr; f_equal; lia).
  eexists. split; [apply (put_cell_run _ _ _ _ _ _ r); [lia|done|lia]|]. split; [done|]. split; cbn [rows prow pcol]; rewrite ?length_alter; try done.
  - apply Forall_alter; [done|]. intros x Hx. rewrite Hr in Hx. injection Hx as <-. by rewrite length_insert.
  - cbn [fb set_fb]. rewrite H6, H3. apply list_eq. intros i. rewrite lookup_drop. destruct (decide (i = Z.to_nat (cy v))) as [->|Hne].
    + rewrite list_lookup_insert_eq by (rewrite length_drop; lia). replace (length (rows p) - 25 + Z.to_nat (cy v))%nat with (prow p) by lia.
      by rewrite list_lookup_alter_eq, Hr.
    + rewrite list_lookup_insert_ne by done. rewrite list_lookup_alter_ne by lia. by rewrite lookup_drop.
Qed.

Lemma cls_loop_run n : forall v k h m rest,
  fb v = replicate m blank_row ++ rest -> length rest = n -> Forall (fun r => length r = 80%nat) rest ->
  cls_loop n (Z.of_nat m) ((v, k), h) = Ok (tt, ((set_fb (replicate (m + n) blank_row) v, k), h)).
Proof.
  induction n as [|n IH]; intros v k h m rest Hf Hl Hw; cbn [cls_loop].
  - destruct rest; [|done]. rewrite app_nil_r in Hf. rewrite Nat.add_0_r, <- Hf. by destruct v.
  - destruct rest as [|r rest]; [done|]. injection Hl as Hl. apply Forall_cons in Hw as [Hr Hw].
    assert (fb v !! Z.to_nat (Z.of_nat m) = Some r) as Hlk.
    { rewrite Hf, Nat2Z.id, lookup_app_r by (rewrite length_replicate; lia). by rewrite length_replicate, Nat.sub_diag. }
    rewrite (run_bind _ _ _ _ _ (clear_row_run v k h (Z.of_nat m) r ltac:(lia) Hlk Hr)). replace (Z.of_nat m + 1) with (Z.of_nat (S m)) by lia.
    rewrite (IH _ k h (S m) rest); [|cbn [set_fb fb]|done|done].
    + by replace (S m + n)%nat with (m + S n)%nat by lia.
    + rewrite Hf, Nat2Z.id, insert_app_r_alt by (rewrite length_replicate; lia). rewrite length_replicate, Nat.sub_diag. cbn [insert list_insert].
      change (blank_row :: rest) with ([blank_row] ++ rest). by rewrite app_assoc, <- replicate_S_end.
Qed.

(** The two registers of the cursor have its position: high byte, then low byte. *)
Definition cursor_shown (v : vga) (h : history) : Prop :=
  exists hi lo h', h = IoOut 0x3d4 lo :: IoOut 0x3d4 hi :: h' /\ hi mod 256 = 0x0e /\ lo mod 256 = 0x0f /\
    hi / 256 * 256 + lo / 256 = cx v + COL_CNT * cy v.

Lemma cursor_values : Forall (fun cp => let hi := u16 (Z.lor 0x0e (Z.land cp 0xff00)) in let lo := u16 (Z.lor 0x0f (Z.shiftl cp 8)) in
  hi mod 256 = 0x0e /\ lo mod 256 = 0x0f /\ hi / 256 * 256 + lo / 256 = cp) (seqZ 0 2000).
Proof. cbv zeta. apply (bool_decide_unpack _). by vm_compute. Qed.

Lemma move_cursor_run v k h : 0 <= cx v < 80 -> 0 <= cy v < 25 ->
  exists h', move_cursor ((v, k), h) = Ok (tt, ((v, k), h')) /\ cursor_shown v h'.
Proof.
  intros Hx Hy. set (cp := cx v + COL_CNT * cy v). assert (0 <= cp < 2000) as Hcp by (unfold cp, COL_CNT; lia).
  pose proof cursor_values as HF. rewrite Forall_forall in HF. destruct (HF cp) as (H1 & H2 & H3); [apply elem_of_seqZ; lia|].
  eexists. split.
  - unfold move_cursor. rewrite (run_bind _ _ _ (cx v) ((v, k), h)) by done. rewrite (run_bind _ _ _ (cy v) ((v, k), h)) by done. fold cp.
    assert (u16 cp = cp) as -> by (apply uwrap_id; [lia|unfold in_u; lia]). by rewrite (run_bind _ _ _ _ _ eq_refl).
  - by eexists _, _, _.
Qed.

Lemma shows_cursor v p : shows v p -> 0 <= cx v < 80 /\ 0 <= cy v < 25.
Proof. intros [H1 H2 H3 H4 H5 H6 H7 H8]. lia. Qed.

Lemma cls_run v k h p : shows v p ->
  exists v' h', cls ((v, k), h) = Ok (tt, ((v', k), h')) /\ shows v' (paper_putc 12 p).
Proof.
  intros Hs. destruct (shows_fb v p Hs) as [Hl Hw]. set (v1 := set_cy 0 (set_cx 0 (set_fb (replicate 25 blank_row) v))).
  destruct (move_cursor_run v1 k h) as (h' & E & _); [cbn; lia|cbn; lia|]. exists v1, h'. split.
  - unfold cls. rewrite (run_bind _ _ _ tt ((set_fb (replicate 25 blank_row) v, k), h)) by (exact (cls_loop_run 25 v k h 0 (fb v) eq_refl Hl Hw)).
    rewrite (run_bind _ _ _ tt ((set_cx 0 (set_fb (replicate 25 blank_row) v), k), h)) by done. by rewrite (run_bind _ _ _ tt ((v1, k), h)) by done.
  - destruct Hs as [H1 H2 H3 H4 H5 H6 H7 H8]. change (paper_putc 12 p) with (mkPaper (rows p ++ replicate 25 blank_row) (length (rows p)) 0).
    split; cbn [rows prow pcol fb cx cy v1 set_cy set_cx set_fb vinited]; rewrite ?length_app, ?length_replicate; try done; try lia.
    + apply Forall_app. split; [done|]. by apply Forall_replicate.
    + replace (length (rows p) + 25 - 25)%nat with (length (rows p)) by lia. by rewrite drop_app_length.
Qed.

Lemma putc_char_run v k h p c : shows v p ->
  exists v' h', putc_char c ((v, k), h) = Ok (tt, ((v', k), h')) /\ shows v' (paper_putc c p).
Proof.
  intros Hs. pose proof (sh_col _ _ Hs) as Hc. pose proof (sh_cx _ _ Hs) as Hx. unfold putc_char.
  rewrite (run_bind _ _ _ (cx v) ((v, k), h)) by done. rewrite (run_bind _ _ _ (cy v) ((v, k), h)) by done. unfold paper_putc.
  destruct (Z.eqb_spec c 10); [destruct (newline_run v k h p Hs) as (v' & E & H'); by exists v', h|].
  destruct (Z.eqb_spec c 12) as [->|]; [by apply cls_run|].
  destruct (Z.eqb_spec c 8).
  { destruct (Z.ltb_spec 0 (cx v)); eexists _, h; (split; [reflexivity|]); destruct Hs; split; cbn; (done || lia). }
  destruct (Z.eqb_spec c 13); [eexists _, h; split; [reflexivity|]; destruct Hs; split; cbn; (done || lia)|].
  destruct (Z.eqb_spec c 9).
  { destruct (advance_run v k h p ((pcol p + 8) / 8 * 8) Hs) as (v' & E & H'); [pose proof (Z.div_pos (pcol p + 8) 8); lia|].
    exists v', h. split; [|done]. unfold ROUND_UP. rewrite Hx. by replace (pcol p + 1 + 8 - 1) with (pcol p + 8) by lia. }
  destruct (put_char_run v k h p (u8 c, GRAY_ON_BLACK) Hs) as (v1 & E1 & Hx1 & Hs1).
  destruct (advance_run v1 k h _ (pcol p + 1) Hs1) as (v2 & E2 & Hs2); [lia|]. exists v2, h. split; [|exact Hs2].
  rewrite (run_bind _ _ _ _ _ E1). by rewrite Hx.
Qed.

(** ** Strings *)

(** Putting characters one after the other, none of which is the bell. *)
Fixpoint puts (hw : history -> Z -> Z) (cs : list Z) : vM unit :=
  match cs with
  | [] => mret tt
  | c :: cs => vga_putc hw c;; puts hw cs
  end.

Lemma vga_putc_run hw v k h p c :
  shows v p -> c <> 7 -> (intr_on k = true -> in_external_intr k = false) ->
  exists v' h', vga_putc hw c ((v, k), h) = Ok ([], ((v', k), h')) /\ shows v' (paper_putc c p) /\ cursor_shown v' h'.
Proof.
  intros Hs Hc Hk. destruct (putc_char_run v (set_intr_on false k) h p c Hs) as (v1 & h1 & E & Hs1).
  destruct (shows_cursor v1 _ Hs1) as [Hx Hy]. destruct (move_cursor_run v1 (set_intr_on false k) h1 Hx Hy) as (h2 & Em & Hm).
  exists v1, h2. split; [|done]. unfold vga_putc. rewrite (run_bind _ _ _ (intr_on k) ((v, set_intr_on false k), h)) by done.
  rewrite (run_bind _ _ _ tt ((v, set_intr_on false k), h)) by (unfold init; rewrite (run_bind _ _ _ true ((v, set_intr_on false k), h)); [done|unfold getv; cbn [fst]; by rewrite (sh_inited _ _ Hs)]).
  rewrite (proj2 (Z.eqb_neq c 7)) by done. rewrite (run_bind _ _ _ _ _ E), (run_bind _ _ _ _ _ Em).
  by rewrite (run_bind _ _ _ false ((v1, k), h2)) by (unfold liftk; cbn [fst snd]; by rewrite level_restored).
Qed.

(** C31: The text display.  While the screen shows the last 25 rows of a sheet of paper, putting a string on the display
    succeeds, without a store outside of the frame buffer, and the screen then shows the last 25 rows of the sheet with the string
    typed on it: characters from left to right with a new line after column 79, carriage returns, tabs to multiples of eight,
    backspaces, form feeds that start with an empty screen; the cursor registers have the place of the next character, and the interrupt level is what it was. *)
Theorem vga_refines hw v k h p cs :
  shows v p -> Forall (fun c => c <> 7) cs -> (intr_on k = true -> in_external_intr k = false) ->
  exists v' h', puts hw cs ((v, k), h) = Ok (tt, ((v', k), h')) /\ shows v' (foldl (fun p c => paper_putc c p) p cs) /\
    0 <= cx v' < COL_CNT /\ 0 <= cy v' < ROW_CNT /\ (cs <> [] -> cursor_shown v' h').
Proof.
  intros Hs Hcs Hk. revert v h p Hs. induction Hcs as [|c cs Hc Hcs IH]; intros v h p Hs.
  - exists v, h. destruct (shows_cursor v p Hs). done.
  - destruct (vga_putc_run hw v k h p c Hs Hc Hk) as (v1 & h1 & E1 & Hs1 & Hm). destruct (IH v1 h1 _ Hs1) as (v2 & h2 & E2 & Hs2 & Hx & Hy & Hm2).
    exists v2, h2. split; [cbn [puts]; by rewrite (run_bind _ _ _ _ _ E1)|]. do 3 (split; [done|]). intros _. destruct cs as [|c' cs]; [|by apply Hm2].
    cbn [puts] in E2. by injection E2 as <- <-.
Qed.

(** An empty screen with the cursor on the last row, and one row of text that is scrolled off the bottom by a new line. *)
Definition demo_screen : vga := mkVga (replicate 25 blank_row) 0 24 true.

Lemma demo_shows : shows demo_screen (mkPaper (replicate 25 blank_row) 24 0).
Proof. split; cbn [rows prow pcol demo_screen fb cx cy vinited]; rewrite ?length_replicate; try done; try lia. by apply Forall_replicate. Qed.

Lemma vga_refines_witness :
  exists v' h', puts (fun _ _ => 0) [72; 105; 10; 33] ((demo_screen, set_intr_on true (mkK ∅ [] [] [] ∅ 0 0 0 0 0 0 false 0 0 1 0 false false false 0 [] ∅ ∅ ∅)), []) =
      Ok (tt, ((v', set_intr_on true (mkK ∅ [] [] [] ∅ 0 0 0 0 0 0 false 0 0 1 0 false false false 0 [] ∅ ∅ ∅)), h')) /\
    fb v' = drop 1 (rows (foldl (fun p c => paper_putc c p) (mkPaper (replicate 25 blank_row) 24 0) [72; 105; 10; 33])) /\ cx v' = 1 /\ cy v' = 24.
Proof.
  destruct (vga_refines (fun _ _ => 0) demo_screen (set_intr_on true (mkK ∅ [] [] [] ∅ 0 0 0 0 0 0 false 0 0 1 0 false false false 0 [] ∅ ∅ ∅)) []
    (mkPaper (replicate 25 blank_row) 24 0) [72; 105; 10; 33] demo_shows) as (v' & h' & E & Hs & _).
  - repeat constructor; lia.
  - reflexivity.
  - exists v', h'. split; [exact E|]. destruct Hs as [_ _ Hf _ Hy Hx _ _]. split; [exact Hf|]. split; [exact Hx|exact Hy].
Defined.
