(* ===== verification/Clock.v ===== *)
(** Clocks: the interval timer of devices/pit.c, the speaker of devices/speaker.c, the
    real-time clock of devices/rtc.c, and the calibration and the real-time delays of
    devices/timer.c. *)
From Stdlib Require Import ZArith Lia.
From stdpp Require Import base numbers sorting gmap list relations.
From S2P Require Import Prelude.
From S2P Require Import Bitmap.
From S2P Require Import Thread.
From S2P Require Import Ports.

Local Open Scope Z_scope.

(** * The interval timer *)

Definition PIT_PORT_CONTROL : Z := 0x43.
Definition PIT_PORT_COUNTER (channel : Z) : Z := 0x40 + channel.
Definition PIT_HZ : Z := 1193180.

(** The kernel and the ports. *)
Abbreviation cM := (st (kstate * history)).

Definition liftk {A} (c : kM A) : cM A := fun s =>
  match c s.1 with
  | Ok (a, k') => Ok (a, (k', s.2))
  | Err e => Err e
  end.

Definition pit_count (frequency : Z) : Z :=
  if frequency <? 19 then 0
  else if PIT_HZ <? frequency then 2
  else u16 (Z.quot (PIT_HZ + Z.quot frequency 2) frequency).

Definition pit_configure_channel (channel mode frequency : Z) : cM unit :=
  assert ((channel =? 0) || (channel =? 2));;
  assert ((mode =? 2) || (mode =? 3));;
  let count := pit_count frequency in
  old ← liftk intr_disable;
  outb PIT_PORT_CONTROL (Z.lor (Z.lor (Z.shiftl channel 6) 0x30) (Z.shiftl mode 1));;
  outb (PIT_PORT_COUNTER channel) count;;
  outb (PIT_PORT_COUNTER channel) (Z.shiftr count 8);;
  liftk (intr_set_level old);; mret tt.

(** How many cycles a counter counts: 0 stands for 65536. *)
Definition pit_cycles (count : Z) : Z := if count =? 0 then 65536 else count.

(** From 19 to 1193180 periods per second, the counter counts the number of cycles of a period, rounded to the nearest. *)
Lemma pit_count_nearest f : 19 <= f <= PIT_HZ ->
  0 < pit_count f < 2 ^ 16 /\ 2 * Z.abs (pit_count f * f - PIT_HZ) <= f.
Proof.
  intros Hf. unfold pit_count, PIT_HZ in *. rewrite (proj2 (Z.ltb_ge f 19)), (proj2 (Z.ltb_ge 1193180 f)) by lia.
  rewrite !Z.quot_div_nonneg by (try apply Z.quot_pos; lia || (rewrite Z.quot_div_nonneg by lia; pose proof (Z.div_pos f 2); lia)).
  pose proof (Z.div_mod f 2 ltac:(lia)) as D2. pose proof (Z.mod_pos_bound f 2 ltac:(lia)) as M2.
  set (n := 1193180 + f / 2) in *. pose proof (Z.div_mod n f ltac:(lia)) as D. pose proof (Z.mod_pos_bound n f ltac:(lia)) as M.
  assert (0 < n / f) by (apply Z.div_str_pos; unfold n; pose proof (Z.div_pos f 2); lia).
  assert (n / f < 2 ^ 16) by (apply Z.div_lt_upper_bound; [lia|]; unfold n; lia).
  rewrite uwrap_id by (lia || unfold in_u; lia). split; [lia|]. rewrite Z.mul_comm. unfold n in *. lia.
Qed.

(** The two bytes that are written to the counter. *)
Lemma pit_bytes c : 0 <= c < 2 ^ 16 -> u8 c + 256 * u8 (Z.shiftr c 8) = c.
Proof.
  intros Hc. rewrite Z.shiftr_div_pow2 by lia. change (2 ^ 8) with 256. rewrite (uwrap_id 8 ltac:(lia) (c / 256)).
  - unfold uwrap. pose proof (Z.div_mod c 256 ltac:(lia)). change (2 ^ 8) with 256. lia.
  - unfold in_u. split; [apply Z.div_pos; lia|apply Z.div_lt_upper_bound; lia].
Qed.

(** Programming a channel leaves the kernel as it is and writes the mode, then the count, low byte first; the count is that of a
    frequency that the timer can have: for one that it can, the nearest, and for others the lowest or the highest. *)
Theorem pit_spec k h channel mode f :
  channel = 0 \/ channel = 2 -> mode = 2 \/ mode = 3 -> (intr_on k = true -> in_external_intr k = false) ->
  exists lo hi, pit_configure_channel channel mode f (k, h) =
      Ok (tt, (k, IoOut (0x40 + channel) hi :: IoOut (0x40 + channel) lo :: IoOut 0x43 (channel * 64 + 0x30 + mode * 2) :: h)) /\
    lo + 256 * hi = pit_count f /\
    (19 <= f <= PIT_HZ -> 2 * Z.abs (pit_cycles (pit_count f) * f - PIT_HZ) <= f) /\
    (f < 19 -> pit_cycles (pit_count f) = 65536) /\ (PIT_HZ < f -> pit_cycles (pit_count f) = 2).
Proof.
  intros Hch Hmo Hk. exists (u8 (pit_count f)), (u8 (Z.shiftr (pit_count f) 8)).
  assert (0 <= pit_count f < 2 ^ 16) as Hr.
  { unfold pit_count. destruct (f <? 19); [lia|]. destruct (PIT_HZ <? f); [lia|]. apply (uwrap_range 16). lia. }
  split; [|split; [by apply pit_bytes|split; [|split]]].
  - unfold pit_configure_channel, PIT_PORT_COUNTER, PIT_PORT_CONTROL.
    rewrite (run_bind _ _ _ tt (k, h)) by (by destruct Hch as [-> | ->]). rewrite (run_bind _ _ _ tt (k, h)) by (by destruct Hmo as [-> | ->]).
    rewrite (run_bind _ _ _ (intr_on k) (set_intr_on false k, h)) by done.
    rewrite (run_bind _ _ _ tt (set_intr_on false k, IoOut 0x43 (channel * 64 + 0x30 + mode * 2) :: h)) by (by destruct Hch as [-> | ->], Hmo as [-> | ->]).
    do 2 rewrite (run_bind _ _ _ _ _ eq_refl). unfold liftk, mbind, st_bind. cbn [fst snd]. by rewrite level_restored.
  - intros Hf. destruct (pit_count_nearest f Hf) as [H0 H1]. unfold pit_cycles. by rewrite (proj2 (Z.eqb_neq _ _)) by lia.
  - intros Hf. unfold pit_count. by rewrite (proj2 (Z.ltb_lt f 19)) by lia.
  - intros Hf. unfold pit_count. rewrite (proj2 (Z.ltb_ge f 19)), (proj2 (Z.ltb_lt _ _)) by (unfold PIT_HZ in *; lia). done.
Qed.

(** * The speaker *)

Definition SPEAKER_PORT_GATE : Z := 0x61.
Definition SPEAKER_GATE_ENABLE : Z := 0x03.

Section speaker.
Context (hw : history -> Z -> Z).

Definition speaker_off : cM unit :=
  old ← liftk intr_disable;
  v ← inb hw SPEAKER_PORT_GATE;
  outb SPEAKER_PORT_GATE (Z.land v (Z.lnot SPEAKER_GATE_ENABLE));;
  liftk (intr_set_level old);; mret tt.

Definition speaker_on (frequency : Z) : cM unit :=
  if (20 <=? frequency) && (frequency <=? 20000) then
    old ← liftk intr_disable;
    pit_configure_channel 2 3 frequency;;
    v ← inb hw SPEAKER_PORT_GATE;
    outb SPEAKER_PORT_GATE (Z.lor v SPEAKER_GATE_ENABLE);;
    liftk (intr_set_level old);; mret tt
  else speaker_off.

(** * Real-time sleep and delay *)

(** The number of loops of a busy wait.  [loops_per_tick] is unsigned, [num] is 64 bits wide, so that the product is. *)
Definition real_time_delay (loops_per_tick num denom : Z) : res Z :=
  if Z.rem denom 1000 =? 0 then
    Ok (Z.quot (s64 (Z.quot (s64 (loops_per_tick * num)) 1000 * TIMER_FREQ)) (Z.quot denom 1000))
  else Err EAssert.

(** A sleep of at least a tick lets other threads run; a shorter one is a busy wait. *)
Definition real_time_sleep (loops_per_tick num denom : Z) : kM (list cmd) :=
  let ticks := Z.quot (s64 (num * TIMER_FREQ)) denom in
  on ← gets intr_on; assert on;;
  if 0 <? ticks then timer_sleep ticks
  else
    match real_time_delay loops_per_tick num denom with
    | Ok _ => mret []
    | Err e => st_fail e
    end.

Definition timer_msleep (lpt ms : Z) : kM (list cmd) := real_time_sleep lpt ms 1000.
Definition timer_usleep (lpt us : Z) : kM (list cmd) := real_time_sleep lpt us 1000000.
Definition timer_nsleep (lpt ns : Z) : kM (list cmd) := real_time_sleep lpt ns 1000000000.

(** The beep: the speaker on, a sleep that ends in the commands of [timer_sleep], and the speaker off again. *)
Inductive beep := BeepNothing | BeepThen (sleep : list cmd).

Definition speaker_beep (lpt : Z) : cM beep :=
  on ← liftk (gets intr_on);
  if on : bool then speaker_on 440;; cs ← liftk (timer_msleep lpt 250); mret (BeepThen cs)
  else mret BeepNothing.

End speaker.

(** * Calibration *)

Section calibrate.
(** Whether so many loops take more than a tick: it depends on the speed of the processor. *)
Context (too_many_loops : Z -> bool).

(** The loop that doubles; [loops_per_tick] has 32 bits, and after as many steps it is zero. *)
Definition double_body (loops_per_tick : Z) : st unit (Z + Z) :=
  if negb (too_many_loops (u32 (Z.shiftl loops_per_tick 1))) then
    let l := u32 (Z.shiftl loops_per_tick 1) in
    assert (negb (l =? 0));; mret (inl l)
  else mret (inr loops_per_tick).

(** The loop over the next bits of [high_bit], from [test_bit] on. *)
Fixpoint refine_loop (n : nat) (high_bit test_bit loops_per_tick : Z) : Z :=
  match n with
  | O => loops_per_tick
  | S n =>
      if test_bit =? Z.shiftr high_bit 10 then loops_per_tick
      else
        refine_loop n high_bit (Z.shiftr test_bit 1)
          (if negb (too_many_loops (Z.lor high_bit test_bit)) then Z.lor loops_per_tick test_bit else loops_per_tick)
  end.

Definition timer_calibrate : st unit Z :=
  high_bit ← loop 33 double_body (Z.shiftl 1 10);
  mret (refine_loop 10 high_bit (Z.shiftr high_bit 1) high_bit).

End calibrate.

(** A processor that does [limit] loops in a tick. *)
Definition slower (limit loops : Z) : bool := limit <? loops.

Lemma double_run limit : forall n e, 10 <= e -> 2 ^ e <= limit < 2 ^ 31 -> (31 - e < Z.of_nat n) ->
  exists e', e <= e' <= 30 /\ 2 ^ e' <= limit < 2 ^ (e' + 1) /\ loop n (double_body (slower limit)) (2 ^ e) tt = Ok (2 ^ e', tt).
Proof.
  induction n as [|n IH]; intros e He Hl Hn; [exfalso|].
  { assert (e < 31) by (apply (Z.pow_lt_mono_r_iff 2); lia). lia. }
  assert (e < 31) as He31 by (apply (Z.pow_lt_mono_r_iff 2); lia). cbn [loop].
  assert (u32 (Z.shiftl (2 ^ e) 1) = 2 ^ (e + 1)) as Hd.
  { rewrite Z.shiftl_mul_pow2, <- Z.pow_add_r by lia. apply u32_id. split; [apply Z.pow_nonneg; lia|]. apply Z.pow_lt_mono_r; lia. }
  destruct (Z.ltb_spec limit (2 ^ (e + 1))) as [Hlt|Hge].
  - exists e. split; [lia|]. split; [lia|]. rewrite (run_bind _ _ _ (inr (2 ^ e)) tt); [done|].
    unfold double_body, slower. rewrite Hd. by rewrite (proj2 (Z.ltb_lt _ _)) by lia.
  - destruct (IH (e + 1)) as (e' & H1 & H2 & E); [lia|lia|lia|]. exists e'. split; [lia|]. split; [done|].
    rewrite (run_bind _ _ _ (inl (2 ^ (e + 1))) tt); [done|]. unfold double_body, slower. rewrite Hd.
    rewrite (proj2 (Z.ltb_ge _ _)) by lia. cbn [negb]. rewrite (run_bind _ _ _ tt tt); [done|].
    apply run_assert. rewrite (proj2 (Z.eqb_neq _ _)); [done|]. pose proof (Z.pow_pos_nonneg 2 (e + 1)). lia.
Qed.

Lemma lor_range w a b : 0 < w -> in_u w a -> in_u w b -> a <= Z.lor a b /\ in_u w (Z.lor a b).
Proof.
  intros Hw Ha Hb. pose proof Ha as [Ha0 _]. pose proof Hb as [Hb0 _]. split.
  - pose proof (Z.add_lor_land a b). assert (Z.land a b <= b); [|lia].
    apply Z.ldiff_le; [lia|]. apply Z.bits_inj'. intros n Hn. rewrite Z.ldiff_spec, Z.land_spec, Z.bits_0. by destruct (Z.testbit a n), (Z.testbit b n).
  - apply in_u_testbit; [done|by apply Z.lor_nonneg|]. intros k Hk. rewrite Z.lor_spec, (in_u_bits w a), (in_u_bits w b) by done. done.
Qed.

(** Bits below the highest one keep a number below twice its highest power of two. *)
Lemma refine_range f e n : forall tb l, 0 <= e -> 0 <= tb < 2 ^ e -> 2 ^ e <= l < 2 ^ (e + 1) -> 2 ^ e <= refine_loop f n (2 ^ e) tb l < 2 ^ (e + 1).
Proof.
  induction n as [|n IH]; intros tb l He Htb Hl; [done|]. cbn [refine_loop]. destruct (tb =? _); [done|]. apply IH; [done| |].
  - rewrite Z.shiftr_div_pow2 by lia. change (2 ^ 1) with 2. pose proof (Z.div_mod tb 2 ltac:(lia)). pose proof (Z.mod_pos_bound tb 2 ltac:(lia)). lia.
  - destruct (negb _); [|done]. destruct (lor_range (e + 1) l tb) as [H1 [H2 H3]]; [lia|unfold in_u; lia| |lia].
    unfold in_u. pose proof (Z.pow_lt_mono_r 2 e (e + 1)). lia.
Qed.

(** Calibration ends, and [loops_per_tick] is within a factor of two of the loops that the processor does in a tick. *)
Theorem calibrate_spec limit :
  2 ^ 10 <= limit < 2 ^ 31 -> exists l e, timer_calibrate (slower limit) tt = Ok (l, tt) /\ 2 ^ e <= limit < 2 ^ (e + 1) /\ 2 ^ e <= l < 2 ^ (e + 1).
Proof.
  intros Hl. destruct (double_run limit 33 10) as (e & He & Hle & E); [lia|lia|lia|]. unfold timer_calibrate. change (Z.shiftl 1 10) with (2 ^ 10).
  rewrite (run_bind _ _ _ _ _ E). eexists _, e. split; [done|]. split; [done|]. apply refine_range; [lia| |].
  - rewrite Z.shiftr_div_pow2 by lia. change (2 ^ 1) with 2. split; [apply Z.div_pos; [apply Z.pow_nonneg; lia|lia]|].
    apply Z.div_lt; [apply Z.pow_pos_nonneg; lia|lia].
  - split; [lia|]. apply Z.pow_lt_mono_r; lia.
Qed.

(** The second loop tests each bit with the highest bit only, and not with the bits it has already set: the result may take
    longer than a tick. *)
Theorem calibrate_overshoots : exists l, timer_calibrate (slower 3072) tt = Ok (l, tt) /\ slower 3072 l = true.
Proof. eexists. split; [by vm_compute|]. by vm_compute. Qed.

(** * The real-time clock *)

Definition CMOS_REG_SET : Z := 0x70.
Definition CMOS_REG_IO : Z := 0x71.
Definition RTC_REG_SEC : Z := 0.
Definition RTC_REG_MIN : Z := 2.
Definition RTC_REG_HOUR : Z := 4.
Definition RTC_REG_MDAY : Z := 7.
Definition RTC_REG_MON : Z := 8.
Definition RTC_REG_YEAR : Z := 9.

Definition bcd_to_bin (x : Z) : Z := Z.land x 0x0f + Z.shiftr x 4 * 10.

Definition days_per_month : list Z := [31; 28; 31; 30; 31; 30; 31; 31; 30; 31; 30; 31].

(** The loop over the months: reading beyond the table is a fault. *)
Fixpoint add_months (n : nat) (i time : Z) : res Z :=
  match n with
  | O => Ok time
  | S n =>
      match days_per_month !! Z.to_nat (i - 1) with
      | Some d => add_months n (i + 1) (u32 (time + d * 24 * 60 * 60))
      | None => Err EFault
      end
  end.

(** The seconds of a date: the part of [rtc_get_time] after the registers are read. *)
Definition rtc_seconds (sec min hour mday mon year : Z) : res Z :=
  let year := (if year <? 70 then year + 100 else year) - 70 in
  let time := u32 ((year * 365 + Z.quot (year - 1) 4) * 24 * 60 * 60) in
  time ← add_months (Z.to_nat mon) 1 time;
  let time := if (2 <? mon) && (Z.rem year 4 =? 0) then u32 (time + 24 * 60 * 60) else time in
  let time := u32 (time + (mday - 1) * 24 * 60 * 60) in
  let time := u32 (time + hour * 60 * 60) in
  let time := u32 (time + min * 60) in
  Ok (u32 (time + sec)).

Section rtc.
Context (hw : history -> Z -> Z).

Definition cmos_read (index : Z) : st (unit * history) Z :=
  outb CMOS_REG_SET index;; inb hw CMOS_REG_IO.

(** The time is read until it is stable; [tries] bounds how often. *)
Definition read_clock (_ : unit) : st (unit * history) (unit + (Z * Z * Z * Z * Z * Z)) :=
  sec ← cmos_read RTC_REG_SEC;
  min ← cmos_read RTC_REG_MIN;
  hour ← cmos_read RTC_REG_HOUR;
  mday ← cmos_read RTC_REG_MDAY;
  mon ← cmos_read RTC_REG_MON;
  year ← cmos_read RTC_REG_YEAR;
  sec' ← cmos_read RTC_REG_SEC;
  if bcd_to_bin sec =? bcd_to_bin sec' then
    mret (inr (bcd_to_bin sec, bcd_to_bin min, bcd_to_bin hour, bcd_to_bin mday, bcd_to_bin mon, bcd_to_bin year))
  else mret (inl tt).

Definition rtc_get_time (tries : nat) : st (unit * history) Z :=
  '(sec, min, hour, mday, mon, year) ← loop tries read_clock tt;
  match rtc_seconds sec min hour mday mon year with
  | Ok t => mret t
  | Err e => st_fail e
  end.
End rtc.

(** The clock of the hardware: reading the data port gives the register that was selected last. *)
Definition cmos (regs : Z -> Z) (h : history) (port : Z) : Z :=
  match h with
  | IoOut _ i :: _ => regs i
  | _ => 0
  end.

(** Noon of the first of January 2006, 1136116800 seconds after the epoch by the calendar. *)
Definition demo_regs (i : Z) : Z := if i =? 4 then 0x12 else if i =? 7 then 1 else if i =? 8 then 1 else if i =? 9 then 6 else 0.

(** The loop over the months adds the days of the current month too, and leap years are counted from 1970 instead of from 1972: the
    clock is a month ahead, but for a day. *)
Theorem rtc_month_ahead :
  exists h, rtc_get_time (cmos demo_regs) 1 (tt, []) = Ok (1136116800 + 30 * 86400, (tt, h)).
Proof. eexists. by vm_compute. Qed.
