(* ===== verification/Ustar.v ===== *)
(** Tar archives, lib/ustar.c: headers are made and parsed, and parsing what was made gives
    back the name, the type and the size. *)
From Stdlib Require Import ZArith Lia String.
From stdpp Require Import base numbers gmap list.
From S2P Require Import Prelude.
From S2P Require Import StringC.
From S2P Require Import StdlibC.
From S2P Require Import Stdio.

Local Open Scope Z_scope.

(** * Headers *)

Definition USTAR_HEADER_SIZE : Z := 512.

Inductive ustar_type := USTAR_REGULAR | USTAR_DIRECTORY | USTAR_EOF.

#[export] Instance ustar_type_eq_dec : EqDecision ustar_type.
Proof. solve_decision. Defined.

(** The byte of a type in a header. *)
Definition type_byte (t : ustar_type) : Z := match t with USTAR_REGULAR => 48 | USTAR_DIRECTORY => 53 | USTAR_EOF => -1 end.

(** Offset and size of each member of [struct ustar_header]. *)
Definition name_ofs : Z := 0.
Definition mode_ofs : Z := 100.
Definition uid_ofs : Z := 108.
Definition gid_ofs : Z := 116.
Definition size_ofs : Z := 124.
Definition mtime_ofs : Z := 136.
Definition chksum_ofs : Z := 148.
Definition typeflag_ofs : Z := 156.
Definition magic_ofs : Z := 257.
Definition version_ofs : Z := 263.
Definition uname_ofs : Z := 265.
Definition gname_ofs : Z := 297.
Definition prefix_ofs : Z := 345.

(** Bytes of a header, and the header with bytes stored at an offset. *)
Definition field (ofs len : Z) (h : list Z) : list Z := take (Z.to_nat len) (drop (Z.to_nat ofs) h).
Definition put (ofs : Z) (bs h : list Z) : list Z := take (Z.to_nat ofs) h ++ bs ++ drop (Z.to_nat ofs + length bs) h.

(** [calculate_chksum] from byte [i] on. *)
Fixpoint chksum_loop (i : Z) (h : list Z) (chksum : Z) : Z :=
  match h with
  | [] => chksum
  | b :: h =>
      let in_chksum_field := (chksum_ofs <=? i) && (i <? chksum_ofs + 8) in
      chksum_loop (i + 1) h (u32 (chksum + if in_chksum_field then 32 else b))
  end.

Definition calculate_chksum (h : list Z) : Z := chksum_loop 0 h 0.

(** Whether [memcmp] finds [p] at the start of a string. *)
Definition starts (p name : list Z) : bool := bool_decide (take (length p) (name ++ [0]) = p).

(** What follows the first slash. *)
Fixpoint after_slash (name : list Z) : list Z :=
  match name with
  | [] => []
  | c :: name => if c =? 47 then name else after_slash name
  end.

(** The loop of [strip_antisocial_prefixes]: each round takes at least one character. *)
Fixpoint strip_loop (fuel : nat) (name : list Z) : list Z :=
  match fuel with
  | O => name
  | S fuel =>
      if starts [47] name || starts [46; 47] name || starts [46; 46; 47] name then strip_loop fuel (after_slash name) else name
  end.

Definition strip_antisocial_prefixes (file_name : list Z) : list Z :=
  let name := strip_loop (length file_name) file_name in
  if bool_decide (name = []) || bool_decide (name = [46; 46]) then [46] else name.

(** [snprintf] of a format into a member of [size] bytes: what the format prints, cut off, and a null character. *)
Definition print_field (size : Z) (format : string) (args : list arg) : res (list Z) :=
  match __vprintf collect (chars format) args (∅, []) with
  | Ok (_, (_, out)) => Ok ((u8 <$> take (Z.to_nat (size - 1)) out) ++ [0])
  | Err e => Err e
  end.

(** The cleared header with every member but the checksum stored, in the order of the stores; the members that are printed are arguments. *)
Definition header_of (name mode sz mtime : list Z) (type : ustar_type) : list Z :=
  put uname_ofs (chars "root" ++ [0]) (put gname_ofs (chars "root" ++ [0]) (put version_ofs [48; 48] (put magic_ofs (chars "ustar" ++ [0])
    (put typeflag_ofs [type_byte type] (put mtime_ofs mtime (put size_ofs sz (put gid_ofs (chars "0000000" ++ [0]) (put uid_ofs (chars "0000000" ++ [0])
      (put mode_ofs mode (put name_ofs (name ++ [0]) (replicate (Z.to_nat USTAR_HEADER_SIZE) 0))))))))))).

(** The header, or [None] when the name is too long. *)
Definition ustar_make_header (file_name : list Z) (type : ustar_type) (size : Z) : res (option (list Z)) :=
  if bool_decide (type = USTAR_EOF) then Err EAssert else
  let name := strip_antisocial_prefixes file_name in
  if 99 <? Zlen name then Ok None else
  mode ← print_field 8 "%07o" [AWord (if bool_decide (type = USTAR_REGULAR) then 420 else 493)];
  sz ← print_field 12 "%011o" [AWord (u32 size)];
  mtime ← print_field 12 "%011o" [AWord 1136102400];
  let h := header_of name mode sz mtime type in
  chk ← print_field 8 "%07o" [AWord (calculate_chksum h)];
  Ok (Some (put chksum_ofs chk h)).

(** * Parsing *)

Definition ULONG_MAX : Z := 2 ^ 32 - 1.
Definition INT_MAX : Z := 2 ^ 31 - 1.

(** [parse_octal_field] from offset [ofs] on. *)
Fixpoint octal_loop (s : list Z) (ofs value : Z) : option Z :=
  match s with
  | [] => None
  | c :: s =>
      if (48 <=? c) && (c <=? 55) then
        if ULONG_MAX / 8 <? value then None else octal_loop s (ofs + 1) (u32 (c - 48 + value * 8))
      else if (c =? 32) || (c =? 0) then if 0 <? ofs then Some value else None
      else None
  end.

Definition parse_octal_field (s : list Z) : option Z := octal_loop s 0 0.

Definition is_all_zeros (block : list Z) : bool := forallb (fun b => b =? 0) block.

(** A null-terminated string in a member. *)
Fixpoint c_string (s : list Z) : list Z :=
  match s with
  | [] => []
  | c :: s => if c =? 0 then [] else c :: c_string s
  end.

(** A message, or the name, the type and the size. *)
Definition ustar_parse_header (h : list Z) : string + (option (list Z) * ustar_type * Z) :=
  if is_all_zeros h then inr (None, USTAR_EOF, 0) else
  if negb (bool_decide (field magic_ofs 6 h = chars "ustar" ++ [0])) then inl "not a ustar archive"%string else
  if negb (bool_decide (field version_ofs 2 h = [48; 48])) then inl "invalid ustar version"%string else
  match parse_octal_field (field chksum_ofs 8 h) with
  | None => inl "corrupt chksum field"%string
  | Some chksum =>
      if negb (chksum =? calculate_chksum h) then inl "checksum mismatch"%string else
      if negb (bool_decide (field (name_ofs + 99) 1 h = [0]) && bool_decide (field prefix_ofs 1 h = [0])) then inl "file name too long"%string else
      let name := Some (strip_antisocial_prefixes (c_string (field name_ofs 100 h))) in
      if bool_decide (field typeflag_ofs 1 h = [type_byte USTAR_REGULAR]) then
        match parse_octal_field (field size_ofs 12 h) with
        | None => inl "corrupt file size field"%string
        | Some size => if INT_MAX <? size then inl "file too large"%string else inr (name, USTAR_REGULAR, size)
        end
      else if bool_decide (field typeflag_ofs 1 h = [type_byte USTAR_DIRECTORY]) then inr (name, USTAR_DIRECTORY, 0)
      else inl "unimplemented file type"%string
  end.

(** * Octal numbers *)

Definition oct_digit (c : Z) : Prop := 48 <= c <= 55.

(** The number a sequence of octal digits denotes: the first digit first, and the last digit first. *)
Definition oct_from (n : Z) (ds : list Z) : Z := foldl (fun n d => d - 48 + n * 8) n ds.
Definition oct_rev (ds : list Z) : Z := foldr (fun d n => d - 48 + n * 8) 0 ds.

Lemma oct_from_rev ds : oct_from 0 (rev ds) = oct_rev ds.
Proof. unfold oct_from, oct_rev. induction ds as [|d ds IH]; [done|]. cbn [rev foldr]. rewrite foldl_app, IH. done. Qed.

Lemma digit_o n : 0 <= n < 8 -> b_digits base_o !! Z.to_nat n = Some (48 + n).
Proof.
  intros H. rewrite <- (Z2Nat.id n) at 2 by lia. assert (Z.to_nat n < 8)%nat as Hn by lia.
  generalize dependent (Z.to_nat n). clear. intros k Hk. do 8 (destruct k as [|k]; [done|]). lia.
Qed.

Lemma digit_loop_o k : forall fuel value cnt buf,
  0 <= value < 8 ^ Z.of_nat k -> (k < fuel)%nat -> (length buf + k <= 64)%nat ->
  exists ds, digit_loop fuel value base_o ZERO cnt buf = Ok (buf ++ ds) /\ oct_rev ds = value /\ Forall oct_digit ds /\ (length ds <= k)%nat.
Proof.
  induction k as [|k IH]; intros [|fuel] value cnt buf Hv Hf Hl; try lia; cbn [digit_loop].
  { assert (value = 0) as -> by lia. exists []. rewrite app_nil_r. split; [done|]. by repeat constructor. }
  destruct (Z.ltb_spec 0 value) as [Hpos|Hz].
  2:{ assert (value = 0) as -> by lia. exists []. rewrite app_nil_r. split; [done|]. split; [done|]. split; [constructor|cbn; lia]. }
  change (flag_set ZERO GROUP) with false. cbn [andb mbind res_bind].
  change (b_base base_o) with 8. pose proof (Z.mod_pos_bound value 8 ltac:(lia)). rewrite digit_o by done.
  unfold push at 1. rewrite (proj2 (Z.ltb_lt _ _)) by lia. cbn [mbind res_bind].
  destruct (IH fuel (value / 8) (cnt + 1) (buf ++ [48 + value mod 8])) as (ds & Hr & Hd & Hds & Hlen).
  - rewrite Nat2Z.inj_succ, Z.pow_succ_r in Hv by lia. split; [apply Z.div_pos; lia|apply Z.div_lt_upper_bound; lia].
  - lia.
  - rewrite length_app. cbn. lia.
  - exists ((48 + value mod 8) :: ds). rewrite Hr, <- app_assoc. split; [done|].
    split; [cbn [oct_rev foldr]; fold (oct_rev ds); pose proof (Z.div_mod value 8); lia|].
    split; [constructor; [unfold oct_digit; lia|done]|cbn; lia].
Qed.

Lemma collect_dup c n : forall m out, output_dup collect c n (m, out) = Ok (tt, (m, out ++ replicate n c)).
Proof.
  induction n as [|n IH]; intros m out; cbn [output_dup replicate]; [by rewrite app_nil_r|].
  rewrite (run_bind _ _ _ tt (m, out ++ [c])) by done. by rewrite IH, <- app_assoc.
Qed.

Lemma oct_from_zeros n ds : oct_from 0 (replicate n 48 ++ ds) = oct_from 0 ds.
Proof. unfold oct_from. rewrite foldl_app. f_equal. induction n as [|n IH]; [done|]. exact IH. Qed.

(** An octal conversion with leading zeros in a field that is wide enough. *)
Lemma format_octal v w m :
  (0 < w <= 20)%nat -> 0 <= v < 8 ^ Z.of_nat w ->
  exists ds, format_integer collect v false false base_o (mkConv ZERO (Z.of_nat w) (-1) INT) (m, []) = Ok (tt, (m, ds)) /\
    length ds = w /\ Forall oct_digit ds /\ oct_from 0 ds = v.
Proof.
  intros Hw Hv. destruct (digit_loop_o w 65 v 0 []) as (ds & Hr & Hd & Hf & Hl); [lia|lia|cbn; lia|]. cbn [app] in Hr.
  set (ds' := if decide (ds = []) then [48] else ds).
  assert (zero_loop 64 1 ds = Ok ds') as Hz.
  { unfold ds'. case_decide as E; [by subst|]. destruct ds as [|d ds]; [done|]. cbn [zero_loop]. by rewrite (proj2 (Z.ltb_ge _ _)) by (cbn; lia). }
  assert (oct_rev ds' = v /\ Forall oct_digit ds' /\ (1 <= length ds' <= w)%nat) as (Hd' & Hf' & Hl').
  { unfold ds'. case_decide as E; [subst; split; [done|split; [repeat constructor; unfold oct_digit; lia|cbn; lia]]|].
    destruct ds; [done|]. cbn in *. split; [done|]. split; [done|lia]. }
  exists (replicate (w - length ds') 48 ++ rev ds'). split; [|split; [|split]].
  - unfold format_integer. cbn [flags width precision]. change (flag_set ZERO POUND) with false. change (flag_set ZERO ZERO) with true.
    change (flag_set ZERO MINUS) with false. change (flag_set ZERO (Z.lor MINUS ZERO)) with true. cbn [andb negb].
    rewrite (run_bind _ _ _ ds (m, [])) by (by rewrite Hr). change (-1 <? 0) with true. cbn iota.
    rewrite (run_bind _ _ _ ds' (m, [])) by (by rewrite Hz). rewrite (run_bind _ _ _ ds' (m, [])) by done. cbv zeta.
    change (0 =? 0) with true. cbn [negb]. rewrite (proj2 (Z.ltb_ge (Z.of_nat w - _ - 0 - 0) 0)) by lia.
    do 3 rewrite (run_bind _ _ _ tt (m, [])) by done. rewrite (run_bind _ _ _ _ _ (collect_dup _ _ _ _)).
    rewrite (run_bind _ _ _ _ _ (collect_all _ _ _)). cbn [app]. replace (Z.to_nat (Z.of_nat w - Zlen ds' - 0 - 0)) with (w - length ds')%nat by lia. done.
  - rewrite length_app, length_replicate, length_rev. lia.
  - apply Forall_app. split; [apply Forall_replicate; unfold oct_digit; lia|by apply Forall_rev].
  - by rewrite oct_from_zeros, oct_from_rev.
Qed.

(** What [snprintf] leaves in a member for an octal number. *)
Definition octal_format (w : nat) : string := if decide (w = 7%nat) then "%07o" else "%011o".

Lemma print_octal w v : w = 7%nat \/ w = 11%nat -> 0 <= v < 8 ^ Z.of_nat w -> in_u 32 v ->
  exists ds, print_field (Z.of_nat w + 1) (octal_format w) [AWord v] = Ok (ds ++ [0]) /\ length ds = w /\ Forall oct_digit ds /\ oct_from 0 ds = v.
Proof.
  intros Hw Hv Hv32. destruct (format_octal v w ∅) as (ds & E & Hl & Hf & Ho); [lia|done|]. exists ds. split; [|done]. unfold print_field.
  assert (__vprintf collect (chars (octal_format w)) [AWord v] (∅, []) = Ok (tt, (∅, ds))) as ->.
  { unfold __vprintf. assert (exists k, length (chars (octal_format w)) + 24 = S (S k))%nat as [k ->] by (destruct Hw as [-> | ->]; eexists; reflexivity).
    assert (chars (octal_format w) = 37 :: match w with 7%nat => [48; 55; 111] | _ => [48; 49; 49; 111] end) as -> by (by destruct Hw as [-> | ->]).
    cbn [vprintf_loop]. change (negb (37 =? 37)) with false. cbn iota.
    assert ((default 0 (head match w with 7%nat => [48; 55; 111] | _ => [48; 49; 49; 111] end) =? 37) = false) as -> by (by destruct Hw as [-> | ->]). cbn iota.
    rewrite (run_bind _ _ _ ([111], mkConv ZERO (Z.of_nat w) (-1) INT, [AWord v]) (∅, [])) by (by destruct Hw as [-> | ->]). cbn [head default from_option id].
    rewrite (run_bind _ _ _ [] (∅, ds)); [done|]. unfold convert. change ((111 =? 100) || (111 =? 105)) with false. cbn iota.
    change ((111 =? 111) || (111 =? 117) || (111 =? 120) || (111 =? 88)) with true. cbn iota. change (111 =? 111) with true. cbn iota.
    rewrite (run_bind _ _ _ (v, []) (∅, [])).
    2:{ unfold unsigned_arg, va_word. cbn [type mbind res_bind fst snd lifto]. by rewrite u32_id by done. }
    by rewrite (run_bind _ _ _ _ _ E). }
  cbn iota. f_equal. f_equal. replace (Z.to_nat (Z.of_nat w + 1 - 1)) with (length ds) by lia. rewrite firstn_all.
  clear -Hf. induction Hf as [|d ds Hd _ IH]; [done|]. cbn. f_equal; [|exact IH]. apply uwrap_id; [lia|]. unfold oct_digit in Hd. unfold in_u. lia.
Qed.

(** Parsing a member that holds an octal number gives the number. *)
Lemma oct_from_mono ds : forall n, 0 <= n -> Forall oct_digit ds -> n <= oct_from n ds.
Proof.
  induction ds as [|d ds IH]; intros n Hn Hf; [done|]. apply Forall_cons in Hf as [Hd Hf]. cbn [oct_from foldl]. fold (oct_from (d - 48 + n * 8) ds).
  unfold oct_digit in Hd. specialize (IH (d - 48 + n * 8) ltac:(lia) Hf). lia.
Qed.

Lemma octal_loop_run ds : forall ofs n, 0 <= n -> 0 <= ofs -> (0 < ofs \/ ds <> []) -> Forall oct_digit ds -> oct_from n ds < 2 ^ 32 ->
  octal_loop (ds ++ [0]) ofs n = Some (oct_from n ds).
Proof.
  induction ds as [|d ds IH]; intros ofs n Hn Ho Hne Hf Hlt.
  - cbn. destruct Hne as [Hne|Hne]; [|done]. by rewrite (proj2 (Z.ltb_lt _ _)).
  - apply Forall_cons in Hf as [Hd Hf]. cbn [app octal_loop oct_from foldl] in *. fold (oct_from (d - 48 + n * 8) ds) in *. unfold oct_digit in Hd.
    rewrite (proj2 (Z.leb_le 48 d)), (proj2 (Z.leb_le d 55)) by lia. cbn [andb]. pose proof (oct_from_mono ds (d - 48 + n * 8) ltac:(lia) Hf).
    assert ((ULONG_MAX / 8 <? n) = false) as -> by (apply Z.ltb_ge; change (ULONG_MAX / 8) with 536870911; lia).
    rewrite u32_id by lia. apply IH; [lia|lia|lia|done|done].
Qed.

(** * Members *)

Lemma put_lookup ofs bs h i : 0 <= ofs -> ofs + Zlen bs <= Zlen h ->
  put ofs bs h !! i = if decide (ofs <= Z.of_nat i < ofs + Zlen bs) then bs !! (i - Z.to_nat ofs)%nat else h !! i.
Proof.
  intros H0 Hl. unfold put. assert (length (take (Z.to_nat ofs) h) = Z.to_nat ofs) as Hn by (rewrite length_take; lia).
  destruct (decide (i < Z.to_nat ofs)%nat).
  - rewrite lookup_app_l, lookup_take_lt by lia. by rewrite decide_False by lia.
  - rewrite lookup_app_r by lia. rewrite Hn. case_decide.
    + by rewrite lookup_app_l by lia.
    + rewrite lookup_app_r, lookup_drop by lia. f_equal. lia.
Qed.

Lemma put_length ofs bs h : 0 <= ofs -> ofs + Zlen bs <= Zlen h -> length (put ofs bs h) = length h.
Proof. intros H0 Hl. unfold put. rewrite !length_app, length_take, length_drop. lia. Qed.

Lemma field_lookup ofs len h i : field ofs len h !! i = if decide (i < Z.to_nat len)%nat then h !! (Z.to_nat ofs + i)%nat else None.
Proof. unfold field. case_decide; [by rewrite lookup_take_lt, lookup_drop|by rewrite lookup_take_ge by lia]. Qed.

Lemma field_same ofs bs h len : 0 <= ofs -> ofs + Zlen bs <= Zlen h -> len = Zlen bs -> field ofs len (put ofs bs h) = bs.
Proof.
  intros H0 Hl ->. apply list_eq. intros i. rewrite field_lookup. case_decide.
  - rewrite put_lookup, decide_True by lia. f_equal. lia.
  - symmetry. apply lookup_ge_None_2. lia.
Qed.

Lemma field_other ofs bs h o len : 0 <= ofs -> 0 <= o -> ofs + Zlen bs <= Zlen h -> o + len <= ofs \/ ofs + Zlen bs <= o -> field o len (put ofs bs h) = field o len h.
Proof.
  intros H0 Ho Hl Hd. apply list_eq. intros i. rewrite !field_lookup. case_decide; [|done]. rewrite put_lookup, decide_False by lia. done.
Qed.

Abbreviation is_bytes := (Forall (fun b => 0 <= b < 256)).

Lemma put_bytes ofs bs h : is_bytes bs -> is_bytes h -> is_bytes (put ofs bs h).
Proof. intros Hb Hh. unfold put. repeat apply Forall_app_2; [by apply Forall_take|done|by apply Forall_drop]. Qed.

(** * The checksum *)

(** It does not depend on the member that holds it. *)
Lemma chksum_loop_ext h : forall h' i c,
  length h' = length h -> (forall j, ~ (chksum_ofs <= i + Z.of_nat j < chksum_ofs + 8) -> h !! j = h' !! j) -> chksum_loop i h' c = chksum_loop i h c.
Proof.
  induction h as [|b h IH]; intros [|b' h'] i c Hl Hj; try done. cbn [chksum_loop]. injection Hl as Hl.
  assert ((if (chksum_ofs <=? i) && (i <? chksum_ofs + 8) then 32 else b') = (if (chksum_ofs <=? i) && (i <? chksum_ofs + 8) then 32 else b)) as ->.
  { destruct (Z.leb_spec chksum_ofs i), (Z.ltb_spec i (chksum_ofs + 8)); cbn [andb]; [done|..]; specialize (Hj 0%nat); cbn in Hj; assert (Some b = Some b') as [=] by (apply Hj; lia); done. }
  apply IH; [done|]. intros j Hne. apply (Hj (S j)). lia.
Qed.

Lemma chksum_put chk h : length chk = 8%nat -> length h = 512%nat -> calculate_chksum (put chksum_ofs chk h) = calculate_chksum h.
Proof.
  intros Hc Hh. apply chksum_loop_ext.
  - apply put_length; unfold chksum_ofs; lia.
  - intros j Hj. rewrite put_lookup by (unfold chksum_ofs; lia). rewrite decide_False; [done|]. unfold chksum_ofs in *. lia.
Qed.

Lemma chksum_range h : forall i c, is_bytes h -> 0 <= c -> c + 256 * Zlen h < 2 ^ 32 -> 0 <= chksum_loop i h c <= c + 256 * Zlen h.
Proof.
  induction h as [|b h IH]; intros i c Hb Hc Hlt; [cbn in *; lia|]. apply Forall_cons in Hb as [Hb Hh]. cbn [length] in Hlt. cbn [chksum_loop length].
  destruct (_ && _); rewrite u32_id by lia; (eapply Z.le_trans in Hc; [|reflexivity]);
    [destruct (IH (i + 1) (c + 32) Hh ltac:(lia) ltac:(lia))|destruct (IH (i + 1) (c + b) Hh ltac:(lia) ltac:(lia))]; lia.
Qed.

(** * Names *)

Abbreviation is_name := (Forall (fun b => 0 < b < 256)).

(** A name that an archive may have: no prefix that leaves the directory it is extracted to. *)
Definition harmless (name : list Z) : Prop :=
  name <> [] /\ name <> [46; 46] /\ starts [47] name = false /\ starts [46; 47] name = false /\ starts [46; 46; 47] name = false.

Lemma after_slash_length name : (length (after_slash name) <= length name - 1)%nat.
Proof. induction name as [|c name IH]; cbn; [lia|]. destruct (c =? 47); lia. Qed.

Lemma after_slash_name name : is_name name -> is_name (after_slash name).
Proof. induction 1 as [|c name Hc Hn IH]; cbn; [done|]. by destruct (c =? 47). Qed.

Lemma strip_loop_spec fuel : forall name, (length name <= fuel)%nat -> is_name name ->
  is_name (strip_loop fuel name) /\ starts [47] (strip_loop fuel name) = false /\ starts [46; 47] (strip_loop fuel name) = false /\
  starts [46; 46; 47] (strip_loop fuel name) = false.
Proof.
  induction fuel as [|fuel IH]; intros name Hl Hn; [by destruct name; cbn in Hl; try lia|]. cbn [strip_loop].
  destruct (starts [47] name || starts [46; 47] name || starts [46; 46; 47] name) eqn:E.
  - apply IH; [|by apply after_slash_name]. pose proof (after_slash_length name). lia.
  - apply orb_false_iff in E as [E E3]. apply orb_false_iff in E as [E1 E2]. done.
Qed.

Lemma strip_spec name : is_name name -> is_name (strip_antisocial_prefixes name) /\ harmless (strip_antisocial_prefixes name).
Proof.
  intros Hn. unfold strip_antisocial_prefixes. destruct (strip_loop_spec (length name) name ltac:(lia) Hn) as (H0 & H1 & H2 & H3).
  set (r := strip_loop _ _) in *. destruct (bool_decide (r = [])) eqn:B1; [|destruct (bool_decide (r = [46; 46])) eqn:B2]; cbn [orb].
  - split; [repeat constructor; lia|]. by repeat split.
  - split; [repeat constructor; lia|]. by repeat split.
  - apply bool_decide_eq_false in B1. apply bool_decide_eq_false in B2. by repeat split.
Qed.

Lemma strip_harmless name : harmless name -> strip_antisocial_prefixes name = name.
Proof.
  intros (H1 & H2 & H3 & H4 & H5). unfold strip_antisocial_prefixes.
  assert (strip_loop (length name) name = name) as -> by (destruct (length name); cbn [strip_loop]; by rewrite ?H3, ?H4, ?H5).
  rewrite !bool_decide_eq_false_2 by done. done.
Qed.

Lemma c_string_app name rest : is_name name -> c_string (name ++ 0 :: rest) = name.
Proof. induction 1 as [|c name Hc _ IH]; [done|]. cbn. rewrite (proj2 (Z.eqb_neq c 0)) by lia. by rewrite IH. Qed.

(** * Making and parsing *)

(** A member in its place. *)
Definition fits (ofs : Z) (bs : list Z) : Prop := 0 <= ofs /\ ofs + Zlen bs <= 512.

Lemma put512 ofs bs h : length h = 512%nat -> fits ofs bs -> length (put ofs bs h) = 512%nat.
Proof. intros Hh [H0 Hl]. rewrite put_length; [done|done|lia]. Qed.

Lemma field_same512 ofs bs h len : length h = 512%nat -> fits ofs bs -> len = Zlen bs -> field ofs len (put ofs bs h) = bs.
Proof. intros Hh [H0 Hl]. apply field_same; [done|lia]. Qed.

Lemma field_other512 ofs bs h o len : length h = 512%nat -> fits ofs bs -> 0 <= o -> o + len <= ofs \/ ofs + Zlen bs <= o -> field o len (put ofs bs h) = field o len h.
Proof. intros Hh [H0 Hl] Ho. apply field_other; [done|done|lia]. Qed.

Create HintDb ustar.
#[export] Hint Resolve put512 : ustar.

Section header.
Context (name mode sz mtime : list Z) (type : ustar_type).
Context (Hname : (length name <= 99)%nat) (Hmode : length mode = 8%nat) (Hsz : length sz = 12%nat) (Hmtime : length mtime = 12%nat).

Lemma fits_members :
  fits name_ofs (name ++ [0]) /\ fits mode_ofs mode /\ fits uid_ofs (chars "0000000" ++ [0]) /\ fits gid_ofs (chars "0000000" ++ [0]) /\
  fits size_ofs sz /\ fits mtime_ofs mtime /\ fits typeflag_ofs [type_byte type] /\ fits magic_ofs (chars "ustar" ++ [0]) /\
  fits version_ofs [48; 48] /\ fits gname_ofs (chars "root" ++ [0]) /\ fits uname_ofs (chars "root" ++ [0]).
Proof using All.
  unfold fits. rewrite length_app. rewrite Hmode, Hsz, Hmtime. repeat split; try (by vm_compute). cbn [length]. unfold name_ofs. lia.
Qed.

Lemma header_length : length (header_of name mode sz mtime type) = 512%nat.
Proof using All.
  destruct fits_members as (F1 & F2 & F3 & F4 & F5 & F6 & F7 & F8 & F9 & F10 & F11). unfold header_of.
  assert (length (replicate (Z.to_nat USTAR_HEADER_SIZE) 0) = 512%nat) as F0 by done. eauto 12 with ustar.
Qed.

Ltac skip_members :=
  unfold header_of;
  repeat (rewrite field_other512; [|eauto 12 with ustar|done|vm_compute; discriminate|rewrite ?length_app, ?Hmode, ?Hsz, ?Hmtime; vm_compute; first [left; discriminate|right; discriminate]]).

Lemma header_fields :
  let h := header_of name mode sz mtime type in
  field magic_ofs 6 h = chars "ustar" ++ [0] /\ field version_ofs 2 h = [48; 48] /\ field typeflag_ofs 1 h = [type_byte type] /\
  field size_ofs 12 h = sz /\ field prefix_ofs 1 h = [0] /\ field name_ofs 100 h = field name_ofs 100 (put name_ofs (name ++ [0]) (replicate (Z.to_nat USTAR_HEADER_SIZE) 0)).
Proof using All.
  destruct fits_members as (F1 & F2 & F3 & F4 & F5 & F6 & F7 & F8 & F9 & F10 & F11).
  assert (length (replicate (Z.to_nat USTAR_HEADER_SIZE) 0) = 512%nat) as F0 by done. intros h. unfold h. split_and!.
  - skip_members. apply field_same512; eauto 12 with ustar.
  - skip_members. apply field_same512; eauto 12 with ustar.
  - skip_members. apply field_same512; eauto 12 with ustar.
  - skip_members. apply field_same512; [eauto 12 with ustar|done|by rewrite Hsz].
  - skip_members. rewrite field_other512; [done|done|done|done|]. right. rewrite length_app. unfold prefix_ofs, name_ofs. cbn [length]. lia.
  - skip_members. done.
Qed.

(** The name, null-terminated. *)
Lemma name_member : is_name name ->
  let h := header_of name mode sz mtime type in c_string (field name_ofs 100 h) = name /\ field (name_ofs + 99) 1 h = [0].
Proof using All.
  intros Hn h. destruct header_fields as (_ & _ & _ & _ & _ & Hf). fold h in Hf.
  change (Z.to_nat USTAR_HEADER_SIZE) with 512%nat in Hf. assert (put name_ofs (name ++ [0]) (replicate 512 0) = name ++ 0 :: replicate (511 - length name) 0) as Hp.
  { unfold put, name_ofs. change (Z.to_nat 0) with 0%nat. cbn [take app Nat.add]. rewrite length_app, drop_replicate, <- app_assoc. cbn [length app].
    by replace (512 - (length name + 1))%nat with (511 - length name)%nat by lia. }
  rewrite Hp in Hf. split.
  - rewrite Hf. unfold field, name_ofs. change (Z.to_nat 0) with 0%nat. change (Z.to_nat 100) with 100%nat. rewrite drop_0.
    rewrite take_app_ge by lia. destruct (100 - length name)%nat as [|k] eqn:E; [lia|]. cbn [take]. by apply c_string_app.
  - assert (field (name_ofs + 99) 1 h = drop 99 (field name_ofs 100 h)) as ->.
    { unfold field, name_ofs. change (Z.to_nat (0 + 99)) with 99%nat. change (Z.to_nat 0) with 0%nat. change (Z.to_nat 100) with 100%nat. change (Z.to_nat 1) with 1%nat.
      by rewrite drop_0, skipn_firstn_comm. }
    rewrite Hf. unfold field, name_ofs. change (Z.to_nat 0) with 0%nat. change (Z.to_nat 100) with 100%nat. rewrite drop_0.
    change (name ++ 0 :: replicate (511 - length name) 0) with (name ++ replicate (S (511 - length name)) 0).
    rewrite take_app_ge, take_replicate, drop_app_ge, drop_replicate by lia. by replace ((100 - length name) `min` S (511 - length name) - (99 - length name))%nat with 1%nat by lia.
Qed.

Lemma header_bytes : is_name name -> is_bytes mode -> is_bytes sz -> is_bytes mtime -> type <> USTAR_EOF -> is_bytes (header_of name mode sz mtime type).
Proof using All.
  intros H1 H2 H3 H4 H5. unfold header_of.
  assert (is_bytes (name ++ [0])) by (apply Forall_app_2; [by eapply Forall_impl; [exact H1|]; cbn; lia|repeat constructor; lia]).
  assert (0 <= type_byte type < 256) by (by destruct type).
  repeat (apply put_bytes; [try done; (apply (bool_decide_unpack _); by vm_compute) || (repeat constructor; lia)|]). apply Forall_replicate. lia.
Qed.
End header.

Lemma all_zeros_field ofs len h : is_all_zeros h = true -> Forall (fun b => b = 0) (field ofs len h).
Proof.
  intros H. apply Forall_take, Forall_drop. unfold is_all_zeros in H. rewrite forallb_forall in H. apply Forall_forall. intros x Hx.
  apply Z.eqb_eq, H. by apply list_elem_of_In.
Qed.

Lemma octal_member ds : Forall oct_digit ds -> is_bytes (ds ++ [0]).
Proof. intros H. apply Forall_app_2; [|repeat constructor; lia]. eapply Forall_impl; [exact H|]. unfold oct_digit. cbn. lia. Qed.

(** What parsing needs to find in a header. *)
Record parseable (h name : list Z) (type : ustar_type) (size : Z) : Prop := {
  pa_magic : field magic_ofs 6 h = chars "ustar" ++ [0];
  pa_version : field version_ofs 2 h = [48; 48];
  pa_chksum : parse_octal_field (field chksum_ofs 8 h) = Some (calculate_chksum h);
  pa_name : c_string (field name_ofs 100 h) = name;
  pa_end : field (name_ofs + 99) 1 h = [0];
  pa_prefix : field prefix_ofs 1 h = [0];
  pa_type : field typeflag_ofs 1 h = [type_byte type];
  pa_size : parse_octal_field (field size_ofs 12 h) = Some size
}.

Lemma parse_run h name type size :
  parseable h name type size -> harmless name -> type <> USTAR_EOF -> size <= INT_MAX ->
  ustar_parse_header h = inr (Some name, type, if bool_decide (type = USTAR_REGULAR) then size else 0).
Proof.
  intros [P1 P2 P3 P4 P5 P6 P7 P8] Hh Ht Hs. unfold ustar_parse_header. destruct (is_all_zeros h) eqn:Ez.
  { apply (all_zeros_field magic_ofs 6) in Ez. rewrite P1 in Ez. by inversion Ez. }
  rewrite P1, P2, P3, P4, P5, P6, P7, P8, Z.eqb_refl, strip_harmless by done. rewrite (proj2 (Z.ltb_ge _ _)) by done. by destruct type.
Qed.

Lemma octal_field ds n : length ds = S n -> Forall oct_digit ds -> oct_from 0 ds < 2 ^ 32 -> parse_octal_field (ds ++ [0]) = Some (oct_from 0 ds).
Proof. intros Hl Hf Ho. apply octal_loop_run; [lia|lia|right; by destruct ds|done|done]. Qed.

Lemma res_bind_ok {A B} (m : res A) (f : A -> res B) a r : m = Ok a -> f a = r -> (m ≫= f) = r.
Proof. by intros -> <-. Qed.

Lemma make_run file_name type size mode sz mtime chk :
  type <> USTAR_EOF -> Zlen (strip_antisocial_prefixes file_name) <= 99 ->
  print_field 8 "%07o" [AWord (if bool_decide (type = USTAR_REGULAR) then 420 else 493)] = Ok mode ->
  print_field 12 "%011o" [AWord (u32 size)] = Ok sz -> print_field 12 "%011o" [AWord 1136102400] = Ok mtime ->
  print_field 8 "%07o" [AWord (calculate_chksum (header_of (strip_antisocial_prefixes file_name) mode sz mtime type))] = Ok chk ->
  ustar_make_header file_name type size = Ok (Some (put chksum_ofs chk (header_of (strip_antisocial_prefixes file_name) mode sz mtime type))).
Proof.
  intros Ht Hl Em Es Et Ec. unfold ustar_make_header. rewrite (bool_decide_eq_false_2 (type = USTAR_EOF)) by done. cbv zeta.
  rewrite (proj2 (Z.ltb_ge _ _) Hl). apply (res_bind_ok _ _ _ _ Em), (res_bind_ok _ _ _ _ Es), (res_bind_ok _ _ _ _ Et), (res_bind_ok _ _ _ _ Ec). reflexivity.
Qed.

(** The printed checksum does not change what is parsed. *)
Lemma summed_parseable name mode sz mtime type size chk :
  (length name <= 99)%nat -> is_name name -> length mode = 8%nat -> length sz = 11%nat -> length mtime = 12%nat ->
  Forall oct_digit sz -> oct_from 0 sz = size -> size < 2 ^ 32 ->
  let h := header_of name mode (sz ++ [0]) mtime type in
  length chk = 7%nat -> Forall oct_digit chk -> oct_from 0 chk = calculate_chksum h -> calculate_chksum h < 2 ^ 32 ->
  length (put chksum_ofs (chk ++ [0]) h) = 512%nat /\ parseable (put chksum_ofs (chk ++ [0]) h) name type size.
Proof.
  intros Hl Hn Lm Ls Lt Fs Os Hs h Lc Fc Oc Hc.
  assert (length (sz ++ [0]) = 12%nat) as Ls' by (rewrite length_app; cbn; lia). assert (length (chk ++ [0]) = 8%nat) as Lc' by (rewrite length_app; cbn; lia).
  pose proof (header_length name mode (sz ++ [0]) mtime type Hl Lm Ls' Lt) as H512.
  destruct (header_fields name mode (sz ++ [0]) mtime type Hl Lm Ls' Lt) as (M1 & M2 & M3 & M4 & M5 & _).
  destruct (name_member name mode (sz ++ [0]) mtime type Hl Lm Ls' Lt Hn) as [M6 M7].
  fold h in H512, M1, M2, M3, M4, M5, M6, M7. clearbody h.
  assert (fits chksum_ofs (chk ++ [0])) as Hfit by (unfold fits; rewrite Lc'; by vm_compute). split; [by apply put512|].
  assert (forall o len, 0 <= o -> o + len <= 148 \/ 156 <= o -> field o len (put chksum_ofs (chk ++ [0]) h) = field o len h) as Hother.
  { intros o len Ho Hd. apply field_other512; [done|done|done|]. rewrite Lc'. unfold chksum_ofs. lia. }
  constructor.
  - rewrite Hother; [done|done|by right].
  - rewrite Hother; [done|done|by right].
  - rewrite chksum_put, field_same512, <- Oc by (by rewrite ?Lc'). apply (octal_field _ 6); [done|done|lia].
  - rewrite Hother; [done|done|by left].
  - rewrite Hother; [done|done|by left].
  - rewrite Hother; [done|done|by right].
  - rewrite Hother; [done|done|by right].
  - rewrite Hother, M4, <- Os by (done || by left). apply (octal_field _ 10); [done|done|lia].
Qed.

(** The proof of the round trip, for the routines that use headers. *)
Lemma made_parses file_name type size :
  is_name file_name -> type <> USTAR_EOF -> 0 <= size <= INT_MAX ->
  let name := strip_antisocial_prefixes file_name in
  harmless name /\
  (99 < Zlen name -> ustar_make_header file_name type size = Ok None) /\
  (Zlen name <= 99 -> exists h, ustar_make_header file_name type size = Ok (Some h) /\ length h = 512%nat /\
     ustar_parse_header h = inr (Some name, type, if bool_decide (type = USTAR_REGULAR) then size else 0)).
Proof.
  intros Hfn Htype Hsize name. destruct (strip_spec file_name Hfn) as [Hn Hh]. fold name in Hn, Hh. split; [done|]. split.
  { intros H. unfold ustar_make_header. rewrite (bool_decide_eq_false_2 (type = USTAR_EOF)) by done. fold name. by rewrite (proj2 (Z.ltb_lt _ _)). }
  intros Hlen. assert (length name <= 99)%nat as Hl by lia. unfold INT_MAX in Hsize.
  destruct (print_octal 7 (if bool_decide (type = USTAR_REGULAR) then 420 else 493)) as (mode & Em & Lm & Fm & _); [by left|case_bool_decide; cbn; lia|case_bool_decide; unfold in_u; lia|].
  destruct (print_octal 11 (u32 size)) as (sz & Es & Ls & Fs & Os); [by right|rewrite u32_id by lia; cbn; lia|apply uwrap_range; lia|].
  destruct (print_octal 11 1136102400) as (mt & Et & Lt & Ft & _); [by right|cbn; lia|unfold in_u; lia|]. rewrite u32_id in Os by lia.
  assert (length (mode ++ [0]) = 8%nat /\ length (sz ++ [0]) = 12%nat /\ length (mt ++ [0]) = 12%nat) as (L1 & L2 & L3) by (rewrite !length_app; cbn; lia).
  set (h := header_of name (mode ++ [0]) (sz ++ [0]) (mt ++ [0]) type).
  assert (0 <= calculate_chksum h <= 131072) as Hc.
  { pose proof (header_length name _ _ _ type Hl L1 L2 L3) as H512. fold h in H512.
    assert (is_bytes h) as Hb by (apply header_bytes; [done..|by apply octal_member|by apply octal_member|by apply octal_member|done]).
    pose proof (chksum_range h 0 0 Hb ltac:(lia)) as H. rewrite H512 in H. apply H. by vm_compute. }
  destruct (print_octal 7 (calculate_chksum h)) as (chk & Ec & Lc & Fc & Oc); [by left|change (8 ^ Z.of_nat 7) with 2097152; lia|unfold in_u; lia|].
  edestruct (summed_parseable name (mode ++ [0]) sz (mt ++ [0]) type size chk Hl Hn L1 Ls L3 Fs Os) as [H512 Hp]; [lia|exact Lc|exact Fc|exact Oc|fold h; lia|].
  exists (put chksum_ofs (chk ++ [0]) h). split; [|split; [exact H512|apply parse_run; [exact Hp|exact Hh|exact Htype|unfold INT_MAX; lia]]].
  apply make_run; [done|done|exact Em|exact Es|exact Et|exact Ec].
Qed.

(** C32: Tar headers.  Making a header for a file or a directory fails exactly when its name, without the prefixes that are
    stripped, has more than 99 characters; else the header has 512 bytes, and parsing it gives the stripped name, the type, and the size, which for a
    directory is 0.  The stripped name is never empty, does not start with a slash or with a component [.] or [..], and is not [..]. *)
Theorem ustar_roundtrip file_name type size :
  is_name file_name -> type <> USTAR_EOF -> 0 <= size <= INT_MAX ->
  let name := strip_antisocial_prefixes file_name in
  harmless name /\
  (99 < Zlen name -> ustar_make_header file_name type size = Ok None) /\
  (Zlen name <= 99 -> exists h, ustar_make_header file_name type size = Ok (Some h) /\ length h = 512%nat /\
     ustar_parse_header h = inr (Some name, type, if bool_decide (type = USTAR_REGULAR) then size else 0)).
Proof. apply made_parses. Qed.

Lemma ustar_roundtrip_witness :
  exists h, ustar_make_header (chars "/../a/b") USTAR_REGULAR 1234567 = Ok (Some h) /\
    ustar_parse_header h = inr (Some (chars "a/b"), USTAR_REGULAR, 1234567).
Proof.
  destruct (ustar_roundtrip (chars "/../a/b") USTAR_REGULAR 1234567) as (_ & _ & H).
  - apply (bool_decide_unpack _). by vm_compute.
  - discriminate.
  - vm_compute. split; discriminate.
  - destruct H as (h & E & _ & P); [vm_compute; discriminate|]. exists h. split; [exact E|exact P].
Defined.
