(* ===== verification/Block.v ===== *)
(** Block devices and partitions: devices/block.c and devices/partition.c.  A device is
    a disk or a part of another device; accesses go down to a sector of a disk. *)
From Stdlib Require Import ZArith Lia String.
From stdpp Require Import base numbers gmap list.
From S2P Require Import Prelude.
From S2P Require Import StringC.
From S2P Require Import StdlibC.
From S2P Require Import Stdio.

Local Open Scope Z_scope.

(** * Data *)

Definition BLOCK_SECTOR_SIZE : Z := 512.

Inductive block_type := BLOCK_KERNEL | BLOCK_FILESYS | BLOCK_SCRATCH | BLOCK_SWAP | BLOCK_RAW | BLOCK_FOREIGN.

#[export] Instance block_type_eq_dec : EqDecision block_type.
Proof. solve_decision. Defined.

Definition type_nr (t : block_type) : Z :=
  match t with BLOCK_KERNEL => 0 | BLOCK_FILESYS => 1 | BLOCK_SCRATCH => 2 | BLOCK_SWAP => 3 | BLOCK_RAW => 4 | BLOCK_FOREIGN => 5 end.

Definition BLOCK_ROLE_CNT : Z := 4.
Definition BLOCK_CNT : Z := 6.

Definition block_type_name (t : block_type) : string :=
  match t with
  | BLOCK_KERNEL => "kernel" | BLOCK_FILESYS => "filesys" | BLOCK_SCRATCH => "scratch" | BLOCK_SWAP => "swap"
  | BLOCK_RAW => "raw" | BLOCK_FOREIGN => "foreign"
  end.

(** A partition: the device it is a part of, and its first sector there. *)
Record partition := mkPart {
  p_block : Z;
  start : Z
}.

(** The operations of a driver with the data they are called with. *)
Inductive driver := Disk (d : Z) | Partition (p : partition).

Record block := mkBlock {
  name : list Z;
  type : block_type;
  size : Z;
  ops : driver;
  read_cnt : Z;
  write_cnt : Z
}.

Definition set_read_cnt (v : Z) (b : block) : block := mkBlock (name b) (type b) (size b) (ops b) v (write_cnt b).
Definition set_write_cnt (v : Z) (b : block) : block := mkBlock (name b) (type b) (size b) (ops b) (read_cnt b) v.

(** What the routines print. *)
Inductive note :=
| NoPartitions
| TablePast (sector : Z)
| BadSignature
| BadExtended (sector : Z)
| ExtendedIn (sector : Z)
| StartsPast (nr start : Z)
| EndsPast (nr last : Z)
| Stats (name : list Z) (type : string) (reads writes : Z)
| Registered (name : list Z) (size : Z) (info : list Z).

(** The devices by address, in the order in which they were found, and by role; the sectors of the disks; the address of
    the next device that is allocated. *)
Record devs := mkDevs {
  blocks : gmap Z block;
  all_blocks : list Z;
  block_by_role : list Z;
  sectors : gmap (Z * Z) (list Z);
  brk : Z;
  notes : list note
}.

Definition set_blocks (v : gmap Z block) (s : devs) : devs := mkDevs v (all_blocks s) (block_by_role s) (sectors s) (brk s) (notes s).
Definition set_sectors (v : gmap (Z * Z) (list Z)) (s : devs) : devs := mkDevs (blocks s) (all_blocks s) (block_by_role s) v (brk s) (notes s).
Definition set_roles (v : list Z) (s : devs) : devs := mkDevs (blocks s) (all_blocks s) v (sectors s) (brk s) (notes s).
Definition set_notes (v : list note) (s : devs) : devs := mkDevs (blocks s) (all_blocks s) (block_by_role s) (sectors s) (brk s) v.

Abbreviation bM := (st devs).

Definition gets {A} (f : devs -> A) : bM A := fun s => Ok (f s, s).
Definition modify (f : devs -> devs) : bM unit := fun s => Ok (tt, f s).

Definition say (n : note) : bM unit := modify (fun s => set_notes (notes s ++ [n]) s).

Definition get_block (b : Z) : bM block := fun s =>
  match blocks s !! b with
  | Some x => Ok (x, s)
  | None => Err EFault
  end.

Definition upd_block (b : Z) (f : block -> block) : bM unit := fun s =>
  match blocks s !! b with
  | Some x => Ok (tt, set_blocks (<[b := f x]> (blocks s)) s)
  | None => Err EFault
  end.

(** * Devices *)

Definition block_get_role (role : Z) : bM Z :=
  assert (role <? BLOCK_ROLE_CNT);;
  s ← st_get;
  match block_by_role s !! Z.to_nat role with
  | Some b => mret b
  | None => st_fail EFault
  end.

Definition block_set_role (role b : Z) : bM unit :=
  assert (role <? BLOCK_ROLE_CNT);;
  modify (fun s => set_roles (<[Z.to_nat role := b]> (block_by_role s)) s).

(** The device after [b] in the list of all devices; a null pointer is 0. *)
Fixpoint after (l : list Z) (b : Z) : Z :=
  match l with
  | [] => 0
  | x :: l => if x =? b then default 0 (head l) else after l b
  end.

Definition block_first : bM Z := gets (fun s => default 0 (head (all_blocks s))).
Definition block_next (b : Z) : bM Z := gets (fun s => after (all_blocks s) b).

Fixpoint find_name (l : list Z) (n : list Z) : bM Z :=
  match l with
  | [] => mret 0
  | b :: l => x ← get_block b; if bool_decide (n = name x) then mret b else find_name l n
  end.

Definition block_get_by_name (n : list Z) : bM Z := l ← gets all_blocks; find_name l n.

Definition block_size (b : Z) : bM Z := x ← get_block b; mret (size x).
Definition block_name (b : Z) : bM (list Z) := x ← get_block b; mret (name x).

Definition check_sector (b sector : Z) : bM unit :=
  x ← get_block b; if size x <=? sector then st_fail EPanic else mret tt.

(** [block_print_stats] from role [i] on; [n] roles are left. *)
Fixpoint stats_loop (n : nat) (i : Z) : bM unit :=
  match n with
  | O => mret tt
  | S n =>
      s ← st_get;
      match block_by_role s !! Z.to_nat i with
      | None => st_fail EUndef
      | Some b =>
          (if negb (b =? 0) then x ← get_block b; say (Stats (name x) (block_type_name (type x)) (read_cnt x) (write_cnt x)) else mret tt);;
          stats_loop n (i + 1)
      end
  end.

Definition block_print_stats : bM unit := stats_loop (Z.to_nat BLOCK_CNT) 0.

(** A sector of a disk. *)
Definition disk_read (d sector : Z) : bM (list Z) := fun s =>
  match sectors s !! (d, sector) with
  | Some bs => Ok (bs, s)
  | None => Err EFault
  end.

Definition disk_write (d sector : Z) (bs : list Z) : bM unit := fun s =>
  match sectors s !! (d, sector) with
  | Some _ => Ok (tt, set_sectors (<[(d, sector) := bs]> (sectors s)) s)
  | None => Err EFault
  end.

(** The operations of a partition, over those of the device it is on. *)
Definition partition_read (rd : Z -> Z -> bM (list Z)) (p : partition) (sector : Z) : bM (list Z) :=
  rd (p_block p) (u32 (start p + sector)).

Definition partition_write (wr : Z -> Z -> list Z -> bM unit) (p : partition) (sector : Z) (bs : list Z) : bM unit :=
  wr (p_block p) (u32 (start p + sector)) bs.

Fixpoint read_down (fuel : nat) (b sector : Z) : bM (list Z) :=
  match fuel with
  | O => st_fail EFuel
  | S fuel =>
      check_sector b sector;;
      x ← get_block b;
      bs ← (match ops x with
            | Disk d => disk_read d sector
            | Partition p => partition_read (read_down fuel) p sector
            end);
      upd_block b (fun x => set_read_cnt (u64 (read_cnt x + 1)) x);;
      mret bs
  end.

Fixpoint write_down (fuel : nat) (b sector : Z) (bs : list Z) : bM unit :=
  match fuel with
  | O => st_fail EFuel
  | S fuel =>
      check_sector b sector;;
      x ← get_block b;
      assert (negb (bool_decide (type x = BLOCK_FOREIGN)));;
      (match ops x with
       | Disk d => disk_write d sector bs
       | Partition p => partition_write (write_down fuel) p sector bs
       end);;
      upd_block b (fun x => set_write_cnt (u64 (write_cnt x + 1)) x)
  end.

(** A partition is registered after the device it is on, so that an access goes down through each device once at most. *)
Definition block_read (b sector : Z) : bM (list Z) := l ← gets all_blocks; read_down (length l) b sector.
Definition block_write (b sector : Z) (bs : list Z) : bM unit := l ← gets all_blocks; write_down (length l) b sector bs.

(** [malloc] does not fail. *)
Definition block_register (n : list Z) (t : block_type) (info : list Z) (sz : Z) (o : driver) : bM Z := fun s =>
  let b := brk s in
  let x := mkBlock (take 15 n) t sz o 0 0 in
  Ok (b, mkDevs (<[b := x]> (blocks s)) (all_blocks s ++ [b]) (block_by_role s) (sectors s) (b + 64) (notes s ++ [Registered (name x) sz info])).

(** * Partition tables *)

(** A string in memory, and what [snprintf] leaves in an array of [n] characters. *)
Definition STRING : Z := 4096.
Definition string_mem (s : list Z) : mem := list_to_map (zip (seqZ STRING (Zlen s + 1)) (s ++ [0])).

Definition sprint (n : Z) (format : string) (args : list arg) (m : mem) : res (list Z) :=
  match __vprintf collect (chars format) args (m, []) with
  | Ok (_, (_, out)) => Ok (u8 <$> take (Z.to_nat (n - 1)) out)
  | Err e => Err e
  end.

(** [partition_type_name] *)
Definition type_names : list (Z * string) :=
  ([(0x00, "Empty"); (0x01, "FAT12"); (0x02, "XENIX root"); (0x03, "XENIX usr"); (0x04, "FAT16 <32M"); (0x05, "Extended"); (0x06, "FAT16");
   (0x07, "HPFS/NTFS"); (0x08, "AIX"); (0x09, "AIX bootable"); (0x0a, "OS/2 Boot Manager"); (0x0b, "W95 FAT32"); (0x0c, "W95 FAT32 (LBA)");
   (0x0e, "W95 FAT16 (LBA)"); (0x0f, "W95 Ext'd (LBA)"); (0x10, "OPUS"); (0x11, "Hidden FAT12"); (0x12, "Compaq diagnostics");
   (0x14, "Hidden FAT16 <32M"); (0x16, "Hidden FAT16"); (0x17, "Hidden HPFS/NTFS"); (0x18, "AST SmartSleep"); (0x1b, "Hidden W95 FAT32");
   (0x1c, "Hidden W95 FAT32 (LBA)"); (0x1e, "Hidden W95 FAT16 (LBA)"); (0x20, "Pintos OS kernel"); (0x21, "Pintos file system");
   (0x22, "Pintos scratch"); (0x23, "Pintos swap"); (0x24, "NEC DOS"); (0x39, "Plan 9"); (0x3c, "PartitionMagic recovery");
   (0x40, "Venix 80286"); (0x41, "PPC PReP Boot"); (0x42, "SFS"); (0x4d, "QNX4.x"); (0x4e, "QNX4.x 2nd part"); (0x4f, "QNX4.x 3rd part");
   (0x50, "OnTrack DM"); (0x51, "OnTrack DM6 Aux1"); (0x52, "CP/M"); (0x53, "OnTrack DM6 Aux3"); (0x54, "OnTrackDM6"); (0x55, "EZ-Drive");
   (0x56, "Golden Bow"); (0x5c, "Priam Edisk"); (0x61, "SpeedStor"); (0x63, "GNU HURD or SysV"); (0x64, "Novell Netware 286");
   (0x65, "Novell Netware 386"); (0x70, "DiskSecure Multi-Boot"); (0x75, "PC/IX"); (0x80, "Old Minix"); (0x81, "Minix / old Linux");
   (0x82, "Linux swap / Solaris"); (0x83, "Linux"); (0x84, "OS/2 hidden C: drive"); (0x85, "Linux extended"); (0x86, "NTFS volume set");
   (0x87, "NTFS volume set"); (0x88, "Linux plaintext"); (0x8e, "Linux LVM"); (0x93, "Amoeba"); (0x94, "Amoeba BBT"); (0x9f, "BSD/OS");
   (0xa0, "IBM Thinkpad hibernation"); (0xa5, "FreeBSD"); (0xa6, "OpenBSD"); (0xa7, "NeXTSTEP"); (0xa8, "Darwin UFS"); (0xa9, "NetBSD");
   (0xab, "Darwin boot"); (0xb7, "BSDI fs"); (0xb8, "BSDI swap"); (0xbb, "Boot Wizard hidden"); (0xbe, "Solaris boot"); (0xbf, "Solaris");
   (0xc1, "DRDOS/sec (FAT-12)"); (0xc4, "DRDOS/sec (FAT-16 < 32M)"); (0xc6, "DRDOS/sec (FAT-16)"); (0xc7, "Syrinx"); (0xda, "Non-FS data");
   (0xdb, "CP/M / CTOS / ..."); (0xde, "Dell Utility"); (0xdf, "BootIt"); (0xe1, "DOS access"); (0xe3, "DOS R/O"); (0xe4, "SpeedStor");
   (0xeb, "BeOS fs"); (0xee, "EFI GPT"); (0xef, "EFI (FAT-12/16/32)"); (0xf0, "Linux/PA-RISC boot"); (0xf1, "SpeedStor"); (0xf4, "SpeedStor");
   (0xf2, "DOS secondary"); (0xfd, "Linux raid autodetect"); (0xfe, "LANstep"); (0xff, "BBT")])%string.

Definition partition_type_name (t : Z) : string :=
  match list_find (fun e => e.1 = t) type_names with
  | Some (_, (_, n)) => n
  | None => "Unknown"%string
  end.

Definition lift {A} (r : res A) : bM A := fun s => match r with Ok a => Ok (a, s) | Err e => Err e end.

Definition part_type (t : Z) : block_type :=
  if t =? 0x20 then BLOCK_KERNEL
  else if t =? 0x21 then BLOCK_FILESYS
  else if t =? 0x22 then BLOCK_SCRATCH
  else if t =? 0x23 then BLOCK_SWAP
  else BLOCK_FOREIGN.

Definition part_name (n : list Z) (nr : Z) : res (list Z) := sprint 16 "%s%d" [AWord STRING; AWord (u32 nr)] (string_mem n).
Definition part_info (t : Z) : res (list Z) := sprint 128 "%s (%02x)" [AWord STRING; AWord t] (string_mem (chars (partition_type_name t))).

Definition found_partition (b t start sz nr : Z) : bM unit :=
  bsize ← block_size b;
  if bsize <=? start then say (StartsPast nr start)
  else if (u32 (start + sz) <? start) || (bsize <? u32 (start + sz)) then say (EndsPast nr (u32 (start + sz)))
  else
    n ← block_name b;
    nm ← lift (part_name n nr);
    info ← lift (part_info t);
    block_register nm (part_type t) info sz (Partition (mkPart b start));; mret tt.

(** An entry of a partition table and the table, by their bytes. *)
Definition word_at (bs : list Z) (i : nat) : Z :=
  default 0 (bs !! i) + 256 * default 0 (bs !! (i + 1)%nat) + 65536 * default 0 (bs !! (i + 2)%nat) + 16777216 * default 0 (bs !! (i + 3)%nat).

Record partition_table_entry := mkEntry {
  e_type : Z;
  e_offset : Z;
  e_size : Z
}.

Definition entry_at (pt : list Z) (i : nat) : partition_table_entry :=
  let o := (446 + 16 * i)%nat in mkEntry (default 0 (pt !! (o + 4)%nat)) (word_at pt (o + 8)) (word_at pt (o + 12)).

Definition entries (pt : list Z) : list partition_table_entry := entry_at pt <$> seq 0 4.

Definition signature (pt : list Z) : Z := default 0 (pt !! 510%nat) + 256 * default 0 (pt !! 511%nat).

Definition extended (t : Z) : bool := (t =? 0x05) || (t =? 0x0f) || (t =? 0x85) || (t =? 0xc5).

(** The loop over the entries, [rec] the call for an extended partition. *)
Fixpoint parse_entries (rec : Z -> Z -> Z -> bM Z) (b sector primary : Z) (es : list partition_table_entry) (nr : Z) : bM Z :=
  match es with
  | [] => mret nr
  | e :: es =>
      nr ← (if (e_size e =? 0) || (e_type e =? 0) then mret nr
            else if extended (e_type e) then
              say (ExtendedIn sector);;
              if sector =? 0 then rec (e_offset e) (e_offset e) nr
              else rec (u32 (e_offset e + primary)) primary nr
            else
              let nr := s32 (nr + 1) in
              found_partition b (e_type e) (u32 (e_offset e + sector)) (e_size e) nr;; mret nr);
      parse_entries rec b sector primary es nr
  end.

(** [malloc] does not fail; the number of partitions found so far is an argument and the result. *)
Fixpoint read_partition_table (fuel : nat) (b sector primary nr : Z) : bM Z :=
  match fuel with
  | O => st_fail EFuel
  | S fuel =>
      bsize ← block_size b;
      if bsize <=? sector then say (TablePast sector);; mret nr
      else
        pt ← block_read b 0;
        if negb (signature pt =? 0xaa55) then
          (if primary =? 0 then say BadSignature else say (BadExtended sector));; mret nr
        else parse_entries (read_partition_table fuel b) b sector primary (entries pt) nr
  end.

Definition partition_scan (fuel : nat) (b : Z) : bM unit :=
  nr ← read_partition_table fuel b 0 0 0;
  if nr =? 0 then say NoPartitions else mret tt.

(** * The invariant of the devices *)

(** Every device is a disk, all of whose sectors there are, or lies on a device that was registered before it and within it. *)
Record devs_ok (s : devs) : Prop := {
  do_nodup : NoDup (all_blocks s);
  do_dom : forall b, b ∈ all_blocks s <-> is_Some (blocks s !! b);
  do_brk : forall b, b ∈ all_blocks s -> b < brk s;
  do_size : forall b x, blocks s !! b = Some x -> 0 <= size x < 2 ^ 32;
  do_disk : forall b x d sec, blocks s !! b = Some x -> ops x = Disk d -> 0 <= sec < size x ->
    exists bs, sectors s !! (d, sec) = Some bs /\ Zlen bs = BLOCK_SECTOR_SIZE;
  do_part : forall i b x p, all_blocks s !! i = Some b -> blocks s !! b = Some x -> ops x = Partition p ->
    0 <= start p /\ exists j y, (j < i)%nat /\ all_blocks s !! j = Some (p_block p) /\ blocks s !! p_block p = Some y /\ start p + size x <= size y
}.

(** Where a sector of a device is: the sector of a disk. *)
Inductive at_disk (bl : gmap Z block) : Z -> Z -> Z * Z -> Prop :=
| at_disk_here b x d sec : bl !! b = Some x -> ops x = Disk d -> at_disk bl b sec (d, sec)
| at_disk_part b x p sec r : bl !! b = Some x -> ops x = Partition p -> at_disk bl (p_block p) (start p + sec) r -> at_disk bl b sec r.

(** Whether a device and those below it may be written. *)
Inductive writable (bl : gmap Z block) : Z -> Prop :=
| writable_disk b x d : bl !! b = Some x -> ops x = Disk d -> type x <> BLOCK_FOREIGN -> writable bl b
| writable_part b x p : bl !! b = Some x -> ops x = Partition p -> type x <> BLOCK_FOREIGN -> writable bl (p_block p) -> writable bl b.

(** A device apart from its counters. *)
Definition same_device (x y : block) : Prop := name x = name y /\ type x = type y /\ size x = size y /\ ops x = ops y.

(** Devices that differ in their counters only. *)
Definition same_devices (s s' : devs) : Prop :=
  all_blocks s' = all_blocks s /\ block_by_role s' = block_by_role s /\ brk s' = brk s /\ notes s' = notes s /\
  forall b, option_Forall2 same_device (blocks s !! b) (blocks s' !! b).

#[export] Instance same_device_equiv : Equivalence same_device.
Proof.
  split.
  - by intros x.
  - intros x y (?&?&?&?). by repeat split.
  - intros x y z (?&?&?&?) (?&?&?&?). repeat split; congruence.
Qed.

#[export] Instance same_devices_equiv : Equivalence same_devices.
Proof.
  split.
  - intros s. repeat split; intros b. by destruct (blocks s !! b); constructor.
  - intros s s' (?&?&?&?&H). repeat split; try congruence. intros b. destruct (H b); constructor. by symmetry.
  - intros s1 s2 s3 (?&?&?&?&K1) (?&?&?&?&K2). repeat split; try congruence. intros b. specialize (K1 b). specialize (K2 b). destruct K1; inversion K2; simplify_eq; constructor. by etrans.
Qed.

(** Sectors are added and replaced, and none is taken away or changes its size. *)
Definition sectors_kept (s s' : devs) : Prop :=
  forall q bs, sectors s !! q = Some bs -> exists bs', sectors s' !! q = Some bs' /\ Zlen bs' = Zlen bs.

Lemma same_lookup s s' b x : same_devices s s' -> blocks s !! b = Some x -> exists y, blocks s' !! b = Some y /\ same_device x y.
Proof. intros (_ & _ & _ & _ & Hb) Hx. specialize (Hb b). rewrite Hx in Hb. inversion Hb; subst. eauto. Qed.

Lemma devs_ok_same s s' : devs_ok s -> same_devices s s' -> sectors_kept s s' -> devs_ok s'.
Proof.
  intros [H1 H2 H3 H4 H5 H6] Hd Hs.
  assert (forall b y, blocks s' !! b = Some y -> exists x, blocks s !! b = Some x /\ same_device x y) as Hback.
  { intros b y Hy. symmetry in Hd. destruct (same_lookup _ _ _ _ Hd Hy) as (x & ? & ?). exists x. split; [done|by symmetry]. }
  pose proof (fun b x => same_lookup s s' b x Hd) as Hfwd. destruct Hd as (E1 & _ & E3 & _ & _).
  constructor; rewrite ?E1, ?E3; try done.
  - intros b. rewrite H2. split; intros [x Hx]; [destruct (Hfwd b x Hx) as (y & Hy & _)|destruct (Hback b x Hx) as (y & Hy & _)]; eauto.
  - intros b y Hy. destruct (Hback b y Hy) as (x & Hx & (_ & _ & <- & _)). by apply (H4 b).
  - intros b y d sec Hy Ho Hsec. destruct (Hback b y Hy) as (x & Hx & (_ & _ & Ez & Eo)). rewrite <- Ez in Hsec. rewrite <- Eo in Ho.
    destruct (H5 b x d sec Hx Ho Hsec) as (bs & Hbs & Hl). destruct (Hs _ _ Hbs) as (bs' & Hbs' & Hl'). exists bs'. split; [done|lia].
  - intros i b y p Hi Hy Ho. destruct (Hback b y Hy) as (x & Hx & (_ & _ & Ez & Eo)). rewrite <- Eo in Ho.
    destruct (H6 i b x p Hi Hx Ho) as (H0 & j & z & Hj & Hbj & Hz & Hle). split; [done|].
    destruct (Hfwd _ _ Hz) as (z' & Hz' & (_ & _ & Ez' & _)). exists j, z'. rewrite <- Ez, <- Ez'. done.
Qed.

Lemma at_disk_same s s' b sec r : same_devices s s' -> at_disk (blocks s) b sec r -> at_disk (blocks s') b sec r.
Proof.
  intros Hd. induction 1 as [b x d sec Hx Ho|b x p sec r Hx Ho _ IH]; destruct (same_lookup _ _ _ _ Hd Hx) as (y & Hy & (_ & _ & _ & Eo)); rewrite Eo in Ho;
    [by eapply at_disk_here|by eapply at_disk_part].
Qed.

(** A sector of a device is at one place, and different sectors are at different places. *)
Lemma at_disk_det bl b sec r1 : at_disk bl b sec r1 -> forall r2, at_disk bl b sec r2 -> r1 = r2.
Proof.
  induction 1 as [b x d sec Hx Ho|b x p sec r Hx Ho _ IH]; intros r2 H2; inversion H2; subst; simplify_eq; try congruence;
    rewrite Ho in *; simplify_eq. by apply IH.
Qed.

Lemma at_disk_inj bl b sec1 r : at_disk bl b sec1 r -> forall sec2, at_disk bl b sec2 r -> sec1 = sec2.
Proof.
  induction 1 as [b x d sec Hx Ho|b x p sec r Hx Ho _ IH]; intros sec2 H2; inversion H2; subst; simplify_eq; try congruence;
    rewrite Ho in *; simplify_eq. specialize (IH _ ltac:(eassumption)). lia.
Qed.

Lemma upd_block_run b f s x : blocks s !! b = Some x -> upd_block b f s = Ok (tt, set_blocks (<[b := f x]> (blocks s)) s).
Proof. intros Hx. unfold upd_block. by rewrite Hx. Qed.

Lemma same_upd s s' b x f : same_devices s s' -> blocks s' !! b = Some x -> same_device x (f x) -> same_devices s (set_blocks (<[b := f x]> (blocks s')) s').
Proof.
  intros H Hx Hf. etrans; [exact H|]. repeat split; cbn [blocks set_blocks]. intros b'. destruct (decide (b = b')) as [<-|Hne].
  - rewrite lookup_insert_eq, Hx. by constructor.
  - rewrite lookup_insert_ne by done. by destruct (blocks s' !! b'); constructor.
Qed.

(** * Accesses *)

Section access.
Context (s : devs) (Hok : devs_ok s).

(** Reading goes down to the sector of the disk; only counters change. *)
Lemma read_down_run fuel : forall s' i b x sec,
  same_devices s s' -> sectors s' = sectors s -> all_blocks s !! i = Some b -> (i < fuel)%nat -> blocks s !! b = Some x -> 0 <= sec < size x ->
  exists r bs s'', read_down fuel b sec s' = Ok (bs, s'') /\ at_disk (blocks s) b sec r /\ sectors s !! r = Some bs /\
    same_devices s s'' /\ sectors s'' = sectors s.
Proof using Hok.
  induction fuel as [|fuel IH]; intros s' i b x sec Hs Hsec Hi Hf Hx Hr; [lia|]. cbn [read_down].
  destruct (same_lookup _ _ _ _ Hs Hx) as (y & Hy & (_ & _ & Ez & Eo)).
  rewrite (run_bind _ _ _ tt s').
  2:{ unfold check_sector, get_block, mbind, st_bind. rewrite Hy. by rewrite (proj2 (Z.leb_gt _ _)) by lia. }
  rewrite (run_bind _ _ _ y s') by (unfold get_block; by rewrite Hy). rewrite <- Eo.
  assert (exists r bs s'', (match ops x with Disk d => disk_read d sec | Partition p => partition_read (read_down fuel) p sec end) s' = Ok (bs, s'') /\
    at_disk (blocks s) b sec r /\ sectors s !! r = Some bs /\ same_devices s s'' /\ sectors s'' = sectors s) as (r & bs & s1 & E & Hat & Hbs & Hs1 & Hsec1).
  { destruct (ops x) as [d|p] eqn:Ho.
    - destruct (do_disk s Hok b x d sec Hx Ho Hr) as (bs & Hbs & _). exists (d, sec), bs, s'. split; [unfold disk_read; by rewrite Hsec, Hbs|].
      split; [by eapply at_disk_here|]. done.
    - destruct (do_part s Hok i b x p Hi Hx Ho) as (H0 & j & z & Hj & Hbj & Hz & Hle). pose proof (do_size s Hok _ _ Hz).
      unfold partition_read. rewrite u32_id by lia.
      destruct (IH s' j (p_block p) z (start p + sec)) as (r & bs & s1 & E & Hat & Hrest); [done|done|done|lia|done|lia|].
      exists r, bs, s1. split; [done|]. split; [by eapply at_disk_part|done]. }
  rewrite (run_bind _ _ _ _ _ E). destruct (same_lookup _ _ _ _ Hs1 Hx) as (y1 & Hy1 & _).
  rewrite (run_bind _ _ _ _ _ (upd_block_run _ _ _ _ Hy1)). exists r, bs, (set_blocks (<[b := set_read_cnt (u64 (read_cnt y1 + 1)) y1]> (blocks s1)) s1).
  split; [done|]. split; [done|]. split; [done|]. split; [|done]. by apply (same_upd _ _ _ _ (fun x => set_read_cnt (u64 (read_cnt x + 1)) x)).
Qed.

Lemma write_down_run bs fuel : forall s' i b x sec,
  same_devices s s' -> sectors s' = sectors s -> all_blocks s !! i = Some b -> (i < fuel)%nat -> blocks s !! b = Some x -> 0 <= sec < size x -> writable (blocks s) b ->
  exists r s'', write_down fuel b sec bs s' = Ok (tt, s'') /\ at_disk (blocks s) b sec r /\ is_Some (sectors s !! r) /\
    same_devices s s'' /\ sectors s'' = <[r := bs]> (sectors s).
Proof using Hok.
  induction fuel as [|fuel IH]; intros s' i b x sec Hs Hsec Hi Hf Hx Hr Hw; [lia|]. cbn [write_down].
  destruct (same_lookup _ _ _ _ Hs Hx) as (y & Hy & (_ & Et & Ez & Eo)).
  rewrite (run_bind _ _ _ tt s').
  2:{ unfold check_sector, get_block, mbind, st_bind. rewrite Hy. by rewrite (proj2 (Z.leb_gt _ _)) by lia. }
  rewrite (run_bind _ _ _ y s') by (unfold get_block; by rewrite Hy). rewrite <- Eo.
  assert (type x <> BLOCK_FOREIGN) as Ht by (by inversion Hw; simplify_eq).
  rewrite (run_bind _ _ _ tt s') by (apply run_assert; rewrite bool_decide_eq_false_2; [done|congruence]).
  assert (exists r s'', (match ops x with Disk d => disk_write d sec bs | Partition p => partition_write (write_down fuel) p sec bs end) s' = Ok (tt, s'') /\
    at_disk (blocks s) b sec r /\ is_Some (sectors s !! r) /\ same_devices s s'' /\ sectors s'' = <[r := bs]> (sectors s)) as (r & s1 & E & Hat & Hbs & Hs1 & Hsec1).
  { destruct (ops x) as [d|p] eqn:Ho.
    - destruct (do_disk s Hok b x d sec Hx Ho Hr) as (old & Hold & _). exists (d, sec), (set_sectors (<[(d, sec) := bs]> (sectors s)) s').
      split; [unfold disk_write; by rewrite Hsec, Hold|]. split; [by eapply at_disk_here|]. split; [eauto|]. split; [|done].
      destruct Hs as (?&?&?&?&?). by repeat split.
    - destruct (do_part s Hok i b x p Hi Hx Ho) as (H0 & j & z & Hj & Hbj & Hz & Hle). pose proof (do_size s Hok _ _ Hz).
      unfold partition_write. rewrite u32_id by lia.
      destruct (IH s' j (p_block p) z (start p + sec)) as (r & s1 & E & Hat & Hrest); [done|done|done|lia|done|lia|by inversion Hw; simplify_eq; rewrite Ho in *; simplify_eq|].
      exists r, s1. split; [done|]. split; [by eapply at_disk_part|done]. }
  rewrite (run_bind _ _ _ _ _ E). destruct (same_lookup _ _ _ _ Hs1 Hx) as (y1 & Hy1 & _). rewrite (upd_block_run _ _ _ _ Hy1).
  exists r, (set_blocks (<[b := set_write_cnt (u64 (write_cnt y1 + 1)) y1]> (blocks s1)) s1).
  split; [done|]. split; [done|]. split; [done|]. split; [|done]. by apply (same_upd _ _ _ _ (fun x => set_write_cnt (u64 (write_cnt x + 1)) x)).
Qed.

Lemma block_index b x : blocks s !! b = Some x -> exists i, all_blocks s !! i = Some b /\ (i < length (all_blocks s))%nat.
Proof using Hok.
  intros Hx. assert (b ∈ all_blocks s) as Hin by (apply (do_dom s Hok); eauto). apply list_elem_of_lookup in Hin as [i Hi]. exists i. split; [done|]. by apply lookup_lt_Some in Hi.
Qed.

Lemma block_read_run b x sec : blocks s !! b = Some x -> 0 <= sec < size x ->
  exists r bs s', block_read b sec s = Ok (bs, s') /\ at_disk (blocks s) b sec r /\ sectors s !! r = Some bs /\ same_devices s s' /\ sectors s' = sectors s.
Proof using Hok. intros Hx Hr. destruct (block_index b x Hx) as (i & Hi & Hl). by eapply read_down_run. Qed.

Lemma block_write_run b x sec bs : blocks s !! b = Some x -> 0 <= sec < size x -> writable (blocks s) b ->
  exists r s', block_write b sec bs s = Ok (tt, s') /\ at_disk (blocks s) b sec r /\ is_Some (sectors s !! r) /\ same_devices s s' /\ sectors s' = <[r := bs]> (sectors s).
Proof using Hok. intros Hx Hr Hw. destruct (block_index b x Hx) as (i & Hi & Hl). by eapply write_down_run. Qed.

Lemma read_past b x sec : blocks s !! b = Some x -> size x <= sec -> block_read b sec s = Err EPanic.
Proof using Hok.
  intros Hx Hr. destruct (block_index b x Hx) as (i & Hi & Hl). unfold block_read, mbind at 1, st_bind at 1, gets. destruct (length (all_blocks s)) as [|n]; [lia|].
  cbn [read_down]. apply run_bind_err. unfold check_sector, get_block, mbind, st_bind. rewrite Hx. by rewrite (proj2 (Z.leb_le _ _)).
Qed.

Lemma write_past b x sec bs : blocks s !! b = Some x -> size x <= sec -> block_write b sec bs s = Err EPanic.
Proof using Hok.
  intros Hx Hr. destruct (block_index b x Hx) as (i & Hi & Hl). unfold block_write, mbind at 1, st_bind at 1, gets. destruct (length (all_blocks s)) as [|n]; [lia|].
  cbn [write_down]. apply run_bind_err. unfold check_sector, get_block, mbind, st_bind. rewrite Hx. by rewrite (proj2 (Z.leb_le _ _)).
Qed.
End access.

(** Two partitions of a device that do not overlap. *)
Definition apart (x1 x2 : block) : Prop :=
  exists p1 p2, ops x1 = Partition p1 /\ ops x2 = Partition p2 /\ p_block p1 = p_block p2 /\
    (start p1 + size x1 <= start p2 \/ start p2 + size x2 <= start p1).

Lemma apart_places bl b1 b2 x1 x2 sec1 sec2 r1 r2 :
  bl !! b1 = Some x1 -> bl !! b2 = Some x2 -> apart x1 x2 -> 0 <= sec1 < size x1 -> 0 <= sec2 < size x2 ->
  at_disk bl b1 sec1 r1 -> at_disk bl b2 sec2 r2 -> r1 <> r2.
Proof.
  intros H1 H2 (p1 & p2 & O1 & O2 & Hb & Hd) R1 R2 A1 A2 <-.
  assert (at_disk bl (p_block p1) (start p1 + sec1) r1) as B1 by (inversion A1; simplify_eq; try congruence; rewrite O1 in *; by simplify_eq).
  assert (at_disk bl (p_block p1) (start p2 + sec2) r1) as B2 by (rewrite Hb; inversion A2; simplify_eq; try congruence; rewrite O2 in *; by simplify_eq).
  pose proof (at_disk_inj _ _ _ _ B1 _ B2). lia.
Qed.

Lemma same_sectors_kept s s' : sectors s' = sectors s -> sectors_kept s s'.
Proof. intros E q bs Hq. exists bs. by rewrite E. Qed.

Lemma write_kept s s' r bs : devs_ok s -> is_Some (sectors s !! r) -> (forall old, sectors s !! r = Some old -> Zlen old = Zlen bs) ->
  sectors s' = <[r := bs]> (sectors s) -> sectors_kept s s'.
Proof.
  intros Hok Hr Hl E q old Hq. rewrite E. destruct (decide (r = q)) as [<-|Hne].
  - exists bs. rewrite lookup_insert_eq. split; [done|]. symmetry. by apply Hl.
  - exists old. by rewrite lookup_insert_ne.
Qed.

Lemma at_disk_sector s b x sec r bs : devs_ok s -> blocks s !! b = Some x -> 0 <= sec < size x -> at_disk (blocks s) b sec r -> sectors s !! r = Some bs -> Zlen bs = BLOCK_SECTOR_SIZE.
Proof.
  intros Hok Hx Hsec Hat. revert x Hx Hsec. induction Hat as [b x d sec Hx Ho|b x p sec r Hx Ho _ IH]; intros x' Hx' Hsec Hs; rewrite Hx in Hx'; injection Hx' as <-.
  - destruct (do_disk s Hok b x d sec Hx Ho Hsec) as (bs' & Hbs' & Hl). by simplify_eq.
  - destruct (block_index s Hok b x Hx) as (i & Hi & _). destruct (do_part s Hok i b x p Hi Hx Ho) as (H0 & j & z & _ & _ & Hz & Hle). apply (IH z); [done|lia|done].
Qed.

(** C34: Accesses to block devices.  An access past the end of a device panics.  A read within it succeeds and changes nothing but counters.  A write to a
    device that is not foreign succeeds; reading the same sector then gives what was written, and every other sector of
    the device, and every sector of a partition that does not overlap it, reads as before. *)
Theorem block_io_spec s b x sec bs :
  devs_ok s -> blocks s !! b = Some x -> 0 <= sec -> Zlen bs = BLOCK_SECTOR_SIZE ->
  (size x <= sec -> block_read b sec s = Err EPanic /\ block_write b sec bs s = Err EPanic) /\
  (sec < size x -> exists old s', block_read b sec s = Ok (old, s') /\ Zlen old = BLOCK_SECTOR_SIZE /\ devs_ok s' /\ same_devices s s' /\ sectors s' = sectors s) /\
  (sec < size x -> writable (blocks s) b -> exists s', block_write b sec bs s = Ok (tt, s') /\ devs_ok s' /\ same_devices s s' /\
     (exists s1, block_read b sec s' = Ok (bs, s1)) /\
     forall b2 x2 sec2, blocks s !! b2 = Some x2 -> 0 <= sec2 < size x2 -> b2 = b /\ sec2 <> sec \/ apart x x2 ->
       exists old s1 s2, block_read b2 sec2 s = Ok (old, s1) /\ block_read b2 sec2 s' = Ok (old, s2)).
Proof.
  intros Hok Hx Hsec Hbs. split; [intros H; split; [by eapply read_past|by eapply write_past]|]. split.
  - intros H. destruct (block_read_run s Hok b x sec Hx ltac:(lia)) as (r & old & s' & E & Hat & Hr & Hs & Hsec').
    exists old, s'. split; [done|]. split; [by apply (at_disk_sector s b x sec r)|]. split; [eapply devs_ok_same; [done|done|by apply same_sectors_kept]|done].
  - intros H Hw. destruct (block_write_run s Hok b x sec bs Hx ltac:(lia) Hw) as (r & s' & E & Hat & [old Hold] & Hs & Hsec').
    pose proof (at_disk_sector s b x sec r old Hok Hx ltac:(lia) Hat Hold) as Hlen.
    assert (devs_ok s') as Hok' by (eapply devs_ok_same; [done|done|]; apply (write_kept s s' r bs); [done|eauto| |done]; intros o Ho; rewrite Hold in Ho; injection Ho as <-; lia).
    exists s'. split; [done|]. split; [done|]. split; [done|].
    assert (forall b2 x2 sec2 r2, blocks s !! b2 = Some x2 -> 0 <= sec2 < size x2 -> at_disk (blocks s) b2 sec2 r2 ->
      exists v s1, block_read b2 sec2 s' = Ok (v, s1) /\ <[r := bs]> (sectors s) !! r2 = Some v) as Hread.
    { intros b2 x2 sec2 r2 Hx2 Hsec2 Hat2. destruct (same_lookup _ _ _ _ Hs Hx2) as (y2 & Hy2 & (_ & _ & Ez & _)).
      destruct (block_read_run s' Hok' b2 y2 sec2 Hy2 ltac:(lia)) as (r' & v & s1 & E1 & Hat' & Hv & _). exists v, s1. split; [done|].
      rewrite <- Hsec'. by rewrite (at_disk_det _ _ _ _ (at_disk_same _ _ _ _ _ Hs Hat2) _ Hat'). }
    split.
    + destruct (Hread b x sec r Hx ltac:(lia) Hat) as (v & s1 & E1 & Hv). exists s1. rewrite lookup_insert_eq in Hv. by simplify_eq.
    + intros b2 x2 sec2 Hx2 Hsec2 Hdiff. destruct (block_read_run s Hok b2 x2 sec2 Hx2 Hsec2) as (r2 & v2 & s2 & E2 & Hat2 & Hv2 & _).
      destruct (Hread b2 x2 sec2 r2 Hx2 Hsec2 Hat2) as (v & s1 & E1 & Hv). exists v2, s2, s1. split; [done|].
      rewrite lookup_insert_ne in Hv; [by simplify_eq|]. intros ->. destruct Hdiff as [[-> Hne]|Ha].
      * apply Hne. by eapply at_disk_inj.
      * by apply (apart_places (blocks s) b b2 x x2 sec sec2 r2 r2 Hx Hx2 Ha (conj Hsec H) Hsec2 Hat Hat2).
Qed.

(** * Names of partitions *)

Lemma strnlen_run m p s k : cstr m p s -> Zlen s <= k -> strnlen p k m = Ok (Zlen s, m).
Proof.
  intros Hs Hk. destruct (scan_list (fun length => x ← load (p + length); if negb (x =? 0) && (length <? k) then mret (inl (length + 1)) else mret (inr length))
    (fun l a => cstr m (p + a) l /\ a + Zlen l = Zlen s) (fun r => r = Zlen s) m s 0) as (r & Hr & ->).
  - by eapply cstr_size.
  - intros e l a [Hc Ha]. apply cstr_cons in Hc as (H1 & H2 & H3 & H4). left. cbn [length] in Ha.
    rewrite (run_bind _ _ _ _ _ (load_run _ _ _ H2)). rewrite (proj2 (Z.eqb_neq e 0)), (proj2 (Z.ltb_lt a k)) by lia.
    exists (a + 1). split; [done|]. split; [by rewrite Z.add_assoc|lia].
  - intros a [Hc Ha]. apply cstr_nil in Hc as [H1 H2]. rewrite (run_bind _ _ _ _ _ (load_run _ _ _ H2)). exists a. split; [done|]. cbn in Ha. lia.
  - by rewrite Z.add_0_r.
  - exact Hr.
Qed.

Lemma string_loop_run m p s : forall i out, cstr m (p + i) s -> string_loop collect (length s) (mem_char p) i (m, out) = Ok (tt, (m, out ++ s)).
Proof.
  induction s as [|c s IH]; intros i out Hc; cbn [length string_loop]; [by rewrite app_nil_r|]. apply cstr_cons in Hc as (H1 & H2 & H3 & H4).
  rewrite (run_bind _ _ _ c (m, out)) by (unfold mem_char, liftm; by rewrite (load_run _ _ _ H2)).
  rewrite (run_bind _ _ _ tt (m, out ++ [c])) by done. rewrite IH by (by rewrite Z.add_assoc). by rewrite <- app_assoc.
Qed.

Lemma convert_s m p s out args nested : cstr m p s -> Zlen s < 2 ^ 32 ->
  convert collect nested 115 (plain INT) (AWord p :: args) (m, out) = Ok (args, (m, out ++ s)).
Proof.
  intros Hs Hl. pose proof Hs as (Hp & _). unfold convert.
  change ((115 =? 100) || (115 =? 105)) with false. cbn iota. change ((115 =? 111) || (115 =? 117) || (115 =? 120) || (115 =? 88)) with false. cbn iota.
  change (115 =? 99) with false. cbn iota. change (115 =? 115) with true. cbn iota. rewrite (run_bind _ _ _ (p, args) (m, out)) by done. cbn iota.
  rewrite (run_bind _ _ _ tt (m, out ++ s)); [done|]. rewrite (proj2 (Z.eqb_neq p 0)) by lia.
  rewrite (run_bind _ _ _ (Zlen s) (m, out)).
  2:{ unfold liftm. rewrite (strnlen_run m p s) by (done || (change (u32 (precision (plain INT))) with (2 ^ 32 - 1); lia)). done. }
  unfold format_string. change (width (plain INT)) with 0. rewrite (proj2 (Z.ltb_ge _ 0)) by lia. cbn [andb].
  rewrite (run_bind _ _ _ tt (m, out)) by done. rewrite Nat2Z.id, (run_bind _ _ _ tt (m, out ++ s)); [done|].
  apply string_loop_run. by rewrite Z.add_0_r.
Qed.

Lemma convert_d m v out args nested : in_s 32 v -> exists ds,
  convert collect nested 100 (plain INT) (AWord (u32 v) :: args) (m, out) = Ok (args, (m, out ++ (if v <? 0 then [45] else []) ++ ds)) /\
  dec_from 0 ds = Z.abs v /\ Forall dec_digit ds.
Proof.
  intros Hv. destruct (format_signed v m out INT) as (ds & Hr & Hd & Hf & _); [unfold in_s in Hv; lia|]. exists ds. split; [|done].
  unfold convert. change ((100 =? 100) || (100 =? 105)) with true. cbn iota.
  rewrite (run_bind _ _ _ (v, args) (m, out)).
  2:{ unfold signed_arg, va_word, plain. cbn [mbind res_bind fst snd lifto Stdio.type]. by rewrite s32_u32. }
  rewrite (run_bind _ _ _ tt (m, out ++ (if v <? 0 then [45] else []) ++ ds)); [done|].
  assert (u64 (if v <? 0 then s64 (- v) else v) = Z.abs v) as ->; [|exact Hr].
  unfold in_s in Hv. destruct (Z.ltb_spec v 0).
  - rewrite (swrap_id 64 ltac:(lia)) by (unfold in_s; lia). rewrite uwrap_id by (unfold in_u; lia). lia.
  - rewrite uwrap_id by (unfold in_u; lia). lia.
Qed.

Abbreviation is_cname := (Forall (fun b => 0 < b < 256)).

Lemma string_mem_cstr n : is_cname n -> cstr (string_mem n) STRING n.
Proof.
  intros Hn. split; [done|]. split; [|done]. intros i c Hi. unfold string_mem. apply elem_of_list_to_map_1.
  - rewrite fst_zip; [apply NoDup_seqZ|]. rewrite length_seqZ, length_app. cbn. lia.
  - pose proof (lookup_lt_Some _ _ _ Hi) as Hl. rewrite length_app in Hl. cbn in Hl. apply list_elem_of_lookup. exists i. apply lookup_zip_with_Some.
    exists (STRING + Z.of_nat i), c. split; [done|]. split; [|done]. apply lookup_seqZ. lia.
Qed.

(** [%s%d] *)
Lemma print_sd m p n nr : cstr m p n -> Zlen n < 2 ^ 32 -> in_s 32 nr -> exists ds,
  __vprintf collect (chars "%s%d") [AWord p; AWord (u32 nr)] (m, []) = Ok (tt, (m, n ++ (if nr <? 0 then [45] else []) ++ ds)) /\
  dec_from 0 ds = Z.abs nr /\ Forall dec_digit ds.
Proof.
  intros Hn Hl Hnr. change (chars "%s%d") with [37; 115; 37; 100]. unfold __vprintf. replace (length _ + 24)%nat with (S (S (S 25))) by done.
  generalize 25%nat as k. intros k. destruct (convert_d m nr n [] (vprintf_loop collect (S k)) Hnr) as (ds & Ed & Hd & Hf). exists ds. split; [|done].
  pose proof (convert_s m p n [] [AWord (u32 nr)] (vprintf_loop collect (S (S k))) Hn Hl) as Es. cbn [app] in Es.
  remember (S (S k)) as f eqn:Ef. cbn [vprintf_loop]. change (negb (37 =? 37)) with false. cbn [head default from_option id]. change (115 =? 37) with false. cbn iota.
  rewrite (run_bind _ _ _ ([115; 37; 100], plain INT, [AWord p; AWord (u32 nr)]) (m, [])) by done. cbn [head default from_option id].
  rewrite (run_bind _ _ _ _ _ Es). rewrite Ef. clear Es Ef f. remember (S k) as g eqn:Eg. cbn [vprintf_loop].
  change (negb (37 =? 37)) with false. cbn [head default from_option id]. change (100 =? 37) with false. cbn iota.
  rewrite (run_bind _ _ _ ([100], plain INT, [AWord (u32 nr)]) (m, n)) by done. cbn [head default from_option id].
  rewrite (run_bind _ _ _ _ _ Ed). by rewrite Eg.
Qed.

(** The name of a device and the number of the partition, cut off after 15 characters. *)
Lemma part_name_run n nr : is_cname n -> Zlen n < 2 ^ 32 -> in_s 32 nr -> exists ds, part_name n nr = Ok (u8 <$> take 15 (n ++ (if nr <? 0 then [45] else []) ++ ds)) /\
  dec_from 0 ds = Z.abs nr /\ Forall dec_digit ds.
Proof.
  intros Hn Hl Hnr. destruct (print_sd (string_mem n) STRING n nr (string_mem_cstr n Hn) Hl Hnr) as (ds & E & H). exists ds. split; [|exact H].
  unfold part_name, sprint. by rewrite E.
Qed.

Lemma part_info_run t : 0 <= t < 256 -> exists info, part_info t = Ok info.
Proof.
  intros Ht. assert (Forall (fun t => exists info, part_info t = Ok info) (seqZ 0 256)) as H.
  { apply Forall_forall. intros z Hz. assert (forallb (fun t => match part_info t with Ok _ => true | _ => false end) (seqZ 0 256) = true) as Hb by (by vm_compute).
    rewrite forallb_forall in Hb. specialize (Hb z ltac:(by apply list_elem_of_In)). destruct (part_info z); [eauto|done]. }
  eapply Forall_forall in H; [exact H|]. apply elem_of_seqZ. lia.
Qed.

(** * Scanning a partition table *)

(** The state after a device is registered. *)
Definition registered (n : list Z) (t : block_type) (info : list Z) (sz : Z) (o : driver) (s : devs) : devs :=
  mkDevs (<[brk s := mkBlock (take 15 n) t sz o 0 0]> (blocks s)) (all_blocks s ++ [brk s]) (block_by_role s) (sectors s) (brk s + 64)
    (notes s ++ [Registered (take 15 n) sz info]).

Lemma register_ok n t info sz b x p s :
  devs_ok s -> blocks s !! b = Some x -> p_block p = b -> 0 <= start p -> 0 <= sz -> start p + sz <= size x ->
  devs_ok (registered n t info sz (Partition p) s).
Proof.
  intros Hok Hx Hp H0 Hsz Hle. pose proof Hok as [H1 H2 H3 H4 H5 H6].
  assert (brk s ∉ all_blocks s) as Hnew by (intros Hin; specialize (H3 _ Hin); lia).
  assert (blocks s !! brk s = None) as Hnone by (destruct (blocks s !! brk s) eqn:E; [|done]; destruct Hnew; apply H2; eauto).
  pose proof (H4 b x Hx) as Hsize. constructor; cbn [registered blocks all_blocks sectors brk].
  - apply NoDup_app. split; [done|]. split; [|apply NoDup_singleton]. intros y Hy ->%list_elem_of_singleton. done.
  - intros y. rewrite elem_of_app, list_elem_of_singleton, lookup_insert_is_Some', H2. naive_solver.
  - intros y [Hy|Hy%list_elem_of_singleton]%elem_of_app; [specialize (H3 _ Hy)|]; lia.
  - intros y z [[<- <-]|[_ Hz]]%lookup_insert_Some; [cbn; lia|by apply (H4 y)].
  - intros y z d sec [[<- <-]|[_ Hz]]%lookup_insert_Some Ho; [done|by apply (H5 y)].
  - intros i y z q Hi [[<- <-]|[Hne Hz]]%lookup_insert_Some Ho.
    + cbn in Ho. injection Ho as <-. split; [done|]. destruct (block_index s Hok b x Hx) as (j & Hj & Hl). exists j, x. rewrite Hp.
      assert (b <> brk s) by (intros ->; congruence). rewrite lookup_insert_ne by done. split; [|split; [by apply lookup_app_l_Some|split; [done|done]]].
      apply lookup_app_Some in Hi as [Hi|[Hi _]]; [destruct Hnew; by eapply list_elem_of_lookup_2|lia].
    + apply lookup_app_Some in Hi as [Hi|[_ Hi]]; [|apply list_lookup_singleton_Some in Hi as [_ Hi]; done].
      destruct (H6 i y z q Hi Hz Ho) as (Hq & j & w & Hj & Hbj & Hw & Hwle). split; [done|]. exists j, w.
      assert (p_block q <> brk s) by (intros E; congruence). rewrite lookup_insert_ne by done. split; [done|]. split; [by apply lookup_app_l_Some|done].
Qed.

(** What of a table entry becomes a device: one that is not empty and ends within the device. *)
Definition accepted (x : block) (e : partition_table_entry) : bool := negb ((e_size e =? 0) || (e_type e =? 0)) && (e_offset e + e_size e <=? size x).

Record is_partition_of (s : devs) (b : Z) (e : partition_table_entry) (b' : Z) : Prop := {
  ip_new : exists y, blocks s !! b' = Some y /\ type y = part_type (e_type e) /\ size y = e_size e /\ ops y = Partition (mkPart b (e_offset e))
}.

Definition entry_ok (e : partition_table_entry) : Prop := 0 <= e_type e < 256 /\ in_u 32 (e_offset e) /\ in_u 32 (e_size e).

(** States that grow by devices. *)
Definition grown (s s' : devs) (new : list Z) : Prop :=
  devs_ok s' /\ sectors s' = sectors s /\ block_by_role s' = block_by_role s /\ all_blocks s' = all_blocks s ++ new /\
  forall b x, blocks s !! b = Some x -> blocks s' !! b = Some x.

Lemma grown_refl s : devs_ok s -> grown s s [].
Proof. intros H. split; [done|]. rewrite app_nil_r. done. Qed.

Lemma grown_say s n s' new : grown s s' new -> grown s (set_notes n s') new.
Proof. intros ([H1 H2 H3 H4 H5 H6] & H). split; [|done]. by constructor. Qed.

Lemma found_run s b x e nr :
  devs_ok s -> blocks s !! b = Some x -> is_cname (name x) -> Zlen (name x) < 2 ^ 32 -> in_s 32 nr -> entry_ok e -> e_size e <> 0 -> e_type e <> 0 ->
  exists s' new, found_partition b (e_type e) (e_offset e) (e_size e) nr s = Ok (tt, s') /\ grown s s' new /\
    Forall2 (is_partition_of s' b) (if accepted x e then [e] else []) new.
Proof.
  intros Hok Hx Hn Hl Hnr (Ht & Ho & Hz) Hz0 Ht0. unfold in_u in *. pose proof (do_size s Hok b x Hx) as Hsize. unfold found_partition, block_size.
  rewrite (run_bind _ _ _ (size x) s) by (unfold get_block, mbind, st_bind; by rewrite Hx).
  unfold accepted. rewrite (proj2 (Z.eqb_neq (e_size e) 0)), (proj2 (Z.eqb_neq (e_type e) 0)) by done. cbn [orb negb andb].
  assert (forall nt, grown s (set_notes (notes s ++ [nt]) s) []) as Hsay by (intros nt; by apply grown_say, grown_refl).
  destruct (Z.leb_spec (size x) (e_offset e)) as [Hs|Hs].
  { rewrite (proj2 (Z.leb_gt _ _)) by lia. eexists _, []. split; [done|]. split; [apply Hsay|constructor]. }
  assert ((u32 (e_offset e + e_size e) <? e_offset e) || (size x <? u32 (e_offset e + e_size e)) = negb (e_offset e + e_size e <=? size x)) as ->.
  { destruct (Z.leb_spec (e_offset e + e_size e) (size x)) as [Hle|Hgt]; cbn [negb].
    - rewrite u32_id by lia. rewrite (proj2 (Z.ltb_ge _ _)), (proj2 (Z.ltb_ge _ _)) by lia. done.
    - destruct (decide (e_offset e + e_size e < 2 ^ 32)) as [Hlt|Hge].
      + rewrite u32_id by lia. apply orb_true_iff. right. apply Z.ltb_lt. lia.
      + apply orb_true_iff. left. apply Z.ltb_lt. unfold uwrap. replace (e_offset e + e_size e) with (e_offset e + e_size e - 2 ^ 32 + 1 * 2 ^ 32) by lia.
        rewrite Z.mod_add, Z.mod_small by lia. lia. }
  destruct (Z.leb_spec (e_offset e + e_size e) (size x)) as [Hle|Hgt]; cbn [negb].
  2:{ eexists _, []. split; [done|]. split; [apply Hsay|constructor]. }
  rewrite (run_bind _ _ _ (name x) s) by (unfold block_name, get_block, mbind, st_bind; by rewrite Hx).
  destruct (part_name_run (name x) nr Hn Hl Hnr) as (ds & En & _). destruct (part_info_run (e_type e) Ht) as (info & Ei).
  rewrite (run_bind _ _ _ _ s) by (by rewrite En). rewrite (run_bind _ _ _ _ s) by (by rewrite Ei).
  set (nm := u8 <$> _). exists (registered nm (part_type (e_type e)) info (e_size e) (Partition (mkPart b (e_offset e))) s), [brk s].
  assert (blocks s !! brk s = None) as Hnone by (destruct (blocks s !! brk s) eqn:E; [|done]; assert (brk s ∈ all_blocks s) as Hin%(do_brk s Hok) by (apply (do_dom s Hok); eauto); lia).
  split; [done|]. split.
  - split; [apply (register_ok _ _ _ _ b x (mkPart b (e_offset e))); [done|done|done|cbn; lia|lia|cbn; lia]|]. repeat split. intros y z Hy. cbn. rewrite lookup_insert_ne; [done|congruence].
  - constructor; [|constructor]. split. eexists. cbn. rewrite lookup_insert_eq. done.
Qed.

Lemma grown_trans s1 s2 s3 n1 n2 : grown s1 s2 n1 -> grown s2 s3 n2 -> grown s1 s3 (n1 ++ n2).
Proof.
  intros (_ & E1 & R1 & A1 & B1) (O2 & E2 & R2 & A2 & B2). split; [done|]. split; [congruence|]. split; [congruence|]. split; [by rewrite A2, A1, <- app_assoc|eauto].
Qed.

Lemma is_partition_grown s s' new b e b' : grown s s' new -> is_partition_of s b e b' -> is_partition_of s' b e b'.
Proof. intros (_ & _ & _ & _ & Hb) [(y & Hy & H)]. split. exists y. split; [by apply Hb|done]. Qed.

(** An entry that the loop passes on to [found_partition], or leaves out. *)
Definition plain_entry (e : partition_table_entry) : Prop := entry_ok e /\ ((e_size e =? 0) || (e_type e =? 0) = false -> extended (e_type e) = false).

Lemma parse_plain rec b x es : forall s nr,
  devs_ok s -> blocks s !! b = Some x -> is_cname (name x) -> Zlen (name x) < 2 ^ 32 -> 0 <= nr -> nr + Zlen es < 2 ^ 31 -> Forall plain_entry es ->
  exists s' new nr', parse_entries rec b 0 0 es nr s = Ok (nr', s') /\ grown s s' new /\ Forall2 (is_partition_of s' b) (List.filter (accepted x) es) new.
Proof.
  induction es as [|e es IH]; intros s nr Hok Hx Hn Hl Hnr Hlen Hes.
  { exists s, [], nr. split; [done|]. split; [by apply grown_refl|constructor]. }
  apply Forall_cons in Hes as [[He Hext] Hes]. cbn [parse_entries List.filter]. cbn [length] in Hlen.
  destruct ((e_size e =? 0) || (e_type e =? 0)) eqn:Hempty.
  - rewrite (run_bind _ _ _ nr s) by done. assert (accepted x e = false) as -> by (unfold accepted; by rewrite Hempty). apply IH; try done. lia.
  - rewrite Hext by done. rewrite s32_id by (unfold in_s; lia). apply orb_false_iff in Hempty as [Z1%Z.eqb_neq Z2%Z.eqb_neq].
    assert (u32 (e_offset e + 0) = e_offset e) as -> by (rewrite Z.add_0_r; apply u32_id; apply He).
    destruct (found_run s b x e (nr + 1)) as (s1 & n1 & E & G1 & F1); try done; [unfold in_s; lia|].
    rewrite (run_bind _ _ _ (nr + 1) s1) by (by rewrite (run_bind _ _ _ _ _ E)).
    pose proof G1 as (Hok1 & _ & _ & _ & Hb1). destruct (IH s1 (nr + 1)) as (s2 & n2 & nr' & E2 & G2 & F2); [done|by apply Hb1|done|done|lia|lia|done|].
    exists s2, (n1 ++ n2), nr'. split; [done|]. split; [by eapply grown_trans|].
    assert (Forall2 (is_partition_of s2 b) (if accepted x e then [e] else []) n1) as F1' by (eapply Forall2_impl; [exact F1|]; intros ? ?; by eapply is_partition_grown).
    destruct (accepted x e); [|by inversion F1'; subst]. inversion F1' as [|? ? ? ? HP HN]; subst. inversion HN; subst. by constructor.
Qed.

Abbreviation is_bytes := (Forall (fun b => 0 <= b < 256)).

(** The table of a device: what its first sector holds. *)
Record table (s : devs) (b : Z) (x : block) (pt : list Z) : Prop := {
  ta_ok : devs_ok s;
  ta_block : blocks s !! b = Some x;
  ta_size : 0 < size x;
  ta_name : is_cname (name x) /\ Zlen (name x) < 2 ^ 32;
  ta_at : exists r, at_disk (blocks s) b 0 r /\ sectors s !! r = Some pt;
  ta_bytes : is_bytes pt
}.

Lemma default_byte pt i : is_bytes pt -> 0 <= default 0 (pt !! i) < 256.
Proof. intros H. destruct (pt !! i) eqn:E; cbn; [|lia]. eapply Forall_lookup_1 in E; [|exact H]. done. Qed.

Lemma entry_at_ok pt i : is_bytes pt -> entry_ok (entry_at pt i).
Proof.
  intros H. unfold entry_ok, entry_at, word_at, in_u. cbn [e_type e_offset e_size]. split; [by apply default_byte|].
  split; repeat match goal with |- context [pt !! ?k] => let v := fresh "v" in pose proof (default_byte pt k H); set (v := default 0 (pt !! k)) in * end; lia.
Qed.

Lemma entries_ok pt : is_bytes pt -> Forall entry_ok (entries pt).
Proof. intros H. apply Forall_fmap, Forall_true. intros i. by apply entry_at_ok. Qed.

Lemma table_read s b x pt : table s b x pt -> exists s' x', block_read b 0 s = Ok (pt, s') /\ table s' b x' pt /\ same_device x x' /\ same_devices s s' /\ sectors s' = sectors s.
Proof.
  intros [Hok Hx Hz [Hn Hl] (r & Hat & Hr) Hb]. destruct (block_read_run s Hok b x 0 Hx ltac:(lia)) as (r' & bs & s' & E & Hat' & Hbs & Hs & Hsec).
  pose proof (at_disk_det _ _ _ _ Hat _ Hat') as <-. assert (bs = pt) as -> by congruence. destruct (same_lookup _ _ _ _ Hs Hx) as (y & Hy & Hxy).
  exists s', y. split; [done|]. split; [|done]. pose proof Hxy as (En & _ & Ez & _). constructor; rewrite <- ?En, <- ?Ez; try done.
  - eapply devs_ok_same; [done|done|by apply same_sectors_kept].
  - exists r. rewrite Hsec. split; [by eapply at_disk_same|done].
Qed.

(** Partitions are found.  Scanning a device whose partition table has no extended partition, with any fuel, ends; the
    new devices are, in the order of the table, those of the entries that are not empty and do not reach past the end of the device, each with
    the size and the first sector of its entry and the type that goes with it; the invariant of the devices holds again.  Without the signature
    nothing is registered. *)
Theorem partition_scan_spec s b x pt fuel :
  table s b x pt -> (signature pt = 0xaa55 -> Forall (fun e => e_size e = 0 \/ extended (e_type e) = false) (entries pt)) ->
  exists s' new, partition_scan (S fuel) b s = Ok (tt, s') /\ devs_ok s' /\ sectors s' = sectors s /\ all_blocks s' = all_blocks s ++ new /\
    Forall2 (is_partition_of s' b) (if signature pt =? 0xaa55 then List.filter (accepted x) (entries pt) else []) new.
Proof.
  intros Ht Hno. destruct (table_read s b x pt Ht) as (s1 & x1 & E1 & Ht1 & (En & _ & Ez & _) & Hs1 & Hsec1). pose proof Ht as [Hok Hx Hz _ _ Hb].
  assert (partition_scan (S fuel) b s = (nr ← (if negb (signature pt =? 0xaa55) then say BadSignature;; mret 0
    else parse_entries (read_partition_table fuel b) b 0 0 (entries pt) 0); if nr =? 0 then say NoPartitions else mret tt) s1) as ->.
  { unfold partition_scan. cbn [read_partition_table]. unfold mbind at 1 3, st_bind at 1 3. unfold block_size.
    rewrite (run_bind _ _ _ (size x) s) by (unfold get_block, mbind, st_bind; by rewrite Hx). rewrite (proj2 (Z.leb_gt _ _)) by lia.
    rewrite (run_bind _ _ _ _ _ E1). done. }
  destruct Hs1 as (A1 & _). destruct (Z.eqb_spec (signature pt) 0xaa55) as [Hsig|Hsig]; cbn [negb].
  2:{ exists (set_notes ((notes s1 ++ [BadSignature]) ++ [NoPartitions]) s1), []. split; [done|].
      destruct (grown_say s1 ((notes s1 ++ [BadSignature]) ++ [NoPartitions]) s1 [] (grown_refl _ (ta_ok _ _ _ _ Ht1))) as (Ho & Hse & _ & Ha & _).
      split; [done|]. split; [by rewrite Hse, Hsec1|]. split; [by rewrite Ha, A1|constructor]. }
  specialize (Hno Hsig).
  assert (Forall plain_entry (entries pt)) as Hplain.
  { apply Forall_forall. intros e He. split; [by eapply Forall_forall in He; [|by apply entries_ok]|]. intros [Z1%Z.eqb_neq _]%orb_false_iff.
    by eapply Forall_forall in Hno as [?|?]; [| |exact He]. }
  pose proof Ht1 as [Hok1 Hx1 _ [Hn1 Hl1] _ _].
  destruct (parse_plain (read_partition_table fuel b) b x1 (entries pt) s1 0) as (s2 & new & nr' & E2 & (Ho & Hse & _ & Ha & _) & F2); [done..|cbn; lia|done|].
  rewrite (run_bind _ _ _ _ _ E2). assert (accepted x1 = accepted x) as <- by (unfold accepted; by rewrite Ez).
  exists (if nr' =? 0 then set_notes (notes s2 ++ [NoPartitions]) s2 else s2), new. split; [by destruct (nr' =? 0)|].
  destruct (nr' =? 0).
  - destruct (grown_say s2 (notes s2 ++ [NoPartitions]) s2 [] (grown_refl _ Ho)) as (Ho' & _). split; [done|]. cbn. split; [congruence|]. split; [congruence|].
    eapply Forall2_impl; [exact F2|]. by intros e b' [H].
  - split; [done|]. split; [congruence|]. split; [congruence|done].
Qed.

(** ** A table with an extended partition *)

Lemma table_say s b x pt n : table s b x pt -> table (set_notes n s) b x pt.
Proof. intros [[H1 H2 H3 H4 H5 H6] Hx Hz Hn Hat Hb]. by constructor; [constructor|..]. Qed.

(** The first entry that is not empty is an extended partition. *)
Lemma parse_extended rec b sector primary es s nr e rest pre :
  es = pre ++ e :: rest -> Forall (fun e => (e_size e =? 0) || (e_type e =? 0) = true) pre -> (e_size e =? 0) || (e_type e =? 0) = false -> extended (e_type e) = true ->
  (if sector =? 0 then rec (e_offset e) (e_offset e) nr else rec (u32 (e_offset e + primary)) primary nr) (set_notes (notes s ++ [ExtendedIn sector]) s) = Err EFuel ->
  parse_entries rec b sector primary es nr s = Err EFuel.
Proof.
  intros -> Hpre He Hext Hrec. induction pre as [|p pre IH]; cbn [app parse_entries].
  - apply run_bind_err. rewrite He, Hext. rewrite (run_bind _ _ _ tt (set_notes (notes s ++ [ExtendedIn sector]) s)) by done. exact Hrec.
  - apply Forall_cons in Hpre as [Hp Hpre]. rewrite Hp, (run_bind _ _ _ nr s) by done. by apply IH.
Qed.

(** The table of an extended partition is never read: for each one sector 0 is read again.  When the first entry is an
    extended partition in the first half of the device, the scan never ends. *)
Theorem extended_never_ends s b x pt pre e rest :
  table s b x pt -> signature pt = 0xaa55 -> entries pt = pre ++ e :: rest ->
  Forall (fun e => (e_size e =? 0) || (e_type e =? 0) = true) pre -> e_size e <> 0 -> extended (e_type e) = true -> 2 * e_offset e < size x ->
  forall fuel, partition_scan fuel b s = Err EFuel.
Proof.
  intros Ht Hsig Hes Hpre Hz Hext Hhalf fuel. unfold partition_scan. apply run_bind_err.
  assert (in_u 32 (e_offset e)) as Ho.
  { pose proof (entries_ok pt (ta_bytes _ _ _ _ Ht)) as H. rewrite Hes in H. apply Forall_app in H as [_ H]. apply Forall_cons in H as [(_ & H & _) _]. exact H. }
  assert ((e_size e =? 0) || (e_type e =? 0) = false) as He.
  { rewrite (proj2 (Z.eqb_neq (e_size e) 0)) by done. destruct (Z.eqb_spec (e_type e) 0) as [E|]; [|done]. by rewrite E in Hext. }
  set (o := e_offset e) in *. unfold in_u in Ho.
  assert (forall fuel sector primary nr s x, table s b x pt -> 2 * o < size x -> sector = 0 /\ primary = 0 \/ primary = o /\ (sector = o \/ sector = 2 * o) ->
    read_partition_table fuel b sector primary nr s = Err EFuel) as H; [|eapply H; eauto].
  clear fuel s x Ht Hhalf. induction fuel as [|fuel IH]; intros sector primary nr s x Ht Hhalf Hcase; [done|]. cbn [read_partition_table]. unfold block_size.
  rewrite (run_bind _ _ _ (size x) s) by (unfold get_block, mbind, st_bind; by rewrite (ta_block _ _ _ _ Ht)).
  pose proof (ta_size _ _ _ _ Ht). pose proof (do_size _ (ta_ok _ _ _ _ Ht) _ _ (ta_block _ _ _ _ Ht)). rewrite (proj2 (Z.leb_gt _ _)) by lia.
  destruct (table_read s b x pt Ht) as (s1 & x1 & E1 & Ht1 & (_ & _ & Ez & _) & _). rewrite (run_bind _ _ _ _ _ E1), Hsig, Z.eqb_refl. cbn [negb].
  eapply parse_extended; [exact Hes|exact Hpre|exact He|exact Hext|]. fold o.
  pose proof (table_say s1 b x1 pt (notes s1 ++ [ExtendedIn sector]) Ht1) as Ht2. destruct (Z.eqb_spec sector 0) as [->|Hne].
  - eapply IH; [exact Ht2|lia|lia].
  - assert (primary = o) as -> by lia. rewrite u32_id by lia. eapply IH; [exact Ht2|lia|lia].
Qed.

(** The roles are four, and the statistics are printed for six. *)
Theorem print_stats_past_end s : length (block_by_role s) = 4%nat -> (forall b, b ∈ block_by_role s -> b = 0 \/ is_Some (blocks s !! b)) -> block_print_stats s = Err EUndef.
Proof.
  intros Hl Hb. unfold block_print_stats. destruct s as [bl ab ro se br no]. cbn in Hl, Hb. destruct ro as [|r0 [|r1 [|r2 [|r3 [|]]]]]; try done.
  assert (forall n i nts b, ([r0; r1; r2; r3] : list Z) !! Z.to_nat i = Some b -> exists nts',
    stats_loop (S n) i (mkDevs bl ab [r0; r1; r2; r3] se br nts) = stats_loop n (i + 1) (mkDevs bl ab [r0; r1; r2; r3] se br nts')) as Hstep.
  { intros n i nts b Hi. cbn [stats_loop]. rewrite (run_bind _ _ _ _ _ (run_get _)). cbn [block_by_role]. rewrite Hi.
    assert (b = 0 \/ is_Some (bl !! b)) as Hb' by (apply Hb; by eapply list_elem_of_lookup_2).
    destruct (Z.eqb_spec b 0) as [_|Hne]; cbn [negb]; [exists nts; by rewrite (run_bind _ _ _ tt (mkDevs bl ab [r0; r1; r2; r3] se br nts))|].
    destruct Hb' as [->|[y Hy]]; [done|]. eexists. erewrite (run_bind _ _ _ tt); [reflexivity|]. unfold get_block, mbind, st_bind. cbn [blocks]. rewrite Hy. reflexivity. }
  change (Z.to_nat BLOCK_CNT) with 6%nat.
  destruct (Hstep 5%nat 0 no r0 eq_refl) as [n1 ->]. destruct (Hstep 4%nat (0 + 1) n1 r1 eq_refl) as [n2 ->]. destruct (Hstep 3%nat (0 + 1 + 1) n2 r2 eq_refl) as [n3 ->]. destruct (Hstep 2%nat (0 + 1 + 1 + 1) n3 r3 eq_refl) as [n4 ->].
  reflexivity.
Qed.

(** * Examples *)

(** A disk of 64 sectors, [hda], whose first sector holds a partition table. *)
Definition demo_entry (t o n : Z) : list Z := [0; 0; 0; 0; t; 0; 0; 0; o; 0; 0; 0; n; 0; 0; 0].
Definition demo_table (es : list (list Z)) : list Z := replicate 446 0 ++ concat es ++ [0x55; 0xaa].
Definition demo_devs (pt : list Z) : devs :=
  mkDevs {[256 := mkBlock (chars "hda") BLOCK_RAW 64 (Disk 0) 0 0]} [256] [0; 0; 0; 0]
    (list_to_map ((fun i => ((0, i), if i =? 0 then pt else replicate 512 0)) <$> seqZ 0 64)) 320 [].

(** A file system in sectors 8 to 39, a scratch partition in sectors 40 to 59, and one that is too long. *)
Definition demo_pt : list Z := demo_table [demo_entry 0x21 8 32; demo_entry 0x22 40 20; demo_entry 0x23 60 20; demo_entry 0 0 0].

Lemma demo_sector pt i : 0 <= i < 64 -> sectors (demo_devs pt) !! (0, i) = Some (if i =? 0 then pt else replicate 512 0).
Proof.
  intros Hi. cbn [demo_devs sectors]. apply elem_of_list_to_map_1.
  - rewrite <- list_fmap_compose. apply NoDup_fmap_2; [intros ? ? ?; by simplify_eq|apply NoDup_seqZ].
  - apply list_elem_of_fmap. exists i. split; [done|]. apply elem_of_seqZ. lia.
Qed.

Lemma demo_ok pt : Zlen pt = 512 -> devs_ok (demo_devs pt).
Proof.
  intros Hpt. constructor; cbn [demo_devs all_blocks blocks brk].
  - apply NoDup_singleton.
  - intros b. rewrite list_elem_of_singleton, lookup_singleton_is_Some. naive_solver.
  - intros b ->%list_elem_of_singleton. lia.
  - intros b x [<- <-]%lookup_singleton_Some. by cbn.
  - intros b x d sec [<- <-]%lookup_singleton_Some [= <-] Hsec. cbn in Hsec. eexists. rewrite demo_sector by done. split; [done|]. by destruct (sec =? 0).
  - by intros i b x p _ [<- <-]%lookup_singleton_Some.
Qed.

Lemma demo_is_table pt : Zlen pt = 512 -> is_bytes pt -> table (demo_devs pt) 256 (mkBlock (chars "hda") BLOCK_RAW 64 (Disk 0) 0 0) pt.
Proof.
  intros Hl Hb. constructor; [by apply demo_ok|done|done|split; [repeat constructor; lia|done]| |done].
  exists (0, 0). split; [by eapply at_disk_here|]. by rewrite demo_sector.
Qed.

Lemma partition_scan_spec_witness :
  exists s' new, partition_scan 1 256 (demo_devs demo_pt) = Ok (tt, s') /\ all_blocks s' = [256] ++ new /\ length new = 2%nat.
Proof.
  destruct (partition_scan_spec (demo_devs demo_pt) 256 (mkBlock (chars "hda") BLOCK_RAW 64 (Disk 0) 0 0) demo_pt 0) as (s' & new & E & _ & _ & Ha & F).
  - apply demo_is_table; [done|]. apply (bool_decide_unpack _). by vm_compute.
  - intros _. apply (bool_decide_unpack _). by vm_compute.
  - exists s', new. split; [exact E|]. split; [exact Ha|]. apply Forall2_length in F. rewrite <- F. by vm_compute.
Defined.

Lemma block_io_spec_witness :
  exists s', block_write 256 5 (replicate 512 7) (demo_devs demo_pt) = Ok (tt, s') /\ exists s1, block_read 256 5 s' = Ok (replicate 512 7, s1).
Proof.
  destruct (block_io_spec (demo_devs demo_pt) 256 (mkBlock (chars "hda") BLOCK_RAW 64 (Disk 0) 0 0) 5 (replicate 512 7)) as (_ & _ & H).
  - by apply demo_ok.
  - done.
  - done.
  - done.
  - destruct H as (s' & E & _ & _ & R & _); [done|by eapply writable_disk|]. exists s'. split; [exact E|exact R].
Defined.

(** An extended partition in sectors 10 to 59. *)
Example extended_example : partition_scan 40 256 (demo_devs (demo_table [demo_entry 0x05 10 50; demo_entry 0 0 0; demo_entry 0 0 0; demo_entry 0 0 0])) = Err EFuel.
Proof. by vm_compute. Qed.
