(* ===== verification/Fsutil.v ===== *)
(** The file system utilities of filesys/fsutil.c: they copy files between the file system
    and a tar archive on the scratch device. *)
From Stdlib Require Import ZArith Lia String.
From stdpp Require Import base numbers sorting gmap list.
From S2P Require Import Prelude.
From S2P Require Import Bitmap.
From S2P Require Import StringC.
From S2P Require Import StdlibC.
From S2P Require Import Stdio.
From S2P Require Import Path.
From S2P Require Import Inode.
From S2P Require Import InodeFile.
From S2P Require Import Directory.
From S2P Require Import DirEntries.
From S2P Require Import Palloc.
From S2P Require Import Ustar.

Local Open Scope Z_scope.

(** * State *)

(** The file system; the scratch device, if there is one, with its size and its sectors; the sectors at which [fsutil_extract] and
    [fsutil_append] go on; what was printed. *)
Record futil := mkFutil {
  ffs : fs;
  scratch : option (Z * gmap Z (list Z));
  extract_sector : Z;
  append_sector : Z;
  printed : list Z
}.

Definition set_ffs (v : fs) (s : futil) : futil := mkFutil v (scratch s) (extract_sector s) (append_sector s) (printed s).
Definition set_scratch (v : option (Z * gmap Z (list Z))) (s : futil) : futil := mkFutil (ffs s) v (extract_sector s) (append_sector s) (printed s).
Definition set_extract_sector (v : Z) (s : futil) : futil := mkFutil (ffs s) (scratch s) v (append_sector s) (printed s).
Definition set_append_sector (v : Z) (s : futil) : futil := mkFutil (ffs s) (scratch s) (extract_sector s) v (printed s).
Definition set_printed (v : list Z) (s : futil) : futil := mkFutil (ffs s) (scratch s) (extract_sector s) (append_sector s) v.

Abbreviation uM := (st futil).

Definition liftf {A} (m : fM A) : uM A := fun s =>
  match m (ffs s) with
  | Ok (a, f) => Ok (a, set_ffs f s)
  | Err e => Err e
  end.

Definition getu {A} (f : futil -> A) : uM A := fun s => Ok (f s, s).
Definition modifyu (f : futil -> futil) : uM unit := fun s => Ok (tt, f s).
Definition echo (cs : list Z) : uM unit := modifyu (fun s => set_printed (printed s ++ cs) s).
Definition panic_if (c : bool) : uM unit := if c then st_fail EPanic else mret tt.

(** A routine of the kernel that returns a result and does not touch the state. *)
Definition liftr {A} (r : res A) : uM A := fun s => match r with Ok a => Ok (a, s) | Err e => Err e end.

(** The sectors of the scratch device. *)
Definition scratch_read (sec : Z) : uM (list Z) := fun s =>
  match scratch s with
  | Some (n, m) => match m !! sec with Some bs => Ok (bs, s) | None => Err EPanic end
  | None => Err EFault
  end.

Definition scratch_write (sec : Z) (bs : list Z) : uM unit := fun s =>
  match scratch s with
  | Some (n, m) => match m !! sec with Some _ => Ok (tt, set_scratch (Some (n, <[sec := bs]> m)) s) | None => Err EPanic end
  | None => Err EFault
  end.

Definition scratch_size : uM Z := fun s =>
  match scratch s with
  | Some (n, _) => Ok (n, s)
  | None => Err EFault
  end.

Section utilities.
(** What the stack holds, the working directory of the thread, and the byte behind a buffer of [BLOCK_SECTOR_SIZE] bytes. *)
Context (junk : list Z) (cwd : str) (past : Z).

(** * Listing, printing, deleting *)

(** One name per round; a directory has fewer names than bytes. *)
Definition ls_body (dir : Z) (_ : unit) : uM (unit + unit) :=
  r ← liftf (dir_readdir junk dir);
  match r with
  | None => mret (inr tt)
  | Some name => echo (name ++ [10]);; mret (inl tt)
  end.

Definition fsutil_ls : uM unit :=
  echo (chars "Files in the root directory:" ++ [10]);;
  dir ← liftf dir_open_root;
  panic_if (dir =? NULL);;
  fuel ← liftf (d ← get_dir dir; entries_fuel (d_inode d));
  loop fuel (ls_body dir) tt;;
  echo (chars "End of listing." ++ [10]).

(** [hex_dump] of bytes in a page. *)
Definition dump (pos : Z) (bs : list Z) : uM unit := fun s =>
  match hex_dump pos PGSIZE (Zlen bs) true (list_to_map (zip (seqZ PGSIZE (Zlen bs)) bs), printed s) with
  | Ok (_, (_, out)) => Ok (tt, set_printed out s)
  | Err e => Err e
  end.

Definition cat_body (file : Z) (_ : unit) : uM (unit + unit) :=
  pos ← liftf (file_tell file);
  bs ← liftf (file_read file PGSIZE);
  if Zlen bs =? 0 then mret (inr tt) else dump pos bs;; mret (inl tt).

(** A page per round. *)
Definition fsutil_cat (file_name : str) : uM unit :=
  echo (chars "Printing '" ++ file_name ++ chars "' to the console..." ++ [10]);;
  file ← liftf (filesys_open junk cwd file_name);
  panic_if (file =? NULL);;
  len ← liftf (file_length_of file);
  loop (Z.to_nat (len / PGSIZE) + 2) (cat_body file) tt;;
  liftf (file_close file).

Definition fsutil_rm (file_name : str) : uM unit :=
  echo (chars "Deleting '" ++ file_name ++ chars "'..." ++ [10]);;
  ok ← liftf (filesys_remove junk file_name);
  panic_if (negb ok).

(** * Archives *)

Definition chunk_of (size : Z) : Z := if BLOCK_SECTOR_SIZE <? size then BLOCK_SECTOR_SIZE else size.

(** The loop that copies a file from the archive, [size] bytes of it left. *)
Definition extract_body (dst size : Z) : uM (Z + unit) :=
  if 0 <? size then
    let chunk_size := chunk_of size in
    sector ← getu extract_sector;
    modifyu (set_extract_sector (u32 (sector + 1)));;
    data ← scratch_read sector;
    w ← liftf (file_write dst (take (Z.to_nat chunk_size) data));
    panic_if (negb (w =? chunk_size));;
    mret (inl (size - chunk_size))
  else mret (inr tt).

Definition rounds (size : Z) : nat := Z.to_nat (size / BLOCK_SECTOR_SIZE) + 2.

Definition extract_file (name : str) (size : Z) : uM unit :=
  echo (chars "Putting '" ++ name ++ chars "' into the file system..." ++ [10]);;
  ok ← liftf (filesys_create junk cwd name size);
  panic_if (negb ok);;
  dst ← liftf (filesys_open junk cwd name);
  panic_if (dst =? NULL);;
  loop (rounds size) (extract_body dst) size;;
  liftf (file_close dst).

Definition extract_round (_ : unit) : uM (unit + unit) :=
  sector ← getu extract_sector;
  modifyu (set_extract_sector (u32 (sector + 1)));;
  header ← scratch_read sector;
  match ustar_parse_header header with
  | inl error => st_fail EPanic
  | inr (_, USTAR_EOF, _) => mret (inr tt)
  | inr (name, USTAR_DIRECTORY, _) => echo (chars "ignoring directory " ++ default [] name ++ [10]);; mret (inl tt)
  | inr (name, USTAR_REGULAR, size) => extract_file (default [] name) size;; mret (inl tt)
  end.

(** Every round reads another sector of the device. *)
Definition fsutil_extract : uM unit :=
  n ← scratch_size;
  echo (chars "Extracting ustar archive from scratch device into file system..." ++ [10]);;
  loop (S (Z.to_nat n)) extract_round tt;;
  echo (chars "Erasing ustar archive..." ++ [10]);;
  let header := replicate (Z.to_nat BLOCK_SECTOR_SIZE) 0 in
  scratch_write 0 header;;
  scratch_write 1 header.

(** The loop that copies a file to the archive, [size] bytes of it left. *)
Definition append_body (src size : Z) : uM (Z + unit) :=
  if 0 <? size then
    let chunk_size := chunk_of size in
    sector ← getu append_sector;
    n ← scratch_size;
    panic_if (n <=? sector);;
    bs ← liftf (file_read src chunk_size);
    panic_if (negb (Zlen bs =? chunk_size));;
    modifyu (set_append_sector (u32 (sector + 1)));;
    scratch_write sector (bs ++ replicate (Z.to_nat (BLOCK_SECTOR_SIZE - chunk_size)) 0);;
    mret (inl (size - chunk_size))
  else mret (inr tt).

Definition append_marker : uM unit :=
  let zeros := replicate (Z.to_nat BLOCK_SECTOR_SIZE) 0 in
  sector ← getu append_sector;
  scratch_write sector zeros;;
  scratch_write sector (drop 1 zeros ++ [past]).

Definition fsutil_append (file_name : str) : uM unit :=
  echo (chars "Appending '" ++ file_name ++ chars "' to ustar archive on scratch device..." ++ [10]);;
  src ← liftf (filesys_open junk cwd file_name);
  panic_if (src =? NULL);;
  size ← liftf (file_length_of src);
  dst ← getu scratch;
  panic_if (bool_decide (dst = None));;
  r ← liftr (ustar_make_header file_name USTAR_REGULAR size);
  match r with
  | None => st_fail EPanic
  | Some buffer =>
      sector ← getu append_sector;
      modifyu (set_append_sector (u32 (sector + 1)));;
      scratch_write sector buffer;;
      loop (rounds size) (append_body src) size;;
      append_marker;;
      liftf (file_close src)
  end.
End utilities.

(** * Appending a file *)

(** The sectors of a file in an archive: chunks of 512 bytes, the last one filled up with zeros. *)
Fixpoint chunks (n : nat) (bs : list Z) : list (list Z) :=
  match n with
  | O => []
  | S n => let c := take 512 bs in (c ++ replicate (512 - length c) 0) :: chunks n (drop 512 bs)
  end.

Definition nchunks (len : Z) : nat := Z.to_nat ((len + 511) / 512).

(** Consecutive sectors of a device. *)
Definition holds (m : gmap Z (list Z)) (sec : Z) (l : list (list Z)) : Prop := forall i bs, l !! i = Some bs -> m !! (sec + Z.of_nat i) = Some bs.

(** Sectors from [lo] up to and without [hi] may differ. *)
Definition changed_in (lo hi : Z) (m m' : gmap Z (list Z)) : Prop :=
  (forall sec, is_Some (m' !! sec) <-> is_Some (m !! sec)) /\ forall sec, sec < lo \/ hi <= sec -> m' !! sec = m !! sec.

Lemma nchunks_pos len : 0 < len -> nchunks len = S (nchunks (len - chunk_of len)).
Proof.
  intros H. unfold nchunks, chunk_of, BLOCK_SECTOR_SIZE. destruct (Z.ltb_spec 512 len).
  - replace (len + 511) with (len - 512 + 511 + 1 * 512) by lia. rewrite Z.div_add by lia. pose proof (Z.div_pos (len - 512 + 511) 512). lia.
  - rewrite Z.sub_diag. change ((0 + 511) / 512) with 0. assert ((len + 511) / 512 = 1) as ->; [|done]. symmetry. apply (Z.div_unique _ _ _ (len - 1)); lia.
Qed.

Lemma chunks_concat n : forall bs, (length bs <= 512 * n)%nat -> take (length bs) (concat (chunks n bs)) = bs.
Proof.
  induction n as [|n IH]; intros bs Hl; [by destruct bs; [|cbn in Hl; lia]|]. cbn [chunks concat].
  destruct (decide (length bs <= 512)%nat) as [Hs|Hs].
  - rewrite (firstn_all2 bs) by lia. rewrite <- app_assoc. by rewrite take_app_length.
  - rewrite length_take, Nat.min_l by lia. rewrite Nat.sub_diag, app_nil_r, take_app_ge by (rewrite length_take; lia). rewrite length_take, Nat.min_l by lia.
    rewrite <- length_drop, IH by (rewrite length_drop; lia). apply take_drop.
Qed.

Section copy.
Context (nd : inode) (src : Z) (fl0 : file) (n : Z) (s0 : futil).
Context (Hok : file_ok (ffs s0) (f_inode fl0) nd) (Hm : mallocs (ffs s0) = []) (Hn : n < 2 ^ 32).

(** The file is as it was but for its position [pos]; the device has the sectors [m]; the next one is [sec]. *)
Record copying (s : futil) (pos sec : Z) (m : gmap Z (list Z)) : Prop := {
  cp_fs : exists b, ffs s = set_files (<[src := set_f_pos pos fl0]> (files (ffs s0))) (set_brk b (ffs s0));
  cp_scratch : scratch s = Some (n, m);
  cp_sector : append_sector s = sec
}.

Lemma append_step s pos sec m size : copying s pos sec m -> 0 < size -> 0 <= pos -> pos + size = file_length (data nd) -> 0 <= sec < n -> is_Some (m !! sec) ->
  exists s', append_body src size s = Ok (inl (size - chunk_of size), s') /\
    copying s' (pos + chunk_of size) (sec + 1) (<[sec := take 512 (drop (Z.to_nat pos) (content (ffs s0) nd)) ++ replicate (512 - length (take 512 (drop (Z.to_nat pos) (content (ffs s0) nd)))) 0]> m).
Proof using Hok Hm Hn.
  intros [(b & Hfs) Hsc Hsec] Hsize Hpos Hlen Hn' [old Hold]. pose proof (fo_length _ _ _ Hok) as HL. unfold BYTE_CAPACITY, NODE_CAPACITY, BLOCK_SECTOR_SIZE in HL.
  pose proof (content_length _ _ _ Hok) as HC.
  assert (0 < chunk_of size <= 512 /\ chunk_of size <= size /\ (chunk_of size = 512 \/ chunk_of size = size)) as (Hc1 & Hc2 & Hc3)
    by (unfold chunk_of, BLOCK_SECTOR_SIZE; destruct (Z.ltb_spec 512 size); lia).
  destruct s as [f1 sc es ap pr]. cbn [ffs scratch append_sector] in Hfs, Hsc, Hsec. subst f1 sc ap.
  set (s := mkFutil _ _ _ _ _). set (f := ffs s). unfold append_body. rewrite (proj2 (Z.ltb_lt 0 size)) by done. cbv zeta.
  rewrite (run_bind _ _ _ sec s) by done. rewrite (run_bind _ _ _ n s) by done. rewrite (run_bind _ _ _ tt s) by (unfold panic_if; by rewrite (proj2 (Z.leb_gt n sec)) by lia).
  destruct (file_read_run f src (set_f_pos pos fl0) nd (chunk_of size)) as (b' & _ & E).
  { unfold f, s. cbn. by rewrite lookup_insert_eq. }
  { by destruct Hok as [F1 F2 F3 F4 F5 F6 F7 F8]. }
  { done. }
  { done. }
  { lia. }
  { cbn. lia. }
  change (content f nd) with (content (ffs s0) nd) in E. cbn [f_pos set_f_pos] in E. set (part := take _ _) in E.
  assert (Zlen part = chunk_of size) as Hpart by (unfold part; rewrite length_take, length_drop; lia).
  rewrite (run_bind _ _ _ part (set_ffs (set_files (<[src := set_f_pos (pos + Zlen part) (set_f_pos pos fl0)]> (files f)) (set_brk b' f)) s)).
  2:{ unfold liftf. change (ffs s) with f. by rewrite E. }
  rewrite Hpart. set (s1 := set_ffs _ s). rewrite (run_bind _ _ _ tt s1) by (unfold panic_if; by rewrite Z.eqb_refl).
  rewrite (run_bind _ _ _ tt (set_append_sector (u32 (sec + 1)) s1)) by done.
  set (bs := part ++ _). rewrite (run_bind _ _ _ tt (set_scratch (Some (n, <[sec := bs]> m)) (set_append_sector (u32 (sec + 1)) s1))).
  2:{ unfold scratch_write. cbn [scratch set_append_sector s1 set_ffs s]. by rewrite Hold. }
  eexists. split; [done|]. assert (bs = take 512 (drop (Z.to_nat pos) (content (ffs s0) nd)) ++ replicate (512 - length (take 512 (drop (Z.to_nat pos) (content (ffs s0) nd)))) 0) as <-.
  { assert (take 512 (drop (Z.to_nat pos) (content (ffs s0) nd)) = part) as ->.
    { unfold part. destruct Hc3 as [->|Hc3]; [done|]. rewrite !firstn_all2 by (rewrite length_drop; lia). done. }
    unfold bs, BLOCK_SECTOR_SIZE. by replace (Z.to_nat (512 - chunk_of size)) with (512 - length part)%nat by lia. }
  constructor; [|done|cbn; apply u32_id; lia]. exists b'. cbn. unfold f, s. cbn. by rewrite insert_insert_eq.
Qed.

Lemma append_loop fuel : forall size s pos sec m, copying s pos sec m -> (nchunks size < fuel)%nat -> 0 <= size -> 0 <= pos -> pos + size = file_length (data nd) ->
  0 <= sec -> sec + Z.of_nat (nchunks size) <= n -> (forall i, 0 <= i < n -> is_Some (m !! i)) ->
  exists s' m', loop fuel (append_body src) size s = Ok (tt, s') /\ copying s' (file_length (data nd)) (sec + Z.of_nat (nchunks size)) m' /\
    holds m' sec (chunks (nchunks size) (drop (Z.to_nat pos) (content (ffs s0) nd))) /\ changed_in sec (sec + Z.of_nat (nchunks size)) m m'.
Proof using Hok Hm Hn.
  induction fuel as [|fuel IH]; intros size s pos sec m Hcp Hf Hsize Hpos Hlen Hsec Hend Hall; [lia|].
  destruct (decide (size = 0)) as [->|Hne].
  { exists s, m. change (nchunks 0) with 0%nat. rewrite Z.add_0_r in *. split; [by apply loop_break|]. split; [by rewrite <- Hlen|]. split; [by intros [|i] bs Hi|by split]. }
  assert (0 < size) as Hpos' by lia. pose proof (nchunks_pos size Hpos') as Hnc.
  assert (0 < chunk_of size <= size /\ (chunk_of size = 512 \/ chunk_of size = size) /\ chunk_of size <= 512) as (Hc1 & Hc2 & Hc3)
    by (unfold chunk_of, BLOCK_SECTOR_SIZE; destruct (Z.ltb_spec 512 size); lia).
  destruct (append_step s pos sec m size Hcp Hpos' Hpos Hlen) as (s1 & E1 & Hcp1); [lia|apply Hall; lia|]. rewrite (loop_continue _ _ _ _ _ _ E1). set (bs0 := take 512 _ ++ _) in Hcp1.
  destruct (IH (size - chunk_of size) s1 (pos + chunk_of size) (sec + 1) (<[sec := bs0]> m) Hcp1) as (s2 & m2 & E2 & Hcp2 & Hh2 & Hd2 & Hr2); [lia..| |].
  { intros i Hi. apply lookup_insert_is_Some'. right. by apply Hall. }
  exists s2, m2. split; [done|]. replace (sec + Z.of_nat (nchunks size)) with (sec + 1 + Z.of_nat (nchunks (size - chunk_of size))) by lia. split; [done|]. split.
  - rewrite Hnc. intros [|i] bs Hi.
    + cbn in Hi. injection Hi as <-. rewrite Z.add_0_r, Hr2 by lia. by rewrite lookup_insert_eq.
    + cbn [chunks] in Hi. cbn in Hi. replace (sec + Z.of_nat (S i)) with (sec + 1 + Z.of_nat i) by lia. apply Hh2. rewrite drop_drop in Hi.
      destruct Hc2 as [Hc2|Hc2]; [by replace (Z.to_nat (pos + chunk_of size)) with (Z.to_nat pos + 512)%nat by lia|].
      rewrite Hc2, Z.sub_diag in *. by change (nchunks 0) with 0%nat in *.
  - split.
    + intros i. rewrite Hd2, lookup_insert_is_Some'. split; [intros [<-|H]; [apply Hall; lia|done]|by right].
    + intros i Hi. rewrite Hr2 by lia. by rewrite lookup_insert_ne by lia.
Qed.
End copy.

(** The marker that is meant to end the archive. *)
Definition marker (past : Z) : list Z := replicate 511 0 ++ [past].

(** Appending a file to an archive.  When the file can be opened, its name is not too long and there is room, the
    header goes to the next sector, and parsing it gives the name and the size; the content of the file goes to the sectors after it, filled up
    with zeros; then comes one sector of zeros but for its last byte, which is the byte behind the buffer.  No other sector changes, the next file goes on at the marker, and
    the file is closed. *)
Theorem fsutil_append_spec junk cwd past name s src f1 fl nd n m :
  filesys_open junk cwd name (ffs s) = Ok (src, f1) -> src <> NULL -> files f1 !! src = Some fl -> f_pos fl = 0 ->
  file_ok f1 (f_inode fl) nd -> mallocs f1 = [] -> scratch s = Some (n, m) -> (forall i, 0 <= i < n -> is_Some (m !! i)) -> n < 2 ^ 32 ->
  is_name name -> Zlen (strip_antisocial_prefixes name) <= 99 -> 0 <= append_sector s ->
  let len := file_length (data nd) in let first := append_sector s + 1 in let next := first + Z.of_nat (nchunks len) in
  next < n ->
  exists s' m' h l, fsutil_append junk cwd past name s = liftf (file_close src) s' /\ scratch s' = Some (n, m') /\ append_sector s' = next /\
    m' !! append_sector s = Some h /\ ustar_parse_header h = inr (Some (strip_antisocial_prefixes name), USTAR_REGULAR, len) /\
    holds m' first l /\ length l = nchunks len /\ take (Z.to_nat len) (concat l) = content f1 nd /\
    m' !! next = Some (marker past) /\ changed_in (append_sector s) (next + 1) m m'.
Proof.
  intros Eo Hsrc Hfl Hpos Hok Hm Hsc Hall Hn Hname Hshort Hsec len first next Hroom.
  pose proof (fo_length _ _ _ Hok) as HL. pose proof (content_length _ _ _ Hok) as HC. fold len in HL, HC. unfold BYTE_CAPACITY, NODE_CAPACITY, BLOCK_SECTOR_SIZE in HL.
  destruct (made_parses name USTAR_REGULAR len Hname) as (_ & _ & Hh); [done|unfold INT_MAX; lia|]. destruct (Hh Hshort) as (h & Eh & Lh & Ph). clear Hh.
  destruct s as [f0 sc es ap pr]. cbn [ffs scratch append_sector] in *. subst sc.
  unfold fsutil_append. set (pr' := pr ++ chars "Appending '" ++ name ++ chars "' to ustar archive on scratch device..." ++ [10]). rewrite (run_bind _ _ _ tt (mkFutil f0 (Some (n, m)) es ap pr')) by done.
  rewrite (run_bind _ _ _ src (mkFutil f1 (Some (n, m)) es ap pr')) by (unfold liftf; cbn [ffs]; by rewrite Eo).
  rewrite (run_bind _ _ _ tt (mkFutil f1 (Some (n, m)) es ap pr')) by (unfold panic_if; by rewrite (proj2 (Z.eqb_neq src NULL))).
  rewrite (run_bind _ _ _ len (mkFutil f1 (Some (n, m)) es ap pr')).
  2:{ unfold liftf, file_length_of. cbn [ffs]. rewrite (run_bind _ _ _ fl f1) by (unfold get_file; by rewrite Hfl). by rewrite (inode_length_run _ _ _ Hok). }
  do 2 rewrite (run_bind _ _ _ _ (mkFutil f1 (Some (n, m)) es ap pr')) by done.
  rewrite (run_bind _ _ _ (Some h) (mkFutil f1 (Some (n, m)) es ap pr')) by (unfold liftr; by rewrite Eh).
  rewrite (run_bind _ _ _ ap (mkFutil f1 (Some (n, m)) es ap pr')) by done.
  rewrite (run_bind _ _ _ tt (mkFutil f1 (Some (n, m)) es (u32 (ap + 1)) pr')) by done. rewrite u32_id by lia. fold first.
  destruct (Hall ap ltac:(lia)) as [old Hold]. set (s1 := mkFutil f1 (Some (n, <[ap := h]> m)) es first pr').
  rewrite (run_bind _ _ _ tt s1) by (unfold scratch_write; cbn [scratch]; by rewrite Hold).
  assert (copying src fl n s1 s1 0 first (<[ap := h]> m)) as Hcp.
  { constructor; [|done|done]. exists (brk f1). cbn [ffs s1]. assert (set_f_pos 0 fl = fl) as -> by (destruct fl; cbn in Hpos; by subst). rewrite insert_id by done. by destruct f1. }
  assert (nchunks len < rounds len)%nat as Hfuel.
  { unfold nchunks, rounds, BLOCK_SECTOR_SIZE. pose proof (Z.div_le_mono (len + 511) (len + 1 * 512) 512 ltac:(lia) ltac:(lia)) as Hd. rewrite Z.div_add in Hd by lia.
    pose proof (Z.div_pos len 512). lia. }
  destruct (append_loop nd src fl n s1 Hok Hm Hn (rounds len) len s1 0 first (<[ap := h]> m) Hcp Hfuel) as (s2 & m2 & E2 & [(b2 & Hf2) Hsc2 Hsec2] & Hh2 & Hd2 & Hr2); [lia|lia|done|lia|lia| |].
  { intros i Hi. apply lookup_insert_is_Some'. right. by apply Hall. }
  rewrite (run_bind _ _ _ _ _ E2). fold next in Hr2, Hsec2. change (drop (Z.to_nat 0) ?c) with c in Hh2.
  assert (is_Some (m2 !! next)) as [old2 Hold2] by (apply Hd2, lookup_insert_is_Some'; right; apply Hall; lia).
  set (m3 := <[next := marker past]> (<[next := replicate 512 0]> m2)).
  rewrite (run_bind _ _ _ tt (set_scratch (Some (n, m3)) s2)).
  2:{ unfold append_marker. rewrite (run_bind _ _ _ next s2) by (unfold getu; by rewrite Hsec2).
      rewrite (run_bind _ _ _ tt (set_scratch (Some (n, <[next := replicate 512 0]> m2)) s2)) by (unfold scratch_write; rewrite Hsc2; by rewrite Hold2).
      unfold scratch_write. cbn [scratch set_scratch]. by rewrite lookup_insert_eq. }
  assert (forall i, i <> next -> m3 !! i = m2 !! i) as Hm3 by (intros i Hi; unfold m3; by rewrite !lookup_insert_ne).
  exists (set_scratch (Some (n, m3)) s2), m3, h, (chunks (nchunks len) (content f1 nd)). split; [done|]. split; [done|]. split; [done|].
  split; [rewrite Hm3, Hr2, lookup_insert_eq by lia; done|]. split; [done|].
  assert (forall k bs, length (chunks k bs) = k) as Hlen by (intros k; induction k as [|k IH]; intros bs; cbn; [done|by rewrite IH]).
  split; [|split; [apply Hlen|split; [|split; [unfold m3; by rewrite lookup_insert_eq|split]]]].
  - intros i bs Hi. rewrite Hm3; [by apply Hh2|]. apply lookup_lt_Some in Hi. rewrite Hlen in Hi. lia.
  - rewrite <- HC. apply chunks_concat. rewrite HC. unfold nchunks. pose proof (Z.div_mod (len + 511) 512 ltac:(lia)). pose proof (Z.mod_pos_bound (len + 511) 512 ltac:(lia)). lia.
  - intros i. unfold m3. rewrite !lookup_insert_is_Some', Hd2, lookup_insert_is_Some'.
    split; [intros [<-|[<-|[<-|H]]]; [apply Hall; lia|apply Hall; lia|apply Hall; lia|done]|by do 3 right].
  - intros i Hi. rewrite Hm3, Hr2, lookup_insert_ne by lia. done.
Qed.

(** When the byte behind the buffer is not zero, the marker is not read as the end of the archive. *)
Theorem marker_not_end past : past <> 0 -> ustar_parse_header (marker past) = inl "not a ustar archive"%string.
Proof.
  intros H. unfold ustar_parse_header. assert (is_all_zeros (marker past) = false) as ->.
  { apply not_true_is_false. intros E. unfold is_all_zeros in E. rewrite forallb_forall in E. apply H, Z.eqb_eq, E. unfold marker. apply in_or_app. right. by left. }
  assert (field magic_ofs 6 (marker past) = replicate 6 0) as -> by done. done.
Qed.

(** A file [x] of 10 bytes in a new file system, and a scratch device of 8 sectors. *)
Definition demo_x_fs : fs := match demo_file_x with Ok (_, s) => s | Err _ => demo_fs end.
Definition demo_x_opened : Z * fs := match filesys_open (replicate 24 0) [47] [120] demo_x_fs with Ok r => r | Err _ => (0, demo_fs) end.
Definition demo_x_file : file := default {| f_inode := 0; f_pos := 0; f_deny_write := false |} (files demo_x_opened.2 !! demo_x_opened.1).
Definition demo_x_node : inode := default demo_node (inodes demo_x_opened.2 !! f_inode demo_x_file).
Definition demo_scratch : gmap Z (list Z) := list_to_map ((fun i => (i, replicate 512 255)) <$> seqZ 0 8).

Lemma demo_x_opens : filesys_open (replicate 24 0) [47] [120] demo_x_fs = Ok (demo_x_opened.1, demo_x_opened.2).
Proof.
  assert (match filesys_open (replicate 24 0) [47] [120] demo_x_fs with Ok _ => true | Err _ => false end = true) as H by (by vm_compute).
  unfold demo_x_opened. by destruct (filesys_open (replicate 24 0) [47] [120] demo_x_fs) as [[a b]|].
Qed.

Lemma found_default {A} (d : A) (o : option A) : match o with Some _ => true | None => false end = true -> o = Some (default d o).
Proof. by destruct o. Qed.

Lemma demo_x_files : files demo_x_opened.2 !! demo_x_opened.1 = Some demo_x_file /\ inodes demo_x_opened.2 !! f_inode demo_x_file = Some demo_x_node.
Proof. split; apply found_default; vm_compute; reflexivity. Qed.

Lemma demo_x_sector : exists bs, disk demo_x_opened.2 !! addr_of demo_x_node 0 = Some bs /\ length bs = 512%nat.
Proof.
  assert (match disk demo_x_opened.2 !! addr_of demo_x_node 0 with Some _ => true | None => false end = true) as H by (vm_compute; reflexivity).
  apply (found_default []) in H. eexists. split; [exact H|]. clear H. vm_compute. reflexivity.
Qed.

Lemma demo_x_ok : file_ok demo_x_opened.2 (f_inode demo_x_file) demo_x_node.
Proof.
  assert (file_length (data demo_x_node) = 10) as Hl by (vm_compute; reflexivity). split; rewrite ?Hl; change (nsec 10) with 1%nat; clear Hl.
  - apply demo_x_files.
  - vm_compute. discriminate.
  - vm_compute. reflexivity.
  - vm_compute. split; discriminate.
  - vm_compute. reflexivity.
  - intros [|i] Hi; [vm_compute; reflexivity|lia].
  - intros [|i] Hi; [exact demo_x_sector|lia].
  - intros [|i] [|j] Hi Hj _; lia.
Qed.

Lemma demo_scratch_all i : 0 <= i < 8 -> is_Some (demo_scratch !! i).
Proof.
  intros Hi. eexists. apply elem_of_list_to_map_1.
  - rewrite <- list_fmap_compose. apply NoDup_fmap_2; [by intros ? ? ?|apply NoDup_seqZ].
  - apply list_elem_of_fmap. exists i. split; [done|]. apply elem_of_seqZ. lia.
Qed.

Lemma fsutil_append_spec_witness :
  exists s' m', fsutil_append (replicate 24 0) [47] 7 [120] (mkFutil demo_x_fs (Some (8, demo_scratch)) 0 0 []) = liftf (file_close demo_x_opened.1) s' /\
    scratch s' = Some (8, m') /\ m' !! 2 = Some (marker 7).
Proof.
  destruct (fsutil_append_spec (replicate 24 0) [47] 7 [120] (mkFutil demo_x_fs (Some (8, demo_scratch)) 0 0 [])
    demo_x_opened.1 demo_x_opened.2 demo_x_file demo_x_node 8 demo_scratch) as (s' & m' & h & l & E & Hsc & _ & _ & _ & _ & _ & _ & Hmk & _).
  - exact demo_x_opens.
  - vm_compute. discriminate.
  - apply demo_x_files.
  - by vm_compute.
  - exact demo_x_ok.
  - by vm_compute.
  - done.
  - exact demo_scratch_all.
  - done.
  - repeat constructor; lia.
  - by vm_compute.
  - done.
  - by vm_compute.
  - exists s', m'. split; [exact E|]. split; [exact Hsc|]. assert (append_sector (mkFutil demo_x_fs (Some (8, demo_scratch)) 0 0 []) + 1 + Z.of_nat (nchunks (file_length (data demo_x_node))) = 2) as E2 by (by vm_compute).
    rewrite E2 in Hmk. exact Hmk.
Defined.
