(* ===== verification/KernelMap.v ===== *)
(** The page tables of the kernel: [paging_init] of threads/init.c maps the whole of
    physical memory at [PHYS_BASE], and protects the text of the kernel. *)
From Stdlib Require Import ZArith Lia.
From stdpp Require Import base numbers sorting gmap list.
From S2P Require Import Prelude.
From S2P Require Import Bitmap.
From S2P Require Import Palloc.
From S2P Require Import PageDir.

Local Open Scope Z_scope.

Section paging.
(** The pages of memory, and where the text of the kernel starts and ends. *)
Context (init_ram_pages _start _end_kernel_text : Z).

Definition in_kernel_text (vaddr : Z) : bool := (_start <=? vaddr) && (vaddr <? _end_kernel_text).

(** One round of the loop, for [page]; [pt] is the page table of the round before. *)
Definition paging_body (pd page pt : Z) : vM Z :=
  let paddr := u32 (page * PGSIZE) in
  vaddr ← liftr (ptov paddr);
  let pde := pd + 4 * pd_no vaddr in
  w ← load pde;
  pt ← (if w =? 0 then
          pt ← liftp (palloc_get_page (Z.lor PAL_ASSERT PAL_ZERO));
          e ← liftr (pde_create pt);
          store pde e;; mret pt
        else mret pt);
  e ← liftr (pte_create_kernel vaddr (negb (in_kernel_text vaddr)));
  store (pt + 4 * pt_no vaddr) e;;
  mret pt.

(** The loop from [page] on, with [n] rounds to go. *)
Fixpoint paging_loop (n : nat) (pd page pt : Z) : vM unit :=
  match n with
  | O => mret tt
  | S n => pt ← paging_body pd page pt; paging_loop n pd (page + 1) pt
  end.

(** The address of the directory, which becomes [init_page_dir]. *)
Definition paging_init : vM Z :=
  pd ← liftp (palloc_get_page (Z.lor PAL_ASSERT PAL_ZERO));
  paging_loop (Z.to_nat init_ram_pages) pd 0 NULL;;
  pa ← liftr (vtop pd);
  set_cr3 pa;;
  mret pd.
End paging.

(** * Pages for the tables *)

(** Different pages of the kernel's pool that are free. *)
Record free_pages (m : pmem) (L : list Z) : Prop := {
  fp_nodup : NoDup L;
  fp_free : forall a, a ∈ L -> in_pool (kernel_pool m) a /\ ~ used m a
}.

Lemma free_room m a L : mem_ok m -> free_pages m (a :: L) -> ~ no_room (kernel_pool m) 1.
Proof.
  intros Hm [_ Hf] Hno. destruct (Hf a) as [[Hal Hr] Hnu]; [by left|]. destruct (mo_kernel m Hm) as [_ Hba _ _]. set (p := kernel_pool m) in *.
  assert ((a - base p) mod PGSIZE = 0) as Hmod by (unfold PGSIZE in *; rewrite Zminus_mod, Hal, Hba; done).
  pose proof (Z.div_mod (a - base p) PGSIZE ltac:(done)) as Hd. unfold PGSIZE in *.
  destruct (Hno ((a - base p) / 4096)) as (i & Hi & Hb); [apply Z.div_pos; lia|lia|]. assert (i = (a - base p) / 4096) as -> by lia.
  apply Hnu. left. split; [by split|exact Hb].
Qed.

(** Allocating a page of zeros when there is a free one. *)
Lemma get_zero_page m L : mem_ok m -> free_pages m L -> L <> [] ->
  exists p m' L', palloc_get_page (Z.lor PAL_ASSERT PAL_ZERO) m = Ok (p, m') /\ mem_ok m' /\ p mod PGSIZE = 0 /\ ~ used m p /\
    (forall b, used m' b <-> used m b \/ b = p) /\ pages m' !! p = Some (replicate 1024 0) /\ (forall b, b <> p -> pages m' !! b = pages m !! b) /\
    free_pages m' L' /\ (length L <= S (length L'))%nat.
Proof.
  intros Hm HL Hne. destruct L as [|a L]; [done|]. destruct (palloc_get_ok (Z.lor PAL_ASSERT PAL_ZERO) 1 m Hm ltac:(lia))
    as [(p & m' & E & Hm' & _ & Hal & Hfree & Hused & Hsame & Hz)|[Hno _]]; [|by destruct (free_room m a L Hm HL)].
  change (if negb (Z.land (Z.lor PAL_ASSERT PAL_ZERO) PAL_ZERO =? 0) then filled p 1 0 (pages m) (pages m') else pages m' = pages m) with (filled p 1 0 (pages m) (pages m')) in Hz.
  exists p, m', (filter (fun b => b <> p) (a :: L)). split; [done|]. split; [done|]. split; [done|]. split; [apply Hfree; by apply group_one|].
  split; [intros b; by rewrite Hused, group_one|]. destruct Hz as [Hz1 Hz2]. split; [apply Hz1; by apply group_one|].
  split; [intros b Hb; apply Hz2; by rewrite group_one|]. destruct HL as [Hnd Hf]. split.
  - split; [by apply NoDup_filter|]. intros b [Hb Hin]%list_elem_of_filter. destruct (Hf b Hin) as [Hp Hu]. split.
    + by apply (same_pools_in m m' false).
    + rewrite Hused, group_one. tauto.
  - change (S (length (filter (fun b => b <> p) (a :: L)))) with (length (p :: filter (fun b => b <> p) (a :: L))). apply submseteq_length, NoDup_submseteq; [done|].
    intros b Hb. destruct (decide (b = p)) as [->|Hne']; [by left|right]. by apply list_elem_of_filter.
Qed.

(** The entry of a page of the kernel. *)
Lemma pte_create_kernel_ok k wr :
  k mod PGSIZE = 0 -> PHYS_BASE <= k < 2 ^ 32 ->
  exists e, pte_create_kernel k wr = Ok e /\ in_u 32 e /\ tab e = k /\ Z.testbit e 0 = true /\ Z.testbit e 1 = wr /\ Z.testbit e 2 = false.
Proof.
  intros Ha Hr. unfold pte_create_kernel, vtop, rassert, is_kernel_vaddr. rewrite pg_ofs_mod, Ha.
  cbn [Z.eqb mbind res_bind]. rewrite (proj2 (Z.leb_le _ _)) by lia. cbn [mbind res_bind].
  rewrite <- !Z.lor_assoc. set (f := Z.lor PTE_P _). eexists. split; [done|].
  assert ((k - PHYS_BASE) mod PGSIZE = 0) as Hm by (unfold PHYS_BASE, PGSIZE in *; by rewrite Zminus_mod, Ha).
  assert (in_u 32 (k - PHYS_BASE)) as Hi by (unfold in_u, PHYS_BASE in *; lia).
  assert (0 <= f < 4096) as Hf by (unfold f; by destruct wr).
  split; [by apply entry_range|]. split; [unfold tab; rewrite entry_addr by done; lia|].
  rewrite !entry_bits by (unfold in_u in Hi; done || lia). unfold f. by destruct wr.
Qed.

(** * The loop *)

(** A new page table for [va], entered in the directory. *)
Lemma enter_table s pd va L :
  pd_ok (phys s) pd -> 0 <= va -> va < 2 ^ 32 -> word (pages (phys s)) (pd + 4 * pd_no va) = Some 0 -> free_pages (phys s) L -> L <> [] ->
  exists pt e m2 L', (pt ← liftp (palloc_get_page (Z.lor PAL_ASSERT PAL_ZERO)); e ← liftr (pde_create pt); store (pd + 4 * pd_no va) e;; mret pt) s = Ok (pt, mkVm m2 (cr3 s)) /\
    pd_ok m2 pd /\ tab e = pt /\ e <> 0 /\ (forall i, 0 <= i < 1024 -> word (pages m2) (pd + 4 * i) = if decide (i = pd_no va) then Some e else word (pages (phys s)) (pd + 4 * i)) /\
    (forall va', 0 <= va' -> va' < 2 ^ 32 -> pte_of (pages m2) pd va' = pte_of (pages (phys s)) pd va') /\
    free_pages m2 L' /\ (length L <= S (length L'))%nat.
Proof.
  intros Hok H0 Hu Hw HL Hne. pose proof (po_mem _ pd Hok) as Hm. destruct (used_aligned _ pd Hm (po_used _ pd Hok)) as [Hpa _].
  destruct (get_zero_page (phys s) L Hm HL Hne) as (pt & m1 & L' & Eg & Hm1 & Hal & Hnu & Hused & Hz & Hp1 & HL' & Hlen).
  assert (used m1 pt) as Hpu by (apply Hused; by right). destruct (used_aligned m1 pt Hm1 Hpu) as [_ Hptr].
  assert (forall b, used (phys s) b -> pages m1 !! b = pages (phys s) !! b) as Hpg by (intros b Hb; apply Hp1; intros ->; done).
  destruct (pd_ok_frame (phys s) m1 pd Hok Hm1) as [Hok1 Hsame]; [intros b Hub; apply Hused; by left|done|].
  destruct (pde_create_ok pt Hal Hptr) as (e & He & Her & Het & Hen & Heb).
  assert (forall i, 0 <= i < 1024 -> word (pages m1) (pd + 4 * i) = word (pages (phys s)) (pd + 4 * i)) as Hws.
  { intros i Hi. rewrite !word_at by done. by rewrite Hpg by apply (po_used _ _ Hok). }
  assert (table_ok m1 pd e) as Hte.
  { split; rewrite ?Het; [done|done|intros ->; apply Hnu, (po_used _ _ Hok)|]. exists (replicate 1024 0). split; [done|]. split; [apply length_replicate|]. apply Forall_replicate. unfold in_u. lia. }
  assert (word (pages m1) (pd + 4 * pd_no va) = Some 0) as Hw1 by (by rewrite (proj1 (Hsame va H0 Hu))).
  destruct (new_table_ok m1 pd va pt e Hok1 H0 Hu Hw1 Her Het Hen Hte Hz) as (Hok2 & Hw2 & Hpte).
  { intros i w Hi. rewrite Hws by done. intros Hwi Hnz Et. apply Hnu. rewrite <- Et. by apply (po_tables _ pd Hok i). }
  set (m2 := set_pages _ m1) in *. exists pt, e, m2, L'. split; [|split; [done|split; [done|split; [done|split; [|split; [|split; [|done]]]]]]].
  - rewrite (run_bind _ _ _ pt (mkVm m1 (cr3 s))) by (unfold liftp; by rewrite Eg). rewrite (run_bind _ _ _ e (mkVm m1 (cr3 s))) by (by apply lift_run_v).
    by rewrite (run_bind _ _ _ tt (mkVm m2 (cr3 s))) by (by apply (word_store_run _ e 0 (mkVm m1 (cr3 s)))).
  - intros i Hi. pose proof (pd_no_range va H0 Hu). unfold m2; cbn. rewrite word_set_word by (done || apply (po_entries _ _ Hok1)). rewrite Hws by done. repeat case_decide; naive_solver.
  - intros va' Ha Hb'. rewrite Hpte by done. by apply Hsame.
  - destruct HL' as [N F]. split; [done|]. exact F.
Qed.

Section loop.
Context (ram _start _end_kernel_text pd : Z).
Context (Hram : 0 <= ram <= 2 ^ 18).

(** The number of page tables for [k] pages. *)
Definition tables (k : Z) : Z := (k + 1023) / 1024.

(** The entry for [va] when [k] pages have been mapped. *)
Definition pte_is (k va x : Z) : Prop :=
  if decide (PHYS_BASE <= va < PHYS_BASE + k * PGSIZE) then
    tab x = va / PGSIZE * PGSIZE /\ Z.testbit x 0 = true /\ Z.testbit x 1 = negb (in_kernel_text _start _end_kernel_text (va / PGSIZE * PGSIZE)) /\ Z.testbit x 2 = false
  else x = 0.

Record mapped (k pt : Z) (L : list Z) (s : vmem) : Prop := {
  km_ok : pd_ok (phys s) pd;
  km_pte : forall va, 0 <= va -> va < 2 ^ 32 -> pte_is k va (pte_of (pages (phys s)) pd va);
  km_words : forall i, 0 <= i < 1024 -> exists w, word (pages (phys s)) (pd + 4 * i) = Some w /\ (w <> 0 <-> 768 <= i /\ (i - 768) * 1024 < k);
  km_pt : 0 < k -> exists w, word (pages (phys s)) (pd + 4 * (768 + (k - 1) / 1024)) = Some w /\ tab w = pt;
  km_free : free_pages (phys s) L;
  km_enough : tables ram - tables k <= Zlen L
}.

Definition va_of (k : Z) : Z := PHYS_BASE + k * PGSIZE.

Lemma va_of_facts k : 0 <= k < ram -> PHYS_BASE <= va_of k < 2 ^ 32 /\ va_of k mod PGSIZE = 0 /\ pd_no (va_of k) = 768 + k / 1024 /\ va_of k / PGSIZE * PGSIZE = va_of k /\
  ptov (u32 (k * PGSIZE)) = Ok (va_of k).
Proof using Hram.
  intros Hk. unfold va_of, PHYS_BASE, PGSIZE. assert (3221225472 + k * 4096 = (786432 + k) * 4096) as E by lia. split; [lia|].
  split; [rewrite E; apply Z.mod_mul; lia|]. split.
  - rewrite pd_no_div. replace (3221225472 + k * 4096) with (k * 4096 + 768 * 2 ^ 22) by lia. rewrite Z.div_add by lia.
    change (2 ^ 22) with (4096 * 1024). rewrite <- Z.div_div, Z.div_mul by lia. lia.
  - split; [rewrite E, Z.div_mul; lia|]. rewrite u32_id by lia. unfold ptov, rassert, PHYS_BASE. rewrite (proj2 (Z.ltb_lt _ _)) by lia. cbn [mbind res_bind]. f_equal.
    rewrite u32_id by lia. lia.
Qed.

Lemma tables_step k : 0 <= k -> tables (k + 1) = tables k + (if decide (k mod 1024 = 0) then 1 else 0).
Proof using.
  intros Hk. unfold tables. pose proof (Z.div_mod k 1024 ltac:(lia)) as D. pose proof (Z.mod_pos_bound k 1024 ltac:(lia)) as M. case_decide as E.
  - assert (k = 1024 * (k / 1024)) as Hq by lia. set (q := k / 1024) in *. clearbody q. subst k.
    replace (1024 * q + 1 + 1023) with (0 + (q + 1) * 1024) by lia. replace (1024 * q + 1023) with (1023 + q * 1024) by lia. rewrite !Z.div_add by lia. change (0 / 1024) with 0. change (1023 / 1024) with 0. lia.
  - set (q := k / 1024) in *. set (r := k mod 1024) in *. replace (k + 1 + 1023) with (r + (q + 1) * 1024) by lia. replace (k + 1023) with (r - 1 + (q + 1) * 1024) by lia.
    rewrite !Z.div_add by lia. rewrite !Z.div_small by lia. lia.
Qed.

Lemma tables_mono j k : j <= k -> tables j <= tables k.
Proof using. intros H. apply Z.div_le_mono; lia. Qed.

(** Storing the entry of the page, once the table is there. *)
Lemma store_kernel_pte k pt L s w e :
  0 <= k < ram -> pd_ok (phys s) pd -> (forall va, 0 <= va -> va < 2 ^ 32 -> pte_is k va (pte_of (pages (phys s)) pd va)) ->
  (forall i, 0 <= i < 1024 -> exists w, word (pages (phys s)) (pd + 4 * i) = Some w /\ (w <> 0 <-> 768 <= i /\ (i - 768) * 1024 < k + 1)) ->
  word (pages (phys s)) (pd + 4 * pd_no (va_of k)) = Some w -> w <> 0 -> tab w = pt -> free_pages (phys s) L -> tables ram - tables (k + 1) <= Zlen L ->
  in_u 32 e -> tab e = va_of k -> Z.testbit e 0 = true -> Z.testbit e 1 = negb (in_kernel_text _start _end_kernel_text (va_of k)) -> Z.testbit e 2 = false ->
  exists s', store (pt + 4 * pt_no (va_of k)) e s = Ok (tt, s') /\ mapped (k + 1) pt L s' /\ cr3 s' = cr3 s.
Proof using Hram.
  intros Hk Hok Hpte Hwords Hw Hnz <- HL Hlen He Htab B0 B1 B2. destruct (va_of_facts k Hk) as (Hva & Hal & Hpd & Hpage & _).
  assert (0 <= va_of k) as H0 by (unfold PHYS_BASE in Hva; lia). destruct Hva as [_ Hu]. pose proof (pd_no_range _ H0 Hu) as Hr. pose proof (pt_no_range (va_of k)) as Hp.
  pose proof (po_tables _ pd Hok _ _ Hr Hw Hnz) as Ht. destruct (tab_word _ pd w (pt_no (va_of k)) Hok Ht Hp) as (x & Hx & _).
  destruct (used_aligned _ _ (po_mem _ _ Hok) (to_used _ _ _ Ht)) as [Hta _]. destruct (used_aligned _ _ (po_mem _ _ Hok) (po_used _ _ Hok)) as [Hpa _].
  destruct (set_pte_ok (phys s) pd (va_of k) w e Hok H0 Hu Hw Hnz He) as [Hok' Hpte'].
  eexists. split; [by eapply word_store_run|]. split; [|done].
  assert (forall i, 0 <= i < 1024 -> word (set_word (tab w + 4 * pt_no (va_of k)) e (pages (phys s))) (pd + 4 * i) = word (pages (phys s)) (pd + 4 * i)) as Hsame.
  { intros i Hi. rewrite word_set_word by (done || apply (to_entries _ _ _ Ht)). by rewrite decide_False by (intros [E _]; by apply (to_other _ _ _ Ht)). }
  constructor; cbn [phys with_pages pages].
  - exact Hok'.
  - intros va Hva0 Hvau. specialize (Hpte' va Hva0 Hvau). cbn [set_pages pages] in Hpte'.
    change (pte_is (k + 1) va (pte_of (set_word (tab w + 4 * pt_no (va_of k)) e (pages (phys s))) pd va)). rewrite Hpte'. specialize (Hpte va Hva0 Hvau). unfold pte_is in *. case_decide as E.
    + assert (va / PGSIZE * PGSIZE = va_of k) as Ev by (by rewrite E). pose proof (Z.div_mod va PGSIZE ltac:(done)). pose proof (Z.mod_pos_bound va PGSIZE ltac:(done)).
      rewrite decide_True; [by rewrite Ev|]. unfold va_of, PGSIZE in *. lia.
    + assert ((PHYS_BASE <= va < PHYS_BASE + (k + 1) * PGSIZE) <-> (PHYS_BASE <= va < PHYS_BASE + k * PGSIZE)) as Hiff.
      { split; [|unfold PGSIZE; lia]. intros Hv. split; [lia|]. destruct (Z.lt_ge_cases va (PHYS_BASE + k * PGSIZE)) as [Hlt|Hge]; [done|]. exfalso. apply E. unfold va_of.
        assert (va = va_of k + (va - va_of k)) as -> by lia. unfold va_of, PGSIZE, PHYS_BASE in *. symmetry. apply Z.div_unique with (r := va - (3221225472 + k * 4096)); [lia|].
        replace ((3221225472 + k * 4096) / 4096) with (786432 + k) by (replace (3221225472 + k * 4096) with ((786432 + k) * 4096) by lia; by rewrite Z.div_mul). lia. }
      repeat case_decide; tauto.
  - intros i Hi. destruct (Hwords i Hi) as (wi & Hwi & Hiff). exists wi. split; [etransitivity; [by apply Hsame|done]|done].
  - intros _. exists w. replace (k + 1 - 1) with k by lia. split; [etransitivity; [apply Hsame; lia|by rewrite <- Hpd]|done].
  - destruct HL as [N F]. by split.
  - done.
Qed.

Lemma paging_body_run k pt L s :
  0 <= k < ram -> mapped k pt L s -> exists pt' L' s', paging_body _start _end_kernel_text pd k pt s = Ok (pt', s') /\ mapped (k + 1) pt' L' s' /\ cr3 s' = cr3 s.
Proof using Hram.
  intros Hk [Hok Hpte Hwords Hpt HL Hlen]. destruct (va_of_facts k Hk) as (Hva & Hal & Hpd & Hpage & Hptov).
  assert (0 <= va_of k) as H0 by (unfold PHYS_BASE in Hva; lia). pose proof (pd_no_range _ H0 (proj2 Hva)) as Hr.
  destruct (Hwords (pd_no (va_of k)) Hr) as (w & Hw & Hnz). rewrite Hpd in Hnz. pose proof (Z.div_mod k 1024 ltac:(lia)) as D. pose proof (Z.mod_pos_bound k 1024 ltac:(lia)) as M.
  destruct (pte_create_kernel_ok (va_of k) (negb (in_kernel_text _start _end_kernel_text (va_of k))) Hal Hva) as (e & Ee & Her & Het & B0 & B1 & B2).
  unfold paging_body. rewrite (run_bind _ _ _ (va_of k) s) by (by apply lift_run_v). cbv zeta. rewrite (run_bind _ _ _ w s) by (by apply word_load_run).
  pose proof (tables_step k ltac:(lia)) as Hstep. destruct (Z.eqb_spec w 0) as [->|Hw0].
  - assert (k mod 1024 = 0) as Hmod by (assert (~ (768 <= 768 + k / 1024 /\ (768 + k / 1024 - 768) * 1024 < k)) by tauto; pose proof (Z.div_pos k 1024); lia).
    rewrite decide_True in Hstep by done. pose proof (tables_mono (k + 1) ram ltac:(lia)).
    destruct (enter_table s pd (va_of k) L Hok H0 (proj2 Hva) Hw HL) as (pt' & e' & m2 & L' & E2 & Hok2 & Het' & Hen & Hw2 & Hpte2 & HL2 & Hlen2); [intros ->; cbn in Hlen; lia|].
    rewrite (run_bind _ _ _ _ _ E2). rewrite (run_bind _ _ _ e (mkVm m2 (cr3 s))) by (by apply lift_run_v).
    destruct (store_kernel_pte k pt' L' (mkVm m2 (cr3 s)) e' e Hk Hok2) as (s' & Es & Hm & Hc); try done.
    + intros va Hv0 Hvu. cbn [phys]. rewrite Hpte2 by done. by apply Hpte.
    + intros i Hi. cbn [phys]. rewrite Hw2 by done. case_decide as Ei.
      * exists e'. split; [done|]. subst i. rewrite Hpd. split; [intros _; pose proof (Z.div_pos k 1024); lia|done].
      * destruct (Hwords i Hi) as (wi & Hwi & Hiff). exists wi. split; [done|]. rewrite Hiff. rewrite Hpd in Ei. lia.
    + cbn [phys]. by rewrite Hw2, decide_True.
    + lia.
    + exists pt', L', s'. rewrite (run_bind _ _ _ _ _ Es). done.
  - assert (k mod 1024 <> 0) as Hmod by (assert (768 <= 768 + k / 1024 /\ (768 + k / 1024 - 768) * 1024 < k) by tauto; lia).
    rewrite decide_False in Hstep by done. rewrite (run_bind _ _ _ pt s) by done. rewrite (run_bind _ _ _ e s) by (by apply lift_run_v).
    destruct (Hpt ltac:(lia)) as (w' & Hw' & Htab'). assert ((k - 1) / 1024 = k / 1024) as Eq by (symmetry; apply (Z.div_unique _ _ _ (k mod 1024 - 1)); lia).
    rewrite Eq, <- Hpd, Hw in Hw'. injection Hw' as <-.
    destruct (store_kernel_pte k pt L s w e Hk Hok) as (s' & Es & Hm & Hc); try done.
    + intros i Hi. destruct (Hwords i Hi) as (wi & Hwi & Hiff). exists wi. split; [done|]. rewrite Hiff. lia.
    + lia.
    + exists pt, L, s'. rewrite (run_bind _ _ _ _ _ Es). done.
Qed.

Lemma paging_loop_run n : forall k pt L s, 0 <= k -> k + Z.of_nat n = ram -> mapped k pt L s ->
  exists pt' L' s', paging_loop _start _end_kernel_text n pd k pt s = Ok (tt, s') /\ mapped ram pt' L' s' /\ cr3 s' = cr3 s.
Proof using Hram.
  induction n as [|n IH]; intros k pt L s Hk Hn Hm; cbn [paging_loop].
  - assert (k = ram) as -> by lia. by exists pt, L, s.
  - destruct (paging_body_run k pt L s ltac:(lia) Hm) as (pt1 & L1 & s1 & E & Hm1 & Hc1). rewrite (run_bind _ _ _ _ _ E).
    destruct (IH (k + 1) pt1 L1 s1 ltac:(lia) ltac:(lia) Hm1) as (pt2 & L2 & s2 & E2 & Hm2 & Hc2). exists pt2, L2, s2. split; [done|]. split; [done|congruence].
Qed.
End loop.

(** What page tables that are as [paging_loop] leaves them map. *)
Lemma complete_maps ram _start _end_kernel_text m pd : 0 <= ram <= 2 ^ 18 ->
  (forall va, 0 <= va -> va < 2 ^ 32 -> pte_is _start _end_kernel_text ram va (pte_of (pages m) pd va)) ->
  (forall page o, 0 <= page < ram -> 0 <= o < PGSIZE ->
     let k := PHYS_BASE + page * PGSIZE in
     mapping m pd (k + o) = Some (k, negb (in_kernel_text _start _end_kernel_text k)) /\ Z.testbit (pte_of (pages m) pd (k + o)) 2 = false) /\
  (forall va, 0 <= va < PHYS_BASE \/ PHYS_BASE + ram * PGSIZE <= va < 2 ^ 32 -> mapping m pd va = None).
Proof.
  intros Hram Hpte. split.
  - intros page o Hp Ho k. assert (0 <= k + o /\ k + o < 2 ^ 32) as [H0 Hu] by (unfold k, PHYS_BASE, PGSIZE in *; lia). specialize (Hpte (k + o) H0 Hu). unfold pte_is in Hpte.
    rewrite decide_True in Hpte by (unfold k, PHYS_BASE, PGSIZE in *; lia). assert ((k + o) / PGSIZE * PGSIZE = k) as Ek.
    { unfold k, PHYS_BASE, PGSIZE in *. replace (3221225472 + page * 4096 + o) with (o + (786432 + page) * 4096) by lia. rewrite Z.div_add, Z.div_small by lia. lia. }
    rewrite Ek in Hpte. destruct Hpte as (T & B0 & B1 & B2). split; [|done]. unfold mapping. by rewrite B0, T, B1.
  - intros va Hva. assert (0 <= va /\ va < 2 ^ 32) as [H0 Hu] by (unfold PHYS_BASE, PGSIZE in *; lia). specialize (Hpte va H0 Hu). unfold pte_is in Hpte.
    rewrite decide_False in Hpte by (unfold PHYS_BASE, PGSIZE in *; lia). unfold mapping. by rewrite Hpte.
Qed.

(** C35: The kernel's map of memory.  With free pages for the directory and for one page table per 1024 pages,
    [paging_init] ends with a page directory, loaded into the processor, that maps every byte of physical memory at
    [PHYS_BASE], for the kernel only, writable unless its page starts in the text of the kernel, and nothing else. *)
Theorem paging_init_spec ram _start _end_kernel_text s L :
  0 <= ram <= 2 ^ 18 -> mem_ok (phys s) -> free_pages (phys s) L -> 1 + tables ram <= Zlen L ->
  exists pd s', paging_init ram _start _end_kernel_text s = Ok (pd, s') /\ pd_inv s' pd /\ cr3 s' = pd - PHYS_BASE /\
    (forall page o, 0 <= page < ram -> 0 <= o < PGSIZE ->
       let k := PHYS_BASE + page * PGSIZE in
       mapping (phys s') pd (k + o) = Some (k, negb (in_kernel_text _start _end_kernel_text k)) /\ Z.testbit (pte_of (pages (phys s')) pd (k + o)) 2 = false) /\
    (forall va, 0 <= va < PHYS_BASE \/ PHYS_BASE + ram * PGSIZE <= va < 2 ^ 32 -> mapping (phys s') pd va = None).
Proof.
  intros Hram Hm HL Hlen. assert (0 <= tables ram) by (apply Z.div_pos; lia).
  destruct (get_zero_page (phys s) L Hm HL) as (pd & m1 & L1 & E1 & Hm1 & Hal & Hnu & Hused & Hz & _ & HL1 & Hlen1); [intros ->; cbn in Hlen; lia|].
  assert (used m1 pd) as Hpu by (apply Hused; by right). destruct (used_aligned m1 pd Hm1 Hpu) as [_ Hpd].
  destruct (empty_pd_inv m1 pd 0 Hm1 Hpu Hz ltac:(lia)) as [[Hok0 _ _] _]. cbn [phys] in Hok0.
  assert (forall i, 0 <= i < 1024 -> word (pages m1) (pd + 4 * i) = Some 0) as Hw0.
  { intros i Hi. rewrite word_at, Hz by done. cbn [mbind option_bind]. apply lookup_replicate_2. lia. }
  assert (mapped ram _start _end_kernel_text pd 0 NULL L1 (mkVm m1 (cr3 s))) as Hmap0.
  { constructor; cbn [phys]; [done| | |lia|done|change (tables 0) with 0; lia].
    - intros va H0 Hu. unfold pte_is. rewrite decide_False by lia. unfold pte_of. by rewrite Hw0 by (by apply pd_no_range).
    - intros i Hi. exists 0. split; [by apply Hw0|]. lia. }
  unfold paging_init. rewrite (run_bind _ _ _ pd (mkVm m1 (cr3 s))) by (unfold liftp; by rewrite E1).
  destruct (paging_loop_run ram _start _end_kernel_text pd Hram (Z.to_nat ram) 0 NULL L1 (mkVm m1 (cr3 s)) ltac:(lia) ltac:(lia) Hmap0) as (pt & L2 & s2 & E2 & [Hok Hpte _ _ _ _] & _).
  rewrite (run_bind _ _ _ _ _ E2). rewrite (run_bind _ _ _ (pd - PHYS_BASE) s2).
  2:{ apply lift_run_v. unfold vtop, rassert, is_kernel_vaddr. by rewrite (proj2 (Z.leb_le _ _)) by lia. }
  destruct (complete_maps ram _start _end_kernel_text (phys s2) pd Hram Hpte) as [Hmaps Hnone].
  exists pd, (mkVm (phys s2) (pd - PHYS_BASE)). split; [done|]. split; [|done]. split; cbn [phys cr3]; [done|unfold PHYS_BASE in *; lia|].
  intros va k w H0 Hu Hk. destruct (decide (PHYS_BASE <= va < PHYS_BASE + ram * PGSIZE)) as [Hin|Hout].
  - specialize (Hpte va H0 Hu). unfold pte_is in Hpte. rewrite decide_True in Hpte by done. destruct Hpte as (T & _). unfold mapping in Hk. destruct (Z.testbit _ 0); [|done].
    injection Hk as <- _. rewrite T. pose proof (Z.div_mod va PGSIZE ltac:(done)). pose proof (Z.mod_pos_bound va PGSIZE ltac:(done)). lia.
  - rewrite Hnone in Hk by lia. done.
Qed.

(** A machine with 320 pages of memory, whose kernel text is from [0xc0020000] to [0xc0030000]. *)
Lemma demo_free : free_pages demo_mem [0xc0101000; 0xc0102000].
Proof.
  split; [apply (bool_decide_unpack _); by vm_compute|]. intros a Ha. assert (a = 0xc0101000 \/ a = 0xc0102000) as [-> | ->] by set_solver.
  - split; [split; vm_compute; [done|by split]|]. intros [[_ B]|[[_ [B _]] _]]; vm_compute in B; [discriminate|by apply B].
  - split; [split; vm_compute; [done|by split]|]. intros [[_ B]|[[_ [B _]] _]]; vm_compute in B; [discriminate|by apply B].
Qed.

Lemma paging_init_spec_witness :
  exists pd s', paging_init 320 0xc0020000 0xc0030000 (mkVm demo_mem 0) = Ok (pd, s') /\
    mapping (phys s') pd 0xc0020123 = Some (0xc0020000, false) /\ mapping (phys s') pd 0xc0030000 = Some (0xc0030000, true) /\ mapping (phys s') pd 0x8048000 = None.
Proof.
  destruct (paging_init_spec 320 0xc0020000 0xc0030000 (mkVm demo_mem 0) [0xc0101000; 0xc0102000]) as (pd & s' & E & _ & _ & Hm & Hn).
  - split; vm_compute; discriminate.
  - exact demo_mem_ok.
  - exact demo_free.
  - vm_compute. discriminate.
  - exists pd, s'. split; [exact E|]. split; [|split].
    + destruct (Hm 32 0x123) as [H _]; [lia|unfold PGSIZE; lia|]. exact H.
    + destruct (Hm 48 0) as [H _]; [lia|unfold PGSIZE; lia|]. exact H.
    + apply Hn. left. unfold PHYS_BASE. lia.
Defined.
