(* ===== verification/Boot.v ===== *)
(** Starting up: the kernel command line, its options and actions, and the choice of the
    block devices, of threads/init.c. *)
From Stdlib Require Import ZArith Lia String.
From stdpp Require Import base numbers gmap list.
From S2P Require Import Prelude.
From S2P Require Import Bitmap.
From S2P Require Import StringC.
From S2P Require Import StdlibC.
From S2P Require Import Stdio.
From S2P Require Import Random.
From S2P Require Import Block.

Local Open Scope Z_scope.

(** * The command line *)

(** Where the loader leaves the arguments, as addresses of the kernel. *)
Definition LOADER_ARGS_LEN : Z := 128.
Definition LOADER_ARGS : Z := 0xc0000000 + (0x7e00 - 2 - 64 - LOADER_ARGS_LEN).
Definition LOADER_ARG_CNT : Z := LOADER_ARGS - 4.

(** The elements of [argv], the null pointer at its end included. *)
Definition ARGV_LEN : Z := LOADER_ARGS_LEN / 2 + 1.

Definition load_word (p : Z) : mM Z :=
  a ← StringC.load p; b ← StringC.load (p + 1); c ← StringC.load (p + 2); d ← StringC.load (p + 3);
  mret (a + 256 * b + 65536 * c + 16777216 * d).

(** The loop over the arguments, [n] of them to go. *)
Fixpoint args_loop (n : nat) (p last : Z) (argv : list Z) : mM (list Z) :=
  match n with
  | O => mret argv
  | S n =>
      if last <=? p then st_fail EPanic else
      (if Zlen argv <? ARGV_LEN then mret tt else st_fail EUndef);;
      len ← strnlen p (last - p);
      args_loop n (p + len + 1) last (argv ++ [p])
  end.

(** The addresses of the arguments, without the null pointer. *)
Definition read_command_line : mM (list Z) :=
  argc ← load_word LOADER_ARG_CNT;
  argv ← args_loop (Z.to_nat (s32 argc)) LOADER_ARGS (LOADER_ARGS + LOADER_ARGS_LEN) [];
  if Zlen argv <? ARGV_LEN then mret argv else st_fail EUndef.

(** ** Options *)

Inductive shutdown_type := SHUTDOWN_NONE | SHUTDOWN_POWER_OFF | SHUTDOWN_REBOOT.

Record options := mkOptions {
  how : shutdown_type;
  format_filesys : bool;
  filesys_bdev_name : option (list Z);
  scratch_bdev_name : option (list Z);
  swap_bdev_name : option (list Z);
  rand : rng;
  thread_mlfqs : bool;
  user_page_limit : Z
}.

Definition SIZE_MAX : Z := 2 ^ 32 - 1.

Definition no_options (g : rng) : options := mkOptions SHUTDOWN_NONE false None None None g false SIZE_MAX.

(** [strtok_r (arg, "=", &save_ptr)] and [strtok_r (NULL, "", &save_ptr)] of an argument that starts with a dash: what comes before
    the first equals sign, and what comes after it, null when there is none or nothing after it. *)
Fixpoint name_of (arg : list Z) : list Z :=
  match arg with
  | [] => []
  | c :: arg => if c =? 61 then [] else c :: name_of arg
  end.

Definition value_of (arg : list Z) : option (list Z) :=
  match drop (S (length (name_of arg))) arg with
  | [] => None
  | v => Some v
  end.

(** [atoi] of a string, and of a null pointer. *)
Definition atoi_value (v : option (list Z)) : res Z :=
  match v with
  | None => Err EAssert
  | Some v => match atoi STRING (string_mem v) with Ok (n, _) => Ok n | Err e => Err e end
  end.

Definition shutdown_configure (t : shutdown_type) (o : options) : options :=
  mkOptions t (format_filesys o) (filesys_bdev_name o) (scratch_bdev_name o) (swap_bdev_name o) (rand o) (thread_mlfqs o) (user_page_limit o).
Definition set_format (o : options) : options :=
  mkOptions (how o) true (filesys_bdev_name o) (scratch_bdev_name o) (swap_bdev_name o) (rand o) (thread_mlfqs o) (user_page_limit o).
Definition set_filesys_bdev (v : option (list Z)) (o : options) : options :=
  mkOptions (how o) (format_filesys o) v (scratch_bdev_name o) (swap_bdev_name o) (rand o) (thread_mlfqs o) (user_page_limit o).
Definition set_scratch_bdev (v : option (list Z)) (o : options) : options :=
  mkOptions (how o) (format_filesys o) (filesys_bdev_name o) v (swap_bdev_name o) (rand o) (thread_mlfqs o) (user_page_limit o).
Definition set_swap_bdev (v : option (list Z)) (o : options) : options :=
  mkOptions (how o) (format_filesys o) (filesys_bdev_name o) (scratch_bdev_name o) v (rand o) (thread_mlfqs o) (user_page_limit o).
Definition set_rand (g : rng) (o : options) : options :=
  mkOptions (how o) (format_filesys o) (filesys_bdev_name o) (scratch_bdev_name o) (swap_bdev_name o) g (thread_mlfqs o) (user_page_limit o).
Definition set_mlfqs (o : options) : options :=
  mkOptions (how o) (format_filesys o) (filesys_bdev_name o) (scratch_bdev_name o) (swap_bdev_name o) (rand o) true (user_page_limit o).
Definition set_user_limit (n : Z) (o : options) : options :=
  mkOptions (how o) (format_filesys o) (filesys_bdev_name o) (scratch_bdev_name o) (swap_bdev_name o) (rand o) (thread_mlfqs o) n.

Definition is_name (s : string) (n : list Z) : bool := bool_decide (n = chars s).

(** One option; [None] when it prints the help message and powers off. *)
Definition parse_option (arg : list Z) (o : options) : res (option options) :=
  let name := name_of arg in
  let value := value_of arg in
  if is_name "-h" name then Ok None
  else if is_name "-q" name then Ok (Some (shutdown_configure SHUTDOWN_POWER_OFF o))
  else if is_name "-r" name then Ok (Some (shutdown_configure SHUTDOWN_REBOOT o))
  else if is_name "-f" name then Ok (Some (set_format o))
  else if is_name "-filesys" name then Ok (Some (set_filesys_bdev value o))
  else if is_name "-scratch" name then Ok (Some (set_scratch_bdev value o))
  else if is_name "-swap" name then Ok (Some (set_swap_bdev value o))
  else if is_name "-rs" name then n ← atoi_value value; Ok (Some (set_rand (random_init (u32 n) (rand o)) o))
  else if is_name "-mlfqs" name then Ok (Some (set_mlfqs o))
  else if is_name "-ul" name then n ← atoi_value value; Ok (Some (set_user_limit (u32 n) o))
  else Err EPanic.

(** [time] is the result of [rtc_get_time].  The options, and the arguments after them. *)
Fixpoint parse_options (time : Z) (argv : list (list Z)) (o : options) : res (option (options * list (list Z))) :=
  match argv with
  | ((45 :: _) as arg) :: rest =>
      r ← parse_option arg o;
      match r with
      | None => Ok None
      | Some o => parse_options time rest o
      end
  | _ => Ok (Some (set_rand (random_init (u32 time) (rand o)) o, argv))
  end.

(** ** Actions *)

Inductive action := Run (task : list Z) | Ls | Cat (file : list Z) | Rm (file : list Z) | Extract | Append (file : list Z).

Section actions.
Context {S : Type} (perform : action -> st S unit).

(** An action with one argument. *)
Definition with_arg (f : list Z -> action) (rest : list (list Z)) : res (action * list (list Z)) :=
  match rest with
  | [] => Err EPanic
  | a :: rest => Ok (f a, rest)
  end.

(** The action that the arguments start with, and the arguments after it. *)
Definition next_action (word : list Z) (rest : list (list Z)) : res (action * list (list Z)) :=
  if is_name "run" word then with_arg Run rest
  else if is_name "ls" word then Ok (Ls, rest)
  else if is_name "cat" word then with_arg Cat rest
  else if is_name "rm" word then with_arg Rm rest
  else if is_name "extract" word then Ok (Extract, rest)
  else if is_name "append" word then with_arg Append rest
  else Err EPanic.

Definition actions_body (argv : list (list Z)) : st S (list (list Z) + unit) :=
  match argv with
  | [] => mret (inr tt)
  | word :: rest =>
      match next_action word rest with
      | Err e => st_fail e
      | Ok (a, rest) => perform a;; mret (inl rest)
      end
  end.

(** Each action takes one argument at least. *)
Definition run_actions (argv : list (list Z)) : st S unit := loop (Datatypes.S (length argv)) actions_body argv.
End actions.

(** * Block devices *)

(** The loop over the devices; [n] bounds the number of devices that are left. *)
Fixpoint find_type (n : nat) (role : block_type) (b : Z) : bM Z :=
  match n with
  | O => st_fail EFuel
  | S n =>
      if b =? 0 then mret 0 else
      x ← get_block b;
      if bool_decide (type x = role) then mret b else b' ← block_next b; find_type n role b'
  end.

Definition locate_block_device (role : block_type) (name : option (list Z)) : bM unit :=
  b ← (match name with
       | Some n => b ← block_get_by_name n; if b =? 0 then st_fail EPanic else mret b
       | None => b ← block_first; l ← gets all_blocks; find_type (Datatypes.S (length l)) role b
       end);
  if negb (b =? 0) then block_set_role (type_nr role) b else mret tt.

Definition locate_block_devices (o : options) : bM unit :=
  locate_block_device BLOCK_FILESYS (filesys_bdev_name o);;
  locate_block_device BLOCK_SCRATCH (scratch_bdev_name o);;
  locate_block_device BLOCK_SWAP (swap_bdev_name o).

(** * Theorems *)

(** ** Arguments *)

(** The arguments as the loader leaves them: each with a null character after it. *)
Definition laid_out (args : list (list Z)) : list Z := args ≫= fun a => a ++ [0].

Abbreviation is_arg := (Forall (fun b => 0 < b < 256)).

Lemma args_loop_run m last args : forall p argv,
  0 < p -> StringC.block m p (laid_out args) -> Forall is_arg args -> p + Zlen (laid_out args) <= last -> Zlen argv + Zlen args < ARGV_LEN ->
  exists ps, args_loop (length args) p last argv m = Ok (argv ++ ps, m) /\ Forall2 (cstr m) ps args.
Proof.
  induction args as [|a args IH]; intros p argv Hp Hb Ha Hl Hn; cbn [length args_loop].
  { exists []. rewrite app_nil_r. split; [done|constructor]. }
  apply Forall_cons in Ha as [Ha Has]. cbn [laid_out mbind list_bind] in Hb, Hl. rewrite <- app_assoc in Hb. cbn [app] in Hb. rewrite !length_app in Hl. cbn [length] in *.
  assert (cstr m p a) as Hc.
  { split; [done|]. split; [|done]. apply block_app in Hb as [H1 H2]. apply block_cons in H2 as [H2 _]. apply block_app. split; [done|]. apply block_cons. split; [done|by intros [|i] b Hi]. }
  assert (StringC.block m (p + Zlen a + 1) (laid_out args)) as Hrest by (apply block_app in Hb as [_ Hb]; by apply block_cons in Hb as [_ Hb]).
  unfold laid_out in Hrest. rewrite (proj2 (Z.leb_gt _ _)) by lia. rewrite (run_bind _ _ _ tt m) by (by rewrite (proj2 (Z.ltb_lt _ _)) by lia).
  rewrite (run_bind _ _ _ (Zlen a) m) by (apply strnlen_run; [done|lia]).
  destruct (IH (p + Zlen a + 1) (argv ++ [p])) as (ps & E & F); [lia|done|done|unfold laid_out; lia|rewrite length_app; cbn; lia|].
  exists (p :: ps). rewrite E, <- app_assoc. split; [done|by constructor].
Qed.

(** The command line.  When the loader has left a number of arguments, at most 64, one after another in its 128 bytes, each with a null
    character after it, [read_command_line] returns the addresses of exactly these strings, in their order. *)
Theorem command_line_spec m args :
  StringC.block m LOADER_ARG_CNT (word_bytes (Zlen args)) -> StringC.block m LOADER_ARGS (laid_out args) -> Forall is_arg args ->
  Zlen (laid_out args) <= LOADER_ARGS_LEN -> Zlen args <= 64 ->
  exists ps, read_command_line m = Ok (ps, m) /\ Forall2 (cstr m) ps args.
Proof.
  intros Hc Hb Ha Hl Hn. unfold read_command_line. rewrite (run_bind _ _ _ (Zlen args) m).
  2:{ assert (word_bytes (Zlen args) = [Zlen args; 0; 0; 0]) as Ew.
      { unfold word_bytes. assert (Zlen args mod 256 = Zlen args) as -> by (apply Z.mod_small; lia). rewrite !Z.div_small by lia. done. }
      rewrite Ew in Hc. pose proof (Hc 0%nat _ eq_refl) as H0. pose proof (Hc 1%nat _ eq_refl) as H1. pose proof (Hc 2%nat _ eq_refl) as H2. pose proof (Hc 3%nat _ eq_refl) as H3.
      rewrite Z.add_0_r in H0. unfold load_word. rewrite (run_bind _ _ _ _ _ (load_run _ _ _ H0)), (run_bind _ _ _ _ _ (load_run _ _ _ H1)), (run_bind _ _ _ _ _ (load_run _ _ _ H2)), (run_bind _ _ _ _ _ (load_run _ _ _ H3)).
      unfold mret, st_ret. do 2 f_equal. lia. }
  rewrite s32_id, Nat2Z.id by (unfold in_s; lia).
  destruct (args_loop_run m (LOADER_ARGS + LOADER_ARGS_LEN) args LOADER_ARGS []) as (ps & E & F); [done|done|done|lia|cbn; change ARGV_LEN with 65; lia|].
  rewrite (run_bind _ _ _ _ _ E). cbn [app]. exists ps. pose proof (Forall2_length _ _ _ F) as Hps.
  rewrite (proj2 (Z.ltb_lt _ _)) by (change ARGV_LEN with 65; lia). done.
Qed.

(** ** Options *)

Lemma parse_option_rand arg o o1 : parse_option arg o = Ok (Some o1) -> rng_reachable (rand o) -> rng_reachable (rand o1).
Proof.
  unfold parse_option. intros H Hr.
  repeat match type of H with (if ?c then _ else _) = _ => destruct c end; try (injection H as <-; exact Hr); try discriminate H.
  all: destruct (atoi_value (value_of arg)) as [n|e]; cbn [mbind res_bind] in H; [injection H as <-|discriminate H].
  - cbn [rand set_rand]. by constructor.
  - exact Hr.
Qed.

(** Whatever the options, the random numbers start from the time; the comment in the code says that the seed of the
    option [-rs] is kept. *)
Theorem seed_is_time time argv : forall o o' rest,
  rng_reachable (rand o) -> parse_options time argv o = Ok (Some (o', rest)) -> rand o' = random_init (u32 time) rng_boot.
Proof.
  assert (forall o o' rest (l : list (list Z)), rng_reachable (rand o) ->
    Ok (Some (set_rand (random_init (u32 time) (rand o)) o, l)) = Ok (Some (o', rest)) -> rand o' = random_init (u32 time) rng_boot) as Hend.
  { intros o o' rest l Hr [= <- _]. cbn. by apply random_init_seed. }
  induction argv as [|[|c a] argv IH]; intros o o' rest Hr; cbn [parse_options]; [by apply Hend|by apply Hend|].
  destruct (decide (c = 45)) as [->|Hne].
  - destruct (parse_option (45 :: a) o) as [[o1|]|e] eqn:E; cbn [mbind res_bind]; [|done|done]. apply IH. by eapply parse_option_rand.
  - intros H. assert (parse_options time ((c :: a) :: argv) o = Ok (Some (set_rand (random_init (u32 time) (rand o)) o, (c :: a) :: argv))) as E.
    { cbn [parse_options]. destruct c as [|c|c]; [done| |done]. do 6 (destruct c as [c|c|]; try done). }
    cbn [parse_options] in E. rewrite E in H. by eapply Hend.
Qed.

(** ** Actions *)

Definition words (a : action) : list (list Z) :=
  match a with
  | Run t => [chars "run"; t]
  | Ls => [chars "ls"]
  | Cat f => [chars "cat"; f]
  | Rm f => [chars "rm"; f]
  | Extract => [chars "extract"]
  | Append f => [chars "append"; f]
  end.

Fixpoint perform_all {S} (perform : action -> st S unit) (l : list action) : st S unit :=
  match l with
  | [] => mret tt
  | a :: l => perform a;; perform_all perform l
  end.

Lemma words_next a rest : exists w ws, words a = w :: ws /\ next_action w (ws ++ rest) = Ok (a, rest).
Proof. destruct a; eexists _, _; (split; [reflexivity|reflexivity]). Qed.

Lemma actions_run {S} (perform : action -> st S unit) tl l : forall fuel s,
  loop (length l + fuel) (actions_body perform) ((l ≫= words) ++ tl) s = (perform_all perform l;; loop fuel (actions_body perform) tl) s.
Proof.
  induction l as [|a l IH]; intros fuel s; [done|]. rewrite bind_cons, <- app_assoc. cbn [length Nat.add perform_all].
  destruct (words_next a ((l ≫= words) ++ tl)) as (w & ws & Ew & En). rewrite Ew. cbn [app].
  destruct (perform a s) as [[[] s']|e] eqn:Ep.
  - rewrite (loop_continue _ _ _ ((l ≫= words) ++ tl) s s'); [|cbn [actions_body]; rewrite En; by rewrite (run_bind _ _ _ _ _ Ep)].
    rewrite IH. unfold mbind, st_bind. by rewrite Ep.
  - cbn [loop]. unfold mbind at 1, st_bind at 1. cbn [actions_body]. rewrite En. unfold mbind, st_bind. by rewrite Ep.
Qed.

Lemma words_length l : (length l <= length (l ≫= words))%nat.
Proof. induction l as [|a l IH]; [done|]. rewrite bind_cons, length_app. cbn [length]. destruct a; cbn [words length]; lia. Qed.

(** Actions.  The words of a sequence of actions, each with its arguments, are carried out as that sequence: in their order, stopping at the
    first one that fails.  When after them comes a word that is no action, or an action without its argument, the kernel stops there, the
    actions before it having been carried out. *)
Theorem run_actions_spec {S} (perform : action -> st S unit) l s :
  run_actions perform (l ≫= words) s = perform_all perform l s /\
  forall w tl e, next_action w tl = Err e -> run_actions perform ((l ≫= words) ++ w :: tl) s = (perform_all perform l;; st_fail e) s.
Proof.
  pose proof (words_length l) as Hl. split.
  - unfold run_actions. replace (Datatypes.S (length (l ≫= words))) with (length l + Datatypes.S (length (l ≫= words) - length l))%nat by lia.
    rewrite <- (app_nil_r (l ≫= words)) at 2. rewrite actions_run. unfold mbind, st_bind. by destruct (perform_all perform l s) as [[[] s']|e].
  - intros w tl e Hw. unfold run_actions. rewrite length_app. cbn [length].
    replace (Datatypes.S (length (l ≫= words) + Datatypes.S (length tl))) with (length l + Datatypes.S (length (l ≫= words) - length l + Datatypes.S (length tl)))%nat by lia.
    rewrite actions_run. unfold mbind, st_bind. destruct (perform_all perform l s) as [[[] s']|e']; [|done].
    cbn [loop]. unfold mbind, st_bind. cbn [actions_body]. by rewrite Hw.
Qed.

(** ** Devices *)

Lemma after_next pre b post : b ∉ pre -> after (pre ++ b :: post) b = default 0 (head post).
Proof.
  induction pre as [|x pre IH]; intros Hb; cbn [app after]; [by rewrite Z.eqb_refl|]. apply not_elem_of_cons in Hb as [Hne Hb].
  rewrite (proj2 (Z.eqb_neq x b)) by congruence. by apply IH.
Qed.

(** Whether the device at [b] has a type. *)
Definition has_type (s : devs) (role : block_type) (b : Z) : Prop := (type <$> blocks s !! b) = Some role.

#[export] Instance has_type_dec s role b : Decision (has_type s role b).
Proof. unfold has_type. apply _. Defined.

Lemma find_type_run s role : devs_ok s -> 0 ∉ all_blocks s -> forall suf pre n, all_blocks s = pre ++ suf -> (length suf < n)%nat ->
  find_type n role (default 0 (head suf)) s = Ok (default 0 (head (filter (has_type s role) suf)), s).
Proof.
  intros Hok H0. induction suf as [|b suf IH]; intros pre [|n] Hl Hn; try (cbn in Hn; lia); [done|]. cbn [head default from_option id find_type].
  assert (b ∈ all_blocks s) as Hin by (rewrite Hl; set_solver). rewrite (proj2 (Z.eqb_neq b 0)) by (intros ->; done).
  apply (do_dom s Hok) in Hin as [x Hx]. rewrite (run_bind _ _ _ x s) by (unfold get_block; by rewrite Hx).
  destruct (decide (type x = role)) as [Ht|Ht].
  - rewrite bool_decide_eq_true_2 by done. rewrite filter_cons_True; [done|]. unfold has_type. rewrite Hx. cbn. by rewrite Ht.
  - rewrite bool_decide_eq_false_2 by done. rewrite filter_cons_False; [|unfold has_type; rewrite Hx; cbn; congruence].
    pose proof (do_nodup s Hok) as Hnd. rewrite Hl in Hnd. apply NoDup_app in Hnd as (_ & Hd & _).
    rewrite (run_bind _ _ _ (default 0 (head suf)) s).
    2:{ unfold block_next, gets. rewrite Hl, after_next; [done|]. intros Hp. apply (Hd b Hp). by left. }
    apply (IH (pre ++ [b])); [by rewrite <- app_assoc|cbn in Hn; lia].
Qed.

(** The choice of block devices.  Without a name on the command line, the role goes to the first device in probe order whose type is the role, and
    stays unassigned when there is none; with a name, to the first device of that name, and the kernel stops when there
    is none. *)
Theorem locate_spec s role name :
  devs_ok s -> 0 ∉ all_blocks s -> type_nr role < BLOCK_ROLE_CNT ->
  let found := match name with
               | None => head (filter (has_type s role) (all_blocks s))
               | Some n => head (filter (fun b => Block.name <$> blocks s !! b = Some n) (all_blocks s))
               end in
  locate_block_device role name s =
    match found with
    | Some b => Ok (tt, set_roles (<[Z.to_nat (type_nr role) := b]> (block_by_role s)) s)
    | None => match name with Some _ => Err EPanic | None => Ok (tt, s) end
    end.
Proof.
  intros Hok H0 Hr found. unfold locate_block_device.
  assert (forall b, b <> 0 -> (if negb (b =? 0) then block_set_role (type_nr role) b else mret tt) s = Ok (tt, set_roles (<[Z.to_nat (type_nr role) := b]> (block_by_role s)) s)) as Hset.
  { intros b Hb. rewrite (proj2 (Z.eqb_neq b 0)) by done. cbn [negb]. unfold block_set_role. rewrite (run_bind _ _ _ tt s) by (apply run_assert; by apply Z.ltb_lt). done. }
  destruct name as [n|].
  - assert (forall l, (forall b, b ∈ l -> b ∈ all_blocks s) -> find_name l n s = Ok (default 0 (head (filter (fun b => Block.name <$> blocks s !! b = Some n) l)), s)) as Hfind.
    { induction l as [|b l IH]; intros Hl; [done|]. cbn [find_name]. destruct (proj1 (do_dom s Hok b) (Hl b ltac:(by left))) as [x Hx].
      rewrite (run_bind _ _ _ x s) by (unfold get_block; by rewrite Hx). case_bool_decide as E.
      - rewrite filter_cons_True; [done|]. rewrite Hx. cbn. by rewrite E.
      - rewrite filter_cons_False; [apply IH; set_solver|]. rewrite Hx. cbn. congruence. }
    specialize (Hfind (all_blocks s) ltac:(done)). fold found in Hfind. unfold block_get_by_name.
    destruct found as [b|] eqn:Ef; cbn [default from_option id] in Hfind.
    + assert (b ∈ all_blocks s) as Hin by (apply head_Some_elem_of in Ef; by apply list_elem_of_filter in Ef as [_ Ef]). assert (b <> 0) as Hb by (intros ->; done).
      rewrite (run_bind _ _ _ b s); [by apply Hset|]. rewrite (run_bind _ _ _ b s) by exact Hfind. by rewrite (proj2 (Z.eqb_neq b 0)).
    + apply run_bind_err. rewrite (run_bind _ _ _ 0 s) by exact Hfind. done.
  - pose proof (find_type_run s role Hok H0 (all_blocks s) [] (Datatypes.S (length (all_blocks s))) eq_refl ltac:(lia)) as Hfind. fold found in Hfind.
    rewrite (run_bind _ _ _ (default 0 found) s).
    2:{ rewrite (run_bind _ _ _ (default 0 (head (all_blocks s))) s) by done. rewrite (run_bind _ _ _ (all_blocks s) s) by done. exact Hfind. }
    destruct found as [b|] eqn:Ef; [|done]. cbn [default from_option id]. apply Hset. intros ->. apply head_Some_elem_of in Ef. apply list_elem_of_filter in Ef as [_ Ef]. done.
Qed.

(** * Examples *)

Definition demo_args : list (list Z) := [chars "-q"; chars "run"; chars "echo x"].
Definition demo_loader : mem :=
  list_to_map (zip (seqZ LOADER_ARG_CNT 132) (word_bytes 3 ++ laid_out demo_args ++ replicate 114 0)).

Lemma block_of_list p bs rest n : 0 <= n -> n = Zlen (bs ++ rest) -> StringC.block (list_to_map (zip (seqZ p n) (bs ++ rest))) p bs.
Proof.
  intros H0 Hn i c Hi. apply elem_of_list_to_map_1.
  - rewrite fst_zip; [apply NoDup_seqZ|]. rewrite length_seqZ. lia.
  - pose proof (lookup_lt_Some _ _ _ Hi) as Hl. apply list_elem_of_lookup. exists i. apply lookup_zip_with_Some.
    exists (p + Z.of_nat i), c. split; [done|]. split; [apply lookup_seqZ; rewrite length_app in Hn; lia|]. by apply lookup_app_l_Some.
Qed.

Lemma command_line_spec_witness : exists ps, read_command_line demo_loader = Ok (ps, demo_loader) /\ Forall2 (cstr demo_loader) ps demo_args.
Proof.
  assert (StringC.block demo_loader LOADER_ARG_CNT (word_bytes 3 ++ laid_out demo_args)) as H.
  { unfold demo_loader. rewrite app_assoc. apply block_of_list; [lia|by vm_compute]. }
  apply (command_line_spec demo_loader demo_args).
  - apply block_app in H as [H _]. exact H.
  - apply block_app in H as [_ H]. exact H.
  - apply (bool_decide_unpack _). by vm_compute.
  - vm_compute. discriminate.
  - vm_compute. discriminate.
Defined.

Lemma run_actions_spec_witness :
  run_actions (fun a => (fun s => Ok (tt, s ++ [a])) : st (list action) unit) [chars "ls"; chars "rm"; chars "x"; chars "cat"] [] = Err EPanic.
Proof.
  destruct (run_actions_spec (fun a => (fun s => Ok (tt, s ++ [a])) : st (list action) unit) [Ls; Rm (chars "x")] []) as [_ H].
  apply (H (chars "cat") [] EPanic). reflexivity.
Defined.

Lemma locate_spec_witness :
  locate_block_device BLOCK_RAW None (demo_devs demo_pt) = Err EAssert /\
  locate_block_device BLOCK_SWAP (Some (chars "hda")) (demo_devs demo_pt) = Ok (tt, set_roles [0; 0; 0; 256] (demo_devs demo_pt)).
Proof.
  split; [vm_compute; reflexivity|].
  assert (0 ∉ all_blocks (demo_devs demo_pt)) as H0 by (apply (bool_decide_unpack _); by vm_compute).
  pose proof (locate_spec (demo_devs demo_pt) BLOCK_SWAP (Some (chars "hda")) (demo_ok demo_pt ltac:(by vm_compute)) H0 ltac:(by vm_compute)) as H.
  exact H.
Defined.
