(* ===== verification/Ide.v ===== *)
(** The disk driver, devices/ide.c, over the ports of Ports.v, with the part of an ATA
    device that it uses. *)
From Stdlib Require Import ZArith Lia String.
From stdpp Require Import base numbers gmap list.
From S2P Require Import Prelude.
From S2P Require Import Thread.
From S2P Require Import Ports.

Local Open Scope Z_scope.

(** * Registers *)

Definition reg_data (base : Z) : Z := base + 0.
Definition reg_error (base : Z) : Z := base + 1.
Definition reg_nsect (base : Z) : Z := base + 2.
Definition reg_lbal (base : Z) : Z := base + 3.
Definition reg_lbam (base : Z) : Z := base + 4.
Definition reg_lbah (base : Z) : Z := base + 5.
Definition reg_device (base : Z) : Z := base + 6.
Definition reg_status (base : Z) : Z := base + 7.
Definition reg_command (base : Z) : Z := reg_status base.
Definition reg_ctl (base : Z) : Z := base + 0x206.
Definition reg_alt_status (base : Z) : Z := reg_ctl base.

Definition STA_BSY : Z := 0x80.
Definition STA_DRDY : Z := 0x40.
Definition STA_DRQ : Z := 0x08.
Definition CTL_SRST : Z := 0x04.
Definition DEV_MBS : Z := 0xa0.
Definition DEV_LBA : Z := 0x40.
Definition DEV_DEV : Z := 0x10.
Definition CMD_IDENTIFY_DEVICE : Z := 0xec.
Definition CMD_READ_SECTOR_RETRY : Z := 0x20.
Definition CMD_WRITE_SECTOR_RETRY : Z := 0x30.

(** * State *)

(** A disk is device [dev_no] of a channel. *)
Record ata_disk := mkDisk {
  d_name : list Z;
  d_base : Z;
  dev_no : Z;
  is_ata : bool
}.

(** A channel.  Its lock is not modelled: an access is one step, as the lock makes it. *)
Record channel := mkChannel {
  c_name : list Z;
  reg_base : Z;
  irq : Z;
  expecting_interrupt : bool;
  completion_wait : Z;
  devices : list ata_disk
}.

Definition set_expecting (v : bool) (c : channel) : channel := mkChannel (c_name c) (reg_base c) (irq c) v (completion_wait c) (devices c).
Definition set_completion (v : Z) (c : channel) : channel := mkChannel (c_name c) (reg_base c) (irq c) (expecting_interrupt c) v (devices c).
Definition set_devices (v : list ata_disk) (c : channel) : channel := mkChannel (c_name c) (reg_base c) (irq c) (expecting_interrupt c) (completion_wait c) v.
Definition set_is_ata (v : bool) (d : ata_disk) : ata_disk := mkDisk (d_name d) (d_base d) (dev_no d) v.

Section driver.
(** What the ports answer and whether a channel, given by its base, has an interrupt to come or pending. *)
Context (hw : history -> Z -> Z) (raised : history -> Z -> bool).

(** The channel that is accessed, and the history of the accesses. *)
Abbreviation iM := (st (channel * history)).

Definition base : iM Z := getp reg_base.

(** * Primitives *)

(** [wait_until_idle] with [n] polls to go: whether the channel became idle; the delays between polls are not modelled. *)
Fixpoint idle_loop (n : nat) : iM bool :=
  match n with
  | O => mret false
  | S n =>
      b ← base;
      v ← inb hw (reg_status b);
      if Z.land v (Z.lor STA_BSY STA_DRQ) =? 0 then mret true else idle_loop n
  end.

Definition wait_until_idle : iM unit := idle_loop 1000;; mret tt.

(** [wait_while_busy] with [n] polls to go. *)
Fixpoint busy_loop (n : nat) : iM bool :=
  match n with
  | O => mret false
  | S n =>
      b ← base;
      v ← inb hw (reg_alt_status b);
      if Z.land v STA_BSY =? 0 then v ← inb hw (reg_alt_status b); mret (negb (Z.land v STA_DRQ =? 0)) else busy_loop n
  end.

Definition wait_while_busy : iM bool := busy_loop 3000.

Definition select_device (d : ata_disk) : iM unit :=
  b ← base;
  outb (reg_device b) (if dev_no d =? 1 then Z.lor DEV_MBS DEV_DEV else DEV_MBS);;
  inb hw (reg_alt_status b);; mret tt.

Definition select_device_wait (d : ata_disk) : iM unit := wait_until_idle;; select_device d;; wait_until_idle.

Definition select_sector (d : ata_disk) (sec_no : Z) : iM unit :=
  assert (sec_no <? Z.shiftl 1 28);;
  select_device_wait d;;
  b ← base;
  outb (reg_nsect b) 1;;
  outb (reg_lbal b) sec_no;;
  outb (reg_lbam b) (Z.shiftr sec_no 8);;
  outb (reg_lbah b) (Z.shiftr sec_no 16);;
  outb (reg_device b) (Z.lor (Z.lor (Z.lor DEV_MBS DEV_LBA) (if dev_no d =? 1 then DEV_DEV else 0)) (Z.shiftr sec_no 24)).

(** Interrupts are on. *)
Definition issue_pio_command (command : Z) : iM unit :=
  b ← base;
  modifyp (set_expecting true);;
  outb (reg_command b) command.

(** [insw] and [outsw] of threads/io.h: [cnt] words, the least significant byte of each first. *)
Fixpoint insw (port : Z) (cnt : nat) : iM (list Z) :=
  match cnt with
  | O => mret []
  | S cnt => w ← inw hw port; bs ← insw port cnt; mret (w mod 256 :: w / 256 :: bs)
  end.

Fixpoint outsw (port : Z) (bs : list Z) : iM unit :=
  match bs with
  | lo :: hi :: bs => outw port (lo + 256 * hi);; outsw port bs
  | _ => mret tt
  end.

Definition input_sector : iM (list Z) := b ← base; insw (reg_data b) 256.
Definition output_sector (bs : list Z) : iM unit := b ← base; outsw (reg_data b) bs.

(** The interrupt of the channel.  That of the other channel, or one that is not expected, changes nothing here. *)
Definition interrupt_handler (vec_no : Z) : iM unit :=
  c ← getp id;
  if vec_no =? irq c then
    if expecting_interrupt c then
      inb hw (reg_status (reg_base c));; modifyp (fun c => set_completion (completion_wait c + 1) c)
    else mret tt
  else if (vec_no =? 14 + 0x20) || (vec_no =? 15 + 0x20) then mret tt else st_fail EPanic.

(** [sema_down (&c->completion_wait)]: when the semaphore is 0 the thread waits, and goes on after the interrupt; when none is
    to come it waits for ever. *)
Definition sema_down : iM unit := fun s =>
  (c ← getp id;
   (if completion_wait c =? 0 then
      if raised s.2 (reg_base c) then wait_irq;; interrupt_handler (irq c) else st_fail EFuel
    else mret tt);;
   c ← getp id;
   if completion_wait c =? 0 then st_fail EFuel else modifyp (fun c => set_completion (completion_wait c - 1) c)) s.

(** * Sectors *)

Definition ide_read (d : ata_disk) (sec_no : Z) : iM (list Z) :=
  select_sector d sec_no;;
  issue_pio_command CMD_READ_SECTOR_RETRY;;
  sema_down;;
  ok ← wait_while_busy;
  if negb ok then st_fail EPanic else input_sector.

Definition ide_write (d : ata_disk) (sec_no : Z) (buffer : list Z) : iM unit :=
  select_sector d sec_no;;
  issue_pio_command CMD_WRITE_SECTOR_RETRY;;
  ok ← wait_while_busy;
  if negb ok then st_fail EPanic else
  output_sector buffer;;
  sema_down.

(** * Detection *)

(** Whether the device answers. *)
Definition probe (d : ata_disk) : iM bool :=
  b ← base;
  select_device d;;
  outb (reg_nsect b) 0x55;; outb (reg_lbal b) 0xaa;;
  outb (reg_nsect b) 0xaa;; outb (reg_lbal b) 0x55;;
  outb (reg_nsect b) 0x55;; outb (reg_lbal b) 0xaa;;
  v ← inb hw (reg_nsect b);
  if v =? 0x55 then v ← inb hw (reg_lbal b); mret (v =? 0xaa) else mret false.

(** The loop that waits for device 1, with [n] polls to go. *)
Fixpoint slave_loop (n : nat) : iM unit :=
  match n with
  | O => mret tt
  | S n =>
      b ← base;
      v ← inb hw (reg_nsect b);
      done ← (if v =? 1 then v ← inb hw (reg_lbal b); mret (v =? 1) else mret false);
      if done : bool then mret tt else slave_loop n
  end.

Definition reset_channel (d0 d1 : ata_disk) : iM unit :=
  b ← base;
  p0 ← probe d0;
  p1 ← probe d1;
  outb (reg_ctl b) 0;; outb (reg_ctl b) CTL_SRST;; outb (reg_ctl b) 0;;
  (if p0 : bool then select_device d0;; wait_while_busy;; mret tt else mret tt);;
  (if p1 : bool then select_device d1;; slave_loop 3000;; wait_while_busy;; mret tt else mret tt).

(** Whether a second device is possible, and the disk with [is_ata] set. *)
Definition check_device_type (d : ata_disk) : iM (bool * ata_disk) :=
  select_device d;;
  b ← base;
  error ← inb hw (reg_error b);
  lbam ← inb hw (reg_lbam b);
  lbah ← inb hw (reg_lbah b);
  status ← inb hw (reg_status b);
  if (negb (error =? 1) && (negb (error =? 0x81) || (dev_no d =? 1))) || (Z.land status STA_DRDY =? 0) || negb (Z.land status STA_BSY =? 0) then
    mret (negb (error =? 0x81), set_is_ata false d)
  else mret (true, set_is_ata (((lbam =? 0) && (lbah =? 0)) || ((lbam =? 0x3c) && (lbah =? 0xc3))) d).

(** ** Names in the identification *)

Fixpoint swap_pairs (s : list Z) : list Z :=
  match s with
  | a :: b :: s => b :: a :: swap_pairs s
  | _ => s
  end.

Definition blank (c : Z) : bool := (c =? 0) || (c =? 32) || (c =? 12) || (c =? 10) || (c =? 13) || (c =? 9) || (c =? 11).

(** The index after the last character that is not blank among the first [n]. *)
Fixpoint last_char (s : list Z) (n : nat) : nat :=
  match n with
  | O => O
  | S n' => if blank (default 0 (s !! n')) then last_char s n' else n
  end.

(** The string that is left, up to its null character; the last of the [size] bytes is never part of it. *)
Definition descramble_ata_string (s : list Z) : list Z :=
  let s := swap_pairs s in take (last_char s (length s - 1)) s.

Definition id_word32 (id : list Z) (i : nat) : Z :=
  default 0 (id !! i) + 256 * default 0 (id !! (i + 1)%nat) + 65536 * default 0 (id !! (i + 2)%nat) + 16777216 * default 0 (id !! (i + 3)%nat).

(** What [identify_ata_device] registers: the capacity, and what it takes for the model and for the serial number. *)
Record identity := mkIdentity { capacity : Z; model : list Z; serial : list Z }.

(** The disk with [is_ata] reset and [None] when the device does not answer or has 1 GB or more; else the identity with which
    it is registered. *)
Definition identify_ata_device (d : ata_disk) : iM (ata_disk * option identity) :=
  assert (is_ata d);;
  select_device_wait d;;
  issue_pio_command CMD_IDENTIFY_DEVICE;;
  sema_down;;
  ok ← wait_while_busy;
  if negb ok then mret (set_is_ata false d, None) else
  id ← input_sector;
  let cap := id_word32 id 120 in
  let model := descramble_ata_string (take 20 (drop 20 id)) in
  let serial := descramble_ata_string (take 40 (drop 54 id)) in
  if 1024 * 1024 * 1024 / 512 <=? cap then mret (set_is_ata false d, None) else mret (d, Some (mkIdentity cap model serial)).

(** ** Setting up a channel *)

Definition new_channel (chan_no : Z) : channel :=
  let b := if chan_no =? 0 then 0x1f0 else 0x170 in
  mkChannel [105; 100; 101; 48 + chan_no] b (if chan_no =? 0 then 14 + 0x20 else 15 + 0x20) false 0
    ((fun n => mkDisk [104; 100; 97 + chan_no * 2 + n] b n false) <$> [0; 1]).

(** Identifies the devices that are disks: the devices as they are then, with the identities of those that are registered. *)
Fixpoint identify_loop (ds : list ata_disk) : iM (list (ata_disk * option identity)) :=
  match ds with
  | [] => mret []
  | d :: ds =>
      r ← (if is_ata d then identify_ata_device d else mret (d, None));
      rest ← identify_loop ds;
      mret (r :: rest)
  end.

(** One round of the loop of [ide_init]: the devices of a channel, with the identities of those that are registered. *)
Definition ide_init_channel (chan_no : Z) : iM (list (ata_disk * option identity)) :=
  modifyp (fun _ => new_channel chan_no);;
  c ← getp id;
  match devices c with
  | [d0; d1] =>
      reset_channel d0 d1;;
      r ← check_device_type d0;
      let '(slave, d0) := r in
      d1 ← (if slave : bool then r ← check_device_type d1; mret r.2 else mret d1);
      ds ← identify_loop [d0; d1];
      modifyp (set_devices (fst <$> ds));;
      mret ds
  | _ => st_fail EUndef
  end.
End driver.

(** * An ATA channel *)

(** What a device does with a command: it has nothing to do, it has words for the driver, or it takes words for a sector. *)
Inductive phase := Idle | Sending (ws : list Z) | Receiving (lba : Z) (ws : list Z).

(** The registers that select a sector. *)
Record regs := mkRegs { r_nsect : Z; r_lbal : Z; r_lbam : Z; r_lbah : Z; r_device : Z }.

(** A channel: its registers, what it is doing, for how much longer the device that is selected is busy, and for how much longer the other one
    is, whether its interrupt is pending or, as long as the device is busy, to come, and the sectors of its two devices.  The unit of time is a poll of the driver, that is a read of a status register with the delay
    that follows it. *)
Record ata := mkAta {
  a_regs : regs;
  a_phase : phase;
  a_busy : nat;
  a_other : nat;
  a_line : bool;
  media : gmap (Z * Z) (list Z)
}.

Fixpoint words_of (bs : list Z) : list Z :=
  match bs with
  | lo :: hi :: bs => (lo + 256 * hi) :: words_of bs
  | _ => []
  end.

Fixpoint bytes_of (ws : list Z) : list Z :=
  match ws with
  | [] => []
  | w :: ws => w mod 256 :: w / 256 :: bytes_of ws
  end.

(** Words that are left to send; after the last one the device is idle. *)
Definition sending (ws : list Z) : phase := match ws with [] => Idle | _ => Sending ws end.

Definition selected (r : regs) : Z := if Z.testbit (r_device r) 4 then 1 else 0.
Definition lba (r : regs) : Z := r_lbal r + 256 * r_lbam r + 65536 * r_lbah r + 16777216 * (r_device r mod 16).

Definition status (a : ata) : Z :=
  match a_busy a with
  | S _ => STA_BSY
  | O => match a_phase a with Idle => STA_DRDY | _ => Z.lor STA_DRDY STA_DRQ end
  end.

Section device.
(** The base of the channel and what its devices identify as. *)
Context (b : Z) (ident : Z -> list Z).

(** As long as BSY is set, all registers of the command block read as the status. *)
Definition answer (a : ata) (port : Z) : Z :=
  if (b <=? port) && (port <=? b + 7) && negb (a_busy a =? 0)%nat then status a
  else if port =? b then match a_phase a with Sending (w :: _) => w | _ => 0 end
  else if port =? b + 1 then 1
  else if port =? b + 2 then r_nsect (a_regs a)
  else if port =? b + 3 then r_lbal (a_regs a)
  else if port =? b + 4 then r_lbam (a_regs a)
  else if port =? b + 5 then r_lbah (a_regs a)
  else if port =? b + 6 then r_device (a_regs a)
  else if (port =? b + 7) || (port =? b + 0x206) then status a
  else 0.

(** Reading a port: the data register gives the next word; the status register clears an interrupt that is pending, but not one that is
    to come when the device is done. *)
Definition after_in (port : Z) (a : ata) : ata :=
  let '(mkAta r p n o l m) := a in
  if port =? b then match p, n with Sending (_ :: ws), O => mkAta r (sending ws) n o l m | _, _ => a end
  else if port =? b + 7 then match n with O => mkAta r p O (pred o) false m | S n => mkAta r p n (pred o) l m end
  else if port =? b + 0x206 then mkAta r p (pred n) (pred o) l m
  else a.

(** The command [v], which keeps the device busy for [delay] polls; one that is not known or that is for a sector that is not there is
    aborted, with an interrupt and no data. *)
Definition command (delay : nat) (v : Z) (a : ata) : ata :=
  let '(mkAta r p n o l m) := a in
  if v =? CMD_IDENTIFY_DEVICE then mkAta r (sending (words_of (ident (selected r)))) delay o true m
  else match m !! (selected r, lba r) with
       | Some bs =>
           if v =? CMD_READ_SECTOR_RETRY then mkAta r (sending (words_of bs)) delay o true m
           else if v =? CMD_WRITE_SECTOR_RETRY then mkAta r (Receiving (lba r) []) delay o l m
           else mkAta r Idle delay o true m
       | None => mkAta r Idle delay o true m
       end.

(** The device register selects the device, which may be the other one. *)
Definition select (v : Z) (a : ata) : ata :=
  let '(mkAta (mkRegs ns ll lm lh dv) p n o l m) := a in
  let r := mkRegs ns ll lm lh v in
  if selected r =? selected (mkRegs ns ll lm lh dv) then mkAta r p n o l m else mkAta r p o n l m.

(** Writing a port: after the last word of a sector the sector is on the disk.  Registers and commands that are written while BSY or DRQ
    is set, and data while BSY is set, are ignored. *)
Definition after_out (delay : nat) (port v : Z) (a : ata) : ata :=
  let '(mkAta r p n o l m) := a in
  let '(mkRegs ns ll lm lh dv) := r in
  match n, p with
  | O, Receiving s ws =>
      if port =? b then
        let ws := ws ++ [v] in
        if (length ws =? 256)%nat then mkAta r Idle delay o true (<[(selected r, s) := bytes_of ws]> m)
        else mkAta r (Receiving s ws) n o l m
      else a
  | O, Idle =>
      if port =? b + 2 then mkAta (mkRegs v ll lm lh dv) p n o l m
      else if port =? b + 3 then mkAta (mkRegs ns v lm lh dv) p n o l m
      else if port =? b + 4 then mkAta (mkRegs ns ll v lh dv) p n o l m
      else if port =? b + 5 then mkAta (mkRegs ns ll lm v dv) p n o l m
      else if port =? b + 6 then select v a
      else if port =? b + 7 then command delay v a
      else a
  | _, _ => a
  end.

(** The interrupt comes when the device is done. *)
Definition after_wait (a : ata) : ata := mkAta (a_regs a) (a_phase a) 0 (a_other a) (a_line a) (media a).

(** The state of the channel after a history; [delay] gives for how many polls the device is busy after the access that follows the history. *)
Fixpoint device (delay : history -> nat) (a0 : ata) (h : history) : ata :=
  match h with
  | [] => a0
  | IoIn p _ :: h => after_in p (device delay a0 h)
  | IoOut p v :: h => after_out (delay h) p v (device delay a0 h)
  | IoWait :: h => after_wait (device delay a0 h)
  end.
End device.

(** What the driver relies on: the ports and the interrupt line of the channel are those of the device. *)
Class AtaChannel (b : Z) (delay : history -> nat) (ident : Z -> list Z) (a0 : ata) (hw : history -> Z -> Z) (raised : history -> Z -> bool) : Prop := {
  ata_ports : forall h port, b <= port <= b + 0x206 -> hw h port = answer b (device b ident delay a0 h) port;
  ata_line : forall h, raised h b = a_line (device b ident delay a0 h)
}.

(** * Words and bytes *)

Lemma words_bytes n : forall bs, length bs = (2 * n)%nat -> Forall (in_u 8) bs -> bytes_of (words_of bs) = bs.
Proof.
  induction n as [|n IH]; intros [|lo [|hi bs]] Hl HB; try (cbn in Hl; lia); [done|].
  apply Forall_cons in HB as [Hlo [Hhi HB]%Forall_cons]. cbn [words_of bytes_of]. unfold in_u in Hlo, Hhi.
  rewrite IH by (cbn in Hl; try lia; done). f_equal; [|f_equal]; Z.to_euclidean_division_equations; lia.
Qed.

Lemma ata_words_length n : forall bs, length bs = (2 * n)%nat -> length (words_of bs) = n.
Proof.
  induction n as [|n IH]; intros [|lo [|hi bs]] Hl; try (cbn in Hl; lia); [done|].
  cbn [words_of length]. rewrite IH; [done|cbn in Hl; lia].
Qed.

Lemma words_range n : forall bs, length bs = (2 * n)%nat -> Forall (in_u 8) bs -> Forall (in_u 16) (words_of bs).
Proof.
  induction n as [|n IH]; intros [|lo [|hi bs]] Hl HB; try (cbn in Hl; lia); [constructor|].
  apply Forall_cons in HB as [Hlo [Hhi HB]%Forall_cons]. unfold in_u in *. cbn [words_of]. constructor; [lia|].
  apply IH; [cbn in Hl; lia|done].
Qed.

(** * Running the driver on a channel *)

Section channel.
Context (b : Z) (delay : history -> nat) (ident : Z -> list Z) (a0 : ata) (hw : history -> Z -> Z) (raised : history -> Z -> bool).
Context `{!AtaChannel b delay ident a0 hw raised} (Hdelay : forall h, (delay h < 1000)%nat).

Abbreviation dev := (device b ident delay a0).

(** A device that is ready, or busy, up to the time that the other one is busy. *)
Abbreviation ready r p l m := (mkAta r p 0 1 l m).
Abbreviation busy r p l m := (mkAta r p 1 1 l m).

(** [a'] is [a], but when [a] is busy it is busy for any time that the driver waits for, or for none, and the other device as well. *)
Definition like (a a' : ata) : Prop :=
  exists n o, a' = mkAta (a_regs a) (a_phase a) n o (a_line a) (media a) /\ (n < 1000)%nat /\ (o < 1000)%nat /\ (a_busy a = O -> n = O).

Lemma like_ready r p k l m a : like (mkAta r p 0 k l m) a <-> exists o, a = mkAta r p 0 o l m /\ (o < 1000)%nat.
Proof.
  split; [intros (n & o & -> & _ & Ho & ->); [by exists o|done]|]. intros (o & -> & Ho). exists 0%nat, o. cbn. split_and!; [done|lia|done|done].
Qed.

Lemma like_busy r p k l m n o : (n < 1000)%nat -> (o < 1000)%nat -> like (mkAta r p 1 k l m) (mkAta r p n o l m).
Proof. intros Hn Ho. by exists n, o. Qed.

Lemma like_weaken r p k k' j l m a : like (mkAta r p k k' l m) a -> like (mkAta r p 1 j l m) a.
Proof. intros (n & o & -> & Hn & Ho & _). by apply like_busy. Qed.

Lemma like_inv r p k j l m a : like (mkAta r p k j l m) a -> exists n o, a = mkAta r p n o l m /\ (n < 1000)%nat /\ (o < 1000)%nat.
Proof. intros (n & o & -> & Hn & Ho & _). by exists n, o. Qed.

(** From the channel [c] and a device like [a] the routine returns [x] and leaves [c'] and a device like [a']. *)
Definition runs {A} (m : st (channel * history) A) (c : channel) (a : ata) (x : A) (c' : channel) (a' : ata) : Prop :=
  forall h, like a (dev h) -> exists h', m (c, h) = Ok (x, (c', h')) /\ like a' (dev h').

Lemma runs_bind {A B} (m : st (channel * history) A) (k : A -> st (channel * history) B) c a x c1 a1 y c2 a2 :
  runs m c a x c1 a1 -> runs (k x) c1 a1 y c2 a2 -> runs (m ≫= k) c a y c2 a2.
Proof.
  intros Hm Hk h Ha. destruct (Hm h Ha) as (h1 & H1 & Ha1). destruct (Hk h1 Ha1) as (h2 & H2 & Ha2).
  exists h2. split; [|done]. by rewrite (run_bind _ _ _ _ _ H1).
Qed.

Lemma runs_ret {A} (x : A) c a : runs (mret x) c a x c a.
Proof. intros h Ha. by exists h. Qed.

Lemma runs_get {A} (f : channel -> A) c a : runs (getp f) c a (f c) c a.
Proof. intros h Ha. by exists h. Qed.

Lemma runs_modify f c a : runs (modifyp f) c a tt (f c) a.
Proof. intros h Ha. by exists h. Qed.

Lemma runs_assert (g : bool) c a : g = true -> runs (assert g) c a tt c a.
Proof. intros -> h Ha. by exists h. Qed.

(** The ports of the channel are distinct. *)
Ltac ports :=
  repeat match goal with
  | |- context [?x =? ?y] => destruct (Z.eqb_spec x y); try (exfalso; lia)
  | |- context [?x <=? ?y] => destruct (Z.leb_spec x y); try (exfalso; lia)
  end; cbn [orb andb negb].

Lemma in_alt r p n o l m : after_in b (b + 0x206) (mkAta r p n o l m) = mkAta r p (pred n) (pred o) l m.
Proof. unfold after_in. ports. done. Qed.

Lemma after_in_like p r q o l m : (o < 1000)%nat -> like (after_in b p (ready r q l m)) (after_in b p (mkAta r q 0 o l m)).
Proof. intros Ho. unfold after_in. repeat case_match; simplify_eq; apply like_ready; eexists; (split; [done|lia]). Qed.

(** Accesses to a device that is not busy. *)
Lemma runs_inb p c r q l m : b <= p <= b + 0x206 ->
  runs (inb hw p) c (ready r q l m) (u8 (answer b (ready r q l m) p)) c (after_in b p (ready r q l m)).
Proof using AtaChannel0.
  intros Hp h (o & Ha & Ho)%like_ready. eexists. unfold inb. cbn [fst snd]. rewrite (@ata_ports b delay ident a0 hw raised _ h p Hp), Ha. split; [done|].
  cbn [device fst snd]. rewrite Ha. by apply after_in_like.
Qed.

Lemma runs_inw p c r q l m : b <= p <= b + 0x206 ->
  runs (inw hw p) c (ready r q l m) (u16 (answer b (ready r q l m) p)) c (after_in b p (ready r q l m)).
Proof using AtaChannel0.
  intros Hp h (o & Ha & Ho)%like_ready. eexists. unfold inw. cbn [fst snd]. rewrite (@ata_ports b delay ident a0 hw raised _ h p Hp), Ha. split; [done|].
  cbn [device fst snd]. rewrite Ha. by apply after_in_like.
Qed.

(** Whatever the device takes for a command, it is the same up to the time. *)
Lemma after_out_like k o p v r q l m : (k < 1000)%nat -> (o < 1000)%nat ->
  like (after_out b ident 1 p v (ready r q l m)) (after_out b ident k p v (mkAta r q 0 o l m)).
Proof.
  intros Hk Ho. destruct r as [ns ll lm lh dv]. unfold after_out, command, select. repeat case_match; simplify_eq;
    first [apply like_ready; by exists o|apply like_busy; (done || lia)].
Qed.

Lemma runs_outb p v c r q l m : runs (outb p v) c (ready r q l m) tt c (after_out b ident 1 p (u8 v) (ready r q l m)).
Proof using Hdelay. intros h (o & Ha & Ho)%like_ready. eexists. split; [done|]. cbn [device fst snd]. rewrite Ha. by apply after_out_like. Qed.

Lemma runs_outw p v c r q l m : runs (outw p v) c (ready r q l m) tt c (after_out b ident 1 p (u16 v) (ready r q l m)).
Proof using Hdelay. intros h (o & Ha & Ho)%like_ready. eexists. split; [done|]. cbn [device fst snd]. rewrite Ha. by apply after_out_like. Qed.

(** ** Waiting *)

Lemma answer_status a : answer b a (b + 7) = status a /\ answer b a (b + 0x206) = status a.
Proof. unfold answer. split; destruct (a_busy a =? 0)%nat; ports; done. Qed.

(** A poll of a status register. *)
Lemma status_poll q p h (c : channel) : q = b + 7 \/ q = b + 0x206 ->
  inb hw q (c, h) = Ok (u8 (status (dev h)), (c, IoIn q (u8 (status (dev h))) :: h)) /\
  (a_phase (dev h) = p -> (Z.land (u8 (status (dev h))) STA_BSY =? 0) = (a_busy (dev h) =? 0)%nat /\
    (Z.land (u8 (status (dev h))) STA_DRQ =? 0) = (negb (a_busy (dev h) =? 0)%nat || match p with Idle => true | _ => false end) /\
    (Z.land (u8 (status (dev h))) (Z.lor STA_BSY STA_DRQ) =? 0) = ((a_busy (dev h) =? 0)%nat && match p with Idle => true | _ => false end)).
Proof using AtaChannel0.
  intros Hq. split.
  - unfold inb. cbn [fst snd]. rewrite (@ata_ports b delay ident a0 hw raised _ h q) by lia.
    replace (answer b (dev h) q) with (status (dev h)); [done|]. destruct (answer_status (dev h)). by destruct Hq as [-> | ->].
  - intros <-. destruct (dev h) as [r p n o l m]. by destruct n, p.
Qed.

Lemma runs_idle_loop c r m l : reg_base c = b -> forall k n o h, (n < k)%nat -> dev h = mkAta r Idle n o l m -> (o < 1000)%nat ->
  exists h' o', idle_loop hw k (c, h) = Ok (true, (c, h')) /\ dev h' = mkAta r Idle 0 o' false m /\ (o' < 1000)%nat.
Proof using AtaChannel0.
  intros Hc k. induction k as [|k IH]; intros n o h Hn Ha Ho; [lia|]. cbn [idle_loop].
  rewrite (run_bind _ _ (c, h) b (c, h)) by (unfold base, getp; cbn; by rewrite Hc).
  destruct (status_poll (b + 7) Idle h c ltac:(auto)) as [E H]. unfold reg_status. rewrite (run_bind _ _ _ _ _ E).
  rewrite Ha in H. destruct (H eq_refl) as (_ & _ & H'). rewrite Ha, H'. cbn [a_busy].
  set (h1 := IoIn _ _ :: h). assert (dev h1 = after_in b (b + 7) (mkAta r Idle n o l m)) as H1 by (unfold h1; cbn [device]; by rewrite Ha).
  unfold after_in in H1. destruct (Z.eqb_spec (b + 7) b); [lia|]. rewrite Z.eqb_refl in H1. destruct n as [|n]; cbn [Nat.eqb andb].
  - exists h1, (pred o). split_and!; [done|done|lia].
  - apply (IH n (pred o)); [lia|done|lia].
Qed.

Lemma runs_wait_until_idle c r k l m : reg_base c = b -> runs (wait_until_idle hw) c (mkAta r Idle k 1 l m) tt c (ready r Idle false m).
Proof using AtaChannel0.
  intros Hc h Ha. apply like_inv in Ha as (n & o & Ha & Hn & Ho). destruct (runs_idle_loop c r m l Hc 1000 n o h Hn Ha Ho) as (h' & o' & E & Ha' & Ho').
  exists h'. unfold wait_until_idle. rewrite (run_bind _ _ _ _ _ E). split; [done|]. apply like_ready. eauto.
Qed.

Lemma runs_busy_loop c r p l m : reg_base c = b -> forall k n o h, (n < k)%nat -> dev h = mkAta r p n o l m -> (o < 1000)%nat ->
  exists h' o', busy_loop hw k (c, h) = Ok (match p with Idle => false | _ => true end, (c, h')) /\ dev h' = mkAta r p 0 o' l m /\ (o' < 1000)%nat.
Proof using AtaChannel0.
  intros Hc k. induction k as [|k IH]; intros n o h Hn Ha Ho; [lia|]. cbn [busy_loop].
  rewrite (run_bind _ _ (c, h) b (c, h)) by (unfold base, getp; cbn; by rewrite Hc).
  destruct (status_poll (b + 0x206) p h c ltac:(auto)) as [E H]. unfold reg_alt_status, reg_ctl. rewrite (run_bind _ _ _ _ _ E).
  rewrite Ha in H. destruct (H eq_refl) as (H' & _). rewrite Ha, H'. cbn [a_busy].
  set (h1 := IoIn _ _ :: h). assert (dev h1 = mkAta r p (pred n) (pred o) l m) as H1 by (unfold h1; cbn [device]; by rewrite Ha, in_alt).
  destruct n as [|n]; cbn [Nat.eqb Nat.pred] in *; [|apply (IH n (pred o)); [lia|done|lia]].
  destruct (status_poll (b + 0x206) p h1 c ltac:(auto)) as [E1 H2]. rewrite (run_bind _ _ _ _ _ E1).
  rewrite H1 in H2. destruct (H2 eq_refl) as (_ & H3 & _). rewrite H1, H3. cbn [a_busy Nat.eqb negb orb].
  eexists _, (pred (pred o)). split_and!; [by destruct p|cbn [device]; by rewrite H1, in_alt|lia].
Qed.

(** ** Selecting a sector *)

Lemma out_regs ns ll lm lh dv l m v :
  let out p := after_out b ident 1 p v (ready (mkRegs ns ll lm lh dv) Idle l m) in
  out (b + 2) = ready (mkRegs v ll lm lh dv) Idle l m /\ out (b + 3) = ready (mkRegs ns v lm lh dv) Idle l m /\
  out (b + 4) = ready (mkRegs ns ll v lh dv) Idle l m /\ out (b + 5) = ready (mkRegs ns ll lm v dv) Idle l m /\
  out (b + 6) = select v (ready (mkRegs ns ll lm lh dv) Idle l m).
Proof. unfold after_out. repeat split; ports; done. Qed.

(** After the device register has been written either device may be busy, unless it has selected the same one. *)
Lemma like_select ns ll lm lh dv v l m a : like (select v (ready (mkRegs ns ll lm lh dv) Idle l m)) a ->
  like (busy (mkRegs ns ll lm lh v) Idle l m) a /\ (Z.testbit v 4 = Z.testbit dv 4 -> like (ready (mkRegs ns ll lm lh v) Idle l m) a).
Proof.
  intros H. split.
  - unfold select in H. destruct (_ =? _); by eapply like_weaken.
  - intros E. unfold select, selected in H. cbn [r_device] in H. rewrite E, Z.eqb_refl in H. done.
Qed.

Lemma runs_select ns ll lm lh dv v c l m :
  runs (outb (b + 6) v) c (ready (mkRegs ns ll lm lh dv) Idle l m) tt c (busy (mkRegs ns ll lm lh (u8 v)) Idle l m) /\
  (Z.testbit (u8 v) 4 = Z.testbit dv 4 ->
   runs (outb (b + 6) v) c (ready (mkRegs ns ll lm lh dv) Idle l m) tt c (ready (mkRegs ns ll lm lh (u8 v)) Idle l m)).
Proof using Hdelay.
  pose proof (runs_outb (b + 6) v c (mkRegs ns ll lm lh dv) Idle l m) as H.
  rewrite (proj2 (proj2 (proj2 (proj2 (out_regs ns ll lm lh dv l m (u8 v)))))) in H.
  split; [|intros E]; intros h Ha; destruct (H h Ha) as (h' & H1 & H2); exists h'; (split; [done|]); apply like_select in H2; tauto.
Qed.

Definition device_value (d : ata_disk) : Z := if dev_no d =? 1 then Z.lor DEV_MBS DEV_DEV else DEV_MBS.

Lemma runs_alt_busy c r l m : runs (inb hw (b + 0x206);; mret tt) c (busy r Idle l m) tt c (busy r Idle l m).
Proof using AtaChannel0.
  intros h (n & o & Ha & Hn & Ho)%like_inv. destruct (status_poll (b + 0x206) Idle h c ltac:(auto)) as [E _].
  eexists. rewrite (run_bind _ _ _ _ _ E). split; [done|]. cbn [device]. rewrite Ha, in_alt. apply like_busy; lia.
Qed.

Lemma runs_select_device_wait c d ns ll lm lh dv k l m : reg_base c = b ->
  runs (select_device_wait hw d) c (mkAta (mkRegs ns ll lm lh dv) Idle k 1 l m) tt c (ready (mkRegs ns ll lm lh (u8 (device_value d))) Idle false m).
Proof using AtaChannel0 Hdelay.
  intros Hc. eapply runs_bind; [by apply runs_wait_until_idle|]. eapply runs_bind; [|by apply runs_wait_until_idle].
  eapply runs_bind; [apply runs_get|]. rewrite Hc. fold (device_value d). unfold reg_device.
  eapply runs_bind; [apply (proj1 (runs_select _ _ _ _ _ _ _ _ _))|]. apply runs_alt_busy.
Qed.

(** The registers for a sector of a disk. *)
Definition sector_regs (d : ata_disk) (sec_no : Z) : regs :=
  mkRegs 1 (u8 sec_no) (u8 (Z.shiftr sec_no 8)) (u8 (Z.shiftr sec_no 16))
    (u8 (Z.lor (Z.lor (Z.lor DEV_MBS DEV_LBA) (if dev_no d =? 1 then DEV_DEV else 0)) (Z.shiftr sec_no 24))).

(** The device register for the top four bits [t] of a sector number. *)
Lemma device_register (s : bool) t : 0 <= t < 16 ->
  let v := u8 (Z.lor (Z.lor (Z.lor DEV_MBS DEV_LBA) (if s then DEV_DEV else 0)) t) in Z.testbit v 4 = s /\ v mod 16 = t.
Proof.
  intros Ht. assert (t = 0 \/ t = 1 \/ t = 2 \/ t = 3 \/ t = 4 \/ t = 5 \/ t = 6 \/ t = 7 \/ t = 8 \/ t = 9 \/ t = 10 \/ t = 11 \/
    t = 12 \/ t = 13 \/ t = 14 \/ t = 15) as H by lia. destruct s; repeat (destruct H as [->|H]; [by vm_compute|]); subst; by vm_compute.
Qed.

Lemma sector_top sec_no : 0 <= sec_no < 2 ^ 28 -> 0 <= Z.shiftr sec_no 24 < 16.
Proof.
  intros Hs. rewrite Z.shiftr_div_pow2 by lia. change (2 ^ 28) with 268435456 in Hs. change (2 ^ 24) with 16777216. Z.to_euclidean_division_equations; lia.
Qed.

Lemma runs_select_sector c d sec_no r k l m : reg_base c = b -> 0 <= sec_no < 2 ^ 28 ->
  runs (select_sector hw d sec_no) c (mkAta r Idle k 1 l m) tt c (ready (sector_regs d sec_no) Idle false m).
Proof using AtaChannel0 Hdelay.
  intros Hc Hs. destruct r as [ns ll lm lh dv]. unfold select_sector.
  eapply runs_bind; [apply runs_assert, Z.ltb_lt; rewrite Z.shiftl_1_l; lia|].
  eapply runs_bind; [by apply runs_select_device_wait|]. eapply runs_bind; [apply runs_get|]. rewrite Hc.
  unfold reg_nsect, reg_lbal, reg_lbam, reg_lbah, reg_device.
  eapply runs_bind; [apply runs_outb|]. rewrite (proj1 (out_regs _ _ _ _ _ _ _ _)).
  eapply runs_bind; [apply runs_outb|]. rewrite (proj1 (proj2 (out_regs _ _ _ _ _ _ _ _))).
  eapply runs_bind; [apply runs_outb|]. rewrite (proj1 (proj2 (proj2 (out_regs _ _ _ _ _ _ _ _)))).
  eapply runs_bind; [apply runs_outb|]. rewrite (proj1 (proj2 (proj2 (proj2 (out_regs _ _ _ _ _ _ _ _))))).
  apply (proj2 (runs_select _ _ _ _ _ _ _ _ _)). rewrite (proj1 (device_register (dev_no d =? 1) _ (sector_top _ Hs))).
  unfold device_value. by destruct (dev_no d =? 1).
Qed.

(** The device sees the disk and the sector that were asked for. *)
Lemma sector_addressed d sec_no : 0 <= sec_no < 2 ^ 28 -> dev_no d = 0 \/ dev_no d = 1 ->
  selected (sector_regs d sec_no) = dev_no d /\ lba (sector_regs d sec_no) = sec_no.
Proof.
  intros Hs Hd. pose proof (sector_top _ Hs) as Ht.
  destruct (device_register (dev_no d =? 1) _ Ht) as [H1 H2]. unfold selected, lba, sector_regs. cbn [r_device r_lbal r_lbam r_lbah].
  rewrite H1, H2. split; [destruct Hd as [-> | ->]; done|].
  rewrite !Z.shiftr_div_pow2 by lia. unfold uwrap. change (2 ^ 28) with 268435456 in Hs. change (2 ^ 8) with 256.
  change (2 ^ 16) with 65536. change (2 ^ 24) with 16777216. clear. Z.to_euclidean_division_equations; lia.
Qed.

(** ** Commands and data *)

Lemma runs_issue cmd c r l m : reg_base c = b -> in_u 8 cmd ->
  runs (issue_pio_command cmd) c (ready r Idle l m) tt (set_expecting true c) (command ident 1 cmd (ready r Idle l m)).
Proof using Hdelay.
  intros Hc Hv. eapply runs_bind; [apply runs_get|]. rewrite Hc. eapply runs_bind; [apply runs_modify|].
  intros h Ha. destruct (runs_outb (reg_command b) cmd (set_expecting true c) _ _ _ _ h Ha) as (h' & H1 & H2). exists h'. split; [done|].
  rewrite uwrap_id in H2 by (done || lia). destruct r as [ns ll lm lh dv]. unfold after_out, reg_command, reg_status in H2.
  revert H2. ports. done.
Qed.

Lemma runs_insw c r l m n : forall ws, length ws = n -> Forall (in_u 16) ws ->
  runs (insw hw b n) c (ready r (sending ws) l m) (bytes_of ws) c (ready r Idle l m).
Proof using AtaChannel0.
  induction n as [|n IH]; intros [|w ws] Hl Hw; try (cbn in Hl; lia); [apply runs_ret|].
  apply Forall_cons in Hw as [Hw Hws]. cbn [insw]. eapply runs_bind; [apply runs_inw; lia|].
  assert (answer b (ready r (sending (w :: ws)) l m) b = w) as ->.
  { unfold answer. cbn [a_busy Nat.eqb negb]. by rewrite andb_false_r, Z.eqb_refl. }
  rewrite uwrap_id by (done || lia).
  assert (after_in b b (ready r (sending (w :: ws)) l m) = ready r (sending ws) l m) as -> by (unfold after_in; by rewrite Z.eqb_refl).
  eapply runs_bind; [apply (IH ws); [cbn in Hl; lia|done]|]. apply runs_ret.
Qed.

Lemma runs_outsw c r l m s n : forall ws bs, length bs = (2 * S n)%nat -> Forall (in_u 8) bs -> (length ws + S n = 256)%nat ->
  runs (outsw b bs) c (ready r (Receiving s ws) l m) tt c
    (busy r Idle true (<[(selected r, s) := bytes_of (ws ++ words_of bs)]> m)).
Proof using Hdelay.
  induction n as [|n IH]; intros ws [|lo [|hi bs]] Hl HB Hn; try (cbn in Hl; lia);
    apply Forall_cons in HB as [Hlo [Hhi HB]%Forall_cons]; unfold in_u in Hlo, Hhi; cbn [outsw words_of];
    (eapply runs_bind; [apply runs_outw|]); unfold after_out; destruct r as [ns ll lm lh dv]; rewrite Z.eqb_refl;
    rewrite uwrap_id by (unfold in_u; lia); rewrite length_app; cbn [length].
  - replace (length ws + 1)%nat with 256%nat by lia. destruct bs; [|cbn in Hl; lia]. cbn [outsw words_of Nat.eqb]. apply runs_ret.
  - destruct (Nat.eqb_spec (length ws + 1) 256); [lia|].
    replace (ws ++ (lo + 256 * hi) :: words_of bs) with ((ws ++ [lo + 256 * hi]) ++ words_of bs) by (by rewrite <- app_assoc).
    apply IH; [cbn in Hl |- *; lia|done|rewrite length_app; cbn; lia].
Qed.

(** The interrupt is acknowledged, and the semaphore is as before. *)
Lemma runs_sema_down c r p k m : reg_base c = b -> completion_wait c = 0 -> expecting_interrupt c = true ->
  runs (sema_down hw raised) c (mkAta r p k 1 true m) tt c (ready r p false m).
Proof using AtaChannel0.
  intros Hc Hw He h Ha. apply like_inv in Ha as (n & o & Ha & _ & Ho). unfold sema_down. cbn [snd].
  pose proof (@ata_line b delay ident a0 hw raised _ h) as Hl. rewrite Ha in Hl. cbn [a_line] in Hl.
  assert (like (ready r p true m) (dev (IoWait :: h))) as Ha1 by (apply like_ready; exists o; cbn [device]; by rewrite Ha).
  destruct (runs_inb (b + 7) c _ _ _ _ ltac:(lia) _ Ha1) as (h' & H1 & H2). unfold after_in in H2.
  destruct (Z.eqb_spec (b + 7) b); [lia|]. rewrite Z.eqb_refl in H2. exists h'. split; [|done].
  unfold getp, mbind, st_bind, id. cbn [fst]. rewrite Hw, Hc, Hl. cbn [Z.eqb].
  unfold wait_irq, interrupt_handler, getp, mbind, st_bind, id. cbn [fst snd]. rewrite Z.eqb_refl, He, Hc. unfold reg_status. rewrite H1.
  unfold modifyp. destruct c as [nm rb iq ex cw ds]. cbn in *. subst. done.
Qed.

(** ** Sectors *)

Lemma runs_wait_while_busy c r p l m k : reg_base c = b ->
  runs (wait_while_busy hw) c (mkAta r p k 1 l m) (match p with Idle => false | _ => true end) c (ready r p l m).
Proof using AtaChannel0.
  intros Hc h Ha. apply like_inv in Ha as (n & o & Ha & Hn & Ho). assert (n < 3000)%nat as Hk by (eapply Nat.lt_le_trans; [exact Hn|by apply Nat.leb_le]). clear Hn.
  unfold wait_while_busy. revert Hk. generalize 3000%nat. intros j Hk.
  destruct (runs_busy_loop c r p l m Hc j n o h Hk Ha Ho) as (h' & o' & E & Ha' & Ho'). exists h'. split; [done|]. apply like_ready. eauto.
Qed.

(** A sector is 512 bytes. *)
Definition sector_ok (bs : list Z) : Prop := length bs = 512%nat /\ Forall (in_u 8) bs.

Lemma runs_input_sector c r bs l m : reg_base c = b -> sector_ok bs ->
  runs (input_sector hw) c (ready r (sending (words_of bs)) l m) bs c (ready r Idle l m).
Proof using AtaChannel0.
  intros Hc [Hl HB]. unfold input_sector, base. eapply runs_bind; [apply runs_get|]. rewrite Hc. unfold reg_data. rewrite Z.add_0_r.
  rewrite <- (words_bytes 256 bs) at 2 by done. apply runs_insw; [by apply ata_words_length|by apply (words_range 256)].
Qed.

Lemma runs_output_sector c r bs s l m : reg_base c = b -> sector_ok bs ->
  runs (output_sector bs) c (ready r (Receiving s []) l m) tt c (busy r Idle true (<[(selected r, s) := bs]> m)).
Proof using Hdelay.
  intros Hc [Hl HB]. unfold output_sector, base. eapply runs_bind; [apply runs_get|]. rewrite Hc. unfold reg_data. rewrite Z.add_0_r.
  rewrite <- (words_bytes 256 bs) at 2 by done. apply (runs_outsw c r l m s 255 []); [done|done|done].
Qed.

Lemma sending_sector bs : sector_ok bs -> exists ws, sending (words_of bs) = Sending ws.
Proof. intros [Hl _]. destruct bs as [|x [|y bs]]; [done|done|]. by eexists. Qed.

(** What the commands do when the sector is there and when it is not. *)
Lemma command_read r p n l m bs : m !! (selected r, lba r) = Some bs ->
  command ident 1 CMD_READ_SECTOR_RETRY (mkAta r p n 1 l m) = busy r (sending (words_of bs)) true m.
Proof. intros H. unfold command. by rewrite H. Qed.

Lemma command_write r p n l m bs : m !! (selected r, lba r) = Some bs ->
  command ident 1 CMD_WRITE_SECTOR_RETRY (mkAta r p n 1 l m) = busy r (Receiving (lba r) []) l m.
Proof. intros H. unfold command. by rewrite H. Qed.

Lemma command_abort r p n l m v : v = CMD_READ_SECTOR_RETRY \/ v = CMD_WRITE_SECTOR_RETRY -> m !! (selected r, lba r) = None ->
  command ident 1 v (mkAta r p n 1 l m) = busy r Idle true m.
Proof. intros Hv H. unfold command. rewrite H. by destruct Hv as [-> | ->]. Qed.

Section sector.
Context (c : channel) (d : ata_disk) (sec_no : Z).
Context (Hc : reg_base c = b) (Hw : completion_wait c = 0) (Hd : dev_no d = 0 \/ dev_no d = 1) (Hs : 0 <= sec_no < 2 ^ 28).

Lemma runs_ide_read r k l m bs : m !! (dev_no d, sec_no) = Some bs -> sector_ok bs ->
  runs (ide_read hw raised d sec_no) c (mkAta r Idle k 1 l m) bs (set_expecting true c) (ready (sector_regs d sec_no) Idle false m).
Proof using AtaChannel0 Hc Hw Hd Hs Hdelay.
  intros Hm Hb. destruct (sector_addressed d sec_no Hs Hd) as [H1 H2]. unfold ide_read.
  eapply runs_bind; [by apply runs_select_sector|]. eapply runs_bind; [by apply runs_issue|].
  rewrite (command_read _ _ _ _ _ bs) by (by rewrite H1, H2).
  eapply runs_bind; [by apply runs_sema_down|]. eapply runs_bind; [by apply runs_wait_while_busy|].
  destruct (sending_sector bs Hb) as [ws Hws]. rewrite Hws. cbn [negb]. rewrite <- Hws. by apply runs_input_sector.
Qed.

Lemma runs_ide_write r k l m old bs : m !! (dev_no d, sec_no) = Some old -> sector_ok bs ->
  runs (ide_write hw raised d sec_no bs) c (mkAta r Idle k 1 l m) tt (set_expecting true c)
    (ready (sector_regs d sec_no) Idle false (<[(dev_no d, sec_no) := bs]> m)).
Proof using AtaChannel0 Hc Hw Hd Hs Hdelay.
  intros Hm Hb. destruct (sector_addressed d sec_no Hs Hd) as [H1 H2]. unfold ide_write.
  eapply runs_bind; [by apply runs_select_sector|]. eapply runs_bind; [by apply runs_issue|].
  rewrite (command_write _ _ _ _ _ old) by (by rewrite H1, H2).
  eapply runs_bind; [by apply runs_wait_while_busy|]. cbn [negb].
  eapply runs_bind; [by apply runs_output_sector|]. rewrite H1, H2. by apply runs_sema_down.
Qed.

(** A sector that the disk does not have stops the kernel. *)
Lemma ide_read_missing r k l m h : m !! (dev_no d, sec_no) = None -> like (mkAta r Idle k 1 l m) (dev h) ->
  ide_read hw raised d sec_no (c, h) = Err EPanic.
Proof using AtaChannel0 Hc Hw Hd Hs Hdelay.
  intros Hm Ha. destruct (sector_addressed d sec_no Hs Hd) as [H1 H2]. unfold ide_read.
  destruct (runs_select_sector c d sec_no r k l m Hc Hs h Ha) as (h1 & E1 & Ha1). rewrite (run_bind _ _ _ _ _ E1).
  destruct (runs_issue CMD_READ_SECTOR_RETRY c _ _ _ Hc ltac:(done) h1 Ha1) as (h2 & E2 & Ha2). rewrite (run_bind _ _ _ _ _ E2).
  rewrite command_abort in Ha2 by (rewrite ?H1, ?H2; auto).
  destruct (runs_sema_down (set_expecting true c) _ _ _ _ Hc Hw eq_refl h2 Ha2) as (h3 & E3 & Ha3). rewrite (run_bind _ _ _ _ _ E3).
  destruct (runs_wait_while_busy (set_expecting true c) _ Idle false m 0 Hc h3 Ha3) as (h4 & E4 & _). by rewrite (run_bind _ _ _ _ _ E4).
Qed.

Lemma ide_write_missing r k l m bs h : m !! (dev_no d, sec_no) = None -> like (mkAta r Idle k 1 l m) (dev h) ->
  ide_write hw raised d sec_no bs (c, h) = Err EPanic.
Proof using AtaChannel0 Hc Hd Hs Hdelay.
  intros Hm Ha. destruct (sector_addressed d sec_no Hs Hd) as [H1 H2]. unfold ide_write.
  destruct (runs_select_sector c d sec_no r k l m Hc Hs h Ha) as (h1 & E1 & Ha1). rewrite (run_bind _ _ _ _ _ E1).
  destruct (runs_issue CMD_WRITE_SECTOR_RETRY c _ _ _ Hc ltac:(done) h1 Ha1) as (h2 & E2 & Ha2). rewrite (run_bind _ _ _ _ _ E2).
  rewrite command_abort in Ha2 by (rewrite ?H1, ?H2; auto).
  destruct (runs_wait_while_busy (set_expecting true c) _ Idle true m 1 Hc h2 Ha2) as (h3 & E3 & _). by rewrite (run_bind _ _ _ _ _ E3).
Qed.
End sector.

(** ** Identification *)

Lemma device_selected d ns ll lm lh : dev_no d = 0 \/ dev_no d = 1 -> selected (mkRegs ns ll lm lh (u8 (device_value d))) = dev_no d.
Proof. unfold selected, device_value. by intros [-> | ->]. Qed.

(** The disk is registered with what its identification says, unless it has 1 GB or more. *)
Lemma runs_identify c d r k l m : reg_base c = b -> completion_wait c = 0 -> dev_no d = 0 \/ dev_no d = 1 -> is_ata d = true ->
  sector_ok (ident (dev_no d)) ->
  let id := ident (dev_no d) in
  let big := 2097152 <=? id_word32 id 120 in
  exists r', runs (identify_ata_device hw raised d) c (mkAta r Idle k 1 l m)
    (if big then set_is_ata false d else d,
     if big then None else Some (mkIdentity (id_word32 id 120) (descramble_ata_string (take 20 (drop 20 id))) (descramble_ata_string (take 40 (drop 54 id)))))
    (set_expecting true c) (ready r' Idle false m).
Proof using AtaChannel0 Hdelay.
  intros Hc Hw Hd Hat Hok id big. destruct r as [ns ll lm lh dv]. eexists. unfold identify_ata_device.
  eapply runs_bind; [by apply runs_assert|]. eapply runs_bind; [by apply runs_select_device_wait|].
  eapply runs_bind; [by apply runs_issue|]. unfold command. rewrite Z.eqb_refl, device_selected by done. fold id.
  eapply runs_bind; [by apply runs_sema_down|]. eapply runs_bind; [by apply runs_wait_while_busy|].
  destruct (sending_sector id Hok) as [ws Hws]. rewrite Hws. cbn [negb]. rewrite <- Hws.
  eapply runs_bind; [by apply runs_input_sector|]. cbn zeta. change (1024 * 1024 * 1024 / 512) with 2097152. fold big.
  destruct big; apply runs_ret.
Qed.

(** ** The disk as a map *)

(** What the block layer asks of the driver. *)
Inductive disk_op := DRead (d : ata_disk) (sec_no : Z) | DWrite (d : ata_disk) (sec_no : Z) (bs : list Z).

Definition run_op (o : disk_op) : st (channel * history) (list Z) :=
  match o with
  | DRead d sec_no => ide_read hw raised d sec_no
  | DWrite d sec_no bs => ide_write hw raised d sec_no bs;; mret []
  end.

Fixpoint run_ops (os : list disk_op) : st (channel * history) (list (list Z)) :=
  match os with
  | [] => mret []
  | o :: os => x ← run_op o; xs ← run_ops os; mret (x :: xs)
  end.

(** The same on a map from disks and sector numbers to sectors, stopping at a sector that is not there. *)
Fixpoint map_ops (os : list disk_op) (m : gmap (Z * Z) (list Z)) : option (list (list Z) * gmap (Z * Z) (list Z)) :=
  match os with
  | [] => Some ([], m)
  | DRead d s :: os => x ← m !! (dev_no d, s); r ← map_ops os m; Some (x :: r.1, r.2)
  | DWrite d s bs :: os => _ ← m !! (dev_no d, s); r ← map_ops os (<[(dev_no d, s) := bs]> m); Some ([] :: r.1, r.2)
  end.

Definition op_ok (o : disk_op) : Prop :=
  match o with
  | DRead d s => (dev_no d = 0 \/ dev_no d = 1) /\ 0 <= s < 2 ^ 28
  | DWrite d s bs => (dev_no d = 0 \/ dev_no d = 1) /\ 0 <= s < 2 ^ 28 /\ sector_ok bs
  end.

(** Between two operations: nobody waits, and the device will be idle soon and has the sectors [m]. *)
Definition disk_holds (s : channel * history) (m : gmap (Z * Z) (list Z)) : Prop :=
  reg_base s.1 = b /\ completion_wait s.1 = 0 /\ media (dev s.2) = m /\ a_phase (dev s.2) = Idle /\ (a_busy (dev s.2) < 1000)%nat /\ (a_other (dev s.2) < 1000)%nat /\
  map_Forall (fun _ bs => sector_ok bs) m.

Lemma run_op_holds o s m : op_ok o -> disk_holds s m ->
  match o with
  | DRead d sec => match m !! (dev_no d, sec) with Some bs => exists s', run_op o s = Ok (bs, s') /\ disk_holds s' m | None => run_op o s = Err EPanic end
  | DWrite d sec bs => match m !! (dev_no d, sec) with
      | Some _ => exists s', run_op o s = Ok ([], s') /\ disk_holds s' (<[(dev_no d, sec) := bs]> m)
      | None => run_op o s = Err EPanic end
  end.
Proof using AtaChannel0 Hdelay.
  intros Ho (Hc & Hw & Hm & Hp & Hn & Hn' & Hok). destruct s as [c h]. cbn [fst snd] in *.
  destruct (dev h) as [r p n k l m'] eqn:Ha. cbn in Hm, Hp, Hn, Hn'. subst m' p.
  assert (like (busy r Idle l m) (dev h)) as Hl' by (rewrite Ha; by apply like_busy).
  destruct o as [d sec|d sec bs]; [destruct Ho as [Hd Hs]|destruct Ho as (Hd & Hs & Hb)];
    (destruct (m !! (dev_no d, sec)) as [old|] eqn:Hl; [|]).
  - destruct (runs_ide_read c d sec Hc Hw Hd Hs r 1 l m old Hl (Hok _ _ Hl) h Hl') as (h' & E & (k' & Ha' & Hk')%like_ready).
    exists (set_expecting true c, h'). split; [exact E|]. unfold disk_holds. cbn [fst snd]. rewrite Ha'. cbn [a_phase a_busy a_other media]. split_and!; try done. lia.
  - by eapply ide_read_missing.
  - destruct (runs_ide_write c d sec Hc Hw Hd Hs r 1 l m old bs Hl Hb h Hl') as (h' & E & (k' & Ha' & Hk')%like_ready).
    exists (set_expecting true c, h'). split; [cbn [run_op]; by rewrite (run_bind _ _ _ _ _ E)|].
    unfold disk_holds. cbn [fst snd]. rewrite Ha'. cbn [a_phase a_busy a_other media]. split_and!; try done; [lia|by apply map_Forall_insert_2].
  - apply run_bind_err. by eapply ide_write_missing.
Qed.
End channel.

(** C36: Any sequence of reads and writes of sectors by the driver is the same sequence on a map from the disks of the channel
    and the sector numbers to sectors: each read returns what the last write of that sector left, no other sector changes, the
    thread never waits for an interrupt that does not come, and the kernel stops exactly at the first sector that the disk
    does not have.  The disks may be busy for any time, a different one at each access and also at the start, as long as it is less than the 1000 polls
    that the driver waits for at least; what the driver writes to the registers while they are busy would be lost. *)
Theorem ide_refines b delay ident a0 hw raised {H : AtaChannel b delay ident a0 hw raised} os s m :
  (forall h, (delay h < 1000)%nat) -> Forall op_ok os -> disk_holds b delay ident a0 s m ->
  match map_ops os m with
  | Some (xs, m') => exists s', run_ops hw raised os s = Ok (xs, s') /\ disk_holds b delay ident a0 s' m'
  | None => run_ops hw raised os s = Err EPanic
  end.
Proof.
  intros Hdelay HO. revert s m. induction HO as [|o os Ho HO IH]; intros s m Hm; [by exists s|].
  pose proof (run_op_holds b delay ident a0 hw raised Hdelay o s m Ho Hm) as Hrun. cbn [map_ops run_ops].
  destruct o as [d sec|d sec bs]; (destruct (m !! (dev_no d, sec)) as [old|]; cbn [mbind option_bind]; [|by apply run_bind_err]);
    destruct Hrun as (s1 & E1 & Hm1); specialize (IH s1 _ Hm1); rewrite (run_bind _ _ _ _ _ E1);
    (destruct (map_ops os _) as [[xs m']|]; cbn [mbind option_bind fst snd]; [|by apply run_bind_err]);
    destruct IH as (s2 & E2 & Hm2); exists s2; rewrite (run_bind _ _ _ _ _ E2); done.
Qed.

(** The channel whose ports and whose interrupt line are those of the device. *)
Definition ata_hw (b : Z) (delay : history -> nat) (ident : Z -> list Z) (a0 : ata) (h : history) (port : Z) : Z := answer b (device b ident delay a0 h) port.
Definition ata_raised (b : Z) (delay : history -> nat) (ident : Z -> list Z) (a0 : ata) (h : history) (_ : Z) : bool := a_line (device b ident delay a0 h).

#[export] Instance ata_channel b delay ident a0 : AtaChannel b delay ident a0 (ata_hw b delay ident a0) (ata_raised b delay ident a0).
Proof. by split. Qed.

(** A disk that is busy for none to four polls. *)
Definition example_delay (h : history) : nat := (length h mod 5)%nat.

Lemma example_delay_short h : (example_delay h < 1000)%nat.
Proof. unfold example_delay. pose proof (Nat.mod_upper_bound (length h) 5 ltac:(lia)). lia. Qed.

Definition example_disk : ata_disk := mkDisk [104; 100; 98] 0x1f0 1 true.
Definition example_ata : ata := mkAta (mkRegs 0 0 0 0 0) Idle 3 7 false {[(1, 70000) := replicate 512 7]}.

Lemma filled_sector_ok v : in_u 8 v -> sector_ok (replicate 512 v).
Proof. split; [apply length_replicate|by apply Forall_replicate]. Qed.

Lemma ide_refines_witness : exists s',
  run_ops (ata_hw 0x1f0 example_delay (fun _ => []) example_ata) (ata_raised 0x1f0 example_delay (fun _ => []) example_ata)
    [DRead example_disk 70000; DWrite example_disk 70000 (replicate 512 9); DRead example_disk 70000] (new_channel 0, []) =
  Ok ([replicate 512 7; []; replicate 512 9], s').
Proof.
  destruct (ide_refines 0x1f0 example_delay (fun _ => []) example_ata _ _
    [DRead example_disk 70000; DWrite example_disk 70000 (replicate 512 9); DRead example_disk 70000] (new_channel 0, [])
    {[(1, 70000) := replicate 512 7]}) as (s' & H & _).
  - exact example_delay_short.
  - apply Forall_cons_2; [|apply Forall_cons_2; [|apply Forall_cons_2; [|constructor]]]; cbn -[replicate]; repeat split; try lia;
      try (right; reflexivity). apply filled_sector_ok. unfold in_u. lia.
  - unfold disk_holds, example_ata. cbn -[replicate Nat.lt]. split_and!; [done|done|done|done|lia|lia|].
    apply map_Forall_singleton, filled_sector_ok. unfold in_u. lia.
  - exists s'. exact H.
Defined.

(** * Names *)

Lemma swap_pairs_involutive n : forall s, length s = (2 * n)%nat -> swap_pairs (swap_pairs s) = s.
Proof. induction n as [|n IH]; intros [|x [|y s]] Hl; try (cbn in Hl; lia); [done|]. cbn. rewrite IH; [done|cbn in Hl; lia]. Qed.

Lemma last_char_padded t x k : blank x = false -> forall n, (length t < n <= length t + 1 + k)%nat ->
  last_char (t ++ x :: replicate k 32) n = S (length t).
Proof.
  intros Hx n. induction n as [|n IH]; intros Hn; [lia|]. cbn [last_char]. rewrite lookup_app.
  destruct (decide (n = length t)) as [->|Hne].
  - rewrite lookup_ge_None_2, Nat.sub_diag by lia. cbn. by rewrite Hx.
  - rewrite lookup_ge_None_2 by lia. destruct (n - length t)%nat as [|i] eqn:Hi; [lia|]. rewrite lookup_cons_ne_0 by lia. cbn [Nat.pred].
    rewrite lookup_replicate_2 by lia. cbn [default blank orb Z.eqb Pos.eqb]. apply IH. lia.
Qed.

(** A name that is stored in pairs of swapped bytes and filled up with blanks comes back, provided there is room for one
    blank at least. *)
Theorem descramble_spec t x k : blank x = false -> (0 < k)%nat -> Nat.Even (length t + 1 + k) ->
  descramble_ata_string (swap_pairs (t ++ x :: replicate k 32)) = t ++ [x].
Proof.
  intros Hx Hk [n Hn]. unfold descramble_ata_string.
  assert (length (t ++ x :: replicate k 32) = (2 * n)%nat) as Hl by (rewrite length_app; cbn; rewrite length_replicate; lia).
  rewrite (swap_pairs_involutive n) by done. rewrite last_char_padded by (done || lia).
  replace (t ++ x :: replicate k 32) with ((t ++ [x]) ++ replicate k 32) by (by rewrite <- app_assoc).
  rewrite take_app_length'; [done|]. rewrite length_app. cbn. lia.
Qed.

Lemma descramble_spec_witness : descramble_ata_string (swap_pairs ([81; 69; 77] ++ 85 :: replicate 2 32)) = [81; 69; 77; 85].
Proof. apply (descramble_spec [81; 69; 77] 85 2); [done|lia|by exists 3%nat]. Defined.

(** A name that fills its field loses its last character. *)
Theorem descramble_full : descramble_ata_string (swap_pairs [81; 69; 77; 85]) = [81; 69; 77].
Proof. reflexivity. Qed.
