(* ===== verification/Shell.v ===== *)
(** The shell of project0: the job list of jobs.c, the parser of util.c, the shell with job control of msh.c, the prototype
    of psh.c, and the Fibonacci numbers of fib.c.

    The processes are those of the host: what [fork] returned and what [waitpid] reports are given, and what is sent with
    [kill] is recorded.  Signals arrive at points between the statements of the shell and of the handlers, and between the search for a job and the
    use of the pointer to it, as a schedule says.  While a handler runs its own signal waits and the others may interrupt it, as [Signal] of util.c
    asks for.  The routines of jobs.c are one step each; of the handlers only that of SIGCHLD changes more than a field with them. *)
From Stdlib Require Import ZArith Lia.
From stdpp Require Import base numbers list.
From S2P Require Import Prelude.

Local Open Scope Z_scope.

(** * The job list *)

Definition MAXJOBS : Z := 16.
Definition MAXLINE : Z := 1024.
Definition UNDEF : Z := 0.
Definition FG : Z := 1.
Definition BG : Z := 2.
Definition ST : Z := 3.
Definition SIGINT : Z := 2.
Definition SIGCONT : Z := 18.
Definition SIGTSTP : Z := 20.

Record job_t := mkJob { pid : Z; jid : Z; state : Z; cmdline : list Z }.

(** What a child did, as [waitpid] reports it. *)
Inductive wstatus := WExited (code : Z) | WSignaled (sig : Z) | WStopped (sig : Z).

Inductive event := SigChld (reports : list (Z * wstatus)) | SigInt | SigTstp.

(** What the shell prints and sends. *)
Inductive note :=
| NAdded (jid pid : Z) (cmdline : list Z)
| NTooMany
| NJob (jid pid state : Z) (cmdline : list Z)
| NStarted (jid pid : Z) (cmdline : list Z)
| NTerminated (jid pid sig : Z)
| NStopped (jid pid sig : Z)
| NArgument (cmd : list Z)
| NNumber (cmd : list Z)
| NNoJob (arg : list Z)
| NNoProcess (arg : list Z)
| NKill (pid sig : Z)
| NExec (argv : list (list Z)).

(** The static variables, whether SIGCHLD is blocked, the reports for a blocked SIGCHLD, the signals to come, a list for each
    point, and what was printed and sent, the first first. *)
Record shell := mkShell {
  jobs : list job_t;
  nextjid : Z;
  blocked : bool;
  pending : list (Z * wstatus);
  schedule : list (list event);
  output : list note
}.

Abbreviation hM := (st shell).

Definition set_job_state (v : Z) (j : job_t) : job_t := mkJob (pid j) (jid j) v (cmdline j).
Definition set_jobs (v : list job_t) (s : shell) : shell := mkShell v (nextjid s) (blocked s) (pending s) (schedule s) (output s).
Definition set_nextjid (v : Z) (s : shell) : shell := mkShell (jobs s) v (blocked s) (pending s) (schedule s) (output s).
Definition set_blocked (v : bool) (s : shell) : shell := mkShell (jobs s) (nextjid s) v (pending s) (schedule s) (output s).
Definition set_pending (v : list (Z * wstatus)) (s : shell) : shell := mkShell (jobs s) (nextjid s) (blocked s) v (schedule s) (output s).
Definition set_schedule (v : list (list event)) (s : shell) : shell := mkShell (jobs s) (nextjid s) (blocked s) (pending s) v (output s).
Definition set_output (v : list note) (s : shell) : shell := mkShell (jobs s) (nextjid s) (blocked s) (pending s) (schedule s) v.

Definition geth {A} (f : shell -> A) : hM A := fun s => Ok (f s, s).
Definition modifyh (f : shell -> shell) : hM unit := fun s => Ok (tt, f s).
Definition say (n : note) : hM unit := modifyh (fun s => set_output (output s ++ [n]) s).

Definition clearjob : job_t := mkJob 0 0 UNDEF [].

Definition initjobs : hM unit := modifyh (set_jobs (replicate (Z.to_nat MAXJOBS) clearjob)).

Definition maxjid (js : list job_t) : Z := foldl (fun max j => if max <? jid j then jid j else max) 0 js.

(** The first job with process [p]. *)
Definition find_pid (js : list job_t) (p : Z) : option (nat * job_t) := list_find (fun j => pid j = p) js.
Definition find_jid (js : list job_t) (n : Z) : option (nat * job_t) := list_find (fun j => jid j = n) js.

Section shell.
(** The option -v, and [atoi] of the host. *)
Context (verbose : bool) (atoi : list Z -> Z).

Definition addjob (p st : Z) (cmd : list Z) : hM bool :=
  if p <? 1 then mret false else
  js ← geth jobs;
  match find_pid js 0 with
  | Some (i, _) =>
      n ← geth nextjid;
      modifyh (set_jobs (<[i := mkJob p n st cmd]> js));;
      modifyh (set_nextjid (if MAXJOBS <? n + 1 then 1 else n + 1));;
      (if verbose then say (NAdded n p cmd) else mret tt);;
      mret true
  | None => say NTooMany;; mret false
  end.

Definition deletejob (p : Z) : hM bool :=
  if p <? 1 then mret false else
  js ← geth jobs;
  match find_pid js p with
  | Some (i, _) =>
      let js := <[i := clearjob]> js in
      modifyh (set_jobs js);; modifyh (set_nextjid (maxjid js + 1));; mret true
  | None => mret false
  end.

Definition fgpid (js : list job_t) : Z :=
  match list_find (fun j => state j = FG) js with Some (_, j) => pid j | None => 0 end.

Definition getjobpid (js : list job_t) (p : Z) : option (nat * job_t) := if p <? 1 then None else find_pid js p.
Definition getjobjid (js : list job_t) (n : Z) : option (nat * job_t) := if n <? 1 then None else find_jid js n.
Definition pid2jid (js : list job_t) (p : Z) : Z := if p <? 1 then 0 else match find_pid js p with Some (_, j) => jid j | None => 0 end.

Definition listjobs : hM unit :=
  js ← geth jobs;
  modifyh (fun s => set_output (output s ++ omap (fun j => if pid j =? 0 then None else Some (NJob (jid j) (pid j) (state j) (cmdline j))) js) s).

(** * Signal handlers *)

Section handlers.
(** The signals that may arrive between two steps. *)
Context (pt : hM unit).

(** [getjobpid (jobs, p)->state = st]: the pointer, and then the store through it; a null pointer is a fault. *)
Definition set_state (p st : Z) : hM unit :=
  js ← geth jobs;
  match getjobpid js p with
  | Some (i, _) => pt;; modifyh (fun s => set_jobs (alter (set_job_state st) i (jobs s)) s)
  | None => st_fail EFault
  end.

(** [*ptr] for a pointer to an element of [jobs] or null, which may have changed since. *)
Definition deref (ptr : option (nat * job_t)) : hM job_t :=
  match ptr with
  | Some (i, _) => pt;; js ← geth jobs; match js !! i with Some j => mret j | None => st_fail EFault end
  | None => st_fail EFault
  end.

(** [*getjobpid (jobs, p)]. *)
Definition the_job (p : Z) : hM job_t := js ← geth jobs; deref (getjobpid js p).

(** The child was killed or stopped by [sig]: the message to print, [msg] if there is none for this signal. *)
Definition child_signal (p j sig : Z) (msg : option note) : hM (option note) :=
  if sig =? SIGINT then deletejob p;; mret (Some (NTerminated j p sig))
  else if sig =? SIGTSTP then set_state p ST;; mret (Some (NStopped j p sig))
  else mret msg.

(** The loop over what [waitpid] reports; [msg] is the buffer for the message, which is not emptied between two children. *)
Fixpoint reap (reports : list (Z * wstatus)) (msg : option note) : hM unit :=
  match reports with
  | [] => mret tt
  | (p, w) :: reports =>
      js ← geth jobs;
      let j := pid2jid js p in
      pt;;
      msg ← (match w with
             | WExited _ => deletejob p;; mret msg
             | WSignaled sig => child_signal p j sig msg
             | WStopped sig => child_signal p j sig msg
             end);
      pt;;
      (match msg with Some m => say m | None => mret tt end);;
      reap reports msg
  end.

Definition sigchld_handler (reports : list (Z * wstatus)) : hM unit := reap reports None.

Definition sigint_handler : hM unit :=
  js ← geth jobs;
  if fgpid js =? 0 then mret tt else pt;; say (NKill (fgpid js * -1) SIGINT).

Definition sigtstp_handler : hM unit :=
  js ← geth jobs;
  let p := fgpid js in
  if p =? 0 then mret tt else pt;; set_state p ST;; pt;; say (NKill (p * -1) SIGTSTP).

Definition handler (e : event) : hM unit :=
  match e with SigChld rs => sigchld_handler rs | SigInt => sigint_handler | SigTstp => sigtstp_handler end.
End handlers.

Definition SIGCHLD : Z := 17.

Definition signo (e : event) : Z := match e with SigChld _ => SIGCHLD | SigInt => SIGINT | SigTstp => SIGTSTP end.

(** A signal arrives; [run] runs its handler. *)
Definition deliver (run : event -> hM unit) (e : event) : hM unit :=
  match e with
  | SigChld rs => b ← geth blocked; if b : bool then modifyh (fun s => set_pending (pending s ++ rs) s) else run e
  | _ => run e
  end.

Fixpoint deliver_all (run : event -> hM unit) (es : list event) : hM unit :=
  match es with
  | [] => mret tt
  | e :: es => deliver run e;; deliver_all run es
  end.

(** A point between two steps, when the handlers of the signals [masked] are running: a signal whose handler runs does not arrive before the
    handler has returned.  There are three signals, so that handlers nest less than four deep. *)
Fixpoint signals (depth : nat) (masked : list Z) : hM unit :=
  match depth with
  | O => mret tt
  | S depth =>
      sch ← geth schedule;
      match sch with
      | [] => mret tt
      | es :: sch =>
          modifyh (set_schedule sch);;
          deliver_all (fun e => handler (signals depth (signo e :: masked)) e) (filter (fun e => signo e ∉ masked) es)
      end
  end.

(** A point between two statements of the shell, and one of the handler of SIGCHLD. *)
Definition point : hM unit := signals 4 [].
Definition point_chld : hM unit := signals 3 [SIGCHLD].

Definition block_sigchld : hM unit := modifyh (set_blocked true).

(** What is pending is delivered at once. *)
Definition unblock_sigchld : hM unit :=
  modifyh (set_blocked false);;
  rs ← geth pending;
  modifyh (set_pending []);;
  match rs with [] => mret tt | _ => sigchld_handler point_chld rs end.

(** * Commands *)

(** Waits for [n] seconds at most. *)
Fixpoint waitfg (n : nat) (p : Z) : hM unit :=
  match n with
  | O => st_fail EFuel
  | S n =>
      js ← geth jobs;
      match getjobpid js p with
      | None => mret tt
      | Some _ =>
          point;;
          j ← the_job point p;
          if state j =? FG then point;; waitfg n p else mret tt
      end
  end.

Definition bg_name : list Z := [98; 103].
Definition fg_name : list Z := [102; 103].
Definition quit_name : list Z := [113; 117; 105; 116].
Definition jobs_name : list Z := [106; 111; 98; 115].

(** The part that is the same for a job and for a process; [shown j] is the number that is printed. *)
Definition resume (n : nat) (cmd : list Z) (p : Z) (shown : job_t -> Z) : hM unit :=
  if decide (cmd = fg_name) then
    set_state point p FG;; point;; say (NKill (p * -1) SIGCONT);; point;; waitfg n p
  else if decide (cmd = bg_name) then
    set_state point p BG;; point;; say (NKill (p * -1) SIGCONT);; point;;
    j ← the_job point p; say (NStarted (shown j) p (cmdline j))
  else mret tt.

(** The argument is [%] and a job number. *)
Definition bgfg_jid (n : nat) (cmd num : list Z) : hM unit :=
  let jobJID := atoi num in
  if jobJID =? 0 then say (NNumber cmd) else
  js ← geth jobs;
  match getjobjid js jobJID with
  | Some _ =>
      point;;
      js ← geth jobs;
      j ← deref point (getjobjid js jobJID);
      point;; resume n cmd (pid j) (fun _ => jobJID)
  | None => say (NNoJob (37 :: num))
  end.

(** The argument is a process. *)
Definition bgfg_pid (n : nat) (cmd arg : list Z) : hM unit :=
  let jobPID := atoi arg in
  if jobPID =? 0 then say (NNumber cmd) else
  js ← geth jobs;
  match getjobpid js jobPID with
  | Some _ => point;; resume n cmd jobPID jid
  | None => say (NNoProcess arg)
  end.

Definition do_bgfg (n : nat) (argv : list (list Z)) : hM unit :=
  match argv with
  | [] => st_fail EFault
  | [cmd] => say (NArgument cmd)
  | cmd :: arg :: _ =>
      match arg with
      | c :: num => if c =? 37 then bgfg_jid n cmd num else bgfg_pid n cmd arg
      | [] => bgfg_pid n cmd []
      end
  end.

Inductive builtin := NotBuiltin | Executed | Exits.

Definition builtin_cmd (n : nat) (argv : list (list Z)) : hM builtin :=
  match argv with
  | [] => st_fail EFault
  | cmd :: _ =>
      if decide (cmd = quit_name) then mret Exits
      else if decide (cmd = jobs_name) then listjobs;; mret Executed
      else if decide (cmd = bg_name) then do_bgfg n argv;; mret Executed
      else if decide (cmd = fg_name) then do_bgfg n argv;; mret Executed
      else mret NotBuiltin
  end.

(** * The parser *)

Fixpoint skip_spaces (buf : list Z) : list Z :=
  match buf with
  | c :: buf' => if c =? 32 then skip_spaces buf' else buf
  | [] => []
  end.

(** [strchr (buf, c)]: what is before and what is behind the first [c]. *)
Fixpoint split_at (c : Z) (buf : list Z) : option (list Z * list Z) :=
  match buf with
  | [] => None
  | x :: buf => if x =? c then Some ([], buf) else r ← split_at c buf; Some (x :: r.1, r.2)
  end.

(** Where the argument starts, and the character that ends it. *)
Definition argument (buf : list Z) : list Z * Z :=
  match buf with
  | c :: buf' => if c =? 39 then (buf', 39) else (buf, 32)
  | [] => ([], 32)
  end.

(** The arguments, from the [argc]th on; [argv] has room for 50 pointers, the null pointer at the end included. *)
Fixpoint parse_loop (fuel : nat) (argc : Z) (buf : list Z) : res (list (list Z)) :=
  match fuel with
  | O => Err EFuel
  | S fuel =>
      let '(buf, delim) := argument (skip_spaces buf) in
      if 50 <=? argc then Err EFault else
      match split_at delim buf with
      | None => Ok []
      | Some (arg, buf) => args ← parse_loop fuel (argc + 1) buf; Ok (arg :: args)
      end
  end.

(** The arguments, and whether the job is to run in the background. *)
Definition parseline (cmd : list Z) : res (list (list Z) * bool) :=
  match cmd with
  | [] => Err EUndef
  | _ =>
      let buf := removelast cmd ++ [32] in
      args ← parse_loop (S (length buf)) 0 buf;
      match last args with
      | None => Ok ([], true)
      | Some a => if default 0 (head a) =? 38 then Ok (removelast args, true) else Ok (args, false)
      end
  end.

(** * The shell with job control *)

Definition lift_res {A} (r : res A) : hM A := fun s => match r with Ok a => Ok (a, s) | Err e => Err e end.

(** Evaluates a line; [child] is what [fork] returns.  Whether the shell goes on. *)
Definition eval (n : nat) (cmd : list Z) (child : Z) : hM bool :=
  r ← lift_res (parseline cmd);
  let '(argv, backgroundp) := r in
  match argv with
  | [] => mret true
  | _ =>
      b ← builtin_cmd n argv;
      match b with
      | Exits => mret false
      | Executed => mret true
      | NotBuiltin =>
          block_sigchld;; point;;
          say (NExec argv);; point;;
          if backgroundp : bool then
            addjob child BG cmd;; point;;
            unblock_sigchld;; point;;
            js ← geth jobs; say (NStarted (pid2jid js child) child cmd);; mret true
          else
            addjob child FG cmd;; point;;
            unblock_sigchld;; point;;
            waitfg n child;; mret true
      end
  end.

(** The loop of [main] over the lines that are typed. *)
Fixpoint read_eval (n : nat) (lines : list (list Z * Z)) : hM bool :=
  match lines with
  | [] => mret true
  | (cmd, child) :: lines => go ← eval n cmd child; if go : bool then point;; read_eval n lines else mret false
  end.

Definition main (n : nat) (lines : list (list Z * Z)) : hM bool := initjobs;; read_eval n lines.
End shell.

(** * The prototype shell *)

(** [eval] of psh.c: the program that is run and waited for, or [None] when the shell ends. *)
Definition psh_eval (cmd : list Z) : res (option (list (list Z))) :=
  r ← parseline cmd;
  match r.1 with
  | [] => Err EFault
  | c :: _ => if decide (c = quit_name) then Ok None else Ok (Some r.1)
  end.

(** * Fibonacci numbers *)

(** What the parent sees of the value that a child exits with. *)
Definition WEXITSTATUS (v : Z) : Z := v mod 256.

(** The value that the process for [n] computes from those of its two children. *)
Fixpoint doFib (n : nat) : Z :=
  match n with
  | O => 0
  | S m => match m with O => 1 | S k => WEXITSTATUS (doFib m) + WEXITSTATUS (doFib k) end
  end.

(** What [main] prints; [None] when the number is refused. *)
Definition fib_main (arg : Z) : option Z := if (arg <? 0) || (13 <? arg) then None else Some (doFib (Z.to_nat arg)).

Fixpoint fib (n : nat) : Z :=
  match n with
  | O => 0
  | S m => match m with O => 1 | S k => fib m + fib k end
  end.

(** * What signals do to the job list *)

(** An entry later on: it is free or has the same process, and it is not in the foreground unless it was. *)
Definition later (j j' : job_t) : Prop := (pid j' = 0 \/ pid j' = pid j) /\ (state j' = state j \/ state j' <> FG).

Definition evolves : relation (list job_t) := Forall2 later.

#[export] Instance later_preorder : PreOrder later.
Proof.
  split; [intros j; split; auto|]. intros j1 j2 j3 [H1 H2] [H3 H4].
  split; [destruct H3 as [H3|H3]; [by left|rewrite H3; done]|destruct H4 as [H4|H4]; [rewrite H4; done|by right]].
Qed.

#[export] Instance evolves_preorder : PreOrder evolves.
Proof. unfold evolves. split; apply _. Qed.

Lemma evolves_insert js i j j' : js !! i = Some j -> later j j' -> evolves js (<[i := j']> js).
Proof. intros Hi Hj. rewrite <- (list_insert_id js i j) at 1 by done. by apply Forall2_insert. Qed.

(** A routine after which the job list has evolved so. *)
Definition evolving {A} (m : st shell A) : Prop := forall s a s', m s = Ok (a, s') -> evolves (jobs s) (jobs s').

Lemma evolving_bind {A B} (m : st shell A) (k : A -> st shell B) : evolving m -> (forall a, evolving (k a)) -> evolving (m ≫= k).
Proof. intros Hm Hk s b s' (a & s1 & H1 & H2)%run_bind_inv. etrans; [by eapply Hm|by eapply Hk]. Qed.

Lemma evolving_ret {A} (a : A) : evolving (mret a).
Proof. intros s b s' H. by injection H as <- <-. Qed.

Lemma evolving_fail {A} e : evolving (st_fail e : st shell A).
Proof. done. Qed.

Lemma evolving_get {A} (f : shell -> A) : evolving (geth f).
Proof. intros s b s' H. by injection H as <- <-. Qed.

Lemma evolving_modify f : (forall s, jobs (f s) = jobs s) -> evolving (modifyh f).
Proof. intros Hf s b s' H. injection H as <- <-. by rewrite Hf. Qed.

Lemma evolving_say n : evolving (say n).
Proof. by apply evolving_modify. Qed.

Create HintDb evolving.
#[export] Hint Resolve evolving_bind evolving_ret evolving_fail evolving_get evolving_say : evolving.
#[export] Hint Extern 2 (evolving (modifyh _)) => apply evolving_modify; done : evolving.
#[export] Hint Extern 2 (evolving (match ?x with _ => _ end)) => destruct x : evolving.

(** A job that is found is there, with its process. *)
Lemma find_pid_Some js p i j : find_pid js p = Some (i, j) -> js !! i = Some j /\ pid j = p.
Proof. intros (Hi & Hp & _)%list_find_Some. done. Qed.

Lemma getjobpid_Some js p i j : getjobpid js p = Some (i, j) -> js !! i = Some j /\ pid j = p /\ 1 <= p.
Proof. unfold getjobpid. case_match eqn:E; [done|]. apply Z.ltb_ge in E. intros [H1 H2]%find_pid_Some. done. Qed.

Lemma evolving_deletejob p : evolving (deletejob p).
Proof.
  intros s b s' H. unfold deletejob in H. destruct (p <? 1); [by injection H as <- <-|].
  apply run_bind_inv in H as (js & s1 & H1 & H2). injection H1 as <- <-.
  destruct (find_pid (jobs s) p) as [[i j]|] eqn:Hf; [|by injection H2 as <- <-]. apply find_pid_Some in Hf as [Hi _].
  injection H2 as <- <-. cbn. eapply evolves_insert; [done|]. split; [by left|by right].
Qed.

Lemma evolves_alter js i f : (forall j, later j (f j)) -> evolves js (alter f i js).
Proof.
  intros Hf. apply Forall2_lookup. intros k. rewrite list_lookup_alter. case_decide; [subst k; destruct (js !! i)|destruct (js !! k)]; cbn; by constructor.
Qed.

Lemma evolving_store st i : st <> FG -> evolving (modifyh (fun s => set_jobs (alter (set_job_state st) i (jobs s)) s)).
Proof. intros Hst s b s' H. injection H as <- <-. cbn. apply evolves_alter. intros j. split; auto. Qed.

Section evolving_handlers.
Context (pt : st shell unit) (Hpt : evolving pt).

Lemma evolving_set_state p st : st <> FG -> evolving (set_state pt p st).
Proof using Hpt.
  intros Hst. unfold set_state. apply evolving_bind; [apply evolving_get|intros js]. destruct (getjobpid js p) as [[i j]|]; [|apply evolving_fail].
  apply evolving_bind; [done|intros _]. by apply evolving_store.
Qed.

Lemma evolving_deref ptr : evolving (deref pt ptr).
Proof using Hpt. unfold deref. destruct ptr as [[i j]|]; auto 10 with evolving. Qed.

Lemma evolving_the_job p : evolving (the_job pt p).
Proof using Hpt. unfold the_job. apply evolving_bind; [apply evolving_get|intros js; apply evolving_deref]. Qed.

Hint Resolve evolving_deletejob : evolving.
Hint Extern 1 (evolving (set_state _ _ _)) => apply evolving_set_state; done : evolving.

Lemma evolving_child_signal p j sig msg : evolving (child_signal pt p j sig msg).
Proof using Hpt. unfold child_signal. auto 10 with evolving. Qed.
Hint Resolve evolving_child_signal : evolving.

Lemma evolving_reap rs : forall msg, evolving (reap pt rs msg).
Proof using Hpt. induction rs as [|[p w] rs IH]; intros msg; cbn [reap]; auto 20 with evolving. Qed.

Lemma evolving_handler e : evolving (handler pt e).
Proof using Hpt. unfold handler, sigchld_handler, sigint_handler, sigtstp_handler. destruct e; [apply evolving_reap|..]; auto 20 with evolving. Qed.
End evolving_handlers.

Lemma evolving_deliver run e : (forall e, evolving (run e)) -> evolving (deliver run e).
Proof. intros Hrun. unfold deliver. destruct e; auto 20 with evolving. Qed.

Lemma evolving_deliver_all run es : (forall e, evolving (run e)) -> evolving (deliver_all run es).
Proof. intros Hrun. induction es; cbn [deliver_all]; [apply evolving_ret|]. apply evolving_bind; [by apply evolving_deliver|done]. Qed.

Lemma evolving_signals d : forall masked, evolving (signals d masked).
Proof.
  induction d as [|d IH]; intros masked; cbn [signals]; [apply evolving_ret|]. apply evolving_bind; [apply evolving_get|intros sch].
  destruct sch as [|es sch]; [apply evolving_ret|]. apply evolving_bind; [by apply evolving_modify|intros _].
  apply evolving_deliver_all. intros e. apply evolving_handler, IH.
Qed.

Lemma evolving_point : evolving point.
Proof. apply evolving_signals. Qed.

Lemma evolving_unblock : evolving unblock_sigchld.
Proof.
  unfold unblock_sigchld. do 3 (apply evolving_bind; [auto with evolving|intros ?]). case_match; [apply evolving_ret|].
  exact (evolving_handler point_chld (evolving_signals 3 [SIGCHLD]) (SigChld _)).
Qed.
#[export] Hint Resolve evolving_deletejob evolving_point evolving_unblock : evolving.
#[export] Hint Extern 1 (evolving (set_state _ _ _)) => apply evolving_set_state; [apply evolving_point|done] : evolving.
#[export] Hint Extern 1 (evolving (the_job _ _)) => apply evolving_the_job, evolving_point : evolving.

Lemma evolving_waitfg n p : evolving (waitfg n p).
Proof. induction n; cbn [waitfg]; auto 20 with evolving. Qed.
#[export] Hint Resolve evolving_waitfg : evolving.

(** * The foreground *)

(** The processes of the jobs are distinct. *)
Definition table_ok (js : list job_t) : Prop :=
  (forall i j, js !! i = Some j -> 0 <= pid j) /\
  (forall i1 i2 j1 j2, js !! i1 = Some j1 -> js !! i2 = Some j2 -> pid j1 = pid j2 -> pid j1 <> 0 -> i1 = i2).

(** Only the job of process [p] can be in the foreground, but for free entries. *)
Definition fg_only (p : Z) (js : list job_t) : Prop := forall i j, js !! i = Some j -> state j = FG -> pid j = p \/ pid j = 0.

(** No job is in the foreground: an entry in this state is free. *)
Definition none_fg (js : list job_t) : Prop := forall i j, js !! i = Some j -> state j = FG -> pid j = 0.

(** The processes of the jobs are among [ps]. *)
Definition known (ps : list Z) (js : list job_t) : Prop := forall i j, js !! i = Some j -> pid j = 0 \/ pid j ∈ ps.

(** The shell reads a line, or waits for the job of process [p]. *)
Definition prompt (ps : list Z) (s : shell) : Prop := table_ok (jobs s) /\ none_fg (jobs s) /\ known ps (jobs s).
Definition waiting (p : Z) (ps : list Z) (s : shell) : Prop := table_ok (jobs s) /\ fg_only p (jobs s) /\ known ps (jobs s).

Lemma evolves_lookup js js' i j' : evolves js js' -> js' !! i = Some j' -> exists j, js !! i = Some j /\ later j j'.
Proof. intros H Hi. destruct (Forall2_lookup_r _ _ _ _ _ H Hi) as (j & Hj & Hl). eauto. Qed.

Lemma evolves_table js js' : evolves js js' -> table_ok js -> table_ok js'.
Proof.
  intros He [H1 H2]. split.
  - intros i j' (j & Hj & [[-> | ->] _])%(evolves_lookup js _ _ _ He); [done|by eapply H1].
  - intros i1 i2 j1' j2' (j1 & Hj1 & [Hl1 _])%(evolves_lookup js _ _ _ He) (j2 & Hj2 & [Hl2 _])%(evolves_lookup js _ _ _ He) Hp Hn.
    destruct Hl1 as [|E1]; [done|]. destruct Hl2 as [|E2]; [congruence|]. eapply H2; [done|done|congruence|congruence].
Qed.

Lemma evolves_fg_only p js js' : evolves js js' -> fg_only p js -> fg_only p js'.
Proof.
  intros He Hp i j' (j & Hj & [Hl [Hs|Hs]])%(evolves_lookup js _ _ _ He) Hf; [|done].
  destruct Hl as [|E]; [by right|]. rewrite E. eapply Hp; [done|congruence].
Qed.

Lemma evolves_none_fg js js' : evolves js js' -> none_fg js -> none_fg js'.
Proof.
  intros He Hp i j' (j & Hj & [Hl [Hs|Hs]])%(evolves_lookup js _ _ _ He) Hf; [|done].
  destruct Hl as [|E]; [done|]. rewrite E. eapply Hp; [done|congruence].
Qed.

Lemma evolves_known ps js js' : evolves js js' -> known ps js -> known ps js'.
Proof. intros He Hp i j' (j & Hj & [[Hz|Hz] _])%(evolves_lookup js _ _ _ He); [by left|]. rewrite Hz. by eapply Hp. Qed.

Lemma evolving_prompt {A} (m : st shell A) ps s a s' : evolving m -> m s = Ok (a, s') -> prompt ps s -> prompt ps s'.
Proof.
  intros Hm H%Hm (H1 & H2 & H3). split_and!; [by eapply evolves_table|by eapply evolves_none_fg|by eapply evolves_known].
Qed.

Lemma evolving_waiting {A} (m : st shell A) p ps s a s' : evolving m -> m s = Ok (a, s') -> waiting p ps s -> waiting p ps s'.
Proof.
  intros Hm H%Hm (H1 & H2 & H3). split_and!; [by eapply evolves_table|by eapply evolves_fg_only|by eapply evolves_known].
Qed.

(** Later on the entry of process [p] is still the only one that can be its job. *)
Lemma evolves_entry p ps s s' i j : waiting p ps s -> getjobpid (jobs s) p = Some (i, j) -> evolves (jobs s) (jobs s') ->
  waiting p ps s' /\ exists j', jobs s' !! i = Some j' /\ later j j' /\ forall k j2, jobs s' !! k = Some j2 -> pid j2 = p -> k = i.
Proof.
  intros (Ht & Hf & Hk) (Hi & Hp & Hp1)%getjobpid_Some He.
  split; [split_and!; [by eapply evolves_table|by eapply evolves_fg_only|by eapply evolves_known]|].
  destruct (Forall2_lookup_l _ _ _ _ _ He Hi) as (j' & Hj' & Hl). exists j'. split_and!; [done|done|].
  intros k j2 (j0 & Hj0 & [[|E] _])%(evolves_lookup _ _ _ _ He) Hp2; [lia|]. apply (proj2 Ht k i j0 j); [done|done|congruence|lia].
Qed.

(** The job that is read through the pointer. *)
Lemma the_job_inv pt p s j s' : the_job pt p s = Ok (j, s') ->
  exists i j0, getjobpid (jobs s) p = Some (i, j0) /\ pt s = Ok (tt, s') /\ jobs s' !! i = Some j.
Proof.
  unfold the_job, deref. intros (js & s1 & H1 & H)%run_bind_inv. injection H1 as <- <-.
  destruct (getjobpid (jobs s) p) as [[i j0]|]; [|done]. apply run_bind_inv in H as ([] & s1 & H1 & H).
  apply run_bind_inv in H as (js & s2 & H2 & H). injection H2 as <- <-. destruct (jobs s1 !! i) as [j'|] eqn:Hj; [|done].
  injection H as <- <-. eauto.
Qed.

(** When the wait for a job is over, no job is in the foreground. *)
Lemma waitfg_prompt n p ps : forall s s', waitfg n p s = Ok (tt, s') -> waiting p ps s -> prompt ps s'.
Proof.
  induction n as [|n IH]; intros s s' H Hw; [done|]. cbn [waitfg] in H.
  apply run_bind_inv in H as (js & s1 & H1 & H). injection H1 as <- <-. destruct (getjobpid (jobs s) p) as [ij|] eqn:Hg.
  - apply run_bind_inv in H as ([] & s1 & H1 & H). apply (evolving_waiting _ _ _ _ _ _ evolving_point H1) in Hw.
    apply run_bind_inv in H as (j & s2 & (i & j0 & Hj0 & H2 & Hj)%the_job_inv & H).
    destruct (evolves_entry _ _ _ _ _ _ Hw Hj0 (evolving_point _ _ _ H2)) as (Hw2 & j' & Hj' & _ & Hu). rewrite Hj in Hj'. injection Hj' as <-.
    destruct (Z.eqb_spec (state j) FG) as [E|E].
    + apply run_bind_inv in H as ([] & s3 & H3 & H). eapply IH; [done|]. by eapply evolving_waiting; [apply evolving_point|..].
    + injection H as <-. destruct Hw2 as (Ht & Hf & Hk). split_and!; [done| |done]. intros k j2 Hk2 Hs2.
      destruct (Hf _ _ Hk2 Hs2) as [Hp|]; [|done]. rewrite (Hu _ _ Hk2 Hp) in Hk2. congruence.
  - injection H as <-. destruct Hw as (Ht & Hf & Hk). split_and!; [done| |done]. intros i j Hi Hs.
    destruct (Hf _ _ Hi Hs) as [Hp|]; [|done]. pose proof (proj1 Ht _ _ Hi) as H0. unfold getjobpid in Hg. case_match eqn:E.
    + apply Z.ltb_lt in E. lia.
    + apply list_find_None in Hg. rewrite Forall_lookup in Hg. by destruct (Hg _ _ Hi).
Qed.

(** ** Bringing a job to the foreground *)

Lemma waiting_prompt p ps s : prompt ps s -> waiting p ps s.
Proof. intros (H1 & H2 & H3). split_and!; [done| |done]. intros i j Hi Hs. right. by eapply H2. Qed.

Lemma set_state_waiting p ps s s' : set_state point p FG s = Ok (tt, s') -> prompt ps s -> waiting p ps s'.
Proof.
  intros H Hpr%(waiting_prompt p). unfold set_state in H. apply run_bind_inv in H as (js & s1 & E & H). injection E as <- <-.
  destruct (getjobpid (jobs s) p) as [[i j]|] eqn:Hj; [|done]. apply run_bind_inv in H as ([] & s1 & H1 & H). injection H as <-.
  destruct (evolves_entry _ _ _ _ _ _ Hpr Hj (evolving_point _ _ _ H1)) as ((Ht & Hf & Hk) & j' & Hj' & [Hl _] & _).
  apply getjobpid_Some in Hj as (_ & Hp & _).
  assert (forall k j2, alter (set_job_state FG) i (jobs s1) !! k = Some j2 ->
    exists j1, jobs s1 !! k = Some j1 /\ pid j2 = pid j1 /\ (k = i \/ j2 = j1)) as Hold.
  { intros k j2. rewrite list_lookup_alter. case_decide as Hki; [|eauto]. subst k. rewrite Hj'. intros [= <-]. exists j'. auto. }
  unfold waiting. cbn [jobs set_jobs]. split_and!; [split| |].
  - intros k j2 (j1 & Hj1 & -> & _)%Hold. by eapply (proj1 Ht).
  - intros k1 k2 j1 j2 (a1 & Ha1 & E1 & _)%Hold (a2 & Ha2 & E2 & _)%Hold He Hn. eapply (proj2 Ht); [done|done|congruence|congruence].
  - intros k j2 (j1 & Hj1 & E & [-> | ->])%Hold Hs; [|by eapply Hf]. rewrite Hj' in Hj1. injection Hj1 as <-. rewrite E, <- Hp. tauto.
  - intros k j2 (j1 & Hj1 & -> & _)%Hold. by eapply Hk.
Qed.

Lemma addjob_waiting v p st cmd ps s b s' : addjob v p st cmd s = Ok (b, s') -> p ∉ ps -> prompt ps s ->
  waiting p (p :: ps) s' /\ (st <> FG -> prompt (p :: ps) s').
Proof.
  intros H Hfresh Hpr. assert (prompt (p :: ps) s) as Hpr'.
  { destruct Hpr as (H1 & H2 & H3). split_and!; [done|done|]. intros i j [|]%H3; [by left|right; by apply elem_of_cons; right]. }
  unfold addjob in H. destruct (p <? 1) eqn:E; [injection H as <- <-; split; [by apply waiting_prompt|done]|]. apply Z.ltb_ge in E.
  apply run_bind_inv in H as (js & s1 & E1 & H). injection E1 as <- <-.
  destruct (find_pid (jobs s) 0) as [[i j]|] eqn:Hj; [|injection H as <- <-; split; [by apply waiting_prompt|done]].
  apply run_bind_inv in H as (nx & s1 & E1 & H). injection E1 as <- <-.
  assert (jobs s' = <[i := mkJob p (nextjid s) st cmd]> (jobs s)) as Hjobs by (destruct v; injection H as <- <-; done). clear H.
  apply find_pid_Some in Hj as [Hi Hp]. pose proof (lookup_lt_Some _ _ _ Hi) as Hlt.
  destruct Hpr as (H1 & H2 & H3), Hpr' as (_ & _ & H3').
  assert (forall k j', jobs s' !! k = Some j' -> (k = i /\ j' = mkJob p (nextjid s) st cmd) \/ (k <> i /\ jobs s !! k = Some j')) as Hold.
  { intros k j'. rewrite Hjobs. destruct (decide (k = i)) as [-> |Hne].
    - rewrite list_lookup_insert_eq by done. intros [= <-]. auto.
    - rewrite list_lookup_insert_ne by done. auto. }
  assert (forall k j', jobs s !! k = Some j' -> pid j' <> p) as Hnew by (intros k j' [Hz|Hz]%H3 Hq; [lia|by rewrite Hq in Hz]).
  assert (table_ok (jobs s') /\ known (p :: ps) (jobs s')) as [Ht Hk].
  { split; [split|].
    - intros k j' [[-> ->]|[_ Hk]]%Hold; [cbn; lia|]. by eapply (proj1 H1).
    - intros k1 k2 j1 j2 [[-> ->]|[N1 Hk1]]%Hold [[-> ->]|[N2 Hk2]]%Hold He Hn; cbn in *; [done| | |by eapply (proj2 H1)].
      + by destruct (Hnew _ _ Hk2).
      + by destruct (Hnew _ _ Hk1).
    - intros k j' [[-> ->]|[_ Hk]]%Hold; [right; cbn; apply elem_of_cons; by left|]. by eapply H3'. }
  split; [|intros Hst]; (split_and!; [done| |done]).
  - intros k j' [[-> ->]|[_ Hj']]%Hold Hs; [by left|]. right. by eapply H2.
  - intros k j' [[-> ->]|[_ Hj']]%Hold; [done|]. by eapply H2.
Qed.

(** ** Commands *)

Lemma resume_prompt n cmd p shown ps s s' : resume n cmd p shown s = Ok (tt, s') -> prompt ps s -> prompt ps s'.
Proof.
  intros H Hp. unfold resume in H. destruct (decide (cmd = fg_name)).
  - apply run_bind_inv in H as ([] & s1 & H1 & H). apply (set_state_waiting _ ps _ _ H1) in Hp.
    apply run_bind_inv in H as ([] & s2 & H2 & H). apply (evolving_waiting _ _ _ _ _ _ evolving_point H2) in Hp.
    apply run_bind_inv in H as ([] & s3 & H3 & H). apply (evolving_waiting _ _ _ _ _ _ (evolving_say _) H3) in Hp.
    apply run_bind_inv in H as ([] & s4 & H4 & H). apply (evolving_waiting _ _ _ _ _ _ evolving_point H4) in Hp.
    by eapply waitfg_prompt.
  - revert H Hp. apply evolving_prompt. auto 20 with evolving.
Qed.

Lemma bgfg_pid_prompt atoi n cmd arg ps s s' : bgfg_pid atoi n cmd arg s = Ok (tt, s') -> prompt ps s -> prompt ps s'.
Proof.
  unfold bgfg_pid. destruct (atoi arg =? 0); [apply evolving_prompt; auto with evolving|].
  intros (js & s1 & E1 & H)%run_bind_inv Hp. injection E1 as <- <-.
  destruct (getjobpid (jobs s) (atoi arg)); [|revert H Hp; apply evolving_prompt; auto with evolving].
  apply run_bind_inv in H as ([] & s1 & E1 & H). eapply resume_prompt; [done|]. by eapply evolving_prompt; [apply evolving_point|..].
Qed.

Lemma bgfg_jid_prompt atoi n cmd num ps s s' : bgfg_jid atoi n cmd num s = Ok (tt, s') -> prompt ps s -> prompt ps s'.
Proof.
  unfold bgfg_jid. destruct (atoi num =? 0); [apply evolving_prompt; auto with evolving|].
  intros (js & s1 & E1 & H)%run_bind_inv Hp. injection E1 as <- <-.
  destruct (getjobjid (jobs s) (atoi num)); [|revert H Hp; apply evolving_prompt; auto with evolving].
  apply run_bind_inv in H as ([] & s1 & E1 & H). apply (evolving_prompt _ _ _ _ _ evolving_point E1) in Hp.
  apply run_bind_inv in H as (js & s2 & E2 & H). injection E2 as <- <-.
  apply run_bind_inv in H as (j & s2 & E2 & H). apply (evolving_prompt _ _ _ _ _ (evolving_deref _ evolving_point _) E2) in Hp.
  apply run_bind_inv in H as ([] & s3 & E3 & H). eapply resume_prompt; [done|]. by eapply evolving_prompt; [apply evolving_point|..].
Qed.

Lemma builtin_prompt atoi n argv ps s b s' : builtin_cmd atoi n argv s = Ok (b, s') -> prompt ps s -> prompt ps s'.
Proof.
  assert (forall s s', do_bgfg atoi n argv s = Ok (tt, s') -> prompt ps s -> prompt ps s') as Hbgfg.
  { intros t t'. unfold do_bgfg. destruct argv as [|cmd [|[|c num] rest]]; [done|apply evolving_prompt; auto with evolving|apply bgfg_pid_prompt|].
    destruct (c =? 37); [apply bgfg_jid_prompt|apply bgfg_pid_prompt]. }
  unfold builtin_cmd. destruct argv as [|cmd rest]; [done|]. destruct (decide _); [apply evolving_prompt; auto with evolving|].
  destruct (decide _); [apply evolving_prompt; unfold listjobs; auto 10 with evolving|].
  destruct (decide _); [|destruct (decide _); [|apply evolving_prompt; auto with evolving]];
    intros ([] & s1 & H1 & H)%run_bind_inv Hp; injection H as <- <-; by eapply Hbgfg.
Qed.

Lemma prompt_more p ps s : prompt ps s -> prompt (p :: ps) s.
Proof. intros (H1 & H2 & H3). split_and!; [done|done|]. intros i j [|]%H3; [by left|right; by apply elem_of_cons; right]. Qed.

Lemma eval_prompt v atoi n cmd child ps s b s' :
  eval v atoi n cmd child s = Ok (b, s') -> child ∉ ps -> prompt ps s -> prompt (child :: ps) s'.
Proof.
  intros (r & s0 & H0 & H)%run_bind_inv Hc Hp. unfold lift_res in H0. destruct (parseline cmd) as [r'|]; [|done].
  injection H0 as <- <-. destruct r' as [argv bg]. destruct argv as [|a argv]; [injection H as <- <-; by apply prompt_more|].
  apply run_bind_inv in H as (bi & s1 & H1 & H). apply (builtin_prompt _ _ _ ps _ _ _ H1) in Hp.
  destruct bi; [|injection H as <- <-; by apply prompt_more..].
  apply run_bind_inv in H as ([] & s2 & H2 & H).
  apply (evolving_prompt block_sigchld _ _ _ _ ltac:(unfold block_sigchld; auto with evolving) H2) in Hp.
  apply run_bind_inv in H as ([] & s3 & H3 & H). apply (evolving_prompt _ _ _ _ _ evolving_point H3) in Hp.
  apply run_bind_inv in H as ([] & s4 & H4 & H). apply (evolving_prompt _ _ _ _ _ (evolving_say _) H4) in Hp.
  apply run_bind_inv in H as ([] & s5 & H5 & H). apply (evolving_prompt _ _ _ _ _ evolving_point H5) in Hp.
  destruct bg; apply run_bind_inv in H as (ok & s6 & H6 & H); destruct (addjob_waiting _ _ _ _ _ _ _ _ H6 Hc Hp) as [Hw Hpr].
  - eapply evolving_prompt; [|exact H|by apply Hpr]. auto 20 with evolving.
  - apply run_bind_inv in H as ([] & s7 & H7 & H). apply (evolving_waiting _ _ _ _ _ _ evolving_point H7) in Hw.
    apply run_bind_inv in H as ([] & s8 & H8 & H). apply (evolving_waiting _ _ _ _ _ _ evolving_unblock H8) in Hw.
    apply run_bind_inv in H as ([] & s9 & H9 & H). apply (evolving_waiting _ _ _ _ _ _ evolving_point H9) in Hw.
    apply run_bind_inv in H as ([] & s10 & H10 & H). injection H as <- <-. by eapply waitfg_prompt.
Qed.

(** The children that were started. *)
Abbreviation children lines := (snd <$> lines).

Lemma read_eval_prompt v atoi n lines ps s b s' :
  NoDup (children lines ++ ps) -> prompt ps s -> read_eval v atoi n lines s = Ok (b, s') -> exists ps', prompt ps' s'.
Proof.
  revert ps s. induction lines as [|[cmd child] lines IH]; intros ps s Hnd Hp H; [injection H as <- <-; eauto|].
  cbn [fmap list_fmap snd app] in Hnd. apply NoDup_cons in Hnd as [Hc Hnd]. cbn [read_eval] in H.
  apply run_bind_inv in H as (go & s1 & H1 & H). apply (eval_prompt _ _ _ _ _ ps) in H1; [|intros Hin; apply Hc, elem_of_app; by right|done].
  destruct go; [|injection H as <- <-; eauto]. apply run_bind_inv in H as ([] & s2 & H2 & H).
  apply (evolving_prompt _ _ _ _ _ evolving_point H2) in H1. eapply IH; [|done|done]. by apply NoDup_insert_middle.
Qed.

Lemma initjobs_prompt s s' : initjobs s = Ok (tt, s') -> prompt [] s'.
Proof.
  intros H. assert (jobs s' = replicate (Z.to_nat MAXJOBS) clearjob) as Hj by (by injection H as <-). unfold prompt. rewrite Hj. generalize (Z.to_nat MAXJOBS). intros m. split_and!; [split|..].
  - intros i j [-> _]%lookup_replicate_1. by cbn.
  - intros i1 i2 j1 j2 [-> _]%lookup_replicate_1 _ _ Hn. by destruct Hn.
  - intros i j [-> _]%lookup_replicate_1. by cbn.
  - intros i j [-> _]%lookup_replicate_1. by left.
Qed.

(** C37: Whatever lines are typed and whenever signals arrive, also while the shell has found a job and is about to store through the
    pointer to it, and while the handlers of the other signals run, when the shell reads the next line no entry of the job list that has a
    process is in the foreground, and no process is in the list twice, provided the host gives each child a process number of its own: [fg] and
    a foreground command wait until their job has ended or stopped, and no handler brings a job to the foreground.  (An entry that is free can
    be left in the state FG: [fg_race] below.) *)
Theorem foreground_spec v atoi n lines s b s' :
  NoDup (children lines) -> main v atoi n lines s = Ok (b, s') -> table_ok (jobs s') /\ none_fg (jobs s').
Proof.
  intros Hnd ([] & s1 & H1%initjobs_prompt & H)%run_bind_inv.
  destruct (read_eval_prompt _ _ _ _ [] _ _ _ ltac:(by rewrite app_nil_r) H1 H) as (ps' & H2 & H3 & _). done.
Qed.

(** ** Waiting ends *)

(** The job of process [p] is in the foreground. *)
Definition in_foreground (p : Z) (s : shell) : Prop := exists i j, getjobpid (jobs s) p = Some (i, j) /\ state j = FG.

(** Nothing arrives for [k] seconds; a second has three points. *)
Definition quiet_seconds (k : nat) : list (list event) := replicate (3 * k) [].

(** One round of the wait, when the signals at the first points leave the job [j]. *)
Lemma waitfg_round n p s s1 s2 ij i j0 j : getjobpid (jobs s) p = Some ij -> point s = Ok (tt, s1) -> getjobpid (jobs s1) p = Some (i, j0) ->
  point s1 = Ok (tt, s2) -> jobs s2 !! i = Some j ->
  waitfg (S n) p s = (if state j =? FG then point;; waitfg n p else mret tt) s2.
Proof.
  intros Hg E1 Hg1 E2 Hj. cbn [waitfg]. rewrite (run_bind (geth jobs) _ s (jobs s) s) by done. rewrite Hg, (run_bind _ _ _ _ _ E1).
  rewrite (run_bind (the_job point p) _ s1 j s2); [done|]. unfold the_job. rewrite (run_bind (geth jobs) _ s1 (jobs s1) s1) by done.
  rewrite Hg1. cbn [deref]. rewrite (run_bind _ _ _ _ _ E2), (run_bind (geth jobs) _ s2 (jobs s2) s2) by done. by rewrite Hj.
Qed.

Lemma point_nothing s sch : schedule s = [] :: sch -> point s = Ok (tt, set_schedule sch s).
Proof. intros Hs. unfold point. cbn [signals]. unfold geth, mbind, st_bind. by rewrite Hs. Qed.

Lemma signals_over d masked s : schedule s = [] -> signals d masked s = Ok (tt, s).
Proof. intros Hs. destruct d; [done|]. cbn [signals]. unfold geth, mbind, st_bind. by rewrite Hs. Qed.

Lemma waitfg_quiet k : forall n p s rest, in_foreground p s -> schedule s = quiet_seconds k ++ rest ->
  waitfg (k + n) p s = waitfg n p (set_schedule rest s).
Proof.
  induction k as [|k IH]; intros n p s rest (i & j & Hg & Hj) Hs.
  - cbn in Hs. cbn [Nat.add]. f_equal. destruct s; cbn in *; by subst.
  - replace (quiet_seconds (S k)) with ([] :: [] :: [] :: quiet_seconds k) in Hs
      by (unfold quiet_seconds; by replace (3 * S k)%nat with (S (S (S (3 * k)))) by lia).
    cbn [Nat.add app] in *. pose proof (getjobpid_Some _ _ _ _ Hg) as (Hi & _).
    rewrite (waitfg_round _ _ _ _ _ _ _ _ _ Hg (point_nothing _ _ Hs) Hg (point_nothing (set_schedule _ s) _ eq_refl) Hi), Hj. cbn [Z.eqb FG Pos.eqb].
    rewrite (run_bind _ _ _ _ _ (point_nothing (set_schedule _ (set_schedule _ s)) (quiet_seconds k ++ rest) eq_refl)).
    rewrite (IH n p _ rest); [by destruct s|by exists i, j|done].
Qed.

Lemma find_pid_replace js p i j j' : find_pid js p = Some (i, j) -> pid j' = p -> find_pid (<[i := j']> js) p = Some (i, j').
Proof.
  intros (Hi & Hp & Hlt)%list_find_Some Hp'. apply list_find_Some. pose proof (lookup_lt_Some _ _ _ Hi).
  split_and!; [by apply list_lookup_insert_eq|done|]. intros k y Hk Hki. rewrite list_lookup_insert_ne in Hk by lia. by eapply Hlt.
Qed.

Lemma find_pid_deleted js p i j : table_ok js -> 1 <= p -> find_pid js p = Some (i, j) -> find_pid (<[i := clearjob]> js) p = None.
Proof.
  intros [_ Ht] Hp (Hi & Hpj & _)%list_find_Some. apply list_find_None, Forall_lookup. intros k y Hk Hy.
  destruct (decide (k = i)) as [-> |Hne].
  - rewrite list_lookup_insert_eq in Hk by (by eapply lookup_lt_Some). injection Hk as <-. cbn in Hy. lia.
  - rewrite list_lookup_insert_ne in Hk by done. apply Hne. eapply Ht; [done|done|congruence|lia].
Qed.

(** The reports at which the shell no longer waits. *)
Definition heeded (w : wstatus) : Prop :=
  match w with WExited _ => True | WSignaled g | WStopped g => g = SIGINT \/ g = SIGTSTP end.

Lemma set_state_over d m p st s i j : schedule s = [] -> getjobpid (jobs s) p = Some (i, j) ->
  set_state (signals d m) p st s = Ok (tt, set_jobs (<[i := set_job_state st j]> (jobs s)) s).
Proof.
  intros Hs Hg. pose proof (getjobpid_Some _ _ _ _ Hg) as (Hi & _). unfold set_state. rewrite (run_bind (geth jobs) _ s (jobs s) s) by done.
  rewrite Hg, (run_bind _ _ _ _ _ (signals_over d m s Hs)). unfold modifyh. do 3 f_equal.
  apply list_eq. intros k. rewrite list_lookup_alter, list_lookup_insert. pose proof (lookup_lt_Some _ _ _ Hi).
  destruct (decide (i = k)) as [-> |]; [rewrite Hi; cbn|]; by case_decide; try lia.
Qed.

(** What a handler does with the job that is waited for. *)
Lemma child_foreground d m p jn w s : table_ok (jobs s) -> in_foreground p s -> heeded w -> schedule s = [] ->
  exists msg s', (match w with WExited _ => deletejob p;; mret None | WSignaled g | WStopped g => child_signal (signals d m) p jn g None end) s =
    Ok (msg, s') /\ schedule s' = [] /\ (getjobpid (jobs s') p = None \/ exists i j, getjobpid (jobs s') p = Some (i, j) /\ state j = ST).
Proof.
  intros Ht (i & j & Hg & Hj) Hw Hs. pose proof (getjobpid_Some _ _ _ _ Hg) as (Hi & Hpj & Hp).
  assert (find_pid (jobs s) p = Some (i, j)) as Hf by (unfold getjobpid in Hg; by destruct (p <? 1)).
  assert ((p <? 1) = false) as Hlt by lia.
  assert (forall msg : option note, exists s', (deletejob p;; mret msg) s = Ok (msg, s') /\ schedule s' = [] /\ getjobpid (jobs s') p = None) as Hdel.
  { intros msg. eexists. unfold deletejob. rewrite Hlt. unfold geth, mbind, st_bind. rewrite Hf. split; [reflexivity|]. split; [done|].
    cbn. unfold getjobpid. rewrite Hlt. by eapply find_pid_deleted. }
  assert (forall msg : option note, exists s', (set_state (signals d m) p ST;; mret msg) s = Ok (msg, s') /\ schedule s' = [] /\
    exists i j, getjobpid (jobs s') p = Some (i, j) /\ state j = ST) as Hst.
  { intros msg. eexists. rewrite (run_bind _ _ _ _ _ (set_state_over d m p ST s i j Hs Hg)). split; [reflexivity|]. split; [done|].
    do 2 eexists. cbn. unfold getjobpid. rewrite Hlt. split; [by eapply find_pid_replace|done]. }
  destruct w as [code|g|g]; [destruct (Hdel None) as (s' & E & H1 & H2); eauto 10| |]; unfold child_signal;
    (destruct Hw as [-> | ->]; cbn [Z.eqb SIGINT SIGTSTP Pos.eqb];
      [destruct (Hdel (Some (NTerminated jn p SIGINT))) as (s' & E & H1 & H2)|destruct (Hst (Some (NStopped jn p SIGTSTP))) as (s' & E & H1 & H2)]; eauto 10).
Qed.

Lemma reap_foreground d m p s w : table_ok (jobs s) -> in_foreground p s -> heeded w -> schedule s = [] ->
  exists s', sigchld_handler (signals d m) [(p, w)] s = Ok (tt, s') /\ schedule s' = [] /\
    (getjobpid (jobs s') p = None \/ exists i j, getjobpid (jobs s') p = Some (i, j) /\ state j = ST).
Proof.
  intros Ht Hf Hw Hs. destruct (child_foreground d m p (pid2jid (jobs s) p) w s Ht Hf Hw Hs) as (msg & s1 & E & Hs1 & Hend).
  exists (match msg with Some n => set_output (output s1 ++ [n]) s1 | None => s1 end). split; [|by destruct msg].
  unfold sigchld_handler. cbn [reap]. rewrite (run_bind (geth jobs) _ s (jobs s) s) by done. cbn zeta.
  rewrite (run_bind _ _ _ _ _ (signals_over d m s Hs)), (run_bind _ _ _ _ _ E), (run_bind _ _ _ _ _ (signals_over d m s1 Hs1)). by destruct msg.
Qed.

Lemma point_sigchld s rs sch s' : schedule s = [SigChld rs] :: sch -> blocked s = false ->
  sigchld_handler point_chld rs (set_schedule sch s) = Ok (tt, s') -> point s = Ok (tt, s').
Proof.
  intros Hs Hb E. unfold point. cbn [signals]. rewrite (run_bind (geth schedule) _ s _ s eq_refl), Hs.
  rewrite (run_bind (modifyh _) _ s tt (set_schedule sch s) eq_refl). cbn [filter list_filter signo].
  rewrite decide_True by apply not_elem_of_nil. cbn [deliver_all deliver signo handler]. fold point_chld.
  rewrite (run_bind _ _ _ tt s'); [done|]. rewrite (run_bind (geth blocked) _ _ false (set_schedule sch s)); [done|].
  unfold geth. cbn. by rewrite Hb.
Qed.

(** A wait for a foreground job ends in the second in which the job exits, is interrupted or is stopped. *)
Theorem waitfg_ends k p s w : table_ok (jobs s) -> in_foreground p s -> blocked s = false -> heeded w ->
  schedule s = quiet_seconds k ++ [[]; []; [SigChld [(p, w)]]] ->
  exists s', waitfg (k + 2) p s = Ok (tt, s') /\ ~ in_foreground p s'.
Proof.
  intros Ht Hf Hb Hw Hs. rewrite (waitfg_quiet k 2 p s _ Hf Hs). destruct Hf as (i & j & Hg & Hj). pose proof (getjobpid_Some _ _ _ _ Hg) as (Hi & _).
  destruct (reap_foreground 3 [SIGCHLD] p (set_schedule [] s) w) as (s' & E & Hs' & Hend); [done|by exists i, j|done|done|].
  exists s'. set (s0 := set_schedule _ s).
  rewrite (waitfg_round 1 p s0 _ _ _ i j j Hg (point_nothing s0 _ eq_refl) Hg (point_nothing (set_schedule _ s0) _ eq_refl) Hi), Hj. cbn [Z.eqb FG Pos.eqb].
  rewrite (run_bind _ _ _ _ _ (point_sigchld (set_schedule _ (set_schedule _ s0)) _ [] s' eq_refl Hb E)).
  destruct Hend as [Hn|(i' & j' & Hg' & Hj')].
  - cbn [waitfg]. rewrite (run_bind (geth jobs) _ s' (jobs s') s') by done. rewrite Hn. split; [done|]. intros (i' & j' & Hg' & _). congruence.
  - assert (point s' = Ok (tt, s')) as Ep by by apply signals_over. pose proof (getjobpid_Some _ _ _ _ Hg') as (Hi' & _).
    rewrite (waitfg_round 0 p s' s' s' _ i' j' j' Hg' Ep Hg' Ep Hi'), Hj'. split; [done|].
    intros (i2 & j2 & Hg2 & Hj2). rewrite Hg' in Hg2. injection Hg2 as <- <-. by rewrite Hj' in Hj2.
Qed.

(** ** A wait that does not end *)

(** Signals after which the job list is as it was: ctrl-c, and the end of a child by another signal than SIGINT. *)
Definition unheeded (e : event) : Prop :=
  match e with
  | SigInt => True
  | SigChld [(_, WSignaled g)] => g <> SIGINT /\ g <> SIGTSTP
  | _ => False
  end.

(** The job list is [js], and no signal that is to come changes it. *)
Definition calm (js : list job_t) (s : shell) : Prop := jobs s = js /\ blocked s = false /\ Forall (Forall unheeded) (schedule s).

Lemma handler_unheeded pt e js s : (forall s, calm js s -> exists s', pt s = Ok (tt, s') /\ calm js s') -> unheeded e -> calm js s ->
  exists s', handler pt e s = Ok (tt, s') /\ calm js s'.
Proof.
  intros Hpt He Hs. destruct e as [[|[q [|g|]] [|]]| |]; try done; cbn [handler].
  - destruct He as [G1 G2]. unfold sigchld_handler. cbn [reap]. unfold child_signal. rewrite (proj2 (Z.eqb_neq _ _) G1), (proj2 (Z.eqb_neq _ _) G2).
    rewrite (run_bind (geth jobs) _ s (jobs s) s) by done. cbn zeta. destruct (Hpt s Hs) as (s1 & E1 & Hs1). rewrite (run_bind _ _ _ _ _ E1).
    rewrite (run_bind _ _ s1 None s1) by done. destruct (Hpt s1 Hs1) as (s2 & E2 & Hs2). rewrite (run_bind _ _ _ _ _ E2). by exists s2.
  - unfold sigint_handler. rewrite (run_bind (geth jobs) _ s (jobs s) s) by done. destruct (fgpid (jobs s) =? 0); [by exists s|].
    destruct (Hpt s Hs) as (s1 & E1 & Hs1). rewrite (run_bind _ _ _ _ _ E1). by eexists.
Qed.

Lemma deliver_all_unheeded run es js : (forall e s, unheeded e -> calm js s -> exists s', run e s = Ok (tt, s') /\ calm js s') ->
  forall s, Forall unheeded es -> calm js s -> exists s', deliver_all run es s = Ok (tt, s') /\ calm js s'.
Proof.
  intros Hrun. induction es as [|e es IH]; intros s He Hs; [by exists s|]. apply Forall_cons in He as [He Hes]. cbn [deliver_all].
  assert (exists s', deliver run e s = Ok (tt, s') /\ calm js s') as (s1 & E & Hs1).
  { destruct (Hrun e s He Hs) as (s1 & E & Hs1). exists s1. split; [|done]. destruct e; [|done..]. cbn [deliver].
    rewrite (run_bind (geth blocked) _ s false s); [done|]. destruct Hs as (_ & Hb & _). unfold geth. by rewrite Hb. }
  rewrite (run_bind _ _ _ _ _ E). by apply IH.
Qed.

Lemma signals_unheeded js d : forall masked s, calm js s -> exists s', signals d masked s = Ok (tt, s') /\ calm js s'.
Proof.
  induction d as [|d IH]; intros masked s Hs; [by exists s|]. cbn [signals]. rewrite (run_bind (geth schedule) _ s _ s eq_refl).
  destruct (schedule s) as [|es sch] eqn:Hsch; [by exists s|]. destruct Hs as (H1 & H2 & H3). rewrite Hsch in H3. apply Forall_cons in H3 as [Hes H3].
  rewrite (run_bind (modifyh _) _ s tt (set_schedule sch s) eq_refl). apply deliver_all_unheeded; [|apply Forall_forall; intros e [_ He]%list_elem_of_filter; by eapply Forall_forall in Hes|done].
  intros e t He Ht. apply handler_unheeded; [|done|done]. intros t' Ht'. by apply IH.
Qed.

(** When the foreground job is killed by another signal than SIGINT, it stays in the job list: the shell waits for ever,
    however often ctrl-c is typed. *)
Theorem killed_job_hangs n p s : in_foreground p s -> blocked s = false -> Forall (Forall unheeded) (schedule s) -> waitfg n p s = Err EFuel.
Proof.
  revert s. induction n as [|n IH]; intros s (i & j & Hg & Hj) Hb Hu; [done|]. pose proof (getjobpid_Some _ _ _ _ Hg) as (Hi & _).
  assert (calm (jobs s) s) as Hs by done. destruct (signals_unheeded _ 4 [] s Hs) as (s1 & E1 & Hs1).
  destruct (signals_unheeded _ 4 [] s1 Hs1) as (s2 & E2 & Hs2). destruct (signals_unheeded _ 4 [] s2 Hs2) as (s3 & E3 & (J3 & B3 & U3)).
  rewrite (waitfg_round _ p s s1 s2 _ i j j Hg E1) by (try done; by rewrite ?(proj1 Hs1), ?(proj1 Hs2)). rewrite Hj. cbn [Z.eqb FG Pos.eqb].
  rewrite (run_bind _ _ _ _ _ E3). apply IH; [exists i, j; by rewrite J3|done|done].
Qed.

(** * Examples *)

Definition start (sch : list (list event)) : shell := mkShell (replicate 16 clearjob) 1 false [] sch [].

(** [atoi] for one digit. *)
Definition digit (s : list Z) : Z := match s with [c] => c - 48 | _ => 0 end.

(** [cat] in the background, [jobs], then [fg %1], which is stopped with ctrl-z while the shell waits for it. *)
Definition example_lines : list (list Z * Z) := [([99; 97; 116; 32; 38; 10], 7); ([106; 111; 98; 115; 10], 8); ([102; 103; 32; 37; 49; 10], 9)].
Definition example_schedule : list (list event) := replicate 16 [] ++ [[SigTstp; SigChld [(7, WStopped SIGTSTP)]]].

Lemma foreground_spec_witness :
  exists s', main true digit 5 example_lines (start example_schedule) = Ok (true, s') /\ table_ok (jobs s') /\ none_fg (jobs s').
Proof.
  assert (exists s', main true digit 5 example_lines (start example_schedule) = Ok (true, s')) as [s' H] by (eexists; vm_compute; reflexivity).
  exists s'. split; [exact H|]. apply (foreground_spec true digit 5 example_lines (start example_schedule) true s'); [|exact H].
  apply (bool_decide_unpack _). vm_compute. exact I.
Defined.

Definition foreground_job : list job_t := <[0%nat := mkJob 7 1 FG [99; 97; 116; 10]]> (replicate 16 clearjob).

Lemma foreground_job_ok : table_ok foreground_job.
Proof.
  unfold foreground_job. split.
  - intros i j. rewrite list_lookup_insert. case_decide; [intros [= <-]; by cbn|]. intros [-> _]%lookup_replicate_1. by cbn.
  - intros i1 i2 j1 j2. rewrite !list_lookup_insert. case_decide as H1; case_decide as H2; [intros; lia| | |].
    + intros [= <-] [-> _]%lookup_replicate_1. by cbn.
    + intros [-> _]%lookup_replicate_1 [= <-]. by cbn.
    + intros [-> _]%lookup_replicate_1 _ _ Hn. by destruct Hn.
Qed.

Lemma waitfg_ends_witness : exists s',
  waitfg (3 + 2) 7 (mkShell foreground_job 2 false [] (quiet_seconds 3 ++ [[]; []; [SigChld [(7, WExited 0)]]]) []) = Ok (tt, s') /\ ~ in_foreground 7 s'.
Proof.
  apply (waitfg_ends 3 7 _ (WExited 0)); [apply foreground_job_ok|by exists 0%nat, (mkJob 7 1 FG [99; 97; 116; 10])|done|done|done].
Defined.

Lemma killed_job_hangs_witness :
  waitfg 100 7 (mkShell foreground_job 2 false [] [[]; [SigChld [(7, WSignaled 9)]]; [SigInt]; [SigInt]] []) = Err EFuel.
Proof.
  apply (killed_job_hangs 100 7); [by exists 0%nat, (mkJob 7 1 FG [99; 97; 116; 10])|done|].
  repeat (apply Forall_cons_2 || apply Forall_nil_2); cbn; auto; done.
Defined.

(** ** What goes wrong *)

Fixpoint add_all (ps : list Z) : st shell unit := match ps with [] => mret tt | p :: ps => addjob false p BG [];; add_all ps end.
Fixpoint delete_all (ps : list Z) : st shell unit := match ps with [] => mret tt | p :: ps => deletejob p;; delete_all ps end.

(** Job numbers are given twice: after sixteen jobs, of which all but the last end, and three more, of which the second is
    number 1, a new job is also number 1. *)
Theorem jid_twice : exists s,
  (add_all [101; 102; 103; 104; 105; 106; 107; 108; 109; 110; 111; 112; 113; 114; 115; 116];;
   delete_all [101; 102; 103; 104; 105; 106; 107; 108; 109; 110; 111; 112; 113; 114; 115];;
   add_all [117; 118];; delete_all [116];; add_all [119; 120]) (start []) = Ok (tt, s) /\
  jid <$> jobs s !! 1%nat = Some 1 /\ pid <$> jobs s !! 1%nat = Some 118 /\ jid <$> jobs s !! 3%nat = Some 1 /\ pid <$> jobs s !! 3%nat = Some 120.
Proof. eexists. vm_compute. repeat split. Qed.

(** A job that ends while [bg] looks for it makes the shell use a null pointer. *)
Theorem bg_race : do_bgfg digit 5 [bg_name; [37; 49]] (mkShell foreground_job 2 false [] [[SigChld [(7, WExited 0)]]] []) = Err EFault.
Proof. reflexivity. Qed.

(** A job that ends between the two looks of [waitfg] does the same. *)
Theorem waitfg_race : waitfg 5 7 (mkShell foreground_job 2 false [] [[SigChld [(7, WExited 0)]]] []) = Err EFault.
Proof. reflexivity. Qed.

(** A job that ends while [fg] is about to store through the pointer to it leaves a free entry in the foreground; from then on ctrl-c does nothing
    for a foreground job that comes later in the list. *)
Theorem fg_race : exists s,
  (do_bgfg digit 5 [fg_name; [37; 49]];; set_state point 8 FG;; sigint_handler point)
    (mkShell [mkJob 7 1 BG []; mkJob 8 2 BG []] 3 false [] [[]; []; []; [SigChld [(7, WExited 0)]]] []) = Ok (tt, s) /\
  jobs s = [mkJob 0 0 FG []; mkJob 8 2 FG []] /\ output s = [NKill (-7) SIGCONT].
Proof. eexists. vm_compute. repeat split. Qed.

(** A job that ends while the handler of ctrl-z looks for it makes the handler use a null pointer. *)
Theorem tstp_race : sigtstp_handler (signals 3 [SIGTSTP]) (mkShell foreground_job 2 false [] [[SigChld [(7, WExited 0)]]] []) = Err EFault.
Proof. reflexivity. Qed.

(** The message for one child is printed again for the next one that exits in the same call of the handler. *)
Theorem message_twice : exists s, sigchld_handler point_chld [(7, WSignaled SIGINT); (8, WExited 0)] (mkShell foreground_job 2 false [] [] []) = Ok (tt, s) /\
  output s = [NTerminated 1 7 SIGINT; NTerminated 1 7 SIGINT].
Proof. eexists. vm_compute. repeat split. Qed.

(** A child that did not fit into the job list and is stopped makes the handler use a null pointer. *)
Theorem stop_unlisted d m p s rs : getjobpid (jobs s) p = None -> schedule s = [] ->
  sigchld_handler (signals d m) ((p, WStopped SIGTSTP) :: rs) s = Err EFault.
Proof.
  intros Hg Hs. unfold sigchld_handler. cbn [reap]. rewrite (run_bind (geth jobs) _ s (jobs s) s) by done. cbn zeta.
  rewrite (run_bind _ _ _ _ _ (signals_over d m s Hs)). apply run_bind_err. unfold child_signal. cbn [Z.eqb SIGTSTP SIGINT Pos.eqb].
  apply run_bind_err. unfold set_state. rewrite (run_bind (geth jobs) _ s (jobs s) s) by done. by rewrite Hg.
Qed.

Lemma stop_unlisted_witness : sigchld_handler point_chld [(9, WStopped SIGTSTP)] (start []) = Err EFault.
Proof. apply (stop_unlisted 3 [SIGCHLD] 9 (start []) []); reflexivity. Defined.

(** The prototype shell uses a null pointer when an empty line is typed. *)
Theorem psh_empty_line : psh_eval [10] = Err EFault.
Proof. reflexivity. Qed.

(** Fifty arguments overflow the array of their pointers. *)
Theorem too_many_arguments : parseline (concat (replicate 50 [97; 32])) = Err EFault.
Proof. reflexivity. Qed.

(** * Parsing what was typed *)

(** An argument is typed as it is, or in quotes when it is empty or has a space in it. *)
Definition typed (a : list Z) : list Z := if decide (a = [] \/ 32 ∈ a) then [39] ++ a ++ [39] else a.

(** The line for some arguments. *)
Fixpoint typed_args (args : list (list Z)) : list Z :=
  match args with
  | [] => []
  | a :: args => typed a ++ [32] ++ typed_args args
  end.

Lemma split_at_first c a rest : c ∉ a -> split_at c (a ++ c :: rest) = Some (a, rest).
Proof.
  induction a as [|x a IH]; intros Hc; cbn [app split_at]; [by rewrite Z.eqb_refl|]. apply not_elem_of_cons in Hc as [H1 H2].
  destruct (Z.eqb_spec x c); [congruence|]. by rewrite IH.
Qed.

Lemma argument_typed a rest : 39 ∉ a -> exists buf delim rest',
  argument (skip_spaces (typed a ++ 32 :: rest)) = (buf, delim) /\ split_at delim buf = Some (a, rest') /\ skip_spaces rest' = skip_spaces rest.
Proof.
  intros Hq. unfold typed. case_decide as Hd.
  - exists (a ++ 39 :: 32 :: rest), 39, (32 :: rest). cbn. rewrite <- app_assoc. split; [done|]. by rewrite split_at_first.
  - assert (a <> [] /\ 32 ∉ a) as [Hne Hs] by tauto. exists (a ++ 32 :: rest), 32, rest. destruct a as [|x a]; [done|]. cbn [app skip_spaces].
    assert (x <> 32 /\ x <> 39) as [H1 H2] by (split; intros ->; [apply Hs|apply Hq]; apply elem_of_cons; by left).
    destruct (Z.eqb_spec x 32); [done|]. cbn [argument]. destruct (Z.eqb_spec x 39); [done|]. split; [done|].
    split; [|done]. by apply (split_at_first 32 (x :: a)).
Qed.

Lemma parse_skip fuel argc buf buf' : skip_spaces buf = skip_spaces buf' -> parse_loop fuel argc buf = parse_loop fuel argc buf'.
Proof. intros H. destruct fuel; cbn [parse_loop]; [done|]. by rewrite H. Qed.

Lemma parse_typed args : forall fuel argc, Forall (fun a => 39 ∉ a) args -> (length args < fuel)%nat -> argc + Zlen args < 50 ->
  parse_loop fuel argc (typed_args args) = Ok args.
Proof.
  induction args as [|a args IH]; intros [|fuel] argc Hq Hf Hc; cbn [length] in *; try lia; cbn [parse_loop typed_args].
  - cbn. destruct (Z.leb_spec 50 argc); [lia|done].
  - apply Forall_cons in Hq as [Hq Hqs]. destruct (argument_typed a (typed_args args) Hq) as (buf & delim & rest' & E1 & E2 & E3).
    cbn [app]. rewrite E1. destruct (Z.leb_spec 50 argc); [lia|]. rewrite E2, (parse_skip _ _ _ _ E3), IH by (done || lia). done.
Qed.

Lemma typed_args_length args : (length args <= length (typed_args args))%nat.
Proof. induction args; cbn [typed_args length]; [done|]. rewrite !length_app. cbn. lia. Qed.

(** C38: The parser gives back the arguments that were typed, at most 49 of them and none with a single quote in it, those that are empty or
    have spaces typed in quotes; the job is for the background if the last one starts with an ampersand, which is then not an argument. *)
Theorem parseline_roundtrip args nl : args <> [] -> Zlen args < 50 -> Forall (fun a => 39 ∉ a) args ->
  parseline (removelast (typed_args args) ++ [nl]) =
  Ok (if default 0 (a ← last args; head a) =? 38 then (removelast args, true) else (args, false)).
Proof.
  intros Hne Hn Hq. assert (exists b, typed_args args = b ++ [32]) as [b Hb].
  { clear -Hne. induction args as [|a args IH]; [done|]. destruct args as [|a2 args]; [by exists (typed a)|].
    destruct IH as [b Hb]; [done|]. exists (typed a ++ [32] ++ b). cbn [typed_args] in *. rewrite Hb. by rewrite <- !app_assoc. }
  unfold parseline. assert (removelast (removelast (typed_args args) ++ [nl]) ++ [32] = typed_args args) as Hbuf by (by rewrite Hb, !removelast_last).
  destruct (removelast (typed_args args) ++ [nl]) as [|x l] eqn:Hl; [by destruct (removelast (typed_args args))|]. rewrite Hbuf.
  rewrite parse_typed by (done || (pose proof (typed_args_length args); lia)). cbn [mbind res_bind].
  destruct args as [|a args _] using rev_ind; [done|]. rewrite last_snoc. cbn. by destruct (default 0 (head a) =? 38).
Qed.

Lemma parseline_roundtrip_witness : parseline [39; 97; 32; 98; 39; 32; 99; 32; 38; 10] = Ok ([[97; 32; 98]; [99]], true).
Proof.
  apply (parseline_roundtrip [[97; 32; 98]; [99]; [38]] 10); [done|cbn; lia|].
  apply (bool_decide_unpack _). vm_compute. exact I.
Defined.

(** The program prints the Fibonacci number for every argument it accepts: no exit status on the way is too large for its
    eight bits. *)
Theorem fib_spec arg : fib_main arg = if decide (0 <= arg <= 13) then Some (fib (Z.to_nat arg)) else None.
Proof.
  unfold fib_main. case_decide as Hd.
  - destruct (Z.ltb_spec arg 0); [lia|]. destruct (Z.ltb_spec 13 arg); [lia|]. cbn [orb]. f_equal.
    assert (Z.to_nat arg < 14)%nat as H' by lia. revert H'. generalize (Z.to_nat arg). intros n Hn.
    do 14 (destruct n as [|n]; [reflexivity|]). lia.
  - destruct (Z.ltb_spec arg 0); [done|]. destruct (Z.ltb_spec 13 arg); [done|lia].
Qed.
