(* ===== verification/Interrupt.v ===== *)
(** Interrupts, threads/interrupt.c: the interrupt descriptor table and its gates, the registration of handlers, the
    dispatch of an interrupt, and the programmable interrupt controllers; with the handlers that the kernel registers and
    [kill] of userprog/exception.c. *)
From Stdlib Require Import ZArith Lia String.
From stdpp Require Import base numbers gmap list.
From S2P Require Import Prelude.
From S2P Require Import Bitmap.
From S2P Require Import Palloc.
From S2P Require Import Thread.
From S2P Require Import Gdt.
From S2P Require Import Ports.
From S2P Require Import Machine.

Local Open Scope Z_scope.

(** * Gates *)

Definition INTR_CNT : Z := 256.

Definition gate_e0 (function : Z) : Z := Z.lor (Z.land function 0xffff) (Z.shiftl SEL_KCSEG 16).

Definition gate_e1 (function dpl type : Z) : Z :=
  Z.lor (Z.lor (Z.lor (Z.lor (Z.land function 0xffff0000) (Z.shiftl 1 15)) (Z.shiftl dpl 13)) (Z.shiftl 0 12)) (Z.shiftl type 8).

Definition make_gate (function dpl type : Z) : res Z :=
  if function =? NULL then Err EAssert else
  if negb ((0 <=? dpl) && (dpl <=? 3)) then Err EAssert else
  if negb ((0 <=? type) && (type <=? 15)) then Err EAssert else
  Ok (Z.lor (gate_e0 function) (Z.shiftl (gate_e1 function dpl type) 32)).

Definition make_intr_gate (function dpl : Z) : res Z := make_gate function dpl 14.
Definition make_trap_gate (function dpl : Z) : res Z := make_gate function dpl 15.
Definition make_idtr_operand (limit base : Z) : Z := Z.lor limit (Z.shiftl base 16).

(** What the processor reads in a gate: Intel's manual, volume 3a, figure 5-2. *)
Definition gate_offset (g : Z) : Z := Z.lor (Z.land g 0xffff) (Z.shiftl (Z.land (Z.shiftr g 48) 0xffff) 16).
Definition gate_selector (g : Z) : Z := Z.land (Z.shiftr g 16) 0xffff.
Definition gate_type (g : Z) : Z := Z.land (Z.shiftr g 40) 0xf.
Definition gate_system (g : Z) : bool := Z.testbit g 44.
Definition gate_dpl (g : Z) : Z := Z.land (Z.shiftr g 45) 3.
Definition gate_present (g : Z) : bool := Z.testbit g 47.

Record gate_is (g function dpl type : Z) : Prop := {
  gi_range : in_u 64 g;
  gi_offset : gate_offset g = function;
  gi_selector : gate_selector g = SEL_KCSEG;
  gi_type : gate_type g = type;
  gi_system : gate_system g = false;
  gi_dpl : gate_dpl g = dpl;
  gi_present : gate_present g = true
}.

(** * State *)

(** The handlers of the kernel: functions of userprog/, devices/ and this file are named by a constructor. *)
Inductive intr_handler_func := Kill | Page_fault | Syscall_handler | Timer_interrupt | Keyboard_interrupt | Serial_interrupt | Disk_interrupt | Pci_interrupt.

#[export] Instance intr_handler_func_eq_dec : EqDecision intr_handler_func.
Proof. solve_decision. Defined.

(** The tables by vector, the register with the address of the table, what was printed about unexpected interrupts, and the
    scheduler. *)
Record intrs := mkIntrs {
  idt : list Z;
  intr_handlers : list (option intr_handler_func);
  intr_names : list string;
  unexpected_cnt : list Z;
  idtr : Z;
  unexpected_msgs : list (Z * string);
  kern : kstate
}.

Definition set_idt (v : list Z) (s : intrs) : intrs := mkIntrs v (intr_handlers s) (intr_names s) (unexpected_cnt s) (idtr s) (unexpected_msgs s) (kern s).
Definition set_handlers (v : list (option intr_handler_func)) (s : intrs) : intrs := mkIntrs (idt s) v (intr_names s) (unexpected_cnt s) (idtr s) (unexpected_msgs s) (kern s).
Definition set_names (v : list string) (s : intrs) : intrs := mkIntrs (idt s) (intr_handlers s) v (unexpected_cnt s) (idtr s) (unexpected_msgs s) (kern s).
Definition set_unexpected (v : list Z) (s : intrs) : intrs := mkIntrs (idt s) (intr_handlers s) (intr_names s) v (idtr s) (unexpected_msgs s) (kern s).
Definition set_idtr (v : Z) (s : intrs) : intrs := mkIntrs (idt s) (intr_handlers s) (intr_names s) (unexpected_cnt s) v (unexpected_msgs s) (kern s).
Definition set_msgs (v : list (Z * string)) (s : intrs) : intrs := mkIntrs (idt s) (intr_handlers s) (intr_names s) (unexpected_cnt s) (idtr s) v (kern s).
Definition set_kern (v : kstate) (s : intrs) : intrs := mkIntrs (idt s) (intr_handlers s) (intr_names s) (unexpected_cnt s) (idtr s) (unexpected_msgs s) v.

Abbreviation iM := (st (intrs * history)).

Definition liftk {A} (m : kM A) : iM A := fun s =>
  match m (kern s.1) with Ok (a, k) => Ok (a, (set_kern k s.1, s.2)) | Err e => Err e end.
Definition lift {A} (r : res A) : iM A := fun s => match r with Ok a => Ok (a, s) | Err e => Err e end.

(** An access to an element of a table by its vector. *)
Definition at_vec {A} (l : list A) (vec : Z) : iM A := fun s =>
  match l !! Z.to_nat vec with Some x => Ok (x, s) | None => Err EFault end.

(** * The interrupt controllers *)

Definition PIC0_CTRL : Z := 0x20.
Definition PIC0_DATA : Z := 0x21.
Definition PIC1_CTRL : Z := 0xa0.
Definition PIC1_DATA : Z := 0xa1.

Definition pic_init : iM unit :=
  outb PIC0_DATA 0xff;; outb PIC1_DATA 0xff;;
  outb PIC0_CTRL 0x11;; outb PIC0_DATA 0x20;; outb PIC0_DATA 0x04;; outb PIC0_DATA 0x01;;
  outb PIC1_CTRL 0x11;; outb PIC1_DATA 0x28;; outb PIC1_DATA 0x02;; outb PIC1_DATA 0x01;;
  outb PIC0_DATA 0x00;; outb PIC1_DATA 0x00.

Definition pic_end_of_interrupt (irq : Z) : iM unit :=
  assert ((0x20 <=? irq) && (irq <? 0x30));;
  outb 0x20 0x20;;
  if 0x28 <=? irq then outb 0xa0 0x20 else mret tt.

Section interrupt.
(** The addresses of the stubs of intr-stubs.S and of the descriptor table, and what the handlers do; [frame] is what a
    handler sees of its frame. *)
Context {frame : Type} (vec_no : frame -> Z) (intr_stubs : Z -> Z) (idt_addr : Z) (run : intr_handler_func -> frame -> iM unit).

(** * Initialization *)

Definition exception_names : list (Z * string) :=
  [(0, "#DE Divide Error"%string); (1, "#DB Debug Exception"%string); (2, "NMI Interrupt"%string); (3, "#BP Breakpoint Exception"%string);
   (4, "#OF Overflow Exception"%string); (5, "#BR BOUND Range Exceeded Exception"%string); (6, "#UD Invalid Opcode Exception"%string);
   (7, "#NM Device Not Available Exception"%string); (8, "#DF Double Fault Exception"%string); (9, "Coprocessor Segment Overrun"%string);
   (10, "#TS Invalid TSS Exception"%string); (11, "#NP Segment Not Present"%string); (12, "#SS Stack Fault Exception"%string);
   (13, "#GP General Protection Exception"%string); (14, "#PF Page-Fault Exception"%string); (16, "#MF x87 FPU Floating-Point Error"%string);
   (17, "#AC Alignment Check Exception"%string); (18, "#MC Machine-Check Exception"%string); (19, "#XF SIMD Floating-Point Exception"%string)].

(** The loop over the table from vector [i] on, for [n] vectors. *)
Fixpoint gates_loop (n : nat) (i : Z) : iM unit :=
  match n with
  | O => mret tt
  | S n =>
      g ← lift (make_intr_gate (intr_stubs i) 0);
      modifyp (fun s => set_idt (<[Z.to_nat i := g]> (idt s)) s);;
      gates_loop n (i + 1)
  end.

Definition intr_init : iM unit :=
  pic_init;;
  gates_loop 256 0;;
  modifyp (set_idtr (make_idtr_operand (8 * INTR_CNT - 1) idt_addr));;
  modifyp (set_names (foldl (fun names v => <[Z.to_nat v.1 := v.2]> names) (replicate 256 "unknown"%string) exception_names)).

Definition register_handler (vec dpl : Z) (level : bool) (handler : intr_handler_func) (name : string) : iM unit :=
  hs ← getp intr_handlers;
  h ← at_vec hs vec;
  assert (bool_decide (h = None));;
  g ← lift (if level then make_trap_gate (intr_stubs vec) dpl else make_intr_gate (intr_stubs vec) dpl);
  modifyp (fun s => set_idt (<[Z.to_nat vec := g]> (idt s)) s);;
  modifyp (fun s => set_handlers (<[Z.to_nat vec := Some handler]> (intr_handlers s)) s);;
  modifyp (fun s => set_names (<[Z.to_nat vec := name]> (intr_names s)) s).

Definition intr_register_ext (vec : Z) (handler : intr_handler_func) (name : string) : iM unit :=
  assert ((0x20 <=? vec) && (vec <=? 0x2f));; register_handler vec 0 false handler name.

Definition intr_register_int (vec dpl : Z) (level : bool) (handler : intr_handler_func) (name : string) : iM unit :=
  assert ((vec <? 0x20) || (0x2f <? vec));; register_handler vec dpl level handler name.

(** The registrations of [exception_init] and of [syscall_init]. *)
Definition exception_init : iM unit :=
  intr_register_int 3 3 true Kill "#BP Breakpoint Exception"%string;;
  intr_register_int 4 3 true Kill "#OF Overflow Exception"%string;;
  intr_register_int 5 3 true Kill "#BR BOUND Range Exceeded Exception"%string;;
  intr_register_int 0 0 true Kill "#DE Divide Error"%string;;
  intr_register_int 1 0 true Kill "#DB Debug Exception"%string;;
  intr_register_int 6 0 true Kill "#UD Invalid Opcode Exception"%string;;
  intr_register_int 7 0 true Kill "#NM Device Not Available Exception"%string;;
  intr_register_int 11 0 true Kill "#NP Segment Not Present"%string;;
  intr_register_int 12 0 true Kill "#SS Stack Fault Exception"%string;;
  intr_register_int 13 0 true Kill "#GP General Protection Exception"%string;;
  intr_register_int 16 0 true Kill "#MF x87 FPU Floating-Point Error"%string;;
  intr_register_int 19 0 true Kill "#XF SIMD Floating-Point Exception"%string;;
  intr_register_int 14 0 false Page_fault "#PF Page-Fault Exception"%string.

Definition syscall_init : iM unit := intr_register_int 0x30 3 true Syscall_handler "syscall"%string.

(** The registrations in the order in which [main] of threads/init.c makes them. *)
Definition register_all : iM unit :=
  intr_init;;
  intr_register_ext 0x20 Timer_interrupt "8254 Timer"%string;;
  intr_register_ext 0x21 Keyboard_interrupt "8042 Keyboard"%string;;
  exception_init;;
  syscall_init;;
  intr_register_ext (0x20 + 4) Serial_interrupt "serial"%string;;
  intr_register_ext (14 + 0x20) Disk_interrupt "ide0"%string;;
  intr_register_ext (15 + 0x20) Disk_interrupt "ide1"%string.

(** * Dispatch *)

Definition unexpected_interrupt (f : frame) : iM unit :=
  cnts ← getp unexpected_cnt;
  n0 ← at_vec cnts (vec_no f);
  let n := u32 (n0 + 1) in
  modifyp (set_unexpected (<[Z.to_nat (vec_no f) := n]> cnts));;
  if Z.land n (u32 (n - 1)) =? 0 then
    names ← getp intr_names;
    name ← at_vec names (vec_no f);
    modifyp (fun s => set_msgs (unexpected_msgs s ++ [(vec_no f, name)]) s)
  else mret tt.

(** Whether the thread is to yield; [thread_yield] is run after the interrupt has been completed. *)
Definition intr_handler (f : frame) : iM bool :=
  let external := (0x20 <=? vec_no f) && (vec_no f <? 0x30) in
  (if external then
     on ← liftk (gets intr_on); assert (negb on);;
     ext ← liftk (gets in_external_intr); assert (negb ext);;
     liftk (modify (set_in_external_intr true));; liftk (modify (set_yield_on_return false))
   else mret tt);;
  hs ← getp intr_handlers;
  handler ← at_vec hs (vec_no f);
  (match handler with
   | Some h => run h f
   | None => if (vec_no f =? 0x27) || (vec_no f =? 0x2f) then mret tt else unexpected_interrupt f
   end);;
  if external then
    on ← liftk (gets intr_on); assert (negb on);;
    ext ← liftk (gets in_external_intr); assert ext;;
    liftk (modify (set_in_external_intr false));;
    pic_end_of_interrupt (vec_no f);;
    liftk (gets yield_on_return)
  else mret false.

(** What the processor does around it: an interrupt gate turns interrupts off, and the return from the interrupt restores
    them.  The commands are those of Thread.v. *)
Definition deliver (f : frame) : iM (list cmd) :=
  on ← liftk (gets intr_on);
  tbl ← getp idt;
  g ← at_vec tbl (vec_no f);
  (if gate_type g =? 14 then liftk (modify (set_intr_on false)) else mret tt);;
  y ← intr_handler f;
  mret (if y : bool then [CYield; CSetLevel on] else [CSetLevel on]).
End interrupt.

(** [kill] by the code segment of the frame: the thread exits, or the kernel stops. *)
Definition kill (cs : Z) : res unit := if cs =? SEL_UCSEG then Ok tt else if cs =? SEL_KCSEG then Err EPanic else Ok tt.

(** * The gates are what the processor reads *)

Definition gate (function dpl type : Z) : Z := Z.lor (gate_e0 function) (Z.shiftl (gate_e1 function dpl type) 32).

Lemma selector_range : in_u 4 SEL_KCSEG.
Proof. by vm_compute. Qed.

Lemma gate_bit function dpl type n : in_u 32 function -> in_u 2 dpl -> in_u 4 type -> 0 <= n ->
  Z.testbit (gate function dpl type) n =
    if n <? 16 then Z.testbit function n else if n <? 32 then Z.testbit SEL_KCSEG (n - 16) else if n <? 40 then false
    else if n <? 44 then Z.testbit type (n - 40) else if n <? 45 then false else if n <? 47 then Z.testbit dpl (n - 45)
    else if n <? 48 then true else if n <? 64 then Z.testbit function (n - 32) else false.
Proof.
  intros Hf Hd Ht Hn. pose proof selector_range as HK. unfold gate, gate_e0, gate_e1. rewrite Z.shiftl_0_l, Z.lor_0_r.
  change 0xffff with (Z.ones 16). change 0xffff0000 with (Z.shiftl (Z.ones 16) 16). change 1 with (Z.ones 1). rewrite Z.lor_spec.
  rewrite testbit_shiftl_cmp by lia. destruct (Z.leb_spec 32 n); cbn [andb].
  - bit_spec. rewrite (testbit_cut 4 type), (testbit_cut 2 dpl), (testbit_cut 32 function), (testbit_cut 4 SEL_KCSEG (n - 16)) by (exact HK || assumption || lia). bit_close.
  - bit_spec. rewrite (testbit_cut 4 SEL_KCSEG (n - 16)) by (exact HK || assumption || lia). bit_close.
Qed.

Lemma gate_fields function dpl type : in_u 32 function -> in_u 2 dpl -> in_u 4 type -> gate_is (gate function dpl type) function dpl type.
Proof.
  intros Hf Hd Ht. pose proof selector_range as HK. pose proof (fun n => gate_bit function dpl type n Hf Hd Ht) as Hbit. set (g := gate _ _ _) in *.
  assert (0 <= g) as Hpos.
  { unfold g, gate, gate_e0, gate_e1, in_u in *.
    repeat (rewrite Z.lor_nonneg || rewrite Z.shiftl_nonneg || rewrite Z.land_nonneg). unfold SEL_KCSEG. lia. }
  split; [apply in_u_testbit; [lia|done|]; intros n Hn; rewrite Hbit by lia; by bit_compare|..];
    unfold gate_offset, gate_selector, gate_type, gate_system, gate_dpl, gate_present; try (by rewrite Hbit by lia);
    change 0xffff with (Z.ones 16); change 0xf with (Z.ones 4); change 3 with (Z.ones 2); apply Z.bits_inj'; intros n Hn.
  - rewrite Z.lor_spec, testbit_shiftl_cmp, !Z.land_spec, !testbit_ones_cmp, !testbit_shiftr_cmp, !Hbit, (testbit_cut 32 function n) by (exact HK || assumption || lia). bit_close.
  - rewrite Z.land_spec, testbit_ones_cmp, testbit_shiftr_cmp, Hbit, Z.add_simpl_r, (testbit_cut 4 SEL_KCSEG n) by (exact HK || assumption || lia). bit_close.
  - rewrite Z.land_spec, testbit_ones_cmp, testbit_shiftr_cmp, Hbit, (testbit_cut 4 type n) by (exact HK || assumption || lia). bit_close.
  - rewrite Z.land_spec, testbit_ones_cmp, testbit_shiftr_cmp, Hbit, (testbit_cut 2 dpl n) by (exact HK || assumption || lia). bit_close.
Qed.

Lemma make_gate_run function dpl type : function <> NULL -> in_u 2 dpl -> in_u 4 type -> make_gate function dpl type = Ok (gate function dpl type).
Proof.
  unfold in_u. intros Hf Hd Ht. unfold make_gate. destruct (Z.eqb_spec function NULL); [done|].
  rewrite (proj2 (Z.leb_le 0 dpl)), (proj2 (Z.leb_le dpl 3)), (proj2 (Z.leb_le 0 type)), (proj2 (Z.leb_le type 15)) by lia. done.
Qed.

(** * Registration *)

Section tables.
Context (intr_stubs : Z -> Z) (idt_addr : Z).
Context (Hstubs : forall v, 0 <= v < 256 -> in_u 32 (intr_stubs v) /\ intr_stubs v <> NULL).

(** What is registered for a vector: the handler, the privilege level and whether interrupts stay on. *)
Abbreviation registry := (Z -> option (intr_handler_func * Z * bool)).

Definition registered_gate (v : Z) (r : option (intr_handler_func * Z * bool)) : Z :=
  match r with
  | Some (_, dpl, level) => gate (intr_stubs v) dpl (if level : bool then 15 else 14)
  | None => gate (intr_stubs v) 0 14
  end.

Record tables (s : intrs) (reg : registry) : Prop := {
  tb_idt : length (idt s) = 256%nat;
  tb_handlers : length (intr_handlers s) = 256%nat;
  tb_gate : forall v, 0 <= v < 256 -> idt s !! Z.to_nat v = Some (registered_gate v (reg v));
  tb_handler : forall v, 0 <= v < 256 -> intr_handlers s !! Z.to_nat v = Some (fst ∘ fst <$> reg v)
}.

Definition with_handler (v : Z) (h : intr_handler_func) (dpl : Z) (level : bool) (reg : registry) : registry :=
  fun w => if w =? v then Some (h, dpl, level) else reg w.

Lemma register_run v dpl level h name s hist reg : tables s reg -> 0 <= v < 256 -> in_u 2 dpl -> reg v = None ->
  exists s', register_handler intr_stubs v dpl level h name (s, hist) = Ok (tt, (s', hist)) /\ tables s' (with_handler v h dpl level reg) /\ kern s' = kern s.
Proof using Hstubs.
  intros [Hi Hh Hg Hr] Hv Hd Hn. destruct (Hstubs v Hv) as [Hf Hf0]. unfold register_handler.
  rewrite (run_bind (getp intr_handlers) _ _ (intr_handlers s) (s, hist)) by done.
  assert (at_vec (intr_handlers s) v (s, hist) = Ok (None, (s, hist))) as E by (unfold at_vec; by rewrite Hr, Hn).
  rewrite (run_bind _ _ _ _ _ E). clear E. cbn [bool_decide decide_rel assert].
  rewrite (run_bind (assert (bool_decide (None = None))) _ _ tt (s, hist)) by done.
  assert ((if level then make_trap_gate (intr_stubs v) dpl else make_intr_gate (intr_stubs v) dpl) = Ok (registered_gate v (Some (h, dpl, level)))) as E.
  { unfold make_trap_gate, make_intr_gate. destruct level; by rewrite make_gate_run by (done || by vm_compute). }
  rewrite (run_bind (lift _) _ _ (registered_gate v (Some (h, dpl, level))) (s, hist)) by (unfold lift; by rewrite E).
  eexists. split; [reflexivity|]. split; [|done]. split; cbn [fst snd idt intr_handlers set_idt set_handlers set_names]; rewrite ?length_insert; [done|done|..];
    intros w Hw; unfold with_handler; destruct (Z.eqb_spec w v) as [-> |Hne].
  - apply list_lookup_insert_eq. lia.
  - rewrite list_lookup_insert_ne by lia. by apply Hg.
  - apply list_lookup_insert_eq. lia.
  - rewrite list_lookup_insert_ne by lia. by apply Hr.
Qed.

Lemma register_ext_run v h name s hist reg : tables s reg -> 0x20 <= v <= 0x2f -> reg v = None ->
  exists s', intr_register_ext intr_stubs v h name (s, hist) = Ok (tt, (s', hist)) /\ tables s' (with_handler v h 0 false reg) /\ kern s' = kern s.
Proof using Hstubs.
  intros Ht Hv Hn. unfold intr_register_ext. rewrite (proj2 (Z.leb_le 0x20 v)), (proj2 (Z.leb_le v 0x2f)) by lia.
  rewrite (run_bind (assert _) _ _ tt (s, hist)) by done. apply register_run; [done|lia|by vm_compute|done].
Qed.

Lemma register_int_run v dpl level h name s hist reg : tables s reg -> 0 <= v < 0x20 \/ 0x2f < v < 256 -> in_u 2 dpl -> reg v = None ->
  exists s', intr_register_int intr_stubs v dpl level h name (s, hist) = Ok (tt, (s', hist)) /\ tables s' (with_handler v h dpl level reg) /\ kern s' = kern s.
Proof using Hstubs.
  intros Ht Hv Hd Hn. unfold intr_register_int. assert ((v <? 0x20) || (0x2f <? v) = true) as ->.
  { destruct (Z.ltb_spec v 0x20); [done|]. apply Z.ltb_lt. lia. }
  rewrite (run_bind (assert _) _ _ tt (s, hist)) by done. apply register_run; [done|lia|done|done].
Qed.

(** A vector is registered at most once. *)
Theorem register_twice v dpl level h name s hist reg x : tables s reg -> 0 <= v < 256 -> reg v = Some x ->
  register_handler intr_stubs v dpl level h name (s, hist) = Err EAssert.
Proof.
  intros [Hi Hh Hg Hr] Hv Hn. unfold register_handler. rewrite (run_bind (getp intr_handlers) _ _ (intr_handlers s) (s, hist)) by done.
  rewrite (run_bind (at_vec _ v) _ _ (Some x.1.1) (s, hist)); [done|]. unfold at_vec. by rewrite Hr, Hn.
Qed.

Lemma gates_run n : forall i s hist, 0 <= i -> i + Z.of_nat n = 256 -> length (idt s) = 256%nat ->
  (forall v, 0 <= v < i -> idt s !! Z.to_nat v = Some (registered_gate v None)) ->
  exists s', gates_loop intr_stubs n i (s, hist) = Ok (tt, (s', hist)) /\ length (idt s') = 256%nat /\
    (forall v, 0 <= v < 256 -> idt s' !! Z.to_nat v = Some (registered_gate v None)) /\ intr_handlers s' = intr_handlers s /\ kern s' = kern s.
Proof using Hstubs.
  induction n as [|n IH]; intros i s hist Hi Hn Hl Hg; [exists s; split_and!; try done; intros; apply Hg; lia|].
  destruct (Hstubs i ltac:(lia)) as [Hf Hf0]. cbn [gates_loop].
  rewrite (run_bind (lift _) _ _ (registered_gate i None) (s, hist)); [|unfold lift, make_intr_gate; by rewrite make_gate_run by (done || by vm_compute)].
  rewrite (run_bind (modifyp _) _ _ tt (set_idt (<[Z.to_nat i := registered_gate i None]> (idt s)) s, hist)) by done.
  destruct (IH (i + 1) (set_idt (<[Z.to_nat i := registered_gate i None]> (idt s)) s) hist) as (s' & E & H1 & H2 & H3 & H4);
    [lia|lia|cbn; by rewrite length_insert| |exists s'; split_and!; try done].
  intros v Hv. cbn [idt set_idt]. destruct (decide (v = i)) as [-> |Hne]; [apply list_lookup_insert_eq; lia|].
  rewrite list_lookup_insert_ne by lia. apply Hg. lia.
Qed.

(** Tables before the kernel starts. *)
Definition no_handlers (s : intrs) : Prop := length (idt s) = 256%nat /\ intr_handlers s = replicate 256 None.

Lemma intr_init_run s hist : no_handlers s ->
  exists s' hist', intr_init intr_stubs idt_addr (s, hist) = Ok (tt, (s', hist')) /\ tables s' (fun _ => None) /\ kern s' = kern s.
Proof using Hstubs.
  intros [Hi Hh]. destruct (gates_run 256 0 s (match pic_init (s, hist) with Ok (_, x) => x.2 | _ => [] end)) as (s' & E & H1 & H2 & H3 & H4);
    [lia|lia|done|intros; lia|].
  do 2 eexists. split; [|split].
  - unfold intr_init. rewrite (run_bind pic_init _ _ tt (s, match pic_init (s, hist) with Ok (_, x) => x.2 | _ => [] end)) by done.
    rewrite (run_bind _ _ _ _ _ E). reflexivity.
  - split; cbn [fst snd idt intr_handlers set_idtr set_names]; [done|by rewrite H3, Hh|done|].
    intros v Hv. rewrite H3, Hh. apply lookup_replicate_2. lia.
  - done.
Qed.
(** Registrations, from one registry to another. *)
Definition registers (m : iM unit) (reg reg' : registry) : Prop :=
  forall s h, tables s reg -> exists s', m (s, h) = Ok (tt, (s', h)) /\ tables s' reg'.

Lemma registers_seq m k r1 r2 r3 : registers m r1 r2 -> registers k r2 r3 -> registers (m;; k) r1 r3.
Proof.
  intros Hm Hk s h Ht. destruct (Hm s h Ht) as (s1 & E1 & H1). destruct (Hk s1 h H1) as (s2 & E2 & H2). exists s2.
  split; [|done]. by rewrite (run_bind _ _ _ _ _ E1).
Qed.

Lemma registers_ext v h name reg : 0x20 <= v <= 0x2f -> reg v = None -> registers (intr_register_ext intr_stubs v h name) reg (with_handler v h 0 false reg).
Proof using Hstubs. intros Hv Hn s hist Ht. destruct (register_ext_run v h name s hist reg Ht Hv Hn) as (s' & E & H & _). eauto. Qed.

Lemma registers_int v dpl level h name reg : 0 <= v < 0x20 \/ 0x2f < v < 256 -> in_u 2 dpl -> reg v = None ->
  registers (intr_register_int intr_stubs v dpl level h name) reg (with_handler v h dpl level reg).
Proof using Hstubs. intros Hv Hd Hn s hist Ht. destruct (register_int_run v dpl level h name s hist reg Ht Hv Hd Hn) as (s' & E & H & _). eauto. Qed.
End tables.

(** The registry of the kernel. *)
Definition kernel_registry (v : Z) : option (intr_handler_func * Z * bool) :=
  if decide (v ∈ [3; 4; 5]) then Some (Kill, 3, true)
  else if decide (v ∈ [0; 1; 6; 7; 11; 12; 13; 16; 19]) then Some (Kill, 0, true)
  else if v =? 14 then Some (Page_fault, 0, false)
  else if v =? 0x20 then Some (Timer_interrupt, 0, false)
  else if v =? 0x21 then Some (Keyboard_interrupt, 0, false)
  else if v =? 0x24 then Some (Serial_interrupt, 0, false)
  else if decide (v ∈ [0x2e; 0x2f]) then Some (Disk_interrupt, 0, false)
  else if v =? 0x30 then Some (Syscall_handler, 3, true)
  else None.

Lemma tables_ext stubs s reg reg' : tables stubs s reg -> (forall v, 0 <= v < 256 -> reg v = reg' v) -> tables stubs s reg'.
Proof. intros [H1 H2 H3 H4] H. split; [done|done|..]; intros v Hv; rewrite <- H by done; auto. Qed.

Ltac registrations :=
  lazymatch goal with
  | |- registers _ (intr_register_ext _ _ _ _) _ _ => eapply registers_ext; first [done|lia]
  | |- registers _ (intr_register_int _ _ _ _ _ _) _ _ => eapply registers_int; first [done|lia]
  | |- registers _ _ _ _ => eapply registers_seq; registrations
  end.

Lemma register_all_tables stubs idt_addr s hist :
  (forall v, 0 <= v < 256 -> in_u 32 (stubs v) /\ stubs v <> NULL) -> no_handlers s ->
  exists s' hist', register_all stubs idt_addr (s, hist) = Ok (tt, (s', hist')) /\ tables stubs s' kernel_registry.
Proof.
  intros Hst Hno. unfold register_all. destruct (intr_init_run stubs idt_addr Hst s hist Hno) as (t & h & E & Ht & _). rewrite (run_bind _ _ _ _ _ E). clear E.
  enough (exists reg, registers stubs (intr_register_ext stubs 0x20 Timer_interrupt "8254 Timer"%string;;
    intr_register_ext stubs 0x21 Keyboard_interrupt "8042 Keyboard"%string;; exception_init stubs;; syscall_init stubs;;
    intr_register_ext stubs (0x20 + 4) Serial_interrupt "serial"%string;; intr_register_ext stubs (14 + 0x20) Disk_interrupt "ide0"%string;;
    intr_register_ext stubs (15 + 0x20) Disk_interrupt "ide1"%string) (fun _ => None) reg /\ forall v, 0 <= v < 256 -> reg v = kernel_registry v) as (reg & Hr & Heq).
  { destruct (Hr t h Ht) as (s' & E & H). exists s', h. split; [done|]. by eapply tables_ext. }
  unfold exception_init, syscall_init. eexists. split; [registrations|].
  intros v Hv. assert (v = Z.of_nat (Z.to_nat v)) as -> by lia. assert (Z.to_nat v < 256)%nat as H by lia. revert H. generalize (Z.to_nat v). clear.
  intros n Hn. do 256 (destruct n as [|n]; [by vm_compute|]). lia.
Qed.

Definition registry_dpl (v : Z) : Z := match kernel_registry v with Some (_, dpl, _) => dpl | None => 0 end.
Definition registry_type (v : Z) : Z := match kernel_registry v with Some (_, _, true) => 15 | _ => 14 end.

Lemma registered_gate_values stubs v : registered_gate stubs v (kernel_registry v) = gate (stubs v) (registry_dpl v) (registry_type v).
Proof. unfold registry_dpl, registry_type. by destruct (kernel_registry v) as [[[h dpl] []]|]. Qed.

Lemma registry_values v : 0 <= v < 256 ->
  registry_dpl v = (if decide (v ∈ [3; 4; 5; 0x30]) then 3 else 0) /\
  registry_type v = (if decide (v ∈ [0; 1; 3; 4; 5; 6; 7; 11; 12; 13; 16; 19; 0x30]) then 15 else 14).
Proof.
  intros Hv. assert (forallb (fun n => let v := Z.of_nat n in
    (registry_dpl v =? if decide (v ∈ [3; 4; 5; 0x30]) then 3 else 0) &&
    (registry_type v =? if decide (v ∈ [0; 1; 3; 4; 5; 6; 7; 11; 12; 13; 16; 19; 0x30]) then 15 else 14)) (seq 0 256) = true) as H by (by vm_compute).
  rewrite List.forallb_forall in H. specialize (H (Z.to_nat v)). cbn zeta in H. rewrite Z2Nat.id in H by lia.
  apply andb_true_iff in H as [H1%Z.eqb_eq H2%Z.eqb_eq]; [done|]. apply List.in_seq. lia.
Qed.

(** C39: After the kernel has registered its handlers, each of the 256 gates is present, leads to the stub of its vector in the
    kernel's code segment, and has the handler the kernel means it to have: exactly the vectors 3, 4, 5 and 0x30 can be
    called by a user program, and interrupts are turned off on entry for page faults, for all external interrupts and for
    vectors without a handler. *)
Theorem idt_spec stubs idt_addr s hist :
  (forall v, 0 <= v < 256 -> in_u 32 (stubs v) /\ stubs v <> NULL) -> no_handlers s ->
  exists s' hist', register_all stubs idt_addr (s, hist) = Ok (tt, (s', hist')) /\
    forall v, 0 <= v < 256 -> exists g, idt s' !! Z.to_nat v = Some g /\
      gate_is g (stubs v) (if decide (v ∈ [3; 4; 5; 0x30]) then 3 else 0)
        (if decide (v ∈ [0; 1; 3; 4; 5; 6; 7; 11; 12; 13; 16; 19; 0x30]) then 15 else 14) /\
      intr_handlers s' !! Z.to_nat v = Some (fst ∘ fst <$> kernel_registry v).
Proof.
  intros Hst Hno. destruct (register_all_tables stubs idt_addr s hist Hst Hno) as (s' & hist' & E & Ht). exists s', hist'. split; [done|].
  intros v Hv. exists (registered_gate stubs v (kernel_registry v)). split; [by apply Ht|]. split; [|by apply Ht].
  destruct (registry_values v Hv) as [H1 H2]. rewrite <- H1, <- H2. rewrite registered_gate_values.
  apply gate_fields; [by apply Hst|rewrite H1; clear; case_decide; unfold in_u; lia|rewrite H2; clear; case_decide; unfold in_u; lia].
Qed.

(** * Dispatch *)

(** ** The timer *)

Lemma liftk_gets {A} (f : kstate -> A) x : liftk (gets f) x = Ok (f (kern x.1), x).
Proof. by destruct x as [[] h]. Qed.

Lemma liftk_run {A} (m : kM A) s h a k : m (kern s) = Ok (a, k) -> liftk m (s, h) = Ok (a, (set_kern k s, h)).
Proof. intros E. unfold liftk. cbn [fst snd]. by rewrite E. Qed.

Lemma at_vec_run {A} (l : list A) v (a : A) x : l !! Z.to_nat v = Some a -> at_vec l v x = Ok (a, x).
Proof. intros E. unfold at_vec. by rewrite E. Qed.

Section dispatch.
Context {frame : Type} (vec_no : frame -> Z) (run : intr_handler_func -> frame -> iM unit).

(** The dispatch of a timer interrupt is the step that Thread.v and Machine.v take for it: when that step succeeds, the table
    leads to the handler, the assertions hold, and the master controller is told of the end of the interrupt. *)
Theorem deliver_timer stubs f s h cs k :
  (forall v, 0 <= v < 256 -> in_u 32 (stubs v)) ->
  (forall s, run Timer_interrupt f s = liftk timer_interrupt s) -> vec_no f = 0x20 -> tables stubs s kernel_registry ->
  intr_handler_timer (kern s) = Ok (cs, k) ->
  deliver vec_no run f (s, h) = Ok (cs, (set_kern k s, IoOut 0x20 0x20 :: h)).
Proof.
  intros Hst Hrun Hv Ht H. unfold intr_handler_timer in H. unfold deliver, intr_handler. rewrite Hv.
  apply run_bind_inv in H as (on & k1 & E & H). injection E as <- <-.
  apply run_bind_inv in H as ([] & k1 & E & H). injection E as <-.
  apply run_bind_inv in H as (ext & k1 & E & H). injection E as <- <-. cbn [in_external_intr set_intr_on] in H.
  apply run_bind_inv in H as ([] & k1 & E & H). destruct (in_external_intr (kern s)) eqn:Hext; [done|]. injection E as <-.
  apply run_bind_inv in H as ([] & k1 & E & H). injection E as <-.
  apply run_bind_inv in H as ([] & k1 & E & H). injection E as <-.
  apply run_bind_inv in H as ([] & k1 & E & H).
  pose proof (stays_timer_interrupt _ _ _ E ltac:(by split)) as [[Hoff Hin] _].
  apply run_bind_inv in H as ([] & k2 & E2 & H). injection E2 as <-.
  apply run_bind_inv in H as (y & k2 & E2 & H). injection E2 as <- <-.
  assert (gate_type (gate (stubs 0x20) 0 14) = 14) as Hg.
  { apply (gate_fields (stubs 0x20) 0 14); [by apply Hst|by vm_compute|by vm_compute]. }
  pose proof (tb_gate _ _ _ Ht 0x20 ltac:(lia)) as H1. pose proof (tb_handler _ _ _ Ht 0x20 ltac:(lia)) as H2.
  change (registered_gate stubs 0x20 (kernel_registry 0x20)) with (gate (stubs 0x20) 0 14) in H1.
  change (fst ∘ fst <$> kernel_registry 0x20) with (Some Timer_interrupt) in H2.
  rewrite (run_bind _ _ _ _ _ (liftk_gets intr_on (s, h))). cbn [fst].
  rewrite (run_bind (getp idt) _ (s, h) (idt s) (s, h) eq_refl), (run_bind _ _ _ _ _ (at_vec_run _ _ _ (s, h) H1)), Hg. cbn [Z.eqb Pos.eqb].
  rewrite (run_bind _ _ _ _ _ (liftk_run (modify (set_intr_on false)) s h tt _ eq_refl)).
  set (s1 := set_kern (set_intr_on false (kern s)) s).
  set (k0 := set_yield_on_return false (set_in_external_intr true (set_intr_on false (kern s)))) in E.
  cbn [Z.leb Z.ltb Z.compare Pos.compare Pos.compare_cont andb].
  rewrite (run_bind _ _ (s1, h) (yield_on_return k1) (set_kern (set_in_external_intr false k1) s, IoOut 0x20 0x20 :: h)).
  { cbn [yield_on_return set_in_external_intr] in H. destruct (yield_on_return k1); injection H as <- <-; done. }
  rewrite (run_bind _ _ (s1, h) tt (set_kern k0 s, h)).
  2: { rewrite (run_bind _ _ _ _ _ (liftk_gets intr_on (s1, h))). cbn [fst kern set_kern s1 intr_on set_intr_on negb assert].
       rewrite (run_bind (assert true) _ (s1, h) tt (s1, h) eq_refl), (run_bind _ _ _ _ _ (liftk_gets in_external_intr (s1, h))).
       replace (in_external_intr (kern (s1, h).1)) with false by (by rewrite <- Hext).
       by rewrite (run_bind (assert (negb false)) _ (s1, h) tt (s1, h) eq_refl). }
  rewrite (run_bind (getp intr_handlers) _ (set_kern k0 s, h) (intr_handlers s) (set_kern k0 s, h) eq_refl), (run_bind _ _ _ _ _ (at_vec_run _ _ _ _ H2)).
  rewrite (run_bind (run Timer_interrupt f) _ _ tt (set_kern k1 s, h)).
  2: { rewrite Hrun. exact (liftk_run timer_interrupt (set_kern k0 s) h tt k1 E). }
  rewrite (run_bind _ _ _ _ _ (liftk_gets intr_on (set_kern k1 s, h))). cbn [fst kern set_kern]. rewrite Hoff.
  rewrite (run_bind (assert (negb false)) _ (set_kern k1 s, h) tt (set_kern k1 s, h) eq_refl), (run_bind _ _ _ _ _ (liftk_gets in_external_intr (set_kern k1 s, h))).
  cbn [fst kern set_kern]. rewrite Hin. rewrite (run_bind (assert true) _ (set_kern k1 s, h) tt (set_kern k1 s, h) eq_refl).
  rewrite (run_bind _ _ _ _ _ (liftk_run (modify (set_in_external_intr false)) (set_kern k1 s) h tt _ eq_refl)). by destruct k1.
Qed.
End dispatch.

(** ** Unexpected interrupts *)

Lemma power_of_two n : 0 <= n -> Z.land n (n - 1) = 0 <-> n = 0 \/ exists k, 0 <= k /\ n = 2 ^ k.
Proof.
  intros Hn. split.
  - intros H. destruct (decide (n = 0)) as [|Hne]; [by left|right]. exists (Z.log2 n). split; [apply Z.log2_nonneg|].
    pose proof (Z.log2_spec n ltac:(lia)) as [H1 H2]. pose proof (Z.log2_nonneg n). destruct (decide (n = 2 ^ Z.log2 n)) as [|Hlt]; [done|].
    assert (Z.testbit (Z.land n (n - 1)) (Z.log2 n) = true) as Hb; [|by rewrite H, Z.bits_0 in Hb].
    rewrite Z.land_spec, Z.bit_log2 by lia. rewrite <- (Z.log2_unique (n - 1) (Z.log2 n)) at 1 by lia. apply Z.bit_log2. lia.
  - intros [-> |(k & Hk & ->)]; [done|]. replace (2 ^ k - 1) with (Z.ones k) by (rewrite Z.ones_equiv; lia).
    rewrite Z.land_ones by done. apply Z.mod_same, Z.pow_nonzero; lia.
Qed.

(** An interrupt without a handler is counted, and it is reported when the count is a power of two, or has run over. *)
Theorem unexpected_spec {frame : Type} (vec_no : frame -> Z) f s h n0 name :
  unexpected_cnt s !! Z.to_nat (vec_no f) = Some n0 -> intr_names s !! Z.to_nat (vec_no f) = Some name ->
  let n := u32 (n0 + 1) in
  exists s', unexpected_interrupt vec_no f (s, h) = Ok (tt, (s', h)) /\
    unexpected_cnt s' = <[Z.to_nat (vec_no f) := n]> (unexpected_cnt s) /\
    (n = 0 \/ (exists k, 0 <= k /\ n = 2 ^ k) -> unexpected_msgs s' = unexpected_msgs s ++ [(vec_no f, name)]) /\
    (~ (n = 0 \/ exists k, 0 <= k /\ n = 2 ^ k) -> unexpected_msgs s' = unexpected_msgs s).
Proof.
  intros Hc Hm n. pose proof (uwrap_range 32 ltac:(lia) (n0 + 1)) as Hr. fold n in Hr. unfold in_u in Hr.
  assert (Z.land n (u32 (n - 1)) = 0 <-> n = 0 \/ exists k, 0 <= k /\ n = 2 ^ k) as Hp.
  { rewrite <- power_of_two by lia. destruct (decide (n = 0)) as [-> |]; [done|]. by rewrite uwrap_id by (unfold in_u; lia). }
  unfold unexpected_interrupt. rewrite (run_bind (getp unexpected_cnt) _ (s, h) (unexpected_cnt s) (s, h) eq_refl), (run_bind _ _ _ _ _ (at_vec_run _ _ _ _ Hc)).
  cbv zeta. fold n. set (s1 := set_unexpected (<[Z.to_nat (vec_no f) := n]> (unexpected_cnt s)) s).
  rewrite (run_bind (modifyp _) _ (s, h) tt (s1, h) eq_refl). destruct (Z.eqb_spec (Z.land n (u32 (n - 1))) 0) as [E|E].
  - rewrite (run_bind (getp intr_names) _ (s1, h) (intr_names s) (s1, h) eq_refl), (run_bind _ _ _ _ _ (at_vec_run _ _ _ _ Hm)).
    eexists. split; [reflexivity|]. split; [done|]. split; [done|]. intros Hn. by destruct Hn; apply Hp.
  - exists s1. split_and!; [done|done| |done]. intros Hn. by destruct E; apply Hp.
Qed.

(** * Examples *)

Definition example_stubs (v : Z) : Z := 0xc0021000 + 16 * v.

Lemma example_stubs_ok v : 0 <= v < 256 -> in_u 32 (example_stubs v) /\ example_stubs v <> NULL.
Proof. unfold in_u, example_stubs, NULL. lia. Qed.

Definition empty_tables : intrs := mkIntrs (replicate 256 0) (replicate 256 None) (replicate 256 EmptyString) (replicate 256 0) 0 [] (fst boot).

Lemma idt_spec_witness : exists s' hist', register_all example_stubs 0xc0030000 (empty_tables, []) = Ok (tt, (s', hist')) /\
  exists g, idt s' !! 0x30%nat = Some g /\ gate_dpl g = 3 /\ gate_type g = 15.
Proof.
  destruct (idt_spec example_stubs 0xc0030000 empty_tables []) as (s' & hist' & E & H); [exact example_stubs_ok|by split|].
  exists s', hist'. split; [exact E|]. destruct (H 0x30 ltac:(lia)) as (g & Hg & F & _). exists g. split; [exact Hg|].
  destruct F as [_ _ _ Ht _ Hd _]. split; [rewrite Hd|rewrite Ht]; reflexivity.
Defined.

Definition booted_tables : intrs :=
  mkIntrs ((fun n => registered_gate example_stubs (Z.of_nat n) (kernel_registry (Z.of_nat n))) <$> seq 0 256)
    ((fun n => fst ∘ fst <$> kernel_registry (Z.of_nat n)) <$> seq 0 256) (replicate 256 EmptyString) (replicate 256 0) 0 [] (fst boot).

Lemma booted_tables_ok : tables example_stubs booted_tables kernel_registry.
Proof.
  split; cbn [idt intr_handlers booted_tables]; [by rewrite length_fmap, length_seq|by rewrite length_fmap, length_seq|..];
    intros v Hv; rewrite list_lookup_fmap, lookup_seq_lt by lia; cbn [fmap option_fmap option_map Nat.add]; by rewrite Z2Nat.id by lia.
Qed.

Lemma deliver_timer_witness : exists cs s' h',
  deliver (fun v : Z => v) (fun _ _ => liftk timer_interrupt) 0x20 (booted_tables, []) = Ok (cs, (s', h')) /\ h' = [IoOut 0x20 0x20].
Proof.
  assert (exists cs k, intr_handler_timer (fst boot) = Ok (cs, k)) as (cs & k & E) by (do 2 eexists; vm_compute; reflexivity).
  exists cs, (set_kern k booted_tables), [IoOut 0x20 0x20]. split; [|reflexivity].
  apply (deliver_timer (fun v : Z => v) (fun _ _ => liftk timer_interrupt) example_stubs 0x20 booted_tables [] cs k);
    [intros v Hv; apply (example_stubs_ok v Hv)|reflexivity|reflexivity|exact booted_tables_ok|exact E].
Defined.

Lemma unexpected_spec_witness : exists s', unexpected_interrupt (fun v : Z => v) 0x22 (booted_tables, []) = Ok (tt, (s', [])) /\
  unexpected_msgs s' = [(0x22, EmptyString)].
Proof.
  destruct (unexpected_spec (fun v : Z => v) 0x22 booted_tables [] 0 EmptyString) as (s' & E & _ & H & _); [reflexivity|reflexivity|].
  exists s'. split; [exact E|]. apply H. right. exists 0. split; [lia|reflexivity].
Defined.
