(* ===== verification/DiskStack.v ===== *)
(** The block layer over the disk driver: reads and writes of Block.v that go down to [ide_read] and [ide_write] of Ide.v
    instead of to a map of sectors, and the proof that they are the same. *)
From Stdlib Require Import ZArith Lia String.
From stdpp Require Import base numbers gmap list.
From S2P Require Import Prelude.
From S2P Require Import StringC.
From S2P Require Import Stdio.
From S2P Require Import Block.
From S2P Require Import Ports.
From S2P Require Import Ide.

Local Open Scope Z_scope.

(** * The stack *)

(** The devices, whose own map of sectors is not used, and the channel with the history of its ports. *)
Abbreviation stack := (devs * (channel * history))%type.
Abbreviation sM := (st stack).

Definition in_block {A} (m : st devs A) : sM A := fun s => match m s.1 with Ok (a, d) => Ok (a, (d, s.2)) | Err e => Err e end.
Definition in_ide {A} (m : st (channel * history) A) : sM A := fun s => match m s.2 with Ok (a, t) => Ok (a, (s.1, t)) | Err e => Err e end.

Section stack.
Context (base : Z) (hw : history -> Z -> Z) (raised : history -> Z -> bool).

(** Disk [d] of the channel, the argument [aux] of the operations of its driver. *)
Definition disk (d : Z) : ata_disk := mkDisk [] base d true.

Fixpoint ide_read_down (fuel : nat) (b sector : Z) : sM (list Z) :=
  match fuel with
  | O => st_fail EFuel
  | S fuel =>
      in_block (check_sector b sector);;
      x ← in_block (get_block b);
      bs ← (match ops x with
            | Disk d => in_ide (ide_read hw raised (disk d) sector)
            | Partition p => ide_read_down fuel (p_block p) (u32 (start p + sector))
            end);
      in_block (upd_block b (fun x => set_read_cnt (u64 (read_cnt x + 1)) x));;
      mret bs
  end.

Fixpoint ide_write_down (fuel : nat) (b sector : Z) (bs : list Z) : sM unit :=
  match fuel with
  | O => st_fail EFuel
  | S fuel =>
      in_block (check_sector b sector);;
      x ← in_block (get_block b);
      assert (negb (bool_decide (type x = BLOCK_FOREIGN)));;
      (match ops x with
       | Disk d => in_ide (ide_write hw raised (disk d) sector bs)
       | Partition p => ide_write_down fuel (p_block p) (u32 (start p + sector)) bs
       end);;
      in_block (upd_block b (fun x => set_write_cnt (u64 (write_cnt x + 1)) x))
  end.

Definition ide_block_read (b sector : Z) : sM (list Z) := l ← in_block (gets all_blocks); ide_read_down (length l) b sector.
Definition ide_block_write (b sector : Z) (bs : list Z) : sM unit := l ← in_block (gets all_blocks); ide_write_down (length l) b sector bs.
End stack.

(** * Simulation *)

Section simulation.
Context (base : Z) (delay : history -> nat) (ident : Z -> list Z) (a0 : ata) (hw : history -> Z -> Z) (raised : history -> Z -> bool).
Context `{!AtaChannel base delay ident a0 hw raised} (Hdelay : forall h, (delay h < 1000)%nat).

(** The sectors can be addressed: the disks are those of the channel, and a sector number has 28 bits. *)
Definition addressable (m : gmap (Z * Z) (list Z)) : Prop :=
  forall d sec, is_Some (m !! (d, sec)) -> (d = 0 \/ d = 1) /\ 0 <= sec < 2 ^ 28.

(** The channel holds the sectors of the devices; the devices of the stack are the same but for their sectors. *)
Definition holds (s : devs) (u : stack) : Prop :=
  u.1 = set_sectors ∅ s /\ disk_holds base delay ident a0 u.2 (sectors s) /\ addressable (sectors s).

(** Whenever the routine of the block layer succeeds, the one of the stack does, with the same value. *)
Definition simulates {A} (ms : sM A) (mb : st devs A) : Prop :=
  forall s u a s', holds s u -> mb s = Ok (a, s') -> exists u', ms u = Ok (a, u') /\ holds s' u'.

Lemma simulates_bind {A B} (ms : sM A) (mb : st devs A) (ks : A -> sM B) (kb : A -> st devs B) :
  simulates ms mb -> (forall a, simulates (ks a) (kb a)) -> simulates (ms ≫= ks) (mb ≫= kb).
Proof.
  intros Hm Hk s u b s' Hu (a & s1 & E1 & E2)%run_bind_inv. destruct (Hm _ _ _ _ Hu E1) as (u1 & F1 & Hu1).
  destruct (Hk _ _ _ _ _ Hu1 E2) as (u2 & F2 & Hu2). exists u2. split; [|done]. by rewrite (run_bind _ _ _ _ _ F1).
Qed.

Lemma simulates_ret {A} (a : A) : simulates (mret a) (mret a).
Proof. intros s u b s' Hu [= <- <-]. by exists u. Qed.

Lemma simulates_fail {A} e e' : simulates (st_fail e : sM A) (st_fail e').
Proof. done. Qed.

Lemma simulates_assert c : simulates (assert c) (assert c).
Proof. destruct c; [apply simulates_ret|apply simulates_fail]. Qed.

(** Routines of the block layer that do not look at the sectors. *)
Lemma simulates_block {A} (m : st devs A) :
  (forall s a s', m s = Ok (a, s') -> m (set_sectors ∅ s) = Ok (a, set_sectors ∅ s') /\ sectors s' = sectors s) -> simulates (in_block m) m.
Proof.
  intros Hm s [d t] a s' (Hd & Ht & Ha) [E Hs]%Hm. cbn in Hd. subst d. exists (set_sectors ∅ s', t). unfold in_block. cbn [fst snd]. rewrite E.
  split; [done|]. unfold holds. cbn [fst snd]. rewrite Hs. done.
Qed.

Lemma simulates_get_block b : simulates (in_block (get_block b)) (get_block b).
Proof. apply simulates_block. intros s a s' H. unfold get_block in *. cbn [blocks set_sectors]. case_match; by simplify_eq. Qed.

Lemma simulates_upd_block b f : simulates (in_block (upd_block b f)) (upd_block b f).
Proof. apply simulates_block. intros s a s' H. unfold upd_block in *. cbn [blocks set_sectors]. case_match; by simplify_eq. Qed.

Lemma simulates_check b sec : simulates (in_block (check_sector b sec)) (check_sector b sec).
Proof.
  apply simulates_block. intros s a s' H. unfold check_sector, get_block, mbind, st_bind in *. cbn [blocks set_sectors].
  destruct (blocks s !! b) as [x|]; [|done]. destruct (size x <=? sec); [done|]. by injection H as <- <-.
Qed.

Lemma simulates_all_blocks : simulates (in_block (gets all_blocks)) (gets all_blocks).
Proof. apply simulates_block. intros s a s' [= <- <-]. done. Qed.

(** ** The disk *)

Lemma simulates_read d sec : simulates (in_ide (ide_read hw raised (disk base d) sec)) (disk_read d sec).
Proof using AtaChannel0 Hdelay.
  intros s [u t] bs s' (Hd & Ht & Ha) H. unfold disk_read in H. destruct (sectors s !! (d, sec)) as [old|] eqn:Hl; [|done]. injection H as <- <-.
  destruct (Ha d sec ltac:(by eexists)) as [Hdn Hs].
  pose proof (run_op_holds base delay ident a0 hw raised Hdelay (DRead (disk base d) sec) t (sectors s) ltac:(done) Ht) as Hr.
  cbn [dev_no disk run_op] in Hr. rewrite Hl in Hr. destruct Hr as (t' & E & Ht'). exists (u, t'). unfold in_ide. cbn [fst snd]. rewrite E. done.
Qed.

Lemma simulates_write d sec bs : sector_ok bs -> simulates (in_ide (ide_write hw raised (disk base d) sec bs)) (disk_write d sec bs).
Proof using AtaChannel0 Hdelay.
  intros Hbs s [u t] [] s' (Hd & Ht & Ha) H. unfold disk_write in H. destruct (sectors s !! (d, sec)) as [old|] eqn:Hl; [|done]. injection H as <-.
  destruct (Ha d sec ltac:(by eexists)) as [Hdn Hs].
  pose proof (run_op_holds base delay ident a0 hw raised Hdelay (DWrite (disk base d) sec bs) t (sectors s) ltac:(done) Ht) as Hr.
  cbn [dev_no disk run_op] in Hr. rewrite Hl in Hr. destruct Hr as (t' & E & Ht'). apply run_bind_inv in E as ([] & t1 & E & E1). injection E1 as <-.
  exists (u, t1). unfold in_ide. cbn [fst snd]. rewrite E. split; [done|]. split_and!; [cbn [fst]; cbn [fst] in Hd; by rewrite Hd|done|].
  intros d2 sec2 Hin. cbn [sectors set_sectors] in Hin. apply Ha. rewrite lookup_insert_is_Some in Hin.
  destruct Hin as [[= <- <-]|[_ Hin]]; [by eexists|done].
Qed.

Lemma simulates_read_down fuel : forall b sec, simulates (ide_read_down base hw raised fuel b sec) (read_down fuel b sec).
Proof using AtaChannel0 Hdelay.
  induction fuel as [|fuel IH]; intros b sec; [apply simulates_fail|]. cbn [ide_read_down read_down].
  apply simulates_bind; [apply simulates_check|intros _]. apply simulates_bind; [apply simulates_get_block|intros x].
  apply simulates_bind; [destruct (ops x) as [d|p]; [apply simulates_read|apply IH]|intros bs].
  apply simulates_bind; [apply simulates_upd_block|intros _]. apply simulates_ret.
Qed.

Lemma simulates_write_down fuel : forall b sec bs, sector_ok bs -> simulates (ide_write_down base hw raised fuel b sec bs) (write_down fuel b sec bs).
Proof using AtaChannel0 Hdelay.
  induction fuel as [|fuel IH]; intros b sec bs Hbs; [apply simulates_fail|]. cbn [ide_write_down write_down].
  apply simulates_bind; [apply simulates_check|intros _]. apply simulates_bind; [apply simulates_get_block|intros x].
  apply simulates_bind; [apply simulates_assert|intros _].
  apply simulates_bind; [destruct (ops x) as [d|p]; [by apply simulates_write|by apply IH]|intros _]. apply simulates_upd_block.
Qed.

Lemma simulates_block_read b sec : simulates (ide_block_read base hw raised b sec) (block_read b sec).
Proof using AtaChannel0 Hdelay. apply simulates_bind; [apply simulates_all_blocks|intros l; apply simulates_read_down]. Qed.

Lemma simulates_block_write b sec bs : sector_ok bs -> simulates (ide_block_write base hw raised b sec bs) (block_write b sec bs).
Proof using AtaChannel0 Hdelay. intros Hbs. apply simulates_bind; [apply simulates_all_blocks|intros l; by apply simulates_write_down]. Qed.
End simulation.

(** C40: A write through the block layer and the disk driver, to a sector of a disk or of a partition of one, goes through the
    registers of the channel, succeeds, and a read of the same sector through both then returns what was written, while the
    channel holds the sectors that the block layer means.  Neither the device nor one that it is a part of is foreign, to which
    [block_write] refuses to write, and the disks are never busy for 1000 polls or more. *)
Theorem disk_stack_spec base delay ident a0 hw raised {H : AtaChannel base delay ident a0 hw raised} s u b x sec bs :
  (forall h, (delay h < 1000)%nat) -> devs_ok s -> holds base delay ident a0 s u -> blocks s !! b = Some x -> 0 <= sec < size x ->
  writable (blocks s) b -> sector_ok bs ->
  exists s' u' u'', ide_block_write base hw raised b sec bs u = Ok (tt, u') /\ holds base delay ident a0 s' u' /\ same_devices s s' /\
    ide_block_read base hw raised b sec u' = Ok (bs, u'') /\
    exists r, at_disk (blocks s) b sec r /\ sectors s' = <[r := bs]> (sectors s) /\ media (device base ident delay a0 u'.2.2) = <[r := bs]> (sectors s).
Proof.
  intros Hdelay Hok Hu Hx Hsec Hw Hbs.
  destruct (block_write_run s Hok b x sec bs Hx Hsec Hw) as (r & s' & E & Hat & [old Hold] & Hsame & Hsecs).
  destruct (simulates_block_write base delay ident a0 hw raised Hdelay b sec bs Hbs s u tt s' Hu E) as (u' & F & Hu').
  pose proof (at_disk_sector s b x sec r old Hok Hx Hsec Hat Hold) as Hlen. unfold BLOCK_SECTOR_SIZE in Hlen.
  assert (devs_ok s') as Hok'.
  { eapply devs_ok_same; [done|done|]. apply (write_kept s s' r bs); [done|by eexists| |done]. intros o Ho. rewrite Hold in Ho. injection Ho as <-.
    destruct Hbs as [Hbs _]. lia. }
  destruct (same_lookup _ _ _ _ Hsame Hx) as (y & Hy & (_ & _ & Ez & _)).
  destruct (block_read_run s' Hok' b y sec Hy ltac:(lia)) as (r' & v & s2 & E2 & Hat' & Hv & _).
  pose proof (at_disk_det _ _ _ _ (at_disk_same _ _ _ _ _ Hsame Hat) _ Hat') as <-. rewrite Hsecs, lookup_insert_eq in Hv. injection Hv as <-.
  destruct (simulates_block_read base delay ident a0 hw raised Hdelay b sec s' u' bs s2 Hu' E2) as (u'' & F2 & _).
  exists s', u', u''. split_and!; [done|done|done|done|]. exists r. split_and!; [done|done|]. rewrite <- Hsecs. apply Hu'.
Qed.

(** * Example *)

Definition demo_ata : ata := mkAta (mkRegs 0 0 0 0 0) Idle 3 7 false (sectors (demo_devs demo_pt)).
Definition demo_stack : stack := (set_sectors ∅ (demo_devs demo_pt), (new_channel 0, [])).

Lemma demo_sectors d sec bs : sectors (demo_devs demo_pt) !! (d, sec) = Some bs -> d = 0 /\ 0 <= sec < 64 /\ sector_ok bs.
Proof.
  intros H%elem_of_list_to_map_2%list_elem_of_fmap. destruct H as (i & [= -> -> ->] & Hi%elem_of_seqZ). split; [done|]. split; [lia|].
  destruct (i =? 0); [|apply filled_sector_ok; unfold in_u; lia].
  split; [by vm_compute|]. unfold in_u. apply (bool_decide_unpack _). by vm_compute.
Qed.

Lemma demo_holds : holds 0x1f0 example_delay (fun _ => []) demo_ata (demo_devs demo_pt) demo_stack.
Proof.
  split_and!; [done| |].
  - unfold disk_holds, demo_ata. cbn [demo_stack fst snd device media a_phase a_busy a_other]. split_and!; [done|done|done|done|lia|lia|].
    intros [d sec] bs H. by eapply demo_sectors.
  - intros d sec [bs H]. apply demo_sectors in H as (-> & Hs & _). lia.
Qed.

Lemma disk_stack_spec_witness : exists u' u'',
  ide_block_write 0x1f0 (ata_hw 0x1f0 example_delay (fun _ => []) demo_ata) (ata_raised 0x1f0 example_delay (fun _ => []) demo_ata) 256 9 (replicate 512 7) demo_stack = Ok (tt, u') /\
  ide_block_read 0x1f0 (ata_hw 0x1f0 example_delay (fun _ => []) demo_ata) (ata_raised 0x1f0 example_delay (fun _ => []) demo_ata) 256 9 u' = Ok (replicate 512 7, u'').
Proof.
  destruct (disk_stack_spec 0x1f0 example_delay (fun _ => []) demo_ata _ _ (demo_devs demo_pt) demo_stack 256
    (mkBlock (chars "hda") BLOCK_RAW 64 (Disk 0) 0 0) 9 (replicate 512 7)) as (s' & u' & u'' & F & _ & _ & F2 & _).
  - exact example_delay_short.
  - by apply demo_ok.
  - exact demo_holds.
  - reflexivity.
  - cbn [size]. lia.
  - by eapply writable_disk.
  - apply filled_sector_ok. unfold in_u. lia.
  - exists u', u''. split; [exact F|exact F2].
Defined.
